(* ===== verification/_CoqProject ===== *)
-Q . S2P
Prelude.v
CMem.v
Bytes.v
Str.v
Libk.v
Bitmap.v
Pmm.v
Frames.v
Paging.v
PagingWin.v
PagingMap.v
PagingOps.v
PagingThm.v
GrowBitmap.v
Spinlock.v
Cpu.v
Signal.v
SchedState.v
Sched.v
SchedQueue.v
SchedWf.v
SchedTick.v
SchedThm.v
SchedRun.v
SchedProps.v
SchedWake.v
StateM.v
Rbt.v
RbtTree.v
RbtInv.v
RbtInsert.v
RbtDelete.v
RbtThm.v
Vma.v
VmaOps.v
VmaFind.v
VmaMap.v
VmaThm.v
Pipe.v
PipeRace.v
PipeThm.v
Futex.v
FutexThm.v
Fd.v
FdOps.v
FdFork.v
FdThm.v
FdIo.v
FdIoOps.v
FdIoThm.v
Fat32.v
Fat32Inv.v
Fat32File.v
Fat32Ops.v
Fat32Free.v
Fat32Thm.v
Fat32Fd.v
Fat32Demo.v
Kalloc.v
KallocHeap.v
KallocOps.v
KallocThm.v
Net.v
NetTcp.v
NetRx.v
NetSum.v
NetFrame.v
NetIcmp.v
NetOpts.v
NetSeg.v
NetRace.v
NetServe.v
NetDemo.v
Unix.v
UnixThm.v
UnixStream.v
UnixConn.v
Mmap.v
MmapThm.v
MprotThm.v
