(* ===== verification/Prelude.v ===== *)
(** * Voxia: a verification development of the kernel

    Voxia ([src/kernel]) is a kernel for x86-64 written in C.  This library
    translates its core into executable definitions and proves what the parts
    promise to each other and to programs.  This file is the root: machine
    integers, the outcome monad, bounded arrays, and the tactics, hints and
    lemmas the other files share.

    ** How the code is modelled

    - Integers are [Z], kept in their width with [u8], [u16], [u32], [u64],
      [s32], [s64] where the code relies on wrapping; bit operations are those
      of [Z].
    - A result is [res]: [Ok], [Fault] (an access the C code must not make:
      outside an array, through a null or dangling pointer) or [NoFuel].
      [aget] and [aset] are array accesses with their bounds.
    - Code on one mutable structure runs in the state monad [SM] of [StateM];
      [swp] is its weakest precondition for returning, so a proved [swp] says
      that the call returns, without a fault and within its fuel.
    - Pointers are addresses into finite maps of objects, so sharing and
      dangling are those of the code.  0 is the null pointer.
    - Code that runs at the same time on several cores is cut into its accesses
      to shared fields, and a step relation interleaves them.
    - A call that blocks stops where the code switches to another thread; a
      second definition is the rest of the call.
    - Names are those of the source where Rocq allows it.

    ** The parts

    Each line names the files, the source under [src/kernel] and what is
    proved.

    - [CMem], [Bytes], [Str], [Libk]: byte memory, the string and memory
      routines ([libk/str/str.c]), and in modules of [Libk] hashes, integer
      helpers, Unicode codecs, the octal parser and the bit reader.  Every
      routine computes its specification within stated fuel.
    - [Bitmap], [Pmm], [Frames]: [memory/phys_base_allocator.c].  First fit,
      clients never share a frame, the boot memory map is respected.  [Frames]
      states what the users of frames rely on as the class [FrameSource], and
      [Pmm] is its instance.
    - [Paging], [PagingWin], [PagingMap], [PagingOps], [PagingThm]:
      [hal/cpu/paging.c] and [memory/phys_window.c].  [xl] is the processor's
      walk, [xa] the access bits of the entry it ends at; mapping one page or a
      range changes both for exactly these pages, keeps the tables well formed,
      takes its frames from the [FrameSource] and changes no other frame in use
      ([kept]).
    - [GrowBitmap]: [libk/grow_bitmap.h], the pages of the kernel regions.
    - [Spinlock]: [hal/cpu/spinlock.c].  Mutual exclusion and progress of the
      ticket lock over all interleavings.
    - [Cpu], [Signal]: register frames ([hal/cpu/interrupt.h], [register.h])
      and signals ([sys/sig.c], [sys/syscall.c]): what is delivered, and that
      the return from a handler restores the interrupted registers.
    - [SchedState], [Sched], [SchedQueue], [SchedWf], [SchedTick], [SchedThm],
      [SchedRun], [SchedProps], [SchedWake]: [procc/scheduler.c].  The tick
      keeps the invariant [wf] and follows no bad pointer, preempts after the
      slice, is fair, and loops for ever in one case that is described; a wake
      is never lost against a block, but one can be against a sleep.
    - [Rbt], [RbtTree], [RbtInv], [RbtInsert], [RbtDelete], [RbtThm]:
      [libk/tree/rbt.h], pointer trees with parents; trees and paths own heap
      cells.  Insertion and removal keep order, colours and balance.
    - [Vma], [VmaOps], [VmaFind], [VmaMap], [VmaThm]:
      [memory/vm_manager.c] over the tree and the page tables.  An address
      space refines a finite map; free ranges are found first fit.
    - [Mmap], [MmapThm], [MprotThm]: [sys/syscall/mmap.c], [mprotect.c].
      Anonymous mmap and mprotect, composed from areas, frames, page tables:
      where the pages are, and what user code may do with them.
    - [Kalloc], [KallocHeap], [KallocOps], [KallocThm]: [memory/kalloc.c].
      Blocks never overlap and a client reads what it wrote; pages come from the
      class [KernelVm] with the laws [VmLaws].
    - [Pipe], [PipeRace], [PipeThm]: [sys/syscall/pipe.c].  The ring is a FIFO
      for one writer and one reader in every interleaving.
    - [Futex], [FutexThm]: [sys/syscall/futex.c].  A wake takes the waiters of
      its address out of the table and wakes them; a wake for a thread that is
      about to block is not lost if the thread is among the first waiters.
    - [Fd], [FdOps], [FdFork], [FdThm]: [sys/fd.c], dup, fcntl, close, pipe2,
      fork and exec.  Every open file counts its descriptors.
    - [FdIo], [FdIoOps], [FdIoThm]: read, write, readv, writev, lseek, fsync.
      The write buffer is invisible to a program.  The file system is the class
      [FileOps] with the laws [FileLaws].
    - [Fat32], [Fat32Inv], [Fat32File], [Fat32Ops], [Fat32Free], [Fat32Thm],
      [Fat32Fd], [Fat32Demo]: [libk/fs/fat32.c] on the class [BlockDev] with
      [DiskLaws].  Reading, writing and truncating act on the bytes of one file;
      [Fat32Fd] is the instance of [FileLaws], so the theorem on buffered
      programs holds of clusters on the disk.
    - [Net], [NetTcp], [NetRx] and [NetSum], [NetFrame], [NetIcmp],
      [NetOpts], [NetSeg], [NetRace], [NetServe], [NetDemo]: [net] and
      [sys/ioforge/ioforge_nic.c].  Checksums equal RFC 1071; the frames in
      the receive ring are answered in order, by the answers to ARP, ICMP and
      TCP that the theorems describe, deviations from the protocols included;
      the ring is safe against the driver in every interleaving.
    - [Unix], [UnixThm], [UnixStream], [UnixConn]: [net/socket.c] and the calls
      socket, bind, listen, connect, accept, sendto, recvfrom on local sockets.
      Every call keeps the invariant or is one of those described that access
      another object as a socket; connect and accept make connections in order;
      a connection refines two byte queues.

    Properties are the theorems whose comment starts with C and a number; a
    lemma that ends in [_witness] applies one to a concrete state.

    ** Fuel and bounds

    Counted loops recurse on their count.  A loop or recursion that is not
    structural takes fuel, and its theorems say how much is enough: the length
    of a string and one; the height of a tree, at most twice the logarithm of
    its size; one turn per area for the search of a free range; the clusters of
    a volume for a chain; 41 rounds for the options of a segment, whose header
    has 60 bytes; one round more than the 4096 places of a ring.  Where
    the code can loop for ever the model runs out of every fuel, and that is
    proved.  Machine-width bounds (addresses below 2^47 for user memory, frames
    below 2^52, counters that wrap) are hypotheses or conclusions where they
    matter.

    ** Parameters

    Code outside [src/kernel] or left out is an argument: clocks, interrupt
    controllers and the idle loop ([Platform]), random numbers and the network
    card, path lookup for local sockets, [kalloc] where only its success
    matters.  Laws on them are classes or hypotheses, each met by an instance
    in a witness.

    ** Not modelled

    - Directories and mounting of FAT32, ISO 9660, the tar reader's walk and the
      VFS caches: the dentry cache frees through grace periods and callbacks
      that need a model of all file systems at once; files meet them
      through [FileOps].
    - Process creation, ELF loading and the work queue; of fork and exec only
      what happens to descriptors, areas and signals.
    - The slab caches: areas and nodes see a cache as the objects it has left.
    - [brk]: it maps the new frames in two trees of page tables, and the
      theorems on tables are about one.
    - The table of network devices, Internet sockets beyond the receive path,
      routes.
    - Terminals, input, sound, graphics, buses, interrupt controllers, timers,
      driver modules, assembly: device registers and pixels, whose meaning is
      the hardware's.
    - Start-up, user space and the C library kept in the tree.

    Memory is sequentially consistent in the models of concurrency. *)

From stdpp Require Export base tactics numbers list option gmap.
From Stdlib Require Export ZArith Lia.

#[global] Open Scope Z_scope.

#[global] Arguments Z.eqb !_ !_ : simpl nomatch.
#[global] Arguments Z.ltb !_ !_ : simpl nomatch.
#[global] Arguments Z.leb !_ !_ : simpl nomatch.

(** ** Machine integers *)

Definition u8 (x : Z) : Z := x mod 2 ^ 8.
Definition u16 (x : Z) : Z := x mod 2 ^ 16.
Definition u32 (x : Z) : Z := x mod 2 ^ 32.
Definition u64 (x : Z) : Z := x mod 2 ^ 64.
Definition s8 (x : Z) : Z := (x + 2 ^ 7) mod 2 ^ 8 - 2 ^ 7.
Definition s32 (x : Z) : Z := (x + 2 ^ 31) mod 2 ^ 32 - 2 ^ 31.
Definition s64 (x : Z) : Z := (x + 2 ^ 63) mod 2 ^ 64 - 2 ^ 63.

(** [~x] of an unsigned operand of the given width. *)
Definition not8 (x : Z) : Z := u8 (Z.lnot x).
Definition not32 (x : Z) : Z := u32 (Z.lnot x).
Definition not64 (x : Z) : Z := u64 (Z.lnot x).

(** [include/memory/memory_utils.h]: [ALIGN_UP] and [ALIGN_DOWN] at
    [uintptr_t]. *)
Definition ALIGN_UP (x align : Z) : Z :=
  Z.land (u64 (x + u64 (align - 1))) (not64 (u64 (align - 1))).
Definition ALIGN_DOWN (x align : Z) : Z :=
  Z.land x (not64 (u64 (align - 1))).

(** *** Bit arithmetic *)

Lemma testbit_small b k i : 0 ≤ b < 2 ^ k → k ≤ i → Z.testbit b i = false.
Proof.
  intros Hb Hi. destruct (decide (0 ≤ k)).
  - rewrite <- (Z.mod_small b (2 ^ k)) by lia. apply Z.mod_pow2_bits_high. lia.
  - rewrite Z.pow_neg_r in Hb by lia. lia.
Qed.

Lemma land_shiftl_small a b k : 0 ≤ k → 0 ≤ b < 2 ^ k → Z.land (Z.shiftl a k) b = 0.
Proof.
  intros Hk Hb. apply Z.bits_inj'. intros i Hi. rewrite Z.land_spec, Z.bits_0.
  destruct (decide (i < k)).
  - by rewrite Z.shiftl_spec_low.
  - by rewrite (testbit_small b k), andb_false_r by lia.
Qed.

(** Disjoint fields: [|] is [+]. *)
Lemma lor_shiftl_add a b k :
  0 ≤ k → 0 ≤ b < 2 ^ k → Z.lor (Z.shiftl a k) b = a * 2 ^ k + b.
Proof.
  intros Hk Hb. rewrite <- Z.lxor_lor by (by apply land_shiftl_small).
  rewrite <- Z.add_nocarry_lxor by (by apply land_shiftl_small).
  by rewrite Z.shiftl_mul_pow2.
Qed.

Lemma lor_mul_add a b k :
  0 ≤ k → 0 ≤ b < 2 ^ k → Z.lor (a * 2 ^ k) b = a * 2 ^ k + b.
Proof.
  intros. rewrite <- (lor_shiftl_add a b k) by done.
  by rewrite Z.shiftl_mul_pow2.
Qed.

Lemma land_ones_mod a k : 0 ≤ k → Z.land a (2 ^ k - 1) = a mod 2 ^ k.
Proof. intros. rewrite <- Z.land_ones, Z.ones_equiv by done. f_equal; lia. Qed.

Lemma shiftr_div a k : 0 ≤ k → Z.shiftr a k = a / 2 ^ k.
Proof. apply Z.shiftr_div_pow2. Qed.

(** Testing one bit with a mask. *)
Lemma land_bit_zero w b : 0 ≤ b → (Z.land w (Z.shiftl 1 b) =? 0) = negb (Z.testbit w b).
Proof.
  intros Hb. rewrite Z.shiftl_1_l. destruct (Z.testbit w b) eqn:E; simpl.
  - apply Z.eqb_neq. intros H0. apply (f_equal (λ z, Z.testbit z b)) in H0.
    rewrite Z.land_spec, E, Z.pow2_bits_true, Z.bits_0 in H0 by lia. done.
  - apply Z.eqb_eq. apply Z.bits_inj'. intros k Hk. rewrite Z.land_spec, Z.bits_0.
    rewrite Z.pow2_bits_eqb by lia. destruct (Z.eqb_spec b k) as [<-|]; [by rewrite E|].
    apply andb_false_r.
Qed.

(** Clearing the low [k] bits of a 64-bit value. *)
Lemma land_not64_low x k :
  0 ≤ k < 64 → 0 ≤ x < 2 ^ 64 → Z.land x (not64 (2 ^ k - 1)) = x / 2 ^ k * 2 ^ k.
Proof.
  intros Hk Hx. apply Z.bits_inj'. intros i Hi.
  rewrite Z.land_spec. unfold not64, u64.
  assert (0 < 2 ^ k) by lia.
  destruct (decide (i < 64)).
  - rewrite Z.mod_pow2_bits_low, Z.lnot_spec by lia.
    replace (2 ^ k - 1) with (Z.ones k) by (rewrite Z.ones_equiv; lia).
    destruct (decide (i < k)).
    + rewrite Z.ones_spec_low, Z.mul_pow2_bits_low by lia. apply andb_false_r.
    + rewrite Z.ones_spec_high, Z.mul_pow2_bits, Z.div_pow2_bits by lia.
      rewrite andb_true_r. f_equal. lia.
  - rewrite (testbit_small x 64) by lia. simpl.
    rewrite Z.mul_pow2_bits, Z.div_pow2_bits by lia.
    by rewrite (testbit_small x 64) by lia.
Qed.

Lemma ALIGN_DOWN_pow2 x k :
  0 ≤ k < 64 → 0 ≤ x < 2 ^ 64 → ALIGN_DOWN x (2 ^ k) = x / 2 ^ k * 2 ^ k.
Proof.
  intros Hk Hx. unfold ALIGN_DOWN.
  assert (0 < 2 ^ k < 2 ^ 64) by (split; [lia|apply Z.pow_lt_mono_r; lia]).
  rewrite <- land_not64_low by done. f_equal. f_equal. unfold u64. apply Z.mod_small. lia.
Qed.

Lemma ALIGN_UP_pow2 x k :
  0 ≤ k < 64 → 0 ≤ x → x + 2 ^ k ≤ 2 ^ 64 →
  ALIGN_UP x (2 ^ k) = (x + (2 ^ k - 1)) / 2 ^ k * 2 ^ k.
Proof.
  intros Hk Hx Hs. unfold ALIGN_UP.
  assert (0 < 2 ^ k < 2 ^ 64) by (split; [lia|apply Z.pow_lt_mono_r; lia]).
  assert (u64 (2 ^ k - 1) = 2 ^ k - 1) as -> by (apply Z.mod_small; lia).
  assert (u64 (x + (2 ^ k - 1)) = x + (2 ^ k - 1)) as -> by (apply Z.mod_small; lia).
  apply land_not64_low; lia.
Qed.

(** ** Outcomes *)

(** [Ok]: the code returns; [Fault]: it touches memory outside the object it
    indexes; [NoFuel]: the bound of the evaluation was too small.  Theorems
    about code that returns are stated as equations with [Ok]. *)
Inductive res (A : Type) : Type :=
| Ok (a : A)
| Fault
| NoFuel.
Arguments Ok {_} _.
Arguments Fault {_}.
Arguments NoFuel {_}.

#[global] Instance res_ret : MRet res := fun _ a => Ok a.
#[global] Instance res_bind : MBind res := fun _ _ f m =>
  match m with Ok a => f a | Fault => Fault | NoFuel => NoFuel end.
#[global] Instance res_fmap : FMap res := fun _ _ f m =>
  match m with Ok a => Ok (f a) | Fault => Fault | NoFuel => NoFuel end.

#[global] Instance res_eq_dec {A} `{EqDecision A} : EqDecision (res A).
Proof. solve_decision. Defined.

Lemma res_bind_ok {A B} (m : res A) (f : A → res B) (b : B) :
  (m ≫= f) = Ok b ↔ ∃ a, m = Ok a ∧ f a = Ok b.
Proof. destruct m; simpl; naive_solver. Qed.

Lemma bind_Ok {A B} (a : A) (f : A → res B) : (Ok a ≫= f) = f a.
Proof. done. Qed.

(** ** Bounded arrays indexed by machine integers *)

Definition aget {A} (l : list A) (i : Z) : res A :=
  if (0 <=? i) then
    match l !! Z.to_nat i with Some x => Ok x | None => Fault end
  else Fault.

Definition aset {A} (l : list A) (i : Z) (x : A) : res (list A) :=
  if (0 <=? i) && (i <? Z.of_nat (length l))
  then Ok (<[Z.to_nat i := x]> l) else Fault.

Abbreviation zlen l := (Z.of_nat (length l)).

(** Total view of an array, for specifications. *)
Definition at_ {A} `{Inhabited A} (l : list A) (i : Z) : A :=
  l !!! Z.to_nat i.

Lemma aget_ok {A} `{Inhabited A} (l : list A) (i : Z) :
  0 ≤ i < Z.of_nat (length l) → aget l i = Ok (at_ l i).
Proof.
  intros Hi. unfold aget, at_.
  destruct (Z.leb_spec 0 i); [|lia].
  destruct (lookup_lt_is_Some_2 l (Z.to_nat i)) as [x Hx]; [lia|].
  by rewrite Hx, (list_lookup_total_correct _ _ _ Hx).
Qed.

Lemma aget_inv {A} `{Inhabited A} (l : list A) (i : Z) x :
  aget l i = Ok x → 0 ≤ i < Z.of_nat (length l) ∧ at_ l i = x.
Proof.
  unfold aget, at_. destruct (Z.leb_spec 0 i); [|done].
  destruct (l !! Z.to_nat i) as [y|] eqn:E; [|done]. intros [= ->].
  split; [apply lookup_lt_Some in E; lia|].
  by apply list_lookup_total_correct.
Qed.

Lemma aset_ok {A} (l : list A) (i : Z) (x : A) :
  0 ≤ i < Z.of_nat (length l) → aset l i x = Ok (<[Z.to_nat i := x]> l).
Proof.
  intros Hi. unfold aset.
  destruct (Z.leb_spec 0 i), (Z.ltb_spec i (Z.of_nat (length l))); done || lia.
Qed.

Lemma aset_inv {A} (l : list A) (i : Z) (x : A) l' :
  aset l i x = Ok l' →
  0 ≤ i < Z.of_nat (length l) ∧ l' = <[Z.to_nat i := x]> l.
Proof.
  unfold aset.
  destruct (Z.leb_spec 0 i), (Z.ltb_spec i (Z.of_nat (length l))); simpl; try done.
  intros [= <-]. done.
Qed.

Lemma at_insert {A} `{Inhabited A} (l : list A) (i j : Z) (x : A) :
  0 ≤ i < Z.of_nat (length l) → 0 ≤ j →
  at_ (<[Z.to_nat i := x]> l) j = if decide (i = j) then x else at_ l j.
Proof.
  intros Hi Hj. unfold at_. case_decide as E.
  - subst. apply list_lookup_total_insert_eq. lia.
  - apply list_lookup_total_insert_ne. lia.
Qed.

Lemma at_cons {A} `{Inhabited A} (x : A) (l : list A) (i : Z) :
  at_ (x :: l) i = if decide (i ≤ 0) then x else at_ l (i - 1).
Proof.
  unfold at_. case_decide; [by replace (Z.to_nat i) with 0%nat by lia|].
  by replace (Z.to_nat i) with (S (Z.to_nat (i - 1))) by lia.
Qed.

Lemma at_app {A} `{Inhabited A} (l k : list A) (i : Z) :
  0 ≤ i → at_ (l ++ k) i = if decide (i < Z.of_nat (length l)) then at_ l i else at_ k (i - Z.of_nat (length l)).
Proof.
  intros Hi. unfold at_. case_decide.
  - apply lookup_total_app_l. lia.
  - rewrite lookup_total_app_r by lia. f_equal. lia.
Qed.

Lemma at_take {A} `{Inhabited A} (n : nat) (l : list A) (i : Z) :
  0 ≤ i < Z.of_nat n → at_ (take n l) i = at_ l i.
Proof. intros Hi. unfold at_. apply lookup_total_take_lt. lia. Qed.

Lemma at_drop {A} `{Inhabited A} (n : nat) (l : list A) (i : Z) :
  0 ≤ i → at_ (drop n l) i = at_ l (i + Z.of_nat n).
Proof. intros Hi. unfold at_. rewrite lookup_total_drop. f_equal. lia. Qed.

Lemma at_ext {A} `{Inhabited A} (l k : list A) :
  length l = length k →
  (∀ i, 0 ≤ i < Z.of_nat (length l) → at_ l i = at_ k i) → l = k.
Proof.
  intros Hlen Hat. apply list_eq_same_length with (length l); [done|done|].
  intros i x y Hi Hx Hy.
  specialize (Hat (Z.of_nat i) ltac:(lia)). unfold at_ in Hat.
  rewrite Nat2Z.id in Hat.
  by rewrite (list_lookup_total_correct _ _ _ Hx),
    (list_lookup_total_correct _ _ _ Hy) in Hat.
Qed.

(** ** Finite checks *)

(** A boolean property of the integers below a bound, by evaluation. *)
Lemma forall_below (n : nat) (P : Z → bool) :
  forallb (λ k, P (Z.of_nat k)) (seq 0 n) = true →
  ∀ x, 0 ≤ x < Z.of_nat n → P x = true.
Proof.
  rewrite forallb_forall. intros H x Hx.
  rewrite <- (Z2Nat.id x) by lia. apply H. apply in_seq. lia.
Qed.

(** ** Tactics *)

(** Linear arithmetic with [/] and [mod] by constants. *)
Ltac dlia := Z.to_euclidean_division_equations; lia.

(** Case analysis on the boolean comparisons of a goal or hypothesis. *)
Ltac zcase_in t :=
  match t with
  | context [Z.eqb ?a ?b] => destruct (Z.eqb_spec a b)
  | context [Z.ltb ?a ?b] => destruct (Z.ltb_spec a b)
  | context [Z.leb ?a ?b] => destruct (Z.leb_spec a b)
  | context [Z.gtb ?a ?b] => rewrite (Z.gtb_ltb a b) in *; destruct (Z.ltb_spec b a)
  | context [Z.geb ?a ?b] => rewrite (Z.geb_leb a b) in *; destruct (Z.leb_spec b a)
  end.
Ltac zcase := match goal with |- ?g => zcase_in g end.
Ltac zcases := repeat (zcase; simpl; try done; try lia).

(** Run the first bind of a goal after its argument was rewritten to [Ok].
    Long loops stay folded, also for the kernel. *)
Ltac step_ok := rewrite bind_Ok; cbv beta iota.

(** Invert a chain of [Ok] binds in a hypothesis. *)
Ltac res_inv H :=
  repeat match type of H with
  | (_ ≫= _) = Ok _ =>
      apply res_bind_ok in H; destruct H as (? & ? & H); cbv beta in H
  | Ok _ = Ok _ => injection H as H
  | Fault = Ok _ => discriminate H
  | NoFuel = Ok _ => discriminate H
  end.

Create HintDb voxia.
#[export] Hint Resolve aget_ok aset_ok : voxia.
