(* ===== verification/CMem.v ===== *)
(** * Byte-addressed memory

    The memory the C code of [kernel/libk] works on: a finite map from
    addresses to bytes.  An access to an address outside the map is a
    [Fault].  The predicates [bytes_at], [mapped] and [cstr] describe the
    arrays and NUL-terminated strings the functions are called with, and
    [write_bytes] is the specification-level update. *)

From S2P Require Import Prelude.

Abbreviation mem := (gmap Z Z).

Definition load8 (m : mem) (p : Z) : res Z :=
  match m !! p with Some b => Ok b | None => Fault end.

Definition store8 (m : mem) (p b : Z) : res mem :=
  match m !! p with Some _ => Ok (<[p := b]> m) | None => Fault end.

(** Object representation of an unsigned integer of [n] bytes. *)
Fixpoint le_bytes (n : nat) (w : Z) : list Z :=
  match n with
  | O => []
  | S n => u8 w :: le_bytes n (Z.shiftr w 8)
  end.

Fixpoint le_value (bs : list Z) : Z :=
  match bs with
  | [] => 0
  | b :: bs => Z.lor b (Z.shiftl (le_value bs) 8)
  end.

(** ** Specification predicates *)

Fixpoint bytes_at (m : mem) (p : Z) (bs : list Z) : Prop :=
  match bs with
  | [] => True
  | b :: bs => m !! p = Some b ∧ bytes_at m (p + 1) bs
  end.

Fixpoint cstr (m : mem) (p : Z) (s : list Z) : Prop :=
  match s with
  | [] => m !! p = Some 0
  | c :: s => m !! p = Some c ∧ c ≠ 0 ∧ cstr m (p + 1) s
  end.

Definition mapped (m : mem) (p n : Z) : Prop :=
  ∀ a, p ≤ a < p + n → is_Some (m !! a).

Fixpoint write_bytes (m : mem) (p : Z) (bs : list Z) : mem :=
  match bs with
  | [] => m
  | b :: bs => write_bytes (<[p := b]> m) (p + 1) bs
  end.

(** ** Accesses *)

Lemma load8_ok m p b : m !! p = Some b → load8 m p = Ok b.
Proof. unfold load8. by intros ->. Qed.

Lemma store8_ok m p b : is_Some (m !! p) → store8 m p b = Ok (<[p := b]> m).
Proof. unfold store8. by intros [x ->]. Qed.

#[export] Hint Resolve load8_ok store8_ok : voxia.

(** ** Ranges *)

Lemma mapped_head m p n : mapped m p n → 0 < n → is_Some (m !! p).
Proof. intros H ?. apply H. lia. Qed.

Lemma mapped_sub m p n q k :
  mapped m p n → p ≤ q → q + k ≤ p + n → mapped m q k.
Proof. intros H ?? a ?. apply H. lia. Qed.

Lemma mapped_insert m p n a b : mapped m p n → mapped (<[a := b]> m) p n.
Proof.
  intros H x Hx. destruct (decide (a = x)) as [->|].
  - by rewrite lookup_insert_eq.
  - rewrite lookup_insert_ne by done. by apply H.
Qed.

Lemma bytes_at_mapped m p bs : bytes_at m p bs → mapped m p (zlen bs).
Proof.
  revert p. induction bs as [|b bs IH]; intros p; simpl; intros H a Ha; [lia|].
  destruct H as [H1 H2]. destruct (decide (a = p)) as [->|]; [by eexists|].
  apply (IH (p + 1) H2). lia.
Qed.

Lemma bytes_at_insert m p bs a b :
  bytes_at m p bs → a < p ∨ p + zlen bs ≤ a →
  bytes_at (<[a := b]> m) p bs.
Proof.
  revert p. induction bs as [|c bs IH]; intros p; simpl; [done|].
  intros [H1 H2] Ha. split.
  - rewrite lookup_insert_ne by lia. done.
  - apply IH; [done|lia].
Qed.

Lemma bytes_at_lookup m p bs (i : nat) b :
  bytes_at m p bs → bs !! i = Some b → m !! (p + Z.of_nat i) = Some b.
Proof.
  revert p i. induction bs as [|c bs IH]; intros p i; [done|].
  intros [H1 H2]. destruct i as [|i]; simpl.
  - intros [= ->]. by rewrite Z.add_0_r.
  - intros Hi. rewrite <- (IH (p + 1) i H2 Hi). f_equal. lia.
Qed.

Lemma bytes_at_intro m p bs :
  (∀ (i : nat) b, bs !! i = Some b → m !! (p + Z.of_nat i) = Some b) →
  bytes_at m p bs.
Proof.
  revert p. induction bs as [|c bs IH]; intros p H; simpl; [done|]. split.
  - rewrite <- (H 0%nat c eq_refl). f_equal. lia.
  - apply IH. intros i b Hi. rewrite <- (H (S i) b Hi). f_equal. lia.
Qed.

Lemma bytes_at_app m p bs cs :
  bytes_at m p (bs ++ cs) ↔
  bytes_at m p bs ∧ bytes_at m (p + zlen bs) cs.
Proof.
  revert p. induction bs as [|b bs IH]; intros p; simpl.
  - rewrite Z.add_0_r. tauto.
  - rewrite IH. replace (p + Z.of_nat (S (length bs)))
      with (p + 1 + zlen bs) by lia. tauto.
Qed.

Lemma bytes_at_subst (m m' : mem) p bs :
  (∀ a, p ≤ a < p + zlen bs → m' !! a = m !! a) →
  bytes_at m p bs → bytes_at m' p bs.
Proof.
  intros Heq Hb. apply bytes_at_intro. intros i b Hi.
  rewrite Heq; [by eapply bytes_at_lookup|].
  apply lookup_lt_Some in Hi. lia.
Qed.

(** A C string is the bytes of the string followed by the terminator. *)
Lemma cstr_bytes m p s :
  cstr m p s ↔ bytes_at m p (s ++ [0]) ∧ Forall (λ c, c ≠ 0) s.
Proof.
  revert p. induction s as [|c s IH]; intros p; simpl.
  - split; [intros ->; repeat split; constructor | tauto].
  - rewrite IH, Forall_cons. tauto.
Qed.

Lemma cstr_unique m p s t : cstr m p s → cstr m p t → s = t.
Proof.
  revert p t. induction s as [|c s IH]; intros p [|d t]; simpl.
  - done.
  - intros H (H' & ? & _). congruence.
  - intros (H & ? & _) H'. congruence.
  - intros (H1 & _ & H2) (H1' & _ & H2'). f_equal; [congruence|by eapply IH].
Qed.

Lemma cstr_subst (m m' : mem) p s :
  (∀ a, p ≤ a ≤ p + zlen s → m' !! a = m !! a) →
  cstr m p s → cstr m' p s.
Proof.
  rewrite !cstr_bytes. intros Heq [Hb Hs]. split; [|done].
  eapply bytes_at_subst; [|done].
  intros a Ha. rewrite length_app in Ha. simpl in Ha. apply Heq. lia.
Qed.

(** The suffix of a string at an offset. *)
Lemma cstr_drop m p s (k : nat) :
  cstr m p s → (k ≤ length s)%nat → cstr m (p + Z.of_nat k) (drop k s).
Proof.
  revert p s. induction k as [|k IH]; intros p s Hs Hk.
  - by rewrite Z.add_0_r, drop_0.
  - destruct s as [|c s]; simpl in *; [lia|]. destruct Hs as (_ & _ & Hs).
    replace (p + Z.of_nat (S k)) with (p + 1 + Z.of_nat k) by lia.
    apply IH; [done|lia].
Qed.

(** ** Block writes *)

Lemma write_bytes_lookup m p bs a :
  write_bytes m p bs !! a =
  if decide (p ≤ a < p + zlen bs)
  then bs !! Z.to_nat (a - p) else m !! a.
Proof.
  revert m p. induction bs as [|b bs IH]; intros m p; simpl.
  - rewrite decide_False; [done|lia].
  - rewrite IH. destruct (decide (a = p)) as [->|Hne].
    + rewrite decide_False by lia. rewrite decide_True by lia.
      by rewrite Z.sub_diag, lookup_insert_eq.
    + destruct (decide (p ≤ a < p + Z.of_nat (S (length bs)))).
      * rewrite decide_True by lia.
        replace (Z.to_nat (a - p)) with (S (Z.to_nat (a - (p + 1)))) by lia. done.
      * rewrite decide_False by lia. by rewrite lookup_insert_ne.
Qed.

Lemma write_bytes_outside m p bs a :
  a < p ∨ p + zlen bs ≤ a → write_bytes m p bs !! a = m !! a.
Proof. intros H. rewrite write_bytes_lookup, decide_False; [done|lia]. Qed.

Lemma write_bytes_at m p bs : bytes_at (write_bytes m p bs) p bs.
Proof.
  apply bytes_at_intro. intros i b Hi. rewrite write_bytes_lookup.
  pose proof (lookup_lt_Some _ _ _ Hi).
  rewrite decide_True by lia. rewrite <- Hi. f_equal. lia.
Qed.

Lemma write_bytes_app m p bs cs :
  write_bytes m p (bs ++ cs) =
  write_bytes (write_bytes m p bs) (p + zlen bs) cs.
Proof.
  revert m p. induction bs as [|b bs IH]; intros m p; simpl.
  - by rewrite Z.add_0_r.
  - rewrite IH. f_equal. lia.
Qed.

Lemma write_bytes_insert m p bs a b :
  a < p ∨ p + zlen bs ≤ a →
  write_bytes (<[a := b]> m) p bs = <[a := b]> (write_bytes m p bs).
Proof.
  revert m p. induction bs as [|c bs IH]; intros m p; simpl; [done|].
  intros Ha. rewrite <- IH by lia. f_equal.
  apply insert_insert_ne. lia.
Qed.

Lemma write_bytes_snoc m p bs b :
  write_bytes m p (bs ++ [b]) =
  write_bytes (<[p + zlen bs := b]> m) p bs.
Proof. rewrite write_bytes_app. simpl. rewrite write_bytes_insert by lia. done. Qed.

Lemma mapped_write m p n q bs : mapped m p n → mapped (write_bytes m q bs) p n.
Proof.
  revert m q. induction bs as [|b bs IH]; intros m q H; simpl; [done|].
  apply IH. by apply mapped_insert.
Qed.

Lemma write_bytes_id m p bs : bytes_at m p bs → write_bytes m p bs = m.
Proof.
  revert m p. induction bs as [|b bs IH]; intros m p; simpl; [done|].
  intros [H1 H2]. rewrite insert_id by done. by apply IH.
Qed.

(** ** Little-endian representation *)

Lemma length_le_bytes n w : length (le_bytes n w) = n.
Proof. revert w. induction n; intros; simpl; auto. Qed.

Lemma u8_land w : u8 w = Z.land w (Z.ones 8).
Proof. unfold u8. by rewrite Z.land_ones. Qed.

Lemma le_bytes_lookup n w (i : nat) :
  (i < n)%nat → le_bytes n w !! i = Some (u8 (Z.shiftr w (8 * Z.of_nat i))).
Proof.
  revert w i. induction n as [|n IH]; intros w [|i] Hi; simpl; try lia.
  - by rewrite Z.shiftr_0_r.
  - rewrite IH by lia. rewrite Z.shiftr_shiftr by lia. do 3 f_equal. lia.
Qed.

(** Decision procedure for [mapped], for concrete memories. *)
Lemma mapped_check m p n :
  forallb (λ k, bool_decide (is_Some (m !! (p + Z.of_nat k)))) (seq 0 n) = true →
  mapped m p (Z.of_nat n).
Proof.
  rewrite forallb_forall. intros H a Ha.
  specialize (H (Z.to_nat (a - p)) ltac:(apply in_seq; lia)).
  apply bool_decide_eq_true in H.
  by replace (p + Z.of_nat (Z.to_nat (a - p))) with a in H by lia.
Qed.

(** ** Values of byte sequences *)

Lemma le_value_cons b bs : 0 ≤ b < 256 → le_value (b :: bs) = b + 256 * le_value bs.
Proof.
  intros Hb. simpl. rewrite Z.lor_comm, lor_shiftl_add by lia. lia.
Qed.

Lemma le_value_bounds bs :
  Forall (λ b, 0 ≤ b < 256) bs → 0 ≤ le_value bs < 2 ^ (8 * zlen bs).
Proof.
  induction 1 as [|b bs Hb Hbs IH]; [simpl; lia|].
  rewrite le_value_cons by done. cbn [length].
  replace (8 * Z.of_nat (S (length bs))) with (8 + 8 * zlen bs) by lia.
  rewrite Z.pow_add_r by lia. lia.
Qed.

Lemma le_value_full bs :
  Forall (λ b, 0 ≤ b < 256) bs → le_value bs = 2 ^ (8 * zlen bs) - 1 →
  Forall (λ b, b = 255) bs.
Proof.
  induction 1 as [|b bs Hb Hbs IH]; [done|].
  rewrite le_value_cons by done. cbn [length].
  replace (8 * Z.of_nat (S (length bs))) with (8 + 8 * zlen bs) by lia.
  rewrite Z.pow_add_r by lia. pose proof (le_value_bounds bs Hbs). intros E.
  constructor; [lia|]. apply IH. lia.
Qed.

Lemma le_value_bytes n w :
  0 ≤ w → le_value (le_bytes n w) = w mod 2 ^ (8 * Z.of_nat n).
Proof.
  revert w. induction n as [|n IH]; intros w Hw.
  - simpl. by rewrite Z.mod_1_r.
  - cbn [le_bytes]. rewrite le_value_cons by (unfold u8; dlia).
    rewrite Z.shiftr_div_pow2 by lia. rewrite IH by dlia. unfold u8.
    replace (8 * Z.of_nat (S n)) with (8 + 8 * Z.of_nat n) by lia.
    rewrite Z.pow_add_r by lia. rewrite Z.rem_mul_r by lia. lia.
Qed.
