(* ===== verification/Bytes.v ===== *)
(** * Pieces of byte lists

    Reading a piece of a list and laying bytes over a piece, by position: the
    contents of files and disks. *)

From S2P Require Import Prelude.

(** The [n] elements of [l] from position [i] on. *)
Definition sub (i n : nat) (l : list Z) : list Z := take n (drop i l).

(** [l] with [bs] from position [i] on, filled up with zeroes. *)
Definition splice (i : nat) (bs l : list Z) : list Z :=
  match bs with
  | [] => l
  | _ => take i (l ++ replicate (i - length l) 0) ++ bs ++ drop (i + length bs) l
  end.

Lemma splice_ne i bs l : bs ≠ [] → splice i bs l = take i (l ++ replicate (i - length l) 0) ++ bs ++ drop (i + length bs) l.
Proof. by destruct bs. Qed.

Lemma lookup_splice i bs l k :
  bs ≠ [] → splice i bs l !! k =
    if decide (k < i)%nat then Some (default 0 (l !! k))
    else if decide (k < i + length bs)%nat then bs !! (k - i)%nat else l !! k.
Proof.
  intros Hb. rewrite splice_ne by done.
  assert (length (take i (l ++ replicate (i - length l) 0)) = i) as Hi by (rewrite length_take, length_app, length_replicate; lia).
  case_decide as Hk.
  - rewrite lookup_app_l, lookup_take_lt by lia. destruct (decide (k < length l)%nat) as [Hl|Hl].
    + rewrite lookup_app_l by lia. by destruct (lookup_lt_is_Some_2 l k Hl) as (x & ->).
    + rewrite lookup_app_r, lookup_replicate_2 by lia. by rewrite (lookup_ge_None_2 l) by lia.
  - rewrite lookup_app_r by lia. rewrite Hi. case_decide as Hk'.
    + by rewrite lookup_app_l by lia.
    + rewrite lookup_app_r, lookup_drop by lia. f_equal. lia.
Qed.

(** Two adjacent pieces laid down one after the other. *)
Lemma splice_app i a c l : splice i (a ++ c) l = splice (i + length a) c (splice i a l).
Proof.
  destruct (decide (a = [])) as [->|Ha]; [by rewrite Nat.add_0_r|].
  destruct (decide (c = [])) as [->|Hc]; [by rewrite app_nil_r|].
  assert (a ++ c ≠ []) by (destruct a; done). assert (0 < length a)%nat by (destruct a; simpl; [done|lia]).
  apply list_eq. intros k. rewrite !lookup_splice, length_app by done.
  repeat case_decide; try lia; try done.
  - rewrite lookup_app_l by lia. destruct (lookup_lt_is_Some_2 a (k - i)) as (x & ->); [lia|done].
  - rewrite lookup_app_r by lia. f_equal. lia.
Qed.

Lemma length_splice i bs l : bs ≠ [] → length (splice i bs l) = Nat.max (length l) (i + length bs).
Proof. intros Hb. rewrite splice_ne, !length_app, length_take, length_app, length_replicate, length_drop by done. lia. Qed.

Lemma length_sub i n l : (i + n ≤ length l)%nat → length (sub i n l) = n.
Proof. intros H. unfold sub. rewrite length_take, length_drop. lia. Qed.

Lemma lookup_sub i n l k : sub i n l !! k = if decide (k < n)%nat then l !! (i + k)%nat else None.
Proof.
  unfold sub. case_decide.
  - by rewrite lookup_take_lt, lookup_drop.
  - by rewrite lookup_take_ge by lia.
Qed.

(** A splice inside a list keeps its length. *)
Lemma length_splice_in i bs l : (i + length bs ≤ length l)%nat → length (splice i bs l) = length l.
Proof. destruct (decide (bs = [])) as [->|Hb]; [done|]. rewrite length_splice by done. lia. Qed.

Lemma lookup_splice_in i bs l k :
  (i + length bs ≤ length l)%nat →
  splice i bs l !! k = if decide (i ≤ k < i + length bs)%nat then bs !! (k - i)%nat else l !! k.
Proof.
  intros Hl. destruct (decide (bs = [])) as [->|Hb]; [simpl; by rewrite decide_False by lia|].
  rewrite lookup_splice by done. repeat case_decide; try lia; try done.
  destruct (lookup_lt_is_Some_2 l k) as (x & ->); [lia|done].
Qed.

Lemma sub_splice_same i bs l : (i + length bs ≤ length l)%nat → sub i (length bs) (splice i bs l) = bs.
Proof.
  intros Hl. apply list_eq. intros k. rewrite lookup_sub. case_decide.
  - rewrite lookup_splice_in, decide_True by lia. f_equal. lia.
  - by rewrite lookup_ge_None_2 by lia.
Qed.

Lemma sub_splice_other i bs l j n :
  (i + length bs ≤ length l)%nat → (j + n ≤ i ∨ i + length bs ≤ j)%nat → sub j n (splice i bs l) = sub j n l.
Proof.
  intros Hl Hd. apply list_eq. intros k. rewrite !lookup_sub. case_decide; [|done].
  by rewrite lookup_splice_in, decide_False by lia.
Qed.

(** A splice into a piece is a splice into the list. *)
Lemma splice_sub i n j bs l :
  (i + n ≤ length l)%nat → (j + length bs ≤ n)%nat → splice i (splice j bs (sub i n l)) l = splice (i + j) bs l.
Proof.
  intros Hl Hj. assert (length (splice j bs (sub i n l)) = n) as Hn by (rewrite length_splice_in; rewrite length_sub; lia).
  apply list_eq. intros k. rewrite (lookup_splice_in (i + j)), lookup_splice_in by lia. rewrite Hn.
  destruct (decide (i ≤ k < i + n)%nat).
  - rewrite lookup_splice_in by (rewrite length_sub; lia). rewrite lookup_sub.
    repeat case_decide; try lia; f_equal; lia.
  - by rewrite decide_False by lia.
Qed.

Lemma sub_sub i n j m l : (j + m ≤ n)%nat → sub j m (sub i n l) = sub (i + j) m l.
Proof.
  intros Hj. apply list_eq. intros k. rewrite !lookup_sub. repeat case_decide; try lia; [|done]. f_equal. lia.
Qed.

(** A splice into the middle part. *)
Lemma splice_mid a m b i bs :
  (i + length bs ≤ length m)%nat → splice (length a + i) bs (a ++ m ++ b) = a ++ splice i bs m ++ b.
Proof.
  intros Hi. apply list_eq. intros k. rewrite lookup_splice_in by (rewrite !length_app; lia).
  destruct (decide (k < length a)%nat) as [Ha|Ha].
  { rewrite decide_False by lia. by rewrite !lookup_app_l. }
  rewrite !(lookup_app_r a) by lia. destruct (decide (k - length a < length m)%nat) as [Hm|Hm].
  - rewrite !lookup_app_l by (rewrite ?length_splice_in; lia). rewrite lookup_splice_in by lia.
    repeat case_decide; try lia; f_equal; lia.
  - rewrite !lookup_app_r by (rewrite ?length_splice_in; lia). rewrite length_splice_in by lia. by rewrite decide_False by lia.
Qed.

Lemma splice_full bs l : length bs = length l → splice 0 bs l = bs.
Proof.
  intros Hl. apply list_eq. intros k. rewrite lookup_splice_in by lia. case_decide; [f_equal; lia|].
  by rewrite !lookup_ge_None_2 by lia.
Qed.

Lemma sub_app_l i n a b : (i + n ≤ length a)%nat → sub i n (a ++ b) = sub i n a.
Proof. intros H. apply list_eq. intros k. rewrite !lookup_sub. case_decide; [|done]. by rewrite lookup_app_l by lia. Qed.

Lemma sub_app_r i n a b : (length a ≤ i)%nat → sub i n (a ++ b) = sub (i - length a) n b.
Proof.
  intros H. apply list_eq. intros k. rewrite !lookup_sub. case_decide; [|done]. rewrite lookup_app_r by lia. f_equal. lia.
Qed.

(** Two adjacent pieces. *)
Lemma sub_cut i n m l : sub i (n + m) l = sub i n l ++ sub (i + n) m l.
Proof. unfold sub. by rewrite <- drop_drop, take_take_drop. Qed.

(** The first [n] elements of a list grown by a splice. *)
Lemma take_splice_grow i bs l k n m :
  bs ≠ [] → (i ≤ n ≤ length l)%nat → (i + length bs ≤ length l + length k)%nat → m = Nat.max n (i + length bs) →
  take m (splice i bs (l ++ k)) = splice i bs (take n l).
Proof.
  intros Hb Hn Hlen ->. apply list_eq. intros j. rewrite (lookup_splice _ _ (take n l)) by done.
  destruct (decide (j < Nat.max n (i + length bs))%nat) as [Hj|Hj].
  - rewrite lookup_take_lt by done. rewrite lookup_splice_in by (rewrite length_app; lia). repeat case_decide; try lia; try done.
    + rewrite lookup_app_l, lookup_take_lt by lia. by destruct (lookup_lt_is_Some_2 l j) as (x & ->); [lia|].
    + by rewrite lookup_app_l, lookup_take_lt by lia.
  - rewrite lookup_take_ge by lia. rewrite !decide_False by lia. symmetry. apply lookup_take_ge. lia.
Qed.
