(* ===== verification/Str.v ===== *)
(** * Kernel string and memory routines: [kernel/libk/str/str.c]

    Every routine is a function on the byte memory of [CMem].  Counted loops
    recurse on the count; loops that run to a terminator take fuel, and the
    theorems say how much is enough.  The portable C bodies are modelled (the
    ones compiled when [VOXIA_USE_FAST_STR] is not defined). *)

From S2P Require Import Prelude CMem.

(** ** Comparison and search *)

Fixpoint strcmp (fuel : nat) (m : mem) (s1 s2 : Z) : res Z :=
  match fuel with
  | O => NoFuel
  | S fuel =>
      c1 ← load8 m s1;
      if c1 =? 0 then c2 ← load8 m s2; Ok (c1 - c2)
      else
        c2 ← load8 m s2;
        if c1 =? c2 then strcmp fuel m (s1 + 1) (s2 + 1) else Ok (c1 - c2)
  end.

(** [while (n-- != 0)]: the count is the recursion argument. *)
Fixpoint strncmp (m : mem) (s1 s2 : Z) (n : nat) : res Z :=
  match n with
  | O => Ok 0
  | S n =>
      c1 ← load8 m s1;
      c2 ← load8 m s2;
      if negb (c1 =? c2) then Ok (c1 - c2)
      else if c1 =? 0 then Ok 0
      else strncmp m (s1 + 1) (s2 + 1) n
  end.

(** The found address, or 0 for [NULL]. *)
Fixpoint memchr_loop (m : mem) (p target : Z) (len : nat) : res Z :=
  match len with
  | O => Ok 0
  | S len =>
      b ← load8 m p;
      if b =? target then Ok p else memchr_loop m (p + 1) target len
  end.

Definition memchr (m : mem) (buf c : Z) (len : nat) : res Z :=
  memchr_loop m buf (u8 c) len.

Fixpoint memcmp (m : mem) (s1 s2 : Z) (n : nat) : res Z :=
  match n with
  | O => Ok 0
  | S n =>
      a ← load8 m s1;
      b ← load8 m s2;
      if negb (a =? b) then Ok (a - b) else memcmp m (s1 + 1) (s2 + 1) n
  end.

Fixpoint strlen_loop (fuel : nat) (m : mem) (s len : Z) : res Z :=
  match fuel with
  | O => NoFuel
  | S fuel =>
      c ← load8 m (s + len);
      if c =? 0 then Ok len else strlen_loop fuel m s (u64 (len + 1))
  end.

Definition strlen (fuel : nat) (m : mem) (s : Z) : res Z :=
  strlen_loop fuel m s 0.

Fixpoint strchr_loop (fuel : nat) (m : mem) (s c : Z) : res Z :=
  match fuel with
  | O => NoFuel
  | S fuel =>
      b ← load8 m s;
      if b =? c then Ok s
      else if b =? 0 then Ok 0 else strchr_loop fuel m (s + 1) c
  end.

(** [(char)c] and [*s] have the same type: comparing their bytes. *)
Definition strchr (fuel : nat) (m : mem) (s c : Z) : res Z :=
  strchr_loop fuel m s (u8 c).

(** Inner loop of [strspn]: is [c] one of the characters at [a]? *)
Fixpoint in_set (fuel : nat) (m : mem) (a c : Z) : res bool :=
  match fuel with
  | O => NoFuel
  | S fuel =>
      b ← load8 m a;
      if b =? 0 then Ok false
      else if c =? b then Ok true else in_set fuel m (a + 1) c
  end.

Fixpoint strspn_loop (fuel : nat) (m : mem) (p accept count : Z) : res Z :=
  match fuel with
  | O => NoFuel
  | S f =>
      c ← load8 m p;
      if c =? 0 then Ok count
      else
        found ← in_set fuel m accept c;
        if negb found then Ok count
        else strspn_loop f m (p + 1) accept (u64 (count + 1))
  end.

Definition strspn (fuel : nat) (m : mem) (s accept : Z) : res Z :=
  strspn_loop fuel m s accept 0.

Fixpoint strcspn_loop (fuel : nat) (m : mem) (s reject count : Z) : res Z :=
  match fuel with
  | O => NoFuel
  | S f =>
      c ← load8 m s;
      if c =? 0 then Ok count
      else
        p ← strchr fuel m reject c;
        if negb (p =? 0) then Ok count
        else strcspn_loop f m (s + 1) reject (u64 (count + 1))
  end.

Definition strcspn (fuel : nat) (m : mem) (s reject : Z) : res Z :=
  strcspn_loop fuel m s reject 0.

Fixpoint strpbrk_loop (fuel : nat) (m : mem) (s accept : Z) : res Z :=
  match fuel with
  | O => NoFuel
  | S f =>
      c ← load8 m s;
      if c =? 0 then Ok 0
      else
        found ← in_set fuel m accept c;
        if (found : bool) then Ok s else strpbrk_loop f m (s + 1) accept
  end.

Definition strpbrk (fuel : nat) (m : mem) (s accept : Z) : res Z :=
  if (s =? 0) || (accept =? 0) then Ok 0 else strpbrk_loop fuel m s accept.

(** ** Copying *)

Fixpoint memcopy_loop (m : mem) (d s : Z) (size : nat) : res mem :=
  match size with
  | O => Ok m
  | S size =>
      b ← load8 m s;
      m' ← store8 m d b;
      memcopy_loop m' (d + 1) (s + 1) size
  end.

Definition memcopy (m : mem) (dest src size : Z) : res mem :=
  memcopy_loop m dest src (Z.to_nat size).

(** [memcopy] from a local variable, whose bytes are given. *)
Fixpoint memcopy_from (m : mem) (d : Z) (bs : list Z) : res mem :=
  match bs with
  | [] => Ok m
  | b :: bs => m' ← store8 m d b; memcopy_from m' (d + 1) bs
  end.

(** [while (n--) *--d = *--s], entered with [d] and [s] past the end. *)
Fixpoint memmove_down (m : mem) (d s : Z) (n : nat) : res mem :=
  match n with
  | O => Ok m
  | S n =>
      b ← load8 m (s - 1);
      m' ← store8 m (d - 1) b;
      memmove_down m' (d - 1) (s - 1) n
  end.

Definition memmove (m : mem) (dest src n : Z) : res mem :=
  if dest <? src then memcopy_loop m dest src (Z.to_nat n)
  else memmove_down m (dest + n) (src + n) (Z.to_nat n).

(** The 8-byte pattern: [fill <<= 8; fill |= (uint64_t)value], 8 times. *)
Definition memset_fill (value : Z) : Z :=
  Nat.iter 8 (λ fill, Z.lor (u64 (Z.shiftl fill 8)) (u64 value)) 0.

(** Head loop: byte stores up to the first 8-aligned address. *)
Fixpoint memset_head (m : mem) (p value : Z) (num : nat) : res (mem * Z * nat) :=
  match num with
  | O => Ok (m, p, O)
  | S num' =>
      if Z.land p 7 =? 0 then Ok (m, p, num)
      else m' ← store8 m p (u8 value); memset_head m' (p + 1) value num'
  end.

Fixpoint memset_blocks (m : mem) (p fill : Z) (blocks : nat) : res mem :=
  match blocks with
  | O => Ok m
  | S blocks =>
      m' ← memcopy_from m p (le_bytes 8 fill);
      memset_blocks m' (p + 8) fill blocks
  end.

Fixpoint memset_bytes (m : mem) (p value : Z) (n : nat) : res mem :=
  match n with
  | O => Ok m
  | S n => m' ← store8 m p (u8 value); memset_bytes m' (p + 1) value n
  end.

Definition memset (m : mem) (ptr value num : Z) : res mem :=
  h ← memset_head m ptr value (Z.to_nat num);
  let '(m1, p, n) := h in
  let blocks := (n / 8)%nat in
  let tail := (n mod 8)%nat in
  m2 ← memset_blocks m1 p (memset_fill value) blocks;
  memset_bytes m2 (p + Z.of_nat blocks * 8) value tail.

Fixpoint strcpy (fuel : nat) (m : mem) (dest src : Z) : res mem :=
  match fuel with
  | O => NoFuel
  | S fuel =>
      c ← load8 m src;
      if c =? 0 then store8 m dest 0
      else m' ← store8 m dest c; strcpy fuel m' (dest + 1) (src + 1)
  end.

(** Second loop of [strncpy]: NUL padding. *)
Definition strncpy_pad (m : mem) (d : Z) (n : nat) : res mem :=
  memset_bytes m d 0 n.

Fixpoint strncpy (m : mem) (dest src : Z) (n : nat) : res mem :=
  match n with
  | O => Ok m
  | S n' =>
      c ← load8 m src;
      if c =? 0 then strncpy_pad m dest n
      else m' ← store8 m dest c; strncpy m' (dest + 1) (src + 1) n'
  end.

Fixpoint strcat (fuel : nat) (m : mem) (dest src : Z) : res mem :=
  match fuel with
  | O => NoFuel
  | S f =>
      c ← load8 m dest;
      if c =? 0 then strcpy fuel m dest src else strcat f m (dest + 1) src
  end.

(** ** In-place editing *)

Fixpoint to_lowercase (fuel : nat) (m : mem) (s : Z) : res mem :=
  match fuel with
  | O => NoFuel
  | S fuel =>
      c ← load8 m s;
      if c =? 0 then Ok m
      else
        m' ← (if (65 <=? c) && (c <=? 90) then store8 m s (u8 (c + 32)) else Ok m);
        to_lowercase fuel m' (s + 1)
  end.

(** [i] is a [size_t]: the test [i >= 0] always holds and the index wraps. *)
Fixpoint rtrim_loop (fuel : nat) (m : mem) (s i : Z) : res mem :=
  match fuel with
  | O => NoFuel
  | S fuel =>
      c ← load8 m (u64 (s + i));
      if (0 <=? i) && (c =? 32)
      then m' ← store8 m (u64 (s + i)) 0; rtrim_loop fuel m' s (u64 (i - 1))
      else Ok m
  end.

Definition rtrim (fuel : nat) (m : mem) (s : Z) : res mem :=
  len ← strlen fuel m s;
  rtrim_loop fuel m s (u64 (len - 1)).

(** ** Tokenizers: the token and the new value of the caller's cursor,
    with 0 for [NULL]. *)

Definition strtok_r (fuel : nat) (m : mem) (s delim saveptr : Z) : res (Z * Z * mem) :=
  let s := if s =? 0 then saveptr else s in
  c ← load8 m s;
  if c =? 0 then Ok (0, s, m)
  else
    k ← strspn fuel m s delim;
    let s := s + k in
    c ← load8 m s;
    if c =? 0 then Ok (0, s, m)
    else
      k ← strcspn fuel m s delim;
      let e := s + k in
      c ← load8 m e;
      if c =? 0 then Ok (s, e, m)
      else m' ← store8 m e 0; Ok (s, e + 1, m').

Definition strsep2 (fuel : nat) (m : mem) (stringp delim : Z) : res (Z * Z * mem) :=
  if stringp =? 0 then Ok (0, stringp, m)
  else
    p ← strpbrk fuel m stringp delim;
    if negb (p =? 0) then m' ← store8 m p 0; Ok (stringp, p + 1, m')
    else Ok (stringp, 0, m).

Fixpoint strsep_end (fuel : nat) (m : mem) (e delim : Z) : res Z :=
  match fuel with
  | O => NoFuel
  | S fuel =>
      c ← load8 m e;
      if negb (c =? 0) && negb (c =? delim) then strsep_end fuel m (e + 1) delim
      else Ok e
  end.

Definition strsep (fuel : nat) (m : mem) (str delim : Z) : res (Z * Z * mem) :=
  if str =? 0 then Ok (0, str, m)
  else
    c ← load8 m str;
    if c =? 0 then Ok (0, str, m)
    else
      e ← strsep_end fuel m str delim;
      c ← load8 m e;
      if negb (c =? 0) then m' ← store8 m e 0; Ok (str, e + 1, m')
      else Ok (str, 0, m).

(** ** Number formatting *)

Definition itoa_char (digit : Z) : Z :=
  u8 (if digit <? 10 then 48 + digit else 97 + (digit - 10)).

(** Digits are produced least significant first. *)
Fixpoint itoa_digits (fuel : nat) (m : mem) (value base last : Z) : res (mem * Z) :=
  match fuel with
  | O => NoFuel
  | S fuel =>
      if value =? 0 then Ok (m, last)
      else
        let tmp := value in
        let value := Z.quot value base in
        let digit := tmp - value * base in
        m' ← store8 m last (itoa_char digit);
        itoa_digits fuel m' value base (last + 1)
  end.

Fixpoint itoa_reverse (fuel : nat) (m : mem) (start last : Z) : res mem :=
  match fuel with
  | O => NoFuel
  | S fuel =>
      if start <? last then
        swap ← load8 m start;
        c ← load8 m last;
        m' ← store8 m start c;
        m'' ← store8 m' last swap;
        itoa_reverse fuel m'' (start + 1) (last - 1)
      else Ok m
  end.

Definition itoa (fuel : nat) (m : mem) (value base str : Z) : res mem :=
  if (base <? 2) || (base >? 36) then store8 m str 0
  else if value =? 0 then
    m' ← store8 m str 48;
    store8 m' (str + 1) 0
  else
    r ← itoa_digits fuel m value base str;
    let '(m1, last) := r in
    m2 ← store8 m1 last 0;
    itoa_reverse fuel m2 str (last - 1).

(** * Correctness *)

(** Advance over one load or store whose side condition is in the context. *)
Ltac mstep :=
  match goal with
  | H : ?m !! ?p = Some _ |- context [load8 ?m ?p] => rewrite (load8_ok _ _ _ H); simpl
  | |- context [store8 ?m ?p ?b] => rewrite (store8_ok m p b) by eauto using mapped_head; simpl
  end.

Definition is_byte (c : Z) : Prop := 0 ≤ c < 256.

(** ** Strings *)

Lemma strlen_loop_cstr fuel m p s len :
  cstr m (p + len) s → 0 ≤ len → len + zlen s < 2 ^ 64 →
  (length s < fuel)%nat → strlen_loop fuel m p len = Ok (len + zlen s).
Proof.
  revert fuel len. induction s as [|c s IH]; intros [|fuel] len; simpl; try lia.
  - intros H ???. mstep. f_equal. lia.
  - intros (H & Hc & Hs) ???. mstep. destruct (Z.eqb_spec c 0); [done|].
    replace (u64 (len + 1)) with (len + 1) by (unfold u64; rewrite Z.mod_small; lia).
    rewrite IH; [f_equal; lia| |lia|lia|lia].
    by rewrite Z.add_assoc.
Qed.

Lemma strlen_cstr fuel m p s :
  cstr m p s → zlen s < 2 ^ 64 → (length s < fuel)%nat →
  strlen fuel m p = Ok (zlen s).
Proof.
  intros Hs ??. unfold strlen. rewrite (strlen_loop_cstr _ _ _ s); [done| |lia|lia|lia].
  by rewrite Z.add_0_r.
Qed.

(** The lexicographic order on byte strings, as a comparison value. *)
Fixpoint lex_lt (s t : list Z) : bool :=
  match s, t with
  | [], [] => false
  | [], _ :: _ => true
  | _ :: _, [] => false
  | c :: s, d :: t => (c <? d) || ((c =? d) && lex_lt s t)
  end.

Lemma strcmp_cstr fuel m p q s t :
  cstr m p s → cstr m q t → Forall is_byte s → Forall is_byte t →
  (length s < fuel)%nat →
  ∃ r, strcmp fuel m p q = Ok r ∧ (r = 0 ↔ s = t) ∧ (r < 0 ↔ lex_lt s t = true).
Proof.
  unfold is_byte.
  revert fuel p q t. induction s as [|c s IH]; intros [|fuel] p q t; simpl; try lia.
  - intros Hp Hq _ Ht _. mstep. destruct t as [|d t]; simpl in Hq.
    + mstep. exists 0. split; [done|]. split; [done|]. split; [lia|done].
    + destruct Hq as (Hq & Hd & _). apply Forall_cons in Ht as [Hb _]. mstep.
      eexists. split; [done|]. split; (split; [lia||done|intros; try done; lia]).
  - intros (Hp & Hc & Hs) Hq Hbs Hbt Hf. apply Forall_cons in Hbs as [Hb Hbs].
    mstep. destruct (Z.eqb_spec c 0) as [|_]; [done|].
    destruct t as [|d t]; simpl in Hq.
    + mstep. destruct (Z.eqb_spec c 0) as [|_]; [done|]. eexists. split; [done|].
      split; (split; [lia|done]).
    + destruct Hq as (Hq & Hd & Ht). apply Forall_cons in Hbt as [Hbd Hbt].
      mstep. destruct (Z.eqb_spec c d) as [<-|Hcd].
      * destruct (IH fuel (p + 1) (q + 1) t) as (r & E & H0 & Hlt); [done..|lia|].
        exists r. rewrite E, Z.ltb_irrefl. simpl. split; [done|].
        split; [rewrite H0; naive_solver|done].
      * eexists. split; [done|]. rewrite orb_false_r. split.
        -- split; [lia|naive_solver].
        -- rewrite Z.ltb_lt. lia.
Qed.

Lemma in_set_cstr fuel m a ds c :
  cstr m a ds → (length ds < fuel)%nat →
  in_set fuel m a c = Ok (bool_decide (c ∈ ds)).
Proof.
  revert fuel a. induction ds as [|d ds IH]; intros [|fuel] a; simpl; try lia.
  - intros H _. by mstep.
  - intros (H & Hd & Hs) ?. mstep. destruct (Z.eqb_spec d 0); [done|].
    destruct (Z.eqb_spec c d) as [->|].
    + rewrite bool_decide_true; [done|]. by left.
    + rewrite IH by (done || lia). f_equal. apply bool_decide_ext.
      rewrite elem_of_cons. naive_solver.
Qed.

Lemma strchr_cstr fuel m a ds c :
  cstr m a ds → (length ds < fuel)%nat → is_byte c → c ≠ 0 → 0 < a →
  ∃ p, strchr fuel m a c = Ok p ∧ (p = 0 ↔ c ∉ ds).
Proof.
  unfold strchr, is_byte. intros Hs Hf Hb Hc Ha.
  replace (u8 c) with c by (unfold u8; rewrite Z.mod_small; lia).
  revert fuel a Ha Hs Hf. induction ds as [|d ds IH];
    intros [|fuel] a Ha; simpl; try lia.
  - intros H _. mstep. destruct (Z.eqb_spec 0 c); [lia|].
    exists 0. split; [done|]. split; [set_solver|done].
  - intros (H & Hd & Hs) ?. mstep. destruct (Z.eqb_spec d c) as [->|].
    + exists a. split; [done|]. split; [lia|]. intros Hn. destruct Hn. by left.
    + destruct (Z.eqb_spec d 0); [done|].
      destruct (IH fuel (a + 1)) as (p & E & Hp); [lia|done|lia|].
      exists p. split; [done|]. rewrite Hp, not_elem_of_cons. naive_solver.
Qed.

(** First character of [s] that is in the set, searched by [strpbrk]. *)
Lemma strpbrk_cstr fuel m p a s ds :
  cstr m p s → cstr m a ds → 0 < p → 0 < a →
  (length s < fuel)%nat → (length ds + length s < fuel)%nat →
  (∀ k, (k ≤ length s)%nat →
     Forall (λ c, c ∉ ds) (take k s) →
     match s !! k with
     | Some c => c ∈ ds → strpbrk fuel m p a = Ok (p + Z.of_nat k)
     | None => strpbrk fuel m p a = Ok 0
     end).
Proof.
  intros Hs Ha Hp0 Ha0 Hf1 Hf2. unfold strpbrk.
  destruct (Z.eqb_spec p 0), (Z.eqb_spec a 0); try lia. simpl. clear n n0.
  revert fuel p Hs Hp0 Hf1 Hf2.
  induction s as [|c s IH]; intros [|fuel] p Hs Hp0 Hf1 Hf2 k Hk Hno; simpl in *; try lia.
  - assert (k = 0%nat) as -> by lia. simpl. by mstep.
  - destruct Hs as (H & Hc & Hs). mstep. destruct (Z.eqb_spec c 0); [done|].
    pose proof (in_set_cstr (S fuel) m a ds c Ha ltac:(lia)) as Hin. simpl in Hin.
    destruct k as [|k]; simpl in *.
    + intros Hc'. rewrite Hin. simpl. rewrite bool_decide_true by done. by rewrite Z.add_0_r.
    + apply Forall_cons in Hno as [Hc' Hno]. rewrite Hin. simpl.
      rewrite bool_decide_false by done.
      specialize (IH fuel (p + 1) Hs ltac:(lia) ltac:(lia) ltac:(lia) k ltac:(lia) Hno).
      destruct (s !! k); [|done]. intros Hz. rewrite IH by done. f_equal. lia.
Qed.

(** ** Block copies *)

Lemma memcopy_loop_forward m d s bs :
  bytes_at m s bs → mapped m d (zlen bs) → d ≤ s ∨ s + zlen bs ≤ d →
  memcopy_loop m d s (length bs) = Ok (write_bytes m d bs).
Proof.
  revert m d s. induction bs as [|b bs IH]; intros m d s; simpl; [done|].
  intros [H1 H2] Hd Hov. mstep. rewrite store8_ok by (apply Hd; lia). simpl.
  apply IH; [|eapply mapped_insert, mapped_sub; eauto; lia|lia].
  destruct (decide (d = s)) as [->|]; [by rewrite insert_id|].
  apply bytes_at_insert; [done|lia].
Qed.

Lemma memmove_down_spec m d s bs :
  bytes_at m s bs → mapped m d (zlen bs) → s ≤ d →
  memmove_down m (d + zlen bs) (s + zlen bs) (length bs) = Ok (write_bytes m d bs).
Proof.
  revert m. induction bs as [|b bs IH] using rev_ind; intros m; [done|].
  rewrite length_app, Nat.add_comm. simpl. rewrite bytes_at_app. simpl.
  intros (Hbs & H1 & _) Hd Hov.
  replace (s + Z.of_nat (S (length bs)) - 1) with (s + zlen bs) by lia.
  replace (d + Z.of_nat (S (length bs)) - 1) with (d + zlen bs) by lia.
  mstep. rewrite store8_ok by (apply Hd; lia). simpl.
  rewrite write_bytes_snoc. apply IH; [|apply mapped_insert; eapply mapped_sub; eauto; lia|lia].
  destruct (decide (s = d)) as [<-|]; [by rewrite insert_id|].
  apply bytes_at_insert; [done|lia].
Qed.

Lemma memmove_spec m d s bs :
  bytes_at m s bs → mapped m d (zlen bs) →
  memmove m d s (zlen bs) = Ok (write_bytes m d bs).
Proof.
  intros Hs Hd. unfold memmove. rewrite Nat2Z.id.
  destruct (Z.ltb_spec d s).
  - apply memcopy_loop_forward; [done..|lia].
  - by apply memmove_down_spec.
Qed.

Lemma memcopy_from_spec m d bs :
  mapped m d (zlen bs) → memcopy_from m d bs = Ok (write_bytes m d bs).
Proof.
  revert m d. induction bs as [|b bs IH]; intros m d Hd; simpl; [done|].
  rewrite store8_ok by (apply Hd; simpl; lia). simpl.
  apply IH. apply mapped_insert. eapply mapped_sub; eauto; simpl; lia.
Qed.

Lemma memset_bytes_spec m p v n :
  mapped m p (Z.of_nat n) →
  memset_bytes m p v n = Ok (write_bytes m p (replicate n (u8 v))).
Proof.
  revert m p. induction n as [|n IH]; intros m p Hp; simpl; [done|].
  rewrite store8_ok by (apply Hp; lia). simpl.
  apply IH. apply mapped_insert. eapply mapped_sub; eauto; lia.
Qed.

(** The pattern word of a byte value holds that byte 8 times. *)
Lemma memset_fill_bytes v :
  is_byte v → le_bytes 8 (memset_fill v) = replicate 8 v.
Proof.
  intros Hv. unfold is_byte in Hv.
  assert (Hall : Forall (λ n : nat, le_bytes 8 (memset_fill (Z.of_nat n)) =
                            replicate 8 (Z.of_nat n)) (seq 0 256)).
  { apply (bool_decide_unpack _). vm_compute. done. }
  rewrite Forall_forall in Hall.
  specialize (Hall (Z.to_nat v)). rewrite Z2Nat.id in Hall by lia.
  apply Hall. apply elem_of_seq. lia.
Qed.

Lemma memset_blocks_spec m p fill v k :
  le_bytes 8 fill = replicate 8 v → mapped m p (Z.of_nat k * 8) →
  memset_blocks m p fill k = Ok (write_bytes m p (replicate (k * 8) v)).
Proof.
  intros Hfill. revert m p. induction k as [|k IH]; intros m p Hp; [done|].
  cbn [memset_blocks]. rewrite memcopy_from_spec by
    (rewrite length_le_bytes; eapply mapped_sub; eauto; lia).
  cbn [mbind res_bind]. rewrite IH by
    (apply mapped_write; eapply mapped_sub; eauto; lia).
  replace (S k * 8)%nat with (8 + k * 8)%nat by lia.
  rewrite replicate_add, write_bytes_app, Hfill, length_replicate. done.
Qed.

Lemma memset_head_spec m p v n :
  mapped m p (Z.of_nat n) →
  ∃ k, (k ≤ n)%nat ∧
    memset_head m p v n =
      Ok (write_bytes m p (replicate k (u8 v)), p + Z.of_nat k, (n - k)%nat).
Proof.
  revert m p. induction n as [|n IH]; intros m p Hp; simpl.
  - exists O. split; [lia|]. simpl. by rewrite Z.add_0_r.
  - destruct (Z.eqb_spec (Z.land p 7) 0).
    + exists O. split; [lia|]. simpl. by rewrite Z.add_0_r.
    + rewrite store8_ok by (apply Hp; lia). simpl.
      destruct (IH (<[p := u8 v]> m) (p + 1)) as (k & Hk & E).
      { apply mapped_insert. eapply mapped_sub; eauto; lia. }
      exists (S k). split; [lia|]. rewrite E. simpl.
      do 2 f_equal. f_equal. lia.
Qed.

Lemma memset_spec m p v n :
  is_byte v → mapped m p (Z.of_nat n) →
  memset m p v (Z.of_nat n) = Ok (write_bytes m p (replicate n v)).
Proof.
  intros Hv Hp. unfold memset. rewrite Nat2Z.id.
  assert (Hu : u8 v = v) by (unfold u8, is_byte in *; rewrite Z.mod_small; lia).
  destruct (memset_head_spec m p v n Hp) as (k & Hk & ->). cbn [mbind res_bind].
  rewrite Hu. set (r := (n - k)%nat).
  pose proof (Nat.div_mod_eq r 8) as Hr.
  rewrite (memset_blocks_spec _ _ _ v) by
    (auto using memset_fill_bytes; apply mapped_write; eapply mapped_sub; eauto; lia).
  cbn [mbind res_bind]. rewrite memset_bytes_spec by
    (do 2 apply mapped_write; eapply mapped_sub; eauto; lia).
  rewrite Hu. f_equal.
  transitivity (write_bytes m p (replicate (k + (r / 8 * 8 + r mod 8)) v));
    [|do 2 f_equal; lia].
  rewrite !replicate_add, !write_bytes_app, !length_replicate. f_equal. lia.
Qed.

(** ** Copying and joining strings *)

Lemma strcpy_cstr fuel m d s str :
  cstr m s str → mapped m d (zlen str + 1) →
  d ≤ s ∨ s + zlen str < d → (length str < fuel)%nat →
  strcpy fuel m d s = Ok (write_bytes m d (str ++ [0])).
Proof.
  revert fuel m d s. induction str as [|c str IH]; intros [|fuel] m d s; simpl; try lia.
  - intros H Hd _ _. mstep. by rewrite store8_ok by (apply Hd; lia).
  - intros (H & Hc & Hs) Hd Hov Hf. mstep. destruct (Z.eqb_spec c 0); [done|].
    rewrite store8_ok by (apply Hd; lia). simpl.
    apply IH; [|apply mapped_insert; eapply mapped_sub; eauto; lia|lia|lia].
    destruct (decide (d = s)) as [->|]; [by rewrite insert_id|].
    eapply cstr_subst; [|done]. intros a Ha. apply lookup_insert_ne. lia.
Qed.

Lemma strcat_cstr fuel m d s a b :
  cstr m d a → cstr m s b → mapped m (d + zlen a) (zlen b + 1) →
  (∀ x y, s ≤ x ≤ s + zlen b → d + zlen a ≤ y ≤ d + zlen a + zlen b → x ≠ y) →
  (length a + length b < fuel)%nat →
  strcat fuel m d s = Ok (write_bytes m (d + zlen a) (b ++ [0])).
Proof.
  intros Ha Hb. revert fuel d Ha.
  induction a as [|c a IH]; intros [|fuel] d; cbn [strcat length cstr]; try lia.
  - intros H Hd Hov Hf. rewrite (load8_ok _ _ _ H). cbn [mbind res_bind Z.eqb].
    rewrite Z.add_0_r in *. destruct (decide (d ≤ s)); [apply strcpy_cstr; auto; lia|].
    apply strcpy_cstr; [done|done| |lia]. right.
    destruct (decide (s + zlen b < d)); [done|]. exfalso.
    apply (Hov d d); lia.
  - intros (H & Hc & Ha) Hd Hov Hf. mstep. destruct (Z.eqb_spec c 0); [done|].
    replace (d + Z.of_nat (S (length a))) with (d + 1 + zlen a) in * by lia.
    apply IH; [done|done|done|lia].
Qed.

(** ** Splitting *)

(** One call of [strsep2] on a string that has a delimiter: the token is the
    part before the first one, the rest the part after, and only the
    delimiter's byte changes. *)
Lemma strsep2_found fuel m p dl ds a d b :
  cstr m p (a ++ d :: b) → cstr m dl ds → 0 < p → 0 < dl →
  dl + zlen ds < p ∨ p + zlen (a ++ d :: b) < dl →
  Forall (λ c, c ∉ ds) a → d ∈ ds →
  (length ds + length (a ++ d :: b) < fuel)%nat →
  strsep2 fuel m p dl = Ok (p, p + zlen a + 1, <[p + zlen a := 0]> m) ∧
  cstr (<[p + zlen a := 0]> m) p a ∧
  cstr (<[p + zlen a := 0]> m) (p + zlen a + 1) b ∧
  cstr (<[p + zlen a := 0]> m) dl ds.
Proof.
  intros Hs Hd Hp Hdl Hov Ha Hin Hf.
  pose proof (strpbrk_cstr fuel m p dl _ ds Hs Hd Hp Hdl ltac:(lia) ltac:(lia) (length a)) as E.
  rewrite length_app in *. simpl in *.
  rewrite take_app_length, list_lookup_middle in E by done.
  specialize (E ltac:(lia) Ha Hin).
  pose proof (cstr_drop _ _ _ (length a) Hs ltac:(rewrite length_app; simpl; lia)) as Hda.
  rewrite drop_app_length in Hda. destruct Hda as (Hma & Hd0 & Hb).
  split_and!.
  - unfold strsep2. destruct (Z.eqb_spec p 0); [lia|]. rewrite E. simpl.
    destruct (Z.eqb_spec (p + zlen a) 0); [lia|]. simpl. by rewrite store8_ok by eauto.
  - apply cstr_bytes. apply cstr_bytes in Hs as [Hs Hnz].
    rewrite <- app_assoc, bytes_at_app in Hs. destruct Hs as [Hs _].
    apply Forall_app in Hnz as [Hnz _]. split; [|done].
    rewrite bytes_at_app. split; [apply bytes_at_insert; [done|lia]|].
    simpl. by rewrite lookup_insert_eq.
  - eapply cstr_subst; [|done]. intros x Hx. apply lookup_insert_ne. lia.
  - eapply cstr_subst; [|done]. intros x Hx. apply lookup_insert_ne. lia.
Qed.

Lemma strsep2_last fuel m p dl ds a :
  cstr m p a → cstr m dl ds → 0 < p → 0 < dl →
  Forall (λ c, c ∉ ds) a → (length ds + length a < fuel)%nat →
  strsep2 fuel m p dl = Ok (p, 0, m).
Proof.
  intros Hs Hd Hp Hdl Ha Hf.
  pose proof (strpbrk_cstr fuel m p dl _ ds Hs Hd Hp Hdl ltac:(lia) ltac:(lia) (length a)) as E.
  rewrite take_ge, lookup_ge_None_2 in E by lia. specialize (E ltac:(lia) Ha).
  unfold strsep2. destruct (Z.eqb_spec p 0); [lia|]. by rewrite E.
Qed.

(** Calling [strsep2] until the cursor is [NULL], as the path walkers of
    [kernel/vfs/dentry.c] do: the list of token addresses. *)
Fixpoint strsep2_all (fuel : nat) (m : mem) (p dl : Z) : res (list Z * mem) :=
  match fuel with
  | O => NoFuel
  | S f =>
      if p =? 0 then Ok ([], m)
      else
        r ← strsep2 fuel m p dl;
        let '(t, p', m') := r in
        rs ← strsep2_all f m' p' dl;
        Ok (t :: rs.1, rs.2)
  end.

(** The pieces of a string between delimiter characters. *)
Fixpoint split_on (ds : list Z) (s : list Z) : list (list Z) :=
  match s with
  | [] => [[]]
  | c :: s =>
      if bool_decide (c ∈ ds) then [] :: split_on ds s
      else match split_on ds s with
           | t :: ts => (c :: t) :: ts
           | [] => [[c]]
           end
  end.

Lemma split_on_first ds s :
  (Forall (λ c, c ∉ ds) s ∧ split_on ds s = [s]) ∨
  (∃ a d b, s = a ++ d :: b ∧ Forall (λ c, c ∉ ds) a ∧ d ∈ ds ∧
     split_on ds s = a :: split_on ds b).
Proof.
  induction s as [|c s IH]; simpl; [by left|].
  case_bool_decide as Hc.
  - right. exists [], c, s. split_and!; [done|constructor|done|done].
  - destruct IH as [[Hs ->]|(a & d & b & -> & Ha & Hd & ->)].
    + left. by split; [constructor|].
    + right. exists (c :: a), d, b. split_and!; [done|by constructor|done|done].
Qed.

Lemma strsep2_all_cstr fuel m p dl ds s :
  cstr m p s → cstr m dl ds → 0 < p → 0 < dl →
  dl + zlen ds < p ∨ p + zlen s < dl →
  (length ds + length s + 1 < fuel)%nat →
  ∃ ts m', strsep2_all fuel m p dl = Ok (ts, m') ∧
    Forall2 (cstr m') ts (split_on ds s) ∧
    (∀ x, x < p ∨ p + zlen s < x → m' !! x = m !! x).
Proof.
  revert fuel m p. induction s as [s IH] using (induction_ltof1 _ (@length Z)).
  unfold ltof in IH. intros [|fuel] m p Hs Hd Hp Hdl Hov Hf; [lia|].
  cbn [strsep2_all]. destruct (Z.eqb_spec p 0); [lia|].
  destruct (split_on_first ds s) as [[Ha ->]|(a & d & b & -> & Ha & Hin & ->)].
  - rewrite (strsep2_last _ _ _ _ ds s) by (done || lia). cbn [mbind res_bind].
    destruct fuel as [|fuel]; [lia|]. simpl. eexists _, _. split; [done|].
    split; [by repeat constructor|done].
  - destruct (strsep2_found (S fuel) m p dl ds a d b) as (-> & Hta & Htb & Hds);
      [done..|lia|].
    cbn [mbind res_bind]. rewrite length_app in *. simpl in *.
    destruct (IH b ltac:(simpl; lia) fuel (<[p + zlen a:=0]> m)
      (p + zlen a + 1)) as (ts & m' & -> & Hall & Hout); [done|done|lia|done|lia|lia|].
    simpl. eexists _, _. split; [done|]. split.
    + constructor; [|done]. eapply cstr_subst; [|done].
      intros x Hx. apply Hout. lia.
    + intros x Hx. rewrite Hout by lia. apply lookup_insert_ne. lia.
Qed.

(** ** Trimming *)

Lemma rtrim_loop_spaces fuel m p (k : nat) c i :
  0 ≤ p → p + i + Z.of_nat k < 2 ^ 64 → 0 ≤ i →
  m !! (p + i) = Some c → c ≠ 32 →
  bytes_at m (p + i + 1) (replicate k 32) → (k < fuel)%nat →
  rtrim_loop fuel m p (i + Z.of_nat k) =
    Ok (write_bytes m (p + i + 1) (replicate k 0)).
Proof.
  revert fuel m. induction k as [|k IH]; intros [|fuel] m Hp Hb Hi Hc Hne Hsp Hf; try lia.
  - cbn [rtrim_loop]. rewrite Z.add_0_r.
    replace (u64 (p + i)) with (p + i) by (unfold u64; rewrite Z.mod_small; lia).
    mstep. destruct (Z.eqb_spec c 32); [done|]. by rewrite andb_false_r.
  - rewrite (replicate_S_end k 0), write_bytes_snoc, length_replicate.
    cbn [rtrim_loop].
    replace (u64 (p + (i + Z.of_nat (S k)))) with (p + i + 1 + Z.of_nat k)
      by (unfold u64; rewrite Z.mod_small; lia).
    rewrite replicate_S_end, bytes_at_app, length_replicate in Hsp.
    destruct Hsp as [Hsp [Hk _]]. mstep.
    destruct (Z.leb_spec 0 (i + Z.of_nat (S k))); [|lia]. simpl.
    rewrite store8_ok by eauto. simpl.
    replace (u64 (i + Z.of_nat (S k) - 1)) with (i + Z.of_nat k)
      by (unfold u64; rewrite Z.mod_small; lia).
    rewrite IH; [|lia|lia|lia| |done| |lia].
    + done.
    + rewrite lookup_insert_ne by lia. done.
    + apply bytes_at_insert; [done|]. rewrite length_replicate. lia.
Qed.

(** ** Numbers *)

Definition digit_val (c : Z) : Z := if c <? 58 then c - 48 else c - 87.

(** Value of a numeral, most significant digit first. *)
Definition parse_digits (base : Z) (s : list Z) : Z :=
  foldl (λ acc c, acc * base + digit_val c) 0 s.

(** Value of a digit list, least significant first. *)
Fixpoint lsb_value (base : Z) (ds : list Z) : Z :=
  match ds with [] => 0 | d :: ds => d + base * lsb_value base ds end.

Lemma itoa_char_val d :
  0 ≤ d < 36 → digit_val (itoa_char d) = d ∧ itoa_char d ≠ 0.
Proof.
  intros Hd. unfold itoa_char, digit_val, u8.
  destruct (Z.ltb_spec d 10); rewrite Z.mod_small by lia; zcases; lia.
Qed.

Lemma parse_digits_lsb base ds :
  Forall (λ d, 0 ≤ d < 36) ds →
  parse_digits base (rev (map itoa_char ds)) = lsb_value base ds.
Proof.
  intros H. unfold parse_digits.
  induction H as [|d ds Hd _ IH]; simpl; [done|].
  rewrite foldl_app, IH. simpl. destruct (itoa_char_val d Hd) as [-> _]. lia.
Qed.

Lemma itoa_digits_spec (k : nat) fuel m v base p :
  0 ≤ v < 2 ^ Z.of_nat k → 2 ≤ base ≤ 36 → (k < fuel)%nat →
  mapped m p (Z.of_nat k) →
  ∃ ds, itoa_digits fuel m v base p =
          Ok (write_bytes m p (map itoa_char ds), p + zlen ds) ∧
    Forall (λ d, 0 ≤ d < 36) ds ∧ lsb_value base ds = v ∧
    (length ds ≤ k)%nat ∧ (v ≠ 0 → ds ≠ []).
Proof.
  revert fuel m v p. induction k as [|k IH]; intros [|fuel] m v p Hv Hb Hf Hm;
    cbn [itoa_digits]; try lia; destruct (Z.eqb_spec v 0) as [->|Hnz].
  - exists []. simpl. rewrite Z.add_0_r. split_and!; auto; (lia || done).
  - change (2 ^ Z.of_nat 0) with 1 in Hv. lia.
  - exists []. simpl. rewrite Z.add_0_r. split_and!; auto; (lia || done).
  - rewrite Z.quot_div_nonneg by lia.
    pose proof (Z.mod_eq v base ltac:(lia)) as Hmod.
    replace (v - v / base * base) with (v mod base) by lia.
    pose proof (Z.mod_pos_bound v base ltac:(lia)).
    rewrite store8_ok by (apply Hm; lia). simpl.
    destruct (IH fuel (<[p := itoa_char (v mod base)]> m) (v / base) (p + 1))
      as (ds & -> & Hds & Hval & Hlen & _); [|done|lia| |].
    { split; [apply Z.div_pos; lia|]. apply Z.div_lt_upper_bound; [lia|].
      rewrite Nat2Z.inj_succ, Z.pow_succ_r in Hv by lia. nia. }
    { apply mapped_insert. eapply mapped_sub; eauto; lia. }
    exists (v mod base :: ds). simpl. split_and!.
    + do 2 f_equal. lia.
    + constructor; [lia|done].
    + rewrite Hval. lia.
    + lia.
    + done.
Qed.

Lemma itoa_reverse_spec fuel m p bs :
  bytes_at m p bs → (length bs < fuel + fuel)%nat →
  itoa_reverse fuel m p (p + zlen bs - 1) = Ok (write_bytes m p (rev bs)).
Proof.
  revert m p bs. induction fuel as [|fuel IH]; intros m p bs Hbs Hf; [lia|].
  cbn [itoa_reverse]. destruct (Z.ltb_spec p (p + zlen bs - 1)).
  - destruct bs as [|a bs]; [simpl in *; lia|].
    destruct bs as [|b bs _] using rev_ind; [simpl in *; lia|].
    cbn [bytes_at] in Hbs. rewrite bytes_at_app in Hbs. destruct Hbs as [Ha [Hmid [Hb _]]].
    simpl in *. rewrite length_app in *. simpl in *.
    replace (p + Z.of_nat (S (length bs + 1)) - 1) with (p + 1 + zlen bs) in * by lia.
    do 2 mstep. rewrite (store8_ok _ p) by eauto. simpl.
    rewrite store8_ok by (rewrite lookup_insert_ne by lia; eauto). simpl.
    rewrite rev_app_distr. simpl.
    rewrite write_bytes_snoc, length_rev.
    destruct (decide (bs = [])) as [->|Hne].
    + simpl. rewrite Z.add_0_r. destruct fuel as [|fuel]; [simpl in *; lia|].
      cbn [itoa_reverse]. destruct (Z.ltb_spec (p + 1) (p + 1 - 1)); [lia|done].
    + assert (0 < length bs)%nat by (destruct bs; [done|simpl; lia]).
      apply IH; [|lia].
      do 2 (apply bytes_at_insert; [|lia]). done.
  - destruct bs as [|a [|b bs]]; simpl in *; [done| |lia].
    destruct Hbs as [Ha _]. by rewrite insert_id.
Qed.

(** * Properties *)

(** [memmove] copies the [n] source bytes to the destination whatever the
    overlap of the two ranges, and changes no byte outside the destination. *)
Theorem memmove_correct m d s bs :
  bytes_at m s bs → mapped m d (zlen bs) →
  ∃ m', memmove m d s (zlen bs) = Ok m' ∧ bytes_at m' d bs ∧
    ∀ a, a < d ∨ d + zlen bs ≤ a → m' !! a = m !! a.
Proof.
  intros Hs Hd. exists (write_bytes m d bs). split; [by apply memmove_spec|].
  split; [apply write_bytes_at|]. intros a Ha. by apply write_bytes_outside.
Qed.

Definition demo_mem : mem :=
  list_to_map (imap (λ i c, (100 + Z.of_nat i, c))
    [47; 117; 115; 114; 47; 108; 105; 98; 0; 47; 0; 1; 2; 3; 4; 5]).

Lemma memmove_correct_witness :
  ∃ m', memmove demo_mem 111 100 (zlen [47; 117; 115]) = Ok m' ∧
    bytes_at m' 111 [47; 117; 115] ∧
    ∀ a, a < 111 ∨ 111 + zlen [47; 117; 115] ≤ a → m' !! a = demo_mem !! a.
Proof.
  apply (memmove_correct demo_mem 111 100 [47; 117; 115]).
  - repeat split.
  - apply (mapped_check _ _ 3). reflexivity.
Defined.

(** The word-at-a-time [memset] agrees with byte-wise filling: for a byte
    value, at any alignment and length, every byte of the range is the value
    and no other byte changes. *)
Theorem memset_correct m p v n :
  is_byte v → mapped m p (Z.of_nat n) →
  ∃ m', memset m p v (Z.of_nat n) = Ok m' ∧
    memset_bytes m p v n = Ok m' ∧
    bytes_at m' p (replicate n v) ∧
    ∀ a, a < p ∨ p + Z.of_nat n ≤ a → m' !! a = m !! a.
Proof.
  intros Hv Hp. exists (write_bytes m p (replicate n v)).
  split; [by apply memset_spec|]. split.
  { rewrite memset_bytes_spec by done. unfold u8, is_byte in *. by rewrite Z.mod_small by lia. }
  split; [apply write_bytes_at|].
  intros a Ha. apply write_bytes_outside. by rewrite length_replicate.
Qed.

Lemma memset_correct_witness :
  ∃ m', memset demo_mem 101 255 (Z.of_nat 13) = Ok m' ∧
    memset_bytes demo_mem 101 255 13 = Ok m' ∧
    bytes_at m' 101 (replicate 13 255) ∧
    ∀ a, a < 101 ∨ 101 + Z.of_nat 13 ≤ a → m' !! a = demo_mem !! a.
Proof.
  apply (memset_correct demo_mem 101 255 13).
  - split; [discriminate|reflexivity].
  - apply (mapped_check _ _ 13). reflexivity.
Defined.

(** For a negative [value] the pattern word is not the low byte repeated:
    [memset(p, -2, 16)] stores 0xFE in the first byte of each word and 0xFF in
    the others, where the C library's routine stores 0xFE everywhere. *)
Theorem memset_negative_pattern :
  le_bytes 8 (memset_fill (-2)) = [254; 255; 255; 255; 255; 255; 255; 255].
Proof. reflexivity. Qed.

(** [strcmp] of two C strings returns 0 exactly when they are equal and a
    negative value exactly when the first is lexicographically smaller (bytes
    compared as unsigned). *)
Theorem strcmp_correct fuel m p q s t :
  cstr m p s → cstr m q t → Forall is_byte s → Forall is_byte t →
  (length s < fuel)%nat →
  ∃ r, strcmp fuel m p q = Ok r ∧ (r = 0 ↔ s = t) ∧ (r < 0 ↔ lex_lt s t = true).
Proof. apply strcmp_cstr. Qed.

Lemma strcmp_correct_witness :
  ∃ r, strcmp 20 demo_mem 105 109 = Ok r ∧
    (r = 0 ↔ [108; 105; 98] = [47]) ∧ (r < 0 ↔ lex_lt [108; 105; 98] [47] = true).
Proof.
  apply (strcmp_correct 20 demo_mem 105 109 [108; 105; 98] [47]).
  - repeat split; discriminate.
  - repeat split; discriminate.
  - repeat constructor; discriminate.
  - repeat constructor; discriminate.
  - apply Nat.ltb_lt. reflexivity.
Defined.

(** Calling [strsep2] until the cursor is [NULL] splits a string at its
    delimiter characters: the tokens returned are, in order, exactly the
    pieces between delimiters, each a C string in the final memory, and
    nothing outside the string is written. *)
Theorem strsep2_tokens fuel m p dl ds s :
  cstr m p s → cstr m dl ds → 0 < p → 0 < dl →
  dl + zlen ds < p ∨ p + zlen s < dl →
  (length ds + length s + 1 < fuel)%nat →
  ∃ ts m', strsep2_all fuel m p dl = Ok (ts, m') ∧
    Forall2 (cstr m') ts (split_on ds s) ∧
    (∀ x, x < p ∨ p + zlen s < x → m' !! x = m !! x).
Proof. apply strsep2_all_cstr. Qed.

Lemma strsep2_tokens_witness :
  ∃ ts m', strsep2_all 20 demo_mem 100 109 = Ok (ts, m') ∧
    Forall2 (cstr m') ts (split_on [47] [47; 117; 115; 114; 47; 108; 105; 98]) ∧
    (∀ x, x < 100 ∨ 100 + zlen [47; 117; 115; 114; 47; 108; 105; 98] < x →
       m' !! x = demo_mem !! x).
Proof.
  apply (strsep2_tokens 20 demo_mem 100 109 [47] [47; 117; 115; 114; 47; 108; 105; 98]).
  - repeat split; discriminate.
  - repeat split; discriminate.
  - reflexivity.
  - reflexivity.
  - right. reflexivity.
  - apply Nat.ltb_lt. reflexivity.
Defined.

(** [itoa] of a positive 64-bit value in a base from 2 to 36 terminates
    and leaves a C string of at most 63 digits whose value in that base is the
    number. *)
Theorem itoa_roundtrip m v base p :
  0 < v < 2 ^ 63 → 2 ≤ base ≤ 36 → mapped m p 64 →
  ∃ m' s, itoa 64 m v base p = Ok m' ∧ cstr m' p s ∧
    parse_digits base s = v ∧ (length s ≤ 63)%nat.
Proof.
  intros Hv Hb Hm. unfold itoa.
  destruct (Z.ltb_spec base 2); [lia|]. rewrite Z.gtb_ltb.
  destruct (Z.ltb_spec 36 base); [lia|]. simpl orb.
  destruct (Z.eqb_spec v 0); [lia|].
  destruct (itoa_digits_spec 63 64 m v base p) as (ds & -> & Hds & Hval & Hlen & Hne);
    [simpl; lia|done|lia|eapply mapped_sub; eauto; lia|].
  cbn [mbind res_bind]. specialize (Hne ltac:(lia)).
  rewrite store8_ok by (apply mapped_write with (n := 64) (p := p); [done|lia]).
  cbn [mbind res_bind].
  set (m2 := <[_ := 0]> _).
  assert (bytes_at m2 p (map itoa_char ds)) as Hbs.
  { apply bytes_at_insert; [apply write_bytes_at|]. rewrite length_map. lia. }
  rewrite <- (length_map itoa_char ds).
  rewrite itoa_reverse_spec by (done || (rewrite length_map; lia)).
  eexists _, (rev (map itoa_char ds)). split; [done|]. split_and!.
  - apply cstr_bytes. split.
    + apply bytes_at_app. split; [apply write_bytes_at|]. simpl. split; [|done].
      rewrite write_bytes_outside by (rewrite !length_rev, !length_map; lia).
      unfold m2. by rewrite length_rev, length_map, lookup_insert_eq.
    + apply Forall_rev, Forall_map. eapply Forall_impl; [done|].
      intros d Hd. by apply itoa_char_val.
  - by rewrite parse_digits_lsb.
  - by rewrite length_rev, length_map.
Qed.

Definition zero_mem (p : Z) (n : nat) : mem :=
  list_to_map (map (λ k, (p + Z.of_nat k, 0)) (seq 0 n)).

Lemma itoa_roundtrip_witness :
  ∃ m' s, itoa 64 (zero_mem 500 64) 8191 16 500 = Ok m' ∧ cstr m' 500 s ∧
    parse_digits 16 s = 8191 ∧ (length s ≤ 63)%nat.
Proof.
  apply (itoa_roundtrip (zero_mem 500 64) 8191 16 500).
  - split; reflexivity.
  - split; discriminate.
  - apply (mapped_check _ _ 64). reflexivity.
Defined.

(** A negative value is written with digits below ['0']: there is no sign
    handling in [itoa], so the text of -1 in base 10 is the single byte 47. *)
Theorem itoa_negative :
  itoa 64 (zero_mem 500 4) (-1) 10 500 =
  Ok (write_bytes (zero_mem 500 4) 500 [47; 0]).
Proof. vm_compute. reflexivity. Qed.

(** [rtrim] on a string with a non-blank character removes exactly the
    trailing blanks: the text up to the last non-blank character is kept and
    is now followed by the terminator. *)
Theorem rtrim_correct fuel m p s c k :
  0 < p → p + zlen s + Z.of_nat k + 1 < 2 ^ 64 → c ≠ 32 →
  cstr m p (s ++ c :: replicate k 32) →
  (length s + k + 1 < fuel)%nat →
  ∃ m', rtrim fuel m p = Ok m' ∧ cstr m' p (s ++ [c]).
Proof.
  intros Hp Hb Hc Hs Hf. unfold rtrim.
  assert (Hlen : length (s ++ c :: replicate k 32) = (length s + S k)%nat)
    by (rewrite length_app; simpl; by rewrite length_replicate).
  rewrite (strlen_cstr _ _ _ _ Hs) by (rewrite Hlen; lia). cbn [mbind res_bind].
  rewrite Hlen.
  replace (u64 (Z.of_nat (length s + S k) - 1)) with (zlen s + Z.of_nat k)
    by (unfold u64; rewrite Z.mod_small; lia).
  pose proof Hs as Hs'. apply cstr_bytes in Hs' as [Hbs Hnz].
  rewrite <- app_assoc in Hbs. simpl in Hbs. rewrite bytes_at_app in Hbs.
  destruct Hbs as [Hbs [Hmc Hsp]]. rewrite bytes_at_app in Hsp. destruct Hsp as [Hsp [H0 _]].
  rewrite length_replicate in H0.
  rewrite (rtrim_loop_spaces _ _ _ _ c) by (done || lia).
  eexists. split; [done|]. apply cstr_bytes. split.
  - rewrite <- app_assoc. simpl. rewrite bytes_at_app. simpl. split_and!; [| | |done].
    + eapply bytes_at_subst; [|done]. intros a Ha.
      apply write_bytes_outside. lia.
    + by rewrite write_bytes_outside by lia.
    + rewrite write_bytes_lookup, length_replicate. case_decide.
      * rewrite Z.sub_diag. apply lookup_replicate_2. lia.
      * replace k with 0%nat in H0 by lia. by rewrite Z.add_0_r in H0.
  - apply Forall_app in Hnz as [? Hnz]. apply Forall_cons in Hnz as [? _].
    apply Forall_app. split; [done|]. by constructor.
Qed.

Lemma rtrim_correct_witness :
  ∃ m', rtrim 20 (write_bytes demo_mem 100 [97; 98; 32; 32; 0]) 100 = Ok m' ∧
    cstr m' 100 ([97] ++ [98]).
Proof.
  apply (rtrim_correct 20 (write_bytes demo_mem 100 [97; 98; 32; 32; 0]) 100 [97] 98 2).
  - reflexivity.
  - reflexivity.
  - discriminate.
  - repeat split; discriminate.
  - apply Nat.ltb_lt. reflexivity.
Defined.

(** The index of [rtrim] is unsigned, so on a string of blanks only it runs
    past the front of the string and touches the byte before it. *)
Theorem rtrim_blank_faults :
  rtrim 20 (write_bytes (zero_mem 100 8) 100 [32; 32; 0]) 100 = Fault.
Proof. reflexivity. Qed.
