(* ===== verification/Libk.v ===== *)
(** * Small kernel library routines

    [kernel/libk/hash.c] (Module [Hash]), [kernel/libk/math.c] ([KMath]),
    [kernel/libk/unicode.c] with [utf8_char_len] of
    [kernel/hal/graphic/graphic.c] and [codepoint_to_utf8] of
    [kernel/tty/tty.c] ([Unicode]), [kernel/libk/oct2bin.h] ([Oct]) and
    [kernel/libk/bits.c] ([Bits]). *)

From S2P Require Import Prelude CMem.

Module Hash.

Fixpoint hash_loop (fuel : nat) (m : mem) (p h : Z) : res Z :=
  match fuel with
  | O => NoFuel
  | S fuel =>
      c ← load8 m p;
      if c =? 0 then Ok h
      else hash_loop fuel m (p + 1) (u64 (Z.lxor h c * 0x9e3779b97f4a7c15))
  end.

Definition hash (fuel : nat) (m : mem) (str max_size : Z) : res Z :=
  h ← hash_loop fuel m str 0xcbf29ce484222325;
  let h := Z.lxor h (Z.shiftr h 32) in
  Ok (if negb (max_size =? 0) then h mod max_size else h).

Fixpoint hash32_loop (fuel : nat) (m : mem) (p h : Z) : res Z :=
  match fuel with
  | O => NoFuel
  | S fuel =>
      c ← load8 m p;
      if c =? 0 then Ok h
      else hash32_loop fuel m (p + 1) (u32 (Z.lxor h c * 0x9e3779b))
  end.

Definition hash32 (fuel : nat) (m : mem) (str max_size : Z) : res Z :=
  h ← hash32_loop fuel m str 0xcbf29ce4;
  Ok (if negb (max_size =? 0) then h mod max_size else h).

Lemma hash_loop_cstr fuel m p s h :
  cstr m p s → (length s < fuel)%nat → 0 ≤ h < 2 ^ 64 →
  ∃ r, hash_loop fuel m p h = Ok r ∧ 0 ≤ r < 2 ^ 64.
Proof.
  revert fuel p h. induction s as [|c s IH]; intros [|fuel] p h; simpl; try lia.
  - intros H _ Hh. rewrite (load8_ok _ _ _ H). simpl. eauto.
  - intros (H & Hc & Hs) Hf Hh. rewrite (load8_ok _ _ _ H). simpl.
    destruct (Z.eqb_spec c 0); [done|]. apply IH; [done|lia|].
    apply Z.mod_pos_bound. lia.
Qed.

Lemma hash32_loop_cstr fuel m p s h :
  cstr m p s → (length s < fuel)%nat → 0 ≤ h < 2 ^ 32 →
  ∃ r, hash32_loop fuel m p h = Ok r ∧ 0 ≤ r < 2 ^ 32.
Proof.
  revert fuel p h. induction s as [|c s IH]; intros [|fuel] p h; simpl; try lia.
  - intros H _ Hh. rewrite (load8_ok _ _ _ H). simpl. eauto.
  - intros (H & Hc & Hs) Hf Hh. rewrite (load8_ok _ _ _ H). simpl.
    destruct (Z.eqb_spec c 0); [done|]. apply IH; [done|lia|].
    apply Z.mod_pos_bound. lia.
Qed.

(** The hash depends on the characters only, not on where the string is. *)
Lemma hash32_loop_ext fuel m m' p q s h :
  cstr m p s → cstr m' q s → (length s < fuel)%nat →
  hash32_loop fuel m p h = hash32_loop fuel m' q h.
Proof.
  revert fuel p q h. induction s as [|c s IH]; intros [|fuel] p q h; simpl; try lia.
  - intros H H' _. by rewrite (load8_ok _ _ _ H), (load8_ok _ _ _ H').
  - intros (H & Hc & Hs) (H' & _ & Hs') Hf.
    rewrite (load8_ok _ _ _ H), (load8_ok _ _ _ H'). simpl.
    destruct (Z.eqb_spec c 0); [done|]. apply IH; (done || lia).
Qed.

End Hash.

Module KMath.

(** [for (i = 0; i < exp; i++) result *= base], at width 64. *)
Fixpoint pow_loop (exp : nat) (base result : Z) : Z :=
  match exp with
  | O => result
  | S exp => pow_loop exp base (u64 (result * base))
  end.

Definition pow (base exp : Z) : Z := pow_loop (Z.to_nat exp) base 1.

Definition clamp (value min max : Z) : Z :=
  if value <? min then min else if value >? max then max else value.

Definition min (a b : Z) : Z := if a <? b then a else b.
Definition max (a b : Z) : Z := if a >? b then a else b.
Definition abs (a : Z) : Z := if a <? 0 then s64 (- a) else a.

Lemma pow_loop_spec n base r : pow_loop n base r mod 2 ^ 64 = (r * base ^ Z.of_nat n) mod 2 ^ 64.
Proof.
  revert r. induction n as [|n IH]; intros r; cbn [pow_loop].
  - by rewrite Z.mul_1_r.
  - rewrite IH. unfold u64. rewrite Zmult_mod_idemp_l.
    rewrite Nat2Z.inj_succ, Z.pow_succ_r by lia. f_equal. lia.
Qed.

End KMath.

Module Unicode.

Definition HIGH_SURROGATE_START : Z := 0xD800.
Definition HIGH_SURROGATE_END : Z := 0xDBFF.
Definition LOW_SURROGATE_START : Z := 0xDC00.
Definition LOW_SURROGATE_END : Z := 0xDFFF.

(** The value left in [*cp]: the last store is [*cp = high]. *)
Definition decode_utf16 (utf16 : list Z) : res Z :=
  high ← aget utf16 0;
  if (HIGH_SURROGATE_START <=? high) && (high <=? HIGH_SURROGATE_END) then
    low ← aget utf16 1;
    if (LOW_SURROGATE_START <=? low) && (low <=? LOW_SURROGATE_END) then
      Ok (u32 (0x1000 + Z.shiftl (high - HIGH_SURROGATE_START) 10
               + (low - LOW_SURROGATE_START)))
    else Ok high
  else Ok high.

(** The returned count and the caller's array. *)
Definition encode_utf16 (cp : Z) (utf16 : list Z) : res (Z * list Z) :=
  if cp <? 0x1000 then
    if (0xD800 <=? cp) && (cp <=? 0xDFFF) then Ok (0, utf16)
    else a ← aset utf16 0 (u16 cp); Ok (1, a)
  else if cp >? 0x10FFFF then Ok (0, utf16)
  else
    let u := u32 (cp - 0x10000) in
    let high10 := Z.shiftr u 10 in
    let low10 := Z.land u 0x3FF in
    a ← aset utf16 0 (u16 (Z.lor HIGH_SURROGATE_START (u16 high10)));
    b ← aset a 1 (u16 (Z.lor LOW_SURROGATE_START (u16 low10)));
    Ok (2, b).

(** The returned length and the value stored in [*cp], if any. *)
Definition decode_utf8 (utf8 : list Z) : res (Z * option Z) :=
  cp_ ← aget utf8 0;
  if cp_ <? 0x80 then Ok (1, Some cp_)
  else if Z.land cp_ 0xE0 =? 0xC0 then
    b1 ← aget utf8 1;
    Ok (2, Some (Z.lor (Z.shiftl (Z.land cp_ 0x1F) 6) (Z.land b1 0x3F)))
  else if Z.land cp_ 0xF0 =? 0xE0 then
    b1 ← aget utf8 1;
    b2 ← aget utf8 2;
    Ok (3, Some (Z.lor (Z.lor (Z.shiftl (Z.land cp_ 0xF) 12)
                             (Z.shiftl (Z.land b1 0x3F) 6)) (Z.land b2 0x3F)))
  else if Z.land cp_ 0xF8 =? 0xF0 then
    b1 ← aget utf8 1;
    b2 ← aget utf8 2;
    Ok (4, Some (Z.lor (Z.lor (Z.lor (Z.shiftl (Z.land cp_ 0x7) 18)
                                     (Z.shiftl (Z.land b1 0x3F) 12))
                             (Z.shiftl (Z.land b1 0x3F) 6)) (Z.land b2 0x3F)))
  else Ok (0, None).

(** [utf8_char_len]: length announced by a lead byte. *)
Definition utf8_char_len (c : Z) : Z :=
  if Z.land c 0x80 =? 0 then 1
  else if Z.land c 0xE0 =? 0xC0 then 2
  else if Z.land c 0xF0 =? 0xE0 then 3
  else if Z.land c 0xF8 =? 0xF0 then 4
  else 1.

(** The bytes [codepoint_to_utf8] stores, terminator included. *)
Definition codepoint_to_utf8 (cp : Z) : list Z :=
  if cp <? 0x80 then [u8 cp; 0]
  else if cp <? 0x800 then
    [u8 (Z.lor 0xc0 (Z.shiftr cp 6)); u8 (Z.lor 0x80 (Z.land cp 0x3f)); 0]
  else if cp <? 0x10000 then
    [u8 (Z.lor 0xe0 (Z.shiftr cp 12)); u8 (Z.lor 0x80 (Z.land (Z.shiftr cp 6) 0x3f));
     u8 (Z.lor 0x80 (Z.land cp 0x3f)); 0]
  else
    [u8 (Z.lor 0xf0 (Z.shiftr cp 18)); u8 (Z.lor 0x80 (Z.land (Z.shiftr cp 12) 0x3f));
     u8 (Z.lor 0x80 (Z.land (Z.shiftr cp 6) 0x3f)); u8 (Z.lor 0x80 (Z.land cp 0x3f)); 0].

(** *** Printing and decoding UTF-8 *)

Lemma land_3f x : Z.land x 0x3F = x mod 2 ^ 6.
Proof. apply (land_ones_mod x 6). lia. Qed.

(** Continuation byte: [0x80 | b] for a six-bit [b]. *)
Lemma cont_byte b : 0 ≤ b < 2 ^ 6 → u8 (Z.lor 0x80 b) mod 2 ^ 6 = b.
Proof.
  intros Hb. change 0x80 with (Z.shiftl 2 6). rewrite lor_shiftl_add by lia.
  unfold u8. dlia.
Qed.

(** Lead bytes: [mark | x] takes the branch of its length in the decoders and
    carries [x] in its low bits. *)
Definition lead2 (x : Z) : Prop :=
  let b := u8 (Z.lor 0xc0 x) in
  (b <? 0x80) = false ∧ (Z.land b 0xE0 =? 0xC0) = true ∧
  Z.land b 0x1F = x ∧ utf8_char_len b = 2.
Definition lead3 (x : Z) : Prop :=
  let b := u8 (Z.lor 0xe0 x) in
  (b <? 0x80) = false ∧ (Z.land b 0xE0 =? 0xC0) = false ∧
  (Z.land b 0xF0 =? 0xE0) = true ∧ Z.land b 0xF = x ∧ utf8_char_len b = 3.
Definition lead4 (x : Z) : Prop :=
  let b := u8 (Z.lor 0xf0 x) in
  (b <? 0x80) = false ∧ (Z.land b 0xE0 =? 0xC0) = false ∧
  (Z.land b 0xF0 =? 0xE0) = false ∧ (Z.land b 0xF8 =? 0xF0) = true ∧
  Z.land b 0x7 = x ∧ utf8_char_len b = 4.

Lemma lead2_all x : 0 ≤ x < 32 → lead2 x.
Proof.
  intros Hx. apply (bool_decide_eq_true_1 _). revert x Hx.
  apply (forall_below 32 (λ x, bool_decide (lead2 x))). vm_compute. done.
Qed.

Lemma lead3_all x : 0 ≤ x < 16 → lead3 x.
Proof.
  intros Hx. apply (bool_decide_eq_true_1 _). revert x Hx.
  apply (forall_below 16 (λ x, bool_decide (lead3 x))). vm_compute. done.
Qed.

Lemma lead4_all x : 0 ≤ x < 8 → lead4 x.
Proof.
  intros Hx. apply (bool_decide_eq_true_1 _). revert x Hx.
  apply (forall_below 8 (λ x, bool_decide (lead4 x))). vm_compute. done.
Qed.

Lemma ascii_len x : 0 ≤ x < 128 → utf8_char_len x = 1.
Proof.
  intros Hx. apply Z.eqb_eq. revert x Hx.
  apply (forall_below 128 (λ x, utf8_char_len x =? 1)). reflexivity.
Qed.

(** Reassembling the six-bit fields of a code point. *)
Lemma fields2 cp : 0 ≤ cp < 2 ^ 11 →
  Z.lor (Z.shiftl (cp / 2 ^ 6) 6) (cp mod 2 ^ 6) = cp.
Proof. intros. rewrite lor_shiftl_add by dlia. dlia. Qed.

Lemma fields3 cp : 0 ≤ cp < 2 ^ 16 →
  Z.lor (Z.lor (Z.shiftl (cp / 2 ^ 12) 12) (Z.shiftl (cp / 2 ^ 6 mod 2 ^ 6) 6))
    (cp mod 2 ^ 6) = cp.
Proof.
  intros. rewrite <- Z.lor_assoc.
  rewrite (lor_shiftl_add (cp / 2 ^ 6 mod 2 ^ 6)) by dlia.
  rewrite lor_shiftl_add by dlia. dlia.
Qed.

Lemma fields4 cp : 0 ≤ cp < 2 ^ 21 →
  Z.lor (Z.lor (Z.lor (Z.shiftl (cp / 2 ^ 18) 18)
    (Z.shiftl (cp / 2 ^ 12 mod 2 ^ 6) 12)) (Z.shiftl (cp / 2 ^ 6 mod 2 ^ 6) 6))
    (cp mod 2 ^ 6) = cp.
Proof.
  intros. rewrite <- !Z.lor_assoc.
  rewrite (lor_shiftl_add (cp / 2 ^ 6 mod 2 ^ 6)) by dlia.
  rewrite (lor_shiftl_add (cp / 2 ^ 12 mod 2 ^ 6)) by dlia.
  rewrite lor_shiftl_add by dlia. dlia.
Qed.

Ltac utf8_fields :=
  rewrite ?land_3f, ?shiftr_div, ?cont_byte by (dlia || lia).

(** Printing a code point of the basic plane as UTF-8 and decoding it
    gives the code point back, with the number of bytes printed, and that
    number is what the lead byte announces. *)
Theorem utf8_roundtrip_bmp cp :
  0 ≤ cp < 0x10000 →
  ∃ n, decode_utf8 (codepoint_to_utf8 cp) = Ok (n, Some cp) ∧
    zlen (codepoint_to_utf8 cp) = n + 1 ∧
    utf8_char_len (at_ (codepoint_to_utf8 cp) 0) = n.
Proof.
  intros Hcp. unfold codepoint_to_utf8.
  destruct (Z.ltb_spec cp 0x80); [|destruct (Z.ltb_spec cp 0x800);
    [|destruct (Z.ltb_spec cp 0x10000); [|lia]]].
  - exists 1. unfold u8. rewrite Z.mod_small by lia. unfold decode_utf8. simpl.
    destruct (Z.ltb_spec cp 0x80); [|lia].
    split_and!; [done|done|]. change (utf8_char_len cp = 1). apply ascii_len. lia.
  - exists 2. destruct (lead2_all (cp / 2 ^ 6)) as (E1 & E2 & E3 & E4); [dlia|].
    unfold decode_utf8. utf8_fields. simpl. rewrite E1, E2, E3. utf8_fields.
    rewrite fields2 by lia. done.
  - exists 3. destruct (lead3_all (cp / 2 ^ 12)) as (E1 & E2 & E3 & E4 & E5); [dlia|].
    unfold decode_utf8. utf8_fields. simpl. rewrite E1, E2, E3, E4. utf8_fields.
    rewrite fields3 by lia. done.
Qed.

Lemma utf8_roundtrip_bmp_witness :
  ∃ n, decode_utf8 (codepoint_to_utf8 0x250C) = Ok (n, Some 0x250C) ∧
    zlen (codepoint_to_utf8 0x250C) = n + 1 ∧
    utf8_char_len (at_ (codepoint_to_utf8 0x250C) 0) = n.
Proof. apply (utf8_roundtrip_bmp 0x250C). split; [discriminate|reflexivity]. Defined.

(** The four-byte branch of [decode_utf8] reads [utf8[1]] and [utf8[2]] for
    the last two fields, so it does not invert the printer: U+1F600 decodes to
    U+1F7D8. *)
Theorem decode_utf8_four_bytes :
  decode_utf8 (codepoint_to_utf8 0x1F600) = Ok (4, Some 0x1F7D8).
Proof. reflexivity. Qed.

(** [encode_utf16] takes the surrogate branch from 0x1000 on instead of
    0x10000: U+20AC, which is one unit,
    is written as the two units FFC8/DCAC. *)
Theorem encode_utf16_bmp :
  encode_utf16 0x20AC [0; 0] = Ok (2, [0xFFC8; 0xDCAC]).
Proof. reflexivity. Qed.

(** [decode_utf16] adds 0x1000 instead of 0x10000: the pair of U+1F600 decodes
    to U+10600. *)
Theorem decode_utf16_pair :
  encode_utf16 0x1F600 [0; 0] = Ok (2, [0xD83D; 0xDE00]) ∧
  decode_utf16 [0xD83D; 0xDE00] = Ok 0x10600.
Proof. split; reflexivity. Qed.

End Unicode.

Module Oct.

(** The loop of [oct2bin]; [i] counts up to [len]. *)
Fixpoint oct2bin_loop (str : list Z) (i : Z) (n : nat) (value : Z) : res Z :=
  match n with
  | O => Ok value
  | S n =>
      c ← aget str i;
      if (c =? 0) || (c =? 32) then Ok value
      else if (c <? 48) || (c >? 55) then Ok value
      else oct2bin_loop str (i + 1) n (Z.lor (u64 (Z.shiftl value 3)) (u64 (c - 48)))
  end.

Definition oct2bin (str : list Z) (len : Z) : res Z :=
  oct2bin_loop str 0 (Z.to_nat len) 0.

Definition is_octal (c : Z) : Prop := 48 ≤ c ≤ 55.

Definition oct_value (ds : list Z) : Z := foldl (λ v c, 8 * v + (c - 48)) 0 ds.

Lemma oct_step v c :
  0 ≤ v < 2 ^ 61 → is_octal c →
  Z.lor (u64 (Z.shiftl v 3)) (u64 (c - 48)) = 8 * v + (c - 48).
Proof.
  unfold is_octal, u64. intros Hv Hc. rewrite Z.shiftl_mul_pow2 by lia.
  rewrite !Z.mod_small by lia. rewrite lor_mul_add by lia. lia.
Qed.

Lemma oct2bin_loop_spec str i n ds rest v :
  drop (Z.to_nat i) str = ds ++ rest → 0 ≤ i → Forall is_octal ds →
  (length ds ≤ n)%nat →
  (length ds = n ∨ ∃ c, head rest = Some c ∧ ¬ is_octal c) →
  0 ≤ v → (v + 1) * 8 ^ zlen ds ≤ 2 ^ 64 →
  oct2bin_loop str i n v = Ok (foldl (λ v c, 8 * v + (c - 48)) v ds).
Proof.
  revert i n v. induction ds as [|d ds IH]; intros i n v Hdrop Hi Hoct Hn Hend Hv Hb.
  - destruct n as [|n]; [done|]. destruct Hend as [|(c & Hc & Hno)]; [done|].
    destruct rest as [|c' rest]; [done|]. injection Hc as ->.
    cbn [oct2bin_loop foldl]. unfold aget. destruct (Z.leb_spec 0 i); [|lia].
    rewrite <- (Nat.add_0_r (Z.to_nat i)), <- lookup_drop, Hdrop. simpl.
    unfold is_octal in Hno. rewrite Z.gtb_ltb. zcases; exfalso; lia.
  - destruct n as [|n]; [simpl in Hn; lia|].
    apply Forall_cons in Hoct as [Hd Hoct]. cbn [oct2bin_loop foldl length] in *.
    unfold aget. destruct (Z.leb_spec 0 i); [|lia].
    rewrite <- (Nat.add_0_r (Z.to_nat i)), <- lookup_drop, Hdrop. simpl.
    pose proof Hd as Hd'. unfold is_octal in Hd'. rewrite Z.gtb_ltb.
    destruct (Z.eqb_spec d 0), (Z.eqb_spec d 32), (Z.ltb_spec d 48), (Z.ltb_spec 55 d); try lia.
    simpl. rewrite Nat2Z.inj_succ, Z.pow_succ_r in Hb by lia.
    assert (0 < 8 ^ zlen ds) by (apply Z.pow_pos_nonneg; lia).
    rewrite oct_step by (done || nia).
    apply IH; [|lia|done|lia| |lia|nia].
    + replace (Z.to_nat (i + 1)) with (Z.to_nat i + 1)%nat by lia.
      by rewrite <- drop_drop, Hdrop.
    + destruct Hend as [|?]; [left; lia|by right].
Qed.

(** [oct2bin] of a field of octal digits, ended by its length or by a
    non-digit as in a tar header, is the number the digits denote. *)
Theorem oct2bin_value ds rest n :
  Forall is_octal ds → (length ds ≤ 21)%nat → (length ds ≤ n)%nat →
  (length ds = n ∨ ∃ c, head rest = Some c ∧ ¬ is_octal c) →
  oct2bin (ds ++ rest) (Z.of_nat n) = Ok (oct_value ds).
Proof.
  intros Hd Hlen Hn Hend. unfold oct2bin. rewrite Nat2Z.id.
  apply (oct2bin_loop_spec _ 0 n ds rest 0); try done; try lia.
  transitivity (8 ^ 21); [|done]. rewrite Z.mul_1_l.
  apply Z.pow_le_mono_r; lia.
Qed.

Lemma oct2bin_value_witness :
  oct2bin ([48; 48; 49; 55; 55] ++ [0; 0; 0]) (Z.of_nat 8) =
  Ok (oct_value [48; 48; 49; 55; 55]).
Proof.
  apply (oct2bin_value [48; 48; 49; 55; 55] [0; 0; 0] 8).
  - repeat constructor; discriminate.
  - apply Nat.leb_le. reflexivity.
  - apply Nat.leb_le. reflexivity.
  - right. exists 0. split; [reflexivity|]. intros [H _]. apply H. reflexivity.
Defined.

End Oct.

Module Bits.

Record bitstream := mkBitstream { data : list Z; bit_pos : Z; size : Z }.

Definition advance (bs : bitstream) (n : Z) : bitstream :=
  mkBitstream (data bs) (u64 (bit_pos bs + n)) (size bs).

Definition read_byte (bs : bitstream) : res (Z * bitstream) :=
  let byte_pos := bit_pos bs / 8 in
  if byte_pos >? size bs then Ok (0, bs)
  else
    val ← aget (data bs) byte_pos;
    if val =? 0xFF then
      if byte_pos + 1 <? size bs then
        next ← aget (data bs) (byte_pos + 1);
        if next =? 0 then Ok (0xFF, advance bs 16) else Ok (0, bs)
      else Ok (0, bs)
    else Ok (val, advance bs 8).

Fixpoint read_bits_loop (n : nat) (bs : bitstream) (val : Z) : res (Z * bitstream) :=
  match n with
  | O => Ok (val, bs)
  | S n =>
      let byte_pos := bit_pos bs / 8 in
      let bit_offset := 7 - bit_pos bs mod 8 in
      if byte_pos >=? size bs then Ok (val, bs)
      else
        r ← read_byte bs;
        let '(byte, bs) := r in
        read_bits_loop n bs
          (Z.lor (u32 (Z.shiftl val 1)) (Z.land (Z.shiftr byte bit_offset) 1))
  end.

Definition read_bits (bs : bitstream) (n : Z) : res (Z * bitstream) :=
  read_bits_loop (Z.to_nat n) bs 0.

Definition read_bit (bs : bitstream) : res (Z * bitstream) :=
  let byte_pos := bit_pos bs / 8 in
  let bit_in_byte := u8 (7 - bit_pos bs mod 8) in
  byte ← aget (data bs) byte_pos;
  Ok (Z.land (Z.shiftr byte bit_in_byte) 1, advance bs 1).

(** [n] calls of [read_bit], collecting the bits most significant first. *)
Fixpoint read_n (n : nat) (bs : bitstream) (acc : Z) : res (Z * bitstream) :=
  match n with
  | O => Ok (acc, bs)
  | S n =>
      r ← read_bit bs;
      let '(b, bs) := r in
      read_n n bs (2 * acc + b)
  end.

(** *** Reading bits *)

Lemma read_bit_spec bs b :
  data bs !! Z.to_nat (bit_pos bs / 8) = Some b → 0 ≤ bit_pos bs < 2 ^ 64 - 1 → 0 ≤ b →
  read_bit bs =
    Ok (Z.b2z (Z.testbit b (7 - bit_pos bs mod 8)),
        mkBitstream (data bs) (bit_pos bs + 1) (size bs)).
Proof.
  intros Hb Hp Hb0. unfold read_bit, aget, advance.
  destruct (Z.leb_spec 0 (bit_pos bs / 8)); [|dlia]. rewrite Hb. simpl.
  pose proof (Z.mod_pos_bound (bit_pos bs) 8 ltac:(lia)).
  unfold u8, u64. rewrite (Z.mod_small (bit_pos bs + 1)) by lia.
  rewrite (Z.mod_small (7 - _)) by lia. do 2 f_equal.
  rewrite Z.testbit_spec' by lia.
  change 1 with (Z.ones 1). rewrite Z.land_ones by lia.
  rewrite Z.shiftr_div_pow2 by lia. done.
Qed.

Lemma read_n_spec (n : nat) bs b acc :
  0 ≤ bit_pos bs → bit_pos bs + Z.of_nat n < 2 ^ 64 → 0 ≤ b →
  data bs !! Z.to_nat (bit_pos bs / 8) = Some b →
  bit_pos bs mod 8 + Z.of_nat n ≤ 8 →
  read_n n bs acc =
    Ok (acc * 2 ^ Z.of_nat n +
        b / 2 ^ (8 - bit_pos bs mod 8 - Z.of_nat n) mod 2 ^ Z.of_nat n,
        mkBitstream (data bs) (bit_pos bs + Z.of_nat n) (size bs)).
Proof.
  revert bs acc. induction n as [|n IH]; intros bs acc Hp Hp' Hb Hd Hn.
  - simpl. rewrite Z.mod_1_r, Z.add_0_r, Z.mul_1_r, Z.add_0_r. by destruct bs.
  - cbn [read_n]. rewrite (read_bit_spec bs b) by (done || lia). cbn [mbind res_bind].
    pose proof (Z.mod_pos_bound (bit_pos bs) 8 ltac:(lia)).
    set (k := 8 - bit_pos bs mod 8 - Z.of_nat (S n)).
    assert (Hsplit : b / 2 ^ k mod 2 ^ Z.of_nat (S n) =
      Z.b2z (Z.testbit b (k + Z.of_nat n)) * 2 ^ Z.of_nat n + b / 2 ^ k mod 2 ^ Z.of_nat n).
    { rewrite Nat2Z.inj_succ, <- Z.add_1_r, Z.pow_add_r, Z.rem_mul_r by lia.
      rewrite Z.testbit_spec', Z.div_div, <- Z.pow_add_r by lia. change (2 ^ 1) with 2. lia. }
    destruct n as [|n].
    + cbn [read_n]. rewrite Hsplit. change (2 ^ Z.of_nat 0) with 1.
      change (2 ^ Z.of_nat 1) with 2. rewrite Z.mod_1_r.
      replace (k + Z.of_nat 0) with (7 - bit_pos bs mod 8) by lia.
      do 2 f_equal. lia.
    + assert (bit_pos bs mod 8 + 1 < 8) by lia.
      assert (E1 : (bit_pos bs + 1) / 8 = bit_pos bs / 8) by dlia.
      assert (E2 : (bit_pos bs + 1) mod 8 = bit_pos bs mod 8 + 1) by dlia.
      rewrite IH; cbn [bit_pos data size]; [|lia|lia|done|by rewrite E1|lia].
      rewrite E2, Hsplit.
      replace (8 - (bit_pos bs mod 8 + 1) - Z.of_nat (S n)) with k by lia.
      replace (k + Z.of_nat (S n)) with (7 - bit_pos bs mod 8) by lia.
      rewrite (Nat2Z.inj_succ (S n)), Z.pow_succ_r by lia.
      do 2 f_equal; [|f_equal; lia]. ring.
Qed.

(** [read_bit] reads most significant bit first: [n] calls that stay in
    one byte return that byte's next [n] bits as a number, and advance the
    position by [n]; eight calls from a byte boundary return the byte. *)
Theorem read_bit_msb_first (n : nat) bs b :
  0 ≤ bit_pos bs < 2 ^ 64 - 16 → 0 ≤ b < 256 →
  data bs !! Z.to_nat (bit_pos bs / 8) = Some b →
  bit_pos bs mod 8 + Z.of_nat n ≤ 8 →
  read_n n bs 0 =
    Ok (b / 2 ^ (8 - bit_pos bs mod 8 - Z.of_nat n) mod 2 ^ Z.of_nat n,
        mkBitstream (data bs) (bit_pos bs + Z.of_nat n) (size bs)).
Proof.
  intros. pose proof (Z.mod_pos_bound (bit_pos bs) 8 ltac:(lia)).
  by rewrite (read_n_spec n bs b 0) by (done || lia).
Qed.

Lemma read_bit_msb_first_witness :
  read_n 5 (mkBitstream [0; 0xB7] 9 2) 0 =
    Ok (0xB7 / 2 ^ (8 - 9 mod 8 - Z.of_nat 5) mod 2 ^ Z.of_nat 5,
        mkBitstream [0; 0xB7] (9 + Z.of_nat 5) 2).
Proof.
  apply (read_bit_msb_first 5 (mkBitstream [0; 0xB7] 9 2) 0xB7).
  - split; [discriminate|reflexivity].
  - split; [discriminate|reflexivity].
  - reflexivity.
  - discriminate.
Defined.

(** [read_bits] calls [read_byte] for every bit and so advances by a byte per
    bit: two bits of 0xC0 read as 2 and the position moves by 16. *)
Theorem read_bits_skips_bytes :
  read_bits (mkBitstream [0xC0; 0; 0] 0 3) 2 = Ok (2, mkBitstream [0xC0; 0; 0] 16 3).
Proof. reflexivity. Qed.

End Bits.
