(* ===== verification/Bitmap.v ===== *)
(** * Bit arrays over machine words

    The bit arrays the allocators keep: an array of [w]-bit words in which
    bit [j] is bit [j % w] of word [j / w].  [bit_set] and [bit_clear] are
    the statements [map[j / w] |= 1 << (j % w)] and
    [map[j / w] &= ~(1 << (j % w))] of the C code ([w] is 8 in the physical
    allocator and 64 in [libk/grow_bitmap.h]), [set_range] and [clear_range]
    the loops that run them over consecutive indices. *)

From S2P Require Import Prelude.

Section bitmap.
Context (w : Z).

Definition bit (l : list Z) (j : Z) : bool :=
  Z.testbit (at_ l (j / w)) (j mod w).

Definition bit_get (l : list Z) (j : Z) : res bool :=
  x ← aget l (j / w); Ok (Z.testbit x (j mod w)).

Definition bit_set (l : list Z) (j : Z) : res (list Z) :=
  x ← aget l (j / w);
  aset l (j / w) (Z.lor x (Z.shiftl 1 (j mod w)) mod 2 ^ w).

Definition bit_clear (l : list Z) (j : Z) : res (list Z) :=
  x ← aget l (j / w);
  aset l (j / w) (Z.land x (Z.lnot (Z.shiftl 1 (j mod w))) mod 2 ^ w).

Fixpoint set_range (l : list Z) (j : Z) (n : nat) : res (list Z) :=
  match n with
  | O => Ok l
  | S n => l ← bit_set l j; set_range l (j + 1) n
  end.

Fixpoint clear_range (l : list Z) (j : Z) (n : nat) : res (list Z) :=
  match n with
  | O => Ok l
  | S n => l ← bit_clear l j; clear_range l (j + 1) n
  end.

(** Number of clear bits among the first [n]. *)
Fixpoint count_clear (l : list Z) (n : nat) : Z :=
  match n with
  | O => 0
  | S n => count_clear l n + (if bit l (Z.of_nat n) then 0 else 1)
  end.

Definition words (l : list Z) : Prop := Forall (λ x, 0 ≤ x < 2 ^ w) l.

Definition in_run (j n k : Z) : bool := (j <=? k) && (k <? j + n).

Context (Hw : 0 < w).

Lemma at_words l i : words l → 0 ≤ i < zlen l → 0 ≤ at_ l i < 2 ^ w.
Proof using.
  intros Hl Hi. unfold words in Hl. rewrite Forall_lookup in Hl.
  apply (Hl (Z.to_nat i)), list_lookup_lookup_total_lt. lia.
Qed.

Lemma words_insert l (i : nat) x : words l → 0 ≤ x < 2 ^ w → words (<[i := x]> l).
Proof using. intros. by apply Forall_insert. Qed.

Lemma div_range j n : 0 ≤ j < w * n → 0 ≤ j / w < n.
Proof using Hw.
  intros. split; [apply Z.div_pos; lia|]. apply Z.div_lt_upper_bound; lia.
Qed.

Lemma index_eq j k : j / w = k / w → j mod w = k mod w → j = k.
Proof using Hw.
  intros H1 H2. rewrite (Z.div_mod j w), (Z.div_mod k w) by lia. congruence.
Qed.

Lemma bit_get_ok l j : 0 ≤ j < w * zlen l → bit_get l j = Ok (bit l j).
Proof using Hw.
  intros Hj. unfold bit_get. rewrite aget_ok by (by apply div_range). done.
Qed.

(** One-word updates, with the bits of the new word. *)
Lemma update_spec l j x (f : bool → bool) :
  words l → 0 ≤ j < w * zlen l →
  (∀ k, 0 ≤ k < w → Z.testbit x k =
     if decide (k = j mod w) then f (Z.testbit (at_ l (j / w)) k)
     else Z.testbit (at_ l (j / w)) k) →
  let l' := <[Z.to_nat (j / w) := x mod 2 ^ w]> l in
  aset l (j / w) (x mod 2 ^ w) = Ok l' ∧ length l' = length l ∧ words l' ∧
  ∀ k, 0 ≤ k → bit l' k = if decide (k = j) then f (bit l j) else bit l k.
Proof using Hw.
  intros Hl Hj Hx l'. pose proof (div_range j _ Hj).
  pose proof (Z.mod_pos_bound j w Hw).
  rewrite aset_ok by done. split_and!; [done|apply length_insert| |].
  - apply words_insert; [done|]. apply Z.mod_pos_bound. lia.
  - intros k Hk. unfold bit, l'. rewrite at_insert by (try done; apply Z.div_pos; lia).
    pose proof (Z.mod_pos_bound k w Hw).
    destruct (decide (j / w = k / w)) as [E|E].
    + rewrite Z.mod_pow2_bits_low, Hx by lia.
      destruct (decide (k = j)) as [->|N]; [by rewrite decide_True|].
      rewrite decide_False by (intros ?; by apply N, index_eq). by rewrite E.
    + rewrite decide_False by congruence. done.
Qed.

Lemma bit_set_spec l j :
  words l → 0 ≤ j < w * zlen l →
  ∃ l', bit_set l j = Ok l' ∧ length l' = length l ∧ words l' ∧
    ∀ k, 0 ≤ k → bit l' k = bit l k || (k =? j).
Proof using Hw.
  intros Hl Hj. pose proof (Z.mod_pos_bound j w Hw).
  destruct (update_spec l j (Z.lor (at_ l (j / w)) (Z.shiftl 1 (j mod w)))
    (λ _, true) Hl Hj) as (E & ? & ? & Hbit).
  - intros k Hk. rewrite Z.lor_spec. case_decide as D.
    + subst k. by rewrite Z.shiftl_spec, Z.sub_diag, orb_true_r by lia.
    + rewrite Z.shiftl_1_l, Z.pow2_bits_false, orb_false_r by lia. done.
  - eexists. unfold bit_set. rewrite aget_ok by (by apply div_range).
    cbn [mbind res_bind]. rewrite E. split_and!; [done..|].
    intros k Hk. rewrite Hbit by done.
    destruct (decide (k = j)), (Z.eqb_spec k j); try done.
    + by rewrite orb_true_r.
    + by rewrite orb_false_r.
Qed.

Lemma bit_clear_spec l j :
  words l → 0 ≤ j < w * zlen l →
  ∃ l', bit_clear l j = Ok l' ∧ length l' = length l ∧ words l' ∧
    ∀ k, 0 ≤ k → bit l' k = bit l k && negb (k =? j).
Proof using Hw.
  intros Hl Hj. pose proof (Z.mod_pos_bound j w Hw).
  destruct (update_spec l j (Z.land (at_ l (j / w)) (Z.lnot (Z.shiftl 1 (j mod w))))
    (λ _, false) Hl Hj) as (E & ? & ? & Hbit).
  - intros k Hk. rewrite Z.land_spec, Z.lnot_spec by lia. case_decide as D.
    + subst k. by rewrite Z.shiftl_spec, Z.sub_diag, andb_false_r by lia.
    + rewrite Z.shiftl_1_l, Z.pow2_bits_false, andb_true_r by lia. done.
  - eexists. unfold bit_clear. rewrite aget_ok by (by apply div_range).
    cbn [mbind res_bind]. rewrite E. split_and!; [done..|].
    intros k Hk. rewrite Hbit by done.
    destruct (decide (k = j)), (Z.eqb_spec k j); try done.
    + by rewrite andb_false_r.
    + by rewrite andb_true_r.
Qed.

Lemma set_range_spec n : ∀ l j,
  words l → 0 ≤ j → j + Z.of_nat n ≤ w * zlen l →
  ∃ l', set_range l j n = Ok l' ∧ length l' = length l ∧ words l' ∧
    ∀ k, 0 ≤ k → bit l' k = bit l k || in_run j (Z.of_nat n) k.
Proof using Hw.
  induction n as [|n IH]; intros l j Hl Hj Hn; simpl.
  - eexists. split_and!; [done..|]. intros k Hk. unfold in_run.
    zcases; by rewrite orb_false_r.
  - destruct (bit_set_spec l j Hl ltac:(lia)) as (l1 & -> & E1 & Hl1 & Hb1).
    cbn [mbind res_bind]. destruct (IH l1 (j + 1) Hl1 ltac:(lia) ltac:(rewrite E1; lia))
      as (l2 & -> & E2 & Hl2 & Hb2).
    eexists. split_and!; [done|congruence|done|].
    intros k Hk. rewrite Hb2, Hb1, <- orb_assoc by done. f_equal. unfold in_run.
    zcases.
Qed.

Lemma clear_range_spec n : ∀ l j,
  words l → 0 ≤ j → j + Z.of_nat n ≤ w * zlen l →
  ∃ l', clear_range l j n = Ok l' ∧ length l' = length l ∧ words l' ∧
    ∀ k, 0 ≤ k → bit l' k = bit l k && negb (in_run j (Z.of_nat n) k).
Proof using Hw.
  induction n as [|n IH]; intros l j Hl Hj Hn; simpl.
  - eexists. split_and!; [done..|]. intros k Hk. unfold in_run.
    zcases; by rewrite andb_true_r.
  - destruct (bit_clear_spec l j Hl ltac:(lia)) as (l1 & -> & E1 & Hl1 & Hb1).
    cbn [mbind res_bind]. destruct (IH l1 (j + 1) Hl1 ltac:(lia) ltac:(rewrite E1; lia))
      as (l2 & -> & E2 & Hl2 & Hb2).
    eexists. split_and!; [done|congruence|done|].
    intros k Hk. rewrite Hb2, Hb1, <- andb_assoc by done. f_equal.
    rewrite <- negb_orb. f_equal. unfold in_run. zcases.
Qed.

(** A bit array is determined by its bits. *)
Lemma bit_ext l l' :
  length l = length l' → words l → words l' →
  (∀ k, 0 ≤ k < w * zlen l → bit l k = bit l' k) → l = l'.
Proof using Hw.
  intros Hlen Hl Hl' H. apply at_ext; [done|]. intros i Hi.
  apply Z.bits_inj'. intros b Hb.
  destruct (decide (b < w)).
  - specialize (H (i * w + b) ltac:(nia)). unfold bit in H.
    rewrite Z.div_add_l, Z.div_small, Z.add_0_r in H by lia.
    rewrite Z.add_comm, Z.mod_add, Z.mod_small in H by lia. done.
  - rewrite !(testbit_small _ w); try done; try lia; apply at_words; try done; lia.
Qed.

Lemma count_clear_ext l l' n :
  (∀ k, 0 ≤ k < Z.of_nat n → bit l k = bit l' k) → count_clear l n = count_clear l' n.
Proof using.
  induction n as [|n IH]; intros H; simpl; [done|].
  rewrite IH, H by (intros; try apply H; lia). done.
Qed.

(** Setting a clear run of [b] bits lowers the count by the part of the run
    below [n]. *)
Lemma count_clear_set l l' n j b :
  0 ≤ j → 0 ≤ b →
  (∀ k, j ≤ k < j + b → bit l k = false) →
  (∀ k, 0 ≤ k → bit l' k = bit l k || in_run j b k) →
  count_clear l' n = count_clear l n - Z.max 0 (Z.min (Z.of_nat n) (j + b) - j).
Proof using.
  intros Hj Hb Hfree Hl'. induction n as [|n IH]; simpl; [lia|].
  rewrite IH, Hl' by lia. unfold in_run.
  destruct (Z.leb_spec j (Z.of_nat n)), (Z.ltb_spec (Z.of_nat n) (j + b)); simpl;
    rewrite ?orb_false_r; try (case_match; lia).
  rewrite Hfree by lia. simpl. lia.
Qed.

End bitmap.

#[global] Instance words_dec w l : Decision (words w l).
Proof. apply _. Defined.

(** ** Searching a run of clear bits *)

(** The searches of the allocators go through the bits in order, keep the
    length of the current clear run and stop when it is long enough.
    [used] says which of the [total] bits are set. *)
Section runs.
Context (used : Z → bool) (total block : Z).

Definition fits_in (a : Z) : Prop :=
  0 ≤ a ∧ a + block ≤ total ∧ ∀ j, a ≤ j < a + block → used j = false.

Definition first_fit_in (a : Z) : Prop :=
  fits_in a ∧ ∀ a', a' < a → ¬ fits_in a'.

Context (Hblock : 0 < block).

(** Before the bit at [i] is examined: the last [c] bits are the current
    free run, and no fit starts before it. *)
Record run_inv (i c st : Z) : Prop := {
  si_i : 0 ≤ i;
  si_c : 0 ≤ c ≤ i ∧ c < block;
  si_st : c ≠ 0 → st = i - c;
  si_end : c ≠ 0 → i ≤ total;
  si_run : ∀ j, i - c ≤ j < i → used j = false;
  si_none : ∀ a, a < i - c → ¬ fits_in a }.

(** The bits from [i] up to [k] are used: the run restarts after them. *)
Lemma run_inv_skip i c st k :
  run_inv i c st → i < k → (∀ j, i ≤ j < k → used j = true) → run_inv k 0 st.
Proof using Hblock.
  intros [] Hk Hu. split; try done; try lia.
  rewrite Z.sub_0_r. intros a Ha Hf.
  destruct (decide (a < i - c)) as [|Hge]; [by eapply si_none0|].
  destruct Hf as (? & ? & Hf).
  destruct (decide (a < i)).
  - specialize (Hf i ltac:(lia)). rewrite Hu in Hf by lia. done.
  - specialize (Hf a ltac:(lia)). rewrite Hu in Hf by lia. done.
Qed.

Lemma run_inv_free i c st :
  run_inv i c st → i < total → used i = false → c + 1 ≠ block →
  run_inv (i + 1) (c + 1) (if c =? 0 then i else st).
Proof using.
  intros [] Hi Hu Hn. split; try lia.
  - intros _. zcases.
  - intros j Hj. destruct (decide (j = i)) as [->|]; [done|]. apply si_run0. lia.
  - intros a Ha. apply si_none0. lia.
Qed.

Lemma run_inv_found i c st :
  run_inv i c st → i < total → used i = false → c + 1 = block →
  first_fit_in (if c =? 0 then i else st).
Proof using.
  intros [] Hi Hu Hn.
  assert ((if c =? 0 then i else st) = i - c) as -> by zcases.
  split; [split_and!; [lia..|]|exact si_none0].
  intros j Hj. destruct (decide (j = i)) as [->|]; [done|]. apply si_run0. lia.
Qed.

Lemma run_inv_end i c st :
  run_inv i c st → total ≤ i → ∀ a, ¬ fits_in a.
Proof using Hblock.
  intros [] Hi a Hf. destruct (decide (a < i - c)); [by eapply si_none0|].
  destruct Hf as (? & ? & ?). lia.
Qed.

Lemma run_inv_start : run_inv 0 0 0.
Proof using Hblock. split; try lia. intros a Ha (? & ? & ?). lia. Qed.

End runs.
