(* ===== verification/Pmm.v ===== *)
(** * Physical frame allocator

    [kernel/memory/phys_base_allocator.c]: one bit per 4 KiB frame, set while
    the frame is in use.  [INIT] builds the bitmap from the boot memory map
    and places it in the first large enough usable entry; [phys_base_alloc]
    finds the first run of free frames with a scan that skips full 64-bit
    words; [vxPhysBaseFree] clears a run.  Every operation runs under
    [pmm_lock], so the model is a function of the state. *)

From S2P Require Import Prelude CMem Bitmap.

(** ** Data *)

Definition BLOCK_SIZE : Z := 0x1000.

Definition ENTRY_MMAP_USABLE : Z := 1.

Record memory_entry := mkEntry { e_base : Z; e_length : Z; e_type : Z }.

Record pmm := mkPmm {
  bitmap : list Z;                (* the metadata_size bytes at bitmap_base_ *)
  bitmap_base_ : Z;
  higher_base_length_ : Z;
  usable_total : Z;
  smallest_free_entry_base : Z;
  metadata_count : Z;
  metadata_size : Z }.

Definition set_bitmap (s : pmm) (bm : list Z) : pmm :=
  mkPmm bm (bitmap_base_ s) (higher_base_length_ s) (usable_total s)
    (smallest_free_entry_base s) (metadata_count s) (metadata_size s).

(** ** Initialisation *)

(** First pass: the end of the highest entry and the usable byte count. *)
Fixpoint init_totals (es : list memory_entry) (higher usable : Z) : Z * Z :=
  match es with
  | [] => (higher, usable)
  | e :: es =>
      let top := u64 (e_base e + e_length e) in
      init_totals es (if higher <? top then top else higher)
        (if e_type e =? ENTRY_MMAP_USABLE then u64 (usable + e_length e) else usable)
  end.

(** Second pass: the two smallest usable bases. *)
Fixpoint init_smallest (es : list memory_entry) (b1 b2 sm : Z) : Z * Z * Z :=
  match es with
  | [] => (b1, b2, sm)
  | e :: es =>
      if negb (e_type e =? ENTRY_MMAP_USABLE) then init_smallest es b1 b2 sm
      else if 0 <? e_base e then
        if e_base e <? b1 then init_smallest es (e_base e) b1 sm
        else if (e_base e <? b2) && negb (e_base e =? b1)
        then init_smallest es b1 (e_base e) (e_base e)
        else init_smallest es b1 b2 sm
      else init_smallest es b1 b2 sm
  end.

(** Third pass: the bitmap goes into the first usable entry that can hold it,
    which shrinks.  [None]: no entry is large enough and [bitmap_base_] keeps
    its null value. *)
Fixpoint init_place (hhdm size : Z) (es : list memory_entry) :
    option Z * list memory_entry :=
  match es with
  | [] => (None, [])
  | e :: es =>
      if (size <=? e_length e) && (e_type e =? ENTRY_MMAP_USABLE) then
        (Some (u64 (hhdm + e_base e)),
         mkEntry (u64 (e_base e + size)) (u64 (e_length e - size)) (e_type e) :: es)
      else let '(o, es) := init_place hhdm size es in (o, e :: es)
  end.

(** Fourth pass: the frames of usable entries are free. *)
Fixpoint init_clear (bm : list Z) (es : list memory_entry) : res (list Z) :=
  match es with
  | [] => Ok bm
  | e :: es =>
      if negb (e_type e =? ENTRY_MMAP_USABLE) then init_clear bm es
      else
        let metadata_index := e_base e / 0x1000 in
        let metadata_end := e_length e / 0x1000 in
        bm ← clear_range 8 bm metadata_index (Z.to_nat metadata_end);
        init_clear bm es
  end.

Definition INIT_phys_base_allocator (hhdm_offset : Z) (es : list memory_entry) :
    res (pmm * list memory_entry) :=
  let '(higher, usable) := init_totals es 0 0 in
  let '(_, _, sm) := init_smallest es (2 ^ 64 - 1) (2 ^ 64 - 1) (2 ^ 64 - 1) in
  let count := (higher / BLOCK_SIZE + 7) / 8 in
  let size := ALIGN_UP count BLOCK_SIZE in
  let '(o, es) := init_place hhdm_offset size es in
  match o with
  | None => Fault                       (* memset through a null bitmap_base_ *)
  | Some base =>
      bm ← init_clear (replicate (Z.to_nat size) 0xFF) es;
      Ok (mkPmm bm base higher usable sm count size, es)
  end.

(** ** Allocation *)

(** [*(uint64_t * )&bitmap_base_[i]]. *)
Definition load64 (bm : list Z) (i : Z) : res Z :=
  b0 ← aget bm i; b1 ← aget bm (i + 1); b2 ← aget bm (i + 2);
  b3 ← aget bm (i + 3); b4 ← aget bm (i + 4); b5 ← aget bm (i + 5);
  b6 ← aget bm (i + 6); b7 ← aget bm (i + 7);
  Ok (le_value [b0; b1; b2; b3; b4; b5; b6; b7]).

Inductive scan_outcome :=
| Found (start : Z)
| Continue (i consecutive start : Z).

(** The inner loop: the [n] bits left in the current word. *)
Fixpoint scan_word (n : nat) (bm : list Z) (total block i consecutive start : Z) :
    res scan_outcome :=
  match n with
  | O => Ok (Continue i consecutive start)
  | S n =>
      if i <? total then
        used ← bit_get 8 bm i;
        if negb used then
          let start := if consecutive =? 0 then i else start in
          let consecutive := u64 (consecutive + 1) in
          if consecutive =? block then Ok (Found start)
          else scan_word n bm total block (i + 1) consecutive start
        else scan_word n bm total block (i + 1) 0 start
      else Ok (Continue i consecutive start)
  end.

(** The outer loop. *)
Fixpoint scan (fuel : nat) (bm : list Z) (total block i consecutive start : Z) :
    res (option Z) :=
  match fuel with
  | O => NoFuel
  | S fuel =>
      if i <? total then
        let word_idx := i / 64 in
        let bit_idx := i mod 64 in
        word ← load64 bm (word_idx * 8);
        let word := Z.shiftr word bit_idx in
        if (bit_idx =? 0) && (word =? 2 ^ 64 - 1) then
          scan fuel bm total block (i + 64) 0 start
        else if word =? 2 ^ 64 - 1 then
          scan fuel bm total block (i + (64 - bit_idx)) 0 start
        else
          o ← scan_word (Z.to_nat (64 - bit_idx)) bm total block i consecutive start;
          match o with
          | Found start => Ok (Some start)
          | Continue i consecutive start => scan fuel bm total block i consecutive start
          end
      else Ok None
  end.

Definition total_blocks (s : pmm) : Z := higher_base_length_ s / BLOCK_SIZE.

(** The null pointer is 0. *)
Definition phys_base_alloc (s : pmm) (block : Z) : res (Z * pmm) :=
  o ← scan (S (Z.to_nat (total_blocks s))) (bitmap s) (total_blocks s) block 0 0 0;
  match o with
  | Some start =>
      bm ← set_range 8 (bitmap s) start (Z.to_nat block);
      Ok (u64 (start * BLOCK_SIZE), set_bitmap s bm)
  | None => Ok (0, s)
  end.

Definition phys_base_alloc_on_top (s : pmm) (block : Z) : res (Z * pmm) :=
  if block =? 0 then Ok (0, s) else Ok (0, s).

Fixpoint free_count_loop (n : nat) (bm : list Z) (i count : Z) : res Z :=
  match n with
  | O => Ok count
  | S n =>
      used ← bit_get 8 bm i;
      free_count_loop n bm (i + 1) (if negb used then u64 (count + 1) else count)
  end.

Definition pys_base_get_free_block_count (s : pmm) : res Z :=
  free_count_loop (Z.to_nat (total_blocks s)) (bitmap s) 0 0.

Definition vxPhysBaseFree (s : pmm) (ptr size : Z) : res pmm :=
  let index := ptr / BLOCK_SIZE in
  bm ← clear_range 8 (bitmap s) index (Z.to_nat (u64 (index + size) - index));
  Ok (set_bitmap s bm).

(** The three figures [pmm_log_usage] prints, in MiB. *)
Definition pmm_log_usage (s : pmm) : res (Z * Z * Z) :=
  let total := usable_total s / BLOCK_SIZE in
  free ← pys_base_get_free_block_count s;
  let used := u64 (total - free) in
  Ok (u64 (used * BLOCK_SIZE) / 1024 / 1024, u64 (total * BLOCK_SIZE) / 1024 / 1024,
      u64 (free * BLOCK_SIZE) / 1024 / 1024).

(** ** Invariant *)

Definition used (s : pmm) (j : Z) : bool := bit 8 (bitmap s) j.

Record pmm_ok (s : pmm) : Prop := {
  ok_words : words 8 (bitmap s);
  ok_size : zlen (bitmap s) = metadata_size s;
  ok_align : (metadata_size s) mod 8 = 0;
  ok_higher : 0 ≤ higher_base_length_ s < 2 ^ 64;
  ok_cover : total_blocks s ≤ 8 * metadata_size s }.

#[export] Hint Resolve ok_words ok_size ok_align ok_higher ok_cover : voxia.

(** A run of [n] free frames from [a] inside the managed range. *)
Definition fits (s : pmm) (n a : Z) : Prop := fits_in (used s) (total_blocks s) n a.

Definition first_fit (s : pmm) (n a : Z) : Prop :=
  first_fit_in (used s) (total_blocks s) n a.

Lemma total_blocks_bound s : pmm_ok s → 0 ≤ total_blocks s < 2 ^ 52.
Proof.
  intros H. pose proof (ok_higher s H). unfold total_blocks, BLOCK_SIZE. dlia.
Qed.

Lemma used_in_range s j :
  pmm_ok s → 0 ≤ j < total_blocks s → 0 ≤ j < 8 * zlen (bitmap s).
Proof. intros H Hj. rewrite ok_size by done. pose proof (ok_cover s H). lia. Qed.

(** ** The scan *)

Lemma load64_ok bm i :
  words 8 bm → 0 ≤ i → i + 8 ≤ zlen bm →
  ∃ v, load64 bm i = Ok v ∧ 0 ≤ v < 2 ^ 64 ∧
    (v = 2 ^ 64 - 1 → ∀ k, 0 ≤ k < 8 → at_ bm (i + k) = 255).
Proof.
  intros Hw Hi Hn. unfold load64.
  rewrite !aget_ok by lia. cbn [mbind res_bind].
  eexists. split; [reflexivity|].
  match goal with |- context [le_value ?l] => set (bs := l) end.
  assert (Forall (λ b, 0 ≤ b < 256) bs) as Hbs.
  { unfold bs. repeat constructor; apply (at_words 8); try done; lia. }
  split; [apply (le_value_bounds bs Hbs)|].
  intros E. apply le_value_full in E; [|done].
  intros k Hk. unfold bs in E. rewrite !Forall_cons in E.
  destruct E as (? & ? & ? & ? & ? & ? & ? & ? & _).
  assert (k = 0 ∨ k = 1 ∨ k = 2 ∨ k = 3 ∨ k = 4 ∨ k = 5 ∨ k = 6 ∨ k = 7) as Hc by lia.
  destruct_or! Hc; subst k; rewrite ?Z.add_0_r; done.
Qed.

(** A full word: the 64 bits from a multiple of 64 are set. *)
Lemma load64_full bm i k :
  (∀ k, 0 ≤ k < 8 → at_ bm (i / 64 * 8 + k) = 255) → 0 ≤ i →
  i / 64 * 64 ≤ k < i / 64 * 64 + 64 → bit 8 bm k = true.
Proof.
  intros H Hi Hk. unfold bit.
  replace (k / 8) with (i / 64 * 8 + (k / 8 - i / 64 * 8)) by lia.
  rewrite H by dlia.
  assert (0 ≤ k mod 8 < 8) as Hm by (apply Z.mod_pos_bound; lia). revert Hm.
  generalize (k mod 8). intros b Hb.
  apply (forall_below 8 (λ b, Z.testbit 255 b)); [by vm_compute|lia].
Qed.

Section scan.
Context (s : pmm) (block : Z).
Hypotheses (Hok : pmm_ok s) (Hblock : 0 < block < 2 ^ 64).

Lemma scan_word_spec n : ∀ i c st,
  run_inv (used s) (total_blocks s) block i c st → i < total_blocks s →
  ∃ o, scan_word n (bitmap s) (total_blocks s) block i c st = Ok o ∧
    match o with
    | Found a => first_fit s block a
    | Continue i' c' st' => run_inv (used s) (total_blocks s) block i' c' st' ∧
        (i' = i + Z.of_nat n ∨ i ≤ i' ∧ i' = total_blocks s)
    end.
Proof using Hok Hblock.
  pose proof (total_blocks_bound s Hok).
  induction n as [|n IH]; intros i c st Hinv Hi; simpl.
  { eexists. split; [done|]. split; [done|]. lia. }
  destruct (Z.ltb_spec i (total_blocks s)); [|lia].
  rewrite bit_get_ok by first [lia | by apply used_in_range; [|destruct Hinv]].
  cbn [mbind res_bind]. fold (used s i).
  assert (Hnext : ∀ c' st', run_inv (used s) (total_blocks s) block (i + 1) c' st' →
    ∃ o, scan_word n (bitmap s) (total_blocks s) block (i + 1) c' st' = Ok o ∧
    match o with
    | Found a => first_fit s block a
    | Continue i' c'' st'' => run_inv (used s) (total_blocks s) block i' c'' st'' ∧
        (i' = i + Z.of_nat (S n) ∨ i ≤ i' ∧ i' = total_blocks s)
    end).
  { intros c' st' Hinv'. destruct (decide (i + 1 < total_blocks s)).
    - destruct (IH _ _ _ Hinv') as (o & -> & Ho); [done|].
      exists o. split; [done|]. destruct o; [done|]. destruct Ho. split; [done|lia].
    - exists (Continue (i + 1) c' st'). split; [|split; [done|lia]].
      destruct n; simpl; [done|]. by destruct (Z.ltb_spec (i + 1) (total_blocks s)); [lia|]. }
  destruct (used s i) eqn:Eu; simpl.
  - apply Hnext, (run_inv_skip _ _ _ (proj1 Hblock) _ _ _ _ Hinv); [lia|].
    intros j Hj. by replace j with i by lia.
  - assert (u64 (c + 1) = c + 1) as -> by (destruct Hinv; apply Z.mod_small; lia).
    zcase.
    + eexists. split; [done|]. by apply run_inv_found.
    + apply Hnext. by apply run_inv_free.
Qed.

Lemma scan_spec fuel : ∀ i c st,
  run_inv (used s) (total_blocks s) block i c st → Z.max 0 (total_blocks s - i) < Z.of_nat fuel →
  ∃ o, scan fuel (bitmap s) (total_blocks s) block i c st = Ok o ∧
    match o with
    | Some a => first_fit s block a
    | None => ∀ a, ¬ fits s block a
    end.
Proof using Hok Hblock.
  pose proof (total_blocks_bound s Hok). pose proof (ok_cover s Hok).
  pose proof (ok_align s Hok). pose proof (ok_size s Hok).
  induction fuel as [|fuel IH]; intros i c st Hinv Hf; [destruct Hinv; lia|].
  cbn [scan]. destruct (Z.ltb_spec i (total_blocks s)).
  2: { eexists. split; [done|]. intros a; by eapply (run_inv_end (used s) _ _ (proj1 Hblock)). }
  pose proof (si_i _ _ _ _ _ _ Hinv).
  destruct (load64_ok (bitmap s) (i / 64 * 8)) as (v & -> & Hv & Hfull);
    [by apply ok_words|dlia|dlia|].
  cbn [mbind res_bind].
  destruct (Z.eqb_spec (i mod 64) 0) as [E0|E0]; simpl.
  - rewrite E0, Z.shiftr_0_r, Z.sub_0_r.
    destruct (Z.eqb_spec v (2 ^ 64 - 1)) as [Ev|Ev].
    + apply IH; [|lia]. apply (run_inv_skip _ _ _ (proj1 Hblock) _ _ _ _ Hinv); [lia|].
      intros j Hj. apply (load64_full _ i); [auto|done|dlia].
    + destruct (scan_word_spec (Z.to_nat 64) _ _ _ Hinv) as (o & -> & Ho); [done|].
      cbn [mbind res_bind]. destruct o as [a|i' c' st']; [by eexists|].
      destruct Ho as [Hinv' ?]. apply IH; [done|lia].
  - destruct (Z.eqb_spec (Z.shiftr v (i mod 64)) (2 ^ 64 - 1)) as [Ev|Ev].
    { exfalso. rewrite Z.shiftr_div_pow2 in Ev by dlia.
      assert (v / 2 ^ (i mod 64) < 2 ^ 64 - 1); [|lia].
      apply Z.div_lt_upper_bound; [dlia|].
      assert (2 ^ 1 ≤ 2 ^ (i mod 64)) by (apply Z.pow_le_mono_r; dlia). lia. }
    destruct (scan_word_spec (Z.to_nat (64 - i mod 64)) _ _ _ Hinv) as (o & -> & Ho); [done|].
    cbn [mbind res_bind]. destruct o as [a|i' c' st']; [by eexists|].
    destruct Ho as [Hinv' ?]. apply IH; [done|]. dlia.
Qed.

End scan.

(** ** Operations *)

Lemma set_bitmap_ok s bm :
  pmm_ok s → words 8 bm → length bm = length (bitmap s) → pmm_ok (set_bitmap s bm).
Proof. intros [] Hw Hl. split; simpl; try done. by rewrite Hl. Qed.

(** What one call of [phys_base_alloc] does. *)
Lemma phys_base_alloc_spec s block :
  pmm_ok s → 0 < block < 2 ^ 64 →
  ∃ ptr s', phys_base_alloc s block = Ok (ptr, s') ∧
    ((∃ a, first_fit s block a ∧ ptr = a * BLOCK_SIZE ∧ pmm_ok s' ∧
        s' = set_bitmap s (bitmap s') ∧
        ∀ j, 0 ≤ j → used s' j = used s j || in_run a block j)
     ∨ (∀ a, ¬ fits s block a) ∧ ptr = 0 ∧ s' = s).
Proof.
  intros Hok Hb. unfold phys_base_alloc.
  pose proof (total_blocks_bound s Hok).
  destruct (scan_spec s block Hok Hb (S (Z.to_nat (total_blocks s))) 0 0 0)
    as ([a|] & -> & Ho); [apply run_inv_start; lia|lia|..]; cbn [mbind res_bind].
  2: { do 2 eexists. split; [done|]. by right. }
  destruct Ho as [Hfit Hfirst]. destruct (Hfit) as (Ha & Hend & Hfree).
  destruct (set_range_spec 8 ltac:(lia) (Z.to_nat block) (bitmap s) a)
    as (bm & -> & Hlen & Hw & Hbits); [by apply ok_words|done| |].
  { rewrite Z2Nat.id, ok_size by (done || lia). pose proof (ok_cover s Hok). lia. }
  cbn [mbind res_bind]. do 2 eexists. split; [done|]. left. exists a.
  split_and!; [done| |by apply set_bitmap_ok|done|].
  - apply Z.mod_small. unfold BLOCK_SIZE. lia.
  - intros j Hj. unfold used. simpl. rewrite Hbits, Z2Nat.id by lia. done.
Qed.

Lemma vxPhysBaseFree_spec s a n :
  pmm_ok s → 0 ≤ a → 0 ≤ n → a + n ≤ total_blocks s →
  ∃ s', vxPhysBaseFree s (a * BLOCK_SIZE) n = Ok s' ∧ pmm_ok s' ∧
    s' = set_bitmap s (bitmap s') ∧
    ∀ j, 0 ≤ j → used s' j = used s j && negb (in_run a n j).
Proof.
  intros Hok Ha Hn Hend. unfold vxPhysBaseFree.
  pose proof (total_blocks_bound s Hok). pose proof (ok_cover s Hok).
  rewrite Z.div_mul by (unfold BLOCK_SIZE; lia).
  assert (u64 (a + n) = a + n) as -> by (apply Z.mod_small; lia).
  replace (a + n - a) with n by lia.
  destruct (clear_range_spec 8 ltac:(lia) (Z.to_nat n) (bitmap s) a)
    as (bm & -> & Hlen & Hw & Hbits); [by apply ok_words|done| |].
  { rewrite Z2Nat.id, ok_size by (done || lia). lia. }
  cbn [mbind res_bind]. eexists. split; [done|].
  split_and!; [by apply set_bitmap_ok|done|].
  intros j Hj. unfold used. simpl. rewrite Hbits, Z2Nat.id by lia. done.
Qed.

Lemma free_count_loop_spec bm n : ∀ i count,
  0 ≤ i → i + Z.of_nat n ≤ 8 * zlen bm → 0 ≤ count → count + Z.of_nat n < 2 ^ 64 →
  count = count_clear 8 bm (Z.to_nat i) →
  free_count_loop n bm i count = Ok (count_clear 8 bm (Z.to_nat i + n)).
Proof.
  induction n as [|n IH]; intros i count Hi Hn Hc Hlt E; simpl.
  { by rewrite Nat.add_0_r, E. }
  rewrite bit_get_ok by lia. cbn [mbind res_bind].
  replace (Z.to_nat i + S n)%nat with (Z.to_nat (i + 1) + n)%nat by lia.
  assert (count_clear 8 bm (Z.to_nat (i + 1)) =
    count_clear 8 bm (Z.to_nat i) + (if bit 8 bm i then 0 else 1)) as Ec.
  { replace (Z.to_nat (i + 1)) with (S (Z.to_nat i)) by lia. simpl.
    by rewrite Z2Nat.id by lia. }
  destruct (bit 8 bm i); simpl; apply IH; try lia.
  all: unfold u64; rewrite ?Z.mod_small by lia; lia.
Qed.

Lemma free_count_spec s :
  pmm_ok s →
  pys_base_get_free_block_count s =
    Ok (count_clear 8 (bitmap s) (Z.to_nat (total_blocks s))).
Proof.
  intros Hok. pose proof (total_blocks_bound s Hok). pose proof (ok_cover s Hok).
  pose proof (ok_size s Hok). unfold pys_base_get_free_block_count.
  apply free_count_loop_spec; simpl; lia.
Qed.

(** ** Clients of the allocator *)

(** A run of the allocator with its live allocations [(first frame, frames)]:
    clients allocate, see a null pointer, or give back a run they hold. *)
Inductive step : pmm * list (Z * Z) → pmm * list (Z * Z) → Prop :=
| step_alloc s own block ptr s' :
    0 < block < 2 ^ 64 → phys_base_alloc s block = Ok (ptr, s') → ptr ≠ 0 →
    step (s, own) (s', (ptr / BLOCK_SIZE, block) :: own)
| step_alloc_null s own block s' :
    0 < block < 2 ^ 64 → phys_base_alloc s block = Ok (0, s') →
    step (s, own) (s', own)
| step_free s own1 own2 a n s' :
    vxPhysBaseFree s (a * BLOCK_SIZE) n = Ok s' →
    step (s, own1 ++ (a, n) :: own2) (s', own1 ++ own2).

(** How many live allocations hold frame [j]; how many frames are held. *)
Fixpoint holders (own : list (Z * Z)) (j : Z) : Z :=
  match own with
  | [] => 0
  | (a, n) :: own => Z.b2z (in_run a n j) + holders own j
  end.

Fixpoint held (own : list (Z * Z)) : Z :=
  match own with
  | [] => 0
  | (_, n) :: own => n + held own
  end.

Lemma holders_app own1 own2 j : holders (own1 ++ own2) j = holders own1 j + holders own2 j.
Proof. induction own1 as [|[a n] own1 IH]; simpl; lia. Qed.

Lemma held_app own1 own2 : held (own1 ++ own2) = held own1 + held own2.
Proof. induction own1 as [|[a n] own1 IH]; simpl; lia. Qed.

Lemma holders_nonneg own j : 0 ≤ holders own j.
Proof. induction own as [|[a n] own IH]; simpl; [lia|]. destruct (in_run a n j); simpl; lia. Qed.

(** A run that starts at frame 0 is lost: its address is the null pointer. It
    happens once, if frame 0 was free ([z] says whether it was in use). *)
Definition lost_ok (z : bool) (s : pmm) (lost : list (Z * Z)) : Prop :=
  lost = [] ∧ (z = true → used s 0 = true) ∨ z = false ∧ used s 0 = true ∧ ∃ n, lost = [(0, n)].

(** Live allocations lie in the managed range, and no frame has two holders
    or a holder while free, lost runs included. *)
Record client_inv (c0 : Z) (z : bool) (s : pmm) (own lost : list (Z * Z)) : Prop := {
  ci_ok : pmm_ok s;
  ci_zero : lost_ok z s lost;
  ci_in : Forall (λ '(a, n), 0 < a ∧ 0 < n ∧ a + n ≤ total_blocks s) own;
  ci_holders : ∀ j, 0 ≤ j → holders (lost ++ own) j ≤ Z.b2z (used s j);
  ci_count : count_clear 8 (bitmap s) (Z.to_nat (total_blocks s)) + held (lost ++ own) = c0 }.

Lemma in_run_spec a n j : in_run a n j = true ↔ a ≤ j < a + n.
Proof. unfold in_run. zcases; split; intros; (done || lia). Qed.

Lemma total_blocks_set s s' : s' = set_bitmap s (bitmap s') → total_blocks s' = total_blocks s.
Proof. by intros ->. Qed.

Lemma holders_in own a n j : (a, n) ∈ own → a ≤ j < a + n → 1 ≤ holders own j.
Proof.
  intros Hin Hj. induction own as [|[b m] own IH]; [by apply elem_of_nil in Hin|]. simpl.
  pose proof (holders_nonneg own j). apply elem_of_cons in Hin as [E|Hin].
  - injection E as <- <-. rewrite (proj2 (in_run_spec a n j)) by done. simpl. lia.
  - specialize (IH Hin). destruct (in_run b m j); simpl; lia.
Qed.

Lemma client_alloc c0 z s own lost block ptr s' :
  client_inv c0 z s own lost → 0 < block < 2 ^ 64 → phys_base_alloc s block = Ok (ptr, s') →
  ptr ≠ 0 ∧ client_inv c0 z s' ((ptr / BLOCK_SIZE, block) :: own) lost ∨
  ptr = 0 ∧ ∃ lost', client_inv c0 z s' own lost'.
Proof.
  intros [Hok Hz Hin Hh Hc] Hb E.
  destruct (phys_base_alloc_spec s block Hok Hb) as (p & s1 & E1 & Hcase).
  rewrite E in E1. injection E1 as <- <-.
  destruct Hcase as [(a & [(Ha & Hend & Hfree) _] & -> & Hok' & Es & Hbits)|(_ & -> & ->)].
  2: { right. split; [done|]. by exists lost. }
  pose proof (total_blocks_set s s' Es) as Et. rewrite Z.div_mul by (unfold BLOCK_SIZE; lia).
  assert (∀ j, 0 ≤ j → Z.b2z (in_run a block j) + holders (lost ++ own) j ≤ Z.b2z (used s' j)) as Hh'.
  { intros j Hj. rewrite Hbits by done. specialize (Hh j Hj).
    destruct (in_run a block j) eqn:Er; simpl; [|by rewrite orb_false_r].
    apply in_run_spec in Er. rewrite Hfree in * by done. simpl in *. lia. }
  assert (count_clear 8 (bitmap s') (Z.to_nat (total_blocks s')) + (block + held (lost ++ own)) = c0) as Hc'.
  { rewrite Et. rewrite (count_clear_set 8 (bitmap s) (bitmap s') _ a block) by (done || lia).
    pose proof (total_blocks_bound s Hok). lia. }
  destruct (Z.eq_dec a 0) as [->|Ha0].
  - right. split; [done|]. exists [(0, block)]. unfold lost_ok in Hz. rewrite Hfree in Hz by lia.
    assert (lost = [] ∧ z = false) as (-> & ->).
    { destruct Hz as [(-> & Hz)|(_ & ? & _)]; [|done]. split; [done|]. destruct z; [by specialize (Hz eq_refl)|done]. }
    split; try done.
    + right. split; [done|]. split; [|by exists block]. rewrite Hbits, (proj2 (in_run_spec 0 block 0)) by lia. apply orb_true_r.
    + by rewrite Et.
  - left. split; [unfold BLOCK_SIZE; lia|]. split; try done.
    + destruct Hz as [(-> & Hz)|(-> & Hz & Hl)]; [left|right]; (split; [done|]); [intros Ez|split; [|done]];
        rewrite Hbits by lia; [by rewrite (Hz Ez)|by rewrite Hz].
    + rewrite Et. constructor; [lia|done].
    + intros j Hj. specialize (Hh' j Hj). rewrite holders_app in *. simpl. lia.
    + rewrite held_app in *. simpl. lia.
Qed.

Lemma client_free c0 z s own1 own2 lost a n s' :
  client_inv c0 z s (own1 ++ (a, n) :: own2) lost →
  vxPhysBaseFree s (a * BLOCK_SIZE) n = Ok s' → client_inv c0 z s' (own1 ++ own2) lost.
Proof.
  intros [Hok Hz Hin Hh Hc] E.
  rewrite Forall_app, Forall_cons in Hin. destruct Hin as (Hin1 & (Ha & Hn & Hend) & Hin2).
  destruct (vxPhysBaseFree_spec s a n) as (s1 & E1 & Hok' & Es & Hbits); try done; try lia.
  rewrite E in E1. injection E1 as <-.
  pose proof (total_blocks_set s s' Es) as Et.
  assert (Hheld : ∀ j, a ≤ j < a + n → used s j = true).
  { intros j Hj. specialize (Hh j ltac:(lia)).
    pose proof (holders_in (lost ++ own1 ++ (a, n) :: own2) a n j ltac:(set_solver) Hj).
    destruct (used s j); [done|]. simpl in Hh. lia. }
  assert (used s' 0 = used s 0) as H0.
  { rewrite Hbits by lia. unfold in_run. zcases. simpl. by rewrite andb_true_r. }
  split.
  - done.
  - unfold lost_ok. by rewrite H0.
  - rewrite Et. by apply Forall_app.
  - intros j Hj. rewrite Hbits by done. specialize (Hh j Hj).
    rewrite !holders_app in *. simpl in Hh.
    destruct (in_run a n j); simpl in *; [|by rewrite andb_true_r].
    rewrite andb_false_r. simpl. destruct (used s j); simpl in Hh; lia.
  - rewrite Et, !held_app. rewrite !held_app in Hc. simpl in Hc.
    rewrite (count_clear_set 8 (bitmap s') (bitmap s) _ a n) in Hc; try lia.
    + intros k Hk. fold (used s' k). rewrite Hbits by lia.
      rewrite (proj2 (in_run_spec a n k)) by done. apply andb_false_r.
    + intros k Hk. fold (used s' k) (used s k). rewrite Hbits by done.
      destruct (in_run a n k) eqn:Er; simpl.
      * apply in_run_spec in Er. by rewrite Hheld, orb_true_r.
      * by rewrite andb_true_r, orb_false_r.
Qed.

Lemma client_steps c0 z s own lost s' own' :
  rtc step (s, own) (s', own') → client_inv c0 z s own lost → ∃ lost', client_inv c0 z s' own' lost'.
Proof.
  intros Hr. remember (s, own) as x eqn:Ex. remember (s', own') as y eqn:Ey.
  revert s own lost Ex. induction Hr as [?|x [s1 own1] w Hstep Hr IH]; intros s own lost -> Hinv.
  { simplify_eq. by exists lost. }
  assert (∃ lost1, client_inv c0 z s1 own1 lost1) as (lost1 & Hinv1); [|by apply (IH Ey s1 own1 lost1)].
  inversion Hstep; subst.
  - destruct (client_alloc c0 z s own lost block ptr s1) as [[? ?]|[? ?]]; try done. by exists lost.
  - destruct (client_alloc c0 z s own1 lost block 0 s1) as [[? ?]|[? ?]]; done.
  - exists lost. by eapply client_free.
Qed.

(** ** The boot memory map *)

Definition usable (e : memory_entry) : Prop := e_type e = ENTRY_MMAP_USABLE.

(** What the boot protocol says of the map: entries stay below [2 ^ 64],
    usable ones start on a page boundary and do not overlap. *)
Definition entry_ok (e : memory_entry) : Prop :=
  0 ≤ e_base e ∧ 0 ≤ e_length e ∧ e_base e + e_length e < 2 ^ 64 ∧
  (usable e → e_base e mod BLOCK_SIZE = 0).

Definition apart (e f : memory_entry) : Prop :=
  usable e → usable f →
  e_base e + e_length e ≤ e_base f ∨ e_base f + e_length f ≤ e_base e.

Definition map_ok (es : list memory_entry) : Prop :=
  Forall entry_ok es ∧ ForallOrdPairs apart es.

Definition frame_in (e : memory_entry) (j : Z) : Prop :=
  e_base e ≤ j * BLOCK_SIZE ∧ (j + 1) * BLOCK_SIZE ≤ e_base e + e_length e.

Definition usable_frame (es : list memory_entry) (j : Z) : Prop :=
  Exists (λ e, usable e ∧ frame_in e j) es.

(** Bytes the bitmap of a map takes. *)
Definition metadata_bytes (es : list memory_entry) : Z :=
  ALIGN_UP (((init_totals es 0 0).1 / BLOCK_SIZE + 7) / 8) BLOCK_SIZE.

Lemma init_totals_spec es : ∀ h us,
  Forall entry_ok es → 0 ≤ h < 2 ^ 64 →
  h ≤ (init_totals es h us).1 < 2 ^ 64 ∧
  Forall (λ e, e_base e + e_length e ≤ (init_totals es h us).1) es.
Proof.
  induction es as [|e es IH]; intros h us Hes Hh; simpl; [split; [lia|constructor]|].
  apply Forall_cons in Hes as [He Hes]. unfold entry_ok in He.
  assert (u64 (e_base e + e_length e) = e_base e + e_length e) as ->
    by (apply Z.mod_small; lia).
  match goal with |- context [init_totals es ?h' ?us'] =>
    destruct (IH h' us' Hes) as [Hlo Hall]; [zcases|] end.
  split; [|constructor; [|exact Hall]].
  all: revert Hlo; destruct (Z.ltb_spec h (e_base e + e_length e)); lia.
Qed.

Lemma metadata_bytes_spec es :
  Forall entry_ok es →
  0 ≤ metadata_bytes es < 2 ^ 60 ∧ metadata_bytes es mod BLOCK_SIZE = 0 ∧
  (init_totals es 0 0).1 / BLOCK_SIZE ≤ 8 * metadata_bytes es.
Proof.
  intros Hes. destruct (init_totals_spec es 0 0 Hes) as [Hh _]; [lia|].
  unfold metadata_bytes, BLOCK_SIZE in *.
  rewrite (ALIGN_UP_pow2 _ 12) by dlia. split_and!; dlia.
Qed.

Lemma init_place_spec hhdm size es :
  Exists (λ e, usable e ∧ size ≤ e_length e) es →
  ∃ es1 e es2, es = es1 ++ e :: es2 ∧ usable e ∧ size ≤ e_length e ∧
    init_place hhdm size es =
      (Some (u64 (hhdm + e_base e)),
       es1 ++ mkEntry (u64 (e_base e + size)) (u64 (e_length e - size)) (e_type e) :: es2).
Proof.
  induction es as [|e es IH]; intros Hex; [by apply Exists_nil in Hex|].
  simpl. destruct (Z.leb_spec size (e_length e)), (Z.eqb_spec (e_type e) ENTRY_MMAP_USABLE);
    simpl.
  1: { by exists [], e, es. }
  all: apply Exists_cons in Hex as [[? ?]|Hex]; [done || lia|].
  all: destruct (IH Hex) as (es1 & f & es2 & -> & ? & ? & ->);
    by exists (e :: es1), f, es2.
Qed.

Lemma frame_run e j :
  entry_ok e → usable e →
  in_run (e_base e / 0x1000) (e_length e / 0x1000) j = true ↔ frame_in e j.
Proof.
  intros (Hb & Hl & _ & Ha) Hu. specialize (Ha Hu). rewrite in_run_spec.
  unfold frame_in, BLOCK_SIZE in *. dlia.
Qed.

Lemma init_clear_spec es : ∀ bm,
  Forall entry_ok es → words 8 bm →
  Forall (λ e, usable e → (e_base e + e_length e) / BLOCK_SIZE ≤ 8 * zlen bm) es →
  ∃ bm', init_clear bm es = Ok bm' ∧ length bm' = length bm ∧ words 8 bm' ∧
    ∀ j, 0 ≤ j → bit 8 bm' j = false ↔ bit 8 bm j = false ∨ usable_frame es j.
Proof.
  induction es as [|e es IH]; intros bm Hes Hw Hb; simpl.
  { eexists. split_and!; [done..|]. intros j Hj. unfold usable_frame.
    rewrite Exists_nil. tauto. }
  apply Forall_cons in Hes as [He Hes]. apply Forall_cons in Hb as [Hbe Hb].
  unfold usable_frame. setoid_rewrite Exists_cons.
  destruct (Z.eqb_spec (e_type e) ENTRY_MMAP_USABLE) as [Eu|Eu]; simpl.
  2: { destruct (IH bm Hes Hw Hb) as (bm' & -> & ? & ? & Hbits).
       eexists. split_and!; [done..|]. intros j Hj. rewrite Hbits by done.
       unfold usable, usable_frame. tauto. }
  assert (usable e) as Hu by done. specialize (Hbe Hu).
  assert (0 ≤ e_base e ∧ 0 ≤ e_length e) as [? ?] by (unfold entry_ok in He; lia).
  destruct (clear_range_spec 8 ltac:(lia) (Z.to_nat (e_length e / 0x1000)) bm
    (e_base e / 0x1000)) as (bm1 & -> & El & Hw1 & Hb1); [done|dlia| |].
  { unfold BLOCK_SIZE in Hbe. dlia. }
  cbn [mbind res_bind]. rewrite <- El in Hb.
  destruct (IH bm1 Hes Hw1 Hb) as (bm' & -> & ? & ? & Hbits).
  eexists. split_and!; [done|congruence|done|].
  intros j Hj. rewrite Hbits, Hb1 by done. rewrite Z2Nat.id by dlia.
  rewrite andb_false_iff, negb_false_iff, frame_run by done. unfold usable_frame. tauto.
Qed.

Lemma ForallOrdPairs_middle {A} (R : A → A → Prop) l1 x l2 :
  ForallOrdPairs R (l1 ++ x :: l2) → Forall (λ y, R y x) l1 ∧ Forall (R x) l2.
Proof.
  induction l1 as [|y l1 IH]; simpl; inversion 1 as [|? ? Hy Hr]; subst.
  - split; [constructor|]. done.
  - destruct (IH Hr) as [? ?]. split; [|done]. constructor; [|done].
    apply List.Forall_app in Hy as [_ Hy]. by inversion Hy.
Qed.

(** Shrinking the entry that holds the bitmap takes exactly the bitmap's
    frames out of the usable ones. *)
Lemma place_frames es1 e es2 size j :
  map_ok (es1 ++ e :: es2) → usable e → 0 ≤ size ≤ e_length e →
  usable_frame (es1 ++ mkEntry (e_base e + size) (e_length e - size) (e_type e) :: es2) j ↔
  usable_frame (es1 ++ e :: es2) j ∧
    ¬ (e_base e ≤ j * BLOCK_SIZE < e_base e + size).
Proof.
  intros [Hes Hap] Hu Hs. destruct (ForallOrdPairs_middle _ _ _ _ Hap) as [Hap1 Hap2].
  unfold usable_frame. rewrite !Exists_app, !Exists_cons.
  assert (Hother : ∀ f, apart f e ∨ apart e f → usable f ∧ frame_in f j →
    ¬ (e_base e ≤ j * BLOCK_SIZE < e_base e + size)).
  { unfold apart, frame_in, BLOCK_SIZE. intros f Hd [Hf Hin].
    assert (e_base f + e_length f ≤ e_base e ∨ e_base e + e_length e ≤ e_base f)
      by tauto. lia. }
  assert (Hexl : ∀ l, Forall (λ f, apart f e ∨ apart e f) l →
    Exists (λ e, usable e ∧ frame_in e j) l →
    ¬ (e_base e ≤ j * BLOCK_SIZE < e_base e + size)).
  { intros l Hl. rewrite Exists_exists. intros (f & Hf & Hj).
    rewrite Forall_forall in Hl. by apply (Hother f); [apply Hl|]. }
  assert (Forall (λ f, apart f e ∨ apart e f) es1) as H1
    by (eapply Forall_impl; [exact Hap1|]; simpl; tauto).
  assert (Forall (λ f, apart f e ∨ apart e f) es2) as H2
    by (eapply Forall_impl; [exact Hap2|]; simpl; tauto).
  specialize (Hexl es1 H1) as Hx1. specialize (Hexl es2 H2) as Hx2.
  assert (usable (mkEntry (e_base e + size) (e_length e - size) (e_type e)) ∧
    frame_in (mkEntry (e_base e + size) (e_length e - size) (e_type e)) j ↔
    (usable e ∧ frame_in e j) ∧ ¬ (e_base e ≤ j * BLOCK_SIZE < e_base e + size)) as ->;
    [|tauto].
  unfold usable, frame_in in *. simpl. lia.
Qed.

Lemma bit_full n j : 0 ≤ j < 8 * n → bit 8 (replicate (Z.to_nat n) 0xFF) j = true.
Proof.
  intros Hj. unfold bit, at_.
  rewrite lookup_total_replicate_2 by dlia.
  apply (forall_below 8 (λ b, Z.testbit 255 b)); [by vm_compute|].
  apply Z.mod_pos_bound. lia.
Qed.

Lemma init_spec hhdm es :
  map_ok es → Exists (λ e, usable e ∧ metadata_bytes es ≤ e_length e) es →
  ∃ s es' p, INIT_phys_base_allocator hhdm es = Ok (s, es') ∧ pmm_ok s ∧
    bitmap_base_ s = u64 (hhdm + p) ∧ metadata_size s = metadata_bytes es ∧
    (∀ j, p ≤ j * BLOCK_SIZE < p + metadata_size s → usable_frame es j) ∧
    (∀ j, 0 ≤ j < 8 * metadata_size s →
      used s j = false ↔
      usable_frame es j ∧ ¬ (p ≤ j * BLOCK_SIZE < p + metadata_size s)).
Proof.
  intros Hmap Hex. destruct (Hmap) as [Hes _].
  destruct (metadata_bytes_spec es Hes) as (Hsz & Hal & Hcov).
  destruct (init_totals_spec es 0 0 Hes) as [Hh Htop]; [lia|].
  destruct (init_place_spec hhdm _ es Hex) as (es1 & e & es2 & Ees & Hu & Hle & Hplace).
  unfold INIT_phys_base_allocator. unfold metadata_bytes in *.
  destruct (init_totals es 0 0) as [higher us] eqn:Et. simpl in *.
  destruct (init_smallest _ _ _ _) as [[b1 b2] sm].
  set (size := ALIGN_UP ((higher / BLOCK_SIZE + 7) / 8) BLOCK_SIZE) in *.
  rewrite Hplace. subst es.
  rewrite !Forall_app, !Forall_cons in Hes. destruct Hes as (He1 & He & He2).
  rewrite !Forall_app, !Forall_cons in Htop. destruct Htop as (Ht1 & Hte & Ht2).
  destruct (He) as (Hb & Hl & Hbl & Ha). specialize (Ha Hu).
  assert (u64 (e_base e + size) = e_base e + size) as -> by (apply Z.mod_small; lia).
  assert (u64 (e_length e - size) = e_length e - size) as -> by (apply Z.mod_small; lia).
  set (e' := mkEntry (e_base e + size) (e_length e - size) (e_type e)).
  assert (entry_ok e') as He'.
  { unfold entry_ok. simpl. split_and!; try lia. intros _. unfold BLOCK_SIZE in *. dlia. }
  assert (Hbound : ∀ l : list memory_entry,
    Forall (λ f, e_base f + e_length f ≤ higher) l →
    Forall (λ f, usable f → (e_base f + e_length f) / BLOCK_SIZE ≤
      8 * zlen (replicate (Z.to_nat size) 0xFF)) l).
  { intros l Hl'. eapply Forall_impl; [exact Hl'|]. intros f Hf _. simpl in Hf.
    rewrite length_replicate, Z2Nat.id by lia. unfold BLOCK_SIZE in *. dlia. }
  destruct (init_clear_spec (es1 ++ e' :: es2) (replicate (Z.to_nat size) 0xFF))
    as (bm & -> & Elen & Hw & Hbits).
  { rewrite Forall_app, Forall_cons. done. }
  { unfold words. apply Forall_replicate. lia. }
  { apply Hbound. rewrite Forall_app, Forall_cons. split_and!; [done|simpl; lia|done]. }
  rewrite length_replicate in Elen. cbn [mbind res_bind].
  do 2 eexists. exists (e_base e). split; [done|]. simpl. split_and!; [|done|done|..].
  - split; simpl; try done; try lia. unfold BLOCK_SIZE in Hal. dlia.
  - intros j Hj. unfold usable_frame. rewrite Exists_app, Exists_cons. right; left.
    split; [done|]. unfold frame_in, BLOCK_SIZE in *. dlia.
  - intros j Hj. unfold used. simpl. rewrite Hbits by lia.
    rewrite bit_full by done. unfold e'. rewrite (place_frames es1 e es2) by (done || lia). naive_solver.
Qed.

(** ** Properties *)

(** A small machine: 40 frames, the first four in use. *)
Definition demo_pmm : pmm :=
  mkPmm [0x0F; 0; 0; 0; 0; 0; 0; 0] 0xFFFF800000001000 (40 * 0x1000) 0 0 5 8.

Lemma demo_pmm_ok : pmm_ok demo_pmm.
Proof. split; vm_compute; try done. repeat constructor; done. Qed.

(** C3. [phys_base_alloc] is first fit: on a well-formed state it returns, and
    either it takes the lowest run of [block] free frames inside the managed
    range, sets exactly the bits of that run and returns its address, or there
    is no such run, it returns null and changes nothing.  The word-skipping
    scan therefore finds what a bit-by-bit search finds. *)
Theorem phys_base_alloc_first_fit s block :
  pmm_ok s → 0 < block < 2 ^ 64 →
  ∃ ptr s', phys_base_alloc s block = Ok (ptr, s') ∧
    ((∃ a, first_fit s block a ∧ ptr = a * BLOCK_SIZE ∧ pmm_ok s' ∧
        s' = set_bitmap s (bitmap s') ∧
        ∀ j, 0 ≤ j → used s' j = used s j || in_run a block j)
     ∨ (∀ a, ¬ fits s block a) ∧ ptr = 0 ∧ s' = s).
Proof. apply phys_base_alloc_spec. Qed.

Lemma phys_base_alloc_first_fit_witness :
  ∃ ptr s', phys_base_alloc demo_pmm 3 = Ok (ptr, s') ∧
    ((∃ a, first_fit demo_pmm 3 a ∧ ptr = a * BLOCK_SIZE ∧ pmm_ok s' ∧
        s' = set_bitmap demo_pmm (bitmap s') ∧
        ∀ j, 0 ≤ j → used s' j = used demo_pmm j || in_run a 3 j)
     ∨ (∀ a, ¬ fits demo_pmm 3 a) ∧ ptr = 0 ∧ s' = demo_pmm).
Proof. apply (phys_base_alloc_first_fit demo_pmm 3); [apply demo_pmm_ok|lia]. Defined.

(** Freeing what was just allocated restores the allocator state, bit for
    bit. *)
Theorem phys_alloc_free_roundtrip s block ptr s' :
  pmm_ok s → 0 < block < 2 ^ 64 →
  phys_base_alloc s block = Ok (ptr, s') → ptr ≠ 0 →
  vxPhysBaseFree s' ptr block = Ok s.
Proof.
  intros Hok Hb E Hp. destruct (phys_base_alloc_spec s block Hok Hb) as (p & s1 & E1 & Hcase).
  rewrite E in E1. injection E1 as <- <-.
  destruct Hcase as [(a & [(Ha & Hend & Hfree) _] & -> & Hok' & Es & Hbits)|(_ & -> & _)];
    [|done].
  pose proof (total_blocks_set s s' Es) as Et.
  destruct (vxPhysBaseFree_spec s' a block) as (s2 & -> & Hok2 & Es2 & Hbits2);
    [done|lia..|]. f_equal.
  assert (bitmap s2 = bitmap s) as Eb.
  { apply (bit_ext 8); [lia| |by apply ok_words..|].
    - pose proof (ok_size s Hok). pose proof (ok_size s2 Hok2).
      rewrite Es2, Es in H0. simpl in H0. rewrite Es2 in *. simpl in *. lia.
    - intros k Hk. fold (used s2 k) (used s k). rewrite Hbits2, Hbits by lia.
      destruct (in_run a block k) eqn:Er; simpl.
      + apply in_run_spec in Er. by rewrite Hfree, andb_false_r.
      + by rewrite orb_false_r, andb_true_r. }
  rewrite Es2, Eb, Es. by destruct s.
Qed.

Lemma phys_alloc_free_roundtrip_witness :
  ∃ s', phys_base_alloc demo_pmm 3 = Ok (0x4000, s') ∧
    vxPhysBaseFree s' 0x4000 3 = Ok demo_pmm.
Proof.
  eexists. split; [vm_compute; reflexivity|].
  apply (phys_alloc_free_roundtrip demo_pmm 3 0x4000); [apply demo_pmm_ok|lia| |lia].
  vm_compute. reflexivity.
Defined.

(** C28. Over any sequence of allocations of one or more frames, failed ones
    included, and frees of live runs: no frame is held by two allocations and no
    held frame is free; the free count plus the frames held is the free count
    at the start. The exception: when frame 0 was free, one run that starts at
    it may be lost, marked used while its client got a null pointer. *)
Theorem phys_clients_disjoint s0 s own c0 :
  pmm_ok s0 → pys_base_get_free_block_count s0 = Ok c0 → rtc step (s0, []) (s, own) →
  ∃ lost, (lost = [] ∨ used s0 0 = false ∧ ∃ n, lost = [(0, n)]) ∧
    (∀ j, 0 ≤ j → holders (lost ++ own) j ≤ Z.b2z (used s j)) ∧
    pys_base_get_free_block_count s = Ok (c0 - held own - held lost).
Proof.
  intros Hok Ec Hr. rewrite free_count_spec in Ec by done. injection Ec as Ec.
  assert (client_inv c0 (used s0 0) s0 [] []) as Hinv.
  { split; try done; [by left| |simpl; lia]. intros j Hj. simpl. destruct (used s0 j); simpl; lia. }
  destruct (client_steps c0 (used s0 0) _ _ _ _ _ Hr Hinv) as (lost & [Hok' Hz _ Hh Hc]).
  exists lost. split; [destruct Hz as [(-> & _)|(? & _ & ?)]; eauto|]. split; [done|].
  rewrite free_count_spec by done. f_equal. rewrite held_app in Hc. lia.
Qed.

(** The same machine with frame 0 free. *)
Definition demo_pmm0 : pmm := set_bitmap demo_pmm [0x0E; 0; 0; 0; 0; 0; 0; 0].

Lemma demo_pmm0_ok : pmm_ok demo_pmm0.
Proof. split; vm_compute; try done. repeat constructor; done. Qed.

(** The first request takes frame 0 and gets null, the second frame 4. *)
Lemma phys_clients_disjoint_witness :
  ∃ s1 s2 lost, phys_base_alloc demo_pmm0 1 = Ok (0, s1) ∧ phys_base_alloc s1 3 = Ok (0x4000, s2) ∧
    (lost = [] ∨ used demo_pmm0 0 = false ∧ ∃ n, lost = [(0, n)]) ∧
    (∀ j, 0 ≤ j → holders (lost ++ [(4, 3)]) j ≤ Z.b2z (used s2 j)) ∧
    pys_base_get_free_block_count s2 = Ok (37 - 3 - held lost).
Proof.
  set (s1 := set_bitmap demo_pmm0 [0x0F; 0; 0; 0; 0; 0; 0; 0]).
  set (s2 := set_bitmap demo_pmm0 [0x7F; 0; 0; 0; 0; 0; 0; 0]).
  assert (rtc step (demo_pmm0, []) (s2, [(4, 3)])) as Hr.
  { apply (rtc_l _ _ (s1, [])); [apply (step_alloc_null _ _ 1); [lia|by vm_compute]|].
    apply rtc_once, (step_alloc s1 [] 3 0x4000 s2); [lia|by vm_compute|lia]. }
  destruct (phys_clients_disjoint demo_pmm0 s2 [(4, 3)] 37 demo_pmm0_ok ltac:(by vm_compute) Hr) as (lost & Hl & Hh & Hc).
  exists s1, s2, lost. split; [by vm_compute|]. split; [by vm_compute|]. split; [exact Hl|]. split; [exact Hh|exact Hc].
Defined.

(** After [INIT] the free frames are exactly the frames of usable memory
    map entries that do not hold the allocator's own bitmap. *)
Theorem INIT_frees_usable hhdm es :
  map_ok es → Exists (λ e, usable e ∧ metadata_bytes es ≤ e_length e) es →
  ∃ s es' p, INIT_phys_base_allocator hhdm es = Ok (s, es') ∧ pmm_ok s ∧
    bitmap_base_ s = u64 (hhdm + p) ∧ metadata_size s = metadata_bytes es ∧
    (∀ j, p ≤ j * BLOCK_SIZE < p + metadata_size s → usable_frame es j) ∧
    (∀ j, 0 ≤ j < 8 * metadata_size s →
      used s j = false ↔
      usable_frame es j ∧ ¬ (p ≤ j * BLOCK_SIZE < p + metadata_size s)).
Proof. apply init_spec. Qed.

Definition demo_map : list memory_entry :=
  [mkEntry 0 0x1000 2; mkEntry 0x1000 0x9000 1; mkEntry 0xA000 0x2000 7].

Lemma demo_map_ok : map_ok demo_map.
Proof.
  split; repeat constructor; unfold apart, usable; simpl; try lia; try done.
Qed.

Lemma INIT_frees_usable_witness :
  ∃ s es' p, INIT_phys_base_allocator 0 demo_map = Ok (s, es') ∧ pmm_ok s ∧
    bitmap_base_ s = u64 (0 + p) ∧ metadata_size s = metadata_bytes demo_map ∧
    (∀ j, p ≤ j * BLOCK_SIZE < p + metadata_size s → usable_frame demo_map j) ∧
    (∀ j, 0 ≤ j < 8 * metadata_size s →
      used s j = false ↔
      usable_frame demo_map j ∧ ¬ (p ≤ j * BLOCK_SIZE < p + metadata_size s)).
Proof.
  apply (INIT_frees_usable 0 demo_map); [apply demo_map_ok|].
  apply Exists_cons; right. apply Exists_cons; left. split; vm_compute; done.
Defined.

(** Frame 0, when the memory map makes it usable, is handed out as the null
    pointer: the caller sees a failure and the frame is lost. *)
Theorem phys_base_alloc_frame_zero :
  let s := set_bitmap demo_pmm (replicate 8 0) in
  ∃ s', phys_base_alloc s 1 = Ok (0, s') ∧ used s 0 = false ∧ used s' 0 = true.
Proof. eexists. split; [vm_compute; reflexivity|]. done. Qed.
