(* ===== verification/Frames.v ===== *)
(** * Physical frames: the allocator's interface and RAM

    The page tables, the virtual-page bitmaps and the slabs take their frames
    from [phys_base_alloc] and give them back with [vxPhysBaseFree].  What they
    rely on is the class [FrameSource]; the physical allocator of [Pmm]
    implements it.  [ram] is physical memory as the kernel reaches it through
    page tables and windows: 512 64-bit words per frame. *)

From S2P Require Import Prelude Bitmap Pmm.

(** A page-aligned physical address an x86-64 page-table entry can hold. *)
Definition page_frame (f : Z) : Prop := 0 ≤ f < 2 ^ 52 ∧ f mod 0x1000 = 0.

Class FrameSource (S : Type) := {
  fs_alloc : S → Z → res (Z * S);          (* phys_base_alloc *)
  fs_free : S → Z → Z → res S;             (* vxPhysBaseFree *)
  fs_ok : S → Prop;
  fs_used : S → Z → Prop;                  (* the frame at this address is taken *)
  fs_avail : S → Z;                        (* free frames *)
  fs_alloc_ok s n :
    fs_ok s → 0 < n < 2 ^ 64 →
    ∃ f s', fs_alloc s n = Ok (f, s') ∧ fs_ok s' ∧
      (f = 0 ∧ s' = s ∨
       f ≠ 0 ∧ page_frame f ∧ f + n * 0x1000 ≤ 2 ^ 52 ∧
       (∀ k, 0 ≤ k < n → ¬ fs_used s (f + k * 0x1000)) ∧
       (∀ g, fs_used s' g ↔ fs_used s g ∨ ∃ k, 0 ≤ k < n ∧ g = f + k * 0x1000) ∧
       fs_avail s' = fs_avail s - n);
  fs_alloc_one s f s' : fs_ok s → 0 < fs_avail s → fs_alloc s 1 = Ok (f, s') → f ≠ 0 }.

(** One frame, when one is left. *)
Lemma fs_alloc_frame {S} `{FrameSource S} (s : S) :
  fs_ok s → 0 < fs_avail s →
  ∃ f s', fs_alloc s 1 = Ok (f, s') ∧ fs_ok s' ∧ page_frame f ∧ f ≠ 0 ∧
    ¬ fs_used s f ∧ (∀ g, fs_used s' g ↔ fs_used s g ∨ g = f) ∧
    fs_avail s' = fs_avail s - 1.
Proof.
  intros Hok Ha. destruct (fs_alloc_ok s 1 Hok ltac:(lia)) as (f & s' & E & Hok' & Hc).
  pose proof (fs_alloc_one s f s' Hok Ha E) as Hnz.
  destruct Hc as [[? _]|(_ & Hpf & _ & Hfresh & Hused & Hav)]; [done|].
  exists f, s'. split_and!; try done.
  - specialize (Hfresh 0 ltac:(lia)). by rewrite Z.add_0_r in Hfresh.
  - intros g. rewrite Hused. split; intros [?|?]; auto.
    + destruct H0 as (k & ? & ->). right. lia.
    + right. exists 0. lia.
Qed.

(** ** The physical allocator is a frame source *)

Definition pmm_frame_used (s : pmm) (f : Z) : Prop :=
  ¬ (f mod 0x1000 = 0 ∧ 0 ≤ f / 0x1000 < total_blocks s) ∨ used s (f / 0x1000) = true.

Definition pmm_src_ok (s : pmm) : Prop :=
  pmm_ok s ∧ used s 0 = true ∧ higher_base_length_ s ≤ 2 ^ 52.

Definition pmm_avail (s : pmm) : Z :=
  count_clear 8 (bitmap s) (Z.to_nat (total_blocks s)).

Lemma count_clear_pos w l n :
  0 < count_clear w l n → ∃ j, 0 ≤ j < Z.of_nat n ∧ bit w l j = false.
Proof.
  induction n as [|n IH]; simpl; [lia|]. intros H.
  destruct (bit w l (Z.of_nat n)) eqn:E.
  - destruct IH as (j & ? & ?); [lia|]. exists j. split; [lia|done].
  - exists (Z.of_nat n). split; [lia|done].
Qed.

Lemma pmm_alloc_ok s n :
  pmm_src_ok s → 0 < n < 2 ^ 64 →
  ∃ f s', phys_base_alloc s n = Ok (f, s') ∧ pmm_src_ok s' ∧
    (f = 0 ∧ s' = s ∨
     f ≠ 0 ∧ page_frame f ∧ f + n * 0x1000 ≤ 2 ^ 52 ∧
     (∀ k, 0 ≤ k < n → ¬ pmm_frame_used s (f + k * 0x1000)) ∧
     (∀ g, pmm_frame_used s' g ↔
        pmm_frame_used s g ∨ ∃ k, 0 ≤ k < n ∧ g = f + k * 0x1000) ∧
     pmm_avail s' = pmm_avail s - n).
Proof.
  intros (Hok & Hz & Hhi) Hn.
  pose proof (total_blocks_bound s Hok) as Htb.
  assert (total_blocks s * 0x1000 ≤ 2 ^ 52) as Htop
    by (unfold total_blocks, BLOCK_SIZE; dlia).
  destruct (phys_base_alloc_spec s n Hok Hn) as (f & s' & E & Hc).
  exists f, s'. split; [done|].
  destruct Hc as [(a & [(Ha & Hend & Hfree) _] & -> & Hok' & Es & Hbits)|(_ & -> & ->)].
  2: { split; [done|]. by left. }
  pose proof (total_blocks_set s s' Es) as Et.
  assert (a ≠ 0) as Ha0 by (intros ->; rewrite Hfree in Hz by lia; done).
  unfold BLOCK_SIZE. split.
  { split_and!; [done| |by rewrite Es]. by rewrite Hbits, Hz by lia. }
  right. split_and!; try lia.
  - unfold page_frame. dlia.
  - intros k Hk [Hr|Hu].
    + apply Hr. dlia.
    + replace ((a * 4096 + k * 4096) / 4096) with (a + k) in Hu by dlia.
      rewrite Hfree in Hu by lia. done.
  - intros g. unfold pmm_frame_used. rewrite Et.
    destruct (decide (g mod 4096 = 0 ∧ 0 ≤ g / 4096 < total_blocks s)) as [[Hg0 Hg]|Hg].
    + rewrite Hbits, orb_true_iff, in_run_spec by lia. split.
      * intros [?|[?|?]]; [tauto|tauto|]. right. exists (g / 4096 - a). split; [lia|dlia].
      * intros [[?|?]|(k & ? & ->)]; [tauto|tauto|]. right; right. dlia.
    + tauto.
  - unfold pmm_avail. rewrite Et.
    rewrite (count_clear_set 8 (bitmap s) (bitmap s') _ a n) by (done || lia). lia.
Qed.

Lemma pmm_alloc_one s f s' :
  pmm_src_ok s → 0 < pmm_avail s → phys_base_alloc s 1 = Ok (f, s') → f ≠ 0.
Proof.
  intros (Hok & Hz & _) Hav E. pose proof (total_blocks_bound s Hok).
  destruct (phys_base_alloc_spec s 1 Hok ltac:(lia)) as (p & s1 & E1 & Hc).
  rewrite E in E1. injection E1 as <- <-.
  destruct Hc as [(a & [(Ha & Hend & Hfree) _] & -> & _)|(Hnone & -> & _)].
  - intros Hf. assert (a = 0) as -> by (unfold BLOCK_SIZE in Hf; lia).
    rewrite Hfree in Hz by lia. done.
  - destruct (count_clear_pos _ _ _ Hav) as (j & Hj & Hb).
    exfalso. apply (Hnone j). split_and!; [lia..|].
    intros k Hk. by replace k with j by lia.
Qed.

#[global] Instance pmm_source : FrameSource pmm := {|
  fs_alloc := phys_base_alloc;
  fs_free := vxPhysBaseFree;
  fs_ok := pmm_src_ok;
  fs_used := pmm_frame_used;
  fs_avail := pmm_avail;
  fs_alloc_ok := pmm_alloc_ok;
  fs_alloc_one := pmm_alloc_one |}.

(** ** RAM *)

(** A frame that was never written reads as zero. *)
Abbreviation ram := (gmap Z (list Z)).

Definition zero_frame : list Z := replicate 512 0.

Definition frame (r : ram) (f : Z) : list Z := default zero_frame (r !! f).

Lemma frame_insert r f t g : frame (<[f := t]> r) g = if decide (f = g) then t else frame r g.
Proof.
  unfold frame. case_decide as E; [subst; by rewrite lookup_insert_eq|].
  by rewrite lookup_insert_ne.
Qed.
