(* ===== verification/Paging.v ===== *)
(** * Physical windows and page tables

    [kernel/memory/phys_window.c] and [kernel/hal/cpu/paging.c].  Before
    paging is set up the kernel reaches a frame through the boot loader's
    direct map; afterwards it maps the frame into one of the slots of the
    window area, whose page table is itself reachable at slot 511.  Page
    tables live in RAM frames of 512 entries and are walked and updated
    through such pointers.

    The model runs each operation without interruption.  In the code the
    mappings take [paging_lock]; [paging_multiple_mmap] and
    [paging_multiple_unmap] leave interrupts on, and the lookups and
    [paging_setup] take no lock, so the model says nothing of what they see
    while another processor maps.  [INVLPG] and the fences have no effect on
    the state. *)

From S2P Require Import Prelude Bitmap Frames.

(** ** Constants ([paging.h], [phys_window.h], [vm_manager.h]) *)

Definition PAGE_SIZE_4KB : Z := 0x1000.
Definition PAGE_SIZE_2MB : Z := 0x200000.
Definition PAGE_SIZE_1GB : Z := 0x40000000.
Definition PAGE_PRESENT : Z := 1.
Definition PAGE_WRITABLE : Z := 2.
Definition PAGE_USER : Z := 4.
Definition PAGE_HUGE : Z := 0x80.
Definition PAGE_COW : Z := 0x200.
Definition PAGE_NO_EXECUTE : Z := 2 ^ 63.
Definition PAGE_HW_FLAG : Z := Z.lor 0xF7F PAGE_NO_EXECUTE.
Definition PAGE_2MB : Z := 2 ^ 61.
Definition PAGE_1GB : Z := 2 ^ 62.
Definition PAGE_PHYS_MASK : Z := 0x000FFFFFFFFFF000.
Definition mem_vma_phys_window_start : Z := 0xFFFFD00000000000.
Definition PHYS_WINDOW_FLAG_READ : Z := 1.
Definition PHYS_WINDOW_FLAG_WRITE : Z := 2.
Definition PHYS_WINDOW_FLAG_LOCK : Z := 0x20.
Definition PHYS_WINDOW_STATUS_OK : Z := 0.
Definition PHYS_WINDOW_STATUS_NOT_FOUND : Z := -2.

(** [x & f] as a condition. *)
Definition has (x f : Z) : bool := negb (Z.land x f =? 0).

(** [(virt >> (12 + 9 * level)) & PAGE_TABLE_INDEX_MASK]. *)
Definition pt_index (level : nat) (virt : Z) : Z :=
  Z.land (Z.shiftr virt (12 + 9 * Z.of_nat level)) 0x1FF.

(** ** State *)

Record physwindow := mkWindow { virt_addr : Z; phys_addr : Z; lock : Z; flag : Z }.

Section machine.
Context {S : Type} `{FrameSource S}.

Record machine := mkMachine {
  mram : ram;
  msrc : S;
  windows : list physwindow;              (* physical_memory_windows *)
  paging_has_been_set : bool;
  g_hhdm_offset : Z;
  kernel_pml4 : Z;
  physwindow_pt_phys : Z;
  cr3 : Z }.

Definition set_ram (m : machine) (r : ram) : machine :=
  mkMachine r (msrc m) (windows m) (paging_has_been_set m) (g_hhdm_offset m)
    (kernel_pml4 m) (physwindow_pt_phys m) (cr3 m).
Definition set_src (m : machine) (s : S) : machine :=
  mkMachine (mram m) s (windows m) (paging_has_been_set m) (g_hhdm_offset m)
    (kernel_pml4 m) (physwindow_pt_phys m) (cr3 m).
Definition set_windows (m : machine) (w : list physwindow) : machine :=
  mkMachine (mram m) (msrc m) w (paging_has_been_set m) (g_hhdm_offset m)
    (kernel_pml4 m) (physwindow_pt_phys m) (cr3 m).
Definition set_pt_phys (m : machine) (p : Z) : machine :=
  mkMachine (mram m) (msrc m) (windows m) (paging_has_been_set m) (g_hhdm_offset m)
    (kernel_pml4 m) p (cr3 m).
Definition set_cr3 (m : machine) (p : Z) : machine :=
  mkMachine (mram m) (msrc m) (windows m) (paging_has_been_set m) (g_hhdm_offset m)
    (kernel_pml4 m) (physwindow_pt_phys m) p.

Definition PHYS2VIRT (m : machine) (x : Z) : Z := u64 (x + g_hhdm_offset m).

(** The frame a table pointer reaches: through the direct map before paging
    is set, through the window area's page table afterwards. *)
Definition deref (m : machine) (v : Z) : res Z :=
  if paging_has_been_set m then
    if mem_vma_phys_window_start <=? v then
      e ← aget (frame (mram m) (physwindow_pt_phys m))
            (Z.shiftr (v - mem_vma_phys_window_start) 12);
      if has e PAGE_PRESENT then Ok (Z.land e PAGE_PHYS_MASK) else Fault
    else Fault
  else Ok (u64 (v - g_hhdm_offset m)).

(** [table[i]], [table[i] = x] and [memset(table, 0, PAGE_SIZE_4KB)]. *)
Definition tbl_read (m : machine) (table i : Z) : res Z :=
  f ← deref m table; aget (frame (mram m) f) i.
Definition tbl_write (m : machine) (table i x : Z) : res machine :=
  f ← deref m table;
  t ← aset (frame (mram m) f) i x;
  Ok (set_ram m (<[f := t]> (mram m))).
Definition tbl_zero (m : machine) (table : Z) : res machine :=
  f ← deref m table; Ok (set_ram m (<[f := zero_frame]> (mram m))).

Definition alloc_frame (m : machine) : res (Z * machine) :=
  '(f, s) ← fs_alloc (msrc m) 1; Ok (f, set_src m s).

Definition paging_get_highest_page_map (m : machine) : Z :=
  if paging_has_been_set m then Z.land (cr3 m) PAGE_PHYS_MASK else kernel_pml4 m.

(** ** Physical windows *)

(** One level of the early walk: a missing table is allocated and zeroed. *)
Definition early_table (m : machine) (table idx : Z) : res (Z * machine) :=
  e ← tbl_read m table idx;
  m ← (if negb (has e 1) then
         '(n, m) ← alloc_frame m;
         m ← tbl_zero m (PHYS2VIRT m n);
         tbl_write m table idx (Z.lor (Z.lor (Z.lor n PAGE_PRESENT) PAGE_WRITABLE) PAGE_USER)
       else Ok m);
  e ← tbl_read m table idx;
  Ok (PHYS2VIRT m (Z.land e PAGE_PHYS_MASK), m).

Definition paging_physwindow_mmap (m : machine) (page_dir_phys virt phys flags : Z) :
    res machine :=
  let hw_flags := Z.land flags PAGE_HW_FLAG in
  if negb (paging_has_been_set m) then
    let p4 := PHYS2VIRT m page_dir_phys in
    '(pdpt, m) ← early_table m p4 (pt_index 3 virt);
    '(pd, m) ← early_table m pdpt (pt_index 2 virt);
    e ← tbl_read m pd (pt_index 1 virt);
    m ← (if negb (has e 1) then
           m ← (if physwindow_pt_phys m =? 0 then
                  '(n, m) ← alloc_frame m;
                  tbl_zero (set_pt_phys m n) (PHYS2VIRT m n)
                else Ok m);
           tbl_write m pd (pt_index 1 virt)
             (Z.lor (Z.lor (Z.lor (physwindow_pt_phys m) PAGE_PRESENT) PAGE_WRITABLE)
                PAGE_USER)
         else Ok m);
    e ← tbl_read m pd (pt_index 1 virt);
    let pt := PHYS2VIRT m (Z.land e PAGE_PHYS_MASK) in
    m ← tbl_write m pt (pt_index 0 virt) (Z.lor (Z.land phys PAGE_PHYS_MASK) hw_flags);
    tbl_write m pt 511
      (Z.lor (Z.lor (Z.land (physwindow_pt_phys m) PAGE_PHYS_MASK) PAGE_PRESENT)
         PAGE_WRITABLE)
  else
    let pt := mem_vma_phys_window_start + 511 * PAGE_SIZE_4KB in
    tbl_write m pt (Z.shiftr (u64 (virt - mem_vma_phys_window_start)) 12)
      (Z.lor (Z.land phys PAGE_PHYS_MASK) hw_flags).

(** The first slot whose [virt_addr] is the one asked for. *)
Fixpoint find_window (ws : list physwindow) (virt : Z) (i : nat) : option nat :=
  match ws with
  | [] => None
  | w :: ws => if virt_addr w =? virt then Some i else find_window ws virt (Datatypes.S i)
  end.

Definition mem_resolve_physwindow (m : machine) (virt : Z) : option nat :=
  find_window (windows m) virt 0.

Fixpoint find_unlocked (ws : list physwindow) (i : nat) : option nat :=
  match ws with
  | [] => None
  | w :: ws => if lock w =? 0 then Some i else find_unlocked ws (Datatypes.S i)
  end.

(** The status, and the address stored through [virt_addr] when one is. *)
Definition mem_create_physwindow (m : machine) (phys flag : Z) :
    res (Z * option Z * machine) :=
  match find_unlocked (windows m) 0 with
  | Some i =>
      let virt := mem_vma_phys_window_start + Z.of_nat i * 0x1000 in
      let w := mkWindow virt phys 0 flag in
      let m := set_windows m (<[i := w]> (windows m)) in
      m ← paging_physwindow_mmap m (paging_get_highest_page_map m) virt phys
            (Z.lor (Z.lor (if flag =? PHYS_WINDOW_FLAG_READ then 1 else 0)
                      (if flag =? PHYS_WINDOW_FLAG_WRITE then 2 else 0)) 3);
      let m :=
        if Z.land flag PHYS_WINDOW_FLAG_LOCK =? PHYS_WINDOW_FLAG_LOCK
        then set_windows m (<[i := mkWindow virt phys 1 flag]> (windows m)) else m in
      Ok (PHYS_WINDOW_STATUS_OK, Some virt, m)
  | None => Ok (PHYS_WINDOW_STATUS_NOT_FOUND, None, m)
  end.

Definition mem_release_physwindow (m : machine) (virt : Z) : Z * machine :=
  match find_window (windows m) virt 0 with
  | Some i =>
      match windows m !! i with
      | Some w =>
          (PHYS_WINDOW_STATUS_OK,
           set_windows m
             (<[i := mkWindow (virt_addr w) (phys_addr w) 0 (flag w)]> (windows m)))
      | None => (PHYS_WINDOW_STATUS_NOT_FOUND, m)
      end
  | None => (PHYS_WINDOW_STATUS_NOT_FOUND, m)
  end.

(** ** Page tables *)

(** The table pointer and [*window_out].  Without a free slot [*window_out]
    keeps an indeterminate value, which the callers dereference. *)
Definition get_table_vaddr (m : machine) (phys : Z) : res (Z * Z * machine) :=
  if negb (paging_has_been_set m) then Ok (PHYS2VIRT m phys, 0, m)
  else
    '(_, v, m) ← mem_create_physwindow m phys
                   (Z.lor PHYS_WINDOW_FLAG_WRITE PHYS_WINDOW_FLAG_LOCK);
    match v with Some v => Ok (v, v, m) | None => Fault end.

Definition release_table_vaddr (m : machine) (window : Z) : machine :=
  if paging_has_been_set m && negb (window =? 0)
  then (mem_release_physwindow m window).2 else m.

Definition paging_create_page_directory (m : machine) : res (Z * machine) :=
  '(phys, m) ← alloc_frame m;
  '(v, win, m) ← get_table_vaddr m phys;
  m ← tbl_zero m v;
  Ok (phys, release_table_vaddr m win).

(** The new table for a missing entry, zeroed through a temporary window. *)
Definition new_table (m : machine) : res (Z * machine) :=
  '(next, m) ← alloc_frame m;
  '(p_tmp, v_tmp, m) ← get_table_vaddr m next;
  m ← tbl_zero m p_tmp;
  Ok (next, release_table_vaddr m v_tmp).

(** Entry [i] of the table that replaces a huge-page entry at [level]. *)
Definition split_entry (level : nat) (entry i : Z) : Z :=
  let old_phys := Z.land entry PAGE_PHYS_MASK in
  let old_flags := Z.land entry (not64 PAGE_PHYS_MASK) in
  let step := if (level =? 2)%nat then PAGE_SIZE_2MB else PAGE_SIZE_4KB in
  let e := Z.lor (u64 (old_phys + u64 (i * step))) old_flags in
  if (level =? 1)%nat then Z.land e (not64 PAGE_HUGE) else e.

Fixpoint split_fill (n : nat) (m : machine) (p_tmp : Z) (level : nat) (entry i : Z) :
    res machine :=
  match n with
  | O => Ok m
  | Datatypes.S n =>
      m ← tbl_write m p_tmp i (split_entry level entry i);
      split_fill n m p_tmp level entry (i + 1)
  end.

Definition split_table (m : machine) (level : nat) (entry : Z) : res (Z * machine) :=
  '(next, m) ← alloc_frame m;
  '(p_tmp, v_tmp, m) ← get_table_vaddr m next;
  m ← split_fill 512 m p_tmp level entry 0;
  Ok (next, release_table_vaddr m v_tmp).

(** The part of one iteration that makes the entry point to a table. *)
Definition descend (m : machine) (level : nat) (table idx entry sw_table_flags : Z) :
    res machine :=
  if negb (has entry PAGE_PRESENT) then
    '(next, m) ← new_table m;
    tbl_write m table idx (Z.lor next sw_table_flags)
  else if has entry PAGE_HUGE then
    '(next, m) ← split_table m level entry;
    tbl_write m table idx (Z.lor next sw_table_flags)
  else
    e ← tbl_read m table idx;
    tbl_write m table idx (Z.lor e sw_table_flags).

(** The loop [for (level = 3; level >= 0; level--)]. *)
Fixpoint mmap_levels (level : nat) (m : machine) (virt phys flags curr_phys : Z)
    (wins : list Z) : res (list Z * machine) :=
  let hw_flags := Z.land flags PAGE_HW_FLAG in
  let sw_table_flags :=
    Z.lor (Z.lor PAGE_PRESENT PAGE_WRITABLE) (Z.land flags PAGE_USER) in
  let idx := pt_index level virt in
  '(table, win, m) ← get_table_vaddr m curr_phys;
  let wins := <[level := win]> wins in
  entry ← tbl_read m table idx;
  if ((level =? 2)%nat && has flags PAGE_1GB) || ((level =? 1)%nat && has flags PAGE_2MB) then
    m ← tbl_write m table idx
          (Z.lor (Z.lor (Z.land phys PAGE_PHYS_MASK) hw_flags) PAGE_HUGE);
    Ok (wins, m)
  else
    match level with
    | O =>
        m ← tbl_write m table idx (Z.lor (Z.land phys PAGE_PHYS_MASK) hw_flags);
        Ok (wins, m)
    | Datatypes.S level' =>
        m ← descend m level table idx entry sw_table_flags;
        e ← tbl_read m table idx;
        mmap_levels level' m virt phys flags (Z.land e PAGE_PHYS_MASK) wins
    end.

Fixpoint release_all (m : machine) (wins : list Z) : machine :=
  match wins with
  | [] => m
  | w :: wins =>
      release_all (if negb (w =? 0) then release_table_vaddr m w else m) wins
  end.

Definition mmap_internal (m : machine) (page_dir_phys virt phys flags : Z) : res machine :=
  '(wins, m) ← mmap_levels 3 m virt phys flags page_dir_phys [0; 0; 0; 0];
  Ok (release_all m wins).

Fixpoint mmap_range_loop (fuel : nat) (m : machine)
    (page_dir curr_virt curr_phys bytes_left flags : Z) : res machine :=
  match fuel with
  | O => NoFuel
  | Datatypes.S fuel =>
      if 0 <? bytes_left then
        let go size sflag :=
          m ← mmap_internal m page_dir curr_virt curr_phys (Z.lor flags sflag);
          mmap_range_loop fuel m page_dir (u64 (curr_virt + size))
            (if negb (curr_phys =? 0) then u64 (curr_phys + size) else curr_phys)
            (u64 (bytes_left - size)) flags in
        if (PAGE_SIZE_1GB <=? bytes_left) && (curr_virt mod PAGE_SIZE_1GB =? 0)
             && ((curr_phys =? 0) || (curr_phys mod PAGE_SIZE_1GB =? 0))
        then go PAGE_SIZE_1GB PAGE_1GB
        else if (PAGE_SIZE_2MB <=? bytes_left) && (curr_virt mod PAGE_SIZE_2MB =? 0)
             && ((curr_phys =? 0) || (curr_phys mod PAGE_SIZE_2MB =? 0))
        then go PAGE_SIZE_2MB PAGE_2MB
        else go PAGE_SIZE_4KB 0
      else Ok m
  end.

(** At most one iteration per page. *)
Definition mmap_range_internal (m : machine) (page_dir virt phys size_in_pages flags : Z) :
    res machine :=
  let bytes_left := u64 (size_in_pages * PAGE_SIZE_4KB) in
  mmap_range_loop (Datatypes.S (Z.to_nat (bytes_left / PAGE_SIZE_4KB)))
    m page_dir virt phys bytes_left flags.

Definition paging_mmap (m : machine) (page_dir_phys virt phys flags : Z) : res machine :=
  mmap_internal m page_dir_phys virt phys flags.

Definition paging_multiple_mmap (m : machine) (page_dir virt phys size_in_pages flags : Z) :
    res machine :=
  mmap_range_internal m page_dir virt phys size_in_pages flags.

Definition paging_unmap_page (m : machine) (page_dir virt : Z) : res machine :=
  paging_mmap m page_dir virt 0 0.

Definition paging_multiple_unmap (m : machine) (page_dir virt size_in_pages : Z) :
    res machine :=
  mmap_range_internal m page_dir virt 0 size_in_pages 0.

Definition paging_reload (m : machine) (p : Z) : machine := set_cr3 m p.

Fixpoint copy_entries (n : nat) (m : machine) (dst src i : Z) : res machine :=
  match n with
  | O => Ok m
  | Datatypes.S n =>
      e ← tbl_read m src i;
      m ← tbl_write m dst i e;
      copy_entries n m dst src (i + 1)
  end.

Definition paging_setup (m : machine) (p_phys : Z) : res machine :=
  '(dst, v_dst, m) ← get_table_vaddr m p_phys;
  '(src, v_src, m) ← get_table_vaddr m (kernel_pml4 m);
  m ← copy_entries 256 m dst src 256;
  Ok (release_table_vaddr (release_table_vaddr m v_dst) v_src).

(** The entry, [*level_out] (which starts as [level_out]), and the state. *)
Fixpoint get_entry_loop (i : nat) (m : machine) (curr vaddr level_out : Z) :
    res (Z * Z * machine) :=
  '(table, win, m) ← get_table_vaddr m curr;
  entry ← tbl_read m table (pt_index i vaddr);
  let m := release_table_vaddr m win in
  if negb (has entry 1) then Ok (0, level_out, m)
  else
    let level_out := Z.of_nat i in
    if ((i =? 2)%nat || (i =? 1)%nat) && has entry PAGE_HUGE then Ok (entry, level_out, m)
    else
      match i with
      | O => Ok (entry, level_out, m)
      | Datatypes.S i' =>
          get_entry_loop i' m (Z.land entry PAGE_PHYS_MASK) vaddr level_out
      end.

Definition paging_get_entry_ext (m : machine) (p_phys vaddr level_out : Z) :
    res (Z * Z * machine) :=
  get_entry_loop 3 m p_phys vaddr level_out.

Definition paging_get_entry (m : machine) (p_phys vaddr : Z) : res (Z * machine) :=
  '(e, _, m) ← paging_get_entry_ext m p_phys vaddr 0; Ok (e, m).

(** The address an entry found at [level] gives. *)
Definition entry_paddr (entry level vaddr : Z) : Z :=
  if entry =? 0 then 0
  else if has entry PAGE_HUGE then
    let mask := if level =? 2 then 0x3FFFFFFF else 0x1FFFFF in
    Z.lor (Z.land (Z.land entry PAGE_PHYS_MASK) (not64 mask)) (Z.land vaddr mask)
  else Z.lor (Z.land entry PAGE_PHYS_MASK) (Z.land vaddr 0xFFF).

Definition vaddr_to_paddr (m : machine) (p_phys vaddr : Z) : res (Z * machine) :=
  '(entry, level, m) ← paging_get_entry_ext m p_phys vaddr 0;
  Ok (entry_paddr entry level vaddr, m).

Definition paging_make_cow (m : machine) (page_dir virt : Z) : res machine :=
  '(entry, level, m) ← paging_get_entry_ext m page_dir virt 0;
  if negb (has entry PAGE_WRITABLE) then Ok m
  else
    let new_flags := Z.lor (Z.land entry (not64 PAGE_WRITABLE)) PAGE_COW in
    let new_flags :=
      if has entry PAGE_HUGE then
        if level =? 2 then Z.lor new_flags PAGE_1GB else Z.lor new_flags PAGE_2MB
      else new_flags in
    paging_mmap m page_dir virt (Z.land entry PAGE_PHYS_MASK) new_flags.

Definition paging_sync_kernel_entry (m : machine) (vaddr : Z) : res machine :=
  if vaddr <? 0xFFFF800000000000 then Ok m
  else
    let idx4 := pt_index 3 vaddr in
    let current := paging_get_highest_page_map m in
    if current =? kernel_pml4 m then Ok m
    else
      '(k_pml4, k_win, m) ← get_table_vaddr m (kernel_pml4 m);
      '(c_pml4, c_win, m) ← get_table_vaddr m current;
      k ← tbl_read m k_pml4 idx4;
      c ← tbl_read m c_pml4 idx4;
      m ← (if has k PAGE_PRESENT && negb (has c PAGE_PRESENT)
           then tbl_write m c_pml4 idx4 k else Ok m);
      Ok (release_table_vaddr (release_table_vaddr m k_win) c_win).

End machine.

Arguments machine S : clear implicits.

(** ** Entries *)

Lemma has_bit x k : 0 ≤ k → has x (2 ^ k) = Z.testbit x k.
Proof.
  intros Hk. unfold has. by rewrite <- Z.shiftl_1_l, land_bit_zero, negb_involutive.
Qed.

Lemma has_present x : has x 1 = Z.testbit x 0.
Proof. apply (has_bit x 0). lia. Qed.
Lemma has_huge x : has x PAGE_HUGE = Z.testbit x 7.
Proof. apply (has_bit x 7). lia. Qed.

Lemma mask_bit i : 0 ≤ i → Z.testbit PAGE_PHYS_MASK i = (12 <=? i) && (i <? 52).
Proof.
  intros Hi. change PAGE_PHYS_MASK with (Z.shiftl (Z.ones 40) 12).
  rewrite Z.shiftl_spec by lia.
  destruct (Z.leb_spec 12 i), (Z.ltb_spec i 52); simpl.
  - apply Z.ones_spec_low. lia.
  - apply Z.ones_spec_high. lia.
  - apply Z.testbit_neg_r. lia.
  - apply Z.testbit_neg_r. lia.
Qed.

Lemma land_mask x : Z.land x PAGE_PHYS_MASK = (x / 2 ^ 12) mod 2 ^ 40 * 2 ^ 12.
Proof.
  apply Z.bits_inj'. intros i Hi. rewrite Z.land_spec, mask_bit by done.
  destruct (decide (i < 12)).
  - rewrite Z.mul_pow2_bits_low by lia. destruct (Z.leb_spec 12 i); [lia|].
    apply andb_false_r.
  - rewrite Z.mul_pow2_bits by lia. destruct (Z.leb_spec 12 i); [|lia]. simpl.
    destruct (Z.ltb_spec i 52).
    + rewrite Z.mod_pow2_bits_low, Z.div_pow2_bits, andb_true_r by lia. f_equal; lia.
    + rewrite Z.mod_pow2_bits_high by lia. apply andb_false_r.
Qed.

Lemma land_mask_frame x : page_frame (Z.land x PAGE_PHYS_MASK).
Proof. rewrite land_mask. unfold page_frame. dlia. Qed.

Lemma frame_land_mask f : page_frame f → Z.land f PAGE_PHYS_MASK = f.
Proof. rewrite land_mask. unfold page_frame. dlia. Qed.

Lemma frame_bit f i : page_frame f → i < 12 ∨ 52 ≤ i → Z.testbit f i = false.
Proof.
  intros Hf Hi. rewrite <- (frame_land_mask f), Z.land_spec by done.
  destruct (decide (0 ≤ i)); [|by rewrite Z.testbit_neg_r by lia].
  rewrite mask_bit by done. apply andb_false_intro2. zcases.
Qed.

(** An entry: a frame address and flags outside the address bits. *)
Definition flag_bits (x : Z) : Prop :=
  0 ≤ x < 2 ^ 64 ∧ ∀ i, 12 ≤ i < 52 → Z.testbit x i = false.

Lemma lor_flags_mask f x :
  page_frame f → flag_bits x → Z.land (Z.lor f x) PAGE_PHYS_MASK = f.
Proof.
  intros Hf [_ Hx]. rewrite Z.land_lor_distr_l, frame_land_mask by done.
  assert (Z.land x PAGE_PHYS_MASK = 0) as ->; [|apply Z.lor_0_r].
  apply Z.bits_inj'. intros i Hi. rewrite Z.land_spec, Z.bits_0, mask_bit by done.
  destruct (Z.leb_spec 12 i), (Z.ltb_spec i 52); simpl; rewrite ?andb_false_r; try done.
  by rewrite Hx.
Qed.

Lemma lor_flags_bit f x i :
  page_frame f → i < 12 ∨ 52 ≤ i → Z.testbit (Z.lor f x) i = Z.testbit x i.
Proof. intros. by rewrite Z.lor_spec, frame_bit. Qed.

Lemma lor_bound n x y : 0 ≤ n → 0 ≤ x < 2 ^ n → 0 ≤ y < 2 ^ n → 0 ≤ Z.lor x y < 2 ^ n.
Proof.
  intros Hn Hx Hy.
  assert (Z.lor x y = Z.lor x y mod 2 ^ n) as ->; [|apply Z.mod_pos_bound; lia].
  apply Z.bits_inj'. intros i Hi. destruct (decide (i < n)).
  - by rewrite Z.mod_pow2_bits_low by lia.
  - rewrite Z.mod_pow2_bits_high by lia.
    by rewrite Z.lor_spec, (testbit_small x n), (testbit_small y n) by lia.
Qed.

Lemma land_bound n x y : 0 ≤ n → 0 ≤ x → 0 ≤ y < 2 ^ n → 0 ≤ Z.land x y < 2 ^ n.
Proof.
  intros Hn Hx Hy.
  assert (Z.land x y = Z.land x y mod 2 ^ n) as ->; [|apply Z.mod_pos_bound; lia].
  apply Z.bits_inj'. intros i Hi. destruct (decide (i < n)).
  - by rewrite Z.mod_pow2_bits_low by lia.
  - rewrite Z.mod_pow2_bits_high by lia.
    by rewrite Z.land_spec, (testbit_small y n), andb_false_r by lia.
Qed.

Lemma hw_flags_ok flags : 0 ≤ flags → flag_bits (Z.land flags PAGE_HW_FLAG).
Proof.
  intros Hf. split; [apply land_bound; [lia|lia|by vm_compute]|].
  intros i Hi. rewrite Z.land_spec. apply andb_false_intro2.
  unfold PAGE_HW_FLAG, PAGE_NO_EXECUTE.
  rewrite Z.lor_spec, Z.pow2_bits_false, (testbit_small _ 12) by lia. done.
Qed.

Lemma small_flags_ok x : 0 ≤ x < 2 ^ 12 → flag_bits x.
Proof. intros Hx. split; [lia|]. intros i Hi. apply (testbit_small _ 12); lia. Qed.

Lemma lor_flag_bits x y : flag_bits x → flag_bits y → flag_bits (Z.lor x y).
Proof.
  intros [? Hx] [? Hy]. split; [by apply (lor_bound 64)|].
  intros i Hi. by rewrite Z.lor_spec, Hx, Hy.
Qed.

(** The flags of a table entry: present, writable, and user when asked. *)
Definition sw_flags (flags : Z) : Z :=
  Z.lor (Z.lor PAGE_PRESENT PAGE_WRITABLE) (Z.land flags PAGE_USER).

Lemma sw_flags_ok flags :
  0 ≤ flags → flag_bits (sw_flags flags) ∧ Z.testbit (sw_flags flags) 0 = true ∧
    Z.testbit (sw_flags flags) 7 = false.
Proof.
  intros Hf. unfold sw_flags.
  pose proof (land_bound 3 flags PAGE_USER ltac:(lia) Hf ltac:(by vm_compute)) as Hu.
  split_and!.
  - apply small_flags_ok. apply (lor_bound 12); [lia|by vm_compute|lia].
  - by rewrite !Z.lor_spec.
  - rewrite !Z.lor_spec, (testbit_small (Z.land _ _) 3) by lia. done.
Qed.

(** The leaf entry a mapping writes at level [t]. *)
Definition leaf_entry (t : nat) (phys flags : Z) : Z :=
  let e := Z.lor (Z.land phys PAGE_PHYS_MASK) (Z.land flags PAGE_HW_FLAG) in
  if (t =? 0)%nat then e else Z.lor e PAGE_HUGE.

Lemma leaf_entry_ok t phys flags :
  0 ≤ flags →
  0 ≤ leaf_entry t phys flags < 2 ^ 64 ∧
  Z.land (leaf_entry t phys flags) PAGE_PHYS_MASK = Z.land phys PAGE_PHYS_MASK ∧
  has (leaf_entry t phys flags) 1 = has flags 1 ∧
  has (leaf_entry t phys flags) PAGE_HUGE = negb (t =? 0)%nat.
Proof.
  intros Hf. pose proof (hw_flags_ok flags Hf) as Hw.
  pose proof (land_mask_frame phys) as Hp. rewrite !has_present, !has_huge.
  assert (flag_bits PAGE_HUGE) as Hh by (apply small_flags_ok; by vm_compute).
  assert (∀ f x, page_frame f → flag_bits x → 0 ≤ Z.lor f x < 2 ^ 64) as Hb.
  { intros f x [? _] [? _]. apply (lor_bound 64); lia. }
  unfold leaf_entry. destruct (t =? 0)%nat; cbn [negb].
  - split_and!; [by apply Hb..|by apply lor_flags_mask| |].
    + rewrite lor_flags_bit, Z.land_spec by (done || lia). apply andb_true_r.
    + rewrite lor_flags_bit, Z.land_spec by (done || lia). apply andb_false_r.
  - rewrite <- Z.lor_assoc. pose proof (lor_flag_bits _ _ Hw Hh).
    split_and!; [by apply Hb..|by apply lor_flags_mask| |].
    + rewrite lor_flags_bit, Z.lor_spec, Z.land_spec by (done || lia).
      change (Z.testbit PAGE_HUGE 0) with false. change (Z.testbit PAGE_HW_FLAG 0) with true.
      by rewrite andb_true_r, orb_false_r.
    + rewrite lor_flags_bit, Z.lor_spec by (done || lia). apply orb_true_r.
Qed.

(** A table entry. *)
Lemma table_entry_ok next flags :
  page_frame next → 0 ≤ flags →
  let e := Z.lor next (sw_flags flags) in
  0 ≤ e < 2 ^ 64 ∧ Z.land e PAGE_PHYS_MASK = next ∧ has e 1 = true ∧ has e PAGE_HUGE = false.
Proof.
  intros Hn Hf e. destruct (sw_flags_ok flags Hf) as (Hb & H0 & H7).
  rewrite has_present, has_huge. unfold e. split_and!.
  1-2: destruct Hn, Hb; apply (lor_bound 64); lia.
  - by apply lor_flags_mask.
  - rewrite lor_flags_bit; [done..|lia].
  - rewrite lor_flags_bit; [done..|lia].
Qed.

Lemma or_entry_ok e flags :
  0 ≤ e < 2 ^ 64 → 0 ≤ flags →
  let e' := Z.lor e (sw_flags flags) in
  0 ≤ e' < 2 ^ 64 ∧ Z.land e' PAGE_PHYS_MASK = Z.land e PAGE_PHYS_MASK ∧
  has e' 1 = true ∧ has e' PAGE_HUGE = has e PAGE_HUGE.
Proof.
  intros He Hf e'. destruct (sw_flags_ok flags Hf) as (Hb & H0 & H7).
  rewrite has_present, !has_huge. unfold e'. split_and!.
  1-2: destruct Hb; apply (lor_bound 64); lia.
  - rewrite Z.land_lor_distr_l. apply Z.bits_inj'. intros i Hi.
    rewrite Z.lor_spec, !Z.land_spec, mask_bit by done.
    destruct (Z.leb_spec 12 i), (Z.ltb_spec i 52); simpl; rewrite ?andb_false_r; try done.
    by rewrite (proj2 Hb), orb_false_r by lia.
  - by rewrite Z.lor_spec, H0, orb_true_r.
  - by rewrite Z.lor_spec, H7, orb_false_r.
Qed.

(** ** Address arithmetic *)

Lemma land_low x k : 0 ≤ k → Z.land x (2 ^ k - 1) = x mod 2 ^ k.
Proof. apply land_ones_mod. Qed.

Lemma lor_low a b k : 0 ≤ k → a mod 2 ^ k = 0 → 0 ≤ b < 2 ^ k → Z.lor a b = a + b.
Proof.
  intros Hk Ha Hb. rewrite (Z.div_mod a (2 ^ k)) at 1 2 by lia.
  rewrite Ha, Z.add_0_r, Z.mul_comm. by apply lor_mul_add.
Qed.

Lemma entry_paddr_small e l va :
  has e 1 = true → has e PAGE_HUGE = false →
  entry_paddr e l va = Z.land e PAGE_PHYS_MASK + va mod 2 ^ 12.
Proof.
  intros H1 H7. unfold entry_paddr. rewrite H7.
  destruct (Z.eqb_spec e 0) as [->|]; [done|].
  change 0xFFF with (2 ^ 12 - 1). rewrite land_low by lia.
  apply (lor_low _ _ 12); [lia| |apply Z.mod_pos_bound; lia].
  apply land_mask_frame.
Qed.

Lemma entry_paddr_huge e l k va :
  has e 1 = true → has e PAGE_HUGE = true →
  k = (if l =? 2 then 30 else 21) →
  Z.land e PAGE_PHYS_MASK mod 2 ^ k = 0 →
  entry_paddr e l va = Z.land e PAGE_PHYS_MASK + va mod 2 ^ k.
Proof.
  intros H1 H7 Hk Hal. unfold entry_paddr. rewrite H7.
  destruct (Z.eqb_spec e 0) as [->|]; [done|].
  assert ((if l =? 2 then 0x3FFFFFFF else 0x1FFFFF) = 2 ^ k - 1) as ->
    by (subst k; by destruct (l =? 2)).
  assert (0 ≤ k < 64) by (subst k; by destruct (l =? 2)).
  pose proof (land_mask_frame e) as [Hb _].
  rewrite land_low, land_not64_low by lia.
  assert (Z.land e PAGE_PHYS_MASK / 2 ^ k * 2 ^ k = Z.land e PAGE_PHYS_MASK) as ->.
  { rewrite (Z.div_mod (Z.land e PAGE_PHYS_MASK) (2 ^ k)) at 2 by lia. lia. }
  apply (lor_low _ _ k); [lia|done|apply Z.mod_pos_bound; lia].
Qed.

Lemma not_mask_flags e :
  0 ≤ e < 2 ^ 64 → flag_bits (Z.land e (not64 PAGE_PHYS_MASK)) ∧
  ∀ i, 0 ≤ i < 12 → Z.testbit (Z.land e (not64 PAGE_PHYS_MASK)) i = Z.testbit e i.
Proof.
  intros He.
  assert (∀ i, 0 ≤ i < 64 → Z.testbit (not64 PAGE_PHYS_MASK) i =
    negb ((12 <=? i) && (i <? 52))) as Hn.
  { intros i Hi. unfold not64, u64.
    by rewrite Z.mod_pow2_bits_low, Z.lnot_spec, mask_bit by lia. }
  split; [split|].
  - apply land_bound; [lia|lia|by vm_compute].
  - intros i Hi. rewrite Z.land_spec, Hn by lia.
    apply andb_false_intro2. zcases.
  - intros i Hi. rewrite Z.land_spec, Hn by lia.
    zcases; by rewrite andb_true_r.
Qed.

(** The frames of a split huge page. *)
Lemma split_phys t e i :
  t = 1%nat ∨ t = 2%nat → Z.land e PAGE_PHYS_MASK mod 2 ^ (12 + 9 * Z.of_nat t) = 0 → 0 ≤ i < 512 →
  let step := 2 ^ (12 + 9 * (Z.of_nat t - 1)) in
  u64 (Z.land e PAGE_PHYS_MASK + u64 (i * if (t =? 2)%nat then PAGE_SIZE_2MB else PAGE_SIZE_4KB)) =
    Z.land e PAGE_PHYS_MASK + i * step ∧ page_frame (Z.land e PAGE_PHYS_MASK + i * step).
Proof.
  intros Ht Hal Hi step. pose proof (land_mask_frame e) as Hpf.
  assert (step = if (t =? 2)%nat then PAGE_SIZE_2MB else PAGE_SIZE_4KB) as Es
    by (destruct Ht; by subst t).
  rewrite <- Es. assert (0 ≤ i * step ∧ page_frame (Z.land e PAGE_PHYS_MASK + i * step)) as [Hs Hn].
  { unfold page_frame in *. rewrite Es.
    destruct Ht; subst t; cbn [Nat.eqb] in *; unfold PAGE_SIZE_2MB, PAGE_SIZE_4KB;
      [change (2 ^ (12 + 9 * Z.of_nat 1)) with (2 ^ 21) in Hal
      |change (2 ^ (12 + 9 * Z.of_nat 2)) with (2 ^ 30) in Hal]; dlia. }
  split; [|done]. unfold u64, page_frame in *. rewrite (Z.mod_small (i * step)), Z.mod_small; lia.
Qed.

(** Splitting a huge entry: the entries of the new table carry the old flags
    and the consecutive smaller pages. *)
Lemma split_entry_ok t e i :
  t = 1%nat ∨ t = 2%nat → 0 ≤ e < 2 ^ 64 → has e 1 = true → has e PAGE_HUGE = true →
  Z.land e PAGE_PHYS_MASK mod 2 ^ (12 + 9 * Z.of_nat t) = 0 → 0 ≤ i < 512 →
  let e' := split_entry t e i in
  0 ≤ e' < 2 ^ 64 ∧
  Z.land e' PAGE_PHYS_MASK =
    Z.land e PAGE_PHYS_MASK + i * 2 ^ (12 + 9 * (Z.of_nat t - 1)) ∧
  has e' 1 = true ∧ has e' PAGE_HUGE = (t =? 2)%nat.
Proof.
  intros Ht He H1 H7 Hal Hi e'. destruct (not_mask_flags e He) as [Hf Hlow].
  rewrite has_present in H1. rewrite has_huge in H7.
  destruct (split_phys t e i Ht Hal Hi) as [Eu Hn]. set (step := 2 ^ (12 + 9 * (Z.of_nat t - 1))) in *.
  rewrite has_present, has_huge. unfold e', split_entry. rewrite Eu.
  set (fl := Z.land e (not64 PAGE_PHYS_MASK)) in *.
  assert (0 ≤ Z.lor (Z.land e PAGE_PHYS_MASK + i * step) fl < 2 ^ 64) as Hb.
  { destruct Hn, Hf. apply (lor_bound 64); lia. }
  destruct Ht as [-> | ->]; cbn [Nat.eqb].
  2: { split_and!; try lia.
    - by apply lor_flags_mask.
    - by rewrite lor_flags_bit, Hlow by (done || lia).
    - by rewrite lor_flags_bit, Hlow by (done || lia). }
  assert (∀ j, 0 ≤ j < 64 → Z.testbit (not64 PAGE_HUGE) j = negb (j =? 7)) as Hh.
  { intros j Hj. unfold not64, u64. rewrite Z.mod_pow2_bits_low, Z.lnot_spec by lia.
    f_equal. change PAGE_HUGE with (2 ^ 7). rewrite Z.pow2_bits_eqb by lia.
    by rewrite Z.eqb_sym. }
  pose proof (land_bound 64 (Z.lor (Z.land e PAGE_PHYS_MASK + i * step) fl)
    (not64 PAGE_HUGE) ltac:(lia) ltac:(lia) ltac:(by vm_compute)).
  split_and!; try lia.
  - rewrite <- Z.land_assoc, (Z.land_comm (not64 PAGE_HUGE)), Z.land_assoc,
      lor_flags_mask by done.
    apply Z.bits_inj'. intros j Hj. rewrite Z.land_spec.
    destruct (decide (12 ≤ j < 52)).
    + rewrite Hh by lia. zcases. by rewrite andb_true_r.
    + by rewrite frame_bit by (done || lia).
  - by rewrite Z.land_spec, lor_flags_bit, Hlow, Hh, H1 by (done || lia).
  - rewrite Z.land_spec, Hh by lia. apply andb_false_r.
Qed.

(** ** Virtual page numbers *)

(** The part of a (48-bit) virtual address above the offset of a level-[l]
    page. *)
Definition vpn (l : nat) (va : Z) : Z := (va mod 2 ^ 48) / 2 ^ (12 + 9 * Z.of_nat l).

Lemma pt_index_vpn l va : (l ≤ 3)%nat → pt_index l va = vpn l va mod 512.
Proof.
  intros Hl. unfold pt_index, vpn. rewrite Z.shiftr_div_pow2 by lia.
  change 0x1FF with (2 ^ 9 - 1). rewrite land_low by lia.
  destruct l as [|[|[|[|l]]]]; simpl; try lia; dlia.
Qed.

Lemma pt_index_range l va : 0 ≤ pt_index l va < 512.
Proof.
  unfold pt_index. change 0x1FF with (2 ^ 9 - 1). rewrite land_low by lia.
  apply Z.mod_pos_bound. lia.
Qed.

Lemma vpn_step l va : (l ≤ 3)%nat → vpn l va = vpn (Datatypes.S l) va * 512 + pt_index l va.
Proof.
  intros Hl. rewrite pt_index_vpn by done. unfold vpn.
  destruct l as [|[|[|[|l]]]]; simpl; try lia; dlia.
Qed.

Lemma vpn_top va : vpn 4 va = 0.
Proof. unfold vpn. simpl. dlia. Qed.

Lemma vpn_eq_up l va va' : (l ≤ 3)%nat → vpn l va = vpn l va' →
  vpn (Datatypes.S l) va = vpn (Datatypes.S l) va' ∧ pt_index l va = pt_index l va'.
Proof.
  intros Hl E. rewrite (vpn_step l va), (vpn_step l va') in E by done.
  pose proof (pt_index_range l va). pose proof (pt_index_range l va'). lia.
Qed.
