(* ===== verification/PagingWin.v ===== *)
(** * Table access through physical windows

    What [Paging]'s walk relies on once paging is set up: a window created
    with the lock flag reaches its frame until it is released, creating one
    never disturbs another locked one, and reads and writes through it reach
    the frame it was created for. *)

From S2P Require Import Prelude Bitmap Frames Paging.

Definition slot_addr (i : nat) : Z := mem_vma_phys_window_start + Z.of_nat i * 0x1000.

(** Unlocked slots. *)
Definition nfree (ws : list physwindow) : nat :=
  length (filter (λ w, lock w = 0) ws).

Section access.
Context {S : Type} `{FrameSource S}.
Implicit Types m : machine S.

Definition pt_frame m : list Z := frame (mram m) (physwindow_pt_phys m).

(** Paging is on, the window page table maps itself at slot 511, and slot [i]
    is used for its own address only. *)
Record ready m : Prop := {
  rd_set : paging_has_been_set m = true;
  rd_count : (length (windows m) ≤ 511)%nat;
  rd_pt : page_frame (physwindow_pt_phys m);
  rd_len : length (pt_frame m) = 512%nat;
  rd_words : words 64 (pt_frame m);
  rd_self : has (at_ (pt_frame m) 511) 1 = true ∧
    Z.land (at_ (pt_frame m) 511) PAGE_PHYS_MASK = physwindow_pt_phys m;
  rd_slots : ∀ i w, windows m !! i = Some w →
    virt_addr w = 0 ∨ virt_addr w = slot_addr i }.

(** [v] is a locked window onto the frame [f]. *)
Definition live m (v f : Z) : Prop :=
  ∃ i w, windows m !! i = Some w ∧ lock w ≠ 0 ∧ virt_addr w = v ∧ v = slot_addr i ∧
    has (at_ (pt_frame m) (Z.of_nat i)) 1 = true ∧
    Z.land (at_ (pt_frame m) (Z.of_nat i)) PAGE_PHYS_MASK = f.

(** Nothing but the windows differs. *)
Record same_tables m m' : Prop := {
  st_src : msrc m' = msrc m;
  st_set : paging_has_been_set m' = paging_has_been_set m;
  st_hhdm : g_hhdm_offset m' = g_hhdm_offset m;
  st_kernel : kernel_pml4 m' = kernel_pml4 m;
  st_pt : physwindow_pt_phys m' = physwindow_pt_phys m;
  st_cr3 : cr3 m' = cr3 m;
  st_frames : ∀ g, g ≠ physwindow_pt_phys m → frame (mram m') g = frame (mram m) g }.

Lemma same_tables_refl m : same_tables m m.
Proof using. by split. Qed.

Lemma same_tables_trans m1 m2 m3 :
  same_tables m1 m2 → same_tables m2 m3 → same_tables m1 m3.
Proof using.
  intros [] []. split; try congruence. intros g Hg.
  rewrite st_frames1, st_frames0; congruence.
Qed.

(** ** Reads and writes through a window *)

Lemma slot_index (i : nat) :
  Z.shiftr (slot_addr i - mem_vma_phys_window_start) 12 = Z.of_nat i.
Proof using.
  unfold slot_addr. rewrite Z.shiftr_div_pow2 by lia.
  replace (_ + _ - _) with (Z.of_nat i * 2 ^ 12) by lia. apply Z.div_mul. lia.
Qed.

Lemma slot_addr_inj i j : slot_addr i = slot_addr j → i = j.
Proof using. unfold slot_addr. lia. Qed.

Lemma slot_addr_nz i : slot_addr i ≠ 0.
Proof using. unfold slot_addr, mem_vma_phys_window_start. lia. Qed.

Lemma deref_slot m i :
  ready m → (i < 512)%nat → has (at_ (pt_frame m) (Z.of_nat i)) 1 = true →
  deref m (slot_addr i) = Ok (Z.land (at_ (pt_frame m) (Z.of_nat i)) PAGE_PHYS_MASK).
Proof using.
  intros Hr Hi Hp. unfold deref. rewrite rd_set by done.
  destruct (Z.leb_spec mem_vma_phys_window_start (slot_addr i)); [|unfold slot_addr in *; lia].
  rewrite slot_index. fold (pt_frame m).
  rewrite aget_ok by (rewrite rd_len by done; lia). cbn [mbind res_bind].
  unfold PAGE_PRESENT. by rewrite Hp.
Qed.

Lemma live_deref m v f : ready m → live m v f → deref m v = Ok f.
Proof using.
  intros Hr (i & w & Hw & _ & _ & -> & Hp & <-). apply deref_slot; [done| |done].
  apply lookup_lt_Some in Hw. pose proof (rd_count m Hr). lia.
Qed.

Definition upd m (f : Z) (t : list Z) : machine S := set_ram m (<[f := t]> (mram m)).

Lemma frame_upd m f t g : frame (mram (upd m f t)) g = if decide (f = g) then t else frame (mram m) g.
Proof using. apply frame_insert. Qed.

Lemma pt_frame_upd m f t : f ≠ physwindow_pt_phys m → pt_frame (upd m f t) = pt_frame m.
Proof using. intros. unfold pt_frame. rewrite frame_upd. simpl. by rewrite decide_False. Qed.

Lemma upd_ready m f t : f ≠ physwindow_pt_phys m → ready m → ready (upd m f t).
Proof using.
  intros Hf []. split; try done; by rewrite ?pt_frame_upd.
Qed.

Lemma upd_live m f t v g : f ≠ physwindow_pt_phys m → live m v g → live (upd m f t) v g.
Proof using.
  intros Hf (i & w & ?). exists i, w. by rewrite pt_frame_upd.
Qed.

Lemma tbl_read_live m v f i :
  ready m → live m v f → 0 ≤ i < zlen (frame (mram m) f) →
  tbl_read m v i = Ok (at_ (frame (mram m) f) i).
Proof using.
  intros Hr Hl Hi. unfold tbl_read. rewrite (live_deref _ _ _ Hr Hl).
  by apply aget_ok.
Qed.

Lemma tbl_write_live m v f i x :
  ready m → live m v f → 0 ≤ i < zlen (frame (mram m) f) →
  tbl_write m v i x = Ok (upd m f (<[Z.to_nat i := x]> (frame (mram m) f))).
Proof using.
  intros Hr Hl Hi. unfold tbl_write. rewrite (live_deref _ _ _ Hr Hl).
  cbn [mbind res_bind]. by rewrite aset_ok.
Qed.

Lemma tbl_zero_live m v f :
  ready m → live m v f → tbl_zero m v = Ok (upd m f zero_frame).
Proof using. intros Hr Hl. unfold tbl_zero. by rewrite (live_deref _ _ _ Hr Hl). Qed.

(** ** Creating and releasing windows *)

Lemma find_unlocked_spec ws : ∀ k,
  (0 < nfree ws)%nat →
  ∃ i w, find_unlocked ws k = Some (k + i)%nat ∧ ws !! i = Some w ∧ lock w = 0.
Proof using.
  unfold nfree. induction ws as [|w ws IH]; intros k Hn; simpl in *; [lia|].
  destruct (Z.eqb_spec (lock w) 0) as [E|E].
  - exists 0%nat, w. by rewrite Nat.add_0_r.
  - rewrite filter_cons_False in Hn by done.
    destruct (IH (Datatypes.S k) Hn) as (i & w' & -> & ? & ?).
    exists (Datatypes.S i), w'. split_and!; [f_equal; lia|done|done].
Qed.

Lemma nfree_insert ws i w w' :
  ws !! i = Some w →
  (nfree (<[i := w']> ws) + (if decide (lock w = 0%Z) then 1 else 0) =
   nfree ws + (if decide (lock w' = 0%Z) then 1 else 0))%nat.
Proof using.
  unfold nfree. revert i. induction ws as [|x ws IH]; intros [|i] Hi; simplify_eq/=.
  - rewrite !filter_cons. repeat case_decide; simpl; lia.
  - rewrite !filter_cons. specialize (IH i Hi). repeat case_decide; simpl in *; lia.
Qed.

Lemma window_map_set m i f fl :
  ready m → (i < 511)%nat → 0 ≤ fl →
  paging_physwindow_mmap m (paging_get_highest_page_map m) (slot_addr i) f fl =
  Ok (upd m (physwindow_pt_phys m) (<[i := leaf_entry 0 f fl]> (pt_frame m))).
Proof using.
  intros Hr Hi Hfl. unfold paging_physwindow_mmap. rewrite (rd_set m) by done.
  cbn [negb]. unfold tbl_write.
  assert (mem_vma_phys_window_start + 511 * PAGE_SIZE_4KB = slot_addr 511) as -> by done.
  destruct (rd_self m Hr) as [Hp Hph].
  rewrite (deref_slot m 511) by (done || lia). change (Z.of_nat 511) with 511.
  rewrite Hph. cbn [mbind res_bind]. fold (pt_frame m).
  assert (u64 (slot_addr i - mem_vma_phys_window_start) =
    slot_addr i - mem_vma_phys_window_start) as ->
    by (apply Z.mod_small; unfold slot_addr; lia).
  rewrite slot_index, aset_ok by (rewrite rd_len by done; lia).
  cbn [mbind res_bind]. by rewrite Nat2Z.id.
Qed.

Lemma at_insert_nat {A} `{Inhabited A} (l : list A) (i j : nat) (x : A) :
  (i < length l)%nat →
  at_ (<[i := x]> l) (Z.of_nat j) = if decide (i = j) then x else at_ l (Z.of_nat j).
Proof using.
  intros Hi. rewrite <- (Nat2Z.id i) at 1. rewrite at_insert by lia.
  destruct (decide (Z.of_nat i = Z.of_nat j)), (decide (i = j)); done || lia.
Qed.

(** The state after slot [i] was mapped to [f] and locked. *)
Definition opened m (i : nat) (f fl : Z) : machine S :=
  upd (set_windows m (<[i := mkWindow (slot_addr i) f 1 fl]> (windows m)))
    (physwindow_pt_phys m) (<[i := leaf_entry 0 f 3]> (pt_frame m)).

Lemma mem_create_opened m f fl :
  ready m → (0 < nfree (windows m))%nat →
  Z.land fl PHYS_WINDOW_FLAG_LOCK = PHYS_WINDOW_FLAG_LOCK →
  ∃ i w, windows m !! i = Some w ∧ lock w = 0 ∧
    mem_create_physwindow m f fl =
      Ok (PHYS_WINDOW_STATUS_OK, Some (slot_addr i), opened m i f fl).
Proof using.
  intros Hr Hn Hfl.
  destruct (find_unlocked_spec _ 0 Hn) as (i & w & E & Hw & Hl).
  exists i, w. split_and!; [done..|]. unfold mem_create_physwindow. rewrite E. simpl.
  fold (slot_addr i).
  set (m1 := set_windows m (<[i := mkWindow (slot_addr i) f 0 fl]> (windows m))).
  pose proof (lookup_lt_Some _ _ _ Hw) as Hi. pose proof (rd_count m Hr).
  assert (ready m1) as Hr1.
  { destruct Hr. split; try done; simpl; [by rewrite length_insert|].
    intros j x Hx. apply list_lookup_insert_Some in Hx as [(-> & <- & _)|[_ Hx]]; [by right|].
    by eapply rd_slots0. }
  assert (Z.lor (Z.lor (if fl =? PHYS_WINDOW_FLAG_READ then 1 else 0)
    (if fl =? PHYS_WINDOW_FLAG_WRITE then 2 else 0)) 3 = 3) as ->.
  { by destruct (fl =? PHYS_WINDOW_FLAG_READ), (fl =? PHYS_WINDOW_FLAG_WRITE). }
  rewrite window_map_set by (done || lia). cbn [mbind res_bind].
  rewrite Hfl, Z.eqb_refl. unfold opened, m1, upd, set_windows, set_ram. simpl.
  by rewrite list_insert_insert_eq.
Qed.

Lemma opened_spec m i w f fl :
  ready m → page_frame f → windows m !! i = Some w → lock w = 0 →
  let m' := opened m i f fl in
  ready m' ∧ live m' (slot_addr i) f ∧ same_tables m m' ∧
  (nfree (windows m') + 1 = nfree (windows m))%nat ∧
  ∀ v g, live m v g → v ≠ slot_addr i ∧ live m' v g.
Proof using.
  intros Hr Hf Hw Hl m'. destruct (leaf_entry_ok 0 f 3) as (Hb & Hm & Hp & _); [lia|].
  rewrite (frame_land_mask f) in Hm by done.
  pose proof (lookup_lt_Some _ _ _ Hw) as Hi. pose proof (rd_count m Hr) as Hc.
  pose proof (rd_len m Hr) as Hlen.
  assert (pt_frame m' = <[i := leaf_entry 0 f 3]> (pt_frame m)) as Ept.
  { unfold pt_frame at 1, m', opened. rewrite frame_upd. simpl. by rewrite decide_True. }
  assert (∀ j, (j ≠ i)%nat → at_ (pt_frame m') (Z.of_nat j) = at_ (pt_frame m) (Z.of_nat j))
    as Hother.
  { intros j Hj. rewrite Ept, at_insert_nat, decide_False by (done || lia). done. }
  split_and!.
  - split; simpl.
    + by apply rd_set.
    + by rewrite length_insert.
    + by apply rd_pt.
    + by rewrite Ept, length_insert.
    + rewrite Ept. apply words_insert; [by apply rd_words|lia].
    + change 511 with (Z.of_nat 511). rewrite Hother by lia. by apply rd_self.
    + intros j x Hx. apply list_lookup_insert_Some in Hx as [(-> & <- & _)|[_ Hx]];
        [by right|]. by eapply (rd_slots m).
  - exists i, (mkWindow (slot_addr i) f 1 fl). simpl.
    rewrite list_lookup_insert_eq by done. rewrite Ept, at_insert_nat, decide_True by lia.
    split_and!; done.
  - split; try done. intros g Hg. unfold m', opened. rewrite frame_upd, decide_False; done.
  - simpl. pose proof (nfree_insert _ _ _ (mkWindow (slot_addr i) f 1 fl) Hw) as E.
    rewrite decide_True, decide_False in E by (simpl; lia). lia.
  - intros v g (j & x & Hx & Hlk & Hv & -> & Hp' & Hm').
    assert (j ≠ i) as Hne by congruence. split.
    + intros E. by apply slot_addr_inj in E.
    + exists j, x. simpl. rewrite list_lookup_insert_ne by done.
      by rewrite Hother.
Qed.

Lemma get_table_spec m f :
  ready m → page_frame f → (0 < nfree (windows m))%nat →
  ∃ v m', get_table_vaddr m f = Ok (v, v, m') ∧ v ≠ 0 ∧
    ready m' ∧ live m' v f ∧ same_tables m m' ∧
    (nfree (windows m') + 1 = nfree (windows m))%nat ∧
    ∀ v' g, live m v' g → v' ≠ v ∧ live m' v' g.
Proof using.
  intros Hr Hf Hn.
  destruct (mem_create_opened m f (Z.lor PHYS_WINDOW_FLAG_WRITE PHYS_WINDOW_FLAG_LOCK)
    Hr Hn eq_refl) as (i & w & Hw & Hl & E).
  destruct (opened_spec m i w f (Z.lor PHYS_WINDOW_FLAG_WRITE PHYS_WINDOW_FLAG_LOCK)
    Hr Hf Hw Hl) as (? & ? & ? & ? & ?).
  do 2 eexists. unfold get_table_vaddr. rewrite (rd_set m) by done. cbn [negb].
  rewrite E. cbn [mbind res_bind]. split; [done|]. split; [apply slot_addr_nz|]. done.
Qed.

Lemma find_window_spec ws : ∀ k i w,
  (∀ j x, ws !! j = Some x → virt_addr x = 0 ∨ virt_addr x = slot_addr (k + j)) →
  ws !! i = Some w → virt_addr w = slot_addr (k + i) →
  find_window ws (slot_addr (k + i)) k = Some (k + i)%nat.
Proof using.
  induction ws as [|x ws IH]; intros k i w Hs Hi Hv; [done|].
  destruct i as [|i]; simplify_eq/=.
  - rewrite Nat.add_0_r in *. by rewrite Hv, Z.eqb_refl.
  - destruct (Z.eqb_spec (virt_addr x) (slot_addr (k + Datatypes.S i))) as [E|E].
    + destruct (Hs 0%nat x eq_refl) as [E0|E0]; rewrite E0 in E.
      * by destruct (slot_addr_nz (k + Datatypes.S i)).
      * apply slot_addr_inj in E. lia.
    + replace (k + Datatypes.S i)%nat with (Datatypes.S k + i)%nat in * by lia.
      apply (IH _ _ w); [|done|done].
      intros j y Hj. replace (Datatypes.S k + j)%nat with (k + Datatypes.S j)%nat by lia.
      by apply Hs.
Qed.

Lemma release_spec m v f :
  ready m → live m v f →
  let m' := release_table_vaddr m v in
  ready m' ∧ same_tables m m' ∧ mram m' = mram m ∧
  (nfree (windows m') = nfree (windows m) + 1)%nat ∧
  ∀ v' g, v' ≠ v → live m v' g → live m' v' g.
Proof using.
  intros Hr (i & w & Hw & Hlk & Hv & -> & Hp & Hm) m'.
  assert (m' = set_windows m
    (<[i := mkWindow (virt_addr w) (phys_addr w) 0 (flag w)]> (windows m))) as ->.
  { unfold m', release_table_vaddr, mem_release_physwindow. rewrite (rd_set m) by done.
    destruct (Z.eqb_spec (slot_addr i) 0) as [E|_]; [by destruct (slot_addr_nz i)|]. simpl.
    rewrite (find_window_spec _ 0 i w) by (done || apply (rd_slots m Hr)). simpl. by rewrite Hw. }
  split_and!.
  - destruct Hr. split; try done; simpl; [by rewrite length_insert|].
    intros j x Hx. apply list_lookup_insert_Some in Hx as [(-> & <- & _)|[_ Hx]];
      [by right|]. by eapply rd_slots0.
  - by split.
  - done.
  - simpl. pose proof (nfree_insert _ _ _
      (mkWindow (virt_addr w) (phys_addr w) 0 (flag w)) Hw) as E.
    rewrite decide_False, decide_True in E by done. lia.
  - intros v' g Hne (j & x & Hx & Hrest). exists j, x. simpl.
    rewrite list_lookup_insert_ne; [done|]. intros <-. destruct Hrest as (_ & _ & -> & _).
    done.
Qed.

Lemma live_nz m v f : live m v f → v ≠ 0.
Proof using. intros (i & w & _ & _ & _ & -> & _). apply slot_addr_nz. Qed.

End access.
