(* ===== verification/PagingMap.v ===== *)
(** * Page-table translation

    The walk of [paging_get_entry_ext] as a function of RAM ([walk]: the address
    and the access bits it leads to), the
    well-formedness of a page-table tree, and the proof that [_mmap_internal]
    changes the translation of exactly the page it is asked to map, through
    allocation of missing tables and splitting of huge pages. *)

From S2P Require Import Prelude Bitmap Frames Paging PagingWin.

(** ** Translation *)

Definition is_leaf (l : nat) (e : Z) : bool :=
  ((l =? 2)%nat || (l =? 1)%nat) && has e PAGE_HUGE.

(** What is read off the entry [e] of a page at level [l] for address [va]. *)
Definition view : Type := Z → Z → Z → Z.

(** What the walk reads at an entry [e] of a level-[l] table, nothing when it
    is not present; [next] continues the walk in the table it points to. *)
Definition walk_entry (w : view) (next : Z → Z) (l : nat) (e va : Z) : Z :=
  if negb (has e 1) then 0
  else if is_leaf l e then w e (Z.of_nat l) va
  else match l with
       | O => w e 0 va
       | S _ => next (Z.land e PAGE_PHYS_MASK)
       end.

(** The walk from the level-[l] table in frame [f]. *)
Fixpoint walk (w : view) (l : nat) (r : ram) (f va : Z) : Z :=
  walk_entry w (λ c, match l with O => 0 | S l' => walk w l' r c va end) l
    (at_ (frame r f) (pt_index l va)) va.

(** The walk continued below a level-[l] entry. *)
Definition walk_next (w : view) (l : nat) (r : ram) (va c : Z) : Z :=
  match l with O => 0 | S l' => walk w l' r c va end.

Lemma walk_unfold w l r f va :
  walk w l r f va = walk_entry w (walk_next w l r va) l (at_ (frame r f) (pt_index l va)) va.
Proof. by destruct l. Qed.

(** The address translation, and the access bits of the page's entry. *)
Definition xl : nat → ram → Z → Z → Z := walk entry_paddr.

Definition ACCESS : Z := Z.lor (Z.lor (Z.lor (Z.lor PAGE_PRESENT PAGE_WRITABLE) PAGE_USER) PAGE_COW) PAGE_NO_EXECUTE.
Definition access_view : view := λ e _ _, Z.land e ACCESS.
Definition xa : nat → ram → Z → Z → Z := walk access_view.

(** The access bits of a new leaf are those of the flags, and the parts of a
    split huge page have its access bits. *)
Lemma leaf_entry_access t phys flags : Z.land (leaf_entry t phys flags) ACCESS = Z.land flags ACCESS.
Proof.
  assert (∀ x, Z.land (Z.land x PAGE_PHYS_MASK) ACCESS = 0) as Hm by (intros x; by rewrite <- Z.land_assoc, Z.land_0_r).
  unfold leaf_entry. destruct (t =? 0)%nat; rewrite !Z.land_lor_distr_l, Hm, <- Z.land_assoc, Z.lor_0_l; [done|]. apply Z.lor_0_r.
Qed.

Lemma split_entry_access t e i :
  t = 1%nat ∨ t = 2%nat → Z.land e PAGE_PHYS_MASK mod 2 ^ (12 + 9 * Z.of_nat t) = 0 → 0 ≤ i < 512 →
  Z.land (split_entry t e i) ACCESS = Z.land e ACCESS.
Proof.
  intros Ht Hal Hi. destruct (split_phys t e i Ht Hal Hi) as [Eu Hn]. unfold split_entry. rewrite Eu. clear Eu. revert Hn. generalize (Z.land e PAGE_PHYS_MASK + i * 2 ^ (12 + 9 * (Z.of_nat t - 1))). intros x Hn.
  assert (Z.land x ACCESS = 0) as Hx by (rewrite <- (frame_land_mask x Hn), <- Z.land_assoc; apply Z.land_0_r).
  assert (Z.land (Z.lor x (Z.land e (not64 PAGE_PHYS_MASK))) ACCESS = Z.land e ACCESS) as E
    by (by rewrite Z.land_lor_distr_l, Hx, Z.lor_0_l, <- Z.land_assoc).
  destruct (t =? 1)%nat; [|done]. rewrite <- Z.land_assoc, (Z.land_comm (not64 _)), Z.land_assoc, E, <- Z.land_assoc. done.
Qed.

(** ** Page-table trees *)

Definition window_vpn : Z := vpn 1 mem_vma_phys_window_start.

(** [own] labels every table frame of the tree with its level and the virtual
    page number its entries share; the label of a child follows from its
    parent's entry, so no frame is reached on two paths.  The window area's
    page table [pt] may be one of the leaves. *)
Record pt_ok (own : gmap Z (nat * Z)) (r : ram) (pt root : Z) : Prop := {
  po_root : own !! root = Some (3%nat, 0);
  po_window l p : own !! pt = Some (l, p) → l = 0%nat ∧ p = window_vpn;
  po_frame f l p : own !! f = Some (l, p) → page_frame f ∧ (l ≤ 3)%nat;
  po_words f l p : own !! f = Some (l, p) → f ≠ pt → words 64 (frame r f);
  po_child f l p i : own !! f = Some (S l, p) → 0 ≤ i < 512 →
    has (at_ (frame r f) i) 1 = true → is_leaf (S l) (at_ (frame r f) i) = false →
    own !! Z.land (at_ (frame r f) i) PAGE_PHYS_MASK = Some (l, p * 512 + i);
  po_huge f l p i : own !! f = Some (l, p) → f ≠ pt → 0 ≤ i < 512 →
    has (at_ (frame r f) i) 1 = true → has (at_ (frame r f) i) PAGE_HUGE = true →
    (l = 1%nat ∨ l = 2%nat) ∧
    Z.land (at_ (frame r f) i) PAGE_PHYS_MASK mod 2 ^ (12 + 9 * Z.of_nat l) = 0 }.

Lemma vpn_mono a b va va' :
  (a ≤ b)%nat → (b ≤ 4)%nat → vpn a va = vpn a va' → vpn b va = vpn b va'.
Proof.
  induction 1 as [|b Hab IH]; intros Hb E; [done|].
  apply vpn_eq_up; [lia|]. apply IH; [lia|done].
Qed.

Section tree.
Context (own : gmap Z (nat * Z)) (r : ram) (pt root : Z) (w : view).
Hypothesis Hpt : pt_ok own r pt root.

(** The frame of a path outside the window area is not the window table. *)
Lemma label_not_window f l va :
  vpn 1 va ≠ window_vpn → own !! f = Some (l, vpn (S l) va) → f ≠ pt.
Proof using Hpt.
  intros Hw Hf ->. destruct (po_window _ _ _ _ Hpt _ _ Hf) as [-> E]. done.
Qed.

Lemma child_label f l va :
  own !! f = Some (S l, vpn (S (S l)) va) →
  has (at_ (frame r f) (pt_index (S l) va)) 1 = true →
  is_leaf (S l) (at_ (frame r f) (pt_index (S l) va)) = false →
  own !! Z.land (at_ (frame r f) (pt_index (S l) va)) PAGE_PHYS_MASK =
    Some (l, vpn (S l) va).
Proof using Hpt.
  intros Hf Hp Hl. destruct (po_frame _ _ _ _ Hpt _ _ _ Hf) as [_ ?].
  rewrite (vpn_step (S l) va) by lia.
  apply (po_child _ _ _ _ Hpt); [done|apply pt_index_range|done..].
Qed.

(** The walk depends on the frames of its own path only. *)
Lemma walk_ext r' l : ∀ f va,
  own !! f = Some (l, vpn (S l) va) →
  (∀ g k, (k ≤ l)%nat → own !! g = Some (k, vpn (S k) va) → frame r' g = frame r g) →
  walk w l r' f va = walk w l r f va.
Proof using Hpt.
  induction l as [|l IH]; intros f va Hf Hext; rewrite !walk_unfold;
    rewrite (Hext f _ (le_n _) Hf); [done|].
  unfold walk_entry. destruct (has _ 1) eqn:Hp; simpl; [|done].
  destruct (is_leaf _ _) eqn:Hl; [done|].
  apply IH; [by apply child_label|]. intros g k Hk. apply Hext. lia.
Qed.

(** The walk of [va] from [f] at level [l] reaches the table [ft] of level
    [lt]. *)
Fixpoint descends (r : ram) (va : Z) (l : nat) (f : Z) (lt : nat) (ft : Z) : Prop :=
  (l = lt ∧ f = ft) ∨
  match l with
  | O => False
  | S l' =>
      has (at_ (frame r f) (pt_index l va)) 1 = true ∧
      is_leaf l (at_ (frame r f) (pt_index l va)) = false ∧
      descends r va l' (Z.land (at_ (frame r f) (pt_index l va)) PAGE_PHYS_MASK) lt ft
  end.

Lemma descends_le r0 va l : ∀ f lt ft, descends r0 va l f lt ft → (lt ≤ l)%nat.
Proof using.
  induction l as [|l IH]; intros f lt ft; simpl; intros [[<- _]|Hd]; try lia.
  destruct Hd as (_ & _ & Hd). apply IH in Hd. lia.
Qed.

Lemma descends_snoc r0 va l : ∀ f lt ft,
  descends r0 va l f (S lt) ft →
  has (at_ (frame r0 ft) (pt_index (S lt) va)) 1 = true →
  is_leaf (S lt) (at_ (frame r0 ft) (pt_index (S lt) va)) = false →
  descends r0 va l f lt (Z.land (at_ (frame r0 ft) (pt_index (S lt) va)) PAGE_PHYS_MASK).
Proof using.
  induction l as [|l IH]; intros f lt ft; simpl; intros Hd Hp Hl.
  - destruct Hd as [[? _]|[]]; done.
  - right. destruct Hd as [[E ->]|(? & ? & Hd)].
    + injection E as ->. split_and!; [done..|]. destruct lt; simpl; by left.
    + split_and!; [done..|]. by apply IH.
Qed.

(** A path survives changes of frames below its end. *)
Lemma descends_ext r' va l : ∀ f lt ft,
  own !! f = Some (l, vpn (S l) va) → descends r va l f lt ft →
  (∀ g k, (lt < k)%nat → own !! g = Some (k, vpn (S k) va) → frame r' g = frame r g) →
  descends r' va l f lt ft.
Proof using Hpt.
  induction l as [|l IH]; intros f lt ft Hf Hd Hext; simpl in *.
  - tauto.
  - destruct Hd as [?|(Hp & Hl & Hd)]; [by left|right].
    pose proof (descends_le _ _ _ _ _ _ Hd).
    rewrite (Hext f (S l)) by (done || lia). split_and!; [done..|].
    apply IH; [|done|done]. by apply child_label.
Qed.

(** ** Changing one entry *)

(** [r'] has the entry of [va] in the level-[lt] table [ft] replaced by [e'],
    and the other frames of the tree unchanged. *)
Lemma walk_update r' va lt ft e' :
  own !! ft = Some (lt, vpn (S lt) va) → length (frame r ft) = 512%nat →
  (∀ g l p, own !! g = Some (l, p) → g ≠ pt → frame r' g =
     if decide (g = ft) then <[Z.to_nat (pt_index lt va) := e']> (frame r ft)
     else frame r g) →
  ∀ l f va', own !! f = Some (l, vpn (S l) va) → descends r va l f lt ft →
  vpn (S l) va' = vpn (S l) va → vpn 1 va' ≠ window_vpn → vpn 1 va ≠ window_vpn →
  walk w l r' f va' =
    if decide (vpn lt va' = vpn lt va) then walk_entry w (walk_next w lt r' va') lt e' va'
    else walk w l r f va'.
Proof using Hpt.
  intros Hft Hlen Hr'. destruct (po_frame _ _ _ _ Hpt _ _ _ Hft) as [_ Hlt].
  (* subtrees on another path *)
  assert (Hsub : ∀ l f va', own !! f = Some (l, vpn (S l) va') → vpn 1 va' ≠ window_vpn →
    (lt ≤ l → vpn (S lt) va' ≠ vpn (S lt) va)%nat → walk w l r' f va' = walk w l r f va').
  { intros l f va' Hf Hw Hdiff. apply walk_ext; [done|]. intros g k Hk Hg.
    rewrite (Hr' _ _ _ Hg) by (by eapply label_not_window).
    destruct (decide (g = ft)) as [->|]; [|done].
    rewrite Hft in Hg. injection Hg as -> E. exfalso. by apply Hdiff. }
  induction l as [|l IH]; intros f va' Hf Hd Ev Hw' Hw.
  - destruct Hd as [[<- <-]|[]].
    rewrite (walk_unfold _ _ r'), (Hr' _ _ _ Hf) by (by eapply label_not_window).
    rewrite decide_True by done. pose proof (pt_index_range 0 va).
    pose proof (pt_index_range 0 va').
    rewrite at_insert by lia. destruct (decide (vpn 0 va' = vpn 0 va)) as [E|E].
    + apply vpn_eq_up in E as [_ ->]; [|lia]. by rewrite decide_True.
    + rewrite decide_False.
      2: { intros Ei. apply E. rewrite !(vpn_step 0) by lia. congruence. }
      by rewrite (walk_unfold _ _ r).
  - pose proof (pt_index_range (S l) va). pose proof (pt_index_range (S l) va').
    destruct (po_frame _ _ _ _ Hpt _ _ _ Hf) as [_ Hl3].
    assert (Hchild : ∀ e, e = at_ (frame r f) (pt_index (S l) va') →
      has e 1 = true → is_leaf (S l) e = false →
      own !! Z.land e PAGE_PHYS_MASK = Some (l, vpn (S l) va')).
    { intros e ->. apply child_label. by rewrite Ev. }
    destruct Hd as [[<- <-]|(Hp & Hl & Hd)].
    + rewrite (walk_unfold _ _ r'), (Hr' _ _ _ Hf) by (by eapply label_not_window).
      rewrite decide_True by done. rewrite at_insert by lia.
      destruct (decide (vpn (S l) va' = vpn (S l) va)) as [E|E].
      * apply vpn_eq_up in E as [_ ->]; [|lia]. by rewrite decide_True.
      * rewrite decide_False.
        2: { intros Ei. apply E. rewrite !(vpn_step (S l)) by lia. congruence. }
        rewrite (walk_unfold _ _ r). unfold walk_entry.
        destruct (has _ 1) eqn:Hp; simpl; [|done]. destruct (is_leaf _ _) eqn:Hl; [done|].
        apply Hsub; [by apply Hchild|done|lia].
    + pose proof (descends_le _ _ _ _ _ _ Hd) as Hle.
      rewrite (walk_unfold _ _ r'), (Hr' _ _ _ Hf) by (by eapply label_not_window).
      rewrite decide_False.
      2: { intros ->. rewrite Hft in Hf. injection Hf. lia. }
      destruct (decide (vpn (S l) va' = vpn (S l) va)) as [E|E].
      * destruct (vpn_eq_up _ _ _ Hl3 E) as [_ Ei].
        unfold walk_entry. rewrite Ei, Hp, Hl. cbn [negb walk_next].
        rewrite (IH _ va'); try done; [|by apply child_label].
        destruct (decide (vpn lt va' = vpn lt va)); [done|].
        rewrite (walk_unfold _ (S l) r). unfold walk_entry. by rewrite Ei, Hp, Hl.
      * rewrite decide_False.
        2: { intros El. apply E. by apply (vpn_mono lt); [lia|lia|]. }
        rewrite (walk_unfold _ _ r). unfold walk_entry.
        destruct (has (at_ _ (pt_index _ va')) 1) eqn:Hp'; simpl; [|done].
        destruct (is_leaf _ (at_ _ (pt_index _ va'))) eqn:Hl'; [done|].
        apply Hsub; [by apply Hchild|done|]. intros _ El. apply E.
        by apply (vpn_mono (S lt)); [lia|lia|].
Qed.

End tree.
