(* ===== verification/PagingOps.v ===== *)
(** * Mapping pages

    [_mmap_internal] on a well-formed page-table tree: it returns, keeps the
    tree well formed, gives back the windows it takes, and changes the
    translation of the page it maps and of no other. *)

From S2P Require Import Prelude Bitmap Frames Paging PagingWin PagingMap.

Section ops.
Context {S : Type} `{FrameSource S}.
Implicit Types m : machine S.

(** ** The state the operations work on *)

Record tables (own : gmap Z (nat * Z)) m (root : Z) : Prop := {
  tb_ready : ready m;
  tb_len : ∀ g, length (frame (mram m) g) = 512%nat;
  tb_pt : pt_ok own (mram m) (physwindow_pt_phys m) root;
  tb_used f : is_Some (own !! f) → fs_used (msrc m) f;
  tb_used_pt : fs_used (msrc m) (physwindow_pt_phys m);
  tb_src : fs_ok (msrc m) }.

Record same_config m m' : Prop := {
  sc_set : paging_has_been_set m' = paging_has_been_set m;
  sc_hhdm : g_hhdm_offset m' = g_hhdm_offset m;
  sc_kernel : kernel_pml4 m' = kernel_pml4 m;
  sc_pt : physwindow_pt_phys m' = physwindow_pt_phys m;
  sc_cr3 : cr3 m' = cr3 m }.

Lemma same_config_refl m : same_config m m.
Proof using. by split. Qed.
Lemma same_config_trans m1 m2 m3 : same_config m1 m2 → same_config m2 m3 → same_config m1 m3.
Proof using. intros [] []. split; congruence. Qed.
Lemma same_tables_config m m' : same_tables m m' → same_config m m'.
Proof using. intros []. by split. Qed.

(** What a mapping leaves alone: frames in use that are not part of the
    tree keep their contents and stay out of it. *)
Record kept (own : gmap Z (nat * Z)) m (own' : gmap Z (nat * Z)) m' : Prop := {
  kp_config : same_config m m';
  kp_used f : fs_used (msrc m) f → fs_used (msrc m') f;
  kp_own f : is_Some (own' !! f) → is_Some (own !! f) ∨ ¬ fs_used (msrc m) f;
  kp_frames g : fs_used (msrc m) g → own !! g = None → g ≠ physwindow_pt_phys m →
    frame (mram m') g = frame (mram m) g }.

Lemma kept_out own m own' m' g : kept own m own' m' → fs_used (msrc m) g → own !! g = None → own' !! g = None.
Proof using.
  intros [_ _ Ho _] Hu Hg. apply eq_None_not_Some. intros Hs. destruct (Ho g Hs) as [[? E]|]; [congruence|done].
Qed.

Lemma kept_trans own m own1 m1 own2 m2 : kept own m own1 m1 → kept own1 m1 own2 m2 → kept own m own2 m2.
Proof using.
  intros H1 H2. destruct (H1) as [Hc1 Hu1 Ho1 Hf1], (H2) as [Hc2 Hu2 Ho2 Hf2]. split.
  - by eapply same_config_trans.
  - auto.
  - intros f Hf. destruct (Ho2 f Hf) as [?|Hn]; [auto|]. right. intros Hu. by apply Hn, Hu1.
  - intros g Hu Hg Hp. rewrite Hf2, Hf1; auto; [by eapply kept_out|]. by rewrite (sc_pt _ _ Hc1).
Qed.

Lemma kept_windows own m m' : same_tables m m' → kept own m own m'.
Proof using.
  intros Hst. split; [by apply same_tables_config|..]; destruct Hst as [Hs _ _ _ _ _ Hf]; [by rewrite Hs|auto|auto].
Qed.

Lemma kept_upd own m f t : is_Some (own !! f) → kept own m own (upd m f t).
Proof using.
  intros [x Hf]. split; [by split|auto|auto|]. intros g _ Hg _. rewrite frame_upd, decide_False; [done|]. intros ->. congruence.
Qed.

Lemma pt_ok_ext own r r' pt root :
  (∀ g, is_Some (own !! g) → g ≠ pt → frame r' g = frame r g) →
  pt_ok own r pt root → pt_ok own r' pt root.
Proof using.
  intros Hext Hpt. destruct (Hpt) as [? Hw ? Hwd Hc Hh].
  assert (∀ f l p, own !! f = Some (Datatypes.S l, p) → f ≠ pt) as Hn.
  { intros f l p Hf ->. by destruct (Hw _ _ Hf). }
  split; try done.
  - intros f l p Hf Hne. rewrite Hext by done. by eapply Hwd.
  - intros f l p i Hf Hi. rewrite Hext by (done || by eapply Hn). by apply (Hc f l p).
  - intros f l p i Hf Hne Hi. rewrite Hext by done. by apply (Hh f l p).
Qed.

Lemma tables_windows own m m' root :
  tables own m root → same_tables m m' → ready m' → tables own m' root.
Proof using.
  intros [] [] Hr. split.
  - done.
  - intros g. destruct (decide (g = physwindow_pt_phys m)) as [->|].
    + rewrite <- st_pt. by apply (rd_len m').
    + by rewrite st_frames.
  - rewrite st_pt. eapply pt_ok_ext; [|done]. intros. by apply st_frames.
  - rewrite st_src. done.
  - by rewrite st_src, st_pt.
  - by rewrite st_src.
Qed.

(** Writing a frame that is not part of the tree. *)
Lemma tables_upd_fresh own m root f t :
  tables own m root → own !! f = None → f ≠ physwindow_pt_phys m → length t = 512%nat →
  tables own (upd m f t) root.
Proof using.
  intros [] Hf Hp Hlen. split; try done.
  - by apply upd_ready.
  - intros g. rewrite frame_upd. by case_decide.
  - simpl. eapply pt_ok_ext; [|done]. intros g [x Hg] _.
    change (mram (upd m f t)) with (<[f := t]> (mram m)).
    rewrite frame_insert, decide_False; [done|]. intros ->. congruence.
Qed.

(** Putting such a frame into the tree as a table without children. *)
Lemma tables_add own m root f l p :
  tables own m root → own !! f = None → f ≠ physwindow_pt_phys m → page_frame f →
  fs_used (msrc m) f → (l ≤ 2)%nat → words 64 (frame (mram m) f) →
  (∀ i, 0 ≤ i < 512 → has (at_ (frame (mram m) f) i) 1 = true →
     (l = 0%nat ∨ is_leaf l (at_ (frame (mram m) f) i) = true) ∧
     (has (at_ (frame (mram m) f) i) PAGE_HUGE = true → (l = 1%nat ∨ l = 2%nat) ∧
        Z.land (at_ (frame (mram m) f) i) PAGE_PHYS_MASK mod 2 ^ (12 + 9 * Z.of_nat l) = 0)) →
  tables (<[f := (l, p)]> own) m root.
Proof using.
  intros [] Hf Hp Hpf Hu Hl Hw Hent. destruct tb_pt0. split; try done.
  - split.
    + rewrite lookup_insert_ne; [done|]. intros ->. congruence.
    + intros k q. rewrite lookup_insert_ne by congruence. apply po_window.
    + intros g k q Hg. apply lookup_insert_Some in Hg as [[<- [= <- <-]]|[_ Hg]].
      * split; [done|lia].
      * by eapply po_frame.
    + intros g k q Hg. apply lookup_insert_Some in Hg as [[<- [= <- <-]]|[_ Hg]]; [done|].
      by eapply po_words.
    + intros g k q i Hg Hi Hpr Hlf. apply lookup_insert_Some in Hg as [[<- [= -> <-]]|[_ Hg]].
      * destruct (Hent i Hi Hpr) as [[?|E] _]; [done|]. congruence.
      * pose proof (po_child _ _ _ _ Hg Hi Hpr Hlf) as Hc.
        rewrite lookup_insert_ne; [done|]. intros ->. congruence.
    + intros g k q i Hg Hne Hi Hpr Hh.
      apply lookup_insert_Some in Hg as [[<- [= <- <-]]|[_ Hg]].
      * by apply (Hent i Hi Hpr).
      * by eapply po_huge.
  - intros g Hg. destruct (decide (g = f)) as [->|]; [done|].
    rewrite lookup_insert_ne in Hg by done. by apply tb_used0.
Qed.

(** Replacing one entry of a table of the tree. *)
Lemma tables_set_entry own m root f l p i e :
  tables own m root → own !! f = Some (l, p) → f ≠ physwindow_pt_phys m →
  0 ≤ i < 512 → 0 ≤ e < 2 ^ 64 →
  (has e 1 = true → has e PAGE_HUGE = true → (l = 1%nat ∨ l = 2%nat) ∧
     Z.land e PAGE_PHYS_MASK mod 2 ^ (12 + 9 * Z.of_nat l) = 0) →
  (∀ l', l = Datatypes.S l' → has e 1 = true → is_leaf l e = false →
     own !! Z.land e PAGE_PHYS_MASK = Some (l', p * 512 + i)) →
  tables own (upd m f (<[Z.to_nat i := e]> (frame (mram m) f))) root.
Proof using.
  intros [] Hf Hp Hi He Hhuge Hch. destruct tb_pt0.
  assert (Hfr : ∀ g, frame (mram (upd m f (<[Z.to_nat i := e]> (frame (mram m) f)))) g =
    if decide (f = g) then <[Z.to_nat i := e]> (frame (mram m) f) else frame (mram m) g)
    by (intros; apply frame_upd).
  split; try done.
  - by apply upd_ready.
  - intros g. rewrite Hfr. case_decide; [by rewrite length_insert|done].
  - split; try done.
    + intros g k q Hg Hne. rewrite Hfr. case_decide as E.
      * apply words_insert; [|done]. by eapply po_words.
      * by eapply po_words.
    + intros g k q j Hg Hj. rewrite Hfr. case_decide as E; [|by apply po_child].
      subst g. rewrite Hf in Hg. injection Hg as -> <-.
      rewrite at_insert by (rewrite ?tb_len0; lia).
      case_decide as Ej; [|by apply po_child]. subst j. intros. by apply Hch.
    + intros g k q j Hg Hne Hj. rewrite Hfr. case_decide as E; [|by apply (po_huge g k q)].
      subst g. rewrite Hf in Hg. injection Hg as <- <-.
      rewrite at_insert by (rewrite ?tb_len0; lia).
      case_decide as Ej; [done|by apply (po_huge f l p)].
Qed.

(** ** Fresh tables *)

(** What a call that allocates, fills and releases one frame does. *)
Definition fresh_table (own : gmap Z (nat * Z)) m (root next : Z) (t : list Z) m' : Prop :=
  tables own m' root ∧ page_frame next ∧ own !! next = None ∧
  next ≠ physwindow_pt_phys m ∧ fs_used (msrc m') next ∧ frame (mram m') next = t ∧
  (∀ g, g ≠ next → g ≠ physwindow_pt_phys m → frame (mram m') g = frame (mram m) g) ∧
  nfree (windows m') = nfree (windows m) ∧
  fs_avail (msrc m') = fs_avail (msrc m) - 1 ∧
  (∀ v g, live m v g → live m' v g) ∧ ¬ fs_used (msrc m) next ∧ kept own m own m'.

Lemma fresh_frame_spec own m root (fill : machine S → Z → res (machine S)) t :
  tables own m root → 0 < fs_avail (msrc m) → (0 < nfree (windows m))%nat →
  length t = 512%nat →
  (∀ m1 v f, ready m1 → live m1 v f → f ≠ physwindow_pt_phys m1 →
     length (frame (mram m1) f) = 512%nat → fill m1 v = Ok (upd m1 f t)) →
  ∃ next m',
    ('(next, m) ← alloc_frame m; '(p_tmp, v_tmp, m) ← get_table_vaddr m next;
     m ← fill m p_tmp; Ok (next, release_table_vaddr m v_tmp)) = Ok (next, m') ∧
    fresh_table own m root next t m'.
Proof using.
  intros Ht Hav Hn Hlen Hfill. destruct (Ht) as [Hr Hl Hp Hu Hupt Hs].
  destruct (fs_alloc_frame (msrc m) Hs Hav)
    as (next & s & E & Hs' & Hpf & Hnz & Hfresh & Hused & Hav').
  assert (own !! next = None) as Hon.
  { apply eq_None_not_Some. intros Hsome. by apply Hfresh, Hu. }
  assert (next ≠ physwindow_pt_phys m) as Hnp by (intros ->; done).
  unfold alloc_frame. rewrite E. cbn [mbind res_bind].
  set (m1 := set_src m s).
  assert (tables own m1 root) as Ht1.
  { split; try done; [by destruct Hr|..]; simpl; intros; apply Hused; left; auto. }
  destruct (get_table_spec m1 next) as (v & m2 & E2 & _ & Hr2 & Hlv2 & Hst2 & Hn2 & Hpres2);
    [by destruct Ht1|done|done|].
  rewrite E2. cbn [mbind res_bind]. destruct (Hst2).
  assert (tables own m2 root) as Ht2 by (by eapply tables_windows).
  rewrite (Hfill m2 v next); [|done|done|by rewrite st_pt|apply (tb_len _ _ _ Ht2)].
  cbn [mbind res_bind]. set (m3 := upd m2 next t).
  assert (next ≠ physwindow_pt_phys m2) as Hnp2 by (by rewrite st_pt).
  assert (tables own m3 root) as Ht3 by (by apply tables_upd_fresh).
  destruct (release_spec m3 v next) as (Hr4 & Hst4 & Er4 & Hn4 & Hpres4);
    [by apply Ht3|by apply upd_live|].
  do 2 eexists. split; [done|]. set (m4 := release_table_vaddr m3 v) in *.
  assert (∀ g, frame (mram m4) g = if decide (next = g) then t else frame (mram m2) g) as Hfr.
  { intros g. rewrite Er4. apply frame_upd. }
  destruct (Hst4). unfold fresh_table. split_and!; try done.
  - by eapply tables_windows.
  - rewrite st_src0. simpl. rewrite st_src. apply Hused. by right.
  - rewrite Hfr. by rewrite decide_True.
  - intros g Hg1 Hg2. rewrite Hfr, decide_False by done. rewrite st_frames; done.
  - simpl in *. rewrite Hn4. simpl. lia.
  - rewrite st_src0. simpl. by rewrite st_src.
  - intros v' g Hlv. destruct (Hpres2 v' g) as [Hne Hlv']; [done|].
    apply Hpres4; [done|]. by apply upd_live.
  - apply same_tables_config in Hst4, Hst2. split.
    + eapply same_config_trans; [|exact Hst4]. destruct Hst2. by split.
    + intros g Hg. rewrite st_src0. simpl. rewrite st_src. apply Hused. by left.
    + auto.
    + intros g Hg Hg1 Hg2. rewrite Hfr, decide_False by (intros ->; done). by rewrite st_frames.
Qed.

Lemma new_table_spec own m root :
  tables own m root → 0 < fs_avail (msrc m) → (0 < nfree (windows m))%nat →
  ∃ next m', new_table m = Ok (next, m') ∧ fresh_table own m root next zero_frame m'.
Proof using.
  intros. apply (fresh_frame_spec own m root tbl_zero); try done.
  intros. by apply tbl_zero_live.
Qed.

Lemma upd_upd m f t t' : upd (upd m f t) f t' = upd m f t'.
Proof using. unfold upd, set_ram. simpl. by rewrite insert_insert_eq. Qed.

(** The table a split writes. *)
Definition split_frame (level : nat) (e : Z) : list Z :=
  map (λ k, split_entry level e (Z.of_nat k)) (seq 0 512).

Lemma split_fill_spec level e v f n : ∀ m (i : nat),
  ready m → live m v f → f ≠ physwindow_pt_phys m →
  length (frame (mram m) f) = 512%nat → (i + n = 512)%nat →
  (∀ k, (k < i)%nat → frame (mram m) f !! k = Some (split_entry level e (Z.of_nat k))) →
  split_fill n m v level e (Z.of_nat i) =
    Ok (if decide (n = 0%nat) then m else upd m f (split_frame level e)).
Proof using.
  induction n as [|n IH]; intros m i Hr Hlv Hp Hlen Hi Hdone; simpl; [done|].
  rewrite (tbl_write_live _ _ f) by (done || lia). cbn [mbind res_bind].
  rewrite Nat2Z.id. set (m1 := upd m f _).
  assert (frame (mram m1) f = <[i := split_entry level e (Z.of_nat i)]> (frame (mram m) f))
    as Ef by (unfold m1; rewrite frame_upd; by rewrite decide_True).
  replace (Z.of_nat i + 1) with (Z.of_nat (Datatypes.S i)) by lia.
  rewrite (IH m1 (Datatypes.S i)).
  - f_equal. unfold m1. case_decide as E; [|by rewrite upd_upd]. subst n.
    f_equal. apply list_eq_same_length with 512%nat.
    + unfold split_frame. by rewrite length_map, length_seq.
    + by rewrite length_insert.
    + intros k x y Hk Hx Hy. unfold split_frame in Hy.
      rewrite list_lookup_fmap, lookup_seq_lt in Hy by done. simplify_eq/=.
      destruct (decide (k = i)) as [->|].
      * rewrite list_lookup_insert_eq in Hx by lia. congruence.
      * rewrite list_lookup_insert_ne, Hdone in Hx by lia. congruence.
  - by apply upd_ready.
  - by apply upd_live.
  - done.
  - by rewrite Ef, length_insert.
  - lia.
  - intros k Hk. rewrite Ef. destruct (decide (k = i)) as [->|].
    + apply list_lookup_insert_eq. lia.
    + rewrite list_lookup_insert_ne by done. apply Hdone. lia.
Qed.

Lemma split_table_spec own m root level e :
  tables own m root → 0 < fs_avail (msrc m) → (0 < nfree (windows m))%nat →
  ∃ next m', split_table m level e = Ok (next, m') ∧
    fresh_table own m root next (split_frame level e) m'.
Proof using.
  intros. apply (fresh_frame_spec own m root (λ m v, split_fill 512 m v level e 0)); try done.
  intros m1 v f Hr Hlv Hf Hlen.
  apply (split_fill_spec level e v f 512 m1 0 Hr Hlv Hf Hlen eq_refl). lia.
Qed.

Lemma at_split_frame level e i :
  0 ≤ i < 512 → at_ (split_frame level e) i = split_entry level e i.
Proof using.
  intros Hi. unfold at_, split_frame. apply list_lookup_total_correct.
  rewrite list_lookup_fmap, lookup_seq_lt by lia. simpl. f_equal. f_equal. lia.
Qed.

(** ** One level of the walk *)

Lemma offset_split l va :
  (l ≤ 1)%nat → va mod 2 ^ (12 + 9 * Z.of_nat (Datatypes.S l)) =
    pt_index l va * 2 ^ (12 + 9 * Z.of_nat l) + va mod 2 ^ (12 + 9 * Z.of_nat l).
Proof using.
  intros Hl. unfold pt_index. change 0x1FF with (2 ^ 9 - 1).
  rewrite land_low, Z.shiftr_div_pow2 by lia.
  destruct l as [|[|l]]; [| |lia].
  - change (2 ^ (12 + 9 * Z.of_nat 1)) with (2 ^ 21).
    change (2 ^ (12 + 9 * Z.of_nat 0)) with (2 ^ 12). dlia.
  - change (2 ^ (12 + 9 * Z.of_nat 2)) with (2 ^ 30).
    change (2 ^ (12 + 9 * Z.of_nat 1)) with (2 ^ 21). dlia.
Qed.

(** Views that a split huge page and its parts agree on. *)
Definition splits (w : view) : Prop := ∀ l e va,
  (l ≤ 1)%nat → 0 ≤ e < 2 ^ 64 → has e 1 = true → has e PAGE_HUGE = true →
  Z.land e PAGE_PHYS_MASK mod 2 ^ (12 + 9 * Z.of_nat (Datatypes.S l)) = 0 →
  w (split_entry (Datatypes.S l) e (pt_index l va)) (Z.of_nat l) va = w e (Z.of_nat (Datatypes.S l)) va.

Lemma access_splits : splits access_view.
Proof using.
  intros l e va Hl He H1 H7 Hal. unfold access_view. apply split_entry_access; [lia|done|apply pt_index_range].
Qed.

Lemma paddr_splits : splits entry_paddr.
Proof using.
  intros l e va Hl He H1 H7 Hal. pose proof (pt_index_range l va) as Hi.
  destruct (split_entry_ok (Datatypes.S l) e (pt_index l va)) as (Hb & Hm & Hp & Hh);
    [lia|done..|].
  replace (Z.of_nat (Datatypes.S l) - 1) with (Z.of_nat l) in Hm by lia.
  rewrite (entry_paddr_huge e (Z.of_nat (Datatypes.S l))
    (12 + 9 * Z.of_nat (Datatypes.S l))) by (try done; destruct l as [|[|l]]; done || lia).
  rewrite offset_split by done.
  destruct l as [|[|l]]; [| |lia].
  - change (12 + 9 * Z.of_nat 0) with 12 in *. rewrite entry_paddr_small, Hm by done. lia.
  - change (12 + 9 * Z.of_nat 1) with 21 in *.
    rewrite (entry_paddr_huge _ _ 21); [rewrite Hm; lia|done..|].
    rewrite Hm. change (2 ^ (12 + 9 * Z.of_nat 2)) with (2 ^ 30) in Hal. dlia.
Qed.

(** The walk through the table of a split huge page reads what the huge page
    gave. *)
Lemma split_walk w l e va r next :
  splits w → (l ≤ 1)%nat → 0 ≤ e < 2 ^ 64 → has e 1 = true → has e PAGE_HUGE = true →
  Z.land e PAGE_PHYS_MASK mod 2 ^ (12 + 9 * Z.of_nat (Datatypes.S l)) = 0 →
  frame r next = split_frame (Datatypes.S l) e →
  walk w l r next va = w e (Z.of_nat (Datatypes.S l)) va.
Proof using.
  intros Hw Hl He H1 H7 Hal Hfr. rewrite walk_unfold, Hfr.
  pose proof (pt_index_range l va) as Hi. rewrite at_split_frame by done.
  destruct (split_entry_ok (Datatypes.S l) e (pt_index l va)) as (Hb & Hm & Hp & Hh); [lia|done..|].
  rewrite <- (Hw l e va) by done. unfold walk_entry, is_leaf. rewrite Hp, Hh. by destruct l as [|[|l]]; [| |lia].
Qed.

Section descend.
Context (own : gmap Z (nat * Z)) (m : machine S) (root table ft : Z) (l : nat) (va : Z).
Hypotheses (Ht : tables own m root) (Hft : own !! ft = Some (Datatypes.S l, vpn (2 + l) va))
  (Hwin : vpn 1 va ≠ window_vpn)
  (Hdesc : descends (mram m) va 3 root (Datatypes.S l) ft).

Let idx := pt_index (Datatypes.S l) va.
Let e := at_ (frame (mram m) ft) idx.

Lemma ft_not_window : ft ≠ physwindow_pt_phys m.
Proof using Ht Hft.
  intros E. destruct (po_window _ _ _ _ (tb_pt _ _ _ Ht) (Datatypes.S l) (vpn (2 + l) va));
    [|done]. by rewrite <- E.
Qed.

(** [m'] is [m] with the entry replaced by [e'], perhaps after a fresh table
    was added. *)
Lemma install_spec own1 m1 e' :
  tables own1 m1 root → kept own m own1 m1 → own ⊆ own1 →
  (∀ g, is_Some (own !! g) → g ≠ physwindow_pt_phys m → frame (mram m1) g = frame (mram m) g) →
  live m1 table ft → 0 ≤ e' < 2 ^ 64 → has e' 1 = true → has e' PAGE_HUGE = false →
  own1 !! Z.land e' PAGE_PHYS_MASK = Some (l, vpn (Datatypes.S l) va) →
  let m' := upd m1 ft (<[Z.to_nat idx := e']> (frame (mram m1) ft)) in
  (∀ w va', splits w → vpn (Datatypes.S l) va' = vpn (Datatypes.S l) va → vpn 1 va' ≠ window_vpn →
     walk w l (mram m') (Z.land e' PAGE_PHYS_MASK) va' =
     walk_entry w (walk_next w (Datatypes.S l) (mram m) va') (Datatypes.S l) e va') →
  tbl_write m1 table idx e' = Ok m' ∧ tables own1 m' root ∧ kept own m own1 m' ∧
  at_ (frame (mram m') ft) idx = e' ∧ is_leaf (Datatypes.S l) e' = false ∧
  descends (mram m') va 3 root (Datatypes.S l) ft ∧
  ∀ w va', splits w → vpn 1 va' ≠ window_vpn → walk w 3 (mram m') root va' = walk w 3 (mram m) root va'.
Proof using Ht Hft Hwin Hdesc.
  intros Ht1 Hc Hsub Hfr Hlv He' Hp' Hh' Hown m' Hequiv.
  pose proof (tb_pt _ _ _ Ht) as Hpt. pose proof ft_not_window as Hfw.
  destruct (po_frame _ _ _ _ Hpt _ _ _ Hft) as [_ Hl].
  assert (own1 !! ft = Some (Datatypes.S l, vpn (2 + l) va)) as Hft1
    by (by eapply lookup_weaken).
  pose proof (pt_index_range (Datatypes.S l) va) as Hidx. fold idx in Hidx.
  assert (is_leaf (Datatypes.S l) e' = false) as Hlf'
    by (unfold is_leaf; rewrite Hh'; apply andb_false_r).
  assert (Hfr' : ∀ g k p, own !! g = Some (k, p) → g ≠ physwindow_pt_phys m →
    frame (mram m') g = if decide (g = ft) then <[Z.to_nat idx := e']> (frame (mram m) ft)
      else frame (mram m) g).
  { intros g k p Hg Hgp. unfold m'. rewrite frame_upd, (Hfr ft) by done.
    destruct (decide (ft = g)), (decide (g = ft)); try congruence. apply Hfr; done. }
  assert (frame (mram m') ft = <[Z.to_nat idx := e']> (frame (mram m) ft)) as Eft
    by (rewrite (Hfr' ft _ _ Hft), decide_True by done; done).
  assert (Hup : ∀ w r' e0, (∀ g k p, own !! g = Some (k, p) → g ≠ physwindow_pt_phys m →
      frame r' g = if decide (g = ft) then <[Z.to_nat idx := e0]> (frame (mram m) ft)
      else frame (mram m) g) → ∀ va', vpn 1 va' ≠ window_vpn →
      walk w 3 r' root va' = if decide (vpn (Datatypes.S l) va' = vpn (Datatypes.S l) va)
        then walk_entry w (walk_next w (Datatypes.S l) r' va') (Datatypes.S l) e0 va'
        else walk w 3 (mram m) root va').
  { intros w r' e0 Hr' va' Hw'. apply (walk_update own (mram m) (physwindow_pt_phys m) root w Hpt r' va
      (Datatypes.S l) ft); try done; [by apply (tb_len _ _ _ Ht)| |by rewrite !vpn_top].
    rewrite (po_root _ _ _ _ Hpt). by rewrite vpn_top. }
  split_and!.
  - rewrite (tbl_write_live _ _ ft); [done|by apply Ht1|done|].
    rewrite (tb_len _ _ _ Ht1). lia.
  - apply (tables_set_entry own1 _ _ _ (Datatypes.S l) (vpn (2 + l) va)); try done.
    + rewrite (sc_pt _ _ (kp_config _ _ _ _ Hc)). done.
    + by rewrite Hh'.
    + intros l' [= <-] _ _. rewrite Hown. f_equal. f_equal.
      apply (vpn_step (Datatypes.S l)). lia.
  - eapply kept_trans; [exact Hc|]. by apply kept_upd.
  - rewrite Eft, at_insert, decide_True; [done..|rewrite (tb_len _ _ _ Ht); lia|lia].
  - done.
  - eapply (descends_ext own (mram m)); [done| |done|].
    + rewrite (po_root _ _ _ _ Hpt). by rewrite vpn_top.
    + intros g k Hk Hg.
      rewrite (Hfr' _ _ _ Hg), decide_False; [done|intros ->; rewrite Hft in Hg; simplify_eq; lia|].
      intros ->. destruct (po_window _ _ _ _ Hpt _ _ Hg). lia.
  - intros w va' Hs Hw'. rewrite (Hup w (mram m') e' Hfr' va' Hw').
    destruct (decide (vpn (Datatypes.S l) va' = vpn (Datatypes.S l) va)) as [E|]; [|done].
    rewrite (Hup w (mram m) e) by (done ||
      (intros g k p Hg Hgp; case_decide; [subst g|done]; symmetry;
       apply list_insert_id, list_lookup_lookup_total_lt; rewrite (tb_len _ _ _ Ht); lia)).
    rewrite decide_True by done. rewrite <- Hequiv by done.
    unfold walk_entry at 1. by rewrite Hp', Hlf'.
Qed.

(** After the entry was made to point to a table. *)
Definition descended (own' : gmap Z (nat * Z)) m' : Prop :=
  tables own' m' root ∧ kept own m own' m' ∧ own ⊆ own' ∧
  nfree (windows m') = nfree (windows m) ∧
  fs_avail (msrc m) - 1 ≤ fs_avail (msrc m') ∧
  (∀ v g, live m v g → live m' v g) ∧
  has (at_ (frame (mram m') ft) idx) 1 = true ∧
  is_leaf (Datatypes.S l) (at_ (frame (mram m') ft) idx) = false ∧
  own' !! Z.land (at_ (frame (mram m') ft) idx) PAGE_PHYS_MASK =
    Some (l, vpn (Datatypes.S l) va) ∧
  descends (mram m') va 3 root (Datatypes.S l) ft ∧
  ∀ w va', splits w → vpn 1 va' ≠ window_vpn → walk w 3 (mram m') root va' = walk w 3 (mram m) root va'.

(** A fresh table [next] whose walk agrees with the old entry. *)
Lemma descend_fresh m1 next t flags :
  fresh_table own m root next t m1 → 0 ≤ flags → live m table ft → words 64 t →
  (∀ i, 0 ≤ i < 512 → has (at_ t i) 1 = true →
     (l = 0%nat ∨ is_leaf l (at_ t i) = true) ∧
     (has (at_ t i) PAGE_HUGE = true → (l = 1%nat ∨ l = 2%nat) ∧
        Z.land (at_ t i) PAGE_PHYS_MASK mod 2 ^ (12 + 9 * Z.of_nat l) = 0)) →
  (∀ w r va', splits w → frame r next = t →
     walk w l r next va' =
     walk_entry w (walk_next w (Datatypes.S l) (mram m) va') (Datatypes.S l) e va') →
  ∃ own' m', tbl_write m1 table idx (Z.lor next (sw_flags flags)) = Ok m' ∧
    descended own' m'.
Proof using Ht Hft Hwin Hdesc.
  intros (Ht1 & Hpf & Hon & Hnp & Hused & Ent & Hoth & Hn & Hav & Hlv & Hun & Hk)
    Hfl Hl0 Hw Hent Hequiv.
  destruct (po_frame _ _ _ _ (tb_pt _ _ _ Ht) _ _ _ Hft) as [_ Hl].
  destruct (table_entry_ok next flags Hpf Hfl) as (Hb & Hm & Hp & Hh).
  assert (own ⊆ <[next := (l, vpn (Datatypes.S l) va)]> own) as Hsub
    by (by apply insert_subseteq).
  assert (next ≠ ft) as Hnf by (intros ->; congruence). pose proof (kp_config _ _ _ _ Hk) as Hc.
  assert (kept own m (<[next := (l, vpn (Datatypes.S l) va)]> own) m1) as Hk1.
  { destruct Hk as [? ? _ ?]. split; try done. intros f Hf. apply lookup_insert_is_Some in Hf as [<-|[_ Hf]]; auto. }
  assert (tables (<[next := (l, vpn (Datatypes.S l) va)]> own) m1 root) as Ht1'.
  { apply tables_add; try done; try lia.
    - by rewrite (sc_pt _ _ Hc).
    - by rewrite Ent.
    - by rewrite Ent. }
  destruct (install_spec _ m1 (Z.lor next (sw_flags flags)) Ht1' Hk1 Hsub)
    as (E & Ht' & Hc' & He' & Hlf & Hd' & Hxl); try done.
  - intros g Hg Hgp. apply Hoth; [|done]. intros ->. rewrite Hon in Hg. by destruct Hg.
  - by apply Hlv.
  - rewrite Hm. apply lookup_insert_eq.
  - intros w va' Hs Hv' Hw'. rewrite Hm. apply Hequiv; [done|].
    rewrite frame_upd, decide_False by done. done.
  - do 2 eexists. split; [exact E|]. unfold descended. rewrite He', Hm, Hp.
    split_and!; try done.
    + simpl. lia.
    + intros v g Hv. apply upd_live; [|by apply Hlv].
      rewrite (sc_pt _ _ Hc). apply ft_not_window.
    + apply lookup_insert_eq.
Qed.

Lemma descend_spec flags :
  live m table ft → 0 ≤ flags → 0 < fs_avail (msrc m) → (0 < nfree (windows m))%nat →
  ∃ own' m', descend m (Datatypes.S l) table idx e (sw_flags flags) = Ok m' ∧
    descended own' m'.
Proof using Ht Hft Hwin Hdesc.
  intros Hlv Hfl Hav Hn. pose proof (tb_pt _ _ _ Ht) as Hpt.
  pose proof ft_not_window as Hfw.
  destruct (po_frame _ _ _ _ Hpt _ _ _ Hft) as [_ Hl].
  pose proof (pt_index_range (Datatypes.S l) va) as Hidx. fold idx in Hidx.
  assert (0 ≤ e < 2 ^ 64) as He.
  { apply (at_words 64); [by eapply (po_words _ _ _ _ Hpt)|].
    rewrite (tb_len _ _ _ Ht). lia. }
  unfold descend. change PAGE_PRESENT with 1. destruct (has e 1) eqn:Hp; cbn [negb].
  2: { (* no entry: a zeroed table *)
    destruct (new_table_spec own m root Ht Hav Hn) as (next & m1 & -> & Hfresh).
    cbn [mbind res_bind]. apply (descend_fresh _ _ zero_frame); try done.
    - unfold words, zero_frame. apply Forall_replicate. lia.
    - intros i Hi. unfold at_, zero_frame. by rewrite lookup_total_replicate_2 by lia.
    - intros w r va' Hs Hr. rewrite walk_unfold, Hr. unfold walk_entry at 2. rewrite Hp.
      unfold at_, zero_frame. rewrite lookup_total_replicate_2; [done|].
      pose proof (pt_index_range l va'). lia. }
  destruct (has e PAGE_HUGE) eqn:Hh.
  { (* a huge page: a table of its parts *)
    destruct (po_huge _ _ _ _ Hpt _ _ _ idx Hft Hfw Hidx Hp Hh) as [Hl12 Hal].
    fold e in Hal.
    destruct (split_table_spec own m root (Datatypes.S l) e Ht Hav Hn)
      as (next & m1 & -> & Hfresh).
    cbn [mbind res_bind]. apply (descend_fresh _ _ (split_frame (Datatypes.S l) e)); try done.
    - unfold words, split_frame. apply Forall_forall. intros x Hx.
      apply list_elem_of_fmap in Hx as (k & -> & Hk). apply elem_of_seq in Hk.
      apply split_entry_ok; try done. lia.
    - intros i Hi. rewrite at_split_frame by done.
      destruct (split_entry_ok (Datatypes.S l) e i) as (_ & Hm & Hp' & Hh'); try done.
      intros _. rewrite Hh', Hm.
      replace (Z.of_nat (Datatypes.S l) - 1) with (Z.of_nat l) by lia.
      assert (l = 0%nat ∨ l = 1%nat) as [-> | ->] by lia; [by split; [left|]|].
      change (2 ^ (12 + 9 * Z.of_nat 1)) with (2 ^ 21).
      change (2 ^ (12 + 9 * Z.of_nat 2)) with (2 ^ 30) in Hal. split.
      + right. unfold is_leaf. by rewrite Hh'.
      + intros _. split; [by left|]. dlia.
    - intros w r va' Hs Hr. rewrite (split_walk w l e) by (done || lia).
      unfold walk_entry, is_leaf. rewrite Hp, Hh.
      assert (l = 0%nat ∨ l = 1%nat) as [-> | ->] by lia; done. }
  (* a table already *)
  assert (is_leaf (Datatypes.S l) e = false) as Hlf
    by (unfold is_leaf; rewrite Hh; apply andb_false_r).
  rewrite (tbl_read_live m table ft) by first [done | by apply Ht | rewrite (tb_len _ _ _ Ht); lia].
  fold e. cbn [mbind res_bind].
  destruct (or_entry_ok e flags He Hfl) as (Hb & Hm & Hp' & Hh'). rewrite Hh in Hh'.
  assert (own !! Z.land e PAGE_PHYS_MASK = Some (l, vpn (Datatypes.S l) va)) as Hch
    by (by apply (child_label own (mram m) (physwindow_pt_phys m) root Hpt)).
  destruct (install_spec own m (Z.lor e (sw_flags flags)) Ht (kept_windows own m m (same_tables_refl m)))
    as (E & Ht' & Hc' & He' & Hlf' & Hd' & Hxl); try done.
  - by rewrite Hm.
  - intros w va' Hs Hv' Hw'. rewrite Hm. unfold walk_entry. rewrite Hp, Hlf. cbn [negb walk_next].
    apply (walk_ext own (mram m) (physwindow_pt_phys m) root w Hpt); [by rewrite Hv'|].
    intros g k Hk Hg. rewrite frame_upd, decide_False; [done|].
    intros ->. rewrite Hft in Hg. injection Hg. lia.
  - exists own. eexists. split; [exact E|]. unfold descended. rewrite He', Hm, Hp'.
    split_and!; try done.
    + simpl. lia.
    + intros v g Hv. by apply upd_live.
Qed.

End descend.

(** ** The windows a mapping holds *)

Definition nz (wins : list Z) : list Z := filter (λ w, w ≠ 0) wins.

Definition held m (wins : list Z) : Prop :=
  NoDup (nz wins) ∧ Forall (λ w, ∃ f, live m w f) (nz wins).

Lemma nz_insert wins k v :
  wins !! k = Some 0 → v ≠ 0 → nz (<[k := v]> wins) ≡ₚ v :: nz wins.
Proof using.
  unfold nz. revert k. induction wins as [|w wins IH]; intros [|k] Hk Hv; simplify_eq/=.
  - rewrite filter_cons_True, filter_cons_False by naive_solver. done.
  - rewrite !filter_cons. case_decide; [|by apply IH].
    rewrite (IH k) by done. apply Permutation_swap.
Qed.

Lemma held_insert m m' wins k v f :
  held m wins → wins !! k = Some 0 → v ≠ 0 → live m' v f →
  (∀ v' g, live m v' g → v' ≠ v ∧ live m' v' g) → held m' (<[k := v]> wins).
Proof using.
  intros [Hnd Hl] Hk Hv Hlv Hpres. unfold held. rewrite (nz_insert wins k v) by done. split.
  - apply NoDup_cons. split; [|done]. intros Hin. rewrite Forall_forall in Hl.
    destruct (Hl v Hin) as [g Hg]. by destruct (Hpres v g Hg).
  - constructor; [by exists f|]. eapply Forall_impl; [exact Hl|].
    intros w [g Hg]. exists g. by apply Hpres.
Qed.

Lemma held_mono m m' wins :
  held m wins → (∀ v g, live m v g → live m' v g) → held m' wins.
Proof using.
  intros [Hnd Hl] Hpres. split; [done|]. eapply Forall_impl; [exact Hl|].
  intros w [g Hg]. exists g. by apply Hpres.
Qed.

Lemma release_all_spec wins : ∀ m,
  ready m → held m wins →
  let m' := release_all m wins in
  ready m' ∧ same_tables m m' ∧ mram m' = mram m ∧
  nfree (windows m') = (nfree (windows m) + length (nz wins))%nat.
Proof using.
  induction wins as [|w wins IH]; intros m Hr [Hnd Hl]; simpl.
  { split_and!; [done|apply same_tables_refl|done|simpl; lia]. }
  unfold nz in *. rewrite filter_cons in Hnd, Hl |- *.
  destruct (Z.eqb_spec w 0) as [->|Hw]; cbn [negb].
  - rewrite decide_False in Hnd, Hl |- * by naive_solver. by apply IH.
  - rewrite decide_True in Hnd, Hl |- * by done.
    apply NoDup_cons in Hnd as [Hin Hnd]. apply Forall_cons in Hl as [[f Hf] Hl].
    destruct (release_spec m w f Hr Hf) as (Hr1 & Hst1 & Er1 & Hn1 & Hpres).
    destruct (IH (release_table_vaddr m w)) as (Hr2 & Hst2 & Er2 & Hn2); [done| |].
    + split; [done|]. rewrite Forall_forall in Hl. apply Forall_forall. intros x Hx.
      destruct (Hl x Hx) as [g Hg]. exists g. apply Hpres; [|done]. intros ->. done.
    + split_and!; [done| |congruence|simpl; lia]. by eapply same_tables_trans.
Qed.

(** ** The whole walk *)

(** The level of the page the flags ask for: 4 KiB, 2 MiB or 1 GiB. *)
Definition target (flags : Z) : nat :=
  if has flags PAGE_1GB then 2 else if has flags PAGE_2MB then 1 else 0.

(** What the new leaf gives: any view, the address, the access bits. *)
Definition leaf_view (w : view) (phys flags va : Z) : Z :=
  if has flags 1 then w (leaf_entry (target flags) phys flags) (Z.of_nat (target flags)) va else 0.
Definition mapped_to (phys flags va : Z) : Z :=
  if has flags 1
  then Z.land phys PAGE_PHYS_MASK + va mod 2 ^ (12 + 9 * Z.of_nat (target flags)) else 0.
Definition granted (flags : Z) : Z := if has flags 1 then Z.land flags ACCESS else 0.

(** Opening the window of a level leaves the tree and its translation. *)
Lemma open_level own m root va level curr wins :
  tables own m root → own !! curr = Some (level, vpn (Datatypes.S level) va) →
  descends (mram m) va 3 root level curr → held m wins → wins !! level = Some 0 →
  (0 < nfree (windows m))%nat →
  ∃ v m1, get_table_vaddr m curr = Ok (v, v, m1) ∧ tables own m1 root ∧
    same_tables m m1 ∧ live m1 v curr ∧ held m1 (<[level := v]> wins) ∧
    length (nz (<[level := v]> wins)) = Datatypes.S (length (nz wins)) ∧
    (nfree (windows m1) + 1 = nfree (windows m))%nat ∧
    descends (mram m1) va 3 root level curr ∧
    (∀ i, 0 ≤ i < 512 → tbl_read m1 v i = Ok (at_ (frame (mram m1) curr) i)) ∧
    ∀ w va', vpn 1 va' ≠ window_vpn → walk w 3 (mram m1) root va' = walk w 3 (mram m) root va'.
Proof using.
  intros Ht Hcurr Hd Hheld Hz Hn. pose proof (tb_pt _ _ _ Ht) as Hpt.
  destruct (po_frame _ _ _ _ Hpt _ _ _ Hcurr) as [Hpf _].
  destruct (get_table_spec m curr) as (v & m1 & E1 & Hv & Hr1 & Hlv1 & Hst1 & Hn1 & Hp1);
    [by apply Ht|done|done|].
  pose proof (tables_windows _ _ _ _ Ht Hst1 Hr1) as Ht1.
  exists v, m1. split_and!; try done.
  - by eapply held_insert.
  - by rewrite (Permutation_length (nz_insert wins level v Hz Hv)).
  - eapply (descends_ext own (mram m)); [done| |exact Hd|].
    + rewrite (po_root _ _ _ _ Hpt). by rewrite vpn_top.
    + intros g k Hk Hg. apply (st_frames _ _ Hst1). intros ->.
      destruct (po_window _ _ _ _ Hpt _ _ Hg). lia.
  - intros i Hi. apply tbl_read_live; [done|done|]. rewrite (tb_len _ _ _ Ht1). lia.
  - intros w va' Hw'. apply (walk_ext own (mram m) (physwindow_pt_phys m) root w Hpt).
    + rewrite (po_root _ _ _ _ Hpt). by rewrite vpn_top.
    + intros g k Hk Hg. apply (st_frames _ _ Hst1).
      by eapply (label_not_window own (mram m)).
Qed.

Section map.
Context (root va phys flags : Z).
Hypotheses (Hwin : vpn 1 va ≠ window_vpn) (Hfl : 0 ≤ flags < 2 ^ 64)
  (Hal : Z.land phys PAGE_PHYS_MASK mod 2 ^ (12 + 9 * Z.of_nat (target flags)) = 0).

Let T := target flags.

Lemma leaf_walk w next va' :
  walk_entry w next T (leaf_entry T phys flags) va' = leaf_view w phys flags va'.
Proof using Hfl.
  destruct (leaf_entry_ok T phys flags) as (_ & Hm & Hp & Hh); [lia|].
  unfold walk_entry, leaf_view, is_leaf. rewrite Hp, Hh. fold T. destruct (has flags 1); [|done].
  assert (T = 0%nat ∨ T = 1%nat ∨ T = 2%nat) as HT by (unfold T, target; repeat case_match; auto).
  by destruct HT as [E | [E | E]]; rewrite E.
Qed.

Lemma leaf_access va' : leaf_view access_view phys flags va' = granted flags.
Proof using.
  unfold leaf_view, granted, access_view. destruct (has flags 1); [|done]. apply leaf_entry_access.
Qed.

Lemma leaf_translation va' : leaf_view entry_paddr phys flags va' = mapped_to phys flags va'.
Proof using Hfl Hal.
  destruct (leaf_entry_ok T phys flags) as (_ & Hm & Hp & Hh); [lia|].
  unfold leaf_view, mapped_to. fold T. destruct (has flags 1) eqn:Hpr; [|done].
  assert (T = 0%nat ∨ T = 1%nat ∨ T = 2%nat) as HT
    by (unfold T, target; repeat case_match; auto).
  fold T in Hal. destruct HT as [E | [E | E]]; rewrite E in *; cbn [Nat.eqb orb andb negb].
  - rewrite entry_paddr_small, Hm by done. done.
  - rewrite (entry_paddr_huge _ _ 21), Hm; [done|done..|]. by rewrite Hm.
  - rewrite (entry_paddr_huge _ _ 30), Hm; [done|done..|]. by rewrite Hm.
Qed.

(** Writing the leaf. *)
Lemma leaf_spec own m table ft :
  tables own m root → live m table ft → own !! ft = Some (T, vpn (Datatypes.S T) va) →
  descends (mram m) va 3 root T ft →
  ∃ m', tbl_write m table (pt_index T va) (leaf_entry T phys flags) = Ok m' ∧
    tables own m' root ∧ kept own m own m' ∧ windows m' = windows m ∧ msrc m' = msrc m ∧
    (∀ v g, live m v g → live m' v g) ∧
    ∀ w va', splits w → vpn 1 va' ≠ window_vpn →
      walk w 3 (mram m') root va' =
      if decide (vpn T va' = vpn T va) then leaf_view w phys flags va'
      else walk w 3 (mram m) root va'.
Proof using Hwin Hfl Hal.
  intros Ht Hlv Hft Hd. pose proof (tb_pt _ _ _ Ht) as Hpt.
  destruct (leaf_entry_ok T phys flags) as (Hb & Hm & Hp & Hh); [lia|].
  pose proof (pt_index_range T va) as Hidx.
  assert (ft ≠ physwindow_pt_phys m) as Hfw
    by (by eapply (label_not_window own (mram m))).
  assert (T = 0%nat ∨ T = 1%nat ∨ T = 2%nat) as HT
    by (unfold T, target; repeat case_match; auto).
  eexists. split; [apply (tbl_write_live _ _ ft); [by apply Ht|done|
    rewrite (tb_len _ _ _ Ht); lia]|].
  set (m' := upd _ _ _). split_and!; try done; [|by apply kept_upd|..].
  - apply (tables_set_entry own m root ft T (vpn (Datatypes.S T) va)); try done.
    + intros _ Ehuge. rewrite Hh in Ehuge. rewrite Hm. split; [|done].
      destruct HT as [E|HT]; [by rewrite E in Ehuge|done].
    + intros l' El Hpr Hlf. unfold is_leaf in Hlf. rewrite Hh in Hlf.
      destruct HT as [E|[E|E]]; rewrite E in *; done.
  - intros. by apply upd_live.
  - intros w va' Hs Hw'. rewrite <- (leaf_walk w (walk_next w T (mram m') va')).
    apply (walk_update own (mram m) (physwindow_pt_phys m) root w Hpt (mram m') va T ft); try done.
    + apply (tb_len _ _ _ Ht).
    + intros g k p Hg Hgp. unfold m'. rewrite frame_upd.
      destruct (decide (ft = g)), (decide (g = ft)); congruence.
    + rewrite (po_root _ _ _ _ Hpt). by rewrite vpn_top.
    + by rewrite !vpn_top.
Qed.

(** The levels above the target go on to the next one. *)
Lemma stops_iff level :
  (T ≤ level)%nat → (level ≤ 3)%nat →
  ((level =? 2)%nat && has flags PAGE_1GB) || ((level =? 1)%nat && has flags PAGE_2MB) =
  negb (T =? 0)%nat && (level =? T)%nat.
Proof using.
  unfold T, target. intros. destruct (has flags PAGE_1GB), (has flags PAGE_2MB);
    destruct level as [|[|[|[|level]]]]; simpl; try done; lia.
Qed.

Lemma mmap_levels_spec level : ∀ own m curr wins,
  tables own m root → own !! curr = Some (level, vpn (Datatypes.S level) va) →
  descends (mram m) va 3 root level curr → (T ≤ level)%nat → (level ≤ 3)%nat →
  held m wins → (∀ k, (k ≤ level)%nat → wins !! k = Some 0) →
  (level + 2 ≤ nfree (windows m))%nat → Z.of_nat level ≤ fs_avail (msrc m) →
  ∃ own' m' wins', mmap_levels level m va phys flags curr wins = Ok (wins', m') ∧
    tables own' m' root ∧ kept own m own' m' ∧ held m' wins' ∧
    (nfree (windows m') + length (nz wins') = nfree (windows m) + length (nz wins))%nat ∧
    fs_avail (msrc m) - Z.of_nat level ≤ fs_avail (msrc m') ∧
    ∀ w va', splits w → vpn 1 va' ≠ window_vpn →
      walk w 3 (mram m') root va' =
      if decide (vpn T va' = vpn T va) then leaf_view w phys flags va'
      else walk w 3 (mram m) root va'.
Proof using Hwin Hfl Hal.
  induction level as [|level IH]; intros own m curr wins Ht Hcurr Hd HT Hl3 Hheld Hz Hn Hav.
  all: edestruct open_level as (v & m1 & E1 & Ht1 & Hst1 & Hlv1 & Hheld1 & Hnz & Hn1 & Hd1 & Hrd & Hxl1);
    [exact Ht|exact Hcurr|exact Hd|exact Hheld|by apply Hz|lia|].
  all: cbn [mmap_levels]; rewrite E1; cbn [mbind res_bind]; fold (sw_flags flags).
  all: rewrite Hrd by apply pt_index_range; cbn [mbind res_bind]; rewrite stops_iff by done.
  - (* the 4 KiB leaf *)
    assert (T = 0%nat) as ET by lia. rewrite ET. cbn [Nat.eqb negb andb].
    pose proof (leaf_spec own m1 v curr) as Hleaf. rewrite ET in Hleaf.
    destruct Hleaf as (m2 & E2 & Ht2 & Hc2 & Hw2 & Hs2 & Hlv2 & Hxl2); try done.
    unfold leaf_entry in E2. cbn [Nat.eqb] in E2. rewrite E2. cbn [mbind res_bind].
    do 3 eexists. split; [done|]. split_and!; try done.
    + eapply kept_trans; [by apply kept_windows|done].
    + by eapply held_mono.
    + rewrite Hw2, Hnz. lia.
    + rewrite Hs2, (st_src _ _ Hst1). lia.
    + intros w va' Hs Hw'. rewrite Hxl2 by done. by rewrite Hxl1.
  - destruct (decide (T = Datatypes.S level)) as [ET|NT].
    + (* a huge leaf *)
      rewrite ET, Nat.eqb_refl. cbn [Nat.eqb negb andb].
      pose proof (leaf_spec own m1 v curr) as Hleaf. rewrite ET in Hleaf.
      destruct Hleaf as (m2 & E2 & Ht2 & Hc2 & Hw2 & Hs2 & Hlv2 & Hxl2); try done.
      unfold leaf_entry in E2. cbn [Nat.eqb] in E2. rewrite E2. cbn [mbind res_bind].
      do 3 eexists. split; [done|]. split_and!; try done.
      * eapply kept_trans; [by apply kept_windows|done].
      * by eapply held_mono.
      * rewrite Hw2, Hnz. lia.
      * rewrite Hs2, (st_src _ _ Hst1). lia.
      * intros w va' Hs Hw'. rewrite Hxl2 by done. by rewrite Hxl1.
    + assert ((Datatypes.S level =? T)%nat = false) as -> by (apply Nat.eqb_neq; lia).
      rewrite andb_false_r.
      destruct (descend_spec own m1 root v curr level va Ht1 Hcurr Hwin Hd1 flags)
        as (own2 & m2 & E2 & Ht2 & Hc2 & Hsub & Hn2 & Hav2 & Hlv2 & Hp2 & Hlf2 & Hch & Hd2 & Hxl2);
        [done|lia|rewrite (st_src _ _ Hst1); lia|lia|].
      rewrite E2. cbn [mbind res_bind].
      rewrite (tbl_read_live m2 v curr)
        by first [by apply Ht2 | by apply Hlv2 | rewrite (tb_len _ _ _ Ht2);
                  pose proof (pt_index_range (Datatypes.S level) va); lia].
      cbn [mbind res_bind].
      destruct (IH own2 m2 (Z.land (at_ (frame (mram m2) curr) (pt_index (Datatypes.S level) va))
        PAGE_PHYS_MASK) (<[Datatypes.S level := v]> wins))
        as (own3 & m3 & wins3 & E3 & Ht3 & Hc3 & Hheld3 & Hn3 & Hav3 & Hxl3); try done; try lia.
      * by apply descends_snoc.
      * by eapply held_mono.
      * intros k Hk. rewrite list_lookup_insert_ne by lia. apply Hz. lia.
      * rewrite (st_src _ _ Hst1) in Hav2. lia.
      * do 3 eexists. split; [exact E3|]. split_and!; try done.
        -- eapply kept_trans; [by apply kept_windows|]. by eapply kept_trans.
        -- rewrite Hn3, Hn2, Hnz. lia.
        -- rewrite (st_src _ _ Hst1) in Hav2. lia.
        -- intros w va' Hs Hw'. rewrite Hxl3, Hxl2, Hxl1 by done. done.
Qed.

End map.

End ops.
