(* ===== verification/PagingThm.v ===== *)
(** * Page-table operations: what the callers get

    Lookups ([vaddr_to_paddr]) return the translation of the tree, and the
    mapping operations ([paging_mmap], [paging_multiple_mmap],
    [paging_multiple_unmap]) change it on exactly the pages they are given. *)

From S2P Require Import Prelude Bitmap Frames Paging PagingWin PagingMap PagingOps Pmm.

Section thm.
Context {S : Type} `{FrameSource S}.
Implicit Types m : machine S.

(** ** One page *)

Lemma mmap_internal_spec own m root va phys flags :
  tables own m root → (5 ≤ nfree (windows m))%nat → 3 ≤ fs_avail (msrc m) →
  vpn 1 va ≠ window_vpn → 0 ≤ flags < 2 ^ 64 →
  Z.land phys PAGE_PHYS_MASK mod 2 ^ (12 + 9 * Z.of_nat (target flags)) = 0 →
  ∃ own' m', mmap_internal m root va phys flags = Ok m' ∧ tables own' m' root ∧
    kept own m own' m' ∧ nfree (windows m') = nfree (windows m) ∧
    fs_avail (msrc m) - 3 ≤ fs_avail (msrc m') ∧
    (∀ va', vpn 1 va' ≠ window_vpn →
      xl 3 (mram m') root va' =
      if decide (vpn (target flags) va' = vpn (target flags) va)
      then mapped_to phys flags va' else xl 3 (mram m) root va') ∧
    ∀ va', vpn 1 va' ≠ window_vpn →
      xa 3 (mram m') root va' =
      if decide (vpn (target flags) va' = vpn (target flags) va)
      then granted flags else xa 3 (mram m) root va'.
Proof using.
  intros Ht Hn Hav Hw Hfl Hal. pose proof (tb_pt _ _ _ Ht) as Hpt.
  destruct (mmap_levels_spec root va phys flags Hw Hfl Hal 3 own m root [0; 0; 0; 0])
    as (own' & m1 & wins & E & Ht1 & Hc1 & Hheld & Hn1 & Hav1 & Hxl); try done; try lia.
  - rewrite (po_root _ _ _ _ Hpt). by rewrite vpn_top.
  - by left.
  - unfold target. repeat case_match; lia.
  - split; [constructor|constructor].
  - intros k Hk. destruct k as [|[|[|[|k]]]]; done || lia.
  - unfold mmap_internal. rewrite E. cbn [mbind res_bind].
    destruct (release_all_spec wins m1) as (Hr2 & Hst2 & Er2 & Hn2); [by apply Ht1|done|].
    exists own'. eexists. split; [done|]. split_and!.
    + by eapply tables_windows.
    + eapply kept_trans; [exact Hc1|]. by apply kept_windows.
    + simpl in *. lia.
    + rewrite (st_src _ _ Hst2). simpl in *. lia.
    + intros va' Hw'. rewrite Er2. unfold xl. rewrite Hxl, leaf_translation by (done || apply paddr_splits). done.
    + intros va' Hw'. rewrite Er2. unfold xa. rewrite Hxl, leaf_access by (done || apply access_splits). done.
Qed.

(** ** Lookup *)

Lemma get_entry_loop_spec i : ∀ own m root curr va lo,
  tables own m root → own !! curr = Some (i, vpn (Datatypes.S i) va) →
  vpn 1 va ≠ window_vpn → (0 < nfree (windows m))%nat →
  ∃ e l m', get_entry_loop i m curr va lo = Ok (e, l, m') ∧
    (∀ w : view, (∀ l, w 0 l va = 0) → w e l va = walk w i (mram m) curr va) ∧
    ready m' ∧ same_tables m m' ∧ nfree (windows m') = nfree (windows m).
Proof using.
  induction i as [|i IH]; intros own m root curr va lo Ht Hc Hw Hn.
  all: pose proof (tb_pt _ _ _ Ht) as Hpt;
    destruct (po_frame _ _ _ _ Hpt _ _ _ Hc) as [Hpf Hi3];
    destruct (get_table_spec m curr) as (v & m1 & E1 & _ & Hr1 & Hlv1 & Hst1 & Hn1 & _);
    [by apply Ht|done|done|].
  all: pose proof (tables_windows _ _ _ _ Ht Hst1 Hr1) as Ht1;
    destruct (release_spec m1 v curr Hr1 Hlv1) as (Hr2 & Hst2 & Er2 & Hn2 & _);
    pose proof (same_tables_trans _ _ _ Hst1 Hst2) as Hst.
  all: assert (Hfr : frame (mram m1) curr = frame (mram m) curr)
    by (apply (st_frames _ _ Hst1); by eapply (label_not_window own (mram m))).
  all: cbn [get_entry_loop]; rewrite E1; cbn [mbind res_bind].
  all: rewrite (tbl_read_live m1 v curr)
    by first [done | rewrite (tb_len _ _ _ Ht1); unfold pt_index;
              change 0x1FF with (2 ^ 9 - 1); rewrite land_low by lia; dlia].
  all: cbn [mbind res_bind]; rewrite Hfr.
  - destruct (has _ 1) eqn:Hp; cbn [negb Nat.eqb orb andb]; do 3 eexists; (split_and!; [done| |done|done|lia]).
    all: intros w H0; rewrite walk_unfold; unfold walk_entry; rewrite Hp; done || apply H0.
  - destruct (has _ 1) eqn:Hp; cbn [negb].
    2: { do 3 eexists. split_and!; [done| |done|done|lia]. intros w H0. rewrite walk_unfold. unfold walk_entry. rewrite Hp. apply H0. }
    destruct (((Datatypes.S i =? 2)%nat || (Datatypes.S i =? 1)%nat) && _) eqn:Hlf.
    { do 3 eexists. split_and!; [done| |done|done|lia]. intros w H0. rewrite walk_unfold. unfold walk_entry, is_leaf. by rewrite Hp, Hlf. }
    assert (own !! Z.land (at_ (frame (mram m) curr) (pt_index (Datatypes.S i) va))
      PAGE_PHYS_MASK = Some (i, vpn (Datatypes.S i) va)) as Hch
      by (by apply (child_label own (mram m) (physwindow_pt_phys m) root Hpt)).
    set (m2 := release_table_vaddr m1 v) in *.
    destruct (IH own m2 root _ va (Z.of_nat (Datatypes.S i))
      (tables_windows _ _ _ _ Ht Hst Hr2) Hch Hw)
      as (e & l & m3 & E3 & Hx & Hr3 & Hst3 & Hn3); [lia|].
    exists e, l, m3. split_and!; [exact E3| |done| |lia].
    + intros w H0. rewrite Hx by done. rewrite (walk_unfold _ (Datatypes.S i)). unfold walk_entry, is_leaf. rewrite Hp, Hlf.
      cbn [negb walk_next]. apply (walk_ext own (mram m) (physwindow_pt_phys m) root w Hpt); [done|].
      intros g k Hk Hg. apply (st_frames _ _ Hst). by eapply (label_not_window own (mram m)).
    + by eapply same_tables_trans.
Qed.

Lemma vaddr_to_paddr_spec own m root va :
  tables own m root → vpn 1 va ≠ window_vpn → (0 < nfree (windows m))%nat →
  ∃ m', vaddr_to_paddr m root va = Ok (xl 3 (mram m) root va, m') ∧
    tables own m' root ∧ same_tables m m' ∧ nfree (windows m') = nfree (windows m).
Proof using.
  intros Ht Hw Hn. destruct (get_entry_loop_spec 3 own m root root va 0)
    as (e & l & m' & E & Hx & Hr & Hst & Hn'); try done.
  - rewrite (po_root _ _ _ _ (tb_pt _ _ _ Ht)). by rewrite vpn_top.
  - unfold vaddr_to_paddr, paging_get_entry_ext. rewrite E. cbn [mbind res_bind].
    rewrite Hx by done. eexists. split_and!; try done. by eapply tables_windows.
Qed.

(** ** Ranges *)

Lemma chunk_vpn T cv va :
  (T ≤ 2)%nat → cv mod 2 ^ (12 + 9 * Z.of_nat T) = 0 →
  let d := va mod 2 ^ 48 - cv mod 2 ^ 48 in
  (vpn T va = vpn T cv ↔ 0 ≤ d < 2 ^ (12 + 9 * Z.of_nat T)) ∧
  (0 ≤ d < 2 ^ (12 + 9 * Z.of_nat T) → va mod 2 ^ (12 + 9 * Z.of_nat T) = d).
Proof using.
  intros HT Hal d. unfold d, vpn. destruct T as [|[|[|T]]]; [..|lia].
  - change (12 + 9 * Z.of_nat 0) with 12 in *. dlia.
  - change (12 + 9 * Z.of_nat 1) with 21 in *. dlia.
  - change (12 + 9 * Z.of_nat 2) with 30 in *. dlia.
Qed.

Lemma has_lor_low x k f : 0 ≤ k → f ≠ k → 0 ≤ f → has (Z.lor x (2 ^ f)) (2 ^ k) = has x (2 ^ k).
Proof using.
  intros. rewrite !has_bit, Z.lor_spec, Z.pow2_bits_false, orb_false_r by lia. done.
Qed.

Lemma has_lor_self x f : 0 ≤ f → has (Z.lor x (2 ^ f)) (2 ^ f) = true.
Proof using.
  intros. rewrite has_bit, Z.lor_spec, Z.pow2_bits_true, orb_true_r by lia. done.
Qed.

(** The page size a chunk of the range is mapped with, and its flag. *)
Inductive chunk : Z → Z → nat → Prop :=
| chunk_1gb : chunk PAGE_SIZE_1GB PAGE_1GB 2
| chunk_2mb : chunk PAGE_SIZE_2MB PAGE_2MB 1
| chunk_4kb : chunk PAGE_SIZE_4KB 0 0.

Lemma chunk_flags sz sf T flags :
  chunk sz sf T → 0 ≤ flags < 2 ^ 64 → has flags PAGE_1GB = false → has flags PAGE_2MB = false →
  sz = 2 ^ (12 + 9 * Z.of_nat T) ∧ (T ≤ 2)%nat ∧ 0 ≤ Z.lor flags sf < 2 ^ 64 ∧
  target (Z.lor flags sf) = T ∧ has (Z.lor flags sf) 1 = has flags 1 ∧ granted (Z.lor flags sf) = granted flags.
Proof using.
  intros Hc Hf H1 H2.
  assert (has (Z.lor flags sf) 1 = has flags 1 → granted (Z.lor flags sf) = granted flags) as Hg.
  { intros E. unfold granted. rewrite E, Z.land_lor_distr_l. destruct Hc; by rewrite Z.lor_0_r. }
  enough (sz = 2 ^ (12 + 9 * Z.of_nat T) ∧ (T ≤ 2)%nat ∧ 0 ≤ Z.lor flags sf < 2 ^ 64 ∧
    target (Z.lor flags sf) = T ∧ has (Z.lor flags sf) 1 = has flags 1) as (? & ? & ? & ? & E) by (split_and!; try done; try lia; by apply Hg).
  clear Hg. unfold target. destruct Hc.
  - split_and!; [done|lia|apply (lor_bound 64); done..| |].
    + unfold PAGE_1GB at 1 2. by rewrite has_lor_self by lia.
    + apply (has_lor_low flags 0 62); lia.
  - split_and!; [done|lia|apply (lor_bound 64); done..| |].
    + unfold PAGE_1GB, PAGE_2MB. rewrite has_lor_low by lia. fold PAGE_1GB. rewrite H1.
      by rewrite has_lor_self by lia.
    + apply (has_lor_low flags 0 61); lia.
  - rewrite Z.lor_0_r, H1, H2. split_and!; done || lia.
Qed.

Section range.
Context (root flags : Z).
Hypotheses (Hfl : 0 ≤ flags < 2 ^ 64) (Hf1 : has flags PAGE_1GB = false)
  (Hf2 : has flags PAGE_2MB = false).

(** What the loop needs of the rest of the range. *)
Record range_ok (cv cp bytes : Z) : Prop := {
  ro_cv : 0 ≤ cv < 2 ^ 64 ∧ cv mod 0x1000 = 0;
  ro_end : cv mod 2 ^ 48 + bytes ≤ 2 ^ 48;
  ro_window : ∀ x, 0 ≤ x mod 2 ^ 48 - cv mod 2 ^ 48 < bytes → vpn 1 x ≠ window_vpn;
  ro_cp : cp = 0 ∧ has flags 1 = false ∨ cp ≠ 0 ∧ cp mod 0x1000 = 0 ∧ 0 ≤ cp ∧ cp + bytes ≤ 2 ^ 52 }.

(** Where the range puts an address [d] bytes into it. *)
Definition range_addr (cp d : Z) : Z := if has flags 1 then cp + d else 0.

(** The access bits of the range. *)
Definition granted_on (cv bytes : Z) m m' : Prop := ∀ va', vpn 1 va' ≠ window_vpn →
  xa 3 (mram m') root va' = if decide (0 ≤ va' mod 2 ^ 48 - cv mod 2 ^ 48 < bytes) then granted flags else xa 3 (mram m) root va'.

Lemma range_chunk own m cv cp bytes sz sf T :
  chunk sz sf T → tables own m root → (5 ≤ nfree (windows m))%nat →
  3 ≤ fs_avail (msrc m) → range_ok cv cp bytes → sz ≤ bytes → cv mod sz = 0 →
  cp = 0 ∨ cp mod sz = 0 →
  ∃ own' m', mmap_internal m root cv cp (Z.lor flags sf) = Ok m' ∧ tables own' m' root ∧
    kept own m own' m' ∧ nfree (windows m') = nfree (windows m) ∧
    fs_avail (msrc m) - 3 ≤ fs_avail (msrc m') ∧
    (∀ va', vpn 1 va' ≠ window_vpn →
      xl 3 (mram m') root va' =
      if decide (0 ≤ va' mod 2 ^ 48 - cv mod 2 ^ 48 < sz)
      then range_addr cp (va' mod 2 ^ 48 - cv mod 2 ^ 48) else xl 3 (mram m) root va') ∧
    granted_on cv sz m m'.
Proof using Hfl Hf1 Hf2.
  intros Hc Ht Hn Hav [Hcv Hend Hwin Hcp] Hsz Hal Halp.
  destruct (chunk_flags sz sf T flags Hc Hfl Hf1 Hf2) as (Esz & HT & Hb & Etg & Ehas & Egr).
  assert (0 < sz) as Hpos by (rewrite Esz; lia).
  assert (0 ≤ cp < 2 ^ 64 ∧ (has flags 1 = true → Z.land cp PAGE_PHYS_MASK = cp) ∧
    Z.land cp PAGE_PHYS_MASK mod sz = 0) as (Hcpb & Hcpm & Hcpa).
  { destruct Hcp as [(-> & Hp)|(Hnz & Hm & H0 & Hlt)].
    - rewrite Z.land_0_l, Z.mod_0_l by lia. split_and!; lia || done.
    - rewrite frame_land_mask by (split; [lia|done]). split_and!; [lia|lia|done|]. destruct Halp; [lia|done]. }
  destruct (mmap_internal_spec own m root cv cp (Z.lor flags sf))
    as (own' & m' & E & Ht' & Hc' & Hn' & Hav' & Hxl & Hxa); try done.
  - apply Hwin. lia.
  - by rewrite Etg, <- Esz.
  - exists own', m'. split_and!; try done.
    2: { intros va' Hw'. rewrite Hxa, Egr, Etg by done. rewrite Esz in Hal. destruct (chunk_vpn T cv va' HT Hal) as [Hiff _].
         rewrite <- Esz in Hiff. destruct (decide (vpn T va' = vpn T cv)) as [Ev|Ev].
         - by rewrite decide_True by (by apply Hiff).
         - rewrite decide_False; [done|]. intros Hd. by apply Ev, Hiff. }
    intros va' Hw'. rewrite Hxl by done.
    rewrite Etg. rewrite Esz in Hal. destruct (chunk_vpn T cv va' HT Hal) as [Hiff Hmod].
    rewrite <- Esz in Hiff, Hmod.
    unfold mapped_to, range_addr. rewrite Ehas, Etg, <- Esz.
    destruct (decide (vpn T va' = vpn T cv)) as [Ev|Ev].
    + rewrite decide_True by (by apply Hiff). destruct (has flags 1); [|done].
      rewrite Hmod by (by apply Hiff). by rewrite Hcpm.
    + rewrite decide_False; [done|]. intros Hd. by apply Ev, Hiff.
Qed.

Lemma range_spec fuel : ∀ own m cv cp bytes,
  tables own m root → (5 ≤ nfree (windows m))%nat →
  3 * (bytes / 0x1000) ≤ fs_avail (msrc m) →
  0 ≤ bytes < 2 ^ 64 → bytes mod 0x1000 = 0 → bytes / 0x1000 < Z.of_nat fuel →
  (0 < bytes → range_ok cv cp bytes) →
  ∃ own' m', mmap_range_loop fuel m root cv cp bytes flags = Ok m' ∧ tables own' m' root ∧
    kept own m own' m' ∧ nfree (windows m') = nfree (windows m) ∧
    fs_avail (msrc m) - 3 * (bytes / 0x1000) ≤ fs_avail (msrc m') ∧
    (∀ va', vpn 1 va' ≠ window_vpn →
      xl 3 (mram m') root va' =
      if decide (0 ≤ va' mod 2 ^ 48 - cv mod 2 ^ 48 < bytes)
      then range_addr cp (va' mod 2 ^ 48 - cv mod 2 ^ 48) else xl 3 (mram m) root va') ∧
    granted_on cv bytes m m'.
Proof using Hfl Hf1 Hf2.
  induction fuel as [|fuel IH]; intros own m cv cp bytes Ht Hn Hav Hb Hbm Hfu Hro; [dlia|].
  cbn [mmap_range_loop]. destruct (Z.ltb_spec 0 bytes) as [Hpos|Hnpos].
  2: { exists own, m. split_and!; try done; [by apply kept_windows|dlia| |].
       all: intros va' Hw'; rewrite decide_False by lia; done. }
  specialize (Hro Hpos).
  assert (Hgo : ∀ sz sf T, chunk sz sf T → sz ≤ bytes → cv mod sz = 0 →
    cp = 0 ∨ cp mod sz = 0 →
    ∃ own' m', (m ← mmap_internal m root cv cp (Z.lor flags sf);
      mmap_range_loop fuel m root (u64 (cv + sz))
        (if negb (cp =? 0) then u64 (cp + sz) else cp) (u64 (bytes - sz)) flags) = Ok m' ∧
      tables own' m' root ∧ kept own m own' m' ∧ nfree (windows m') = nfree (windows m) ∧
      fs_avail (msrc m) - 3 * (bytes / 0x1000) ≤ fs_avail (msrc m') ∧
      (∀ va', vpn 1 va' ≠ window_vpn →
        xl 3 (mram m') root va' =
        if decide (0 ≤ va' mod 2 ^ 48 - cv mod 2 ^ 48 < bytes)
        then range_addr cp (va' mod 2 ^ 48 - cv mod 2 ^ 48) else xl 3 (mram m) root va') ∧
      granted_on cv bytes m m').
  { intros sz sf T Hc Hsz Hal Halp.
    assert (0x1000 ≤ sz ∧ sz mod 0x1000 = 0) as [Hs1 Hs2] by (destruct Hc; done).
    destruct (range_chunk own m cv cp bytes sz sf T) as
      (own1 & m1 & -> & Ht1 & Hc1 & Hn1 & Hav1 & Hxl1 & Hxa1); try done; [dlia|].
    cbn [mbind res_bind]. destruct (Hro) as [Hcv Hend Hwin Hcp].
    assert (u64 (bytes - sz) = bytes - sz) as -> by (apply Z.mod_small; lia).
    set (cp' := if negb (cp =? 0) then u64 (cp + sz) else cp).
    assert (0 < bytes - sz → u64 (cv + sz) mod 2 ^ 48 = cv mod 2 ^ 48 + sz) as Hcv'
      by (intros; unfold u64; dlia).
    assert (cp' = cp ∧ cp = 0 ∧ has flags 1 = false ∨ cp' = cp + sz ∧ 0 < cp ∧ cp mod 0x1000 = 0 ∧ cp + bytes ≤ 2 ^ 52) as Hcp'.
    { unfold cp'. destruct Hcp as [(-> & Hp)|(Hnz & ? & ? & ?)]; [by left|right].
      destruct (Z.eqb_spec cp 0); [lia|]. split; [|lia]. apply Z.mod_small. lia. }
    destruct (IH own1 m1 (u64 (cv + sz)) cp' (bytes - sz)) as
      (own2 & m2 & E2 & Ht2 & Hc2 & Hn2 & Hav2 & Hxl2 & Hxa2); try done; try lia; try dlia.
    - intros Hrest. specialize (Hcv' Hrest). split.
      + split; [unfold u64; apply Z.mod_pos_bound; lia|]. unfold u64. dlia.
      + lia.
      + intros x Hx. apply Hwin. lia.
      + destruct Hcp' as [(-> & -> & Hp)|(-> & ? & ? & ?)]; [by left|right]. clear Hcv Hend Hwin Hcp Hxl1. dlia.
    - exists own2, m2. split_and!; [done|done|by eapply kept_trans|lia|clear -Hav1 Hav2 Hs1 Hs2 Hbm Hb; dlia| |].
      2: { intros va' Hw'. rewrite Hxa2, Hxa1 by done. destruct (decide (bytes = sz)) as [->|Hne].
           - by rewrite decide_False by lia.
           - rewrite Hcv' by lia. repeat case_decide; try lia; done. }
      intros va' Hw'. rewrite Hxl2, Hxl1 by done. unfold range_addr in *.
      destruct (decide (bytes = sz)) as [->|Hne].
      + rewrite decide_False by lia. done.
      + rewrite Hcv' by lia. repeat case_decide; try lia; try done.
        destruct (has flags 1); [|done]. destruct Hcp' as [(_ & _ & ?)|(-> & _)]; [done|lia]. }
  destruct ((PAGE_SIZE_1GB <=? bytes) && (cv mod PAGE_SIZE_1GB =? 0) &&
    ((cp =? 0) || (cp mod PAGE_SIZE_1GB =? 0))) eqn:E1;
    [|destruct ((PAGE_SIZE_2MB <=? bytes) && (cv mod PAGE_SIZE_2MB =? 0) &&
    ((cp =? 0) || (cp mod PAGE_SIZE_2MB =? 0))) eqn:E2].
  - rewrite !andb_true_iff, orb_true_iff, Z.leb_le, !Z.eqb_eq in E1.
    apply (Hgo _ _ _ chunk_1gb); tauto.
  - rewrite !andb_true_iff, orb_true_iff, Z.leb_le, !Z.eqb_eq in E2.
    apply (Hgo _ _ _ chunk_2mb); tauto.
  - destruct Hro as [Hcv Hend Hwin Hcp].
    apply (Hgo _ _ _ chunk_4kb); [unfold PAGE_SIZE_4KB; clear -Hbm Hpos; dlia|apply Hcv|].
    destruct Hcp as [[? _]|(_ & ? & _)]; [by left|by right].
Qed.

End range.

(** The range operation on [n] pages, present or not, in terms of the
    translation. *)
Lemma range_pages own (m : machine S) root virt phys n flags :
  tables own m root → (5 ≤ nfree (windows m))%nat → 3 * n ≤ fs_avail (msrc m) → 0 ≤ n < 2 ^ 40 →
  0 ≤ flags < 2 ^ 64 → has flags PAGE_1GB = false → has flags PAGE_2MB = false →
  (0 < n → range_ok flags virt phys (n * 0x1000)) →
  ∃ own' m', mmap_range_internal m root virt phys n flags = Ok m' ∧ tables own' m' root ∧ kept own m own' m' ∧
    nfree (windows m') = nfree (windows m) ∧ fs_avail (msrc m) - 3 * n ≤ fs_avail (msrc m') ∧
    (∀ va', vpn 1 va' ≠ window_vpn →
      xl 3 (mram m') root va' =
      if decide (0 ≤ va' mod 2 ^ 48 - virt mod 2 ^ 48 < n * 0x1000)
      then range_addr flags phys (va' mod 2 ^ 48 - virt mod 2 ^ 48) else xl 3 (mram m) root va') ∧
    granted_on root flags virt (n * 0x1000) m m'.
Proof.
  intros Ht Hn Hav Hn40 Hfl Hf1 Hf2 Hro. unfold mmap_range_internal, PAGE_SIZE_4KB.
  assert (u64 (n * 0x1000) = n * 0x1000) as -> by (apply Z.mod_small; lia).
  destruct (range_spec root flags Hfl Hf1 Hf2
    (Datatypes.S (Z.to_nat (n * 0x1000 / 0x1000))) own m virt phys (n * 0x1000))
    as (own' & m' & E & Ht' & Hk' & Hn' & Hav' & Hxl & Hxa);
    rewrite ?Z.div_mul, ?Z.mod_mul in * by lia; try done; try lia.
  - intros. apply Hro. lia.
  - exists own', m'. split_and!; done.
Qed.

End thm.

(** ** A concrete machine *)

(** A frame allocator with 36 free frames, an empty top-level table in frame
    1 and the window table in frame 2, eight windows. *)
Definition demo_machine : machine pmm :=
  mkMachine
    (<[0x2000 := <[511%nat := Z.lor 0x2000 3]> zero_frame]> ∅)
    demo_pmm (replicate 8 (mkWindow 0 0 0 0)) true 0xFFFF800000000000 0x1000 0x2000 0x1000.

Definition demo_own : gmap Z (nat * Z) := {[0x1000 := (3%nat, 0)]}.

Lemma demo_tables : tables demo_own demo_machine 0x1000.
Proof.
  assert (frame (mram demo_machine) 0x1000 = zero_frame) as Ez by done.
  assert (∀ i, 0 ≤ i < 512 → at_ zero_frame i = 0) as Hz.
  { intros i Hi. unfold at_, zero_frame. apply lookup_total_replicate_2. lia. }
  split.
  - split; [done|vm_compute; lia|split; [simpl; lia|done]|done| |done|].
    + apply (bool_decide_eq_true_1 _). vm_compute. reflexivity.
    + intros i w Hw. left. apply lookup_replicate in Hw as [-> _]. done.
  - intros g. unfold demo_machine. simpl. rewrite frame_insert. by case_decide.
  - unfold demo_own. split.
    + apply lookup_singleton_eq.
    + intros l p Hl. by apply lookup_singleton_Some in Hl as [? _].
    + intros f l p Hl. apply lookup_singleton_Some in Hl as [<- [= <- <-]].
      split; [|lia]. split; [lia|done].
    + intros f l p Hl. apply lookup_singleton_Some in Hl as [<- _]. intros _. rewrite Ez.
      apply (bool_decide_eq_true_1 _). vm_compute. reflexivity.
    + intros f l p i Hl Hi. apply lookup_singleton_Some in Hl as [<- _].
      rewrite Ez, Hz by done. done.
    + intros f l p i Hl _ Hi. apply lookup_singleton_Some in Hl as [<- _].
      rewrite Ez, Hz by done. done.
  - intros f [x Hf]. unfold demo_own in Hf. apply lookup_singleton_Some in Hf as [<- _]. right. done.
  - right. done.
  - split; [apply demo_pmm_ok|]. split; [done|]. vm_compute. discriminate.
Qed.

(** ** Properties *)

(** C4. [paging_mmap] maps exactly one page: on a well-formed page-table tree
    with five free windows and three free frames it returns, the tree stays
    well formed and the windows are given back; afterwards [vaddr_to_paddr]
    sends every address of the (4 KiB, 2 MiB or 1 GiB) page to the requested
    frame plus its offset (or to nothing when the flags lack the present bit),
    and every other address where it went before, whether the walk had to
    allocate tables or split huge pages. *)
Theorem paging_mmap_one_page {S} `{FrameSource S} own (m : machine S) root va phys flags :
  tables own m root → (5 ≤ nfree (windows m))%nat → 3 ≤ fs_avail (msrc m) →
  vpn 1 va ≠ window_vpn → 0 ≤ flags < 2 ^ 64 →
  Z.land phys PAGE_PHYS_MASK mod 2 ^ (12 + 9 * Z.of_nat (target flags)) = 0 →
  ∃ own' m', paging_mmap m root va phys flags = Ok m' ∧ tables own' m' root ∧
    nfree (windows m') = nfree (windows m) ∧
    ∀ va', vpn 1 va' ≠ window_vpn →
      ∃ p m1 m2, vaddr_to_paddr m root va' = Ok (p, m1) ∧
        vaddr_to_paddr m' root va' =
          Ok (if decide (vpn (target flags) va' = vpn (target flags) va)
              then mapped_to phys flags va' else p, m2).
Proof.
  intros Ht Hn Hav Hw Hfl Hal.
  destruct (mmap_internal_spec own m root va phys flags Ht Hn Hav Hw Hfl Hal)
    as (own' & m' & E & Ht' & _ & Hn' & _ & Hxl & _).
  exists own', m'. split_and!; try done. intros va' Hw'.
  destruct (vaddr_to_paddr_spec own m root va' Ht Hw') as (m1 & E1 & _); [lia|].
  destruct (vaddr_to_paddr_spec own' m' root va' Ht' Hw') as (m2 & E2 & _); [lia|].
  rewrite Hxl in E2 by done. eauto.
Qed.

Lemma paging_mmap_one_page_witness :
  ∃ own' m', paging_mmap demo_machine 0x1000 0x400000 0x5000 3 = Ok m' ∧
    tables own' m' 0x1000 ∧
    nfree (windows m') = nfree (windows demo_machine) ∧
    ∀ va', vpn 1 va' ≠ window_vpn →
      ∃ p m1 m2, vaddr_to_paddr demo_machine 0x1000 va' = Ok (p, m1) ∧
        vaddr_to_paddr m' 0x1000 va' =
          Ok (if decide (vpn (target 3) va' = vpn (target 3) 0x400000)
              then mapped_to 0x5000 3 va' else p, m2).
Proof.
  apply (paging_mmap_one_page demo_own demo_machine 0x1000 0x400000 0x5000 3).
  - apply demo_tables.
  - vm_compute. lia.
  - vm_compute. discriminate.
  - vm_compute. discriminate.
  - lia.
  - vm_compute. reflexivity.
Defined.

(** C7. [paging_multiple_mmap] maps a range: each byte of the
    [size_in_pages] pages from [virt] translates to the byte at the same
    distance from [phys], whatever mixture of 1 GiB, 2 MiB and 4 KiB pages the
    loop chose, and every address outside the range keeps its translation. *)
Theorem paging_multiple_mmap_range {S} `{FrameSource S} own (m : machine S)
    root virt phys n flags :
  tables own m root → (5 ≤ nfree (windows m))%nat → 3 * n ≤ fs_avail (msrc m) →
  0 ≤ n < 2 ^ 40 → 0 ≤ virt < 2 ^ 64 → virt mod 0x1000 = 0 →
  virt mod 2 ^ 48 + n * 0x1000 ≤ 2 ^ 48 →
  (∀ x, 0 ≤ x mod 2 ^ 48 - virt mod 2 ^ 48 < n * 0x1000 → vpn 1 x ≠ window_vpn) →
  0 < phys → phys mod 0x1000 = 0 → phys + n * 0x1000 ≤ 2 ^ 52 →
  0 ≤ flags < 2 ^ 64 → has flags 1 = true →
  has flags PAGE_1GB = false → has flags PAGE_2MB = false →
  ∃ own' m', paging_multiple_mmap m root virt phys n flags = Ok m' ∧ tables own' m' root ∧
    nfree (windows m') = nfree (windows m) ∧
    ∀ va', vpn 1 va' ≠ window_vpn →
      let d := va' mod 2 ^ 48 - virt mod 2 ^ 48 in
      ∃ p m1 m2, vaddr_to_paddr m root va' = Ok (p, m1) ∧
        vaddr_to_paddr m' root va' =
          Ok (if decide (0 ≤ d < n * 0x1000) then phys + d else p, m2).
Proof.
  intros Ht Hn Hav Hn40 Hv Hva Hend Hwin Hp Hpa Hpe Hfl Hpr Hf1 Hf2.
  destruct (range_pages own m root virt phys n flags) as (own' & m' & E & Ht' & _ & Hn' & _ & Hxl & _); try done.
  - intros _. split; try done. right. lia.
  - exists own', m'. split_and!; try done. intros va' Hw'.
    destruct (vaddr_to_paddr_spec own m root va' Ht Hw') as (m1 & E1 & _); [lia|].
    destruct (vaddr_to_paddr_spec own' m' root va' Ht' Hw') as (m2 & E2 & _); [lia|].
    rewrite Hxl in E2 by done. unfold range_addr in E2. rewrite Hpr in E2. eauto.
Qed.

Lemma paging_multiple_mmap_range_witness :
  ∃ own' m', paging_multiple_mmap demo_machine 0x1000 0x400000 0x8000 3 3 = Ok m' ∧
    tables own' m' 0x1000 ∧
    nfree (windows m') = nfree (windows demo_machine) ∧
    ∀ va', vpn 1 va' ≠ window_vpn →
      let d := va' mod 2 ^ 48 - 0x400000 mod 2 ^ 48 in
      ∃ p m1 m2, vaddr_to_paddr demo_machine 0x1000 va' = Ok (p, m1) ∧
        vaddr_to_paddr m' 0x1000 va' =
          Ok (if decide (0 ≤ d < 3 * 0x1000) then 0x8000 + d else p, m2).
Proof.
  apply (paging_multiple_mmap_range demo_own demo_machine 0x1000 0x400000 0x8000 3 3);
    try lia; try done.
  - apply demo_tables.
  - vm_compute. lia.
  - intros x Hx. unfold vpn, window_vpn. change (0x400000 mod 2 ^ 48) with 0x400000 in Hx.
    change (12 + 9 * Z.of_nat 1) with 21. change (vpn 1 mem_vma_phys_window_start) with 0x6800000.
    clear -Hx. dlia.
Defined.

(** [paging_multiple_unmap] removes every page of its range from the
    translation and leaves the others. *)
Theorem paging_multiple_unmap_range {S} `{FrameSource S} own (m : machine S) root virt n :
  tables own m root → (5 ≤ nfree (windows m))%nat → 3 * n ≤ fs_avail (msrc m) →
  0 ≤ n < 2 ^ 40 → 0 ≤ virt < 2 ^ 64 → virt mod 0x1000 = 0 →
  virt mod 2 ^ 48 + n * 0x1000 ≤ 2 ^ 48 →
  (∀ x, 0 ≤ x mod 2 ^ 48 - virt mod 2 ^ 48 < n * 0x1000 → vpn 1 x ≠ window_vpn) →
  ∃ own' m', paging_multiple_unmap m root virt n = Ok m' ∧ tables own' m' root ∧
    nfree (windows m') = nfree (windows m) ∧
    ∀ va', vpn 1 va' ≠ window_vpn →
      ∃ p m1 m2, vaddr_to_paddr m root va' = Ok (p, m1) ∧
        vaddr_to_paddr m' root va' =
          Ok (if decide (0 ≤ va' mod 2 ^ 48 - virt mod 2 ^ 48 < n * 0x1000) then 0 else p, m2).
Proof.
  intros Ht Hn Hav Hn40 Hv Hva Hend Hwin.
  destruct (range_pages own m root virt 0 n 0) as (own' & m' & E & Ht' & _ & Hn' & _ & Hxl & _); try done.
  - intros _. split; try done. by left.
  - exists own', m'. split_and!; try done. intros va' Hw'.
    destruct (vaddr_to_paddr_spec own m root va' Ht Hw') as (m1 & E1 & _); [lia|].
    destruct (vaddr_to_paddr_spec own' m' root va' Ht' Hw') as (m2 & E2 & _); [lia|].
    rewrite Hxl in E2 by done. eauto.
Qed.

Lemma paging_multiple_unmap_range_witness :
  ∃ own' m', paging_multiple_unmap demo_machine 0x1000 0x400000 2 = Ok m' ∧
    tables own' m' 0x1000 ∧
    nfree (windows m') = nfree (windows demo_machine) ∧
    ∀ va', vpn 1 va' ≠ window_vpn →
      ∃ p m1 m2, vaddr_to_paddr demo_machine 0x1000 va' = Ok (p, m1) ∧
        vaddr_to_paddr m' 0x1000 va' =
          Ok (if decide (0 ≤ va' mod 2 ^ 48 - 0x400000 mod 2 ^ 48 < 2 * 0x1000)
              then 0 else p, m2).
Proof.
  apply (paging_multiple_unmap_range demo_own demo_machine 0x1000 0x400000 2);
    try lia; try done.
  - apply demo_tables.
  - vm_compute. lia.
  - intros x Hx. unfold vpn, window_vpn. change (0x400000 mod 2 ^ 48) with 0x400000 in Hx.
    change (12 + 9 * Z.of_nat 1) with 21. change (vpn 1 mem_vma_phys_window_start) with 0x6800000.
    clear -Hx. dlia.
Defined.

(** A window created with the lock flag reaches its frame, never takes the
    slot of another locked window or changes what that one reaches, and
    releasing it makes its slot available again; without a free slot the call
    reports [PHYS_WINDOW_STATUS_NOT_FOUND] and changes nothing. *)
Theorem physwindow_exclusive {S} `{FrameSource S} (m : machine S) f :
  ready m → page_frame f →
  let fl := Z.lor PHYS_WINDOW_FLAG_WRITE PHYS_WINDOW_FLAG_LOCK in
  if decide (0 < nfree (windows m))%nat then
    ∃ v m', mem_create_physwindow m f fl = Ok (PHYS_WINDOW_STATUS_OK, Some v, m') ∧
      deref m' v = Ok f ∧
      (∀ v' g, live m v' g → v' ≠ v ∧ deref m' v' = Ok g) ∧
      nfree (windows (mem_release_physwindow m' v).2) = nfree (windows m)
  else mem_create_physwindow m f fl = Ok (PHYS_WINDOW_STATUS_NOT_FOUND, None, m).
Proof.
  intros Hr Hf fl. case_decide as Hn.
  - destruct (mem_create_opened m f fl Hr Hn eq_refl) as (i & w & Hw & Hl & E).
    destruct (opened_spec m i w f fl Hr Hf Hw Hl) as (Hr' & Hlv & Hst & Hn' & Hp).
    do 2 eexists. split; [exact E|].
    split; [by apply live_deref|]. split.
    + intros v' g Hg. destruct (Hp v' g Hg) as [? Hg']. split; [done|]. by apply live_deref.
    + destruct (release_spec _ _ _ Hr' Hlv) as (_ & _ & _ & Hn2 & _).
      unfold release_table_vaddr in Hn2. rewrite (rd_set _ Hr') in Hn2.
      destruct (Z.eqb_spec (slot_addr i) 0) as [E0|_]; [by destruct (slot_addr_nz i)|].
      cbn [andb negb] in Hn2. rewrite Hn2. lia.
  - unfold mem_create_physwindow.
    assert (∀ ws k, nfree ws = 0%nat → find_unlocked ws k = None) as Hnone.
    { unfold nfree. induction ws as [|w ws IH]; intros k; [done|]. rewrite filter_cons.
      simpl. destruct (Z.eqb_spec (lock w) 0); case_decide; simpl; try done. apply IH. }
    by rewrite Hnone by lia.
Qed.

Lemma physwindow_exclusive_witness :
  let fl := Z.lor PHYS_WINDOW_FLAG_WRITE PHYS_WINDOW_FLAG_LOCK in
  if decide (0 < nfree (windows demo_machine))%nat then
    ∃ v m', mem_create_physwindow demo_machine 0x5000 fl =
        Ok (PHYS_WINDOW_STATUS_OK, Some v, m') ∧
      deref m' v = Ok 0x5000 ∧
      (∀ v' g, live demo_machine v' g → v' ≠ v ∧ deref m' v' = Ok g) ∧
      nfree (windows (mem_release_physwindow m' v).2) = nfree (windows demo_machine)
  else mem_create_physwindow demo_machine 0x5000 fl =
       Ok (PHYS_WINDOW_STATUS_NOT_FOUND, None, demo_machine).
Proof.
  apply (physwindow_exclusive demo_machine 0x5000); [apply demo_tables|].
  split; [lia|done].
Defined.
