(* ===== verification/GrowBitmap.v ===== *)
(** * Growing page bitmap

    [kernel/libk/grow_bitmap.h]: the allocator of virtual pages of the kernel
    regions.  A block is one physical frame of 512 words, one bit per page;
    blocks are reached through physical windows and the number of blocks
    doubles when no block has a long enough run. *)

From S2P Require Import Prelude Bitmap Frames Paging PagingWin PagingThm.

Definition GROW_BITMAP_BLOCK_PAGES : Z := 32768.
Definition GROW_BITMAP_WORDS_PER_BLOCK : Z := 512.
Definition GROW_BITMAP_ABSOLUTE_MAX_BLOCKS : Z := 256.

Record grow_bitmap := mkGb {
  base_vaddr : Z; page_size : Z; blocks_phys : list Z; active_blocks : Z; max_blocks : Z }.

Definition set_blocks (gb : grow_bitmap) (bs : list Z) (n : Z) : grow_bitmap :=
  mkGb (base_vaddr gb) (page_size gb) bs n (max_blocks gb).

Section gb.
Context {S : Type} `{FrameSource S}.
Implicit Types m : machine S.

(** [mem_create_physwindow(phys, &virt, READ | WRITE | LOCK)] with [virt]
    zero before the call. *)
Definition gb_window m (phys : Z) : res (Z * machine S) :=
  '(_, v, m) ← mem_create_physwindow m phys
     (Z.lor (Z.lor PHYS_WINDOW_FLAG_READ PHYS_WINDOW_FLAG_WRITE) PHYS_WINDOW_FLAG_LOCK);
  Ok (default 0 v, m).

(** [for (i < WORDS_PER_BLOCK) bitmap[i] = 0]. *)
Fixpoint gb_zero (n : nat) m (virt i : Z) : res (machine S) :=
  match n with
  | O => Ok m
  | Datatypes.S n => m ← tbl_write m virt i 0; gb_zero n m virt (i + 1)
  end.

(** [bitmap[b / 64] |= 1 << (b % 64)] for [n] consecutive bits. *)
Fixpoint gb_set_bits (n : nat) m (virt b : Z) : res (machine S) :=
  match n with
  | O => Ok m
  | Datatypes.S n =>
      w ← tbl_read m virt (b / 64);
      m ← tbl_write m virt (b / 64) (Z.lor w (Z.shiftl 1 (b mod 64)) mod 2 ^ 64);
      gb_set_bits n m virt (b + 1)
  end.

Fixpoint gb_clear_bits (n : nat) m (virt b : Z) : res (machine S) :=
  match n with
  | O => Ok m
  | Datatypes.S n =>
      w ← tbl_read m virt (b / 64);
      m ← tbl_write m virt (b / 64) (Z.land w (Z.lnot (Z.shiftl 1 (b mod 64))) mod 2 ^ 64);
      gb_clear_bits n m virt (b + 1)
  end.

Definition grow_bitmap_init m (base_vaddr page_size max_capacity_mb : Z) :
    res (grow_bitmap * machine S) :=
  let mx := u64 (max_capacity_mb + 127) / 128 in
  let mx := if mx =? 0 then 1 else mx in
  let mx := if GROW_BITMAP_ABSOLUTE_MAX_BLOCKS <? mx
            then GROW_BITMAP_ABSOLUTE_MAX_BLOCKS else mx in
  let blocks := replicate 256 0 in
  '(phys, m) ← alloc_frame m;
  let blocks := <[0%nat := phys]> blocks in
  '(virt, m) ← gb_window m phys;
  m ← gb_zero 512 m virt 0;
  Ok (mkGb base_vaddr page_size blocks 1 mx, (mem_release_physwindow m virt).2).

(** The search of one block. *)
Inductive search := SFound (start_bit : Z) | SNext (consecutive start_bit : Z).

(** The bits of word [i] from [bit] on. *)
Fixpoint gb_search_bits (n : nat) (word i bit page_count consecutive start_bit : Z) : search :=
  match n with
  | O => SNext consecutive start_bit
  | Datatypes.S n =>
      if Z.land word (Z.shiftl 1 bit) =? 0 then
        let start_bit := if consecutive =? 0 then i * 64 + bit else start_bit in
        let consecutive := consecutive + 1 in
        if consecutive =? page_count then SFound start_bit
        else gb_search_bits n word i (bit + 1) page_count consecutive start_bit
      else gb_search_bits n word i (bit + 1) page_count 0 start_bit
  end.

Fixpoint gb_search_words (n : nat) m (virt i page_count consecutive start_bit : Z) :
    res search :=
  match n with
  | O => Ok (SNext consecutive start_bit)
  | Datatypes.S n =>
      word ← tbl_read m virt i;
      if word =? 0xFFFFFFFFFFFFFFFF
      then gb_search_words n m virt (i + 1) page_count 0 start_bit
      else
        match gb_search_bits 64 word i 0 page_count consecutive start_bit with
        | SFound start_bit => Ok (SFound start_bit)
        | SNext consecutive start_bit =>
            gb_search_words n m virt (i + 1) page_count consecutive start_bit
        end
  end.

(** The loop over the active blocks: the address, when one was found. *)
Fixpoint gb_search_blocks (n : nat) m (gb : grow_bitmap) (b page_count start_bit : Z) :
    res (option Z * machine S) :=
  match n with
  | O => Ok (None, m)
  | Datatypes.S n =>
      phys ← aget (blocks_phys gb) b;
      '(virt, m) ← gb_window m phys;
      o ← gb_search_words 512 m virt 0 page_count 0 start_bit;
      match o with
      | SFound start_bit =>
          m ← gb_set_bits (Z.to_nat page_count) m virt start_bit;
          Ok (Some (u64 (base_vaddr gb +
                u64 (u64 (b * GROW_BITMAP_BLOCK_PAGES + start_bit) * page_size gb))),
              (mem_release_physwindow m virt).2)
      | SNext _ start_bit =>
          gb_search_blocks n (mem_release_physwindow m virt).2 gb (b + 1) page_count start_bit
      end
  end.

(** One iteration of the loop that adds blocks; the first one serves the
    request. *)
Definition gb_add_block m (gb : grow_bitmap) (i page_count : Z) :
    res (grow_bitmap * machine S) :=
  let new_b := active_blocks gb in
  '(phys, m) ← alloc_frame m;
  bs ← aset (blocks_phys gb) new_b phys;
  let gb := set_blocks gb bs (new_b + 1) in
  '(virt, m) ← gb_window m phys;
  m ← gb_zero 512 m virt 0;
  m ← (if i =? 0 then gb_set_bits (Z.to_nat page_count) m virt 0 else Ok m);
  Ok (gb, (mem_release_physwindow m virt).2).

Fixpoint gb_grow (n : nat) m (gb : grow_bitmap) (i page_count : Z) :
    res (grow_bitmap * machine S) :=
  match n with
  | O => Ok (gb, m)
  | Datatypes.S n =>
      '(gb, m) ← gb_add_block m gb i page_count;
      gb_grow n m gb (i + 1) page_count
  end.

Definition grow_bitmap_alloc_pages m (gb : grow_bitmap) (page_count : Z) :
    res (Z * grow_bitmap * machine S) :=
  if (page_count =? 0) || (GROW_BITMAP_BLOCK_PAGES <? page_count) then Ok (0, gb, m)
  else
    '(o, m) ← gb_search_blocks (Z.to_nat (active_blocks gb)) m gb 0 page_count 0;
    match o with
    | Some addr => Ok (addr, gb, m)
    | None =>
        if active_blocks gb <? max_blocks gb then
          let blocks_to_add :=
            if max_blocks gb <? u64 (active_blocks gb + active_blocks gb)
            then max_blocks gb - active_blocks gb else active_blocks gb in
          let start_new_b := active_blocks gb in
          '(gb, m) ← gb_grow (Z.to_nat blocks_to_add) m gb 0 page_count;
          Ok (u64 (base_vaddr gb +
                u64 (u64 (start_new_b * GROW_BITMAP_BLOCK_PAGES) * page_size gb)), gb, m)
        else Ok (0, gb, m)
    end.

Definition grow_bitmap_alloc m (gb : grow_bitmap) : res (Z * grow_bitmap * machine S) :=
  grow_bitmap_alloc_pages m gb 1.

Definition grow_bitmap_free_pages m (gb : grow_bitmap) (vaddr page_count : Z) :
    res (machine S) :=
  if vaddr <? base_vaddr gb then Ok m
  else
    let total_page_idx := (vaddr - base_vaddr gb) / page_size gb in
    let block_idx := total_page_idx / GROW_BITMAP_BLOCK_PAGES in
    let bit_idx := total_page_idx mod GROW_BITMAP_BLOCK_PAGES in
    if active_blocks gb <=? block_idx then Ok m
    else
      phys ← aget (blocks_phys gb) block_idx;
      if phys =? 0 then Ok m
      else
        '(virt, m) ← gb_window m phys;
        m ← gb_clear_bits (Z.to_nat page_count) m virt bit_idx;
        Ok (mem_release_physwindow m virt).2.

Definition grow_bitmap_free m (gb : grow_bitmap) (vaddr : Z) : res (machine S) :=
  grow_bitmap_free_pages m gb vaddr 1.

(** ** Writes to one frame *)

(** [m'] is [m] with the contents of frame [f] replaced. *)
Record wrote m (f : Z) (t : list Z) m' : Prop := {
  wr_windows : windows m' = windows m;
  wr_src : msrc m' = msrc m;
  wr_set : paging_has_been_set m' = paging_has_been_set m;
  wr_pt : physwindow_pt_phys m' = physwindow_pt_phys m;
  wr_frame g : frame (mram m') g = if decide (g = f) then t else frame (mram m) g }.

Lemma wrote_refl m f : wrote m f (frame (mram m) f) m.
Proof using. split; try done. intros g. by case_decide; subst. Qed.

Lemma wrote_trans m f t m1 t' m2 : wrote m f t m1 → wrote m1 f t' m2 → wrote m f t' m2.
Proof using.
  intros [] []. split; try congruence. intros g. rewrite wr_frame1, wr_frame0.
  by case_decide.
Qed.

Lemma wrote_upd m f t : wrote m f t (upd m f t).
Proof using.
  split; try done. intros g. rewrite frame_upd.
  destruct (decide (f = g)), (decide (g = f)); congruence.
Qed.

Lemma wrote_pt_frame m f t m' : wrote m f t m' → f ≠ physwindow_pt_phys m → pt_frame m' = pt_frame m.
Proof using. intros [] Hf. unfold pt_frame. by rewrite wr_pt0, wr_frame0, decide_False. Qed.

Lemma wrote_ready m f t m' : wrote m f t m' → f ≠ physwindow_pt_phys m → ready m → ready m'.
Proof using.
  intros Hw Hf []. pose proof (wrote_pt_frame _ _ _ _ Hw Hf) as Ept. destruct Hw.
  split; rewrite ?Ept, ?wr_set0, ?wr_windows0, ?wr_pt0; done.
Qed.

Lemma wrote_live m f t m' v g :
  wrote m f t m' → f ≠ physwindow_pt_phys m → live m v g → live m' v g.
Proof using.
  intros Hw Hf (i & w & ?). exists i, w.
  by rewrite (wrote_pt_frame _ _ _ _ Hw Hf), (wr_windows _ _ _ _ Hw).
Qed.

(** A locked window onto [f], and the frame of 512 words behind it. *)
Record open m (v f : Z) (t : list Z) : Prop := {
  op_ready : ready m;
  op_live : live m v f;
  op_pt : f ≠ physwindow_pt_phys m;
  op_frame : frame (mram m) f = t;
  op_len : length t = 512%nat;
  op_words : words 64 t }.

Lemma open_wrote m v f t m' t' :
  open m v f t → wrote m f t' m' → length t' = 512%nat → words 64 t' → open m' v f t'.
Proof using.
  intros [] Hw Hl Hws. split; try done.
  - by eapply wrote_ready.
  - by eapply wrote_live.
  - by rewrite (wr_pt _ _ _ _ Hw).
  - rewrite (wr_frame _ _ _ _ Hw). by rewrite decide_True.
Qed.

Lemma open_read m v f t i : open m v f t → 0 ≤ i < 512 → tbl_read m v i = Ok (at_ t i).
Proof using.
  intros [] Hi. rewrite (tbl_read_live m v f); [by rewrite op_frame0|done|done|].
  rewrite op_frame0. lia.
Qed.

Lemma open_write m v f t i x :
  open m v f t → 0 ≤ i < 512 → 0 ≤ x < 2 ^ 64 →
  ∃ m', tbl_write m v i x = Ok m' ∧ wrote m f (<[Z.to_nat i := x]> t) m' ∧
    open m' v f (<[Z.to_nat i := x]> t).
Proof using.
  intros Ho Hi Hx. destruct (Ho). eexists. split.
  { apply (tbl_write_live m v f); [done|done|]. rewrite op_frame0. lia. }
  rewrite op_frame0. pose proof (wrote_upd m f (<[Z.to_nat i := x]> t)) as Hw.
  split; [done|]. eapply open_wrote; [done..|by rewrite length_insert|].
  by apply words_insert.
Qed.

Lemma gb_zero_spec n : ∀ m v f t i,
  open m v f t → 0 ≤ i → i + Z.of_nat n = 512 →
  (∀ k, 0 ≤ k < i → at_ t k = 0) →
  ∃ m', gb_zero n m v i = Ok m' ∧ wrote m f zero_frame m' ∧ open m' v f zero_frame.
Proof using.
  induction n as [|n IH]; intros m v f t i Ho Hi Hn Hz; simpl.
  - assert (t = zero_frame) as ->.
    { apply at_ext; [by rewrite (op_len _ _ _ _ Ho)|]. intros k Hk.
      rewrite (op_len _ _ _ _ Ho) in Hk. rewrite Hz by lia.
      unfold at_, zero_frame. rewrite lookup_total_replicate_2; [done|lia]. }
    exists m. split_and!; try done. rewrite <- (op_frame _ _ _ _ Ho). apply wrote_refl.
  - destruct (open_write m v f t i 0 Ho) as (m1 & -> & Hw1 & Ho1); [lia..|].
    cbn [mbind res_bind].
    destruct (IH m1 v f _ (i + 1) Ho1) as (m2 & E2 & Hw2 & Ho2); [lia..| |].
    + intros k Hk. rewrite at_insert by (rewrite ?(op_len _ _ _ _ Ho); lia).
      case_decide; [done|]. apply Hz. lia.
    + exists m2. split_and!; [done| |done]. by eapply wrote_trans.
Qed.

Lemma gb_set_bits_spec n : ∀ m v f t b,
  open m v f t → 0 ≤ b → b + Z.of_nat n ≤ 32768 →
  ∃ m' t', gb_set_bits n m v b = Ok m' ∧ wrote m f t' m' ∧ open m' v f t' ∧
    ∀ k, 0 ≤ k → bit 64 t' k = bit 64 t k || in_run b (Z.of_nat n) k.
Proof using.
  induction n as [|n IH]; intros m v f t b Ho Hb Hn; simpl.
  - exists m, t. split_and!; [done| |done|].
    + rewrite <- (op_frame _ _ _ _ Ho). apply wrote_refl.
    + intros k Hk. unfold in_run. zcases; by rewrite orb_false_r.
  - destruct (bit_set_spec 64 ltac:(lia) t b) as (t1 & E1 & Hl1 & Hws1 & Hb1);
      [by apply Ho|rewrite (op_len _ _ _ _ Ho); lia|].
    unfold bit_set in E1. rewrite aget_ok in E1 by (rewrite (op_len _ _ _ _ Ho); dlia).
    cbn [mbind res_bind] in E1. apply aset_inv in E1 as [_ ->].
    rewrite (open_read _ _ _ _ _ Ho) by dlia. cbn [mbind res_bind].
    edestruct (open_write m v f t (b / 64)) as (m1 & -> & Hw1 & Ho1);
      [done|dlia|apply (Z.mod_pos_bound _ (2 ^ 64)); lia|].
    cbn [mbind res_bind].
    destruct (IH m1 v f _ (b + 1) Ho1) as (m2 & t2 & E2 & Hw2 & Ho2 & Hb2); [lia..|].
    exists m2, t2. split_and!; [done| |done|].
    + by eapply wrote_trans.
    + intros k Hk. rewrite Hb2, Hb1, <- orb_assoc by done. f_equal. unfold in_run. zcases.
Qed.

Lemma gb_clear_bits_spec n : ∀ m v f t b,
  open m v f t → 0 ≤ b → b + Z.of_nat n ≤ 32768 →
  ∃ m' t', gb_clear_bits n m v b = Ok m' ∧ wrote m f t' m' ∧ open m' v f t' ∧
    ∀ k, 0 ≤ k → bit 64 t' k = bit 64 t k && negb (in_run b (Z.of_nat n) k).
Proof using.
  induction n as [|n IH]; intros m v f t b Ho Hb Hn; simpl.
  - exists m, t. split_and!; [done| |done|].
    + rewrite <- (op_frame _ _ _ _ Ho). apply wrote_refl.
    + intros k Hk. unfold in_run. zcases; by rewrite andb_true_r.
  - destruct (bit_clear_spec 64 ltac:(lia) t b) as (t1 & E1 & Hl1 & Hws1 & Hb1);
      [by apply Ho|rewrite (op_len _ _ _ _ Ho); lia|].
    unfold bit_clear in E1. rewrite aget_ok in E1 by (rewrite (op_len _ _ _ _ Ho); dlia).
    cbn [mbind res_bind] in E1. apply aset_inv in E1 as [_ ->].
    rewrite (open_read _ _ _ _ _ Ho) by dlia. cbn [mbind res_bind].
    edestruct (open_write m v f t (b / 64)) as (m1 & -> & Hw1 & Ho1);
      [done|dlia|apply (Z.mod_pos_bound _ (2 ^ 64)); lia|].
    cbn [mbind res_bind].
    destruct (IH m1 v f _ (b + 1) Ho1) as (m2 & t2 & E2 & Hw2 & Ho2 & Hb2); [lia..|].
    exists m2, t2. split_and!; [done| |done|].
    + by eapply wrote_trans.
    + intros k Hk. rewrite Hb2, Hb1, <- andb_assoc by done. f_equal.
      rewrite <- negb_orb. f_equal. unfold in_run. zcases.
Qed.

(** ** The search of a block *)

Lemma bit_word t i b : 0 ≤ i → 0 ≤ b < 64 → bit 64 t (i * 64 + b) = Z.testbit (at_ t i) b.
Proof using.
  intros Hi Hb. unfold bit. rewrite Z.div_add_l, (Z.div_small b), Z.add_0_r by lia.
  by rewrite (Z.add_comm (i * 64)), Z.mod_add, Z.mod_small by lia.
Qed.

Section search.
Context (t : list Z) (n : Z).
Hypotheses (Hn : 0 < n ≤ 32768).

Abbreviation inv := (run_inv (bit 64 t) 32768 n).
Abbreviation found := (first_fit_in (bit 64 t) 32768 n).

Lemma gb_search_bits_spec k : ∀ i b c st,
  inv (i * 64 + b) c st → 0 ≤ i < 512 → 0 ≤ b → b + Z.of_nat k = 64 →
  match gb_search_bits k (at_ t i) i b n c st with
  | SFound a => found a
  | SNext c' st' => inv (i * 64 + 64) c' st'
  end.
Proof using Hn.
  induction k as [|k IH]; intros i b c st Hinv Hi Hb Hk; cbn [gb_search_bits].
  { by replace (i * 64 + 64) with (i * 64 + b) by lia. }
  rewrite land_bit_zero, <- bit_word by lia.
  destruct (bit 64 t (i * 64 + b)) eqn:Eb; cbn [negb].
  - apply IH; [|lia..]. rewrite Z.add_assoc.
    apply (run_inv_skip _ _ _ (proj1 Hn) _ _ _ _ Hinv); [lia|].
    intros j Hj. by replace j with (i * 64 + b) by lia.
  - destruct (Z.eqb_spec (c + 1) n).
    + apply run_inv_found; done || lia.
    + apply IH; [|lia..]. rewrite Z.add_assoc. apply run_inv_free; done || lia.
Qed.

Lemma gb_search_words_spec k : ∀ m v f i c st,
  open m v f t → inv (i * 64) c st → 0 ≤ i → i + Z.of_nat k = 512 →
  ∃ o, gb_search_words k m v i n c st = Ok o ∧
    match o with
    | SFound a => found a
    | SNext _ _ => ∀ a, ¬ fits_in (bit 64 t) 32768 n a
    end.
Proof using Hn.
  induction k as [|k IH]; intros m v f i c st Ho Hinv Hi Hk; cbn [gb_search_words].
  { eexists. split; [done|]. intros a.
    eapply (run_inv_end _ _ _ (proj1 Hn)); [exact Hinv|lia]. }
  rewrite (open_read _ _ _ _ _ Ho) by lia. cbn [mbind res_bind].
  destruct (Z.eqb_spec (at_ t i) 0xFFFFFFFFFFFFFFFF) as [E|E].
  - apply (IH m v f); [done| |lia..].
    apply (run_inv_skip _ _ _ (proj1 Hn) _ _ _ _ Hinv); [lia|].
    intros j Hj. replace j with (i * 64 + (j - i * 64)) by lia.
    rewrite bit_word, E by lia.
    change 0xFFFFFFFFFFFFFFFF with (Z.ones 64). apply Z.ones_spec_low. lia.
  - pose proof (gb_search_bits_spec 64 i 0 c st) as Hb. rewrite Z.add_0_r in Hb.
    specialize (Hb Hinv ltac:(lia) ltac:(lia) ltac:(lia)).
    destruct (gb_search_bits _ _ _ _ _ _ _) as [a|c' st']; [by eexists|].
    apply (IH m v f); [done| |lia..]. by replace ((i + 1) * 64) with (i * 64 + 64) by lia.
Qed.

Lemma gb_search_block_spec m v f st :
  open m v f t →
  ∃ o, gb_search_words 512 m v 0 n 0 st = Ok o ∧
    match o with
    | SFound a => found a
    | SNext _ _ => ∀ a, ¬ fits_in (bit 64 t) 32768 n a
    end.
Proof using Hn.
  intros Ho. apply (gb_search_words_spec 512 m v f 0 0 st Ho); [|lia..].
  split; try lia. intros a Ha (? & ? & ?). lia.
Qed.

End search.

(** ** Windows *)

Lemma gb_window_spec m f :
  ready m → page_frame f → (0 < nfree (windows m))%nat → f ≠ physwindow_pt_phys m →
  length (frame (mram m) f) = 512%nat → words 64 (frame (mram m) f) →
  ∃ v m', gb_window m f = Ok (v, m') ∧ open m' v f (frame (mram m) f) ∧
    same_tables m m' ∧ (nfree (windows m') + 1 = nfree (windows m))%nat.
Proof using.
  intros Hr Hf Hn Hp Hl Hw. unfold gb_window.
  set (fl := Z.lor (Z.lor PHYS_WINDOW_FLAG_READ PHYS_WINDOW_FLAG_WRITE) PHYS_WINDOW_FLAG_LOCK).
  destruct (mem_create_opened m f fl Hr Hn eq_refl) as (i & w & Hw' & Hlk & ->).
  destruct (opened_spec m i w f fl Hr Hf Hw' Hlk) as (Hr1 & Hlv & Hst & Hn1 & _).
  cbn [mbind res_bind]. do 2 eexists. split; [done|]. split_and!; try done.
  assert (frame (mram (opened m i f fl)) f = frame (mram m) f) as E
    by (by apply (st_frames _ _ Hst)).
  by split.
Qed.

Lemma mem_release_spec m v f t :
  open m v f t →
  let m' := (mem_release_physwindow m v).2 in
  ready m' ∧ same_tables m m' ∧ mram m' = mram m ∧
  (nfree (windows m') = nfree (windows m) + 1)%nat.
Proof using.
  intros [] m'. destruct (release_spec m v f) as (Hr & Hst & Er & Hn & _); [done..|].
  unfold release_table_vaddr in *. rewrite (rd_set m) in * by done.
  destruct (Z.eqb_spec v 0) as [E|_]; [|done].
  exfalso. by apply (live_nz m v f).
Qed.

(** Opening a window on [f], running a body that writes [f], and closing it. *)
Lemma gb_session m f v m1 m2 t :
  same_tables m m1 → (nfree (windows m1) + 1 = nfree (windows m))%nat →
  wrote m1 f t m2 → open m2 v f t → f ≠ physwindow_pt_phys m →
  let m' := (mem_release_physwindow m2 v).2 in
  ready m' ∧ nfree (windows m') = nfree (windows m) ∧ msrc m' = msrc m ∧
  physwindow_pt_phys m' = physwindow_pt_phys m ∧
  ∀ g, g ≠ physwindow_pt_phys m →
    frame (mram m') g = if decide (g = f) then t else frame (mram m) g.
Proof using.
  intros Hst Hn Hw Ho Hf m'. destruct (mem_release_spec m2 v f t Ho) as (Hr & Hst2 & Er & Hn2).
  destruct Hst, Hw. split_and!.
  - done.
  - unfold m'. rewrite Hn2, wr_windows0. lia.
  - unfold m'. rewrite (PagingWin.st_src _ _ Hst2). congruence.
  - unfold m'. rewrite (PagingWin.st_pt _ _ Hst2). congruence.
  - intros g Hg. unfold m'. rewrite Er, wr_frame0. case_decide; [done|]. by apply st_frames.
Qed.

(** ** Invariant *)

Definition block (gb : grow_bitmap) (b : Z) : Z := at_ (blocks_phys gb) b.

(** Page [k] of the region is allocated. *)
Definition taken m (gb : grow_bitmap) (k : Z) : bool :=
  bit 64 (frame (mram m) (block gb (k / 32768))) (k mod 32768).

Definition pages (gb : grow_bitmap) : Z := 32768 * active_blocks gb.

Record gb_ok m (gb : grow_bitmap) : Prop := {
  gk_ready : ready m;
  gk_len g : length (frame (mram m) g) = 512%nat ∧ words 64 (frame (mram m) g);
  gk_blocks : length (blocks_phys gb) = 256%nat;
  gk_active : 1 ≤ active_blocks gb ≤ max_blocks gb ∧ max_blocks gb ≤ 256;
  gk_frame b : 0 ≤ b < active_blocks gb →
    page_frame (block gb b) ∧ block gb b ≠ 0 ∧ block gb b ≠ physwindow_pt_phys m ∧
    fs_used (msrc m) (block gb b);
  gk_inj b b' : 0 ≤ b < active_blocks gb → 0 ≤ b' < active_blocks gb →
    block gb b = block gb b' → b = b';
  gk_src : fs_ok (msrc m) ∧ fs_used (msrc m) (physwindow_pt_phys m);
  gk_region : 0 < base_vaddr gb ∧ 0 < page_size gb ∧
    base_vaddr gb + 256 * 32768 * page_size gb ≤ 2 ^ 64 }.

(** Addresses in the region do not wrap. *)
Lemma region_addr m gb p :
  gb_ok m gb → 0 ≤ p < 256 * 32768 →
  u64 (base_vaddr gb + u64 (u64 p * page_size gb)) = base_vaddr gb + p * page_size gb.
Proof using.
  intros Hok Hp. destruct (gk_region _ _ Hok) as (Hb & Hs & He).
  assert (0 ≤ p * page_size gb < 256 * 32768 * page_size gb) by nia.
  unfold u64. rewrite (Z.mod_small p), (Z.mod_small (p * _)), Z.mod_small by lia. done.
Qed.

(** Block [b] was rewritten. *)
Lemma gb_ok_block m gb b t m' :
  gb_ok m gb → 0 ≤ b < active_blocks gb → ready m' → msrc m' = msrc m →
  physwindow_pt_phys m' = physwindow_pt_phys m → length t = 512%nat → words 64 t →
  (∀ g, g ≠ physwindow_pt_phys m →
     frame (mram m') g = if decide (g = block gb b) then t else frame (mram m) g) →
  gb_ok m' gb.
Proof using.
  intros [] Hb Hr Es Ep Hl Hw Hf. split; try done.
  - intros g. destruct (decide (g = physwindow_pt_phys m)) as [->|].
    + rewrite <- Ep. split; [by apply (rd_len m')|by apply (rd_words m')].
    + rewrite Hf by done. by case_decide.
  - intros c Hc. rewrite Ep, Es. by apply gk_frame0.
  - by rewrite Es, Ep.
Qed.

Lemma taken_block m gb b t m' j :
  gb_ok m gb → 0 ≤ b < active_blocks gb → 0 ≤ j < pages gb →
  (∀ g, g ≠ physwindow_pt_phys m →
     frame (mram m') g = if decide (g = block gb b) then t else frame (mram m) g) →
  taken m' gb j = if decide (j / 32768 = b) then bit 64 t (j mod 32768) else taken m gb j.
Proof using.
  intros Hok Hb Hj Hf. unfold taken, pages in *.
  assert (0 ≤ j / 32768 < active_blocks gb) as Hjb by dlia.
  destruct (gk_frame _ _ Hok _ Hjb) as (_ & _ & Hp & _).
  rewrite Hf by done. case_decide as E.
  - rewrite decide_True; [done|]. by apply (gk_inj _ _ Hok).
  - rewrite decide_False; [done|]. intros E'. apply E. by rewrite E'.
Qed.

Lemma in_run_block a n b j :
  0 ≤ a → 0 ≤ n → a + n ≤ 32768 → 0 ≤ b → 0 ≤ j →
  in_run (32768 * b + a) n j =
  (if decide (j / 32768 = b) then in_run a n (j mod 32768) else false).
Proof using.
  intros. unfold in_run. case_decide.
  - f_equal; apply eq_true_iff_eq; rewrite ?Z.leb_le, ?Z.ltb_lt; dlia.
  - apply not_true_iff_false. rewrite andb_true_iff, Z.leb_le, Z.ltb_lt. dlia.
Qed.

(** ** Allocation in the active blocks *)

Definition block_bits m gb (b : Z) : Z → bool := bit 64 (frame (mram m) (block gb b)).

(** What a successful search and a failed one leave behind. *)
Definition searched m gb (n b : Z) (o : option Z) m' : Prop :=
  gb_ok m' gb ∧ nfree (windows m') = nfree (windows m) ∧ msrc m' = msrc m ∧
  match o with
  | Some addr => ∃ c a, b ≤ c < active_blocks gb ∧
      first_fit_in (block_bits m gb c) 32768 n a ∧
      (∀ c', b ≤ c' < c → ∀ a', ¬ fits_in (block_bits m gb c') 32768 n a') ∧
      addr = base_vaddr gb + (32768 * c + a) * page_size gb ∧
      ∀ j, 0 ≤ j < pages gb →
        taken m' gb j = taken m gb j || in_run (32768 * c + a) n j
  | None =>
      (∀ c, b ≤ c < active_blocks gb → ∀ a, ¬ fits_in (block_bits m gb c) 32768 n a) ∧
      (∀ j, 0 ≤ j < pages gb → taken m' gb j = taken m gb j)
  end.

Lemma gb_search_blocks_spec gb n k : 0 < n ≤ 32768 → ∀ m b st,
  gb_ok m gb → (0 < nfree (windows m))%nat → 0 ≤ b → b + Z.of_nat k = active_blocks gb →
  ∃ o m', gb_search_blocks k m gb b n st = Ok (o, m') ∧ searched m gb n b o m'.
Proof using.
  intros Hn. induction k as [|k IH]; intros m b st Hok Hnf Hb Hk; cbn [gb_search_blocks].
  { do 2 eexists. split; [done|]. split_and!; try done. intros c Hc. lia. }
  pose proof (gk_active _ _ Hok) as Hact.
  assert (0 ≤ b < active_blocks gb) as Hbr by lia.
  rewrite aget_ok by (rewrite (gk_blocks _ _ Hok); lia). fold (block gb b).
  step_ok.
  destruct (gk_frame _ _ Hok b Hbr) as (Hpf & Hnz & Hnp & Hu).
  destruct (gb_window_spec m (block gb b)) as (v & m1 & E1 & Ho1 & Hst1 & Hn1);
    [by apply Hok|done|done|done|by apply (gk_len _ _ Hok)..|].
  rewrite E1. step_ok.
  destruct (gb_search_block_spec (frame (mram m) (block gb b)) n Hn m1 v (block gb b) st Ho1)
    as (o & Eo & Hfound).
  rewrite Eo. step_ok. destruct o as [a|c' st'].
  - destruct (Hfound) as [(Ha & Hae & _) _].
    destruct (gb_set_bits_spec (Z.to_nat n) m1 v (block gb b) _ a Ho1) as
      (m2 & t2 & -> & Hw2 & Ho2 & Hb2); [done|lia|].
    step_ok.
    destruct (gb_session m (block gb b) v m1 m2 t2 Hst1 Hn1 Hw2 Ho2 Hnp) as
      (Hr3 & Hn3 & Hs3 & Hp3 & Hf3).
    do 2 eexists. split; [done|]. split_and!; [|done|done|].
    + apply (gb_ok_block m gb b t2); try done; by apply Ho2.
    + exists b, a. split_and!; try done; try lia.
      * replace (b * GROW_BITMAP_BLOCK_PAGES + a) with (32768 * b + a)
          by (unfold GROW_BITMAP_BLOCK_PAGES; lia).
        apply (region_addr m); [done|lia].
      * intros j Hj. rewrite (taken_block m gb b t2) by done.
        rewrite in_run_block by lia. case_decide as E; [|by rewrite orb_false_r].
        rewrite Hb2, Z2Nat.id by dlia. unfold taken. by rewrite E.
  - destruct (mem_release_spec m1 v (block gb b) _ Ho1) as (Hr2 & Hst2 & Er2 & Hn2).
    set (m2 := (mem_release_physwindow m1 v).2) in *.
    assert (∀ g, g ≠ physwindow_pt_phys m → frame (mram m2) g = frame (mram m) g) as Hf2
      by (intros g Hg; rewrite Er2; by apply (st_frames _ _ Hst1)).
    assert (gb_ok m2 gb) as Hok2.
    { eapply (gb_ok_block m gb b (frame (mram m) (block gb b))); try done.
      - rewrite (st_src _ _ Hst2). by apply (st_src _ _ Hst1).
      - rewrite (st_pt _ _ Hst2). by apply (st_pt _ _ Hst1).
      - by apply (gk_len _ _ Hok).
      - by apply (gk_len _ _ Hok).
      - intros g Hg. rewrite Hf2 by done. by case_decide; subst. }
    assert (∀ c, 0 ≤ c < active_blocks gb → block_bits m2 gb c = block_bits m gb c) as Hbb.
    { intros c Hc. unfold block_bits. rewrite Hf2; [done|]. by apply (gk_frame _ _ Hok). }
    assert (∀ j, 0 ≤ j < pages gb → taken m2 gb j = taken m gb j) as Htk.
    { intros j Hj. unfold taken, pages in *. rewrite Hf2; [done|].
      apply (gk_frame _ _ Hok). dlia. }
    destruct (IH m2 (b + 1) st' Hok2) as (o & m3 & E3 & Hok3 & Hn3 & Hs3 & Ho3); [lia..|].
    exists o, m3. split; [done|]. split_and!; [done|lia| |].
    + rewrite Hs3, (st_src _ _ Hst2). by apply (st_src _ _ Hst1).
    + destruct o as [addr|].
      * destruct Ho3 as (c & a & Hc & Hff & Hnone & Ea & Htk3). exists c, a.
        rewrite Hbb in Hff by lia. split_and!; try done; try lia.
        -- intros c'' Hc''. destruct (decide (c'' = b)) as [->|]; [done|].
           rewrite <- Hbb by lia. apply Hnone. lia.
        -- intros j Hj. by rewrite Htk3, Htk.
      * destruct Ho3 as [Hnone Htk3]. split.
        -- intros c Hc. destruct (decide (c = b)) as [->|]; [done|].
           rewrite <- Hbb by lia. apply Hnone. lia.
        -- intros j Hj. by rewrite Htk3, Htk.
Qed.

(** ** Growth *)

(** What adding one block does. *)
Lemma gb_add_block_spec m gb i n :
  gb_ok m gb → (0 < nfree (windows m))%nat → 0 < fs_avail (msrc m) →
  active_blocks gb < max_blocks gb → 0 < n ≤ 32768 →
  ∃ m' gb', gb_add_block m gb i n = Ok (gb', m') ∧ gb_ok m' gb' ∧
    active_blocks gb' = active_blocks gb + 1 ∧
    base_vaddr gb' = base_vaddr gb ∧ page_size gb' = page_size gb ∧
    max_blocks gb' = max_blocks gb ∧
    nfree (windows m') = nfree (windows m) ∧ fs_avail (msrc m') = fs_avail (msrc m) - 1 ∧
    (∀ j, 0 ≤ j < pages gb → taken m' gb' j = taken m gb j) ∧
    ∀ j, pages gb ≤ j < pages gb' → taken m' gb' j = (i =? 0) && in_run (pages gb) n j.
Proof using.
  intros Hok Hnf Hav Hact Hn. destruct (Hok) as [Hr Hlen Hbl Hac Hfr Hinj [Hs Hup] Hreg].
  destruct (fs_alloc_frame (msrc m) Hs Hav)
    as (f & s & E & Hs' & Hpf & Hnz & Hfresh & Hused & Hav').
  unfold gb_add_block, alloc_frame. cbv zeta. rewrite E. step_ok. step_ok.
  rewrite aset_ok by lia. step_ok. set (m0 := set_src m s).
  assert (f ≠ physwindow_pt_phys m) as Hnp by (intros ->; done).
  destruct (gb_window_spec m0 f) as (v & m1 & E1 & Ho1 & Hst1 & Hn1);
    [by destruct Hr|done|done|done|apply Hlen..|].
  rewrite E1. step_ok.
  destruct (gb_zero_spec 512 m1 v f _ 0 Ho1) as (m2 & E2 & Hw2 & Ho2); [lia|lia|lia|].
  rewrite E2. step_ok.
  assert (∃ m3 t3, (if i =? 0 then gb_set_bits (Z.to_nat n) m2 v 0 else Ok m2) = Ok m3 ∧
    wrote m1 f t3 m3 ∧ open m3 v f t3 ∧
    ∀ k, 0 ≤ k < 32768 → bit 64 t3 k = (i =? 0) && in_run 0 n k) as
    (m3 & t3 & E3 & Hw3 & Ho3 & Hb3).
  { assert (∀ k, 0 ≤ k < 32768 → bit 64 zero_frame k = false) as Hz.
    { intros k Hk. unfold bit, at_, zero_frame.
      rewrite lookup_total_replicate_2 by dlia. apply Z.bits_0. }
    destruct (i =? 0).
    - destruct (gb_set_bits_spec (Z.to_nat n) m2 v f _ 0 Ho2) as (m3 & t3 & E3 & Hw3 & Ho3 & Hb3);
        [lia|lia|]. exists m3, t3. split_and!; [done|by eapply wrote_trans|done|].
      intros k Hk. rewrite Hb3, Hz, Z2Nat.id by lia. done.
    - exists m2, zero_frame. split_and!; try done. }
  rewrite E3. step_ok.
  destruct (gb_session m0 f v m1 m3 t3 Hst1 Hn1 Hw3 Ho3 Hnp) as (Hr4 & Hn4 & Hs4 & Hp4 & Hf4).
  set (m' := (mem_release_physwindow m3 v).2) in *.
  set (gb' := set_blocks gb (<[Z.to_nat (active_blocks gb) := f]> (blocks_phys gb))
    (active_blocks gb + 1)).
  assert (∀ b, 0 ≤ b → block gb' b = if decide (active_blocks gb = b) then f else block gb b) as Hbk.
  { intros b Hb. unfold block. simpl. apply at_insert; lia. }
  assert (∀ b, 0 ≤ b < active_blocks gb → block gb b ≠ f) as Hnew.
  { intros b Hb <-. apply Hfresh. by apply Hfr. }
  assert (msrc m' = s) as Es by (by rewrite Hs4).
  exists m', gb'. split; [done|]. split_and!; try done.
  - split; try done.
    + intros g. destruct (decide (g = physwindow_pt_phys m)) as [->|].
      * replace (physwindow_pt_phys m) with (physwindow_pt_phys m') by done.
        split; [by apply (rd_len m')|by apply (rd_words m')].
      * rewrite Hf4 by done. case_decide; [|apply Hlen]. split; by apply Ho3.
    + simpl. by rewrite length_insert.
    + simpl. lia.
    + intros b Hb. simpl in Hb. rewrite Hbk by lia. rewrite Es, Hp4. simpl. case_decide.
      * split_and!; try done. apply Hused. by right.
      * destruct (Hfr b ltac:(lia)) as (? & ? & ? & ?). split_and!; try done.
        apply Hused. by left.
    + intros b b' Hb Hb'. simpl in Hb, Hb'. rewrite !Hbk by lia.
      repeat case_decide; intros Eb; try lia.
      * by destruct (Hnew b' ltac:(lia)).
      * by destruct (Hnew b ltac:(lia)).
      * by apply Hinj; try lia.
    + rewrite Es, Hp4. simpl. split; [done|]. apply Hused. by left.
  - by rewrite Es.
  - intros j Hj. unfold taken, pages in *. rewrite Hbk by dlia.
    rewrite decide_False by dlia. rewrite Hf4 by (apply Hfr; dlia).
    rewrite decide_False; [done|]. apply Hnew. dlia.
  - intros j Hj. unfold taken, pages in *. simpl in Hj.
    assert (j / 32768 = active_blocks gb) as Ej by dlia.
    rewrite Ej, Hbk, decide_True by lia. rewrite Hf4, decide_True by done.
    rewrite Hb3 by dlia. f_equal.
    pose proof (in_run_block 0 n (active_blocks gb) j) as Hir. rewrite Z.add_0_r in Hir.
    rewrite Hir by lia. by rewrite decide_True.
Qed.

Lemma gb_grow_spec n k : 0 < n ≤ 32768 → ∀ m gb i,
  gb_ok m gb → (0 < nfree (windows m))%nat → Z.of_nat k ≤ fs_avail (msrc m) →
  active_blocks gb + Z.of_nat k ≤ max_blocks gb → 0 ≤ i →
  ∃ m' gb', gb_grow k m gb i n = Ok (gb', m') ∧ gb_ok m' gb' ∧
    active_blocks gb' = active_blocks gb + Z.of_nat k ∧
    base_vaddr gb' = base_vaddr gb ∧ page_size gb' = page_size gb ∧
    max_blocks gb' = max_blocks gb ∧ nfree (windows m') = nfree (windows m) ∧
    (∀ j, 0 ≤ j < pages gb → taken m' gb' j = taken m gb j) ∧
    ∀ j, pages gb ≤ j < pages gb' → taken m' gb' j = (i =? 0) && in_run (pages gb) n j.
Proof using.
  intros Hn. induction k as [|k IH]; intros m gb i Hok Hnf Hav Hact Hi; cbn [gb_grow].
  { exists m, gb. split_and!; try done; lia. }
  destruct (gb_add_block_spec m gb i n Hok Hnf) as
    (m1 & gb1 & -> & Hok1 & Ea1 & Eb1 & Ep1 & Em1 & Hn1 & Hav1 & Hlo1 & Hhi1); [lia..|done|].
  step_ok.
  destruct (IH m1 gb1 (i + 1) Hok1) as
    (m2 & gb2 & -> & Hok2 & Ea2 & Eb2 & Ep2 & Em2 & Hn2 & Hlo2 & Hhi2); [lia..|].
  pose proof (gk_active _ _ Hok). exists m2, gb2. split_and!; try done; try lia; try congruence.
  - intros j Hj. rewrite Hlo2, Hlo1 by (unfold pages in *; lia). done.
  - intros j Hj. destruct (decide (j < pages gb1)).
    + rewrite Hlo2, Hhi1 by (unfold pages in *; lia). done.
    + rewrite Hhi2 by lia. destruct (Z.eqb_spec (i + 1) 0); [lia|]. symmetry.
      apply andb_false_intro2. unfold in_run, pages in *. zcases.
Qed.

(** ** Allocation and release *)

Definition alloc_outcome m gb n (addr : Z) gb' m' : Prop :=
  gb_ok m' gb' ∧ nfree (windows m') = nfree (windows m) ∧
  base_vaddr gb' = base_vaddr gb ∧ page_size gb' = page_size gb ∧
  active_blocks gb ≤ active_blocks gb' ∧
  ((∃ p, addr = base_vaddr gb + p * page_size gb ∧ 0 ≤ p ∧ p + n ≤ pages gb' ∧
      p / 32768 = (p + n - 1) / 32768 ∧
      (∀ j, p ≤ j < p + n → j < pages gb → taken m gb j = false) ∧
      ∀ j, 0 ≤ j < pages gb' →
        taken m' gb' j = ((j <? pages gb) && taken m gb j) || in_run p n j) ∨
   addr = 0 ∧ gb' = gb ∧ active_blocks gb = max_blocks gb ∧
     (∀ c, 0 ≤ c < active_blocks gb → ∀ a, ¬ fits_in (block_bits m gb c) 32768 n a) ∧
     ∀ j, 0 ≤ j < pages gb → taken m' gb' j = taken m gb j).

Lemma grow_bitmap_alloc_pages_spec m gb n :
  gb_ok m gb → (0 < nfree (windows m))%nat →
  max_blocks gb - active_blocks gb ≤ fs_avail (msrc m) → 0 < n ≤ 32768 →
  ∃ addr gb' m', grow_bitmap_alloc_pages m gb n = Ok (addr, gb', m') ∧
    alloc_outcome m gb n addr gb' m'.
Proof using.
  intros Hok Hnf Hav Hn. pose proof (gk_active _ _ Hok) as Hact.
  unfold grow_bitmap_alloc_pages, GROW_BITMAP_BLOCK_PAGES.
  destruct (Z.eqb_spec n 0), (Z.ltb_spec 32768 n); try lia. cbn [orb].
  destruct (gb_search_blocks_spec gb n (Z.to_nat (active_blocks gb)) Hn m 0 0 Hok Hnf)
    as (o & m1 & -> & Hok1 & Hn1 & Hs1 & Ho1); [lia..|]. step_ok.
  destruct o as [addr|].
  { destruct Ho1 as (c & a & Hc & [(Ha & Hae & Hfree) _] & _ & -> & Htk).
    do 3 eexists. split; [done|]. unfold alloc_outcome. split_and!; try done.
    left. exists (32768 * c + a). unfold pages in *. split_and!; try lia; try dlia.
    - intros j Hj _. unfold taken. replace (j / 32768) with c by dlia.
      apply Hfree. dlia.
    - intros j Hj. rewrite Htk by done. f_equal. zcases. }
  destruct Ho1 as [Hnone Htk].
  destruct (Z.ltb_spec (active_blocks gb) (max_blocks gb)).
  2: { do 3 eexists. split; [done|]. unfold alloc_outcome. split_and!; try done.
       right. split_and!; try done. lia. }
  set (add := if max_blocks gb <? u64 (active_blocks gb + active_blocks gb)
              then max_blocks gb - active_blocks gb else active_blocks gb).
  assert (1 ≤ add ∧ active_blocks gb + add ≤ max_blocks gb) as [Hadd1 Hadd2].
  { unfold add, u64. rewrite Z.mod_small by lia. zcases. }
  destruct (gb_grow_spec n (Z.to_nat add) Hn m1 gb 0) as
    (m2 & gb2 & -> & Hok2 & Ea2 & Eb2 & Ep2 & Em2 & Hn2 & Hlo2 & Hhi2);
    [done|lia|rewrite Hs1; lia|lia|lia|]. step_ok.
  do 3 eexists. split; [done|]. unfold alloc_outcome. split_and!; try done; try lia.
  left. exists (pages gb). unfold pages in *. split_and!; try lia.
  - replace (active_blocks gb * 32768) with (32768 * active_blocks gb) by lia.
    rewrite <- Eb2, <- Ep2. apply (region_addr m2); [done|lia].
  - dlia.
  - intros j Hj. destruct (Z.ltb_spec j (32768 * active_blocks gb)); simpl.
    + rewrite Hlo2, Htk by lia. unfold in_run. zcases. by rewrite orb_false_r.
    + rewrite Hhi2 by lia. done.
Qed.

Lemma grow_bitmap_free_pages_spec m gb p n :
  gb_ok m gb → (0 < nfree (windows m))%nat → 0 ≤ p → 0 < n → p + n ≤ pages gb →
  p / 32768 = (p + n - 1) / 32768 →
  ∃ m', grow_bitmap_free_pages m gb (base_vaddr gb + p * page_size gb) n = Ok m' ∧
    gb_ok m' gb ∧ nfree (windows m') = nfree (windows m) ∧
    ∀ j, 0 ≤ j < pages gb → taken m' gb j = taken m gb j && negb (in_run p n j).
Proof using.
  intros Hok Hnf Hp Hn Hend Hblk. pose proof (gk_active _ _ Hok) as Hact.
  destruct (gk_region _ _ Hok) as (Hb & Hs & _). unfold grow_bitmap_free_pages, pages in *.
  destruct (Z.ltb_spec (base_vaddr gb + p * page_size gb) (base_vaddr gb)); [nia|].
  replace (base_vaddr gb + p * page_size gb - base_vaddr gb) with (p * page_size gb) by lia.
  rewrite Z.div_mul by lia. unfold GROW_BITMAP_BLOCK_PAGES. cbv zeta.
  set (b := p / 32768) in *. assert (0 ≤ b < active_blocks gb) as Hbr by (unfold b; dlia).
  destruct (Z.leb_spec (active_blocks gb) b); [lia|].
  rewrite aget_ok by (rewrite (gk_blocks _ _ Hok); lia). fold (block gb b). step_ok.
  destruct (gk_frame _ _ Hok b Hbr) as (Hpf & Hnz & Hnp & Hu).
  destruct (Z.eqb_spec (block gb b) 0); [done|].
  destruct (gb_window_spec m (block gb b)) as (v & m1 & E1 & Ho1 & Hst1 & Hn1);
    [by apply Hok|done|done|done|by apply (gk_len _ _ Hok)..|].
  rewrite E1. step_ok.
  destruct (gb_clear_bits_spec (Z.to_nat n) m1 v (block gb b) _ (p mod 32768) Ho1) as
    (m2 & t2 & -> & Hw2 & Ho2 & Hb2); [unfold b in *; dlia..|]. step_ok.
  destruct (gb_session m (block gb b) v m1 m2 t2 Hst1 Hn1 Hw2 Ho2 Hnp) as
    (Hr3 & Hn3 & Hs3 & Hp3 & Hf3).
  eexists. split; [done|]. split_and!; [|done|].
  - apply (gb_ok_block m gb b t2); try done; by apply Ho2.
  - intros j Hj. rewrite (taken_block m gb b t2) by done.
    replace p with (32768 * b + p mod 32768) at 1 by (unfold b; dlia).
    rewrite in_run_block by (unfold b in *; dlia).
    case_decide as E; [|by rewrite andb_true_r].
    rewrite Hb2, Z2Nat.id by dlia. unfold taken. by rewrite E.
Qed.

End gb.

(** ** Properties *)

Definition demo_gb : grow_bitmap :=
  mkGb 0xFFFFE00000000000 0x1000 (<[0%nat := 0x3000]> (replicate 256 0)) 1 4.

Lemma demo_gb_ok : gb_ok demo_machine demo_gb.
Proof.
  pose proof demo_tables as [].
  assert (∀ b, 0 ≤ b < 1 → block demo_gb b = 0x3000) as Hb
    by (intros b Hb; by replace b with 0 by lia).
  split; try done.
  - intros g. split; [apply tb_len|]. unfold demo_machine. simpl. rewrite frame_insert.
    case_decide; apply (bool_decide_eq_true_1 _); vm_compute; reflexivity.
  - intros b Hbr. simpl in Hbr. rewrite Hb by lia. simpl.
    split_and!; [done..|]. right. done.
  - intros b b' Hbr Hbr'. simpl in *. lia.
Qed.

(** C31. [grow_bitmap_alloc_pages] for 1 to 32768 pages, with a free window and
    frames for new blocks, hands out a run of pages that were free (or belong to a block it just added), marks exactly that run,
    and stays within one block; it returns null only when no block has a long
    enough run and the maximal number of blocks is in use. *)
Theorem grow_bitmap_alloc_fresh {S} `{FrameSource S} (m : machine S) gb n :
  gb_ok m gb → (0 < nfree (windows m))%nat →
  max_blocks gb - active_blocks gb ≤ fs_avail (msrc m) → 0 < n ≤ 32768 →
  ∃ addr gb' m', grow_bitmap_alloc_pages m gb n = Ok (addr, gb', m') ∧
    alloc_outcome m gb n addr gb' m'.
Proof. apply grow_bitmap_alloc_pages_spec. Qed.

Lemma grow_bitmap_alloc_fresh_witness :
  ∃ addr gb' m', grow_bitmap_alloc_pages demo_machine demo_gb 3 = Ok (addr, gb', m') ∧
    alloc_outcome demo_machine demo_gb 3 addr gb' m'.
Proof.
  apply (grow_bitmap_alloc_fresh demo_machine demo_gb 3).
  - apply demo_gb_ok.
  - vm_compute. lia.
  - vm_compute. discriminate.
  - lia.
Defined.

(** Freeing what [grow_bitmap_alloc_pages] returned makes the allocated
    pages free again and leaves every other page as it was. *)
Theorem grow_bitmap_alloc_free {S} `{FrameSource S} (m : machine S) gb n addr gb' m' :
  gb_ok m gb → (0 < nfree (windows m))%nat →
  max_blocks gb - active_blocks gb ≤ fs_avail (msrc m) → 0 < n ≤ 32768 →
  grow_bitmap_alloc_pages m gb n = Ok (addr, gb', m') → addr ≠ 0 →
  ∃ m'', grow_bitmap_free_pages m' gb' addr n = Ok m'' ∧ gb_ok m'' gb' ∧
    ∀ j, 0 ≤ j < pages gb' → taken m'' gb' j = (j <? pages gb) && taken m gb j.
Proof.
  intros Hok Hnf Hav Hn E Hnz.
  destruct (grow_bitmap_alloc_pages_spec m gb n Hok Hnf Hav Hn) as
    (addr0 & gb0 & m0 & E0 & Hout). rewrite E in E0. injection E0 as <- <- <-.
  destruct Hout as (Hok' & Hn' & Eb & Ep & _ & [(p & -> & Hp & Hend & Hblk & Hfree & Htk)|(? & _)]);
    [|done].
  rewrite <- Eb, <- Ep.
  destruct (grow_bitmap_free_pages_spec m' gb' p n Hok') as (m'' & -> & Hok'' & _ & Htk'');
    [lia..|done|].
  exists m''. split_and!; try done. intros j Hj. rewrite Htk'', Htk by done.
  destruct (in_run p n j) eqn:Er; cbn [negb].
  - rewrite andb_false_r. apply Pmm.in_run_spec in Er.
    destruct (Z.ltb_spec j (pages gb)); [|done]. simpl. by rewrite Hfree.
  - by rewrite orb_false_r, andb_true_r.
Qed.

Lemma grow_bitmap_alloc_free_witness :
  ∃ addr gb' m', grow_bitmap_alloc_pages demo_machine demo_gb 3 = Ok (addr, gb', m') ∧
  ∃ m'', grow_bitmap_free_pages m' gb' addr 3 = Ok m'' ∧ gb_ok m'' gb' ∧
    ∀ j, 0 ≤ j < pages gb' → taken m'' gb' j = (j <? pages demo_gb) && taken demo_machine demo_gb j.
Proof.
  do 3 eexists. split; [vm_compute; reflexivity|].
  refine (grow_bitmap_alloc_free demo_machine demo_gb 3 _ _ _ demo_gb_ok _ _ _ _ _).
  - vm_compute. lia.
  - vm_compute. discriminate.
  - lia.
  - vm_compute. reflexivity.
  - discriminate.
Defined.
