(* ===== verification/Spinlock.v ===== *)
(** * Ticket spinlock

    [kernel/hal/cpu/spinlock.c]: a ticket lock on two 16-bit counters.  The
    operations are the atomic accesses of the code; [step] interleaves them
    over the threads that use one lock. *)

From stdpp Require Import relations.
From S2P Require Import Prelude.

Record spinlock := mkSpin { now_serving : Z; next_ticket : Z }.

Definition SPINLOCK_INIT : spinlock := mkSpin 0 0.

(** [__atomic_fetch_add(&lock->next_ticket, 1)]. *)
Definition take_ticket (l : spinlock) : Z * spinlock :=
  (next_ticket l, mkSpin (now_serving l) (u16 (next_ticket l + 1))).

(** One test of the [while] of [spin_acquire]: true when the loop ends. *)
Definition poll (l : spinlock) (my_ticket : Z) : bool := now_serving l =? my_ticket.

(** The two atomic accesses of [spin_release]. *)
Definition release_load (l : spinlock) : Z := u16 (now_serving l + 1).
Definition release_store (l : spinlock) (next : Z) : spinlock := mkSpin next (next_ticket l).

Definition spin_is_locked (l : spinlock) : bool := negb (now_serving l =? next_ticket l).

(** The calls as a handler runs them when no other CPU touches the lock
    meanwhile; a held lock is never released then, so acquiring it does not
    return. *)
Definition spin_acquire (l : spinlock) : res spinlock :=
  let '(t, l) := take_ticket l in
  if poll l t then Ok l else NoFuel.
Definition spin_release (l : spinlock) : spinlock := release_store l (release_load l).

Definition unlocked (l : spinlock) : Prop :=
  now_serving l = next_ticket l ∧ 0 ≤ now_serving l < 2 ^ 16.

Lemma spin_acquire_ok l : unlocked l →
  ∃ l', spin_acquire l = Ok l' ∧ unlocked (spin_release l') ∧
        now_serving (spin_release l') = u16 (now_serving l + 1).
Proof.
  intros [He Hr]. unfold spin_acquire, take_ticket, poll. simpl. rewrite He, Z.eqb_refl.
  eexists. split; [done|]. unfold spin_release, release_store, release_load, unlocked.
  simpl. rewrite <- He. split_and!; try done; unfold u16; apply Z.mod_pos_bound; lia.
Qed.

(** ** Threads *)

Module Tickets.

Inductive pc :=
| Idle
| Waiting (ticket : Z)
| Critical
| Releasing (next : Z).

#[global] Instance pc_eq_dec : EqDecision pc.
Proof. solve_decision. Defined.

Record sys := mkSys { lock : spinlock; pcs : list pc }.

(** One atomic access of thread [i]. *)
Definition advance (s : sys) (i : nat) : option sys :=
  match pcs s !! i with
  | Some Idle =>
      let '(t, l) := take_ticket (lock s) in Some (mkSys l (<[i := Waiting t]> (pcs s)))
  | Some (Waiting t) =>
      Some (mkSys (lock s) (<[i := if poll (lock s) t then Critical else Waiting t]> (pcs s)))
  | Some Critical =>
      Some (mkSys (lock s) (<[i := Releasing (release_load (lock s))]> (pcs s)))
  | Some (Releasing n) =>
      Some (mkSys (release_store (lock s) n) (<[i := Idle]> (pcs s)))
  | None => None
  end.

Inductive step (s : sys) : sys → Prop :=
| step_thread i s' : advance s i = Some s' → step s s'.

Definition initial (n : nat) : sys := mkSys SPINLOCK_INIT (replicate n Idle).

(** ** The queue of tickets *)

Definition holds (p : pc) : bool :=
  match p with Critical | Releasing _ => true | _ => false end.

(** [q] lists the threads that took a ticket and have not released, oldest
    first: thread [q !! k] has ticket [now_serving + k], and only the first
    may be past its spin loop. *)
Definition pc_ok (l : spinlock) (q : list nat) (i : nat) (p : pc) : Prop :=
  match p with
  | Idle => i ∉ q
  | Waiting t => ∃ k, q !! k = Some i ∧ t = u16 (now_serving l + Z.of_nat k)
  | Critical => q !! 0%nat = Some i
  | Releasing n => q !! 0%nat = Some i ∧ n = u16 (now_serving l + 1)
  end.

Definition inv (s : sys) (q : list nat) : Prop :=
  0 ≤ now_serving (lock s) < 2 ^ 16 ∧
  next_ticket (lock s) = u16 (now_serving (lock s) + zlen q) ∧
  NoDup q ∧ Forall (λ i, (i < length (pcs s))%nat) q ∧
  ∀ i p, pcs s !! i = Some p → pc_ok (lock s) q i p.

Lemma queue_short (q : list nat) n :
  NoDup q → Forall (λ i, (i < n)%nat) q → (length q ≤ n)%nat.
Proof.
  intros Hd Hf. rewrite <- (length_seq n 0).
  apply submseteq_length, NoDup_submseteq; [done|].
  intros i Hi. apply elem_of_seq. rewrite Forall_forall in Hf. specialize (Hf i Hi). lia.
Qed.

Lemma initial_inv n : inv (initial n) [].
Proof.
  unfold inv, initial, SPINLOCK_INIT; simpl. split_and!; try done; try constructor.
  intros i p [-> _]%lookup_replicate. apply not_elem_of_nil.
Qed.

(** Updating the program counter of thread [i] only. *)
Lemma pcs_update (l l' : spinlock) (ps : list pc) (q q' : list nat) (i : nat) (p' : pc) :
  pc_ok l' q' i p' →
  (∀ j p, ps !! j = Some p → j ≠ i → pc_ok l' q' j p) →
  ∀ j p, <[i := p']> ps !! j = Some p → pc_ok l' q' j p.
Proof.
  intros Hi Ho j p. destruct (decide (i = j)) as [->|Hne].
  - destruct (decide (j < length ps)%nat).
    + rewrite list_lookup_insert_eq by done. by intros [= <-].
    + rewrite list_insert_ge by lia. intros ?%lookup_lt_Some. lia.
  - rewrite list_lookup_insert_ne by done. intros. by apply Ho.
Qed.

(** The queue after an access of thread [i] at [p]. *)
Definition next_queue (q : list nat) (i : nat) (p : pc) : list nat :=
  match p with Idle => q ++ [i] | Releasing _ => tail q | _ => q end.

Lemma advance_inv s q i p s' :
  zlen (pcs s) ≤ 65536 → inv s q → pcs s !! i = Some p → advance s i = Some s' →
  inv s' (next_queue q i p) ∧ length (pcs s') = length (pcs s).
Proof.
  intros Hn (Hr & Hnt & Hd & Hf & Hp) Hi Ha.
  pose proof (queue_short _ _ Hd Hf) as Hlen.
  unfold advance in Ha. rewrite Hi in Ha.
  pose proof (lookup_lt_Some _ _ _ Hi) as Hil. pose proof (Hp i p Hi) as Hpi.
  destruct p as [|t| |n]; simpl in Ha; injection Ha as <-; simpl in *.
  - (* take a ticket *)
    split; [|by rewrite length_insert].
    unfold inv; simpl. rewrite length_insert, length_app. simpl. split_and!; try done; try apply Hr.
    + rewrite Hnt. unfold u16. rewrite Zplus_mod_idemp_l. f_equal. lia.
    + apply NoDup_app. split_and!; [done| |apply NoDup_singleton].
      intros x Hx ->%list_elem_of_singleton. done.
    + apply Forall_app. split; [done|]. by constructor.
    + apply (pcs_update (lock s) _ _ q); simpl.
      * exists (length q). split; [by rewrite lookup_app_r, Nat.sub_diag|done].
      * intros j p Hj Hne. specialize (Hp j p Hj). destruct p as [|t| |n]; simpl in *.
        -- rewrite elem_of_app, list_elem_of_singleton. naive_solver.
        -- destruct Hp as (k & Hk & ->). exists k. split; [|done].
           by apply lookup_app_l_Some.
        -- by apply lookup_app_l_Some.
        -- destruct Hp as [? ->]. split; [by apply lookup_app_l_Some|done].
  - (* poll *)
    split; [|by rewrite length_insert].
    unfold inv; simpl. rewrite length_insert. split_and!; try done; try apply Hr.
    apply (pcs_update (lock s) _ _ q); [|by auto].
    destruct Hpi as (k & Hk & ->). unfold poll.
    destruct (Z.eqb_spec (now_serving (lock s)) (u16 (now_serving (lock s) + Z.of_nat k))) as [He|]; [|by exists k].
    simpl. assert (k = 0%nat) as ->; [|done].
    apply lookup_lt_Some in Hk. unfold u16 in He. clear -Hr Hk Hlen Hn He. dlia.
  - (* compute the next ticket *)
    split; [|by rewrite length_insert].
    unfold inv; simpl. rewrite length_insert. split_and!; try done; try apply Hr.
    apply (pcs_update (lock s) _ _ q); [|by auto]. done.
  - (* publish it *)
    destruct Hpi as [Hh ->]. destruct q as [|i' q]; [done|]. injection Hh as ->.
    split; [|by rewrite length_insert].
    inversion_clear Hd as [|? ? Hni Hd']. inversion_clear Hf as [|? ? Hfi Hf'].
    unfold inv; simpl. rewrite length_insert. split_and!; try done; try apply Hr.
    + unfold u16. apply Z.mod_pos_bound. lia.
    + unfold u16. apply Z.mod_pos_bound. lia.
    + rewrite Hnt. unfold u16. rewrite Zplus_mod_idemp_l. simpl. f_equal. lia.
    + apply (pcs_update (lock s) _ _ q); [done|].
      intros j p Hj Hne. specialize (Hp j p Hj). destruct p as [|t| |n]; simpl in *.
      * apply not_elem_of_cons in Hp. naive_solver.
      * destruct Hp as (k & Hk & ->). destruct k as [|k]; [naive_solver|].
        exists k. split; [done|]. unfold u16. rewrite Zplus_mod_idemp_l. f_equal. lia.
      * naive_solver.
      * naive_solver.
Qed.

Lemma reachable_inv n s :
  Z.of_nat n ≤ 65536 → rtc step (initial n) s → ∃ q, inv s q ∧ length (pcs s) = n.
Proof.
  intros Hn. revert s. apply rtc_ind_r.
  - exists []. split; [apply initial_inv|]. simpl. apply length_replicate.
  - intros s ? _ [i s' Ha] (q & Hq & Hl). destruct (pcs s !! i) as [p|] eqn:Hi;
      [|unfold advance in Ha; by rewrite Hi in Ha].
    destruct (advance_inv s q i p s') as [Hq' Hl']; [lia|done..|]. eexists. split; [exact Hq'|lia].
Qed.

(** ** Service order *)

(** A schedule: the thread whose access is next. *)
Fixpoint run (s : sys) (sched : list nat) : option sys :=
  match sched with
  | [] => Some s
  | i :: sched => s ← advance s i; run s sched
  end.

Lemma run_app s a b : run s (a ++ b) = (s ← run s a; run s b).
Proof. revert s. induction a as [|i a IH]; intros s; [done|]. simpl. destruct (advance s i); [apply IH|done]. Qed.

(** A thread that is not scheduled keeps its program counter. *)
Lemma advance_other s i j s' : advance s i = Some s' → i ≠ j → pcs s' !! j = pcs s !! j.
Proof.
  unfold advance. intros Ha Hne. destruct (pcs s !! i) as [[]|]; simpl in Ha;
    simplify_eq/=; by rewrite list_lookup_insert_ne.
Qed.

Definition next_pc (l : spinlock) (p : pc) : pc :=
  match p with
  | Idle => Waiting (next_ticket l)
  | Waiting t => if poll l t then Critical else Waiting t
  | Critical => Releasing (release_load l)
  | Releasing _ => Idle
  end.

Lemma advance_self s q i p :
  zlen (pcs s) ≤ 65536 → inv s q → pcs s !! i = Some p →
  ∃ s', advance s i = Some s' ∧ inv s' (next_queue q i p) ∧
    length (pcs s') = length (pcs s) ∧ pcs s' !! i = Some (next_pc (lock s) p) ∧
    ∀ j, j ≠ i → pcs s' !! j = pcs s !! j.
Proof.
  intros Hn Hinv Hp. pose proof (lookup_lt_Some _ _ _ Hp).
  destruct (advance s i) as [s'|] eqn:Ha; [|unfold advance in Ha; rewrite Hp in Ha; by destruct p].
  destruct (advance_inv s q i p s') as [? ?]; [done..|]. exists s'. split_and!; try done.
  - unfold advance in Ha. rewrite Hp in Ha.
    destruct p; simplify_eq/=; by apply list_lookup_insert_eq.
  - intros j Hj. eapply advance_other; [done|done].
Qed.

Lemma inv_poll_head s i q t : inv s (i :: q) → pcs s !! i = Some (Waiting t) → poll (lock s) t = true.
Proof.
  intros (Hr & _ & Hd & _ & Hp) Hi. destruct (Hp i _ Hi) as (k & Hk & ->).
  assert (k = 0%nat) as ->.
  { destruct k as [|k]; [done|]. apply NoDup_cons in Hd as [Hni _].
    destruct Hni. by apply list_elem_of_lookup_2 with k. }
  unfold poll, u16. rewrite Z.add_0_r, Z.mod_small by lia. apply Z.eqb_refl.
Qed.

(** The oldest ticket is served in at most three accesses of its thread. *)
Lemma serve_head s i q :
  zlen (pcs s) ≤ 65536 → inv s (i :: q) →
  ∃ n s', (n ≤ 3)%nat ∧ run s (replicate n i) = Some s' ∧ inv s' q ∧
    length (pcs s') = length (pcs s) ∧ ∀ j, j ≠ i → pcs s' !! j = pcs s !! j.
Proof.
  intros Hn Hinv.
  (* [m] more accesses suffice from the program counter [p] *)
  assert (∀ m p s, match p with Idle => False | Releasing _ => m = 1%nat
                   | Critical => m = 2%nat | Waiting _ => m = 3%nat end →
    zlen (pcs s) ≤ 65536 → inv s (i :: q) → pcs s !! i = Some p →
    ∃ s', run s (replicate m i) = Some s' ∧ inv s' q ∧ length (pcs s') = length (pcs s) ∧
      ∀ j, j ≠ i → pcs s' !! j = pcs s !! j) as Hm.
  { clear. induction m as [|m IH]; intros p s Hm Hn Hinv Hp; [by destruct p|].
    destruct (advance_self s _ i p Hn Hinv Hp) as (s1 & Ha & Hi1 & Hl1 & Hs1 & Ho1).
    simpl. rewrite Ha. simpl.
    destruct p as [|t| |n]; [done|..]; simplify_eq/=.
    - rewrite (inv_poll_head s i q t) in Hs1 by done.
      destruct (IH Critical s1 eq_refl ltac:(lia) Hi1 Hs1) as (s' & ? & ? & ? & Ho).
      exists s'. split_and!; try done; [lia|]. intros. by rewrite Ho, Ho1.
    - destruct (IH (Releasing _) s1 eq_refl ltac:(lia) Hi1 Hs1) as (s' & ? & ? & ? & Ho).
      exists s'. split_and!; try done; [lia|]. intros. by rewrite Ho, Ho1.
    - exists s1. done. }
  assert (i < length (pcs s))%nat as [p Hp]%lookup_lt_is_Some_2.
  { destruct Hinv as (_ & _ & _ & Hf & _). by inversion Hf. }
  destruct p as [|t| |n].
  - destruct Hinv as (_ & _ & _ & _ & Hpc). specialize (Hpc i _ Hp). set_solver.
  - destruct (Hm 3%nat (Waiting t) s eq_refl Hn Hinv Hp) as (s' & ?). exists 3%nat, s'. naive_solver lia.
  - destruct (Hm 2%nat Critical s eq_refl Hn Hinv Hp) as (s' & ?). exists 2%nat, s'. naive_solver lia.
  - destruct (Hm 1%nat (Releasing n) s eq_refl Hn Hinv Hp) as (s' & ?). exists 1%nat, s'. naive_solver lia.
Qed.

Lemma serve_waiter (k : nat) s q i t :
  zlen (pcs s) ≤ 65536 → inv s q → q !! k = Some i → pcs s !! i = Some (Waiting t) →
  ∃ sched s', (length sched ≤ 3 * k + 1)%nat ∧ run s sched = Some s' ∧
    (∀ j, j ∈ sched → j = i ∨ ∃ k', (k' < k)%nat ∧ q !! k' = Some j) ∧
    pcs s' !! i = Some Critical.
Proof.
  revert s q. induction k as [|k IH]; intros s q Hn Hinv Hk Hp;
    (destruct q as [|h q]; [done|]).
  - injection Hk as ->.
    destruct (advance_self s _ i _ Hn Hinv Hp) as (s1 & Ha & _ & _ & Hs1 & _).
    exists [i], s1. simpl. rewrite Ha. split_and!; try done; [set_solver|].
    rewrite Hs1. simpl. by rewrite (inv_poll_head s i q t).
  - destruct (serve_head s h q Hn Hinv) as (n & s1 & Hn3 & Hrun & Hinv1 & Hl1 & Ho).
    assert (i ≠ h) as Hne.
    { intros ->. destruct Hinv as (_ & _ & [Hni _]%NoDup_cons & _). destruct Hni.
      by apply list_elem_of_lookup_2 with k. }
    destruct (IH s1 q) as (sched & s' & Hlen & Hrun' & Hel & Hcrit);
      [lia|done|done|by rewrite Ho|].
    exists (replicate n h ++ sched), s'. rewrite run_app, Hrun. simpl. split_and!; try done.
    + rewrite length_app, length_replicate. lia.
    + intros j [Hj|Hj]%elem_of_app.
      * apply elem_of_replicate in Hj as [-> _]. right. exists 0%nat. split; [lia|done].
      * destruct (Hel j Hj) as [->|(k' & ? & ?)]; [by left|]. right. exists (Datatypes.S k').
        split; [lia|done].
Qed.

(** ** Properties *)

(** C5. Mutual exclusion: whatever the interleaving of the atomic accesses of
    up to 65536 threads, at most one thread is between the end of its
    [spin_acquire] loop and the store of its [spin_release]. *)
Theorem spinlock_mutual_exclusion (n : nat) (s : sys) (i j : nat) (p p' : pc) :
  Z.of_nat n ≤ 65536 → rtc step (initial n) s →
  pcs s !! i = Some p → pcs s !! j = Some p' → holds p = true → holds p' = true → i = j.
Proof.
  intros Hn Hr Hi Hj Hp Hp'. destruct (reachable_inv n s Hn Hr) as (q & (_ & _ & _ & _ & Hpc) & _).
  apply Hpc in Hi, Hj. destruct p, p'; naive_solver.
Qed.

(** Service in ticket order: a waiting thread with [k] tickets before its
    own enters after at most [3 k + 1] accesses, all of them by itself and by
    the threads whose tickets are older. *)
Theorem spinlock_waiter_enters (n : nat) (s : sys) (i : nat) (t : Z) :
  Z.of_nat n ≤ 65536 → rtc step (initial n) s → pcs s !! i = Some (Waiting t) →
  ∃ k sched s', t = u16 (now_serving (lock s) + Z.of_nat k) ∧
    (length sched ≤ 3 * k + 1)%nat ∧ run s sched = Some s' ∧ pcs s' !! i = Some Critical ∧
    ∀ j, j ∈ sched → j = i ∨
      ∃ pj, pcs s !! j = Some pj ∧
        (holds pj = true ∨ ∃ k', (k' < k)%nat ∧ pj = Waiting (u16 (now_serving (lock s) + Z.of_nat k'))).
Proof.
  intros Hn Hr Hi. destruct (reachable_inv n s Hn Hr) as (q & Hinv & Hl).
  pose proof Hinv as (_ & _ & Hd & Hf & Hpc). destruct (Hpc i _ Hi) as (k & Hk & Ht).
  destruct (serve_waiter k s q i t) as (sched & s' & ? & ? & Hel & ?); [lia|done..|].
  exists k, sched, s'. split_and!; try done. intros j Hj.
  destruct (Hel j Hj) as [->|(k' & Hk' & Hq)]; [by left|right].
  assert (j < length (pcs s))%nat as [pj Hpj]%lookup_lt_is_Some_2.
  { rewrite Forall_forall in Hf. apply Hf. by apply list_elem_of_lookup_2 with k'. }
  exists pj. split; [done|]. specialize (Hpc j pj Hpj). destruct pj as [|tj| |]; simpl in *.
  - destruct Hpc. by apply list_elem_of_lookup_2 with k'.
  - right. destruct Hpc as (k'' & Hq' & ->). exists k'. split; [done|].
    by rewrite (NoDup_lookup q k' k'' j Hd Hq Hq').
  - by left.
  - by left.
Qed.

Definition demo : sys := mkSys (mkSpin 0 2) [Critical; Waiting 1; Idle].

Lemma run_rtc s sched s' : run s sched = Some s' → rtc step s s'.
Proof.
  revert s. induction sched as [|i sched IH]; intros s; [by intros [= ->]|]. simpl.
  destruct (advance s i) as [s1|] eqn:Ha; [|done]. simpl. intros Hr.
  eapply rtc_l; [by apply (step_thread s i)|by apply IH].
Qed.

Lemma demo_reachable : rtc step (initial 3) demo.
Proof. apply run_rtc with [0; 0; 1; 1]%nat. done. Qed.

Lemma spinlock_mutual_exclusion_witness :
  Z.of_nat 3 ≤ 65536 ∧ rtc step (initial 3) demo ∧ pcs demo !! 0%nat = Some Critical ∧ 0%nat = 0%nat.
Proof.
  split_and!; [lia|apply demo_reachable|done|].
  apply (spinlock_mutual_exclusion 3 demo 0 0 Critical Critical); [lia|apply demo_reachable|done..].
Defined.

Lemma spinlock_waiter_enters_witness :
  ∃ k sched s', 1 = u16 (now_serving (lock demo) + Z.of_nat k) ∧
    (length sched ≤ 3 * k + 1)%nat ∧ run demo sched = Some s' ∧ pcs s' !! 1%nat = Some Critical.
Proof.
  destruct (spinlock_waiter_enters 3 demo 1 1) as (k & sched & s' & ? & ? & ? & ? & _);
    [lia|apply demo_reachable|done|]. by exists k, sched, s'.
Defined.

End Tickets.
