(* ===== verification/Cpu.v ===== *)
(** * Interrupt frames and saved registers

    [kernel/hal/cpu/interrupt.h], [kernel/hal/cpu/register.h] and the copies
    between the two in [kernel/procc/scheduler.c].  The 512 bytes of
    [cpu_register_t.fpu_state] are never touched by these copies and are left
    out. *)

From S2P Require Import Prelude.

(** [interrupt_stack_frame_t]. *)
Record interrupt_stack_frame := mkFrame {
  f_r15 : Z; f_r14 : Z; f_r13 : Z; f_r12 : Z; f_r11 : Z; f_r10 : Z; f_r9 : Z; f_r8 : Z;
  f_rbp : Z; f_rdi : Z; f_rsi : Z; f_rdx : Z; f_rcx : Z; f_rbx : Z; f_rax : Z;
  f_int_no : Z; f_err_code : Z; f_rip : Z; f_cs : Z; f_rflags : Z; f_rsp : Z; f_ss : Z }.

(** [cpu_register_t]. *)
Record cpu_register := mkReg {
  r_rax : Z; r_rbx : Z; r_rcx : Z; r_rdx : Z; r_rbp : Z; r_rsi : Z; r_rdi : Z;
  r_r8 : Z; r_r9 : Z; r_r10 : Z; r_r11 : Z; r_r12 : Z; r_r13 : Z; r_r14 : Z; r_r15 : Z;
  r_int_no : Z; r_err_code : Z; r_rip : Z; r_cs : Z; r_rflags : Z; r_rsp : Z; r_ss : Z }.

(** Assignments to one field. *)
Definition set_f_rip (s : interrupt_stack_frame) (x : Z) : interrupt_stack_frame :=
  mkFrame
    (f_r15 s) (f_r14 s) (f_r13 s) (f_r12 s) (f_r11 s) (f_r10 s) (f_r9 s) (f_r8 s)
    (f_rbp s) (f_rdi s) (f_rsi s) (f_rdx s) (f_rcx s) (f_rbx s) (f_rax s) (f_int_no s)
    (f_err_code s) x (f_cs s) (f_rflags s) (f_rsp s) (f_ss s).
Definition set_f_cs (s : interrupt_stack_frame) (x : Z) : interrupt_stack_frame :=
  mkFrame
    (f_r15 s) (f_r14 s) (f_r13 s) (f_r12 s) (f_r11 s) (f_r10 s) (f_r9 s) (f_r8 s)
    (f_rbp s) (f_rdi s) (f_rsi s) (f_rdx s) (f_rcx s) (f_rbx s) (f_rax s) (f_int_no s)
    (f_err_code s) (f_rip s) x (f_rflags s) (f_rsp s) (f_ss s).
Definition set_f_rflags (s : interrupt_stack_frame) (x : Z) : interrupt_stack_frame :=
  mkFrame
    (f_r15 s) (f_r14 s) (f_r13 s) (f_r12 s) (f_r11 s) (f_r10 s) (f_r9 s) (f_r8 s)
    (f_rbp s) (f_rdi s) (f_rsi s) (f_rdx s) (f_rcx s) (f_rbx s) (f_rax s) (f_int_no s)
    (f_err_code s) (f_rip s) (f_cs s) x (f_rsp s) (f_ss s).
Definition set_f_rsp (s : interrupt_stack_frame) (x : Z) : interrupt_stack_frame :=
  mkFrame
    (f_r15 s) (f_r14 s) (f_r13 s) (f_r12 s) (f_r11 s) (f_r10 s) (f_r9 s) (f_r8 s)
    (f_rbp s) (f_rdi s) (f_rsi s) (f_rdx s) (f_rcx s) (f_rbx s) (f_rax s) (f_int_no s)
    (f_err_code s) (f_rip s) (f_cs s) (f_rflags s) x (f_ss s).
Definition set_f_ss (s : interrupt_stack_frame) (x : Z) : interrupt_stack_frame :=
  mkFrame
    (f_r15 s) (f_r14 s) (f_r13 s) (f_r12 s) (f_r11 s) (f_r10 s) (f_r9 s) (f_r8 s)
    (f_rbp s) (f_rdi s) (f_rsi s) (f_rdx s) (f_rcx s) (f_rbx s) (f_rax s) (f_int_no s)
    (f_err_code s) (f_rip s) (f_cs s) (f_rflags s) (f_rsp s) x.
Definition set_f_rdi (s : interrupt_stack_frame) (x : Z) : interrupt_stack_frame :=
  mkFrame
    (f_r15 s) (f_r14 s) (f_r13 s) (f_r12 s) (f_r11 s) (f_r10 s) (f_r9 s) (f_r8 s)
    (f_rbp s) x (f_rsi s) (f_rdx s) (f_rcx s) (f_rbx s) (f_rax s) (f_int_no s)
    (f_err_code s) (f_rip s) (f_cs s) (f_rflags s) (f_rsp s) (f_ss s).
Definition set_f_rsi (s : interrupt_stack_frame) (x : Z) : interrupt_stack_frame :=
  mkFrame
    (f_r15 s) (f_r14 s) (f_r13 s) (f_r12 s) (f_r11 s) (f_r10 s) (f_r9 s) (f_r8 s)
    (f_rbp s) (f_rdi s) x (f_rdx s) (f_rcx s) (f_rbx s) (f_rax s) (f_int_no s)
    (f_err_code s) (f_rip s) (f_cs s) (f_rflags s) (f_rsp s) (f_ss s).
Definition set_f_rdx (s : interrupt_stack_frame) (x : Z) : interrupt_stack_frame :=
  mkFrame
    (f_r15 s) (f_r14 s) (f_r13 s) (f_r12 s) (f_r11 s) (f_r10 s) (f_r9 s) (f_r8 s)
    (f_rbp s) (f_rdi s) (f_rsi s) x (f_rcx s) (f_rbx s) (f_rax s) (f_int_no s)
    (f_err_code s) (f_rip s) (f_cs s) (f_rflags s) (f_rsp s) (f_ss s).
Definition set_f_rax (s : interrupt_stack_frame) (x : Z) : interrupt_stack_frame :=
  mkFrame
    (f_r15 s) (f_r14 s) (f_r13 s) (f_r12 s) (f_r11 s) (f_r10 s) (f_r9 s) (f_r8 s)
    (f_rbp s) (f_rdi s) (f_rsi s) (f_rdx s) (f_rcx s) (f_rbx s) x (f_int_no s)
    (f_err_code s) (f_rip s) (f_cs s) (f_rflags s) (f_rsp s) (f_ss s).
Definition set_r_rip (s : cpu_register) (x : Z) : cpu_register :=
  mkReg
    (r_rax s) (r_rbx s) (r_rcx s) (r_rdx s) (r_rbp s) (r_rsi s) (r_rdi s) (r_r8 s)
    (r_r9 s) (r_r10 s) (r_r11 s) (r_r12 s) (r_r13 s) (r_r14 s) (r_r15 s) (r_int_no s)
    (r_err_code s) x (r_cs s) (r_rflags s) (r_rsp s) (r_ss s).
Definition set_r_rax (s : cpu_register) (x : Z) : cpu_register :=
  mkReg
    x (r_rbx s) (r_rcx s) (r_rdx s) (r_rbp s) (r_rsi s) (r_rdi s) (r_r8 s) (r_r9 s)
    (r_r10 s) (r_r11 s) (r_r12 s) (r_r13 s) (r_r14 s) (r_r15 s) (r_int_no s)
    (r_err_code s) (r_rip s) (r_cs s) (r_rflags s) (r_rsp s) (r_ss s).
Definition set_r_rsp (s : cpu_register) (x : Z) : cpu_register :=
  mkReg
    (r_rax s) (r_rbx s) (r_rcx s) (r_rdx s) (r_rbp s) (r_rsi s) (r_rdi s) (r_r8 s)
    (r_r9 s) (r_r10 s) (r_r11 s) (r_r12 s) (r_r13 s) (r_r14 s) (r_r15 s) (r_int_no s)
    (r_err_code s) (r_rip s) (r_cs s) (r_rflags s) x (r_ss s).
Definition set_r_cs (s : cpu_register) (x : Z) : cpu_register :=
  mkReg
    (r_rax s) (r_rbx s) (r_rcx s) (r_rdx s) (r_rbp s) (r_rsi s) (r_rdi s) (r_r8 s)
    (r_r9 s) (r_r10 s) (r_r11 s) (r_r12 s) (r_r13 s) (r_r14 s) (r_r15 s) (r_int_no s)
    (r_err_code s) (r_rip s) x (r_rflags s) (r_rsp s) (r_ss s).
Definition set_r_ss (s : cpu_register) (x : Z) : cpu_register :=
  mkReg
    (r_rax s) (r_rbx s) (r_rcx s) (r_rdx s) (r_rbp s) (r_rsi s) (r_rdi s) (r_r8 s)
    (r_r9 s) (r_r10 s) (r_r11 s) (r_r12 s) (r_r13 s) (r_r14 s) (r_r15 s) (r_int_no s)
    (r_err_code s) (r_rip s) (r_cs s) (r_rflags s) (r_rsp s) x.
Definition set_r_rflags (s : cpu_register) (x : Z) : cpu_register :=
  mkReg
    (r_rax s) (r_rbx s) (r_rcx s) (r_rdx s) (r_rbp s) (r_rsi s) (r_rdi s) (r_r8 s)
    (r_r9 s) (r_r10 s) (r_r11 s) (r_r12 s) (r_r13 s) (r_r14 s) (r_r15 s) (r_int_no s)
    (r_err_code s) (r_rip s) (r_cs s) x (r_rsp s) (r_ss s).
Definition set_r_rbp (s : cpu_register) (x : Z) : cpu_register :=
  mkReg
    (r_rax s) (r_rbx s) (r_rcx s) (r_rdx s) x (r_rsi s) (r_rdi s) (r_r8 s) (r_r9 s)
    (r_r10 s) (r_r11 s) (r_r12 s) (r_r13 s) (r_r14 s) (r_r15 s) (r_int_no s)
    (r_err_code s) (r_rip s) (r_cs s) (r_rflags s) (r_rsp s) (r_ss s).

Definition zero_reg : cpu_register :=
  mkReg 0 0 0 0 0 0 0 0 0 0 0 0 0 0 0 0 0 0 0 0 0 0.
Definition zero_frame_regs : interrupt_stack_frame :=
  mkFrame 0 0 0 0 0 0 0 0 0 0 0 0 0 0 0 0 0 0 0 0 0 0.

(** [vxSaveRegister(stack, reg)]: the new contents of [*reg]. *)
Definition vxSaveRegister (stack : interrupt_stack_frame) (reg : cpu_register) : cpu_register :=
  mkReg
    (f_rax stack) (f_rbx stack) (f_rcx stack) (f_rdx stack) (f_rbp stack) (f_rsi stack)
    (f_rdi stack) (f_r8 stack) (f_r9 stack) (f_r10 stack) (f_r11 stack) (f_r12 stack)
    (f_r13 stack) (f_r14 stack) (f_r15 stack) (r_int_no reg) (r_err_code reg)
    (f_rip stack) (f_cs stack) (f_rflags stack) (f_rsp stack) (f_ss stack).

(** [vxRestoreRegister(stack, reg)]: the new contents of [*stack]. *)
Definition vxRestoreRegister (stack : interrupt_stack_frame) (reg : cpu_register) :
    interrupt_stack_frame :=
  mkFrame
    (r_r15 reg) (r_r14 reg) (r_r13 reg) (r_r12 reg) (r_r11 reg) (r_r10 reg) (r_r9 reg)
    (r_r8 reg) (r_rbp reg) (r_rdi reg) (r_rsi reg) (r_rdx reg) (r_rcx reg) (r_rbx reg)
    (r_rax reg) (f_int_no stack) (f_err_code stack) (r_rip reg) (r_cs reg)
    (r_rflags reg) (r_rsp reg) (r_ss reg).

(** The frame [f] with the interrupt number and error code of [g]. *)
Definition with_vector (f g : interrupt_stack_frame) : interrupt_stack_frame :=
  mkFrame
    (f_r15 f) (f_r14 f) (f_r13 f) (f_r12 f) (f_r11 f) (f_r10 f) (f_r9 f) (f_r8 f)
    (f_rbp f) (f_rdi f) (f_rsi f) (f_rdx f) (f_rcx f) (f_rbx f) (f_rax f) (f_int_no g)
    (f_err_code g) (f_rip f) (f_cs f) (f_rflags f) (f_rsp f) (f_ss f).

(** Saving a frame and restoring it into another one gives the registers of
    the first. *)
Lemma restore_save (f g : interrupt_stack_frame) (r : cpu_register) :
  vxRestoreRegister g (vxSaveRegister f r) = with_vector f g.
Proof. done. Qed.
