(* ===== verification/Signal.v ===== *)
(** * Signals

    [kernel/sys/sig.c], the [rt_sigaction], [rt_sigprocmask] and
    [rt_sigreturn] system calls, and the delivery of pending signals at the
    entry and the exit of [syscall_dispatch] ([kernel/sys/syscall.c]).  Of a
    [sigset_t] only the first word is ever read; it is the [Z] kept here. *)

From S2P Require Import Prelude CMem Str Cpu.

Definition SIGINT : Z := 2.
Definition SIGQUIT : Z := 3.
Definition SIGKILL : Z := 9.
Definition SIGTERM : Z := 15.
Definition SA_RESTART : Z := 0x10000000.
Definition MAX_SIGNAL_AVAILABLE : Z := 64.
Definition EINTR : Z := 4.
Definition EINVAL : Z := 22.
Definition ENOSYS : Z := 38.

Definition SIGBIT (x : Z) : Z := u64 (Z.shiftl 1 (x - 1)).

(** [sig_han_t]. *)
Record sig_han := mkSig {
  pending : Z; mask : Z; avail_handler : Z;
  handler : list Z; flags : list Z; restorer : list Z; signal_mask : list Z }.

Definition set_pending (h : sig_han) (p : Z) : sig_han :=
  mkSig p (mask h) (avail_handler h) (handler h) (flags h) (restorer h) (signal_mask h).
Definition set_mask (h : sig_han) (m : Z) : sig_han :=
  mkSig (pending h) m (avail_handler h) (handler h) (flags h) (restorer h) (signal_mask h).

(** [memset(sig, 0, sizeof(sig_han_t))] of [alloc_sig_handle]. *)
Definition alloc_sig_handle : sig_han :=
  mkSig 0 0 0 (replicate 64 0) (replicate 64 0) (replicate 64 0) (replicate 64 0).

(** [sig_send]: the new handle and the kernel handler it calls, if any. *)
Definition sig_send (h : sig_han) (sig : Z) : res (sig_han * option Z) :=
  if (sig <? 1) || (MAX_SIGNAL_AVAILABLE <? sig) then Ok (h, None)
  else if negb (Z.land (mask h) (SIGBIT sig) =? 0) then Ok (h, None)
  else
    hd ← aget (handler h) (sig - 1);
    if negb (hd =? 0) && (0xFFFF800000000000 <=? hd) then Ok (h, Some hd)
    else Ok (set_pending h (Z.lor (pending h) (SIGBIT sig)), None).

(** One turn of [sig_wait]: [None] when the caller blocks. *)
Definition sig_wait (h : sig_han) (m : Z) : option sig_han :=
  if Z.land (pending h) m =? 0 then None
  else Some (set_pending h (Z.land (pending h) (not64 m))).

Definition sig_register_handler (h : sig_han) (sig hd : Z) : res sig_han :=
  let prev := avail_handler h in
  let h := mkSig (pending h) (mask h) (Z.lor prev (SIGBIT sig)) (handler h) (flags h)
                 (restorer h) (signal_mask h) in
  if Z.land prev (SIGBIT sig) =? 0 then
    hs ← aset (handler h) (sig - 1) hd;
    Ok (mkSig (pending h) (mask h) (avail_handler h) hs (flags h) (restorer h) (signal_mask h))
  else Ok h.

(** [struct k_sigaction]. *)
Record k_sigaction := mkSa {
  sa_handler : Z; sa_flags : Z; sa_restorer : Z; sa_mask0 : Z; sa_mask1 : Z }.

(** [sig_action(handle, sig, act, oact)]: result, handle, and what is stored
    through [oact] (read only when [oact] is not null). *)
Definition sig_action (h : sig_han) (sig : Z) (act : option k_sigaction) (oact : bool) :
    res (Z * sig_han * option k_sigaction) :=
  if (sig <? 1) || (MAX_SIGNAL_AVAILABLE <? sig) then Ok (- EINVAL, h, None)
  else
    old ← (if (oact : bool) then
             hd ← aget (handler h) (sig - 1);
             fl ← aget (flags h) (sig - 1);
             rs ← aget (restorer h) (sig - 1);
             sm ← aget (signal_mask h) (sig - 1);
             Ok (Some (mkSa hd fl rs (u32 (Z.land sm 0xFFFFFFFF))
                            (u32 (Z.land (Z.shiftr sm 32) 0xFFFFFFFF))))
           else Ok None);
    match act with
    | None => Ok (0, h, old)
    | Some a =>
        if (sig =? 9) || (sig =? 19) then Ok (- EINVAL, h, old)
        else
          hs ← aset (handler h) (sig - 1) (sa_handler a);
          fs ← aset (flags h) (sig - 1) (sa_flags a);
          rs ← aset (restorer h) (sig - 1) (sa_restorer a);
          ms ← aset (signal_mask h) (sig - 1)
                 (Z.lor (u64 (Z.shiftl (sa_mask1 a) 32)) (sa_mask0 a));
          Ok (0, mkSig (pending h) (mask h) (avail_handler h) hs fs rs ms, old)
    end.

(** [syscall_rt_sigaction] of the active thread's handle; [None] when no
    thread is active. *)
Definition syscall_rt_sigaction (thr : option sig_han) (sig : Z) (act : option k_sigaction)
    (oact : bool) (sigsetsize : Z) : res (Z * option sig_han * option k_sigaction) :=
  match thr with
  | None => Ok (- ENOSYS, None, None)
  | Some h =>
      if negb (sigsetsize =? 8) then Ok (- EINVAL, Some h, None)
      else '(r, h, old) ← sig_action h sig act oact; Ok (r, Some h, old)
  end.

Definition SIG_BLOCK : Z := 0.
Definition SIG_UNBLOCK : Z := 1.
Definition SIG_SETMASK : Z := 2.

(** [n] bytes from [p]. *)
Fixpoint load_bytes (m : mem) (p : Z) (n : nat) : res (list Z) :=
  match n with
  | O => Ok []
  | Datatypes.S n => b ← load8 m p; bs ← load_bytes m (p + 1) n; Ok (b :: bs)
  end.

(** [set_.__bits[0]] after the copy of the first [n] bytes of the user set
    into the zeroed [set_]. *)
Definition set_word (m : mem) (set n : Z) : res Z :=
  bs ← load_bytes m set (Z.to_nat (Z.min n 128));
  Ok (le_value (take 8 (bs ++ replicate 8 0))).

Definition sigprocmask_apply (how cur w : Z) : option Z :=
  if how =? SIG_BLOCK then Some (Z.lor cur w)
  else if how =? SIG_UNBLOCK then Some (Z.land cur (not64 w))
  else if how =? SIG_SETMASK then Some w
  else None.

Definition syscall_rt_sigprocmask (thr : option sig_han) (m : mem) (how set oldset sigsetsize : Z) :
    res (Z * option sig_han * mem) :=
  match thr with
  | None => Ok (- ENOSYS, None, m)
  | Some h =>
      let current_mask := mask h in
      m ← (if oldset =? 0 then Ok m
           else memcopy_from m oldset (take (Z.to_nat (Z.min sigsetsize 8)) (le_bytes 8 current_mask)));
      if set =? 0 then Ok (0, Some h, m)
      else
        w ← set_word m set sigsetsize;
        match sigprocmask_apply how (mask h) w with
        | Some nm => Ok (0, Some (set_mask h nm), m)
        | None => Ok (- EINVAL, Some h, m)
        end
  end.

(** ** Delivery *)

(** What the delivery code reads and writes: the handle, [saved_reg] and
    [has_saved_reg] of the thread, the interrupt frame and the user memory. *)
Record sigctx := mkCtx {
  han : sig_han; saved_reg : cpu_register; has_saved_reg : bool;
  frame_of : interrupt_stack_frame; umem : mem }.

Inductive sigout :=
| NotDelivered              (** the loop ends, the system call goes on *)
| Delivered (sig : Z)       (** [return] with the frame on the handler *)
| Exited (status : Z).      (** [syscall_exit_group(status)] *)

Definition clear_pending (c : sigctx) (sig : Z) : sigctx :=
  mkCtx (set_pending (han c) (Z.land (pending (han c)) (not64 (SIGBIT sig))))
        (saved_reg c) (has_saved_reg c) (frame_of c) (umem c).

(** The custom handler branch; [rax] is the value saved without
    [SA_RESTART]. *)
Definition deliver_custom (c : sigctx) (int_no sig rax : Z) : res sigctx :=
  let f := frame_of c in
  fl ← aget (flags (han c)) (sig - 1);
  let sv := vxSaveRegister f (saved_reg c) in
  let sv := if negb (Z.land fl SA_RESTART =? 0)
            then set_r_rax (set_r_rip sv (u64 (r_rip sv - 2))) int_no
            else set_r_rax sv rax in
  let user_sp := u64 (Z.land (f_rsp f) (not64 15) - 8) in
  rs ← aget (restorer (han c)) (sig - 1);
  hd ← aget (handler (han c)) (sig - 1);
  m ← memcopy_from (umem c) user_sp (le_bytes 8 rs);
  let f := set_f_rip (set_f_rdx (set_f_rsi (set_f_rdi (set_f_rsp f user_sp) sig) 0) 0) hd in
  Ok (mkCtx (han c) sv true f m).

(** [for (sig = 1; sig <= 64; sig++) if (active & SIGBIT(sig)) ...], from
    [sig] on with [n] turns left. *)
Fixpoint deliver_loop (n : nat) (c : sigctx) (int_no active sig rax : Z) : res (sigout * sigctx) :=
  match n with
  | O => Ok (NotDelivered, c)
  | Datatypes.S n =>
      if Z.land active (SIGBIT sig) =? 0 then deliver_loop n c int_no active (sig + 1) rax
      else
        hd ← aget (handler (han c)) (sig - 1);
        if hd =? 0 then
          if (sig =? SIGINT) || (sig =? SIGQUIT) || (sig =? SIGKILL) || (sig =? SIGTERM)
          then Ok (Exited (128 + sig), clear_pending c sig)
          else deliver_loop n c int_no active (sig + 1) rax
        else if hd =? 1 then
          deliver_loop n (clear_pending c sig) int_no active (sig + 1) rax
        else
          c ← deliver_custom (clear_pending c sig) int_no sig rax;
          Ok (Delivered sig, c)
  end.

(** The system calls that skip delivery: exit, exit_group, rt_sigaction,
    sigprocmask and rt_sigreturn. *)
Definition no_delivery (int_no : Z) : bool :=
  (int_no =? 0x3C) || (int_no =? 0xE7) || (int_no =? 0x0D) || (int_no =? 0x0E) || (int_no =? 15).

(** Before the dispatch: every pending signal, whatever the mask. *)
Definition deliver_entry (c : sigctx) (int_no : Z) : res (sigout * sigctx) :=
  if no_delivery int_no then Ok (NotDelivered, c)
  else if pending (han c) =? 0 then Ok (NotDelivered, c)
  else deliver_loop 64 c int_no (pending (han c)) 1 (u64 (- EINTR)).

(** After it: the pending signals that are not masked. *)
Definition deliver_exit (c : sigctx) (int_no : Z) : res (sigout * sigctx) :=
  if no_delivery int_no then Ok (NotDelivered, c)
  else
    let active := Z.land (pending (han c)) (not64 (mask (han c))) in
    if active =? 0 then Ok (NotDelivered, c)
    else deliver_loop 64 c int_no active 1 (f_rax (frame_of c)).

(** [case SYSCALL_RT_SIGRETURN]. *)
Definition rt_sigreturn (c : sigctx) : sigctx :=
  if has_saved_reg c
  then mkCtx (han c) (saved_reg c) false (vxRestoreRegister (frame_of c) (saved_reg c)) (umem c)
  else c.

(** ** Bits *)

Lemma SIGBIT_pow s : 1 ≤ s ≤ 64 → SIGBIT s = 2 ^ (s - 1).
Proof.
  intros Hs. unfold SIGBIT, u64. rewrite Z.shiftl_1_l. apply Z.mod_small.
  split; [lia|]. apply Z.pow_lt_mono_r; lia.
Qed.

Lemma land_SIGBIT w s : 1 ≤ s ≤ 64 → (Z.land w (SIGBIT s) =? 0) = negb (Z.testbit w (s - 1)).
Proof.
  intros Hs. rewrite SIGBIT_pow, <- Z.shiftl_1_l by done. apply land_bit_zero. lia.
Qed.

Lemma testbit_not64 w k : 0 ≤ k < 64 → Z.testbit (not64 w) k = negb (Z.testbit w k).
Proof. intros. unfold not64, u64. by rewrite Z.mod_pow2_bits_low, Z.lnot_spec by lia. Qed.

Lemma testbit_clear w s k : 1 ≤ s ≤ 64 → 0 ≤ w < 2 ^ 64 → 0 ≤ k →
  Z.testbit (Z.land w (not64 (SIGBIT s))) k = Z.testbit w k && negb (k =? s - 1).
Proof.
  intros Hs Hw Hk. rewrite Z.land_spec. destruct (decide (k < 64)).
  - rewrite testbit_not64, SIGBIT_pow, Z.pow2_bits_eqb by lia. by rewrite Z.eqb_sym.
  - by rewrite (testbit_small w 64) by lia.
Qed.

Lemma land_bounds w v : 0 ≤ w < 2 ^ 64 → 0 ≤ v → 0 ≤ Z.land w v < 2 ^ 64.
Proof.
  intros Hw Hv. split; [apply Z.land_nonneg; lia|].
  destruct (Z.eqb_spec (Z.land w v) 0) as [->|]; [lia|].
  apply Z.log2_lt_pow2; [pose proof (Z.land_nonneg w v); lia|].
  pose proof (Z.log2_land w v). destruct (Z.eqb_spec w 0) as [->|].
  { by rewrite Z.land_0_l in *. }
  assert (Z.log2 w < 64) by (apply Z.log2_lt_pow2; lia). lia.
Qed.

Lemma not64_nonneg w : 0 ≤ not64 w.
Proof. unfold not64, u64. apply Z.mod_pos_bound. lia. Qed.

(** ** What the delivery loop decides *)

Definition sig_ok (h : sig_han) : Prop :=
  0 ≤ pending h < 2 ^ 64 ∧ length (handler h) = 64%nat ∧ length (flags h) = 64%nat ∧
  length (restorer h) = 64%nat ∧ length (signal_mask h) = 64%nat.

Definition handler_of (h : sig_han) (s : Z) : Z := at_ (handler h) (s - 1).

(** Signals whose default action ends the process. *)
Definition fatal (s : Z) : bool := (s =? SIGINT) || (s =? SIGQUIT) || (s =? SIGKILL) || (s =? SIGTERM).

(** An active signal that ends the scan: a user handler, or a fatal default. *)
Definition decisive (h : sig_han) (active s : Z) : bool :=
  Z.testbit active (s - 1) &&
  (if handler_of h s =? 0 then fatal s else negb (handler_of h s =? 1)).

Definition ignored (h : sig_han) (active s : Z) : bool :=
  Z.testbit active (s - 1) && (handler_of h s =? 1).

(** The frame on which the handler starts. *)
Definition handler_frame (h : sig_han) (f : interrupt_stack_frame) (s : Z) : interrupt_stack_frame :=
  set_f_rip (set_f_rdx (set_f_rsi (set_f_rdi
    (set_f_rsp f (u64 (Z.land (f_rsp f) (not64 15) - 8))) s) 0) 0) (handler_of h s).

(** The context saved for [rt_sigreturn]. *)
Definition saved_context (h : sig_han) (f : interrupt_stack_frame) (r : cpu_register)
    (int_no s rax : Z) : cpu_register :=
  let sv := vxSaveRegister f r in
  if negb (Z.land (at_ (flags h) (s - 1)) SA_RESTART =? 0)
  then set_r_rax (set_r_rip sv (u64 (r_rip sv - 2))) int_no
  else set_r_rax sv rax.

Definition stack_slot (c : sigctx) : Z := u64 (Z.land (f_rsp (frame_of c)) (not64 15) - 8).

(** The scan from [sig] that stops at [stop] (65: at no signal). *)
Definition scan_result (c c' : sigctx) (o : sigout) (int_no active sig rax stop : Z) : Prop :=
  sig ≤ stop ≤ 65 ∧
  (∀ s, sig ≤ s < stop → decisive (han c) active s = false) ∧
  (stop ≤ 64 → decisive (han c) active stop = true) ∧
  han c' = set_pending (han c) (pending (han c')) ∧ sig_ok (han c') ∧
  (∀ k, 0 ≤ k → Z.testbit (pending (han c')) k =
     Z.testbit (pending (han c)) k &&
     negb ((sig <=? k + 1) && (k + 1 <? stop) && ignored (han c) active (k + 1)) &&
     negb (k + 1 =? stop)) ∧
  if stop =? 65 then
    o = NotDelivered ∧
    c' = mkCtx (han c') (saved_reg c) (has_saved_reg c) (frame_of c) (umem c)
  else if handler_of (han c) stop =? 0 then
    o = Exited (128 + stop) ∧
    c' = mkCtx (han c') (saved_reg c) (has_saved_reg c) (frame_of c) (umem c)
  else
    o = Delivered stop ∧
    c' = mkCtx (han c') (saved_context (han c) (frame_of c) (saved_reg c) int_no stop rax) true
           (handler_frame (han c) (frame_of c) stop)
           (write_bytes (umem c) (stack_slot c) (le_bytes 8 (at_ (restorer (han c)) (stop - 1)))).

Lemma decisive_ignored h active s : decisive h active s = true → ignored h active s = false.
Proof.
  unfold decisive, ignored. destruct (Z.testbit active (s - 1)); [|done]. simpl.
  destruct (Z.eqb_spec (handler_of h s) 0) as [->|]; [done|]. by destruct (_ =? 1).
Qed.

Lemma sig_ok_pending h p : sig_ok h → 0 ≤ p < 2 ^ 64 → sig_ok (set_pending h p).
Proof. intros (_ & ? & ? & ? & ?) Hp. unfold sig_ok; simpl. done. Qed.

Lemma clear_pending_ok c s : sig_ok (han c) → sig_ok (han (clear_pending c s)).
Proof.
  intros Hok. apply sig_ok_pending; [done|]. destruct Hok as [? _].
  apply land_bounds; [done|apply not64_nonneg].
Qed.

Lemma deliver_custom_ok c int_no s rax :
  sig_ok (han c) → 1 ≤ s ≤ 64 → mapped (umem c) (stack_slot c) 8 →
  deliver_custom c int_no s rax =
    Ok (mkCtx (han c) (saved_context (han c) (frame_of c) (saved_reg c) int_no s rax) true
         (handler_frame (han c) (frame_of c) s)
         (write_bytes (umem c) (stack_slot c) (le_bytes 8 (at_ (restorer (han c)) (s - 1))))).
Proof.
  intros (_ & Hh & Hf & Hr & _) Hs Hm. unfold deliver_custom.
  rewrite (aget_ok (flags (han c))) by lia. step_ok.
  rewrite (aget_ok (restorer (han c))) by lia. step_ok.
  rewrite (aget_ok (handler (han c))) by lia. step_ok.
  rewrite memcopy_from_spec by (rewrite length_le_bytes; done). done.
Qed.

(** The invariant of the scan, moved over one signal that does not stop it. *)
Lemma scan_skip c c1 c' o int_no active sig rax stop :
  1 ≤ sig ≤ 64 → sig_ok (han c) → decisive (han c) active sig = false →
  c1 = (if ignored (han c) active sig then clear_pending c sig else c) →
  scan_result c1 c' o int_no active (sig + 1) rax stop →
  scan_result c c' o int_no active sig rax stop.
Proof.
  intros Hs Hok Hd -> (Hst & Hb & Hat & Hh & Hok' & Hbits & Hout).
  assert (∀ s, handler_of (han (if ignored (han c) active sig then clear_pending c sig else c)) s
             = handler_of (han c) s) as Hho by (intros; by destruct (ignored _ _ _)).
  assert (∀ s, decisive (han (if ignored (han c) active sig then clear_pending c sig else c)) active s
             = decisive (han c) active s) as Hde by (intros; unfold decisive; by rewrite Hho).
  assert (∀ s, ignored (han (if ignored (han c) active sig then clear_pending c sig else c)) active s
             = ignored (han c) active s) as Hig by (intros; unfold ignored; by rewrite Hho).
  split_and!; try lia; try done.
  - intros s Hs'. destruct (decide (s = sig)) as [->|]; [done|]. rewrite <- Hde. apply Hb. lia.
  - intros. rewrite <- Hde. by apply Hat.
  - rewrite Hh. by destruct (ignored _ _ _).
  - intros k Hk. rewrite Hbits by done. rewrite Hig.
    destruct (ignored (han c) active sig) eqn:Ei.
    + simpl. rewrite testbit_clear by (lia || apply Hok).
      destruct (Z.eqb_spec k (sig - 1)) as [->|].
      * replace (sig - 1 + 1) with sig by lia. rewrite Ei.
        rewrite (Zle_imp_le_bool sig sig) by lia.
        destruct (Z.ltb_spec sig stop); [|lia]. simpl. by rewrite !andb_false_r.
      * destruct (Z.leb_spec (sig + 1) (k + 1)), (Z.leb_spec sig (k + 1)); try lia;
          by rewrite ?andb_true_r.
    + destruct (Z.leb_spec (sig + 1) (k + 1)), (Z.leb_spec sig (k + 1)); try lia; [done| |done].
      assert (k + 1 = sig) as -> by lia. by rewrite Ei, !andb_false_r.
  - rewrite Hho in Hout. by destruct (ignored (han c) active sig).
Qed.

Lemma scan_stop c c' o int_no active sig rax :
  1 ≤ sig ≤ 64 → sig_ok (han c) → decisive (han c) active sig = true →
  han c' = han (clear_pending c sig) →
  (if handler_of (han c) sig =? 0 then
     o = Exited (128 + sig) ∧
     c' = mkCtx (han c') (saved_reg c) (has_saved_reg c) (frame_of c) (umem c)
   else
     o = Delivered sig ∧
     c' = mkCtx (han c') (saved_context (han c) (frame_of c) (saved_reg c) int_no sig rax) true
            (handler_frame (han c) (frame_of c) sig)
            (write_bytes (umem c) (stack_slot c) (le_bytes 8 (at_ (restorer (han c)) (sig - 1))))) →
  scan_result c c' o int_no active sig rax sig.
Proof.
  intros Hs Hok Hd Hh Hout. split_and!; try lia; try done.
  - by rewrite Hh.
  - rewrite Hh. by apply clear_pending_ok.
  - intros k Hk. rewrite Hh. simpl. rewrite testbit_clear by (lia || apply Hok).
    replace (k =? sig - 1) with (k + 1 =? sig) by (destruct (Z.eqb_spec (k + 1) sig), (Z.eqb_spec k (sig - 1)); lia || done).
    destruct (Z.leb_spec sig (k + 1)), (Z.ltb_spec (k + 1) sig); try lia; by rewrite andb_true_r.
  - by destruct (Z.eqb_spec sig 65); [lia|].
Qed.

Lemma deliver_loop_spec n c int_no active sig rax :
  sig_ok (han c) → mapped (umem c) (stack_slot c) 8 → 1 ≤ sig → sig + Z.of_nat n = 65 →
  ∃ o c' stop, deliver_loop n c int_no active sig rax = Ok (o, c') ∧
    scan_result c c' o int_no active sig rax stop.
Proof.
  revert c sig. induction n as [|n IH]; intros c sig Hok Hm Hs Hn; cbn [deliver_loop].
  { exists NotDelivered, c, 65. split; [done|]. assert (sig = 65) as -> by lia.
    split_and!; try lia; try done.
    - by destruct c as [[]].
    - intros k Hk. destruct (decide (k < 64)).
      + destruct (Z.leb_spec 65 (k + 1)), (Z.eqb_spec (k + 1) 65); try lia. simpl.
        by rewrite !andb_true_r.
      + by rewrite (testbit_small (pending (han c)) 64) by (apply Hok || lia).
    - by destruct c. }
  rewrite land_SIGBIT by lia.
  assert (∀ c1, c1 = (if ignored (han c) active sig then clear_pending c sig else c) →
    decisive (han c) active sig = false →
    ∃ o c' stop, deliver_loop n c1 int_no active (sig + 1) rax = Ok (o, c') ∧
      scan_result c c' o int_no active sig rax stop) as Hskip.
  { intros c1 Hc1 Hd. destruct (IH c1 (sig + 1)) as (o & c' & stop & Hr & Hsc).
    - subst c1. destruct (ignored _ _ _); [by apply clear_pending_ok|done].
    - subst c1. by destruct (ignored _ _ _).
    - lia.
    - lia.
    - exists o, c', stop. split; [done|]. apply (scan_skip c c1); done || lia. }
  destruct (Z.testbit active (sig - 1)) eqn:Ht; simpl.
  2:{ apply Hskip; unfold ignored, decisive; by rewrite Ht. }
  rewrite (aget_ok (handler (han c))) by (destruct Hok as (_ & ? & _); lia). step_ok.
  fold (handler_of (han c) sig).
  destruct (Z.eqb_spec (handler_of (han c) sig) 0) as [E0|E0].
  - fold (fatal sig). destruct (fatal sig) eqn:Ef.
    + eexists _, _, sig. split; [done|]. apply scan_stop; try done; try lia.
      * unfold decisive. by rewrite Ht, E0.
      * rewrite E0. done.
    + apply Hskip; unfold ignored, decisive; by rewrite Ht, E0.
  - destruct (Z.eqb_spec (handler_of (han c) sig) 1) as [E1|E1].
    + apply Hskip; unfold ignored, decisive; by rewrite Ht, E1.
    + rewrite deliver_custom_ok by (try apply clear_pending_ok; done || lia). step_ok.
      eexists _, _, sig. split; [done|].
      destruct (Z.eqb_spec (handler_of (han c) sig) 0) as [|N0]; [done|].
      apply scan_stop; try done; try lia.
      * unfold decisive. rewrite Ht. destruct (Z.eqb_spec (handler_of (han c) sig) 0); [done|].
        destruct (Z.eqb_spec (handler_of (han c) sig) 1); done.
      * destruct (Z.eqb_spec (handler_of (han c) sig) 0); done.
Qed.

Lemma deliver_loop_none n c int_no sig rax : deliver_loop n c int_no 0 sig rax = Ok (NotDelivered, c).
Proof. revert sig. induction n as [|n IH]; intros sig; [done|]. cbn [deliver_loop]. rewrite Z.land_0_l. apply IH. Qed.

Lemma deliver_exit_scan c int_no :
  sig_ok (han c) → mapped (umem c) (stack_slot c) 8 → no_delivery int_no = false →
  ∃ o c' stop, deliver_exit c int_no = Ok (o, c') ∧
    scan_result c c' o int_no (Z.land (pending (han c)) (not64 (mask (han c)))) 1
      (f_rax (frame_of c)) stop.
Proof.
  intros Hok Hm Hno. unfold deliver_exit. rewrite Hno. cbv zeta.
  destruct (deliver_loop_spec 64 c int_no (Z.land (pending (han c)) (not64 (mask (han c)))) 1
    (f_rax (frame_of c)) Hok Hm) as (o & c' & stop & Hr & Hsc); [lia|lia|].
  exists o, c', stop. split; [|exact Hsc].
  destruct (Z.eqb_spec (Z.land (pending (han c)) (not64 (mask (han c)))) 0) as [E|]; [|exact Hr].
  rewrite E, deliver_loop_none in Hr. exact Hr.
Qed.

Lemma deliver_entry_scan c int_no :
  sig_ok (han c) → mapped (umem c) (stack_slot c) 8 → no_delivery int_no = false →
  ∃ o c' stop, deliver_entry c int_no = Ok (o, c') ∧
    scan_result c c' o int_no (pending (han c)) 1 (u64 (- EINTR)) stop.
Proof.
  intros Hok Hm Hno. unfold deliver_entry. rewrite Hno.
  destruct (deliver_loop_spec 64 c int_no (pending (han c)) 1 (u64 (- EINTR)) Hok Hm) as (o & c' & stop & Hr & Hsc); [lia|lia|].
  exists o, c', stop. split; [|exact Hsc].
  destruct (Z.eqb_spec (pending (han c)) 0) as [E|]; [|exact Hr]. rewrite E, deliver_loop_none in Hr. exact Hr.
Qed.

(** ** Properties *)


(** Signal [sig] is delivered to its handler, before ([entry]) or after the
    work of system call [int_no]. *)
Definition delivered (entry : bool) (c : sigctx) (int_no sig : Z) (c1 : sigctx) : Prop :=
  (if entry then deliver_entry else deliver_exit) c int_no = Ok (Delivered sig, c1).

(** Where the thread goes on: after the call, with the result of the call or
    -EINTR when it has not run, or with [SA_RESTART] at the call itself. *)
Definition resume_at (entry : bool) (h : sig_han) (f : interrupt_stack_frame) (int_no sig : Z) : interrupt_stack_frame :=
  if negb (Z.land (at_ (flags h) (sig - 1)) SA_RESTART =? 0) then set_f_rax (set_f_rip f (u64 (f_rip f - 2))) int_no
  else if entry then set_f_rax f (u64 (- EINTR)) else f.

(** The save slot of the thread is the same. *)
Definition same_slot (c c' : sigctx) : Prop := saved_reg c' = saved_reg c ∧ has_saved_reg c' = has_saved_reg c.

Lemma delivered_context entry c int_no sig c1 :
  sig_ok (han c) → mapped (umem c) (stack_slot c) 8 → delivered entry c int_no sig c1 →
  c1 = mkCtx (han c1)
    (saved_context (han c) (frame_of c) (saved_reg c) int_no sig (if entry then u64 (- EINTR) else f_rax (frame_of c))) true
    (handler_frame (han c) (frame_of c) sig)
    (write_bytes (umem c) (stack_slot c) (le_bytes 8 (at_ (restorer (han c)) (sig - 1)))).
Proof.
  intros Hok Hm Hd. unfold delivered in Hd.
  destruct (no_delivery int_no) eqn:Hno; [destruct entry; unfold deliver_entry, deliver_exit in Hd; by rewrite Hno in Hd|].
  assert (∃ stop active, scan_result c c1 (Delivered sig) int_no active 1 (if entry then u64 (- EINTR) else f_rax (frame_of c)) stop)
    as (stop & active & Hsc).
  { destruct entry.
    - destruct (deliver_entry_scan c int_no Hok Hm Hno) as (o & c' & stop & Hr & Hsc). rewrite Hd in Hr. simplify_eq. eauto.
    - destruct (deliver_exit_scan c int_no Hok Hm Hno) as (o & c' & stop & Hr & Hsc). rewrite Hd in Hr. simplify_eq. eauto. }
  destruct Hsc as (_ & _ & _ & _ & _ & _ & Hout).
  destruct (stop =? 65); [by destruct Hout|].
  destruct (handler_of (han c) stop =? 0); [by destruct Hout|].
  by destruct Hout as [[= <-] Hc].
Qed.

Lemma return_resumes entry c int_no sig c1 c2 :
  sig_ok (han c) → mapped (umem c) (stack_slot c) 8 → delivered entry c int_no sig c1 → same_slot c1 c2 →
  frame_of (rt_sigreturn c2) = with_vector (resume_at entry (han c) (frame_of c) int_no sig) (frame_of c2) ∧
  has_saved_reg (rt_sigreturn c2) = false.
Proof.
  intros Hok Hm Hd (Hs & Hh). rewrite (delivered_context entry c int_no sig c1 Hok Hm Hd) in Hs, Hh. simpl in Hs, Hh.
  unfold rt_sigreturn. rewrite Hh, Hs. split; [|done]. unfold saved_context, resume_at. by destruct (negb _), entry.
Qed.

(** C38. Handler call and return. A signal delivered before or after the work of
    a system call starts its handler with the signal number in [rdi], a stack
    pointer congruent to 8 modulo 16 and the restorer as its return address.
    If no other signal is delivered until the [rt_sigreturn] of the handler,
    that gives back every register of the interrupted context: after the call
    with its result, or -EINTR if it had not run, or with [SA_RESTART] at the
    call instruction, even if the call has run. There is one save slot: after
    another delivery during the handler, the inner return leads back into the
    outer handler, and the outer [rt_sigreturn] changes nothing. *)
Theorem signal_handler_roundtrip (entry : bool) (c c1 c2 : sigctx) (int_no sig : Z) :
  sig_ok (han c) → mapped (umem c) (stack_slot c) 8 → 0 ≤ f_rsp (frame_of c) < 2 ^ 64 →
  delivered entry c int_no sig c1 → same_slot c1 c2 →
  f_rip (frame_of c1) = handler_of (han c) sig ∧ f_rdi (frame_of c1) = sig ∧ f_rsp (frame_of c1) mod 16 = 8 ∧
  bytes_at (umem c1) (f_rsp (frame_of c1)) (le_bytes 8 (at_ (restorer (han c)) (sig - 1))) ∧
  frame_of (rt_sigreturn c2) = with_vector (resume_at entry (han c) (frame_of c) int_no sig) (frame_of c2) ∧
  ∀ (entry2 : bool) int_no2 sig2 c3 c4 c5,
    sig_ok (han c2) → mapped (umem c2) (stack_slot c2) 8 → delivered entry2 c2 int_no2 sig2 c3 → same_slot c3 c4 →
    same_slot (rt_sigreturn c4) c5 →
    frame_of (rt_sigreturn c4) = with_vector (resume_at entry2 (han c2) (frame_of c2) int_no2 sig2) (frame_of c4) ∧
    rt_sigreturn c5 = c5.
Proof.
  intros Hok Hm Hsp Hd Hs. pose proof (delivered_context entry c int_no sig c1 Hok Hm Hd) as Hc1.
  destruct (return_resumes entry c int_no sig c1 c2 Hok Hm Hd Hs) as (Hret & _). rewrite Hc1. split_and!; try done.
  - cbn. unfold u64. rewrite (land_not64_low _ 4) by lia. clear. dlia.
  - apply write_bytes_at.
  - intros entry2 int_no2 sig2 c3 c4 c5 Hok2 Hm2 Hd2 Hs2 (_ & Hh5).
    destruct (return_resumes entry2 c2 int_no2 sig2 c3 c4 Hok2 Hm2 Hd2 Hs2) as (Hret2 & Hempty). split; [done|].
    unfold rt_sigreturn at 1. by rewrite Hh5, Hempty.
Qed.

Lemma load_bytes_at m p bs : bytes_at m p bs → load_bytes m p (length bs) = Ok bs.
Proof.
  revert p. induction bs as [|b bs IH]; intros p; [done|]. intros [Hb Hbs]. cbn [length load_bytes].
  rewrite (load8_ok _ _ _ Hb). step_ok. by rewrite (IH (p + 1) Hbs).
Qed.

(** [rt_sigprocmask] on a full 8-byte set: the old mask is stored at
    [oldset], and the new mask has, bit by bit, the union, difference or
    replacement that [how] names. *)
Theorem sigprocmask_spec (h : sig_han) (m : mem) (how set oldset w : Z) :
  0 ≤ w < 2 ^ 64 → bytes_at m set (le_bytes 8 w) → mapped m oldset 8 →
  (∀ i j, 0 ≤ i < 8 → 0 ≤ j < 8 → set + i ≠ oldset + j) → set ≠ 0 → oldset ≠ 0 →
  0 ≤ how ≤ 2 →
  ∃ h' m', syscall_rt_sigprocmask (Some h) m how set oldset 8 = Ok (0, Some h', m') ∧
    bytes_at m' oldset (le_bytes 8 (mask h)) ∧
    (∀ k, 0 ≤ k < 64 → Z.testbit (mask h') k =
       if how =? SIG_BLOCK then Z.testbit (mask h) k || Z.testbit w k
       else if how =? SIG_UNBLOCK then Z.testbit (mask h) k && negb (Z.testbit w k)
       else Z.testbit w k) ∧
    pending h' = pending h.
Proof.
  intros Hw Hset Hold Hdisj Hs Ho Hhow. unfold syscall_rt_sigprocmask.
  destruct (Z.eqb_spec oldset 0); [done|]. destruct (Z.eqb_spec set 0); [done|].
  change (Z.to_nat (Z.min 8 8)) with 8%nat. rewrite take_ge by (rewrite length_le_bytes; lia).
  rewrite memcopy_from_spec by (by rewrite length_le_bytes). step_ok.
  unfold set_word. change (Z.to_nat (Z.min 8 128)) with 8%nat.
  assert (bytes_at (write_bytes m oldset (le_bytes 8 (mask h))) set (le_bytes 8 w)) as Hset'.
  { apply (bytes_at_subst m); [|done]. intros x Hx. rewrite length_le_bytes in Hx.
    apply write_bytes_outside. rewrite length_le_bytes.
    destruct (decide (oldset ≤ x < oldset + 8)) as [Hin|]; [|lia].
    destruct (Hdisj (x - set) (x - oldset)); lia. }
  pose proof (load_bytes_at _ _ _ Hset') as Hl. rewrite length_le_bytes in Hl.
  rewrite Hl. step_ok. rewrite take_app_le by (rewrite length_le_bytes; lia).
  rewrite take_ge by (rewrite length_le_bytes; lia).
  rewrite le_value_bytes, Z.mod_small by lia.
  unfold sigprocmask_apply.
  destruct (Z.eqb_spec how SIG_BLOCK), (Z.eqb_spec how SIG_UNBLOCK), (Z.eqb_spec how SIG_SETMASK);
    unfold SIG_BLOCK, SIG_UNBLOCK, SIG_SETMASK in *; try lia;
    (eexists _, _; split_and!; [done|apply write_bytes_at| |done]);
    intros k Hk; simpl; rewrite ?Z.lor_spec, ?Z.land_spec, ?testbit_not64 by done; done.
Qed.

(** The action a query of signal [s] reports. *)
Definition action_of (h : sig_han) (s : Z) : k_sigaction :=
  mkSa (at_ (handler h) (s - 1)) (at_ (flags h) (s - 1)) (at_ (restorer h) (s - 1))
    (at_ (signal_mask h) (s - 1) mod 2 ^ 32) ((at_ (signal_mask h) (s - 1) / 2 ^ 32) mod 2 ^ 32).

Lemma sig_action_query h s : sig_ok h → 1 ≤ s ≤ 64 →
  sig_action h s None true = Ok (0, h, Some (action_of h s)).
Proof.
  intros (_ & Hh & Hf & Hr & Hm) Hs. unfold sig_action, MAX_SIGNAL_AVAILABLE.
  destruct (Z.ltb_spec s 1), (Z.ltb_spec 64 s); try lia. cbn [orb].
  rewrite !aget_ok by lia. do 4 step_ok. step_ok. unfold action_of.
  change 0xFFFFFFFF with (2 ^ 32 - 1). rewrite !land_ones_mod by lia.
  unfold u32. rewrite !Z.mod_mod, shiftr_div by lia. done.
Qed.

Definition set_action (h : sig_han) (s : Z) (a : k_sigaction) : sig_han :=
  let i := Z.to_nat (s - 1) in
  mkSig (pending h) (mask h) (avail_handler h) (<[i := sa_handler a]> (handler h))
    (<[i := sa_flags a]> (flags h)) (<[i := sa_restorer a]> (restorer h))
    (<[i := Z.lor (u64 (Z.shiftl (sa_mask1 a) 32)) (sa_mask0 a)]> (signal_mask h)).

Lemma set_action_ok h s a : sig_ok h → sig_ok (set_action h s a).
Proof. unfold sig_ok; simpl. by rewrite !length_insert. Qed.

Lemma sig_action_set h s a : sig_ok h → 1 ≤ s ≤ 64 →
  sig_action h s (Some a) true =
    Ok (if (s =? 9) || (s =? 19) then - EINVAL else 0,
        if (s =? 9) || (s =? 19) then h else set_action h s a, Some (action_of h s)).
Proof.
  intros Hok Hs. pose proof (sig_action_query h s Hok Hs) as Hq. unfold sig_action in *.
  destruct ((s <? 1) || (MAX_SIGNAL_AVAILABLE <? s)); [done|].
  apply res_bind_ok in Hq as (old & Hold & [= ->]). rewrite Hold. step_ok.
  destruct ((s =? 9) || (s =? 19)); [done|]. destruct Hok as (_ & Hh & Hf & Hr & Hm).
  rewrite !aset_ok by lia. done.
Qed.

Lemma action_of_set h s a s' : sig_ok h → 1 ≤ s ≤ 64 → 1 ≤ s' ≤ 64 →
  0 ≤ sa_mask0 a < 2 ^ 32 → 0 ≤ sa_mask1 a < 2 ^ 32 →
  action_of (set_action h s a) s' = if decide (s = s') then a else action_of h s'.
Proof.
  intros (_ & Hh & Hf & Hr & Hm) Hs Hs' Ha0 Ha1. unfold action_of; simpl.
  rewrite !at_insert by lia. destruct (decide (s = s')) as [<-|].
  2:{ by rewrite !decide_False by lia. }
  rewrite !decide_True by done.
  assert (u64 (Z.shiftl (sa_mask1 a) 32) = Z.shiftl (sa_mask1 a) 32) as ->.
  { rewrite Z.shiftl_mul_pow2 by lia. unfold u64. apply Z.mod_small. lia. }
  rewrite lor_shiftl_add by lia.
  destruct a as [? ? ? m0 m1]; simpl in *. f_equal; clear -Ha0 Ha1; dlia.
Qed.

(** [sig_action]: the action a valid signal other than SIGKILL and SIGSTOP
    is given is the one a later query reports, and the actions of the other
    signals are unchanged; for SIGKILL and SIGSTOP, and for numbers outside
    1..64, the call fails with [EINVAL] and changes nothing. *)
Theorem sig_action_spec (h : sig_han) (sig : Z) (a : k_sigaction) :
  sig_ok h → 0 ≤ sa_mask0 a < 2 ^ 32 → 0 ≤ sa_mask1 a < 2 ^ 32 →
  if (1 <=? sig) && (sig <=? 64) && negb ((sig =? 9) || (sig =? 19)) then
    ∃ h', sig_action h sig (Some a) true = Ok (0, h', Some (action_of h sig)) ∧ sig_ok h' ∧
      sig_action h' sig None true = Ok (0, h', Some a) ∧
      pending h' = pending h ∧ mask h' = mask h ∧
      ∀ s, 1 ≤ s ≤ 64 → s ≠ sig → action_of h' s = action_of h s
  else
    ∃ old, sig_action h sig (Some a) true = Ok (- EINVAL, h, old).
Proof.
  intros Hok Ha0 Ha1. destruct (decide (1 ≤ sig ≤ 64)) as [Hs|Hs].
  - assert ((1 <=? sig) && (sig <=? 64) = true) as -> by zcases.
    rewrite sig_action_set by done.
    destruct ((sig =? 9) || (sig =? 19)); cbn [negb andb]; [by eexists|].
    exists (set_action h sig a). split_and!; try done; [by apply set_action_ok| |].
    + rewrite sig_action_query by (try apply set_action_ok; done).
      by rewrite action_of_set, decide_True.
    + intros s Hs' Hne. by rewrite action_of_set, decide_False.
  - assert ((1 <=? sig) && (sig <=? 64) = false) as -> by zcases.
    exists None. unfold sig_action, MAX_SIGNAL_AVAILABLE. by zcases.
Qed.

(** ** Examples *)

Definition demo_han : sig_han :=
  set_action (set_pending alloc_sig_handle 0x4202) 10 (mkSa 0x401000 0 0x402000 0 0).

Definition demo_ctx : sigctx :=
  mkCtx (set_mask demo_han 2) zero_reg false
    (set_f_rip (set_f_rax (set_f_rsp zero_frame_regs 0x7FF3) 42) 0x400123)
    (write_bytes ∅ 0x7FC0 (replicate 64 0)).

Lemma demo_ctx_ok : sig_ok (han demo_ctx) ∧ mapped (umem demo_ctx) (stack_slot demo_ctx) 8.
Proof.
  split; [unfold sig_ok; split_and!; vm_compute; done|].
  apply (mapped_check _ _ 8). vm_compute. done.
Qed.

Definition demo_delivered : sigctx :=
  match deliver_exit demo_ctx 0 with Ok (_, c) => c | _ => demo_ctx end.


Lemma signal_handler_roundtrip_witness :
  f_rip (frame_of demo_delivered) = 0x401000 ∧
  f_rip (frame_of (rt_sigreturn demo_delivered)) = 0x400123.
Proof.
  destruct (signal_handler_roundtrip false demo_ctx demo_delivered demo_delivered 0 10)
    as (H1 & _ & _ & _ & H5 & _);
    [apply demo_ctx_ok|apply demo_ctx_ok|vm_compute; done|vm_compute; done|done|].
  split; [rewrite H1; vm_compute; done|rewrite H5; vm_compute; done].
Defined.

Lemma sigprocmask_spec_witness :
  ∃ h' m', syscall_rt_sigprocmask (Some demo_han) (umem demo_ctx) 1 0x7FE0 0x7FF0 8 =
    Ok (0, Some h', m') ∧ pending h' = pending demo_han.
Proof.
  destruct (sigprocmask_spec demo_han (umem demo_ctx) 1 0x7FE0 0x7FF0 0) as (h' & m' & H1 & _ & _ & H4);
    [lia|vm_compute; repeat split| |lia|lia|lia|lia|exists h', m'; split; assumption].
  apply (mapped_check _ _ 8). vm_compute. done.
Defined.

Lemma sig_action_spec_witness :
  ∃ h', sig_action demo_han 17 (Some (mkSa 1 0 0 5 7)) true =
    Ok (0, h', Some (action_of demo_han 17)) ∧
  sig_action h' 17 None true = Ok (0, h', Some (mkSa 1 0 0 5 7)).
Proof.
  destruct (sig_action_spec demo_han 17 (mkSa 1 0 0 5 7)) as (h' & H1 & _ & H3 & _);
    [apply (demo_ctx_ok)|simpl; lia|simpl; lia|]. by exists h'.
Defined.

(** ** Behaviours worth knowing *)

(** The entry path does not look at the mask: signal 2 is masked in
    [demo_ctx] and still ends the process there, while the exit path leaves
    it pending. *)
Example signal_entry_ignores_mask :
  Z.testbit (mask (han demo_ctx)) (SIGINT - 1) = true ∧
  (∃ c', deliver_entry demo_ctx 0 = Ok (Exited (128 + SIGINT), c')) ∧
  Z.testbit (pending (han demo_delivered)) (SIGINT - 1) = true.
Proof. split_and!; [done|eexists; vm_compute; done|done]. Qed.

(** A signal sent while it is masked is dropped, not left pending. *)
Theorem sig_send_masked_dropped (h : sig_han) (sig : Z) :
  1 ≤ sig ≤ 64 → Z.testbit (mask h) (sig - 1) = true → sig_send h sig = Ok (h, None).
Proof.
  intros Hs Hm. unfold sig_send, MAX_SIGNAL_AVAILABLE.
  destruct (Z.ltb_spec sig 1), (Z.ltb_spec 64 sig); try lia. cbn [orb].
  by rewrite land_SIGBIT, Hm by lia.
Qed.

(** There is one save slot: a second delivery overwrites the context of the
    first, and after the two returns the thread runs its first handler again
    instead of the interrupted code. *)
Definition demo_second : sigctx :=
  mkCtx (set_action (set_pending (han demo_delivered) 0x800) 12 (mkSa 0x403000 0 0x402000 0 0))
    (saved_reg demo_delivered) (has_saved_reg demo_delivered) (frame_of demo_delivered)
    (umem demo_delivered).

Definition frame_after (o : sigout) (r : res (sigout * sigctx)) : res interrupt_stack_frame :=
  match r, o with
  | Ok (Delivered s, c), Delivered s' =>
      if s =? s' then Ok (frame_of (rt_sigreturn (rt_sigreturn c))) else Fault
  | _, _ => Fault
  end.

Example nested_signal_loses_context :
  f_rip <$> frame_after (Delivered 12) (deliver_exit demo_second 0) = Ok 0x401000 ∧
  f_rip (frame_of demo_ctx) = 0x400123.
Proof. split; vm_compute; reflexivity. Qed.
