(* ===== verification/SchedState.v ===== *)
(** * Scheduler state

    The data of [kernel/procc/scheduler.c]: threads and run-queue nodes as
    objects in stores keyed by their addresses (0 is the null pointer), the
    per-core [scheduler_core_t] and [each_core_data], and the machine state
    the context switch touches (FS and kernel GS base, TSS stack, CR3, FPU
    registers, APIC timer).  Operations run in a state monad over the outcome
    monad; a null or dangling pointer is a [Fault]. *)

From S2P Require Import Prelude Spinlock Cpu Signal.

Definition THREAD_USER : Z := 1.

Definition THREAD_STATE_CREATE : Z := 0.
Definition THREAD_STATE_READY : Z := 1.
Definition THREAD_STATE_RUNNING : Z := 2.
Definition THREAD_STATE_BLOCKED : Z := 3.
Definition THREAD_STATE_TERMINATED : Z := 4.
Definition THREAD_STATE_HAL : Z := 5.

Definition SCHEDULER_STACK_SIZE : Z := 0x4000.
Definition APIC_TIMER_ONE_SHOT : Z := 0.
Definition APIC_TIMER_PERIOD : Z := Z.shiftl 1 17.

(** [struct thread], the fields the scheduler uses. *)
Record thread := mkThread {
  t_id : Z; t_core_affinity : Z; t_state : Z; t_flags : Z; t_last_run_time : Z;
  t_total_run_time_ns : Z; t_has_update_run_time : bool; t_current_core_id : Z;
  t_process : Z; t_fs_base : Z; t_gs_base : Z; t_kernel_rsp : Z;
  t_kernel_stack_top : Z; t_in_kernel_sleep : bool; t_wake_pending : bool;
  t_signal : Z; t_reg : cpu_register; t_wakeup_time : Z; t_fpu_state : Z }.

(** [scheduler_queue_t]. *)
Record node := mkNode {
  n_thread : Z; n_prev : Z; n_next : Z }.

(** [scheduler_core_t], with the tick counter of the core. *)
Record sched_core := mkSched {
  sc_current : Z; sc_last : Z; sc_head : Z; sc_lock : spinlock; sc_stack : Z;
  sc_rsp : Z; sc_is_running : bool; sc_timer_vector : Z; sc_tick_interval_us : Z;
  sc_heartbeat : Z }.

(** [each_core_data] and the registers of the core: TSS [rsp0], CR3, the FPU
    registers as one value, the last timer programmed (mode, interval,
    vector) and the number of end-of-interrupts. *)
Record core := mkCore {
  co_kernel_rsp : Z; co_next_is_user : Z; co_active_thread : Z; co_fs : Z; co_kgs : Z;
  co_tss : Z; co_cr3 : Z; co_fpu : Z; co_timer : option (Z * Z * Z); co_eoi : Z }.

(** The kernel state: [procs] gives the page map of a process, [fpus] the
    contents of the FPU save areas, [frame] the interrupt frame of the
    running handler, [reads] the number of reads of the HPET counter,
    [called] the kernel signal handlers invoked, [hint] the static
    [next_core_hint]. *)
Record ks := mkKs {
  k_threads : gmap Z thread; k_nodes : gmap Z node; k_sched : list sched_core;
  k_cores : list core; k_procs : gmap Z Z; k_sigs : gmap Z sig_han; k_fpus : gmap Z Z;
  k_frame : interrupt_stack_frame; k_reads : nat; k_called : list (Z * Z); k_hint : Z }.

Definition set_t_core_affinity (x : Z) (s : thread) : thread :=
  mkThread (t_id s) x (t_state s) (t_flags s) (t_last_run_time s)
  (t_total_run_time_ns s) (t_has_update_run_time s) (t_current_core_id s) (t_process s)
  (t_fs_base s) (t_gs_base s) (t_kernel_rsp s) (t_kernel_stack_top s)
  (t_in_kernel_sleep s) (t_wake_pending s) (t_signal s) (t_reg s) (t_wakeup_time s)
  (t_fpu_state s).
Definition set_t_state (x : Z) (s : thread) : thread :=
  mkThread (t_id s) (t_core_affinity s) x (t_flags s) (t_last_run_time s)
  (t_total_run_time_ns s) (t_has_update_run_time s) (t_current_core_id s) (t_process s)
  (t_fs_base s) (t_gs_base s) (t_kernel_rsp s) (t_kernel_stack_top s)
  (t_in_kernel_sleep s) (t_wake_pending s) (t_signal s) (t_reg s) (t_wakeup_time s)
  (t_fpu_state s).
Definition set_t_last_run_time (x : Z) (s : thread) : thread :=
  mkThread (t_id s) (t_core_affinity s) (t_state s) (t_flags s) x
  (t_total_run_time_ns s) (t_has_update_run_time s) (t_current_core_id s) (t_process s)
  (t_fs_base s) (t_gs_base s) (t_kernel_rsp s) (t_kernel_stack_top s)
  (t_in_kernel_sleep s) (t_wake_pending s) (t_signal s) (t_reg s) (t_wakeup_time s)
  (t_fpu_state s).
Definition set_t_total_run_time_ns (x : Z) (s : thread) : thread :=
  mkThread (t_id s) (t_core_affinity s) (t_state s) (t_flags s) (t_last_run_time s) x
  (t_has_update_run_time s) (t_current_core_id s) (t_process s) (t_fs_base s)
  (t_gs_base s) (t_kernel_rsp s) (t_kernel_stack_top s) (t_in_kernel_sleep s)
  (t_wake_pending s) (t_signal s) (t_reg s) (t_wakeup_time s) (t_fpu_state s).
Definition set_t_has_update_run_time (x : bool) (s : thread) : thread :=
  mkThread (t_id s) (t_core_affinity s) (t_state s) (t_flags s) (t_last_run_time s)
  (t_total_run_time_ns s) x (t_current_core_id s) (t_process s) (t_fs_base s)
  (t_gs_base s) (t_kernel_rsp s) (t_kernel_stack_top s) (t_in_kernel_sleep s)
  (t_wake_pending s) (t_signal s) (t_reg s) (t_wakeup_time s) (t_fpu_state s).
Definition set_t_current_core_id (x : Z) (s : thread) : thread :=
  mkThread (t_id s) (t_core_affinity s) (t_state s) (t_flags s) (t_last_run_time s)
  (t_total_run_time_ns s) (t_has_update_run_time s) x (t_process s) (t_fs_base s)
  (t_gs_base s) (t_kernel_rsp s) (t_kernel_stack_top s) (t_in_kernel_sleep s)
  (t_wake_pending s) (t_signal s) (t_reg s) (t_wakeup_time s) (t_fpu_state s).
Definition set_t_fs_base (x : Z) (s : thread) : thread :=
  mkThread (t_id s) (t_core_affinity s) (t_state s) (t_flags s) (t_last_run_time s)
  (t_total_run_time_ns s) (t_has_update_run_time s) (t_current_core_id s) (t_process s)
  x (t_gs_base s) (t_kernel_rsp s) (t_kernel_stack_top s) (t_in_kernel_sleep s)
  (t_wake_pending s) (t_signal s) (t_reg s) (t_wakeup_time s) (t_fpu_state s).
Definition set_t_gs_base (x : Z) (s : thread) : thread :=
  mkThread (t_id s) (t_core_affinity s) (t_state s) (t_flags s) (t_last_run_time s)
  (t_total_run_time_ns s) (t_has_update_run_time s) (t_current_core_id s) (t_process s)
  (t_fs_base s) x (t_kernel_rsp s) (t_kernel_stack_top s) (t_in_kernel_sleep s)
  (t_wake_pending s) (t_signal s) (t_reg s) (t_wakeup_time s) (t_fpu_state s).
Definition set_t_kernel_rsp (x : Z) (s : thread) : thread :=
  mkThread (t_id s) (t_core_affinity s) (t_state s) (t_flags s) (t_last_run_time s)
  (t_total_run_time_ns s) (t_has_update_run_time s) (t_current_core_id s) (t_process s)
  (t_fs_base s) (t_gs_base s) x (t_kernel_stack_top s) (t_in_kernel_sleep s)
  (t_wake_pending s) (t_signal s) (t_reg s) (t_wakeup_time s) (t_fpu_state s).
Definition set_t_in_kernel_sleep (x : bool) (s : thread) : thread :=
  mkThread (t_id s) (t_core_affinity s) (t_state s) (t_flags s) (t_last_run_time s)
  (t_total_run_time_ns s) (t_has_update_run_time s) (t_current_core_id s) (t_process s)
  (t_fs_base s) (t_gs_base s) (t_kernel_rsp s) (t_kernel_stack_top s) x
  (t_wake_pending s) (t_signal s) (t_reg s) (t_wakeup_time s) (t_fpu_state s).
Definition set_t_wake_pending (x : bool) (s : thread) : thread :=
  mkThread (t_id s) (t_core_affinity s) (t_state s) (t_flags s) (t_last_run_time s)
  (t_total_run_time_ns s) (t_has_update_run_time s) (t_current_core_id s) (t_process s)
  (t_fs_base s) (t_gs_base s) (t_kernel_rsp s) (t_kernel_stack_top s)
  (t_in_kernel_sleep s) x (t_signal s) (t_reg s) (t_wakeup_time s) (t_fpu_state s).
Definition set_t_reg (x : cpu_register) (s : thread) : thread :=
  mkThread (t_id s) (t_core_affinity s) (t_state s) (t_flags s) (t_last_run_time s)
  (t_total_run_time_ns s) (t_has_update_run_time s) (t_current_core_id s) (t_process s)
  (t_fs_base s) (t_gs_base s) (t_kernel_rsp s) (t_kernel_stack_top s)
  (t_in_kernel_sleep s) (t_wake_pending s) (t_signal s) x (t_wakeup_time s)
  (t_fpu_state s).
Definition set_t_wakeup_time (x : Z) (s : thread) : thread :=
  mkThread (t_id s) (t_core_affinity s) (t_state s) (t_flags s) (t_last_run_time s)
  (t_total_run_time_ns s) (t_has_update_run_time s) (t_current_core_id s) (t_process s)
  (t_fs_base s) (t_gs_base s) (t_kernel_rsp s) (t_kernel_stack_top s)
  (t_in_kernel_sleep s) (t_wake_pending s) (t_signal s) (t_reg s) x (t_fpu_state s).
Definition set_n_prev (x : Z) (s : node) : node :=
  mkNode (n_thread s) x (n_next s).
Definition set_n_next (x : Z) (s : node) : node :=
  mkNode (n_thread s) (n_prev s) x.
Definition set_sc_current (x : Z) (s : sched_core) : sched_core :=
  mkSched x (sc_last s) (sc_head s) (sc_lock s) (sc_stack s) (sc_rsp s)
  (sc_is_running s) (sc_timer_vector s) (sc_tick_interval_us s) (sc_heartbeat s).
Definition set_sc_last (x : Z) (s : sched_core) : sched_core :=
  mkSched (sc_current s) x (sc_head s) (sc_lock s) (sc_stack s) (sc_rsp s)
  (sc_is_running s) (sc_timer_vector s) (sc_tick_interval_us s) (sc_heartbeat s).
Definition set_sc_head (x : Z) (s : sched_core) : sched_core :=
  mkSched (sc_current s) (sc_last s) x (sc_lock s) (sc_stack s) (sc_rsp s)
  (sc_is_running s) (sc_timer_vector s) (sc_tick_interval_us s) (sc_heartbeat s).
Definition set_sc_lock (x : spinlock) (s : sched_core) : sched_core :=
  mkSched (sc_current s) (sc_last s) (sc_head s) x (sc_stack s) (sc_rsp s)
  (sc_is_running s) (sc_timer_vector s) (sc_tick_interval_us s) (sc_heartbeat s).
Definition set_sc_stack (x : Z) (s : sched_core) : sched_core :=
  mkSched (sc_current s) (sc_last s) (sc_head s) (sc_lock s) x (sc_rsp s)
  (sc_is_running s) (sc_timer_vector s) (sc_tick_interval_us s) (sc_heartbeat s).
Definition set_sc_rsp (x : Z) (s : sched_core) : sched_core :=
  mkSched (sc_current s) (sc_last s) (sc_head s) (sc_lock s) (sc_stack s) x
  (sc_is_running s) (sc_timer_vector s) (sc_tick_interval_us s) (sc_heartbeat s).
Definition set_sc_is_running (x : bool) (s : sched_core) : sched_core :=
  mkSched (sc_current s) (sc_last s) (sc_head s) (sc_lock s) (sc_stack s) (sc_rsp s) x
  (sc_timer_vector s) (sc_tick_interval_us s) (sc_heartbeat s).
Definition set_sc_timer_vector (x : Z) (s : sched_core) : sched_core :=
  mkSched (sc_current s) (sc_last s) (sc_head s) (sc_lock s) (sc_stack s) (sc_rsp s)
  (sc_is_running s) x (sc_tick_interval_us s) (sc_heartbeat s).
Definition set_sc_tick_interval_us (x : Z) (s : sched_core) : sched_core :=
  mkSched (sc_current s) (sc_last s) (sc_head s) (sc_lock s) (sc_stack s) (sc_rsp s)
  (sc_is_running s) (sc_timer_vector s) x (sc_heartbeat s).
Definition set_sc_heartbeat (x : Z) (s : sched_core) : sched_core :=
  mkSched (sc_current s) (sc_last s) (sc_head s) (sc_lock s) (sc_stack s) (sc_rsp s)
  (sc_is_running s) (sc_timer_vector s) (sc_tick_interval_us s) x.
Definition set_co_kernel_rsp (x : Z) (s : core) : core :=
  mkCore x (co_next_is_user s) (co_active_thread s) (co_fs s) (co_kgs s) (co_tss s)
  (co_cr3 s) (co_fpu s) (co_timer s) (co_eoi s).
Definition set_co_next_is_user (x : Z) (s : core) : core :=
  mkCore (co_kernel_rsp s) x (co_active_thread s) (co_fs s) (co_kgs s) (co_tss s)
  (co_cr3 s) (co_fpu s) (co_timer s) (co_eoi s).
Definition set_co_active_thread (x : Z) (s : core) : core :=
  mkCore (co_kernel_rsp s) (co_next_is_user s) x (co_fs s) (co_kgs s) (co_tss s)
  (co_cr3 s) (co_fpu s) (co_timer s) (co_eoi s).
Definition set_co_fs (x : Z) (s : core) : core :=
  mkCore (co_kernel_rsp s) (co_next_is_user s) (co_active_thread s) x (co_kgs s)
  (co_tss s) (co_cr3 s) (co_fpu s) (co_timer s) (co_eoi s).
Definition set_co_kgs (x : Z) (s : core) : core :=
  mkCore (co_kernel_rsp s) (co_next_is_user s) (co_active_thread s) (co_fs s) x
  (co_tss s) (co_cr3 s) (co_fpu s) (co_timer s) (co_eoi s).
Definition set_co_tss (x : Z) (s : core) : core :=
  mkCore (co_kernel_rsp s) (co_next_is_user s) (co_active_thread s) (co_fs s)
  (co_kgs s) x (co_cr3 s) (co_fpu s) (co_timer s) (co_eoi s).
Definition set_co_cr3 (x : Z) (s : core) : core :=
  mkCore (co_kernel_rsp s) (co_next_is_user s) (co_active_thread s) (co_fs s)
  (co_kgs s) (co_tss s) x (co_fpu s) (co_timer s) (co_eoi s).
Definition set_co_fpu (x : Z) (s : core) : core :=
  mkCore (co_kernel_rsp s) (co_next_is_user s) (co_active_thread s) (co_fs s)
  (co_kgs s) (co_tss s) (co_cr3 s) x (co_timer s) (co_eoi s).
Definition set_co_timer (x : option (Z * Z * Z)) (s : core) : core :=
  mkCore (co_kernel_rsp s) (co_next_is_user s) (co_active_thread s) (co_fs s)
  (co_kgs s) (co_tss s) (co_cr3 s) (co_fpu s) x (co_eoi s).
Definition set_co_eoi (x : Z) (s : core) : core :=
  mkCore (co_kernel_rsp s) (co_next_is_user s) (co_active_thread s) (co_fs s)
  (co_kgs s) (co_tss s) (co_cr3 s) (co_fpu s) (co_timer s) x.
Definition set_k_threads (x : gmap Z thread) (s : ks) : ks :=
  mkKs x (k_nodes s) (k_sched s) (k_cores s) (k_procs s) (k_sigs s) (k_fpus s)
  (k_frame s) (k_reads s) (k_called s) (k_hint s).
Definition set_k_nodes (x : gmap Z node) (s : ks) : ks :=
  mkKs (k_threads s) x (k_sched s) (k_cores s) (k_procs s) (k_sigs s) (k_fpus s)
  (k_frame s) (k_reads s) (k_called s) (k_hint s).
Definition set_k_sched (x : list sched_core) (s : ks) : ks :=
  mkKs (k_threads s) (k_nodes s) x (k_cores s) (k_procs s) (k_sigs s) (k_fpus s)
  (k_frame s) (k_reads s) (k_called s) (k_hint s).
Definition set_k_cores (x : list core) (s : ks) : ks :=
  mkKs (k_threads s) (k_nodes s) (k_sched s) x (k_procs s) (k_sigs s) (k_fpus s)
  (k_frame s) (k_reads s) (k_called s) (k_hint s).
Definition set_k_sigs (x : gmap Z sig_han) (s : ks) : ks :=
  mkKs (k_threads s) (k_nodes s) (k_sched s) (k_cores s) (k_procs s) x (k_fpus s)
  (k_frame s) (k_reads s) (k_called s) (k_hint s).
Definition set_k_fpus (x : gmap Z Z) (s : ks) : ks :=
  mkKs (k_threads s) (k_nodes s) (k_sched s) (k_cores s) (k_procs s) (k_sigs s) x
  (k_frame s) (k_reads s) (k_called s) (k_hint s).
Definition set_k_frame (x : interrupt_stack_frame) (s : ks) : ks :=
  mkKs (k_threads s) (k_nodes s) (k_sched s) (k_cores s) (k_procs s) (k_sigs s)
  (k_fpus s) x (k_reads s) (k_called s) (k_hint s).
Definition set_k_reads (x : nat) (s : ks) : ks :=
  mkKs (k_threads s) (k_nodes s) (k_sched s) (k_cores s) (k_procs s) (k_sigs s)
  (k_fpus s) (k_frame s) x (k_called s) (k_hint s).
Definition set_k_called (x : list (Z * Z)) (s : ks) : ks :=
  mkKs (k_threads s) (k_nodes s) (k_sched s) (k_cores s) (k_procs s) (k_sigs s)
  (k_fpus s) (k_frame s) (k_reads s) x (k_hint s).
Definition set_k_hint (x : Z) (s : ks) : ks :=
  mkKs (k_threads s) (k_nodes s) (k_sched s) (k_cores s) (k_procs s) (k_sigs s)
  (k_fpus s) (k_frame s) (k_reads s) (k_called s) x.

(** What the code takes from the platform: the build constant, the value of
    the [n]-th read of the HPET counter and its period, the kernel page map,
    the address of [core_data[i]], the APIC ids of the CPUs in list order and
    the number of active cores. *)
Class Platform := {
  VOXIA_MAX_SCHEDULER_TIME_MS : Z;
  hpet_count : nat → Z;
  vxHPETMinTickNs : Z;
  highest_page_map : Z;
  core_data_addr : Z → Z;
  cpu_apicids : list Z;
  active_core_count : Z }.

(** ** The monad *)

Definition M (A : Type) : Type := ks → res (A * ks).

#[global] Instance M_ret : MRet M := fun _ a s => Ok (a, s).
#[global] Instance M_bind : MBind M := fun _ _ f m s =>
  match m s with Ok (a, s') => f a s' | Fault => Fault | NoFuel => NoFuel end.

Notation "m ;; k" := (@mbind M _ _ _ (fun _ => k) m) (at level 100, right associativity).

Definition when (b : bool) (m : M ()) : M () := if b then m else mret ().
Definition fault {A} : M A := fun _ => Fault.
Definition get {A} (f : ks → A) : M A := fun s => Ok (f s, s).
Definition lift {A} (r : res A) : M A := fun s =>
  match r with Ok a => Ok (a, s) | Fault => Fault | NoFuel => NoFuel end.
Definition modify (f : ks → ks) : M () := fun s => Ok ((), f s).

(** [p->field] of a thread, a node, a signal handle; [scheduler[c]] and
    [core_data[c]]. *)
Definition thread_at (t : Z) : M thread := fun s =>
  match k_threads s !! t with Some x => Ok (x, s) | None => Fault end.
Definition set_thread (t : Z) (f : thread → thread) : M () := fun s =>
  match k_threads s !! t with
  | Some x => Ok ((), set_k_threads (<[t := f x]> (k_threads s)) s)
  | None => Fault
  end.
Definition node_at (q : Z) : M node := fun s =>
  match k_nodes s !! q with Some x => Ok (x, s) | None => Fault end.
Definition set_node (q : Z) (f : node → node) : M () := fun s =>
  match k_nodes s !! q with
  | Some x => Ok ((), set_k_nodes (<[q := f x]> (k_nodes s)) s)
  | None => Fault
  end.
Definition sched_at (c : Z) : M sched_core := fun s => x ← aget (k_sched s) c; Ok (x, s).
Definition set_sched (c : Z) (f : sched_core → sched_core) : M () := fun s =>
  x ← aget (k_sched s) c; l ← aset (k_sched s) c (f x); Ok ((), set_k_sched l s).
Definition core_at (c : Z) : M core := fun s => x ← aget (k_cores s) c; Ok (x, s).
Definition set_core (c : Z) (f : core → core) : M () := fun s =>
  x ← aget (k_cores s) c; l ← aset (k_cores s) c (f x); Ok ((), set_k_cores l s).
Definition sig_at (h : Z) : M sig_han := fun s =>
  match k_sigs s !! h with Some x => Ok (x, s) | None => Fault end.
Definition set_sig (h : Z) (x : sig_han) : M () := modify (fun s => set_k_sigs (<[h := x]> (k_sigs s)) s).

Section platform.
Context `{Platform}.

(** [vxHPETGetMainCount()]. *)
Definition vxHPETGetMainCount : M Z := fun s =>
  Ok (hpet_count (k_reads s), set_k_reads (Datatypes.S (k_reads s)) s).

(** [spin_acquire] and [spin_release] of [scheduler[c].lock]. *)
Definition acquire (c : Z) : M () :=
  sc ← sched_at c; l ← lift (spin_acquire (sc_lock sc)); set_sched c (set_sc_lock l).
Definition release (c : Z) : M () :=
  sc ← sched_at c; set_sched c (set_sc_lock (spin_release (sc_lock sc))).

(** [paging_reload], the MSR accesses, [set_tss_stack], [apic_eoi] and
    [vxAPICCreateTimer] on core [c]. *)
Definition paging_reload (c page : Z) : M () := set_core c (set_co_cr3 page).
Definition msrSetFSBase (c x : Z) : M () := set_core c (set_co_fs x).
Definition msrSetKernelGSBase (c x : Z) : M () := set_core c (set_co_kgs x).
Definition set_tss_stack (c top : Z) : M () := set_core c (set_co_tss top).
Definition apic_eoi (c : Z) : M () := x ← core_at c; set_core c (set_co_eoi (co_eoi x + 1)).
Definition vxAPICCreateTimer (c mode us vector : Z) : M () :=
  set_core c (set_co_timer (Some (mode, us, vector))).
End platform.
