(* ===== verification/Sched.v ===== *)
(** * Scheduler operations

    The handlers of [kernel/procc/scheduler.c].  A handler of core [c] runs
    with interrupts off and under [scheduler[c].lock], so it is one function
    of the state; the lock is kept in the state and acquiring it while it is
    held does not return.  [vxSchedulerTick] is split at the steps of the
    source function. *)

From S2P Require Import Prelude Spinlock Cpu Signal SchedState.

Section sched.
Context `{Platform}.

(** [t->state == READY || t->state == RUNNING]. *)
Definition runnable_state (st : Z) : bool :=
  (st =? THREAD_STATE_READY) || (st =? THREAD_STATE_RUNNING).

(** [t && (t->state == RUNNING || t->state == READY)] of a queue node. *)
Definition node_runnable (q : Z) : M bool :=
  n ← node_at q;
  if n_thread n =? 0 then mret false
  else t ← thread_at (n_thread n); mret (runnable_state (t_state t)).

(** ** The run queue *)

Definition vxSchedulerGetCurrentQueue (c : Z) : M Z := sc ← sched_at c; mret (sc_current sc).

(** [vxDeatachFromScheduler(current, already_locked)] on core [me]. *)
Definition vxDeatachFromScheduler (me q : Z) (already_locked : bool) : M () :=
  n ← node_at q;
  t ← thread_at (n_thread n);
  max ← get (λ s, zlen (k_sched s));
  let c := if max <=? t_core_affinity t then me else t_core_affinity t in
  when (negb already_locked) (acquire c) ;;
  n ← node_at q;
  (if (n_next n =? q) || (n_next n =? 0) then
     set_sched c (λ sc, set_sc_current 0 (set_sc_last 0 (set_sc_head 0 sc)))
   else
     when (negb (n_prev n =? 0)) (set_node (n_prev n) (set_n_next (n_next n))) ;;
     n ← node_at q;
     when (negb (n_next n =? 0)) (set_node (n_next n) (set_n_prev (n_prev n))) ;;
     n ← node_at q;
     sc ← sched_at c;
     when (sc_head sc =? q) (set_sched c (set_sc_head (n_next n))) ;;
     when (sc_last sc =? q) (set_sched c (set_sc_last (n_prev n))) ;;
     when (sc_current sc =? q) (set_sched c (set_sc_current (n_next n)))) ;;
  set_node q (set_n_next 0) ;;
  set_node q (set_n_prev 0) ;;
  when (negb already_locked) (release c).

(** [vxAllocScheduler(core, thr)]; [queue] is the result of [vxSlabAlloc]. *)
Definition vxAllocScheduler (c thr queue : Z) : M Z :=
  acquire c ;;
  if queue =? 0 then release c ;; mret 0
  else
    modify (λ s, set_k_nodes (<[queue := mkNode 0 0 0]> (k_nodes s)) s) ;;
    set_node queue (λ n, mkNode thr (n_prev n) (n_next n)) ;;
    sc ← sched_at c;
    (if sc_head sc =? 0 then
       set_node queue (set_n_next queue) ;;
       set_node queue (set_n_prev queue) ;;
       set_sched c (set_sc_head queue) ;;
       set_sched c (set_sc_last queue)
     else
       let head := sc_head sc in
       let last := sc_last sc in
       set_node last (set_n_next queue) ;;
       set_node queue (set_n_prev last) ;;
       set_node queue (set_n_next head) ;;
       set_node head (set_n_prev queue) ;;
       set_sched c (set_sc_last queue)) ;;
    release c ;;
    mret queue.

(** The core [attach_to_scheduler] gives a thread without affinity: the APIC
    id of the next CPU in round-robin order, the first CPU excepted. *)
Definition choose_core (hint : Z) : res Z :=
  let apicid i := default 0 (cpu_apicids !! Z.to_nat (u8 i)) in
  if 1 <? active_core_count then Ok (apicid (hint mod (active_core_count - 1) + 1))
  else Ok (apicid 0).

(** [attach_to_scheduler(new_thread)]; [queue] is what the slab returns.  The
    loop that logs the queue afterwards changes nothing. *)
Definition attach_to_scheduler (t queue : Z) : M () :=
  if t =? 0 then mret ()
  else
    x ← thread_at t;
    core ← (if negb (t_core_affinity x =? 0xFFFF) then mret (t_core_affinity x)
            else
              hint ← get k_hint;
              when (1 <? active_core_count) (modify (set_k_hint (u16 (hint + 1)))) ;;
              lift (choose_core hint));
    set_thread t (set_t_core_affinity core) ;;
    set_thread t (set_t_state THREAD_STATE_READY) ;;
    vxAllocScheduler core t queue ;;
    mret ().

(** ** The context switch *)

(** [elapsed_ns] of a thread at [now]. *)
Definition elapsed (now : Z) (t : thread) : Z := u64 (u64 (now - t_last_run_time t) * vxHPETMinTickNs).

(** [scheduler_resume_switch(next_thread, current_core)]. *)
Definition scheduler_resume_switch (c next : Z) : M () :=
  co ← core_at c;
  let prev := co_active_thread co in
  current_tick ← vxHPETGetMainCount;
  (if negb (prev =? 0) && negb (prev =? next) then
     p ← thread_at prev;
     when (t_has_update_run_time p)
       (set_thread prev (λ p, set_t_has_update_run_time false
          (set_t_total_run_time_ns (u64 (t_total_run_time_ns p + elapsed current_tick p)) p)))
   else mret ()) ;;
  n ← thread_at next;
  when (negb (t_has_update_run_time n) || negb (next =? prev))
    (set_thread next (λ n, set_t_has_update_run_time true (set_t_last_run_time current_tick n))) ;;
  (if negb (prev =? 0) && negb (prev =? next) then
     p ← thread_at prev;
     when (negb (t_fpu_state p =? 0))
       (co ← core_at c; modify (λ s, set_k_fpus (<[t_fpu_state p := co_fpu co]> (k_fpus s)) s))
   else mret ()) ;;
  n ← thread_at next;
  set_tss_stack (t_current_core_id n) (t_kernel_stack_top n) ;;
  set_core c (set_co_kernel_rsp (t_kernel_stack_top n)) ;;
  set_core c (set_co_active_thread next) ;;
  set_core c (set_co_next_is_user (if Z.land (t_flags n) THREAD_USER =? 0 then 0 else 1)) ;;
  when (negb (t_fpu_state n =? 0))
    (area ← get (λ s, k_fpus s !! t_fpu_state n);
     match area with Some x => set_core c (set_co_fpu x) | None => fault end) ;;
  msrSetFSBase c (t_fs_base n) ;;
  msrSetKernelGSBase c (t_gs_base n) ;;
  if t_process n =? 0 then paging_reload c highest_page_map
  else
    page ← get (λ s, k_procs s !! t_process n);
    match page with
    | Some page => when (negb (page =? 0)) (paging_reload c page)
    | None => fault
    end.

(** [if (next_proc && next_proc->page && next_is_user) reload its page map,
    else if (!next_is_user) reload the kernel's]. *)
Definition reload_for (c next : Z) : M () :=
  n ← thread_at next;
  co ← core_at c;
  page ← (if t_process n =? 0 then mret 0
          else
            p ← get (λ s, k_procs s !! t_process n);
            match p with Some page => mret page | None => fault end);
  if negb (page =? 0) && negb (co_next_is_user co =? 0) then paging_reload c page
  else when (co_next_is_user co =? 0) (paging_reload c highest_page_map).

(** The frame that enters [kernel_context_restore(kernel_rsp)]. *)
Definition restore_frame (restore_fn krsp : Z) (f : interrupt_stack_frame) : interrupt_stack_frame :=
  set_f_rsp (set_f_rdi (set_f_rflags (set_f_ss (set_f_cs (set_f_rip f restore_fn) 0x28) 0x30)
    0x202) krsp) krsp.

(** The frame that enters [sch_idle_loop] on the scheduler stack. *)
Definition idle_frame (idle_fn stack : Z) (f : interrupt_stack_frame) : interrupt_stack_frame :=
  set_f_rsp (set_f_rflags (set_f_ss (set_f_cs (set_f_rip f idle_fn) 0x28) 0x30) 0x202)
    (u64 (stack + SCHEDULER_STACK_SIZE - 16)).

(** ** The timer tick *)

(** Addresses of the two routines a frame may be pointed at. *)
Context (sch_idle_loop kernel_context_restore : Z).

(** Save the blocked active thread and enter the idle loop. *)
Definition enter_idle (c active : Z) : M () :=
  f ← get k_frame;
  set_thread active (λ t, set_t_reg (vxSaveRegister f (t_reg t)) t) ;;
  sc ← sched_at c;
  modify (set_k_frame (idle_frame sch_idle_loop (sc_stack sc) f)) ;;
  set_core c (set_co_active_thread 0) ;;
  set_core c (set_co_next_is_user 0).

(** The label [hibernate_cpu]. *)
Definition hibernate_cpu (c : Z) : M () :=
  co ← core_at c;
  if co_active_thread co =? 0 then mret ()
  else
    t ← thread_at (co_active_thread co);
    when (t_state t =? THREAD_STATE_BLOCKED) (enter_idle c (co_active_thread co)).

(** Count the tick and arm the next one. *)
Definition tick_arm (c : Z) : M () :=
  sc ← sched_at c;
  set_sched c (set_sc_heartbeat (u64 (sc_heartbeat sc + 1))) ;;
  when (0 <? sc_tick_interval_us sc)
    (vxAPICCreateTimer c APIC_TIMER_ONE_SHOT (sc_tick_interval_us sc) (sc_timer_vector sc)).

(** Take the lock and find the current node; [None]: hibernate. *)
Definition tick_enter (c : Z) : M (option Z) :=
  acquire c ;;
  sc ← sched_at c;
  if sc_head sc =? 0 then release c ;; mret None
  else
    when (sc_current sc =? 0) (set_sched c (set_sc_current (sc_head sc))) ;;
    sc ← sched_at c;
    let current_node := sc_current sc in
    if current_node =? 0 then release c ;; mret None
    else
      n ← node_at current_node;
      if n_thread n =? 0 then release c ;; mret None else mret (Some current_node).

(** Charge a running thread; true when its time slice is over. *)
Definition charge_running (c active now : Z) (from_scheduler needs : bool) : M bool :=
  when (negb from_scheduler)
    (f ← get k_frame;
     set_thread active (λ t, set_t_reg (vxSaveRegister f (t_reg t)) t) ;;
     co ← core_at c;
     set_thread active (set_t_fs_base (co_fs co)) ;;
     set_thread active (set_t_gs_base (co_kgs co))) ;;
  t ← thread_at active;
  let e := elapsed now t in
  if (VOXIA_MAX_SCHEDULER_TIME_MS <? e / 1000000) || needs then
    set_thread active (λ t, set_t_state THREAD_STATE_READY (set_t_has_update_run_time false
      (set_t_total_run_time_ns (u64 (t_total_run_time_ns t + e)) t))) ;;
    mret true
  else mret needs.

(** Charge a blocked or terminated thread; a terminated one leaves the run
    queue when it is the current one. *)
Definition charge_stopped (c active now current_node : Z) : M () :=
  set_thread active (λ t, set_t_has_update_run_time false
    (set_t_total_run_time_ns (u64 (t_total_run_time_ns t + elapsed now t)) t)) ;;
  t ← thread_at active;
  when (t_state t =? THREAD_STATE_TERMINATED)
    (set_thread active (set_t_state THREAD_STATE_HAL) ;;
     n ← node_at current_node;
     when (active =? n_thread n) (vxDeatachFromScheduler c current_node true)).

(** [needs_context_switch] and [from_scheduler] of the tick at [now]; [None]:
    the queue is empty, hibernate. *)
Definition tick_account (c current_node now : Z) : M (option (bool * bool)) :=
  n ← node_at current_node;
  co ← core_at c;
  let thread := n_thread n in
  let active := co_active_thread co in
  sc ← sched_at c;
  f ← get k_frame;
  let from_scheduler := (sc_stack sc <=? f_rsp f) &&
                        (f_rsp f <? u64 (sc_stack sc + SCHEDULER_STACK_SIZE)) in
  needs ← (if from_scheduler && negb (active =? 0) then
             a ← thread_at active;
             mret (negb (t_in_kernel_sleep a) && runnable_state (t_state a))
           else mret false);
  (if negb (active =? 0) then
     a ← thread_at active;
     when (negb (t_has_update_run_time a))
       (set_thread active (λ a, set_t_has_update_run_time true (set_t_last_run_time now a)))
   else mret ()) ;;
  r ← (if active =? 0 then mret (Some needs)
       else
         a ← thread_at active;
         if t_state a =? THREAD_STATE_RUNNING then
           b ← charge_running c active now from_scheduler needs; mret (Some b)
         else if (t_state a =? THREAD_STATE_BLOCKED) || (t_state a =? THREAD_STATE_TERMINATED) then
           charge_stopped c active now current_node ;;
           sc ← sched_at c;
           if sc_head sc =? 0 then release c ;; mret None else mret (Some true)
         else mret (Some needs));
  match r with
  | None => mret None
  | Some needs =>
      if from_scheduler then mret (Some (needs, from_scheduler))
      else if active =? 0 then mret (Some (true, from_scheduler))
      else
        a ← thread_at active;
        mret (Some (needs || negb (t_state a =? THREAD_STATE_RUNNING) || negb (active =? thread),
                    from_scheduler))
  end.

(** Wake the thread of a node if it sleeps and its time has come. *)
Definition wake_node (n : node) (now : Z) : M () :=
  if n_thread n =? 0 then mret ()
  else
    t ← thread_at (n_thread n);
    when ((t_state t =? THREAD_STATE_BLOCKED) && negb (t_wakeup_time t =? 0) &&
          (t_wakeup_time t <=? now))
      (set_thread (n_thread n) (λ t, set_t_wake_pending true
         (set_t_wakeup_time 0 (set_t_state THREAD_STATE_READY t)))).

(** The sleepers whose time has come, over the nodes from [q] up to the
    head. *)
Fixpoint tick_wakeups (fuel : nat) (head q now : Z) : M () :=
  match fuel with
  | O => λ _, NoFuel
  | Datatypes.S fuel =>
      n ← node_at q;
      wake_node n now ;;
      let q := n_next n in
      if (q =? 0) || (q =? head) then mret () else tick_wakeups fuel head q now
  end.

(** [do { ... } while (search != start)]: the first runnable node from [q]
    on. *)
Fixpoint search_loop (fuel : nat) (c start q : Z) : M Z :=
  match fuel with
  | O => λ _, NoFuel
  | Datatypes.S fuel =>
      b ← node_runnable q;
      if (b : bool) then mret q
      else
        n ← node_at q;
        sc ← sched_at c;
        let q := if n_next n =? 0 then sc_head sc else n_next n in
        if q =? start then mret 0 else search_loop fuel c start q
  end.

(** The node to run next, 0 if no thread is ready. *)
Definition tick_search (fuel : nat) (c current_node : Z) (from_scheduler : bool) : M Z :=
  n ← node_at current_node;
  sc ← sched_at c;
  let search := if n_next n =? 0 then sc_head sc else n_next n in
  stay ← (if from_scheduler then node_runnable current_node else mret false);
  if (stay : bool) then mret current_node
  else if search =? 0 then mret 0
  else search_loop fuel c current_node search.

Inductive pick := PickDone | PickRun (next_node : Z).

(** The choice of the next node; [PickDone]: no thread is ready and the
    handler is done, with a blocked active thread parked in the idle loop. *)
Definition tick_pick (fuel : nat) (c current_node : Z) (needs from_scheduler : bool) : M pick :=
  if negb needs then mret (PickRun current_node)
  else
    found ← tick_search fuel c current_node from_scheduler;
    if found =? 0 then
      co ← core_at c;
      (if co_active_thread co =? 0 then mret ()
       else
         a ← thread_at (co_active_thread co);
         when (t_state a =? THREAD_STATE_BLOCKED) (enter_idle c (co_active_thread co))) ;;
      release c ;;
      mret PickDone
    else
      set_sched c (set_sc_current found) ;;
      mret (PickRun found).

(** How the handler leaves: through the interrupt frame, or straight into
    the kernel context of a thread that sleeps in the kernel. *)
Inductive tick_exit := Iret | ContextRestore (krsp : Z).

(** Make [next_node]'s thread the active one; [inr]: fall through to the
    signals of the thread. *)
Definition tick_run (c next_node old_active : Z) (needs from_scheduler : bool) : M (tick_exit + Z) :=
  nn ← node_at next_node;
  let next := n_thread nn in
  scheduler_resume_switch c next ;;
  set_core c (set_co_active_thread next) ;;
  set_thread next (set_t_current_core_id c) ;;
  n ← thread_at next;
  set_core c (set_co_next_is_user (if Z.land (t_flags n) THREAD_USER =? 0 then 0 else 1)) ;;
  if t_in_kernel_sleep n then
    set_tss_stack c (t_kernel_stack_top n) ;;
    set_core c (set_co_kernel_rsp (t_kernel_stack_top n)) ;;
    msrSetFSBase c (t_fs_base n) ;;
    msrSetKernelGSBase c (t_gs_base n) ;;
    release c ;;
    reload_for c next ;;
    apic_eoi c ;;
    mret (inl (ContextRestore (t_kernel_rsp n)))
  else if t_state n =? THREAD_STATE_READY then
    set_thread next (set_t_state THREAD_STATE_RUNNING) ;;
    set_tss_stack c (t_kernel_stack_top n) ;;
    set_core c (set_co_kernel_rsp (t_kernel_stack_top n)) ;;
    f ← get k_frame;
    modify (set_k_frame (if t_in_kernel_sleep n
                         then restore_frame kernel_context_restore (t_kernel_rsp n) f
                         else vxRestoreRegister f (t_reg n))) ;;
    when (Z.land (t_flags n) THREAD_USER =? 0) (set_thread next (set_t_gs_base (core_data_addr c))) ;;
    n ← thread_at next;
    msrSetFSBase c (t_fs_base n) ;;
    msrSetKernelGSBase c (t_gs_base n) ;;
    reload_for c next ;;
    release c ;;
    mret (inl Iret)
  else
    when ((t_state n =? THREAD_STATE_RUNNING) && needs && (negb (next =? old_active) || from_scheduler))
      (f ← get k_frame;
       modify (set_k_frame (if t_in_kernel_sleep n
                            then restore_frame kernel_context_restore (t_kernel_rsp n) f
                            else vxRestoreRegister f (t_reg n))) ;;
       msrSetFSBase c (t_fs_base n) ;;
       msrSetKernelGSBase c (t_gs_base n) ;;
       set_tss_stack c (t_kernel_stack_top n) ;;
       set_core c (set_co_kernel_rsp (t_kernel_stack_top n)) ;;
       reload_for c next) ;;
    (if needs || negb (t_has_update_run_time n) then
       now ← vxHPETGetMainCount;
       set_thread next (λ n, set_t_has_update_run_time true (set_t_last_run_time now n))
     else mret ()) ;;
    release c ;;
    mret (inr next).

(** [for (sig = 1; sig <= 64; sig++)] over the active signals of a thread. *)
Fixpoint signal_loop (n : nat) (t h sig active : Z) : M () :=
  match n with
  | O => mret ()
  | Datatypes.S n =>
      when (negb (Z.land active (SIGBIT sig) =? 0))
        (x ← sig_at h;
         set_sig h (set_pending x (Z.land (pending x) (not64 (SIGBIT sig)))) ;;
         hd ← lift (aget (handler x) (sig - 1));
         when (negb (hd =? 0)) (modify (λ s, set_k_called (k_called s ++ [(hd, sig)]) s))) ;;
      signal_loop n t h (sig + 1) active
  end.

Definition tick_signals (next : Z) : M () :=
  n ← thread_at next;
  if t_signal n =? 0 then mret ()
  else
    x ← sig_at (t_signal n);
    let active := Z.land (pending x) (not64 (mask x)) in
    when (negb (active =? 0)) (signal_loop 64 next (t_signal n) 1 active).

Definition vxSchedulerTick (fuel : nat) (c : Z) : M tick_exit :=
  tick_arm c ;;
  cur ← tick_enter c;
  match cur with
  | None => hibernate_cpu c ;; mret Iret
  | Some current_node =>
      co ← core_at c;
      now ← vxHPETGetMainCount;
      acc ← tick_account c current_node now;
      match acc with
      | None => hibernate_cpu c ;; mret Iret
      | Some (needs, from_scheduler) =>
          sc ← sched_at c;
          when (negb (sc_head sc =? 0)) (tick_wakeups fuel (sc_head sc) (sc_head sc) now) ;;
          p ← tick_pick fuel c current_node needs from_scheduler;
          match p with
          | PickDone => mret Iret
          | PickRun next_node =>
              r ← tick_run c next_node (co_active_thread co) needs from_scheduler;
              match r with
              | inl e => mret e
              | inr next => tick_signals next ;; hibernate_cpu c ;; mret Iret
              end
          end
      end
  end.

(** ** Blocking and waking *)

(** The part of [thread_block], [thread_sleep] and [schedule_yield] that
    leaves the thread: FS and GS are saved, the core has no active thread,
    and [kernel_context_save] stores the kernel stack pointer [krsp] and
    switches to the scheduler stack it returns. *)
Definition leave_thread (c t krsp : Z) : M Z :=
  co ← core_at c;
  set_thread t (set_t_fs_base (co_fs co)) ;;
  set_thread t (set_t_gs_base (co_kgs co)) ;;
  set_core c (set_co_active_thread 0) ;;
  x ← thread_at t;
  sc ← sched_at (t_current_core_id x);
  set_thread t (set_t_kernel_rsp krsp) ;;
  mret (sc_rsp sc).

(** [thread_block()] on core [c] up to the context switch; [None] when a
    pending wake makes it return at once. *)
Definition thread_block (c krsp : Z) : M (option Z) :=
  co ← core_at c;
  let t := co_active_thread co in
  set_thread t (set_t_in_kernel_sleep true) ;;
  set_thread t (set_t_state THREAD_STATE_BLOCKED) ;;
  x ← thread_at t;
  if t_wake_pending x then
    set_thread t (set_t_wake_pending false) ;;
    set_thread t (set_t_in_kernel_sleep false) ;;
    set_thread t (set_t_state THREAD_STATE_RUNNING) ;;
    mret None
  else
    set_thread t (set_t_in_kernel_sleep true) ;;
    rsp ← leave_thread c t krsp;
    mret (Some rsp).

(** The rest of [thread_block], after the switch back to thread [t]. *)
Definition thread_block_resumed (t : Z) : M () :=
  set_thread t (set_t_in_kernel_sleep false) ;;
  set_thread t (set_t_wake_pending false) ;;
  set_thread t (set_t_state THREAD_STATE_RUNNING).

(** [thread_sleep(ms)]. *)
Definition thread_sleep (c ms krsp : Z) : M (option Z) :=
  co ← core_at c;
  let t := co_active_thread co in
  if t =? 0 then mret None
  else
    current_tick ← vxHPETGetMainCount;
    ticks_to_wait ← (if vxHPETMinTickNs =? 0 then fault
                     else mret (u64 (ms * 1000000) / vxHPETMinTickNs));
    set_thread t (set_t_wakeup_time (u64 (current_tick + ticks_to_wait))) ;;
    set_thread t (set_t_in_kernel_sleep true) ;;
    x ← thread_at t;
    if t_wake_pending x then
      set_thread t (set_t_wake_pending false) ;;
      set_thread t (set_t_in_kernel_sleep false) ;;
      set_thread t (set_t_wakeup_time 0) ;;
      mret None
    else
      set_thread t (set_t_state THREAD_STATE_BLOCKED) ;;
      rsp ← leave_thread c t krsp;
      mret (Some rsp).

Definition thread_sleep_resumed (t : Z) : M () :=
  set_thread t (set_t_in_kernel_sleep false) ;;
  set_thread t (set_t_wake_pending false) ;;
  set_thread t (set_t_wakeup_time 0) ;;
  set_thread t (set_t_state THREAD_STATE_RUNNING).

(** [schedule_yield()]. *)
Definition schedule_yield (c krsp : Z) : M (option Z) :=
  co ← core_at c;
  let t := co_active_thread co in
  if t =? 0 then mret None
  else
    set_thread t (set_t_in_kernel_sleep true) ;;
    x ← thread_at t;
    when (negb (t_state x =? THREAD_STATE_TERMINATED)) (set_thread t (set_t_state THREAD_STATE_READY)) ;;
    rsp ← leave_thread c t krsp;
    mret (Some rsp).

Definition schedule_yield_resumed (t : Z) : M () :=
  x ← thread_at t;
  when (negb (t_state x =? THREAD_STATE_TERMINATED) && negb (t_state x =? THREAD_STATE_HAL))
    (set_thread t (set_t_in_kernel_sleep false) ;;
     set_thread t (set_t_state THREAD_STATE_RUNNING)).

(** [vxThreadWake(thread)]. *)
Definition vxThreadWake (t : Z) : M () :=
  if t =? 0 then mret ()
  else
    set_thread t (set_t_wake_pending true) ;;
    x ← thread_at t;
    when (t_state x =? THREAD_STATE_BLOCKED) (set_thread t (set_t_state THREAD_STATE_RUNNING)).

(** One turn of [scheduler_resume_point]: nothing ready ([ResumePause]), the
    kernel context of a sleeping thread, or a halt until the tick takes the
    thread over. *)
Inductive resume := ResumePause | ResumeRestore (krsp : Z) | ResumeHalt.

Definition scheduler_resume_point (fuel : nat) (c : Z) : M resume :=
  acquire c ;;
  sc ← sched_at c;
  let start := if sc_current sc =? 0 then sc_head sc else sc_current sc in
  node ← (if start =? 0 then mret 0 else n ← node_at start; mret (n_next n));
  let node := if node =? 0 then sc_head sc else node in
  found ← (if node =? 0 then mret 0 else search_loop fuel c node node);
  when (negb (found =? 0)) (set_sched c (set_sc_current found)) ;;
  release c ;;
  if found =? 0 then mret ResumePause
  else
    n ← node_at found;
    scheduler_resume_switch c (n_thread n) ;;
    t ← thread_at (n_thread n);
    if t_in_kernel_sleep t then mret (ResumeRestore (t_kernel_rsp t)) else mret ResumeHalt.

(** [sch_restore_to_next_thread(rsp, core_id)]: false when the queue became
    empty and the core loops for ever. *)
Definition sch_restore_to_next_thread (c : Z) : M bool :=
  acquire c ;;
  sc ← sched_at c;
  let current_node := sc_current sc in
  cn ← (if current_node =? 0 then mret 0 else n ← node_at current_node; mret (n_thread n));
  if (current_node =? 0) || (cn =? 0) then release c ;; mret true
  else
    set_thread cn (set_t_state THREAD_STATE_HAL) ;;
    vxDeatachFromScheduler c current_node true ;;
    sc ← sched_at c;
    if sc_head sc =? 0 then release c ;; mret false
    else
      let next_node := if sc_current sc =? 0 then sc_head sc else sc_current sc in
      nn ← node_at next_node;
      let next := n_thread nn in
      n ← thread_at next;
      when (t_state n =? THREAD_STATE_READY)
        (set_thread next (set_t_state THREAD_STATE_RUNNING) ;;
         when (Z.land (t_flags n) THREAD_USER =? 0)
           (set_thread next (set_t_gs_base (core_data_addr c)))) ;;
      n ← thread_at next;
      f ← get k_frame;
      modify (set_k_frame (if t_in_kernel_sleep n
                           then restore_frame kernel_context_restore (t_kernel_rsp n) f
                           else vxRestoreRegister f (t_reg n))) ;;
      msrSetFSBase c (t_fs_base n) ;;
      msrSetKernelGSBase c (t_gs_base n) ;;
      set_tss_stack c (t_kernel_stack_top n) ;;
      set_core c (set_co_kernel_rsp (t_kernel_stack_top n)) ;;
      set_thread next (set_t_current_core_id c) ;;
      set_core c (set_co_active_thread next) ;;
      set_core c (set_co_next_is_user (if Z.land (t_flags n) THREAD_USER =? 0 then 0 else 1)) ;;
      set_sched c (set_sc_current next_node) ;;
      release c ;;
      (if t_process n =? 0 then paging_reload c highest_page_map
       else
         page ← get (λ s, k_procs s !! t_process n);
         match page with
         | Some page => when (negb (page =? 0)) (paging_reload c page)
         | None => fault
         end) ;;
      mret true.

Definition vxIsSchedulerRunning (c : Z) : M bool :=
  sc ← sched_at c;
  co ← core_at c;
  mret (sc_is_running sc && negb (co_active_thread co =? 0)).

(** [vxStartScheduler()] on core [c]; [stack] is the result of [kalloc],
    [irq_num] the vector [irq_alloc_entry] gives. *)
Definition vxStartScheduler (c stack irq_num : Z) : M () :=
  if stack =? 0 then mret ()
  else
    set_sched c (set_sc_stack stack) ;;
    let sched_top := u64 (stack + SCHEDULER_STACK_SIZE) in
    set_sched c (set_sc_rsp (u64 (Z.land sched_top (not64 0xF) - 16))) ;;
    set_sched c (set_sc_is_running true) ;;
    set_sched c (set_sc_timer_vector irq_num) ;;
    set_sched c (set_sc_tick_interval_us 10000) ;;
    vxAPICCreateTimer c APIC_TIMER_PERIOD 10000 irq_num.

End sched.
