(* ===== verification/SchedQueue.v ===== *)
(** * The run queue

    Circular doubly linked lists: what [linked] says of the node store, and
    that appending a node, removing one and searching the next runnable one
    are the list operations. *)

From S2P Require Import Prelude Spinlock Cpu Signal SchedState Sched.

Definition hd0 (l : list Z) : Z := default 0 (head l).
Definition last0 (l : list Z) : Z := default 0 (last l).

(** The nodes of [ns] form a ring in this order. *)
Definition linked (nodes : gmap Z node) (ns : list Z) : Prop :=
  ∀ a x b, ns = a ++ x :: b →
    ∃ n, nodes !! x = Some n ∧ n_next n = hd0 (b ++ a ++ [x]) ∧ n_prev n = last0 (x :: b ++ a).

(** ** Lists and maps *)

Lemma lookup_alter_fmap {A} (f : A → A) (m : gmap Z A) i j :
  alter f i m !! j = (if decide (i = j) then f else id) <$> m !! j.
Proof. rewrite lookup_alter. case_decide as E; [by rewrite E|]. by destruct (m !! j). Qed.

Lemma hd0_app l k : hd0 (l ++ k) = if decide (l = []) then hd0 k else hd0 l.
Proof. by destruct l. Qed.

Lemma last0_app l k : last0 (l ++ k) = if decide (k = []) then last0 l else last0 k.
Proof.
  unfold last0. rewrite last_app. destruct k as [|x k] using rev_ind; [done|].
  by rewrite last_snoc, decide_False by (by destruct k).
Qed.

Lemma last0_cons x l : last0 (x :: l) = if decide (l = []) then x else last0 l.
Proof. change (x :: l) with ([x] ++ l). by rewrite last0_app. Qed.

Lemma hd0_in l : l ≠ [] → hd0 l ∈ l.
Proof. destruct l; [done|]. intros _. by left. Qed.

Lemma last0_in l : l ≠ [] → last0 l ∈ l.
Proof.
  destruct l as [|x l] using rev_ind; [done|]. intros _. unfold last0. rewrite last_snoc. set_solver.
Qed.

Lemma snoc_not_nil {A} (l : list A) x : l ++ [x] ≠ [].
Proof. by destruct l. Qed.

Lemma last0_split a x b : NoDup (a ++ x :: b) → last0 (a ++ x :: b) = x ↔ b = [].
Proof.
  intros (_ & _ & [Hx _]%NoDup_cons)%NoDup_app.
  rewrite last0_app, last0_cons. rewrite decide_False by done.
  destruct (decide (b = [])) as [->|Hb]; [done|]. split; [|done].
  intros E. destruct Hx. rewrite <- E. by apply last0_in.
Qed.

Lemma hd0_split a x b : NoDup (a ++ x :: b) → hd0 (a ++ x :: b) = x ↔ a = [].
Proof.
  intros (_ & Hab & _)%NoDup_app. rewrite hd0_app.
  destruct (decide (a = [])) as [->|Ha]; [done|]. split; [|done].
  intros E. destruct (Hab x); [|by left]. rewrite <- E. by apply hd0_in.
Qed.

(** ** Rotation *)

Lemma linked_rotate nodes a b : linked nodes (a ++ b) → linked nodes (b ++ a).
Proof.
  intros Hl c x d Hs.
  assert ((∃ d', b = c ++ x :: d' ∧ d = d' ++ a) ∨ ∃ c', c = b ++ c' ∧ a = c' ++ x :: d)
    as [(d' & -> & ->)|(c' & -> & ->)].
  { apply app_eq_app in Hs as (k & [[-> Hk]|[-> Hk]]).
    - destruct k as [|y k]; simplify_eq/=.
      + right. exists []. by rewrite !app_nil_r.
      + left. by exists k.
    - right. by exists k. }
  - destruct (Hl (a ++ c) x d') as (n & ? & Hn & Hp); [by rewrite <- app_assoc|].
    exists n. split_and!; [done| |].
    + rewrite Hn. by rewrite <- !app_assoc.
    + rewrite Hp. by rewrite <- !app_assoc.
  - destruct (Hl c' x (d ++ b)) as (n & ? & Hn & Hp); [by rewrite <- !app_assoc|].
    exists n. split_and!; [done| |].
    + rewrite Hn. by rewrite <- !app_assoc.
    + rewrite Hp. by rewrite <- !app_assoc.
Qed.

Lemma linked_lookup nodes ns x : linked nodes ns → x ∈ ns → is_Some (nodes !! x).
Proof. intros Hl (a & b & ->)%list_elem_of_split. destruct (Hl a x b) as (n & ? & _); eauto. Qed.

(** Rings only depend on the links of their nodes. *)
Lemma linked_ext nodes nodes' ns :
  linked nodes ns →
  (∀ x n, x ∈ ns → nodes !! x = Some n →
     ∃ n', nodes' !! x = Some n' ∧ n_next n' = n_next n ∧ n_prev n' = n_prev n) →
  linked nodes' ns.
Proof.
  intros Hl He a x b ->. destruct (Hl a x b eq_refl) as (n & Hx & Hn & Hp).
  destruct (He x n) as (n' & ? & ? & ?); [set_solver|done|]. exists n'. by rewrite <- Hn, <- Hp.
Qed.

(** ** Appending *)

(** The stores of [vxAllocScheduler] on a queue with the given ends. *)
Definition append_nodes (nodes : gmap Z node) (head last y thr : Z) : gmap Z node :=
  alter (set_n_prev y) head (alter (set_n_next head) y (alter (set_n_prev last) y
    (alter (set_n_next y) last (<[y := mkNode thr 0 0]> nodes)))).

Lemma append_nodes_lookup nodes ns y thr x n :
  linked nodes ns → ns ≠ [] → y ∉ ns → x ≠ y → nodes !! x = Some n →
  append_nodes nodes (hd0 ns) (last0 ns) y thr !! x =
    Some (mkNode (n_thread n) (if decide (hd0 ns = x) then y else n_prev n)
                 (if decide (last0 ns = x) then y else n_next n)).
Proof.
  intros Hl Hne Hy Hx Hn. pose proof (hd0_in ns Hne). pose proof (last0_in ns Hne).
  assert (y ≠ hd0 ns) by set_solver. assert (y ≠ last0 ns) by set_solver.
  unfold append_nodes. destruct (decide (hd0 ns = x)) as [<-|Hh];
    [rewrite lookup_alter_eq|rewrite lookup_alter_ne by done];
    rewrite !(lookup_alter_ne _ _ y) by done; rewrite lookup_alter, !lookup_insert_ne by done;
    (case_decide as El; [rewrite El|]); rewrite Hn; done || by destruct n.
Qed.

Lemma append_nodes_new nodes ns y thr :
  ns ≠ [] → y ∉ ns →
  append_nodes nodes (hd0 ns) (last0 ns) y thr !! y = Some (mkNode thr (last0 ns) (hd0 ns)).
Proof.
  intros Hne Hy. pose proof (hd0_in ns Hne). pose proof (last0_in ns Hne).
  assert (hd0 ns ≠ y) by set_solver. assert (last0 ns ≠ y) by set_solver.
  unfold append_nodes. by rewrite lookup_alter_ne, !lookup_alter_eq, lookup_alter_ne, lookup_insert_eq.
Qed.

(** A node that is neither new nor in the ring keeps its contents. *)
Lemma append_nodes_other nodes ns y thr x :
  ns ≠ [] → x ∉ ns → x ≠ y → append_nodes nodes (hd0 ns) (last0 ns) y thr !! x = nodes !! x.
Proof.
  intros Hne Hx Hy. pose proof (hd0_in ns Hne). pose proof (last0_in ns Hne).
  assert (hd0 ns ≠ x) by set_solver. assert (last0 ns ≠ x) by set_solver.
  unfold append_nodes. by rewrite !lookup_alter_ne, lookup_insert_ne.
Qed.

Lemma linked_append nodes ns y thr :
  NoDup ns → linked nodes ns → ns ≠ [] → y ∉ ns →
  linked (append_nodes nodes (hd0 ns) (last0 ns) y thr) (ns ++ [y]).
Proof.
  intros Hd Hl Hne Hy a x b Hs. destruct b as [|z b _] using rev_ind.
  - apply app_inj_tail in Hs as [<- <-]. rewrite append_nodes_new by done.
    eexists. split; [done|]. simpl. rewrite hd0_app, last0_cons.
    by destruct (decide (ns = [])).
  - rewrite app_comm_cons, app_assoc in Hs. apply app_inj_tail in Hs as [-> <-].
    destruct (Hl a x b eq_refl) as (n & Hx & Hn & Hp).
    assert (x ≠ y) by set_solver.
    rewrite (append_nodes_lookup _ _ _ _ x n) by done.
    eexists. split; [done|]. simpl. rewrite Hn, Hp.
    pose proof (last0_split a x b Hd) as Hls. pose proof (hd0_split a x b Hd) as Hhs.
    split.
    + rewrite <- app_assoc, !hd0_app. simpl.
      destruct (decide (b = [])) as [Eb|Eb].
      * by rewrite decide_True by (by apply Hls).
      * by rewrite decide_False by (by intros E%Hls).
    + rewrite <- app_assoc. simpl. rewrite !last0_cons, (last0_app b (y :: a)), last0_cons, last0_app.
      rewrite (decide_False (P := b ++ y :: a = [])), (decide_False (P := y :: a = [])) by (by destruct b).
      destruct (decide (a = [])) as [Ea|Ea].
      * by rewrite decide_True by (by apply Hhs).
      * rewrite (decide_False (P := hd0 _ = x)) by (by intros E%Hhs).
        by rewrite decide_False by (by destruct b).
Qed.

(** ** Removing *)

(** The stores of [vxDeatachFromScheduler] for a node with links [n] in a
    ring of more than one node. *)
Definition remove_nodes (nodes : gmap Z node) (q : Z) (n : node) : gmap Z node :=
  alter (set_n_prev 0) q (alter (set_n_next 0) q
    (alter (set_n_prev (n_prev n)) (n_next n) (alter (set_n_next (n_next n)) (n_prev n) nodes))).

Lemma linked_remove_head nodes q r n :
  NoDup (q :: r) → linked nodes (q :: r) → r ≠ [] → nodes !! q = Some n →
  linked (remove_nodes nodes q n) r.
Proof.
  intros [Hq Hd]%NoDup_cons Hl Hne Hn c x d ->.
  destruct (Hl [] q _ eq_refl) as (n' & Hn' & Hnx & Hpv). rewrite Hn in Hn'. injection Hn' as <-.
  destruct (Hl (q :: c) x d eq_refl) as (nx & Hx & Hxn & Hxp).
  assert (q ≠ x) by set_solver.
  unfold remove_nodes. rewrite !(lookup_alter_ne _ _ q) by done. rewrite !lookup_alter_fmap, Hx. simpl.
  assert (n_prev n = last0 (c ++ x :: d)) as Hpv' by
    (rewrite Hpv, app_nil_r, last0_cons; by destruct (decide _); [destruct c|]).
  assert (n_next n = hd0 (c ++ x :: d)) as Hnx' by
    (rewrite Hnx, hd0_app; by destruct (decide _); [destruct c|]).
  assert (NoDup (c ++ x :: d)) as Hd' by done.
  pose proof (last0_split c x d Hd) as Hls. pose proof (hd0_split c x d Hd) as Hhs.
  rewrite Hpv', Hnx'. clear Hpv Hnx Hpv' Hnx'.
  eexists. split; [reflexivity|]. split.
  - rewrite (hd0_app d (c ++ [x])). destruct (decide (d = [])) as [->|Ed].
    + rewrite (decide_True (P := last0 _ = x)) by (by apply Hls).
      by destruct (decide (hd0 (c ++ [x]) = x)).
    + rewrite (decide_False (P := last0 _ = x)) by (by intros E%Hls).
      transitivity (n_next nx); [by destruct (decide _)|]. by rewrite Hxn, hd0_app, decide_False.
  - rewrite last0_cons. destruct (decide (c = [])) as [->|Ec].
    + rewrite (decide_True (P := hd0 _ = x)) by (by apply Hhs). simpl. by rewrite app_nil_r, last0_cons.
    + rewrite (decide_False (P := hd0 _ = x)) by (by intros E%Hhs).
      rewrite (decide_False (P := d ++ c = [])) by (by destruct d).
      transitivity (n_prev nx); [by destruct (decide _)|].
      rewrite Hxp, last0_cons, decide_False by (by destruct d).
      rewrite !last0_app, last0_cons. by rewrite !(decide_False (P := c = [])), decide_False.
Qed.

(** Removing [q] from anywhere in the ring. *)
Lemma linked_remove nodes a q b n :
  NoDup (a ++ q :: b) → linked nodes (a ++ q :: b) → a ++ b ≠ [] → nodes !! q = Some n →
  linked (remove_nodes nodes q n) (a ++ b).
Proof.
  intros Hd Hl Hne Hn. apply linked_rotate. apply (linked_remove_head _ q); [| | |done].
  - revert Hd. rewrite (Permutation_app_comm a), <- app_comm_cons. done.
  - by apply linked_rotate in Hl.
  - by destruct b, a.
Qed.

Lemma remove_nodes_thread nodes q n x :
  n_thread <$> (remove_nodes nodes q n !! x) = n_thread <$> nodes !! x.
Proof.
  unfold remove_nodes. rewrite !lookup_alter_fmap. destruct (nodes !! x); [|done]. simpl.
  by repeat destruct (decide _).
Qed.

Lemma remove_nodes_other nodes q n x :
  x ≠ q → x ≠ n_prev n → x ≠ n_next n → remove_nodes nodes q n !! x = nodes !! x.
Proof. intros. unfold remove_nodes. by rewrite !lookup_alter_ne. Qed.

(** ** Walking *)

(** [l] is walked by following [next], and leads to [stop]. *)
Fixpoint path (nodes : gmap Z node) (l : list Z) (stop : Z) : Prop :=
  match l with
  | [] => True
  | x :: l => (∃ n, nodes !! x = Some n ∧ n_next n = hd0 (l ++ [stop])) ∧ path nodes l stop
  end.

Lemma linked_suffix nodes c l : linked nodes (c ++ l) → path nodes l (hd0 (c ++ l)).
Proof.
  revert c. induction l as [|x l IH]; intros c Hl; simpl; [done|]. split.
  - destruct (Hl c x l eq_refl) as (n & ? & Hn & _). exists n. split; [done|].
    rewrite Hn, (hd0_app l (c ++ [x])), (hd0_app l [_]). by destruct (decide (l = [])) as [->|].
  - specialize (IH (c ++ [x])). rewrite <- app_assoc in IH. by apply IH.
Qed.

Lemma linked_path nodes q r : linked nodes (q :: r) → path nodes r q.
Proof. intros Hl. apply (linked_suffix nodes [q] r Hl). Qed.

Lemma linked_path_all nodes q r : linked nodes (q :: r) → path nodes (q :: r) q.
Proof. intros Hl. apply (linked_suffix nodes [] (q :: r) Hl). Qed.
