(* ===== verification/SchedWf.v ===== *)
(** * Well-formed scheduler states

    A weakest-precondition calculus for the handlers, the invariant [wf] of
    the kernel state, and what the run-queue operations do to it. *)

From S2P Require Import Prelude Spinlock Cpu Signal SchedState Sched SchedQueue.

#[global] Instance node_inhabited : Inhabited node := populate (mkNode 0 0 0).
#[global] Instance sched_core_inhabited : Inhabited sched_core :=
  populate (mkSched 0 0 0 SPINLOCK_INIT 0 0 false 0 0 0).
#[global] Instance core_inhabited : Inhabited core := populate (mkCore 0 0 0 0 0 0 0 0 None 0).

(** ** Weakest preconditions *)

(** [m] returns from [s], with [Q] of the result and the final state. *)
Definition wp {A} (m : M A) (s : ks) (Q : A → ks → Prop) : Prop :=
  match m s with Ok (a, s') => Q a s' | _ => False end.

Lemma wp_elim {A} (m : M A) s Q : wp m s Q → ∃ a s', m s = Ok (a, s') ∧ Q a s'.
Proof. unfold wp. destruct (m s) as [[a s']| |]; [|done..]. eauto. Qed.

Lemma wp_intro {A} (m : M A) s (Q : A → ks → Prop) a s' : m s = Ok (a, s') → Q a s' → wp m s Q.
Proof. unfold wp. by intros ->. Qed.

Lemma wp_mono {A} (m : M A) s (P Q : A → ks → Prop) :
  wp m s P → (∀ a s', P a s' → Q a s') → wp m s Q.
Proof. unfold wp. destruct (m s) as [[a s']| |]; naive_solver. Qed.

Section rules.
Context {A : Type}.
Implicit Types Q : A → ks → Prop.

Lemma wp_ret (a : A) s Q : Q a s → wp (mret a) s Q.
Proof. done. Qed.

Lemma wp_bind {B} (m : M B) (f : B → M A) s Q :
  wp m s (λ b s', wp (f b) s' Q) → wp (m ≫= f) s Q.
Proof. unfold wp, mbind, M_bind. by destruct (m s) as [[]| |]. Qed.

Lemma wp_get (f : ks → A) s Q : Q (f s) s → wp (get f) s Q.
Proof. done. Qed.

Lemma wp_lift (r : res A) a s Q : r = Ok a → Q a s → wp (lift r) s Q.
Proof. unfold wp, lift. by intros ->. Qed.

Lemma wp_if (b : bool) (m m' : M A) s Q :
  (b = true → wp m s Q) → (b = false → wp m' s Q) → wp (if b then m else m') s Q.
Proof. destruct b; auto. Qed.
End rules.

Lemma wp_modify f s (Q : () → ks → Prop) : Q () (f s) → wp (modify f) s Q.
Proof. done. Qed.

Lemma wp_when b m s (Q : () → ks → Prop) :
  (b = true → wp m s Q) → (b = false → Q () s) → wp (when b m) s Q.
Proof. destruct b; intros H1 H2; [by apply H1|by apply H2]. Qed.

Lemma wp_thread_at t x s (Q : thread → ks → Prop) :
  k_threads s !! t = Some x → Q x s → wp (thread_at t) s Q.
Proof. unfold wp, thread_at. by intros ->. Qed.

Lemma wp_set_thread t f s (Q : () → ks → Prop) :
  is_Some (k_threads s !! t) → Q () (set_k_threads (alter f t (k_threads s)) s) →
  wp (set_thread t f) s Q.
Proof.
  unfold wp, set_thread. intros [x Hx]. rewrite Hx. 
  assert (alter f t (k_threads s) = <[t := f x]> (k_threads s)) as ->; [|done].
  apply map_eq. intros i. rewrite lookup_alter, lookup_insert. case_decide; subst; [by rewrite Hx|done].
Qed.

Lemma wp_node_at q x s (Q : node → ks → Prop) :
  k_nodes s !! q = Some x → Q x s → wp (node_at q) s Q.
Proof. unfold wp, node_at. by intros ->. Qed.

Lemma wp_set_node q f s (Q : () → ks → Prop) :
  is_Some (k_nodes s !! q) → Q () (set_k_nodes (alter f q (k_nodes s)) s) →
  wp (set_node q f) s Q.
Proof.
  unfold wp, set_node. intros [x Hx]. rewrite Hx.
  assert (alter f q (k_nodes s) = <[q := f x]> (k_nodes s)) as ->; [|done].
  apply map_eq. intros i. rewrite lookup_alter, lookup_insert. case_decide; subst; [by rewrite Hx|done].
Qed.

Lemma wp_sched_at c s (Q : sched_core → ks → Prop) :
  0 ≤ c < zlen (k_sched s) → Q (at_ (k_sched s) c) s → wp (sched_at c) s Q.
Proof. unfold wp, sched_at. intros Hc. by rewrite aget_ok. Qed.

Lemma wp_set_sched c f s (Q : () → ks → Prop) :
  0 ≤ c < zlen (k_sched s) →
  Q () (set_k_sched (<[Z.to_nat c := f (at_ (k_sched s) c)]> (k_sched s)) s) →
  wp (set_sched c f) s Q.
Proof. unfold wp, set_sched. intros Hc. by rewrite aget_ok, bind_Ok, aset_ok. Qed.

Lemma wp_core_at c s (Q : core → ks → Prop) :
  0 ≤ c < zlen (k_cores s) → Q (at_ (k_cores s) c) s → wp (core_at c) s Q.
Proof. unfold wp, core_at. intros Hc. by rewrite aget_ok. Qed.

Lemma wp_set_core c f s (Q : () → ks → Prop) :
  0 ≤ c < zlen (k_cores s) →
  Q () (set_k_cores (<[Z.to_nat c := f (at_ (k_cores s) c)]> (k_cores s)) s) →
  wp (set_core c f) s Q.
Proof. unfold wp, set_core. intros Hc. by rewrite aget_ok, bind_Ok, aset_ok. Qed.

Lemma wp_sig_at h x s (Q : sig_han → ks → Prop) :
  k_sigs s !! h = Some x → Q x s → wp (sig_at h) s Q.
Proof. unfold wp, sig_at. by intros ->. Qed.

Lemma at_insert_eq {A} `{Inhabited A} (l : list A) c x :
  0 ≤ c < zlen l → at_ (<[Z.to_nat c := x]> l) c = x.
Proof. intros Hc. rewrite at_insert by lia. by rewrite decide_True. Qed.

Lemma insert_at_id {A} `{Inhabited A} (l : list A) c :
  0 ≤ c < zlen l → <[Z.to_nat c := at_ l c]> l = l.
Proof. intros Hc. apply list_insert_id, list_lookup_lookup_total_lt. lia. Qed.

(** Normal form of array updates of one element. *)
Ltac at_norm :=
  simpl in *;
  repeat first
    [ rewrite list_insert_insert_eq in *
    | rewrite at_insert_eq in * by (rewrite ?length_insert; done) ]; simpl in *.

(** ** The lock of a core *)

Definition lock_free (c : Z) (s : ks) : Prop := unlocked (sc_lock (at_ (k_sched s) c)).
Definition lock_held (c : Z) (s : ks) : Prop := unlocked (spin_release (sc_lock (at_ (k_sched s) c))).

(** [s] with another lock on core [c]. *)
Definition with_lock (c : Z) (l : spinlock) (s : ks) : ks :=
  set_k_sched (<[Z.to_nat c := set_sc_lock l (at_ (k_sched s) c)]> (k_sched s)) s.

Section lock.
Context `{Platform}.

Lemma wp_acquire c s (Q : () → ks → Prop) :
  0 ≤ c < zlen (k_sched s) → lock_free c s →
  (∀ l, lock_held c (with_lock c l s) → Q () (with_lock c l s)) → wp (acquire c) s Q.
Proof.
  intros Hc Hf HQ. unfold acquire. apply wp_bind, wp_sched_at; [done|].
  destruct (spin_acquire_ok _ Hf) as (l & Hl & Hu & _).
  apply wp_bind. eapply wp_lift; [done|]. apply wp_set_sched; [done|]. apply HQ.
  unfold lock_held, with_lock. simpl. rewrite at_insert by lia. by rewrite decide_True.
Qed.

Lemma wp_release c s (Q : () → ks → Prop) :
  0 ≤ c < zlen (k_sched s) → lock_held c s →
  (∀ l, lock_free c (with_lock c l s) → Q () (with_lock c l s)) → wp (release c) s Q.
Proof.
  intros Hc Hf HQ. unfold release. apply wp_bind, wp_sched_at; [done|].
  apply wp_set_sched; [done|]. apply HQ. unfold lock_free, with_lock. simpl.
  rewrite at_insert by lia. by rewrite decide_True.
Qed.
End lock.

(** ** The invariant *)

Definition queue_ok (nodes : gmap Z node) (sc : sched_core) (ns : list Z) : Prop :=
  linked nodes ns ∧ sc_head sc = hd0 ns ∧ sc_last sc = last0 ns ∧
  (sc_current sc = 0 ∨ sc_current sc ∈ ns).

(** The objects a thread points to exist. *)
Definition valid_thread (s : ks) (t : thread) : Prop :=
  (t_process t = 0 ∨ is_Some (k_procs s !! t_process t)) ∧
  (t_fpu_state t = 0 ∨ is_Some (k_fpus s !! t_fpu_state t)) ∧
  (t_signal t = 0 ∨ ∃ h, k_sigs s !! t_signal t = Some h ∧ length (handler h) = 64%nat) ∧
  0 ≤ t_current_core_id t < zlen (k_cores s).

(** [rings] lists the run queue of each core. *)
Record wf (s : ks) (rings : list (list Z)) : Prop := {
  wf_cores : length (k_cores s) = length (k_sched s);
  wf_rings : length rings = length (k_sched s);
  wf_queue c : 0 ≤ c < zlen (k_sched s) → queue_ok (k_nodes s) (at_ (k_sched s) c) (at_ rings c);
  wf_nodup c : 0 ≤ c < zlen (k_sched s) → NoDup (at_ rings c) ∧ 0 ∉ at_ rings c;
  wf_disjoint c d q : 0 ≤ c < zlen (k_sched s) → 0 ≤ d < zlen (k_sched s) → c ≠ d →
    q ∈ at_ rings c → q ∉ at_ rings d;
  wf_node c q n : 0 ≤ c < zlen (k_sched s) → q ∈ at_ rings c → k_nodes s !! q = Some n →
    ∃ t, k_threads s !! n_thread n = Some t ∧ t_core_affinity t = c;
  wf_threads t x : k_threads s !! t = Some x → t ≠ 0 ∧ valid_thread s x;
  wf_active c : 0 ≤ c < zlen (k_sched s) →
    co_active_thread (at_ (k_cores s) c) = 0 ∨
    is_Some (k_threads s !! co_active_thread (at_ (k_cores s) c)) }.

(** ** Updates that keep the invariant *)

(** An update of a thread that keeps what the invariant says of it. *)
Definition keeps (s : ks) (f : thread → thread) : Prop :=
  ∀ x, t_core_affinity (f x) = t_core_affinity x ∧ (valid_thread s x → valid_thread s (f x)).

Lemma alter_lookup_inv (f : thread → thread) (m : gmap Z thread) t i x :
  alter f t m !! i = Some x → ∃ x0, m !! i = Some x0 ∧ x = (if decide (t = i) then f else id) x0.
Proof. rewrite lookup_alter_fmap. intros (x0 & -> & ->)%fmap_Some. eauto. Qed.

Lemma wf_set_thread s rings t f :
  wf s rings → keeps s f → wf (set_k_threads (alter f t (k_threads s)) s) rings.
Proof.
  intros [] Hk. constructor; simpl; try done.
  - intros c q n Hc Hq Hn. destruct (wf_node0 c q n Hc Hq Hn) as (x & Hx & Ha).
    rewrite lookup_alter_fmap, Hx. eexists. split; [done|].
    destruct (decide _); [|done]. destruct (Hk x) as [-> _]. done.
  - intros i x (x0 & Hx & ->)%alter_lookup_inv. destruct (wf_threads0 i x0 Hx) as [? Hv].
    split; [done|]. destruct (decide _); [|done]. by apply Hk.
  - intros c Hc. rewrite lookup_alter_is_Some. by apply wf_active0.
Qed.

Lemma wf_set_core s rings c f :
  wf s rings → 0 ≤ c < zlen (k_sched s) →
  (co_active_thread (f (at_ (k_cores s) c)) = co_active_thread (at_ (k_cores s) c) ∨
   co_active_thread (f (at_ (k_cores s) c)) = 0 ∨
   is_Some (k_threads s !! co_active_thread (f (at_ (k_cores s) c)))) →
  wf (set_k_cores (<[Z.to_nat c := f (at_ (k_cores s) c)]> (k_cores s)) s) rings.
Proof.
  intros [] Hc Ha. constructor; simpl; try done; rewrite ?length_insert; try done.
  - intros t x Hx. destruct (wf_threads0 t x Hx) as [? Hv]. split; [done|].
    unfold valid_thread in *; simpl. by rewrite length_insert.
  - intros d Hd. rewrite at_insert by lia. case_decide as E; [subst d|by apply wf_active0].
    destruct Ha as [->|Ha]; [by apply wf_active0|done].
Qed.

(** Changes of [scheduler[c]] other than its ends. *)
Lemma wf_set_sched s rings c sc :
  wf s rings → 0 ≤ c < zlen (k_sched s) →
  sc_head sc = sc_head (at_ (k_sched s) c) → sc_last sc = sc_last (at_ (k_sched s) c) →
  (sc_current sc = 0 ∨ sc_current sc ∈ at_ rings c) →
  wf (set_k_sched (<[Z.to_nat c := sc]> (k_sched s)) s) rings.
Proof.
  intros [] Hc Hh Hl Hcu. constructor; simpl; rewrite ?length_insert; try done.
  intros d Hd. rewrite at_insert by lia. case_decide as E; [subst d|by apply wf_queue0].
  destruct (wf_queue0 c Hc) as (? & ? & ? & _). unfold queue_ok. by rewrite Hh, Hl.
Qed.

Lemma wf_with_lock s rings c l :
  wf s rings → 0 ≤ c < zlen (k_sched s) → wf (with_lock c l s) rings.
Proof.
  intros Hwf Hc. apply wf_set_sched; try done. by destruct (wf_queue _ _ Hwf c Hc) as (_ & _ & _ & ?).
Qed.

Lemma wf_frame s rings f : wf s rings → wf (set_k_frame f s) rings.
Proof. by intros []; constructor. Qed.
Lemma wf_reads s rings n : wf s rings → wf (set_k_reads n s) rings.
Proof. by intros []; constructor. Qed.
Lemma wf_called s rings l : wf s rings → wf (set_k_called l s) rings.
Proof. by intros []; constructor. Qed.
Lemma wf_hint s rings h : wf s rings → wf (set_k_hint h s) rings.
Proof. by intros []; constructor. Qed.

Lemma wf_fpus s rings a x : wf s rings → wf (set_k_fpus (<[a := x]> (k_fpus s)) s) rings.
Proof.
  intros []. constructor; try done. intros t y Hy. destruct (wf_threads0 t y Hy) as (? & ? & Hf & ?).
  split; [done|]. unfold valid_thread; simpl. rewrite lookup_insert_is_Some'. naive_solver.
Qed.

Lemma wf_sigs s rings h x :
  wf s rings → length (handler x) = 64%nat → wf (set_k_sigs (<[h := x]> (k_sigs s)) s) rings.
Proof.
  intros [] Hx. constructor; try done. intros t y Hy. destruct (wf_threads0 t y Hy) as (? & ? & ? & Hs & ?).
  split; [done|]. unfold valid_thread; simpl. split_and!; try done; [|lia..].
  destruct Hs as [?|(h0 & Hh & Hl)]; [by left|right].
  destruct (decide (h = t_signal y)) as [->|]; [exists x; by rewrite lookup_insert_eq|].
  exists h0. by rewrite lookup_insert_ne.
Qed.

(** Another ring on core [c]. *)
Lemma wf_relink s rings c nodes' sc' ns' :
  wf s rings → 0 ≤ c < zlen (k_sched s) →
  queue_ok nodes' sc' ns' → NoDup ns' → 0 ∉ ns' →
  (∀ d q, 0 ≤ d < zlen (k_sched s) → d ≠ c → q ∈ at_ rings d →
     nodes' !! q = k_nodes s !! q ∧ q ∉ ns') →
  (∀ q n, q ∈ ns' → nodes' !! q = Some n →
     ∃ t, k_threads s !! n_thread n = Some t ∧ t_core_affinity t = c) →
  wf (set_k_sched (<[Z.to_nat c := sc']> (k_sched s)) (set_k_nodes nodes' s))
     (<[Z.to_nat c := ns']> rings).
Proof.
  intros [] Hc Hq Hnd H0 Hoth Hth.
  assert (∀ d, 0 ≤ d → at_ (<[Z.to_nat c := ns']> rings) d = if decide (c = d) then ns' else at_ rings d) as Hr.
  { intros d Hd. apply at_insert; lia. }
  constructor; simpl; rewrite ?length_insert; try done.
  - intros d Hd. rewrite Hr, at_insert by lia. case_decide as E; [done|].
    destruct (wf_queue0 d Hd) as (Hl & ?). split; [|done].
    eapply linked_ext; [done|]. intros x n Hx Hn. exists n.
    destruct (Hoth d x) as [-> _]; done.
  - intros d Hd. rewrite Hr by lia. case_decide; [done|]. by apply wf_nodup0.
  - intros d e q Hd He Hne. rewrite !Hr by lia. repeat case_decide; subst; try done.
    + intros Hq' Hq2. destruct (Hoth e q); done.
    + intros Hq'. by apply (Hoth d q).
    + by apply wf_disjoint0.
  - intros d q n Hd. rewrite Hr by lia. case_decide as E; [subst d; apply Hth|].
    intros Hq' Hn. destruct (Hoth d q) as [He _]; [done..|]. rewrite He in Hn. by apply (wf_node0 d q n).
Qed.

Lemma ring_not_nil (ns : list Z) : 0 ∉ ns → hd0 ns = 0 ↔ ns = [].
Proof.
  intros H0. destruct ns as [|x ns]; [done|]. split; [|done].
  intros E. destruct H0. rewrite <- E. by left.
Qed.

(** Both ends of the queue of a core with a new node. *)
Definition appended (sc : sched_core) (ns : list Z) (q : Z) : sched_core :=
  set_sc_last q (if decide (ns = []) then set_sc_head q sc else sc).

Ltac wp_simple :=
  match goal with
  | |- wp (mbind _ _) _ _ => apply wp_bind
  | |- wp (mret _) _ _ => apply wp_ret
  | |- wp (get _) _ _ => apply wp_get
  | |- wp (modify _) _ _ => apply wp_modify
  | |- wp (sched_at _) _ _ => apply wp_sched_at; [simpl; rewrite ?length_insert; done|]
  | |- wp (set_sched _ _) _ _ => apply wp_set_sched; [simpl; rewrite ?length_insert; done|]
  end.

Section queue.
Context `{Platform}.

(** The store of [linked] after [vxAllocScheduler], for both shapes. *)
Definition linked_with (nodes : gmap Z node) (ns : list Z) (q thr : Z) : gmap Z node :=
  if decide (ns = []) then <[q := mkNode thr q q]> nodes
  else append_nodes nodes (hd0 ns) (last0 ns) q thr.

Lemma linked_with_ok nodes ns q thr :
  NoDup ns → linked nodes ns → q ∉ ns → linked (linked_with nodes ns q thr) (ns ++ [q]).
Proof.
  intros Hd Hl Hq. unfold linked_with. case_decide as E; [subst|by apply linked_append].
  intros a x b Hs. destruct a as [|? a]; simplify_eq/=; [|by destruct a].
  rewrite lookup_insert_eq. by eexists.
Qed.

Lemma linked_with_other nodes ns q thr x :
  x ∉ ns → x ≠ q → linked_with nodes ns q thr !! x = nodes !! x.
Proof.
  intros Hx Hq. unfold linked_with. case_decide; [by rewrite lookup_insert_ne|].
  by apply append_nodes_other.
Qed.

Lemma linked_with_thread nodes ns q thr x n :
  linked nodes ns → q ∉ ns → x ∈ ns ++ [q] → linked_with nodes ns q thr !! x = Some n →
  (x = q ∧ n_thread n = thr) ∨ (x ∈ ns ∧ ∃ n0, nodes !! x = Some n0 ∧ n_thread n = n_thread n0).
Proof.
  intros Hl Hq Hx Hn. unfold linked_with in Hn. destruct (decide (x = q)) as [->|Hne].
  - left. split; [done|]. case_decide; [rewrite lookup_insert_eq in Hn; by injection Hn as <-|].
    rewrite append_nodes_new in Hn by done. by injection Hn as <-.
  - right. assert (x ∈ ns) as Hin by set_solver. split; [done|].
    destruct (linked_lookup _ _ _ Hl Hin) as [n0 Hn0]. exists n0. split; [done|].
    rewrite decide_False in Hn by (intros ->; set_solver).
    rewrite (append_nodes_lookup _ _ _ _ x n0) in Hn by (done || (intros ->; set_solver)).
    by injection Hn as <-.
Qed.

Lemma vxAllocScheduler_run s rings c thr q :
  wf s rings → 0 ≤ c < zlen (k_sched s) → lock_free c s → q ≠ 0 → q ∉ at_ rings c →
  ∃ l, unlocked l ∧
    vxAllocScheduler c thr q s =
      Ok (q, set_k_sched (<[Z.to_nat c := set_sc_lock l (appended (at_ (k_sched s) c) (at_ rings c) q)]> (k_sched s))
            (set_k_nodes (linked_with (k_nodes s) (at_ rings c) q thr) s)).
Proof.
  intros Hwf Hc Hf Hq0 Hqc.
  destruct (wf_queue _ _ Hwf c Hc) as (Hl & Hh & Hla & Hcu).
  destruct (wf_nodup _ _ Hwf c Hc) as (Hnd & H0).
  enough (wp (vxAllocScheduler c thr q) s (λ r s', ∃ l, unlocked l ∧ r = q ∧ s' =
    set_k_sched (<[Z.to_nat c := set_sc_lock l (appended (at_ (k_sched s) c) (at_ rings c) q)]> (k_sched s))
      (set_k_nodes (linked_with (k_nodes s) (at_ rings c) q thr) s))) as Hw.
  { apply wp_elim in Hw as (? & ? & Hw & l & Hu & -> & ->). by exists l. }
  unfold vxAllocScheduler. apply wp_bind, wp_acquire; [done|done|]. intros l Hheld.
  rewrite (proj2 (Z.eqb_neq q 0) Hq0). apply wp_bind, wp_modify. simpl.
  apply wp_bind, wp_set_node; [simpl; by rewrite lookup_insert_eq|]. simpl. rewrite alter_insert_eq. simpl.
  apply wp_bind, wp_sched_at; [simpl; by rewrite length_insert|]. simpl. rewrite at_insert_eq by done. simpl.
  unfold linked_with, appended. apply wp_bind. destruct (Z.eqb_spec (sc_head (at_ (k_sched s) c)) 0) as [E|E].
  - rewrite Hh in E. rewrite ring_not_nil in E by done. rewrite !decide_True by done.
    apply wp_bind, wp_set_node; [simpl; by rewrite lookup_insert_eq|]. simpl. rewrite alter_insert_eq. simpl.
    apply wp_bind, wp_set_node; [simpl; by rewrite lookup_insert_eq|]. simpl. rewrite alter_insert_eq. simpl.
    repeat wp_simple. unfold with_lock, lock_held in *. at_norm.
    apply wp_release; [simpl; by rewrite length_insert|unfold lock_held; by at_norm|].
    intros l' Hl'. unfold lock_free, with_lock in *. at_norm. by exists l'.
  - rewrite Hh in E. rewrite ring_not_nil in E by done. rewrite !decide_False by done.
    pose proof (hd0_in _ E) as Hhi. pose proof (last0_in _ E) as Hli.
    destruct (linked_lookup _ _ _ Hl Hhi) as [nh Hnh]. destruct (linked_lookup _ _ _ Hl Hli) as [nl Hnl].
    rewrite Hh, Hla.
    assert (∀ x n, x ∈ at_ rings c → k_nodes s !! x = Some n →
      <[q := mkNode thr 0 0]> (k_nodes s) !! x = Some n) as Hne.
    { intros x n Hx Hn. rewrite lookup_insert_ne; [done|]. by intros ->. }
    do 4 (apply wp_bind, wp_set_node; [simpl; rewrite ?lookup_alter_is_Some;
      first [by rewrite lookup_insert_eq|erewrite Hne by done; done]|]; simpl).
    repeat wp_simple. unfold with_lock, lock_held in *. at_norm.
    apply wp_release; [simpl; by rewrite length_insert|unfold lock_held; by at_norm|].
    intros l' Hl'. unfold lock_free, with_lock in *. at_norm. by exists l'.
Qed.

Lemma wf_appended s rings c thr q t l :
  wf s rings → 0 ≤ c < zlen (k_sched s) → q ≠ 0 →
  (∀ d, 0 ≤ d < zlen (k_sched s) → q ∉ at_ rings d) →
  k_threads s !! thr = Some t → t_core_affinity t = c →
  wf (set_k_sched (<[Z.to_nat c := set_sc_lock l (appended (at_ (k_sched s) c) (at_ rings c) q)]> (k_sched s))
        (set_k_nodes (linked_with (k_nodes s) (at_ rings c) q thr) s))
     (<[Z.to_nat c := at_ rings c ++ [q]]> rings).
Proof.
  intros Hwf Hc Hq0 Hqf Ht Ha. specialize (Hqf c Hc) as Hqc.
  destruct (wf_queue _ _ Hwf c Hc) as (Hl & Hh & Hla & Hcu).
  destruct (wf_nodup _ _ Hwf c Hc) as (Hnd & H0).
  apply wf_relink; try done.
  - split_and!.
    + by apply linked_with_ok.
    + rewrite hd0_app. unfold appended. simpl. by case_decide.
    + rewrite last0_app. done.
    + unfold appended. simpl. case_decide; simpl; set_solver.
  - apply NoDup_app. split_and!; [done|set_solver|apply NoDup_singleton].
  - set_solver.
  - intros d x Hd Hdc Hx. pose proof (wf_disjoint _ _ Hwf d c x Hd Hc Hdc Hx) as Hnx.
    assert (x ≠ q) by (intros ->; by apply (Hqf d)).
    split; [by apply linked_with_other|set_solver].
  - intros x n Hx Hn. destruct (linked_with_thread _ _ _ _ _ _ Hl Hqc Hx Hn) as [[-> ->]|(Hin & n0 & Hn0 & ->)].
    + by exists t.
    + by apply (wf_node _ _ Hwf c x n0).
Qed.

(** ** Detaching *)

(** The node store and the core after [vxDeatachFromScheduler]. *)
Definition unlinked (nodes : gmap Z node) (q : Z) (n : node) : gmap Z node :=
  if n_next n =? q then alter (set_n_prev 0) q (alter (set_n_next 0) q nodes)
  else remove_nodes nodes q n.

Definition detached (sc : sched_core) (q : Z) (n : node) : sched_core :=
  if n_next n =? q then set_sc_current 0 (set_sc_last 0 (set_sc_head 0 sc))
  else
    let sc1 := if sc_head sc =? q then set_sc_head (n_next n) sc else sc in
    let sc2 := if sc_last sc =? q then set_sc_last (n_prev n) sc1 else sc1 in
    if sc_current sc =? q then set_sc_current (n_next n) sc2 else sc2.

Lemma ring_links s rings c a q b :
  wf s rings → 0 ≤ c < zlen (k_sched s) → at_ rings c = a ++ q :: b →
  ∃ n, k_nodes s !! q = Some n ∧ n_next n = hd0 (b ++ a ++ [q]) ∧ n_prev n = last0 (q :: b ++ a) ∧
    (n_next n = q ↔ a ++ b = []) ∧ (a ++ b ≠ [] → n_next n ∈ a ++ b ∧ n_prev n ∈ a ++ b) ∧
    n_next n ≠ 0 ∧ n_prev n ≠ 0.
Proof.
  intros Hwf Hc Hr. destruct (wf_queue _ _ Hwf c Hc) as (Hl & _).
  destruct (wf_nodup _ _ Hwf c Hc) as (Hnd & H0). rewrite Hr in Hl, Hnd, H0.
  destruct (Hl a q b eq_refl) as (n & Hn & Hnx & Hpv). exists n.
  assert (n_next n ∈ b ++ a ++ [q]) as Hin.
  { rewrite Hnx. apply hd0_in. by destruct b, a. }
  assert (n_prev n ∈ q :: b ++ a) as Hip by (rewrite Hpv; by apply last0_in).
  assert (a ++ b ≠ [] → n_next n ∈ a ++ b ∧ n_prev n ∈ a ++ b) as Hne.
  { intros Hne. rewrite Hnx, Hpv, app_assoc, hd0_app, last0_cons.
    rewrite !decide_False by (by destruct b, a).
    assert (b ++ a ≠ []) as Hne' by (by destruct b, a).
    pose proof (hd0_in _ Hne'). pose proof (last0_in _ Hne'). set_solver. }
  apply NoDup_app in Hnd as (Hda & Hab & [Hqb Hdb]%NoDup_cons).
  split_and!; try done.
  - split; [|intros [-> ->]%app_eq_nil; by rewrite Hnx].
    intros E. destruct (decide (a ++ b = [])) as [|Hn0]; [done|]. destruct (Hne Hn0) as [Hi _].
    rewrite E in Hi. apply elem_of_app in Hi as [Hi|Hi]; [|done]. destruct (Hab q Hi). by left.
  - intros E. rewrite E in Hin. set_solver.
  - intros E. rewrite E in Hip. set_solver.
Qed.

Lemma vxDeatach_run s rings me c q a b n :
  wf s rings → 0 ≤ c < zlen (k_sched s) → at_ rings c = a ++ q :: b → k_nodes s !! q = Some n →
  vxDeatachFromScheduler me q true s =
    Ok ((), set_k_sched (<[Z.to_nat c := detached (at_ (k_sched s) c) q n]> (k_sched s))
             (set_k_nodes (unlinked (k_nodes s) q n) s)).
Proof.
  intros Hwf Hc Hr Hn.
  destruct (ring_links s rings c a q b Hwf Hc Hr) as (n' & Hn' & Hnx & Hpv & Heq & Hin & Hx0 & Hp0).
  rewrite Hn in Hn'. injection Hn' as <-.
  assert (q ∈ at_ rings c) as Hq by (rewrite Hr; set_solver).
  destruct (wf_node _ _ Hwf c q n Hc Hq Hn) as (t & Ht & Ha).
  destruct (wf_nodup _ _ Hwf c Hc) as (Hnd & H0).
  enough (wp (vxDeatachFromScheduler me q true) s (λ _ s', s' =
    set_k_sched (<[Z.to_nat c := detached (at_ (k_sched s) c) q n]> (k_sched s))
      (set_k_nodes (unlinked (k_nodes s) q n) s))) as Hw.
  { apply wp_elim in Hw as ([] & ? & Hw & ->). done. }
  unfold vxDeatachFromScheduler. apply wp_bind, (wp_node_at _ n); [done|].
  apply wp_bind, (wp_thread_at _ t); [done|]. apply wp_bind, wp_get. rewrite Ha.
  destruct (Z.leb_spec (zlen (k_sched s)) c); [lia|]. apply wp_bind, wp_ret.
  apply wp_bind, (wp_node_at _ n); [done|]. unfold detached, unlinked.
  rewrite (proj2 (Z.eqb_neq (n_next n) 0) Hx0), orb_false_r.
  destruct (Z.eqb_spec (n_next n) q) as [E|E].
  - apply wp_bind, wp_set_sched; [done|]. simpl.
    do 2 (apply wp_bind, wp_set_node; [simpl; by rewrite ?lookup_alter_is_Some, Hn|]; simpl).
    apply wp_ret. done.
  - assert (a ++ b ≠ []) as Hab by tauto. destruct (Hin Hab) as [Hi1 Hi2].
    destruct (wf_queue _ _ Hwf c Hc) as (Hl & _).
    assert (is_Some (k_nodes s !! n_next n)) as [nx Hnx'] by
      (apply (linked_lookup _ _ _ Hl); rewrite Hr; set_solver).
    assert (is_Some (k_nodes s !! n_prev n)) as [np Hnp'] by
      (apply (linked_lookup _ _ _ Hl); rewrite Hr; set_solver).
    assert (n_prev n ≠ q) as Hpq.
    { intros E'. rewrite Hr in Hnd. apply NoDup_app in Hnd as (_ & Hd2 & [Hd3 _]%NoDup_cons).
      rewrite E' in Hi2. set_solver. }
    apply wp_bind. rewrite (proj2 (Z.eqb_neq (n_prev n) 0) Hp0).
    apply wp_bind, wp_set_node; [by rewrite Hnp'|]. simpl.
    apply wp_bind, (wp_node_at _ n); [simpl; by rewrite lookup_alter_ne|].
    rewrite (proj2 (Z.eqb_neq (n_next n) 0) Hx0).
    apply wp_bind, wp_set_node; [simpl; by rewrite lookup_alter_is_Some, Hnx'|]. simpl.
    apply wp_bind, (wp_node_at _ n); [simpl; by rewrite !lookup_alter_ne|].
    apply wp_bind, wp_sched_at; [done|]. simpl.
    destruct (sc_head (at_ (k_sched s) c) =? q), (sc_last (at_ (k_sched s) c) =? q),
      (sc_current (at_ (k_sched s) c) =? q); cbn [when];
      repeat wp_simple; at_norm;
      do 2 (try apply wp_bind; apply wp_set_node; [simpl; rewrite ?lookup_alter_is_Some; by rewrite Hn|]; simpl);
      at_norm; first [done|by rewrite insert_at_id].
Qed.

Lemma detached_ends nodes sc a q b n :
  NoDup (a ++ q :: b) → queue_ok nodes sc (a ++ q :: b) →
  n_next n = hd0 (b ++ a ++ [q]) → n_prev n = last0 (q :: b ++ a) → a ++ b ≠ [] → n_next n ≠ q →
  n_next n ∈ a ++ b →
  sc_head (detached sc q n) = hd0 (a ++ b) ∧ sc_last (detached sc q n) = last0 (a ++ b) ∧
  (sc_current (detached sc q n) = 0 ∨ sc_current (detached sc q n) ∈ a ++ b).
Proof.
  intros Hnd (_ & Hh & Hl & Hcu) Hnx Hpv Hab Hne Hin.
  pose proof (hd0_split a q b Hnd) as Hhs. pose proof (last0_split a q b Hnd) as Hls.
  unfold detached. rewrite (proj2 (Z.eqb_neq _ _) Hne). rewrite Hh, Hl.
  split_and!.
  - transitivity (if hd0 (a ++ q :: b) =? q then n_next n else hd0 (a ++ q :: b)).
    { by destruct (hd0 _ =? q), (last0 _ =? q), (sc_current sc =? q). }
    destruct (Z.eqb_spec (hd0 (a ++ q :: b)) q) as [E|E].
    + apply Hhs in E as ->. rewrite Hnx, hd0_app. simpl in *. by rewrite decide_False.
    + rewrite !hd0_app. by destruct (decide (a = [])) as [Ea|]; [apply Hhs in Ea|].
  - transitivity (if last0 (a ++ q :: b) =? q then n_prev n else last0 (a ++ q :: b)).
    { by destruct (hd0 _ =? q), (last0 _ =? q), (sc_current sc =? q). }
    destruct (Z.eqb_spec (last0 (a ++ q :: b)) q) as [E|E].
    + apply Hls in E as ->. rewrite app_nil_r in *. by rewrite Hpv, last0_cons, decide_False.
    + rewrite !last0_app, last0_cons. by destruct (decide (b = [])) as [Eb|]; [apply Hls in Eb|].
  - destruct (Z.eqb_spec (sc_current sc) q) as [E|E]; simpl; [by right|].
    assert (sc_current (if last0 (a ++ q :: b) =? q
      then set_sc_last (n_prev n) (if hd0 (a ++ q :: b) =? q then set_sc_head (n_next n) sc else sc)
      else if hd0 (a ++ q :: b) =? q then set_sc_head (n_next n) sc else sc) = sc_current sc) as ->
      by (by destruct (hd0 _ =? q), (last0 _ =? q)).
    destruct Hcu as [?|Hcu]; [by left|right]. set_solver.
Qed.

Lemma unlinked_thread nodes q n x :
  n_thread <$> (unlinked nodes q n !! x) = n_thread <$> nodes !! x.
Proof.
  unfold unlinked. case_match; [|apply remove_nodes_thread].
  rewrite !lookup_alter_fmap. destruct (nodes !! x); [|done]. simpl. by repeat destruct (decide _).
Qed.

Lemma wf_detached s rings c a q b n :
  wf s rings → 0 ≤ c < zlen (k_sched s) → at_ rings c = a ++ q :: b → k_nodes s !! q = Some n →
  wf (set_k_sched (<[Z.to_nat c := detached (at_ (k_sched s) c) q n]> (k_sched s))
       (set_k_nodes (unlinked (k_nodes s) q n) s)) (<[Z.to_nat c := a ++ b]> rings).
Proof.
  intros Hwf Hc Hr Hn.
  destruct (ring_links s rings c a q b Hwf Hc Hr) as (n' & Hn' & Hnx & Hpv & Heq & Hin & Hx0 & Hp0).
  rewrite Hn in Hn'. injection Hn' as <-.
  pose proof (wf_queue _ _ Hwf c Hc) as Hq. pose proof Hq as (Hl & _).
  destruct (wf_nodup _ _ Hwf c Hc) as (Hnd & H0). rewrite Hr in Hq, Hl, Hnd, H0.
  apply wf_relink; try done.
  - destruct (decide (a ++ b = [])) as [E|E].
    + pose proof (proj2 Heq E) as Eq. rewrite E. unfold detached. rewrite Eq, Z.eqb_refl. split_and!; try done.
      * intros ? ? ? ?. by destruct a0.
      * by left.
    + assert (n_next n ≠ q) as Hne by tauto. destruct (Hin E) as [Hi1 Hi2].
      split; [|by apply (detached_ends (k_nodes s))].
      unfold unlinked. rewrite (proj2 (Z.eqb_neq _ _) Hne). by apply linked_remove.
  - apply NoDup_app in Hnd as (? & Hd2 & [? ?]%NoDup_cons). apply NoDup_app. split_and!; try done. set_solver.
  - set_solver.
  - intros d x Hd Hdc Hx. pose proof (wf_disjoint _ _ Hwf d c x Hd Hc Hdc Hx) as Hnc. rewrite Hr in Hnc.
    split; [|set_solver]. unfold unlinked. destruct (Z.eqb_spec (n_next n) q) as [E|E].
    + rewrite !lookup_alter_ne by set_solver. done.
    + assert (a ++ b ≠ []) as Hab by tauto. destruct (Hin Hab).
      apply remove_nodes_other; set_solver.
  - intros x nx Hx Hnx'. pose proof (unlinked_thread (k_nodes s) q n x) as Ht. rewrite Hnx' in Ht.
    destruct (k_nodes s !! x) as [n0|] eqn:Hn0; [|done]. injection Ht as ->.
    apply (wf_node _ _ Hwf c x n0); try done. rewrite Hr. set_solver.
Qed.
End queue.
