(* ===== verification/SchedTick.v ===== *)
(** * The timer tick

    What the steps of [vxSchedulerTick] do: the search of the next runnable
    node, the wake-up of sleepers, the context switch; and that the whole
    handler runs without touching a null or dangling pointer, keeps the run
    queues well formed and gives the lock back. *)

From S2P Require Import Prelude Spinlock Cpu Signal SchedState Sched SchedQueue SchedWf.

(** ** The search of the next node *)

(** The thread of node [q] may run. *)
Definition runb (s : ks) (q : Z) : bool :=
  match k_nodes s !! q with
  | Some n => match k_threads s !! n_thread n with
              | Some t => runnable_state (t_state t)
              | None => false
              end
  | None => false
  end.

(** The first runnable node of a list, 0 if there is none. *)
Definition first_run (s : ks) (l : list Z) : Z := hd0 (filter (λ q, runb s q = true) l).

(** The nodes of [l] have threads. *)
Definition manned (s : ks) (l : list Z) : Prop :=
  ∀ q, q ∈ l → ∃ n t, k_nodes s !! q = Some n ∧ n_thread n ≠ 0 ∧ k_threads s !! n_thread n = Some t.

Lemma wf_manned s rings c : wf s rings → 0 ≤ c < zlen (k_sched s) → manned s (at_ rings c).
Proof.
  intros Hwf Hc q Hq. destruct (wf_queue _ _ Hwf c Hc) as (Hl & _).
  destruct (linked_lookup _ _ _ Hl Hq) as [n Hn].
  destruct (wf_node _ _ Hwf c q n Hc Hq Hn) as (t & Ht & _).
  exists n, t. split_and!; try done. by apply (wf_threads _ _ Hwf _ t).
Qed.

Lemma manned_sub s l k : manned s l → k ⊆ l → manned s k.
Proof. intros Hm Hk q Hq. apply Hm. set_solver. Qed.

Section tick.
Context `{Platform}.

Lemma node_runnable_run s l q : manned s l → q ∈ l → node_runnable q s = Ok (runb s q, s).
Proof.
  intros Hm Hq. destruct (Hm q Hq) as (n & t & Hn & Hz & Ht).
  unfold node_runnable, mbind, M_bind, node_at. rewrite Hn.
  destruct (Z.eqb_spec (n_thread n) 0); [done|]. unfold thread_at. rewrite Ht.
  unfold runb. by rewrite Hn, Ht.
Qed.

(** The walk over [x :: l], which either comes back to [start] after it or
    has a runnable node. *)
Lemma search_loop_run fuel s c start stop x l :
  0 ≤ c < zlen (k_sched s) → path (k_nodes s) (x :: l) stop → manned s (x :: l) →
  0 ∉ x :: l → start ≠ 0 → start ∉ l → (length l < fuel)%nat →
  (stop = start ∨ ∃ y, y ∈ x :: l ∧ runb s y = true) →
  search_loop fuel c start x s = Ok (first_run s (x :: l), s).
Proof.
  intros Hc. revert fuel x. induction l as [|y l IH]; intros fuel x Hp Hm H0 Hs0 Hsl Hf Hst;
    (destruct fuel as [|fuel]; [simpl in Hf; lia|]); cbn [search_loop];
    unfold mbind at 1, M_bind at 1;
    rewrite (node_runnable_run s (x :: _)) by (done || by left);
    unfold first_run; rewrite filter_cons; destruct (runb s x) eqn:Er; cbn [decide]; try done;
    destruct Hp as [(n & Hn & Hnx) Hp].
  - destruct Hst as [->|(y & ->%list_elem_of_singleton & ?)]; [|congruence].
    rewrite decide_False by congruence. unfold mbind, M_bind, node_at. rewrite Hn.
    unfold sched_at. rewrite aget_ok by done. rewrite bind_Ok. rewrite Hnx.
    change (hd0 ([] ++ [start])) with start.
    rewrite (proj2 (Z.eqb_neq _ _) Hs0), Z.eqb_refl. done.
  - rewrite decide_False by congruence. unfold mbind, M_bind, node_at. rewrite Hn.
    unfold sched_at. rewrite aget_ok by done. rewrite bind_Ok. rewrite Hnx.
    change (hd0 ((y :: l) ++ [stop])) with y.
    assert (y ≠ 0) as Hy by set_solver. rewrite (proj2 (Z.eqb_neq _ _) Hy).
    assert (y ≠ start) as Hys by set_solver. rewrite (proj2 (Z.eqb_neq _ _) Hys).
    apply IH; try done; [eapply manned_sub; [done|set_solver]|set_solver|set_solver|simpl in Hf; lia|].
    destruct Hst as [?|(z & [->|Hz]%elem_of_cons & ?)]; [by left|congruence|right; by exists z].
Qed.

(** The order in which the tick looks at the ring when [q] is current. *)
Definition search_order (a : list Z) (q : Z) (b : list Z) : list Z :=
  if decide (b ++ a = []) then [q] else b ++ a.

Lemma ring_rotated s rings c a q b :
  wf s rings → 0 ≤ c < zlen (k_sched s) → at_ rings c = a ++ q :: b →
  linked (k_nodes s) (q :: b ++ a) ∧ NoDup (q :: b ++ a) ∧ (0 ∉ (q :: b ++ a)) ∧ manned s (q :: b ++ a).
Proof.
  intros Hwf Hc Hr. destruct (wf_queue _ _ Hwf c Hc) as (Hl & _).
  destruct (wf_nodup _ _ Hwf c Hc) as (Hnd & H0). pose proof (wf_manned s rings c Hwf Hc) as Hm.
  rewrite Hr in *. apply linked_rotate in Hl. split_and!; try done.
  - rewrite app_comm_cons. by rewrite (Permutation_app_comm _ a).
  - set_solver.
  - eapply manned_sub; [done|]. set_solver.
Qed.

Lemma tick_search_run fuel s rings c a q b from :
  wf s rings → 0 ≤ c < zlen (k_sched s) → at_ rings c = a ++ q :: b →
  (length (at_ rings c) ≤ fuel)%nat →
  tick_search fuel c q from s =
    Ok (if from && runb s q then q else first_run s (search_order a q b), s).
Proof.
  intros Hwf Hc Hr Hf. destruct (ring_rotated s rings c a q b Hwf Hc Hr) as (Hl & Hnd & H0 & Hm).
  rewrite Hr, length_app in Hf. simpl in Hf.
  destruct (Hl [] q (b ++ a) eq_refl) as (n & Hn & Hnx & _). simpl in Hnx.
  unfold tick_search, mbind at 1, M_bind at 1, node_at. rewrite Hn.
  unfold mbind at 1, M_bind at 1, sched_at. rewrite aget_ok by done. rewrite bind_Ok.
  assert (n_next n ≠ 0) as Hnz.
  { rewrite Hnx. intros E. apply H0. rewrite <- E.
    pose proof (hd0_in ((b ++ a) ++ [q]) ltac:(by destruct (b ++ a))). set_solver. }
  rewrite (proj2 (Z.eqb_neq _ _) Hnz).
  assert (search_loop fuel c q (n_next n) s = Ok (first_run s (search_order a q b), s)) as Hs.
  { unfold search_order. rewrite Hnx. rewrite hd0_app. apply NoDup_cons in Hnd as [Hq Hnd].
    pose proof (length_app b a). destruct (b ++ a) as [|x l] eqn:Eba; simpl in *.
    - apply (search_loop_run _ _ _ _ q q []); [done| |done|done|set_solver|set_solver|simpl; lia|by left].
      by apply (linked_path_all _ q []).
    - apply (search_loop_run _ _ _ _ q x l); [done| | |set_solver|set_solver|set_solver|lia|by left].
      + by apply (linked_path _ q (x :: l)).
      + eapply manned_sub; [done|set_solver]. }
  destruct from; cbn [andb].
  - unfold mbind, M_bind. rewrite (node_runnable_run s (q :: b ++ a)) by (done || by left).
    destruct (runb s q); [done|]. by rewrite (proj2 (Z.eqb_neq _ _) Hnz).
  - unfold mbind, M_bind, mret, M_ret. by rewrite (proj2 (Z.eqb_neq _ _) Hnz).
Qed.

(** After the current node has left the ring. *)
Lemma tick_search_gone fuel s rings c q n from :
  wf s rings → 0 ≤ c < zlen (k_sched s) → q ∉ at_ rings c → q ≠ 0 →
  k_nodes s !! q = Some n → n_next n = 0 → (length (at_ rings c) ≤ fuel)%nat →
  (from = true → runb s q = false ∧ ∃ t, k_threads s !! n_thread n = Some t ∧ n_thread n ≠ 0) →
  (∃ y, y ∈ at_ rings c ∧ runb s y = true) →
  tick_search fuel c q from s = Ok (first_run s (at_ rings c), s).
Proof.
  intros Hwf Hc Hq Hq0 Hn Hnx Hf Hfrom Hex.
  destruct (wf_queue _ _ Hwf c Hc) as (Hl & Hh & _). destruct (wf_nodup _ _ Hwf c Hc) as (Hnd & H0).
  pose proof (wf_manned s rings c Hwf Hc) as Hm.
  unfold tick_search, mbind at 1, M_bind at 1, node_at. rewrite Hn.
  unfold mbind at 1, M_bind at 1, sched_at. rewrite aget_ok by done. rewrite bind_Ok. rewrite Hnx, Hh. simpl.
  destruct (at_ rings c) as [|x l] eqn:Er; [by destruct Hex as (? & ?%elem_of_nil & _)|].
  change (hd0 (x :: l)) with x. assert (x ≠ 0) as Hx by set_solver.
  assert (search_loop fuel c q x s = Ok (first_run s (x :: l), s)) as Hs.
  { apply (search_loop_run _ _ _ _ x x l); [done| |done|done|done|set_solver|done|by right].
    by apply (linked_path_all _ x l). }
  destruct from.
  - destruct (Hfrom eq_refl) as (Hr & t & Ht & Htz).
    unfold mbind, M_bind, node_runnable, node_at. unfold mbind, M_bind. rewrite Hn.
    rewrite (proj2 (Z.eqb_neq _ _) Htz). unfold thread_at. rewrite Ht.
    unfold runb in Hr. rewrite Hn, Ht in Hr. unfold mret, M_ret. rewrite Hr.
    by rewrite (proj2 (Z.eqb_neq _ _) Hx).
  - unfold mbind, M_bind, mret, M_ret. by rewrite (proj2 (Z.eqb_neq _ _) Hx).
Qed.

Lemma search_loop_spins fuel s rings c start : ∀ x,
  wf s rings → 0 ≤ c < zlen (k_sched s) → start ∉ at_ rings c → x ∈ at_ rings c →
  (∀ y, y ∈ at_ rings c → runb s y = false) →
  search_loop fuel c start x s = NoFuel.
Proof.
  induction fuel as [|fuel IH]; intros x Hwf Hc Hst Hx Hn; [done|].
  pose proof (wf_manned s rings c Hwf Hc) as Hm. destruct (Hm x Hx) as (n & t & Hnx & _).
  destruct (list_elem_of_split _ _ Hx) as (a & b & Hr).
  destruct (ring_links s rings c a x b Hwf Hc Hr) as (n' & Hn' & Hnext & _ & _ & _ & Hx0 & _).
  rewrite Hnx in Hn'. injection Hn' as <-.
  assert (n_next n ∈ at_ rings c) as Hin.
  { rewrite Hnext, Hr. assert (hd0 (b ++ a ++ [x]) ∈ b ++ a ++ [x]) as Hi by (apply hd0_in; by destruct b, a).
    set_solver. }
  simpl. unfold mbind at 1, M_bind at 1. rewrite (node_runnable_run s _ x Hm Hx), (Hn x Hx).
  unfold mbind at 1, M_bind at 1, node_at. rewrite Hnx.
  unfold mbind at 1, M_bind at 1, sched_at. rewrite aget_ok by done. rewrite bind_Ok.
  assert (n_next n ≠ 0) as H0.
  { intros E. rewrite E in Hin. by apply (wf_nodup _ _ Hwf c Hc). }
  rewrite (proj2 (Z.eqb_neq _ _) H0).
  assert (n_next n ≠ start) as Hs by (intros E; by rewrite E in Hin).
  rewrite (proj2 (Z.eqb_neq _ _) Hs). by apply IH.
Qed.

(** After the current node has left a ring of which no node can run. *)
Lemma tick_search_spins fuel s rings c q n from :
  wf s rings → 0 ≤ c < zlen (k_sched s) → q ∉ at_ rings c → at_ rings c ≠ [] →
  k_nodes s !! q = Some n → n_next n = 0 →
  (from = true → runb s q = false ∧ ∃ t, k_threads s !! n_thread n = Some t ∧ n_thread n ≠ 0) →
  (∀ y, y ∈ at_ rings c → runb s y = false) →
  tick_search fuel c q from s = NoFuel.
Proof.
  intros Hwf Hc Hq Hne Hn Hnx Hfrom Hr. destruct (wf_queue _ _ Hwf c Hc) as (_ & Hh & _).
  unfold tick_search, mbind at 1, M_bind at 1, node_at. rewrite Hn.
  unfold mbind at 1, M_bind at 1, sched_at. rewrite aget_ok by done. rewrite bind_Ok, Hnx, Hh. simpl.
  assert (hd0 (at_ rings c) ∈ at_ rings c) as Hin by (by apply hd0_in).
  assert (hd0 (at_ rings c) ≠ 0) as H0.
  { intros E. rewrite E in Hin. by apply (wf_nodup _ _ Hwf c Hc). }
  destruct from.
  - destruct (Hfrom eq_refl) as (Hrq & t & Ht & Htz).
    unfold mbind, M_bind, node_runnable, node_at. unfold mbind, M_bind. rewrite Hn.
    rewrite (proj2 (Z.eqb_neq _ _) Htz). unfold thread_at. rewrite Ht.
    unfold runb in Hrq. rewrite Hn, Ht in Hrq. unfold mret, M_ret. rewrite Hrq.
    rewrite (proj2 (Z.eqb_neq _ _) H0). by apply (search_loop_spins fuel s rings).
  - unfold mbind, M_bind, mret, M_ret. rewrite (proj2 (Z.eqb_neq _ _) H0). by apply (search_loop_spins fuel s rings).
Qed.

(** ** Sleepers *)

(** A timed sleeper whose time has come becomes ready. *)
Definition wake_thread (now : Z) (t : thread) : thread :=
  if (t_state t =? THREAD_STATE_BLOCKED) && negb (t_wakeup_time t =? 0) && (t_wakeup_time t <=? now)
  then set_t_wake_pending true (set_t_wakeup_time 0 (set_t_state THREAD_STATE_READY t)) else t.

Definition thread_of (nodes : gmap Z node) (q : Z) : Z := from_option n_thread 0 (nodes !! q).

Definition wake_ring (now : Z) (nodes : gmap Z node) (l : list Z) (m : gmap Z thread) : gmap Z thread :=
  foldl (λ m q, alter (wake_thread now) (thread_of nodes q) m) m l.

Lemma wake_thread_idem now t : wake_thread now (wake_thread now t) = wake_thread now t.
Proof.
  unfold wake_thread at 2 3. destruct (_ && _ && _) eqn:E; [done|]. unfold wake_thread. by rewrite E.
Qed.

Lemma wake_ring_lookup now nodes l m t :
  wake_ring now nodes l m !! t =
    (if decide (t ∈ thread_of nodes <$> l) then wake_thread now else id) <$> m !! t.
Proof.
  revert m. induction l as [|q l IH]; intros m; cbn [wake_ring foldl fmap list_fmap].
  - destruct (decide _) as [Hin|]; [by apply not_elem_of_nil in Hin|]. by rewrite option_fmap_id.
  - fold (wake_ring now nodes l (alter (wake_thread now) (thread_of nodes q) m)). rewrite IH, lookup_alter_fmap. rewrite <- option_fmap_compose.
    destruct (m !! t) as [x|]; [|done]. simpl. f_equal.
    destruct (decide (thread_of nodes q = t)), (decide (t ∈ thread_of nodes <$> l)),
      (decide (t ∈ thread_of nodes q :: (thread_of nodes <$> l))); try set_solver; simpl; try done.
    apply wake_thread_idem.
Qed.

Lemma alter_fix {A} (f : A → A) (m : gmap Z A) t x : m !! t = Some x → f x = x → alter f t m = m.
Proof.
  intros Hx Hf. apply map_eq. intros i. rewrite lookup_alter. case_decide as E; [|done].
  subst. rewrite Hx. simpl. by rewrite Hf.
Qed.

Lemma wake_node_run s n t now :
  n_thread n ≠ 0 → k_threads s !! n_thread n = Some t →
  wake_node n now s = Ok ((), set_k_threads (alter (wake_thread now) (n_thread n) (k_threads s)) s).
Proof.
  intros Hz Ht. enough (wp (wake_node n now) s (λ _ s',
    s' = set_k_threads (alter (wake_thread now) (n_thread n) (k_threads s)) s)) as Hw.
  { apply wp_elim in Hw as ([] & ? & Hw & ->). done. }
  unfold wake_node. rewrite (proj2 (Z.eqb_neq _ _) Hz). apply wp_bind, (wp_thread_at _ t); [done|].
  apply wp_when; intros E.
  - apply wp_set_thread; [done|]. f_equal. apply map_eq. intros i. rewrite !lookup_alter.
    case_decide; [|done]. subst. rewrite Ht. simpl. unfold wake_thread. by rewrite E.
  - rewrite (alter_fix _ _ _ t Ht); [by destruct s|]. unfold wake_thread. by rewrite E.
Qed.

Lemma tick_wakeups_run fuel s head x l now :
  path (k_nodes s) (x :: l) head → manned s (x :: l) → 0 ∉ x :: l → head ≠ 0 → head ∉ l →
  (length l < fuel)%nat →
  tick_wakeups fuel head x now s =
    Ok ((), set_k_threads (wake_ring now (k_nodes s) (x :: l) (k_threads s)) s).
Proof.
  revert fuel x s. induction l as [|y l IH]; intros fuel x s Hp Hm H0 Hh Hhl Hf;
    (destruct fuel as [|fuel]; [simpl in Hf; lia|]); cbn [tick_wakeups];
    destruct (Hm x ltac:(by left)) as (n & t & Hn & Hz & Ht);
    destruct Hp as [(n' & Hn' & Hnx) Hp]; rewrite Hn in Hn'; injection Hn' as <-;
    unfold mbind, M_bind, node_at; rewrite Hn, (wake_node_run s n t) by done; rewrite Hnx;
    assert (thread_of (k_nodes s) x = n_thread n) as Ex by (unfold thread_of; by rewrite Hn).
  - change (hd0 ([] ++ [head])) with head. rewrite Z.eqb_refl, orb_true_r. simpl. by rewrite Ex.
  - change (hd0 ((y :: l) ++ [head])) with y. assert (y ≠ 0 ∧ y ≠ head) as [Hy1 Hy2] by set_solver.
    rewrite (proj2 (Z.eqb_neq _ _) Hy1), (proj2 (Z.eqb_neq _ _) Hy2). cbn [orb].
    rewrite IH; [simpl; by rewrite Ex|done| |set_solver|done|set_solver|simpl in Hf; lia].
    intros q Hq. destruct (Hm q ltac:(set_solver)) as (nq & tq & ? & ? & Htq).
    eexists nq, _. simpl. rewrite lookup_alter_fmap, Htq. split_and!; done.
Qed.

(** The sleepers of the whole ring of core [c]. *)
Lemma tick_wakeups_ring fuel s rings c now :
  wf s rings → 0 ≤ c < zlen (k_sched s) → at_ rings c ≠ [] → (length (at_ rings c) ≤ fuel)%nat →
  tick_wakeups fuel (sc_head (at_ (k_sched s) c)) (sc_head (at_ (k_sched s) c)) now s =
    Ok ((), set_k_threads (wake_ring now (k_nodes s) (at_ rings c) (k_threads s)) s).
Proof.
  intros Hwf Hc Hne Hf. destruct (wf_queue _ _ Hwf c Hc) as (Hl & Hh & _).
  destruct (wf_nodup _ _ Hwf c Hc) as (Hnd & H0). pose proof (wf_manned s rings c Hwf Hc) as Hm.
  rewrite Hh. destruct (at_ rings c) as [|x l]; [done|]. change (hd0 (x :: l)) with x.
  apply NoDup_cons in Hnd as [Hx _].
  apply tick_wakeups_run; try done; [by apply linked_path_all|set_solver].
Qed.

(** Waking keeps the invariant. *)
Lemma wf_wake_ring s rings c now :
  wf s rings → wf (set_k_threads (wake_ring now (k_nodes s) (at_ rings c) (k_threads s)) s) rings.
Proof.
  intros Hwf. assert (∀ x, t_core_affinity (wake_thread now x) = t_core_affinity x ∧
    (valid_thread s x → valid_thread s (wake_thread now x))) as Hk.
  { intros x. unfold wake_thread. by destruct (_ && _ && _). }
  constructor; simpl; try apply Hwf.
  - intros d q n Hd Hq Hn. destruct (wf_node _ _ Hwf d q n Hd Hq Hn) as (t & Ht & Ha).
    rewrite wake_ring_lookup, Ht. eexists. split; [done|]. destruct (decide _); [|done].
    by destruct (Hk t) as [-> _].
  - intros t x. rewrite wake_ring_lookup. intros (x0 & Hx & ->)%fmap_Some.
    destruct (wf_threads _ _ Hwf t x0 Hx) as [? Hv]. split; [done|].
    destruct (decide _); [|done]. by apply Hk.
  - intros d Hd. rewrite wake_ring_lookup, fmap_is_Some. by apply (wf_active _ _ Hwf).
Qed.

(** ** The context switch *)

(** A thread up to its run-time accounting. *)
Definition untimed (t : thread) : thread :=
  set_t_last_run_time 0 (set_t_total_run_time_ns 0 (set_t_has_update_run_time false t)).

(** The queues, the frame and the contexts of the threads are the same. *)
Definition quiet (s s' : ks) : Prop :=
  k_nodes s' = k_nodes s ∧ k_sched s' = k_sched s ∧ k_frame s' = k_frame s ∧
  k_procs s' = k_procs s ∧ length (k_cores s') = length (k_cores s) ∧
  ∀ t, untimed <$> k_threads s' !! t = untimed <$> k_threads s !! t.

Lemma quiet_refl s : quiet s s.
Proof. done. Qed.

Lemma quiet_trans s1 s2 s3 : quiet s1 s2 → quiet s2 s3 → quiet s1 s3.
Proof.
  intros (? & ? & ? & ? & ? & Hq1) (? & ? & ? & ? & ? & Hq2).
  split_and!; try congruence; intros t; by rewrite Hq2.
Qed.

Lemma quiet_thread s s' t x : quiet s s' → k_threads s !! t = Some x →
  ∃ x', k_threads s' !! t = Some x' ∧ untimed x' = untimed x.
Proof.
  intros (_ & _ & _ & _ & _ & Ht) Hx. specialize (Ht t). rewrite Hx in Ht.
  destruct (k_threads s' !! t) as [x'|]; [|done]. exists x'. split; [done|]. by apply (inj Some) in Ht.
Qed.

(** An update of accounting fields only. *)
Lemma quiet_time s t f :
  (∀ x, untimed (f x) = untimed x) → quiet s (set_k_threads (alter f t (k_threads s)) s).
Proof.
  intros Hf. split_and!; try done. intros i. simpl. rewrite lookup_alter_fmap.
  destruct (k_threads s !! i) as [x|]; [|done]. simpl. f_equal. by destruct (decide _); [apply Hf|].
Qed.

Lemma quiet_core s c f : quiet s (set_k_cores (<[c := f]> (k_cores s)) s).
Proof. split_and!; try done. simpl. apply length_insert. Qed.

Lemma quiet_fpus s x : quiet s (set_k_fpus x s).
Proof. done. Qed.

Lemma quiet_reads s x : quiet s (set_k_reads x s).
Proof. done. Qed.

(** The fields of [untimed] that matter. *)
Lemma untimed_eq x x' : untimed x' = untimed x →
  t_core_affinity x' = t_core_affinity x ∧ t_state x' = t_state x ∧ t_flags x' = t_flags x ∧
  t_current_core_id x' = t_current_core_id x ∧ t_process x' = t_process x ∧
  t_fs_base x' = t_fs_base x ∧ t_gs_base x' = t_gs_base x ∧ t_kernel_rsp x' = t_kernel_rsp x ∧
  t_kernel_stack_top x' = t_kernel_stack_top x ∧ t_in_kernel_sleep x' = t_in_kernel_sleep x ∧
  t_wake_pending x' = t_wake_pending x ∧ t_signal x' = t_signal x ∧ t_reg x' = t_reg x ∧
  t_wakeup_time x' = t_wakeup_time x ∧ t_fpu_state x' = t_fpu_state x.
Proof. destruct x, x'. unfold untimed. simpl. intros [=]. by subst. Qed.

Lemma keeps_time s f : (∀ x, untimed (f x) = untimed x) → keeps s f.
Proof.
  intros Hf x. specialize (Hf x). destruct (untimed_eq _ _ Hf) as (-> & _ & _ & Hc & Hp & _ & _ & _ & _ & _ & _ & Hs & _ & _ & Hu).
  split; [done|]. unfold valid_thread. by rewrite Hc, Hp, Hs, Hu.
Qed.

(** What the switch leaves on the core. *)
Definition switched (s' : ks) (c next : Z) (n : thread) : Prop :=
  co_active_thread (at_ (k_cores s') c) = next ∧
  co_kernel_rsp (at_ (k_cores s') c) = t_kernel_stack_top n ∧
  co_next_is_user (at_ (k_cores s') c) = (if Z.land (t_flags n) THREAD_USER =? 0 then 0 else 1) ∧
  co_fs (at_ (k_cores s') c) = t_fs_base n ∧ co_kgs (at_ (k_cores s') c) = t_gs_base n.

(** The state after a step, with its invariant and its relation to [s0]. *)
Definition stays (s0 s : ks) (rings : list (list Z)) : Prop := wf s rings ∧ quiet s0 s.

Lemma stays_thread s0 s rings t f :
  stays s0 s rings → (∀ x, untimed (f x) = untimed x) →
  stays s0 (set_k_threads (alter f t (k_threads s)) s) rings.
Proof.
  intros [Hwf Hq] Hf. split; [by apply wf_set_thread; [|apply keeps_time]|].
  eapply quiet_trans; [done|]. by apply quiet_time.
Qed.

Lemma stays_core s0 s rings c f :
  stays s0 s rings → 0 ≤ c < zlen (k_sched s) →
  (co_active_thread (f (at_ (k_cores s) c)) = co_active_thread (at_ (k_cores s) c) ∨
   co_active_thread (f (at_ (k_cores s) c)) = 0 ∨
   is_Some (k_threads s !! co_active_thread (f (at_ (k_cores s) c)))) →
  stays s0 (set_k_cores (<[Z.to_nat c := f (at_ (k_cores s) c)]> (k_cores s)) s) rings.
Proof.
  intros [Hwf Hq] Hc Ha. split; [by apply wf_set_core|].
  eapply quiet_trans; [done|]. by apply quiet_core.
Qed.

Lemma stays_reads s0 s rings n : stays s0 s rings → stays s0 (set_k_reads n s) rings.
Proof. intros [? ?]. split; [by apply wf_reads|done]. Qed.

Lemma stays_fpus s0 s rings a x :
  stays s0 s rings → stays s0 (set_k_fpus (<[a := x]> (k_fpus s)) s) rings.
Proof. intros [? ?]. split; [by apply wf_fpus|done]. Qed.

(** Rules that forget how the state was computed. *)
Lemma wp_stay_core s0 s rings c d f (Q : () → ks → Prop) :
  stays s0 s rings → 0 ≤ d < zlen (k_sched s0) → 0 ≤ c < zlen (k_sched s0) →
  (∀ x, co_active_thread (f x) = co_active_thread x) →
  (∀ s', stays s0 s' rings → k_threads s' = k_threads s → k_fpus s' = k_fpus s →
     at_ (k_cores s') c = (if decide (d = c) then f else id) (at_ (k_cores s) c) → Q () s') →
  wp (set_core d f) s Q.
Proof.
  intros Hst Hd Hc Hf HQ. pose proof Hst as [Hwf (_ & Hs & _)]. pose proof (wf_cores _ _ Hwf).
  rewrite Hs in *. apply wp_set_core; [lia|]. apply HQ; try done.
  - apply stays_core; [done|by rewrite Hs|]. left. apply Hf.
  - simpl. rewrite at_insert by lia. case_decide; [by subst|done].
Qed.

Lemma wp_stay_here s0 s rings c f (Q : () → ks → Prop) :
  stays s0 s rings → 0 ≤ c < zlen (k_sched s0) →
  (∀ x, co_active_thread (f x) = co_active_thread x ∨ is_Some (k_threads s !! co_active_thread (f x))) →
  (∀ s', stays s0 s' rings → k_threads s' = k_threads s → k_fpus s' = k_fpus s →
     at_ (k_cores s') c = f (at_ (k_cores s) c) → Q () s') →
  wp (set_core c f) s Q.
Proof.
  intros Hst Hc Hf HQ. pose proof Hst as [Hwf (_ & Hs & _)]. pose proof (wf_cores _ _ Hwf).
  rewrite Hs in *. apply wp_set_core; [lia|]. apply HQ; try done.
  - apply stays_core; [done|by rewrite Hs|]. destruct (Hf (at_ (k_cores s) c)); auto.
  - simpl. apply at_insert_eq. lia.
Qed.

Lemma wp_stay_time s0 s rings t f (Q : () → ks → Prop) :
  stays s0 s rings → is_Some (k_threads s !! t) → (∀ x, untimed (f x) = untimed x) →
  (∀ s', stays s0 s' rings → k_cores s' = k_cores s → k_fpus s' = k_fpus s →
     (∀ i, is_Some (k_threads s' !! i) ↔ is_Some (k_threads s !! i)) → Q () s') →
  wp (set_thread t f) s Q.
Proof.
  intros Hst Ht Hf HQ. apply wp_set_thread; [done|]. apply HQ; try done.
  - by apply stays_thread.
  - intros i. simpl. apply lookup_alter_is_Some.
Qed.

Lemma stays_bounds s0 s rings c :
  stays s0 s rings → 0 ≤ c < zlen (k_sched s0) →
  0 ≤ c < zlen (k_sched s) ∧ 0 ≤ c < zlen (k_cores s) ∧ zlen (k_cores s) = zlen (k_sched s0).
Proof. intros [Hwf (_ & Hs & _)] Hc. pose proof (wf_cores _ _ Hwf). rewrite Hs in *. lia. Qed.

Lemma stays_lookup s0 s rings t x :
  stays s0 s rings → k_threads s0 !! t = Some x →
  ∃ x', k_threads s !! t = Some x' ∧ untimed x' = untimed x ∧ valid_thread s x'.
Proof.
  intros [Hwf Hq] Hx. destruct (quiet_thread _ _ _ _ Hq Hx) as (x' & Hx' & Hu).
  exists x'. split_and!; try done. by apply (wf_threads _ _ Hwf t).
Qed.

(** The accounting of the thread that leaves: only times change. *)
Lemma switch_charge s0 s rings prev next now (Q : () → ks → Prop) :
  stays s0 s rings → (prev = 0 ∨ is_Some (k_threads s !! prev)) →
  (∀ s', stays s0 s' rings → k_cores s' = k_cores s → k_fpus s' = k_fpus s → Q () s') →
  wp (if negb (prev =? 0) && negb (prev =? next) then
        p ← thread_at prev;
        when (t_has_update_run_time p)
          (set_thread prev (λ p, set_t_has_update_run_time false
            (set_t_total_run_time_ns (u64 (t_total_run_time_ns p + elapsed now p)) p)))
      else mret ()) s Q.
Proof.
  intros Hst Hp HQ. apply wp_if; intros E; [|apply wp_ret; by apply HQ].
  apply andb_prop in E as [E _]. destruct (Z.eqb_spec prev 0); [done|].
  destruct Hp as [|[x Hx]]; [done|]. apply wp_bind, (wp_thread_at _ x); [done|].
  apply wp_when; intros _; [|by apply HQ].
  eapply wp_stay_time; [done|by eexists|by intros []|]. intros. by apply HQ.
Qed.

Lemma stays_some s0 s rings t : stays s0 s rings → is_Some (k_threads s !! t) ↔ is_Some (k_threads s0 !! t).
Proof.
  intros [_ (_ & _ & _ & _ & _ & Ht)]. specialize (Ht t).
  destruct (k_threads s !! t), (k_threads s0 !! t); try done.
Qed.

Lemma scheduler_resume_switch_spec s rings c next n :
  wf s rings → 0 ≤ c < zlen (k_sched s) → k_threads s !! next = Some n →
  wp (scheduler_resume_switch c next) s (λ _ s', stays s s' rings ∧ switched s' c next n).
Proof.
  intros Hwf Hc Hn. assert (stays s s rings) as Hst by done.
  destruct (stays_bounds _ _ _ _ Hst Hc) as (_ & Hcc & _).
  unfold scheduler_resume_switch. apply wp_bind, wp_core_at; [done|].
  set (prev := co_active_thread (at_ (k_cores s) c)).
  assert (prev = 0 ∨ is_Some (k_threads s !! prev)) as Hprev by (by apply (wf_active _ _ Hwf)).
  apply wp_bind. unfold wp at 1, vxHPETGetMainCount. set (now := hpet_count (k_reads s)).
  assert (stays s (set_k_reads (Datatypes.S (k_reads s)) s) rings) as Hst1 by (by apply stays_reads).
  set (s1 := set_k_reads _ s) in *. clearbody s1. clear Hst.
  apply wp_bind, (switch_charge s s1 rings); [done|rewrite (stays_some _ _ _ prev Hst1); done|].
  intros s2 Hst Hk1 Hk2. clear s1 Hst1 Hk1 Hk2.
  destruct (stays_lookup _ _ _ _ _ Hst Hn) as (n2 & Hn2 & Hu2 & _).
  apply wp_bind, (wp_thread_at _ n2); [done|].
  apply wp_bind, (wp_mono _ _ (λ _ s', stays s s' rings)).
  { apply wp_when; intros _; [|done]. eapply wp_stay_time; [done|by eexists|by intros []|]. done. }
  clear s2 Hst n2 Hn2 Hu2. intros [] s3 Hst.
  apply wp_bind, (wp_mono _ _ (λ _ s', stays s s' rings)).
  { apply wp_if; intros E; [|done]. apply andb_prop in E as [E _]. destruct (Z.eqb_spec prev 0); [done|].
    rewrite <- (stays_some _ _ _ prev Hst) in Hprev. destruct Hprev as [|[p Hp]]; [done|].
    apply wp_bind, (wp_thread_at _ p); [done|]. apply wp_when; intros _; [|done].
    apply wp_bind, wp_core_at; [by apply (stays_bounds _ _ _ c Hst)|]. apply wp_modify. by apply stays_fpus. }
  clear s3 Hst. intros [] s3 Hst.
  destruct (stays_lookup _ _ _ _ _ Hst Hn) as (n3 & Hn3 & Hu3 & Hv3).
  destruct (untimed_eq _ _ Hu3) as (_ & _ & Efl & _ & Epr & Efs & Egs & _ & Eks & _ & _ & _ & _ & _ & Efp).
  apply wp_bind, (wp_thread_at _ n3); [done|]. destruct Hv3 as (Hvp & Hvf & _ & Hvc).
  apply wp_bind. eapply (wp_stay_core s s3 rings c); [done|destruct (stays_bounds _ _ _ c Hst); lia|done|done|].
  intros s4 Hst4 Ht4 Hf4 _. rewrite <- Ht4, <- Hf4 in *. clear Ht4 Hf4.
  apply wp_bind. eapply (wp_stay_here s s4 rings); [done|done|by left|].
  intros s5 Hst5 Ht5 Hf5 Hc5. rewrite <- Ht5, <- Hf5 in *. clear Ht5 Hf5.
  apply wp_bind. eapply (wp_stay_here s s5 rings); [done|done|right; by eexists|].
  intros s6 Hst6 Ht6 Hf6 Hc6. rewrite <- Ht6, <- Hf6 in *. clear Ht6 Hf6.
  apply wp_bind. eapply (wp_stay_here s s6 rings); [done|done|by left|].
  intros s7 Hst7 Ht7 Hf7 Hc7. rewrite <- Ht7, <- Hf7 in *. clear Ht7 Hf7.
  apply wp_bind, (wp_mono _ _ (λ _ s', stays s s' rings ∧
    ∃ x, at_ (k_cores s') c = set_co_fpu x (at_ (k_cores s7) c))).
  { apply wp_when; intros E.
    - destruct (Z.eqb_spec (t_fpu_state n3) 0); [done|]. destruct Hvf as [|[x Hx]]; [done|].
      apply wp_bind, wp_get. rewrite Hx. eapply (wp_stay_here s s7 rings); [done|done|by left|].
      intros. split; [done|by exists x].
    - split; [done|]. exists (co_fpu (at_ (k_cores s7) c)). by destruct (at_ (k_cores s7) c). }
  intros [] s8 (Hst8 & x & Hc8).
  apply wp_bind. eapply (wp_stay_here s s8 rings); [done|done|by left|]. intros s9 Hst9 _ _ Hc9.
  apply wp_bind. eapply (wp_stay_here s s9 rings); [done|done|by left|]. intros s10 Hst10 _ _ Hc10.
  assert (switched s10 c next n) as Hsw.
  { unfold switched. rewrite Hc10, Hc9, Hc8, Hc7, Hc6, Hc5. simpl. by rewrite Efl, Efs, Egs, Eks. }
  assert (∀ page, wp (paging_reload c page) s10 (λ _ s', stays s s' rings ∧ switched s' c next n)) as Hpg.
  { intros page. eapply (wp_stay_here s s10 rings); [done|done|by left|]. intros s11 Hst11 _ _ Hc11.
    split; [done|]. unfold switched in *. rewrite Hc11. apply Hsw. }
  apply wp_if; intros E; [apply Hpg|].
  destruct (Z.eqb_spec (t_process n3) 0); [done|]. destruct Hvp as [|[page Hp]]; [done|].
  apply wp_bind, wp_get. destruct Hst as [_ (_ & _ & _ & Hpr & _)], Hst10 as [? (? & ? & ? & Hpr10 & ?)].
  rewrite Hpr10, <- Hpr, Hp. apply wp_when; intros _; [apply Hpg|]. done.
Qed.

(** ** Running the chosen thread *)

(** A core up to its lock. *)
Definition sc_view (sc : sched_core) : sched_core := set_sc_lock SPINLOCK_INIT sc.

(** The queues are the same up to locks, and so are the contexts of the
    threads other than [next]. *)
Definition calm (next : Z) (s0 s : ks) (rings : list (list Z)) : Prop :=
  wf s rings ∧ k_nodes s = k_nodes s0 ∧ k_procs s = k_procs s0 ∧
  length (k_sched s) = length (k_sched s0) ∧
  (∀ d, sc_view (at_ (k_sched s) d) = sc_view (at_ (k_sched s0) d)) ∧
  (∀ t, t ≠ next → untimed <$> k_threads s !! t = untimed <$> k_threads s0 !! t).

Lemma stays_calm next s0 s rings : stays s0 s rings → calm next s0 s rings.
Proof.
  intros [Hwf (? & Hs & ? & ? & ? & Ht)]. split_and!; try done; [by rewrite Hs|].
  intros d. by rewrite Hs.
Qed.

Lemma calm_bounds next s0 s rings c :
  calm next s0 s rings → 0 ≤ c < zlen (k_sched s0) →
  0 ≤ c < zlen (k_sched s) ∧ 0 ≤ c < zlen (k_cores s).
Proof. intros (Hwf & _ & _ & Hl & _) Hc. pose proof (wf_cores _ _ Hwf). rewrite Hl in *. lia. Qed.

Lemma wp_calm_core next s0 s rings c f (Q : () → ks → Prop) :
  calm next s0 s rings → 0 ≤ c < zlen (k_sched s0) →
  (∀ x, co_active_thread (f x) = co_active_thread x ∨ is_Some (k_threads s !! co_active_thread (f x))) →
  (∀ s', calm next s0 s' rings → k_threads s' = k_threads s → k_frame s' = k_frame s →
     k_sched s' = k_sched s → at_ (k_cores s') c = f (at_ (k_cores s) c) → Q () s') →
  wp (set_core c f) s Q.
Proof.
  intros Hst Hc Hf HQ. destruct (calm_bounds _ _ _ _ _ Hst Hc) as [Hc1 Hc2].
  destruct Hst as (Hwf & Hr). apply wp_set_core; [lia|]. apply HQ; try done.
  - split; [|done]. apply wf_set_core; [done|done|]. destruct (Hf (at_ (k_cores s) c)); auto.
  - simpl. by apply at_insert_eq.
Qed.

Lemma wp_calm_thread next s0 s rings n f (Q : () → ks → Prop) :
  calm next s0 s rings → k_threads s !! next = Some n → keeps s f →
  (∀ s', calm next s0 s' rings → k_threads s' !! next = Some (f n) → k_frame s' = k_frame s →
     k_sched s' = k_sched s → k_cores s' = k_cores s → Q () s') →
  wp (set_thread next f) s Q.
Proof.
  intros (Hwf & Hn & Hp & Hl & Hv & Ht) Hx Hk HQ. apply wp_set_thread; [done|]. apply HQ; try done.
  - split_and!; try done; [by apply wf_set_thread|]. intros t Hne. simpl. by rewrite lookup_alter_ne, Ht.
  - simpl. by rewrite lookup_alter_eq, Hx.
Qed.

Lemma calm_frame next s0 s rings f : calm next s0 s rings → calm next s0 (set_k_frame f s) rings.
Proof. intros (Hwf & Hr). split; [by apply wf_frame|done]. Qed.

Lemma calm_lock next s0 s rings c l :
  calm next s0 s rings → 0 ≤ c < zlen (k_sched s0) → calm next s0 (with_lock c l s) rings.
Proof.
  intros Hc Hb. destruct (calm_bounds _ _ _ _ _ Hc Hb) as [Hc1 _].
  destruct Hc as (Hwf & Hn & Hp & Hl & Hv & Ht). split_and!; try done; simpl.
  - by apply wf_with_lock.
  - by rewrite length_insert.
  - intros d. unfold at_ in *. rewrite list_lookup_total_insert. case_decide as E; [|by apply Hv].
    destruct E as [<- _]. rewrite <- Hv. done.
Qed.

Lemma wp_calm_release next s0 s rings c (Q : () → ks → Prop) :
  calm next s0 s rings → 0 ≤ c < zlen (k_sched s0) → lock_held c s →
  (∀ s', calm next s0 s' rings → k_threads s' = k_threads s → k_frame s' = k_frame s →
     k_cores s' = k_cores s → lock_free c s' → Q () s') →
  wp (release c) s Q.
Proof.
  intros Hst Hc Hh HQ. destruct (calm_bounds _ _ _ _ _ Hst Hc) as [Hc1 _].
  apply wp_release; [done|done|]. intros l Hl. apply HQ; try done. by apply calm_lock.
Qed.

Lemma reload_for_spec next s0 s rings c n (Q : () → ks → Prop) :
  calm next s0 s rings → 0 ≤ c < zlen (k_sched s0) → k_threads s !! next = Some n →
  (∀ s' page, calm next s0 s' rings → k_threads s' = k_threads s → k_frame s' = k_frame s →
     k_sched s' = k_sched s → at_ (k_cores s') c = set_co_cr3 page (at_ (k_cores s) c) → Q () s') →
  wp (reload_for c next) s Q.
Proof.
  intros Hst Hc Hn HQ. unfold reload_for. destruct (calm_bounds _ _ _ _ _ Hst Hc) as [_ Hc2].
  pose proof Hst as (Hwf & _). destruct (wf_threads _ _ Hwf _ _ Hn) as (_ & Hv & _).
  apply wp_bind, (wp_thread_at _ n); [done|]. apply wp_bind, wp_core_at; [done|].
  assert (∀ page, wp (paging_reload c page) s Q) as Hpg.
  { intros page. eapply (wp_calm_core next s0 s rings); [done|done|by left|]. intros. by eapply HQ. }
  assert (Q () s) as Hsame.
  { eapply (HQ s (co_cr3 (at_ (k_cores s) c))); try done. by destruct (at_ (k_cores s) c). }
  apply wp_bind, (wp_mono _ _ (λ _ s', s' = s)).
  { apply wp_if; intros E; [done|]. destruct (Z.eqb_spec (t_process n) 0); [done|].
    destruct Hv as [|[page Hp]]; [done|]. apply wp_bind, wp_get. by rewrite Hp. }
  intros page ? ->. apply wp_if; intros E; [apply Hpg|]. by apply wp_when; intros _.
Qed.

Context (sch_idle_loop kernel_context_restore : Z).

(** How [tick_run] leaves, for the thread [n] it runs. *)
Definition run_exit (s s' : ks) (r : tick_exit + Z) (next old : Z) (n : thread) (needs from : bool) : Prop :=
  if t_in_kernel_sleep n then
    r = inl (ContextRestore (t_kernel_rsp n)) ∧ k_frame s' = k_frame s
  else if t_state n =? THREAD_STATE_READY then
    r = inl Iret ∧ k_frame s' = vxRestoreRegister (k_frame s) (t_reg n) ∧
    ∃ n', k_threads s' !! next = Some n' ∧ t_state n' = THREAD_STATE_RUNNING
  else
    r = inr next ∧
    k_frame s' = (if (t_state n =? THREAD_STATE_RUNNING) && needs && (negb (next =? old) || from)
                  then vxRestoreRegister (k_frame s) (t_reg n) else k_frame s) ∧
    ∃ n', k_threads s' !! next = Some n' ∧ t_state n' = t_state n.

Lemma keeps_core_id s c : 0 ≤ c < zlen (k_cores s) → keeps s (set_t_current_core_id c).
Proof. intros Hc x. split; [done|]. by intros (? & ? & ? & _). Qed.

Lemma keeps_state s st : keeps s (set_t_state st).
Proof. done. Qed.

(** A state while [next] is being made the running thread of core [c]: its
    thread object, the frame, and whether the lock is still held. *)
Definition running_at (held : bool) (c next : Z) (s0 : ks) rings (n : thread) (f : interrupt_stack_frame)
    (s : ks) : Prop :=
  calm next s0 s rings ∧ 0 ≤ c < zlen (k_sched s0) ∧
  (if held then lock_held c s else lock_free c s) ∧
  k_threads s !! next = Some n ∧ k_frame s = f ∧ co_active_thread (at_ (k_cores s) c) = next.

Section steps.
Context (held : bool) (c next : Z) (s0 : ks) (rings : list (list Z)).
Context {A : Type}.
Implicit Types Q : A → ks → Prop.

Lemma run_core n f s g (m : M A) Q :
  running_at held c next s0 rings n f s → (∀ x, co_active_thread (g x) = co_active_thread x) →
  (∀ s', running_at held c next s0 rings n f s' → wp m s' Q) → wp (set_core c g ;; m) s Q.
Proof.
  intros (Hst & Hc & Hl & Hn & Hf & Ha) Hg HQ. apply wp_bind.
  eapply wp_calm_core; [done|done|by left|]. intros s' Hst' Ht Hf' Hs Hc'. apply HQ.
  split; [done|split; [done|split; [|split; [by rewrite Ht|split; [by rewrite Hf'|by rewrite Hc', Hg]]]]].
  destruct held; unfold lock_held, lock_free in *; by rewrite Hs.
Qed.

Lemma run_active n f s (m : M A) Q :
  running_at held c next s0 rings n f s →
  (∀ s', running_at held c next s0 rings n f s' → wp m s' Q) →
  wp (set_core c (set_co_active_thread next) ;; m) s Q.
Proof.
  intros (Hst & Hc & Hl & Hn & Hf & Ha) HQ. apply wp_bind.
  eapply wp_calm_core; [done|done|right; by eexists|]. intros s' Hst' Ht Hf' Hs Hc'. apply HQ.
  split; [done|split; [done|split; [|split; [by rewrite Ht|split; [by rewrite Hf'|by rewrite Hc']]]]].
  destruct held; unfold lock_held, lock_free in *; by rewrite Hs.
Qed.

Lemma run_thread n f s g (m : M A) Q :
  running_at held c next s0 rings n f s → keeps s g →
  (∀ s', running_at held c next s0 rings (g n) f s' → wp m s' Q) → wp (set_thread next g ;; m) s Q.
Proof.
  intros (Hst & Hc & Hl & Hn & Hf & Ha) Hg HQ. apply wp_bind.
  eapply wp_calm_thread; [done|done|done|]. intros s' Hst' Ht Hf' Hs Hc'. apply HQ.
  split; [done|split; [done|split; [|split; [done|split; [by rewrite Hf'|by rewrite Hc']]]]].
  destruct held; unfold lock_held, lock_free in *; by rewrite Hs.
Qed.

Lemma run_frame n f s g (m : M A) Q :
  running_at held c next s0 rings n f s →
  (∀ s', running_at held c next s0 rings n g s' → wp m s' Q) → wp (modify (set_k_frame g) ;; m) s Q.
Proof.
  intros (Hst & Hc & Hl & Hn & Hf & Ha) HQ. apply wp_bind, wp_modify, HQ.
  split; [by apply calm_frame|done].
Qed.

Lemma run_thread_at n f s (m : thread → M A) Q :
  running_at held c next s0 rings n f s → wp (m n) s Q → wp (x ← thread_at next; m x) s Q.
Proof. intros (Hst & Hc & Hl & Hn & Hf & Ha) HQ. apply wp_bind. by eapply wp_thread_at. Qed.

Lemma run_get_frame n f s (m : interrupt_stack_frame → M A) Q :
  running_at held c next s0 rings n f s → wp (m f) s Q → wp (x ← get k_frame; m x) s Q.
Proof. intros (Hst & Hc & Hl & Hn & <- & Ha) HQ. by apply wp_bind, wp_get. Qed.

Lemma run_reload n f s (m : M A) Q :
  running_at held c next s0 rings n f s →
  (∀ s', running_at held c next s0 rings n f s' → wp m s' Q) → wp (reload_for c next ;; m) s Q.
Proof.
  intros (Hst & Hc & Hl & Hn & Hf & Ha) HQ. apply wp_bind.
  eapply reload_for_spec; [done..|]. intros s' page Hst' Ht Hf' Hs Hc'. apply HQ.
  split; [done|split; [done|split; [|split; [by rewrite Ht|split; [by rewrite Hf'|by rewrite Hc']]]]].
  destruct held; unfold lock_held, lock_free in *; by rewrite Hs.
Qed.

Lemma run_eoi n f s (m : M A) Q :
  running_at held c next s0 rings n f s →
  (∀ s', running_at held c next s0 rings n f s' → wp m s' Q) → wp (apic_eoi c ;; m) s Q.
Proof.
  intros Hr HQ. unfold apic_eoi.
  assert (0 ≤ c < zlen (k_cores s)) as Hc by
    (destruct Hr as (Hr & Hc & _); by apply (calm_bounds _ _ _ _ c Hr)).
  apply wp_bind, wp_bind, wp_core_at; [done|].
  enough (wp (set_core c (set_co_eoi (co_eoi (at_ (k_cores s) c) + 1)) ;; m) s Q) as Hw.
  { unfold wp, mbind, M_bind in Hw |- *. by destruct (set_core _ _ s) as [[]| |]. }
  by eapply run_core.
Qed.

Lemma run_when (b : bool) n f s (w : M ()) (m : M A) Q :
  running_at held c next s0 rings n f s →
  (b = true → wp (w ;; m) s Q) → (b = false → wp m s Q) → wp (when b w ;; m) s Q.
Proof. intros Hr H1 H2. destruct b; [by apply H1|by apply H2]. Qed.

Lemma run_time n f s (m : Z → M A) Q :
  running_at held c next s0 rings n f s →
  (∀ s' now, running_at held c next s0 rings n f s' → wp (m now) s' Q) →
  wp (now ← vxHPETGetMainCount; m now) s Q.
Proof.
  intros (Hst & Hc & Hl & Hn & Hf & Ha) HQ. apply wp_bind. unfold wp at 1, vxHPETGetMainCount.
  apply HQ. split; [|done]. destruct Hst as (Hwf & Hr). split; [by apply wf_reads|done].
Qed.
End steps.

Lemma wp_unit (m : M ()) s (Q : () → ks → Prop) : wp (m ;; mret ()) s Q → wp m s Q.
Proof. unfold wp, mbind, M_bind. destruct (m s) as [[[] s']| |]; done. Qed.

(** Forget the state before the last step. *)
Ltac next_state := match goal with Hr : running_at _ _ _ _ _ _ _ ?s1 |- _ => clear s1 Hr; intros s1 Hr end.

Lemma run_release c next s0 rings n f s {A} (m : M A) Q :
  running_at true c next s0 rings n f s →
  (∀ s', running_at false c next s0 rings n f s' → wp m s' Q) → wp (release c ;; m) s Q.
Proof.
  intros (Hst & Hc & Hl & Hn & Hf & Ha) HQ. apply wp_bind.
  eapply wp_calm_release; [done..|]. intros s' Hst' Ht Hf' Hc' Hl'. apply HQ.
  split; [done|split; [done|split; [done|split; [by rewrite Ht|split; [by rewrite Hf'|by rewrite Hc']]]]].
Qed.

Lemma tick_run_spec s rings c q nq n old needs from :
  wf s rings → 0 ≤ c < zlen (k_sched s) → lock_held c s →
  k_nodes s !! q = Some nq → k_threads s !! n_thread nq = Some n →
  wp (tick_run kernel_context_restore c q old needs from) s (λ r s',
    calm (n_thread nq) s s' rings ∧ lock_free c s' ∧
    co_active_thread (at_ (k_cores s') c) = n_thread nq ∧
    run_exit s s' r (n_thread nq) old n needs from).
Proof.
  intros Hwf Hc Hlock Hq Hn. set (next := n_thread nq) in *.
  unfold tick_run. apply wp_bind, (wp_node_at _ nq); [done|]. fold next.
  apply wp_bind, (wp_mono _ _ _ _ (scheduler_resume_switch_spec s rings c next n Hwf Hc Hn)).
  intros _ s1 (Hst & Ha & _).
  destruct (stays_lookup _ _ _ _ _ Hst Hn) as (n1 & Hn1 & Hu1 & _).
  destruct (untimed_eq _ _ Hu1) as (_ & Est & _ & _ & _ & _ & _ & Ekr & _ & Esl & _ & _ & Ereg & _ & _).
  assert (running_at true c next s rings n1 (k_frame s) s1) as Hr.
  { pose proof Hst as [_ (_ & E & ? & _)]. split; [by apply stays_calm|]. split; [done|].
    split; [|done]. unfold lock_held. by rewrite E. }
  assert (0 ≤ c < zlen (k_cores s1)) as Hcc by (destruct Hst as [Hw (_ & E & _)]; pose proof (wf_cores _ _ Hw); rewrite E in *; lia).
  clear Hst Hn1 Hu1. eapply run_active; [done|]. clear s1 Hr Ha Hcc. intros s1 Hr.
  eapply run_thread; [done|apply keeps_core_id; destruct Hr as (Hr & _); by apply (calm_bounds _ _ _ _ c Hr)|].
  next_state. eapply run_thread_at; [done|].
  eapply run_core; [done|done|]. next_state.
  unfold run_exit. simpl t_in_kernel_sleep. simpl t_state. simpl t_kernel_rsp. rewrite Esl, Est, Ekr.
  assert (∀ n' f' s', running_at false c next s rings n' f' s' →
    calm next s s' rings ∧ lock_free c s' ∧ co_active_thread (at_ (k_cores s') c) = next ∧
    k_frame s' = f' ∧ k_threads s' !! next = Some n') as Hfin by
    (intros ? ? ? (? & ? & ? & ? & ? & ?); done).
  destruct (t_in_kernel_sleep n).
  - eapply run_core; [done|done|]. next_state.
    eapply run_core; [done|done|]. next_state.
    eapply run_core; [done|done|]. next_state.
    eapply run_core; [done|done|]. next_state.
    eapply run_release; [done|]. next_state.
    eapply run_reload; [done|]. next_state.
    eapply run_eoi; [done|]. next_state.
    apply wp_ret. destruct (Hfin _ _ _ Hr) as (? & ? & ? & ? & ?). done.
  - apply wp_if; intros E.
    + rewrite E.
      eapply run_thread; [done|done|]. next_state.
      eapply run_core; [done|done|]. next_state.
      eapply run_core; [done|done|]. next_state.
      eapply run_get_frame; [done|]. eapply run_frame; [done|]. next_state.
      eapply run_when; [done|intros _|intros _].
      * eapply run_thread; [done|done|]. next_state.
        eapply run_thread_at; [done|].
        eapply run_core; [done|done|]. next_state.
        eapply run_core; [done|done|]. next_state.
        eapply run_reload; [done|]. next_state.
        eapply run_release; [done|]. next_state.
        apply wp_ret. destruct (Hfin _ _ _ Hr) as (? & ? & ? & ? & ?). simpl in *. rewrite Ereg in *. eauto 10.
      * eapply run_thread_at; [done|].
        eapply run_core; [done|done|]. next_state.
        eapply run_core; [done|done|]. next_state.
        eapply run_reload; [done|]. next_state.
        eapply run_release; [done|]. next_state.
        apply wp_ret. destruct (Hfin _ _ _ Hr) as (? & ? & ? & ? & ?). simpl in *. rewrite Ereg in *. eauto 10.
    + simpl in E. rewrite E.
      set (sw := (t_state n =? THREAD_STATE_RUNNING) && needs && (negb (next =? old) || from)).
      apply wp_bind, (wp_mono _ _ (λ _, running_at true c next s rings (set_t_current_core_id c n1)
        (if sw then vxRestoreRegister (k_frame s) (t_reg n) else k_frame s))).
      { apply wp_when; intros Esw; rewrite Esw; [|done].
        eapply run_get_frame; [done|]. eapply run_frame; [done|]. next_state.
        eapply run_core; [done|done|]. next_state.
        eapply run_core; [done|done|]. next_state.
        eapply run_core; [done|done|]. next_state.
        eapply run_core; [done|done|]. next_state.
        apply wp_unit. eapply run_reload; [done|]. next_state. simpl in Hr. by rewrite Ereg in Hr. }
      intros _. next_state.
      apply wp_bind, (wp_mono _ _ (λ _ s', ∃ n', t_state n' = t_state n ∧ running_at true c next s rings n'
        (if sw then vxRestoreRegister (k_frame s) (t_reg n) else k_frame s) s')).
      { apply wp_if; intros _; [|by exists (set_t_current_core_id c n1)].
        eapply run_time; [done|]. intros s2 now Hr2. apply wp_unit.
        eapply run_thread; [done|by apply keeps_time; intros []|]. intros s3 Hr3. apply wp_ret. eexists. split; [|exact Hr3]. done. }
      clear s1 Hr. intros _ s1 (n' & Hn' & Hr).
      eapply run_release; [done|]. next_state.
      apply wp_ret. destruct (Hfin _ _ _ Hr) as (? & ? & ? & ? & ?). eauto 10.
Qed.
End tick.
