(* ===== verification/SchedThm.v ===== *)
(** * Theorems about the scheduler

    The accounting step of the tick, the whole tick, and the properties of
    the run queue, of round-robin selection and of preemption. *)

From S2P Require Import Prelude Spinlock Cpu Signal SchedState Sched SchedQueue SchedWf SchedTick.

Section thm.
Context `{Platform}.
Context (sch_idle_loop kernel_context_restore : Z).

(** ** Accounting *)

(** The active thread after [charge_running]. *)
Definition charged (f : interrupt_stack_frame) (co : core) (now : Z) (from needs : bool) (a : thread) : thread :=
  let a := if from then a
           else set_t_gs_base (co_kgs co) (set_t_fs_base (co_fs co)
                  (set_t_reg (vxSaveRegister f (t_reg a)) a)) in
  if (VOXIA_MAX_SCHEDULER_TIME_MS <? elapsed now a / 1000000) || needs
  then set_t_state THREAD_STATE_READY (set_t_has_update_run_time false
         (set_t_total_run_time_ns (u64 (t_total_run_time_ns a + elapsed now a)) a))
  else a.

(** The time slice of [a] is over at [now]. *)
Definition slice_over (now : Z) (a : thread) : bool :=
  VOXIA_MAX_SCHEDULER_TIME_MS <? elapsed now a / 1000000.

Lemma alter_alter {A} (f g : A → A) (m : gmap Z A) i : alter f i (alter g i m) = alter (f ∘ g) i m.
Proof.
  apply map_eq. intros j. rewrite !lookup_alter. case_decide; [subst|done].
  rewrite decide_True by done. by destruct (m !! j).
Qed.

Lemma alter_ext_at {A} (f g : A → A) (m : gmap Z A) i x :
  m !! i = Some x → f x = g x → alter f i m = alter g i m.
Proof. intros Hx He. apply alter_ext. intros y Hy. rewrite Hx in Hy. by injection Hy as <-. Qed.

Lemma set_threads_twice m m' s : set_k_threads m (set_k_threads m' s) = set_k_threads m s.
Proof. done. Qed.

Lemma charge_running_run s c active a now from needs :
  0 ≤ c < zlen (k_cores s) → k_threads s !! active = Some a →
  charge_running c active now from needs s =
    Ok (slice_over now a || needs,
        set_k_threads (alter (charged (k_frame s) (at_ (k_cores s) c) now from needs) active (k_threads s)) s).
Proof.
  intros Hc Ha. set (co := at_ (k_cores s) c).
  set (save := λ t, set_t_gs_base (co_kgs co) (set_t_fs_base (co_fs co)
                      (set_t_reg (vxSaveRegister (k_frame s) (t_reg t)) t))).
  enough (wp (charge_running c active now from needs) s (λ b s', b = slice_over now a || needs ∧
    s' = set_k_threads (alter (charged (k_frame s) co now from needs) active (k_threads s)) s)) as Hw.
  { apply wp_elim in Hw as (? & ? & Hw & -> & ->). done. }
  unfold charge_running.
  apply wp_bind, (wp_mono _ _ (λ _ s', s' = set_k_threads
    (alter (if from then id else save) active (k_threads s)) s)).
  { apply wp_when; intros E; destruct from; try done.
    - apply wp_bind, wp_get. apply wp_bind, wp_set_thread; [done|].
      apply wp_bind, wp_core_at; [done|]. simpl.
      apply wp_bind, wp_set_thread; [simpl; by rewrite lookup_alter_is_Some|].
      apply wp_set_thread; [simpl; by rewrite !lookup_alter_is_Some|]. simpl.
      rewrite !alter_alter. done.
    - rewrite (alter_fix id _ _ a Ha) by done. by destruct s. }
  intros _ ? ->. apply wp_bind, (wp_thread_at _ ((if from then id else save) a)).
  { simpl. by rewrite lookup_alter_eq, Ha. }
  assert (elapsed now ((if from then id else save) a) = elapsed now a) as He by (by destruct from).
  rewrite He. fold (slice_over now a). apply wp_if; intros E.
  - apply wp_bind, wp_set_thread; [simpl; by rewrite lookup_alter_is_Some, Ha|]. apply wp_ret. simpl.
    split; [done|]. rewrite set_threads_twice, alter_alter. f_equal. eapply alter_ext_at; [done|].
    unfold charged. fold co. change (λ t, set_t_gs_base (co_kgs co) (set_t_fs_base (co_fs co)
      (set_t_reg (vxSaveRegister (k_frame s) (t_reg t)) t))) with save.
    assert ((if from then a else save a) = (if from then id else save) a) as Ea by (by destruct from).
    unfold save in Ea at 1. rewrite Ea, He. fold (slice_over now a). rewrite E. by rewrite <- He.
  - apply wp_ret. apply orb_false_iff in E as [E1 E2]. rewrite E1, E2. split; [done|].
    f_equal. eapply alter_ext_at; [done|]. unfold charged. fold co.
    assert ((if from then a else save a) = (if from then id else save) a) as Ea by (by destruct from).
    unfold save in Ea at 1. rewrite Ea, He. fold (slice_over now a). by rewrite E1.
Qed.

(** The active thread after [charge_stopped]. *)
Definition stopped (now : Z) (a : thread) : thread :=
  let a := set_t_has_update_run_time false
             (set_t_total_run_time_ns (u64 (t_total_run_time_ns a + elapsed now a)) a) in
  if t_state a =? THREAD_STATE_TERMINATED then set_t_state THREAD_STATE_HAL a else a.

(** The queue after a terminated current thread left it. *)
Definition without (c q : Z) (nq : node) (s : ks) : ks :=
  set_k_sched (<[Z.to_nat c := detached (at_ (k_sched s) c) q nq]> (k_sched s))
    (set_k_nodes (unlinked (k_nodes s) q nq) s).

Lemma keeps_stopped s now : keeps s (stopped now).
Proof. intros x. unfold stopped. by destruct (_ =? _). Qed.

Lemma keeps_charged s f co now from needs : keeps s (charged f co now from needs).
Proof. intros x. unfold charged. by destruct from, (_ || _). Qed.

Lemma charge_stopped_run s rings c a q b nq active x now :
  wf s rings → 0 ≤ c < zlen (k_sched s) → at_ rings c = a ++ q :: b →
  k_nodes s !! q = Some nq → k_threads s !! active = Some x →
  charge_stopped c active now q s =
    Ok ((), let s1 := set_k_threads (alter (stopped now) active (k_threads s)) s in
            if (t_state x =? THREAD_STATE_TERMINATED) && (active =? n_thread nq)
            then without c q nq s1 else s1).
Proof.
  intros Hwf Hc Hr Hq Hx.
  enough (wp (charge_stopped c active now q) s (λ _ s', s' =
    let s1 := set_k_threads (alter (stopped now) active (k_threads s)) s in
    if (t_state x =? THREAD_STATE_TERMINATED) && (active =? n_thread nq)
    then without c q nq s1 else s1)) as Hw.
  { apply wp_elim in Hw as ([] & ? & Hw & ->). done. }
  unfold charge_stopped. apply wp_bind, wp_set_thread; [done|].
  apply wp_bind, (wp_thread_at _ (set_t_has_update_run_time false
    (set_t_total_run_time_ns (u64 (t_total_run_time_ns x + elapsed now x)) x)));
    [simpl; by rewrite lookup_alter_eq, Hx|]. simpl t_state.
  apply wp_when; intros E; rewrite E; cbn [andb].
  - apply wp_bind, wp_set_thread; [simpl; by rewrite lookup_alter_is_Some, Hx|].
    rewrite set_threads_twice. simpl. rewrite alter_alter.
    rewrite (alter_ext_at _ (stopped now) _ _ x Hx) by (unfold stopped; simpl; by rewrite E).
    apply wp_bind, (wp_node_at _ nq); [done|].
    apply wp_when; intros E2; rewrite E2; [|done].
    eapply wp_intro; [|done]. eapply (vxDeatach_run _ rings); try done.
    apply wf_set_thread; [done|apply keeps_stopped].
  - cbv zeta. f_equal. eapply alter_ext_at; [done|]. unfold stopped. simpl. by rewrite E.
Qed.

(** [from_scheduler]: the interrupt hit the scheduler's own stack. *)
Definition from_stack (c : Z) (s : ks) : bool :=
  (sc_stack (at_ (k_sched s) c) <=? f_rsp (k_frame s)) &&
  (f_rsp (k_frame s) <? u64 (sc_stack (at_ (k_sched s) c) + SCHEDULER_STACK_SIZE)).

(** The first use of a time slice is stamped. *)
Definition stamped (now : Z) (a : thread) : thread :=
  if t_has_update_run_time a then a else set_t_has_update_run_time true (set_t_last_run_time now a).

Definition forced (from : bool) (a : thread) : bool :=
  from && negb (t_in_kernel_sleep a) && runnable_state (t_state a).

(** The active thread after the accounting. *)
Definition accounted (c : Z) (s : ks) (now : Z) (a : thread) : thread :=
  let a1 := stamped now a in
  if t_state a =? THREAD_STATE_RUNNING
  then charged (k_frame s) (at_ (k_cores s) c) now (from_stack c s) (forced (from_stack c s) a) a1
  else if (t_state a =? THREAD_STATE_BLOCKED) || (t_state a =? THREAD_STATE_TERMINATED)
  then stopped now a1 else a1.

(** Whether the tick looks for another thread. *)
Definition wants_switch (c : Z) (s : ks) (now active thr : Z) (a : thread) : bool :=
  let from := from_stack c s in
  let base :=
    if t_state a =? THREAD_STATE_RUNNING then slice_over now (stamped now a) || forced from a
    else if (t_state a =? THREAD_STATE_BLOCKED) || (t_state a =? THREAD_STATE_TERMINATED) then true
    else forced from a in
  if from then base
  else base || negb (t_state (accounted c s now a) =? THREAD_STATE_RUNNING) || negb (active =? thr).

Lemma stamped_state now a : t_state (stamped now a) = t_state a.
Proof. unfold stamped. by destruct (t_has_update_run_time a). Qed.

Lemma keeps_stamped s now : keeps s (stamped now).
Proof. intros x. unfold stamped. by destruct (t_has_update_run_time x). Qed.

Lemma keeps_compose s f g : keeps s f → keeps s g → keeps s (f ∘ g).
Proof. intros Hf Hg x. destruct (Hf (g x)), (Hg x). simpl. split; [congruence|auto]. Qed.

Lemma keeps_accounted s0 c s now : keeps s0 (accounted c s now).
Proof.
  intros x. unfold accounted. cbv zeta. destruct (t_state x =? THREAD_STATE_RUNNING).
  { apply (keeps_compose s0 (charged _ _ _ _ _) (stamped now)); [apply keeps_charged|apply keeps_stamped]. }
  case_match; [|apply keeps_stamped].
  apply (keeps_compose s0 (stopped now) (stamped now)); [apply keeps_stopped|apply keeps_stamped].
Qed.

(** The state after the accounting, but for the release of the lock. *)
Definition after_account (c q : Z) (nq : node) (s : ks) (now active : Z) (a : thread) : ks :=
  let s1 := set_k_threads (alter (accounted c s now) active (k_threads s)) s in
  if (t_state a =? THREAD_STATE_TERMINATED) && (active =? n_thread nq) then without c q nq s1 else s1.

Lemma tick_account_idle s rings c q nq now :
  wf s rings → 0 ≤ c < zlen (k_sched s) → k_nodes s !! q = Some nq →
  co_active_thread (at_ (k_cores s) c) = 0 →
  tick_account c q now s = Ok (Some (negb (from_stack c s), from_stack c s), s).
Proof.
  intros Hwf Hc Hq Ha. pose proof (wf_cores _ _ Hwf).
  unfold tick_account, mbind, M_bind, node_at. rewrite Hq.
  unfold core_at. rewrite aget_ok by lia. rewrite bind_Ok. rewrite Ha.
  unfold sched_at. rewrite aget_ok by lia. rewrite bind_Ok. unfold get. rewrite Z.eqb_refl.
  fold (from_stack c s). by destruct (from_stack c s).
Qed.

(** The rings after the accounting. *)
Definition rings_after (c : Z) (rings : list (list Z)) (a b : list Z) (gone : bool) : list (list Z) :=
  if gone then <[Z.to_nat c := a ++ b]> rings else rings.

Lemma detached_lock sc q n : sc_lock (detached sc q n) = sc_lock sc.
Proof. unfold detached. cbv zeta. by repeat case_match. Qed.

Lemma after_account_ok s rings c a q b nq now active x :
  wf s rings → 0 ≤ c < zlen (k_sched s) → lock_held c s →
  at_ rings c = a ++ q :: b → k_nodes s !! q = Some nq →
  let gone := (t_state x =? THREAD_STATE_TERMINATED) && (active =? n_thread nq) in
  wf (after_account c q nq s now active x) (rings_after c rings a b gone) ∧
  lock_held c (after_account c q nq s now active x) ∧
  length (k_sched (after_account c q nq s now active x)) = length (k_sched s) ∧
  at_ (rings_after c rings a b gone) c = (if gone then a ++ b else a ++ q :: b).
Proof.
  intros Hwf Hc Hl Hr Hq gone. unfold after_account. cbv zeta. fold gone.
  set (s1 := set_k_threads (alter (accounted c s now) active (k_threads s)) s).
  assert (wf s1 rings) as Hwf1 by (apply wf_set_thread; [done|apply keeps_accounted]).
  pose proof (wf_rings _ _ Hwf) as Hrl. unfold rings_after. destruct gone.
  - split_and!.
    + by apply wf_detached.
    + unfold lock_held, without. simpl. rewrite at_insert_eq by done. by rewrite detached_lock.
    + simpl. apply length_insert.
    + apply at_insert_eq. lia.
  - done.
Qed.

Lemma tick_account_run s rings c a q b nq now active x :
  wf s rings → 0 ≤ c < zlen (k_sched s) → lock_held c s →
  at_ rings c = a ++ q :: b → k_nodes s !! q = Some nq →
  co_active_thread (at_ (k_cores s) c) = active → active ≠ 0 → k_threads s !! active = Some x →
  let s1 := after_account c q nq s now active x in
  if (t_state x =? THREAD_STATE_TERMINATED) && (active =? n_thread nq) && bool_decide (a ++ b = []) then
    ∃ l, lock_free c (with_lock c l s1) ∧ tick_account c q now s = Ok (None, with_lock c l s1)
  else
    tick_account c q now s =
      Ok (Some (wants_switch c s now active (n_thread nq) x, from_stack c s), s1).
Proof.
  intros Hwf Hc Hlock Hr Hq Ha Hz Hx s1. pose proof (wf_cores _ _ Hwf) as Hcl.
  assert (0 ≤ c < zlen (k_cores s)) as Hcc by lia.
  set (thr := n_thread nq). set (from := from_stack c s).
  enough (wp (tick_account c q now) s (λ r s',
    if (t_state x =? THREAD_STATE_TERMINATED) && (active =? thr) && bool_decide (a ++ b = [])
    then r = None ∧ ∃ l, lock_free c (with_lock c l s1) ∧ s' = with_lock c l s1
    else r = Some (wants_switch c s now active thr x, from) ∧ s' = s1)) as Hw.
  { apply wp_elim in Hw as (r & s' & Hw & Hp).
    destruct ((t_state x =? THREAD_STATE_TERMINATED) && (active =? thr) && bool_decide (a ++ b = [])).
    - destruct Hp as (-> & l & ? & ->). by exists l.
    - by destruct Hp as [-> ->]. }
  unfold tick_account. apply wp_bind, (wp_node_at _ nq); [done|]. apply wp_bind, wp_core_at; [done|].
  rewrite Ha. apply wp_bind, wp_sched_at; [done|]. apply wp_bind, wp_get. fold (from_stack c s). fold from.
  apply Z.eqb_neq in Hz. rewrite Hz. cbn [negb]. rewrite andb_true_r.
  apply wp_bind, (wp_mono _ _ (λ r s', r = forced from x ∧ s' = s)).
  { unfold forced. apply wp_if; intros ->; [|done].
    apply wp_bind, (wp_thread_at _ x); [done|]. apply wp_ret. done. }
  intros ? ? [-> ->].
  apply wp_bind, (wp_mono _ _ (λ _ s', s' = set_k_threads (alter (stamped now) active (k_threads s)) s)).
  { apply wp_bind, (wp_thread_at _ x); [done|]. apply wp_when; intros E.
    - apply wp_set_thread; [done|]. f_equal. eapply alter_ext_at; [done|]. unfold stamped.
      by destruct (t_has_update_run_time x).
    - rewrite (alter_fix _ _ _ x Hx); [by destruct s|]. unfold stamped. by destruct (t_has_update_run_time x). }
  intros _ ? ->. set (s2 := set_k_threads (alter (stamped now) active (k_threads s)) s).
  assert (wf s2 rings) as Hwf2 by (apply wf_set_thread; [done|apply keeps_stamped]).
  assert (k_threads s2 !! active = Some (stamped now x)) as Hx2 by (simpl; by rewrite lookup_alter_eq, Hx).
  assert (alter (accounted c s now) active (k_threads s) =
    alter (if t_state x =? THREAD_STATE_RUNNING
           then charged (k_frame s) (at_ (k_cores s) c) now from (forced from x)
           else if (t_state x =? THREAD_STATE_BLOCKED) || (t_state x =? THREAD_STATE_TERMINATED)
           then stopped now else id) active (alter (stamped now) active (k_threads s))) as Halt.
  { rewrite alter_alter. eapply alter_ext_at; [done|]. unfold accounted, from. simpl. by repeat case_match. }
  apply wp_bind, (wp_mono _ _ (λ r s',
    if (t_state x =? THREAD_STATE_TERMINATED) && (active =? thr) && bool_decide (a ++ b = [])
    then r = None ∧ ∃ l, lock_free c (with_lock c l s1) ∧ s' = with_lock c l s1
    else r = Some (if t_state x =? THREAD_STATE_RUNNING then slice_over now (stamped now x) || forced from x
                   else if (t_state x =? THREAD_STATE_BLOCKED) || (t_state x =? THREAD_STATE_TERMINATED)
                   then true else forced from x) ∧ s' = s1)).
  { apply wp_bind, (wp_thread_at _ (stamped now x)); [done|]. rewrite stamped_state.
    destruct (Z.eqb_spec (t_state x) THREAD_STATE_RUNNING) as [E|E].
    - assert ((t_state x =? THREAD_STATE_TERMINATED) = false) as Et by (rewrite E; done). rewrite Et. cbn [andb].
      apply wp_bind. eapply wp_intro; [by apply (charge_running_run s2)|]. apply wp_ret. split; [done|].
      unfold s1, after_account. rewrite Et. cbn [andb]. rewrite Halt. done.
    - destruct ((t_state x =? THREAD_STATE_BLOCKED) || (t_state x =? THREAD_STATE_TERMINATED)) eqn:Eb.
      + apply wp_bind. eapply wp_intro; [by eapply (charge_stopped_run s2 rings)|]. rewrite stamped_state.
        fold thr.
        assert ((let s3 := set_k_threads (alter (stopped now) active (k_threads s2)) s2 in
          if (t_state x =? THREAD_STATE_TERMINATED) && (active =? thr) then without c q nq s3 else s3) = s1) as ->.
        { unfold s1, after_account. rewrite Halt. fold thr. done. }
        destruct (after_account_ok s rings c a q b nq now active x Hwf Hc Hlock Hr Hq) as (Hwf1 & Hl1 & Hsl & Hr1).
        fold s1 thr in Hwf1, Hl1, Hsl, Hr1.
        assert (0 ≤ c < zlen (k_sched s1)) as Hc1 by lia.
        destruct (wf_queue _ _ Hwf1 c Hc1) as (_ & Hh & _). destruct (wf_nodup _ _ Hwf1 c Hc1) as (_ & H0).
        rewrite Hr1 in Hh, H0. apply wp_bind, wp_sched_at; [done|]. rewrite Hh.
        destruct ((t_state x =? THREAD_STATE_TERMINATED) && (active =? thr)); cbn [andb].
        * destruct (Z.eqb_spec (hd0 (a ++ b)) 0) as [E0|E0]; rewrite (ring_not_nil _ H0) in E0.
          -- rewrite bool_decide_true by done. apply wp_bind, wp_release; [done|done|]. intros l Hf.
             apply wp_ret. split; [done|]. by exists l.
          -- rewrite bool_decide_false by done. done.
        * destruct (Z.eqb_spec (hd0 (a ++ q :: b)) 0) as [E0|E0]; rewrite (ring_not_nil _ H0) in E0; [by destruct a|].
          done.
      + apply wp_ret. apply orb_false_iff in Eb as [_ Et]. rewrite Et. cbn [andb]. split; [done|].
        unfold s1, after_account. rewrite Et. cbn [andb]. rewrite Halt.
        rewrite (alter_fix id _ _ (stamped now x)); done. }
  intros r s' Hp. 
  destruct ((t_state x =? THREAD_STATE_TERMINATED) && (active =? thr) && bool_decide (a ++ b = [])).
  { destruct Hp as (-> & Hp). by apply wp_ret. }
  destruct Hp as [-> ->]. unfold wants_switch. fold from.
  assert (k_threads s1 !! active = Some (accounted c s now x)) as Hxa.
  { unfold s1, after_account, without.
    destruct ((t_state x =? _) && _); simpl; by rewrite lookup_alter_eq, Hx. }
  apply wp_if; intros Ef; rewrite Ef in *; [done|].
  apply wp_bind, (wp_thread_at _ (accounted c s now x)); [done|]. by apply wp_ret.
Qed.

(** ** The steps around the choice *)

(** The parts of the state the accounting reads are the same. *)
Definition same_view (c : Z) (s s' : ks) : Prop :=
  k_threads s' = k_threads s ∧ k_nodes s' = k_nodes s ∧ k_frame s' = k_frame s ∧
  k_reads s' = k_reads s ∧ length (k_sched s') = length (k_sched s) ∧
  sc_stack (at_ (k_sched s') c) = sc_stack (at_ (k_sched s) c) ∧
  co_active_thread (at_ (k_cores s') c) = co_active_thread (at_ (k_cores s) c) ∧
  co_fs (at_ (k_cores s') c) = co_fs (at_ (k_cores s) c) ∧
  co_kgs (at_ (k_cores s') c) = co_kgs (at_ (k_cores s) c).

Lemma same_view_cores c s s1 f :
  same_view c s s1 → 0 ≤ c < zlen (k_cores s1) →
  (∀ x, co_active_thread (f x) = co_active_thread x ∧ co_fs (f x) = co_fs x ∧ co_kgs (f x) = co_kgs x) →
  same_view c s (set_k_cores (<[Z.to_nat c := f (at_ (k_cores s1) c)]> (k_cores s1)) s1).
Proof.
  intros (? & ? & ? & ? & ? & ? & Ha & Hf & Hg) Hc Hk.
  destruct (Hk (at_ (k_cores s1) c)) as (Ka & Kf & Kg).
  unfold same_view. simpl. rewrite at_insert_eq, Ka, Kf, Kg by done. done.
Qed.

Lemma same_view_sched c s s1 sc :
  same_view c s s1 → 0 ≤ c < zlen (k_sched s1) → sc_stack sc = sc_stack (at_ (k_sched s1) c) →
  same_view c s (set_k_sched (<[Z.to_nat c := sc]> (k_sched s1)) s1).
Proof.
  intros (? & ? & ? & ? & ? & Hs & Ha & Hf & Hg) Hc Hk.
  unfold same_view. simpl. rewrite at_insert_eq, Hk, length_insert by done. done.
Qed.

Lemma same_view_refl c s : same_view c s s.
Proof. done. Qed.

(** The node the tick starts from. *)
Definition current_of (sc : sched_core) : Z := if sc_current sc =? 0 then sc_head sc else sc_current sc.

Lemma tick_arm_spec s rings c :
  wf s rings → 0 ≤ c < zlen (k_sched s) →
  wp (tick_arm c) s (λ _ s', wf s' rings ∧ same_view c s s' ∧
    sc_lock (at_ (k_sched s') c) = sc_lock (at_ (k_sched s) c) ∧
    current_of (at_ (k_sched s') c) = current_of (at_ (k_sched s) c)).
Proof.
  intros Hwf Hc. pose proof (wf_cores _ _ Hwf) as Hcl. unfold tick_arm. apply wp_bind, wp_sched_at; [done|].
  destruct (wf_queue _ _ Hwf c Hc) as (_ & _ & _ & Hcu).
  apply wp_bind, wp_set_sched; [done|].
  set (s1 := set_k_sched _ s). assert (wf s1 rings) as Hwf1 by (by apply wf_set_sched).
  assert (at_ (k_sched s1) c = set_sc_heartbeat (u64 (sc_heartbeat (at_ (k_sched s) c) + 1)) (at_ (k_sched s) c))
    as Hs1 by (by apply at_insert_eq).
  assert (length (k_sched s1) = length (k_sched s)) as Hl1 by apply length_insert.
  assert (same_view c s s1) as Hv1 by (by apply same_view_sched).
  apply wp_when; intros _.
  - apply wp_set_core; [simpl; lia|]. split; [|split; [|change (k_sched (set_k_cores _ s1)) with (k_sched s1); by rewrite Hs1]].
    + apply (wf_set_core s1 rings c (set_co_timer _)); [done|lia|by left].
    + apply (same_view_cores c s s1 (set_co_timer _)); [done|simpl; lia|done].
  - split; [done|]. split; [done|]. by rewrite Hs1.
Qed.

Lemma tick_enter_spec s rings c :
  wf s rings → 0 ≤ c < zlen (k_sched s) → lock_free c s →
  wp (tick_enter c) s (λ r s', wf s' rings ∧ same_view c s s' ∧
    match r with
    | None => lock_free c s' ∧ at_ rings c = []
    | Some q => lock_held c s' ∧ q ∈ at_ rings c ∧ q = current_of (at_ (k_sched s) c) ∧
                sc_current (at_ (k_sched s') c) = q
    end).
Proof.
  intros Hwf Hc Hf. destruct (wf_queue _ _ Hwf c Hc) as (Hlk & Hh & _ & Hcu).
  destruct (wf_nodup _ _ Hwf c Hc) as (_ & H0). pose proof (wf_manned s rings c Hwf Hc) as Hm.
  unfold tick_enter. apply wp_bind, wp_acquire; [done|done|]. intros l Hheld.
  set (s1 := with_lock c l s) in *. assert (wf s1 rings) as Hwf1 by (by apply wf_with_lock).
  assert (at_ (k_sched s1) c = set_sc_lock l (at_ (k_sched s) c)) as Hs1 by (by apply at_insert_eq).
  assert (length (k_sched s1) = length (k_sched s)) as Hl1 by apply length_insert.
  assert (same_view c s s1) as Hv1 by (by apply same_view_sched).
  clearbody s1. apply wp_bind, wp_sched_at; [lia|]. rewrite Hs1. simpl sc_head. simpl sc_current.
  destruct (Z.eqb_spec (sc_head (at_ (k_sched s) c)) 0) as [E|E].
  { rewrite Hh, (ring_not_nil _ H0) in E. apply wp_bind, wp_release; [lia|done|]. intros l' Hl'.
    apply wp_ret. split; [apply wf_with_lock; [done|lia]|]. split; [|done].
    by apply same_view_sched; [|lia|]. }
  assert (at_ rings c ≠ []) as Hne by (intros En; rewrite Hh, En in E; done).
  set (q := current_of (at_ (k_sched s) c)).
  assert (q ∈ at_ rings c) as Hq.
  { unfold q, current_of. destruct (Z.eqb_spec (sc_current (at_ (k_sched s) c)) 0) as [Ec|Ec];
      [rewrite Hh; by apply hd0_in|by destruct Hcu]. }
  apply wp_bind, (wp_mono _ _ (λ _ s', wf s' rings ∧ same_view c s s' ∧ lock_held c s' ∧
    sc_current (at_ (k_sched s') c) = q)).
  { apply wp_when; intros Ec.
    - apply wp_set_sched; [lia|]. rewrite Hs1. split; [|split; [|split]].
      + apply wf_set_sched; rewrite ?Hs1; [done|lia|done|done|simpl].
        right. rewrite Hh. by apply hd0_in.
      + apply same_view_sched; [done|lia|by rewrite Hs1].
      + unfold lock_held in *. simpl. rewrite at_insert_eq by lia. by rewrite Hs1 in Hheld.
      + simpl. rewrite at_insert_eq by lia. unfold q, current_of. by rewrite Ec.
    - split; [done|]. split; [done|]. split; [done|]. rewrite Hs1. simpl. unfold q, current_of. by rewrite Ec. }
  intros _ s2 (Hwf2 & Hv2 & Hl2 & Hc2).
  apply wp_bind, wp_sched_at; [destruct Hv2 as (_ & _ & _ & _ & El & _); lia|]. rewrite Hc2.
  assert (q ≠ 0) as Hq0 by (intros Eq; rewrite Eq in Hq; done).
  rewrite (proj2 (Z.eqb_neq _ _) Hq0). destruct (Hm q Hq) as (n & t & Hn & Hz & _).
  apply wp_bind, (wp_node_at _ n); [destruct Hv2 as (_ & -> & _); done|].
  rewrite (proj2 (Z.eqb_neq _ _) Hz). by apply wp_ret.
Qed.

Lemma enter_idle_spec s rings c active x :
  wf s rings → 0 ≤ c < zlen (k_sched s) → k_threads s !! active = Some x →
  wp (enter_idle sch_idle_loop c active) s (λ _ s', wf s' rings ∧
    k_nodes s' = k_nodes s ∧ k_sched s' = k_sched s ∧
    k_threads s' = alter (λ t, set_t_reg (vxSaveRegister (k_frame s) (t_reg t)) t) active (k_threads s) ∧
    co_active_thread (at_ (k_cores s') c) = 0 ∧
    k_frame s' = idle_frame sch_idle_loop (sc_stack (at_ (k_sched s) c)) (k_frame s)).
Proof.
  intros Hwf Hc Hx. pose proof (wf_cores _ _ Hwf) as Hcl. unfold enter_idle. apply wp_bind, wp_get.
  apply wp_bind, wp_set_thread; [done|].
  assert (wf (set_k_threads (alter (λ t, set_t_reg (vxSaveRegister (k_frame s) (t_reg t)) t) active (k_threads s)) s)
    rings) as Hwf1 by (by apply wf_set_thread).
  set (s1 := set_k_threads _ s) in *.
  apply wp_bind, wp_sched_at; [done|]. apply wp_bind, wp_modify.
  set (s2 := set_k_frame _ s1). assert (wf s2 rings) as Hwf2 by (by apply wf_frame).
  apply wp_bind, wp_set_core; [simpl; lia|].
  set (s3 := set_k_cores _ s2).
  assert (wf s3 rings) as Hwf3 by (apply (wf_set_core s2 rings c (set_co_active_thread 0)); [done|done|auto]).
  apply wp_set_core; [simpl; rewrite length_insert; lia|]. split_and!; try done.
  - apply (wf_set_core s3 rings c (set_co_next_is_user 0)); [done|done|by left].
  - simpl. rewrite at_insert_eq by (rewrite length_insert; lia). rewrite at_insert_eq by lia. done.
Qed.

Lemma hibernate_cpu_spec s rings c :
  wf s rings → 0 ≤ c < zlen (k_sched s) →
  wp (hibernate_cpu sch_idle_loop c) s (λ _ s', wf s' rings ∧ k_sched s' = k_sched s).
Proof.
  intros Hwf Hc. pose proof (wf_cores _ _ Hwf). unfold hibernate_cpu. apply wp_bind, wp_core_at; [lia|].
  apply wp_if; intros E; [done|]. destruct (Z.eqb_spec (co_active_thread (at_ (k_cores s) c)) 0); [done|].
  destruct (wf_active _ _ Hwf c Hc) as [|[x Hx]]; [done|].
  apply wp_bind, (wp_thread_at _ x); [done|]. apply wp_when; intros _; [|done].
  eapply wp_mono; [by eapply enter_idle_spec|]. naive_solver.
Qed.
End thm.
