(* ===== verification/SchedRun.v ===== *)
(** * The whole timer tick

    The choice of the next thread, the delivery of signals and the
    composition of the steps of [vxSchedulerTick]. *)

From S2P Require Import Prelude Spinlock Cpu Signal SchedState Sched SchedQueue SchedWf SchedTick SchedThm.

Section run.
Context `{Platform}.
Context (sch_idle_loop kernel_context_restore : Z).

(** ** The choice *)

(** The state in which [found] is the current node. *)
Definition with_current (c found : Z) (s : ks) : ks :=
  set_k_sched (<[Z.to_nat c := set_sc_current found (at_ (k_sched s) c)]> (k_sched s)) s.

Lemma tick_pick_spec fuel s rings c q from found :
  wf s rings → 0 ≤ c < zlen (k_sched s) → lock_held c s →
  tick_search fuel c q from s = Ok (found, s) →
  wp (tick_pick sch_idle_loop fuel c q true from) s (λ p s',
    if found =? 0 then p = PickDone ∧ wf s' rings ∧ lock_free c s'
    else p = PickRun found ∧ s' = with_current c found s).
Proof.
  intros Hwf Hc Hl Hs. pose proof (wf_cores _ _ Hwf) as Hcl. unfold tick_pick. simpl negb. cbv iota.
  apply wp_bind, (wp_intro _ _ _ _ _ Hs). apply wp_if; intros Ef; rewrite Ef.
  - apply wp_bind, wp_core_at; [lia|].
    apply wp_bind, (wp_mono _ _ (λ _ s', wf s' rings ∧ k_sched s' = k_sched s)).
    + apply wp_if; intros Ea; [by apply wp_ret|].
      destruct (wf_active _ _ Hwf c Hc) as [E|[x Hx]]; [by rewrite E in Ea|].
      apply wp_bind, (wp_thread_at _ x); [done|]. apply wp_when; intros _; [|done].
      eapply wp_mono; [by eapply enter_idle_spec|]. intros ?? (? & ? & ? & ?). done.
    + intros _ s1 (Hwf1 & Hs1). apply wp_bind, wp_release; [by rewrite Hs1| |].
      { unfold lock_held. by rewrite Hs1. }
      intros l Hf. apply wp_ret. rewrite <- Hs1 in Hc. split_and!; [done|by apply wf_with_lock|done].
  - by apply wp_bind, wp_set_sched; [done|].
Qed.

Lemma wf_with_current s rings c q :
  wf s rings → 0 ≤ c < zlen (k_sched s) → q ∈ at_ rings c → wf (with_current c q s) rings.
Proof. intros Hwf Hc Hq. apply wf_set_sched; [done..|]. by right. Qed.

Lemma with_current_lock s c q :
  0 ≤ c < zlen (k_sched s) → lock_held c s → lock_held c (with_current c q s).
Proof. intros Hc Hl. unfold lock_held, with_current. simpl. by rewrite at_insert_eq. Qed.

(** ** Signals of a kernel thread *)

Lemma signal_loop_spec n : ∀ s rings t h x sig active,
  wf s rings → k_sigs s !! h = Some x → length (handler x) = 64%nat →
  1 ≤ sig → sig + Z.of_nat n = 65 →
  wp (signal_loop n t h sig active) s (λ _ s', wf s' rings ∧ k_sched s' = k_sched s).
Proof.
  induction n as [|n IH]; intros s rings t h x sig active Hwf Hx Hl H1 H2; [by apply wp_ret|].
  simpl. apply wp_bind, (wp_mono _ _ (λ _ s', wf s' rings ∧ k_sched s' = k_sched s ∧
    ∃ y, k_sigs s' !! h = Some y ∧ length (handler y) = 64%nat)).
  - apply wp_when; intros _; [|by eauto].
    apply wp_bind, (wp_sig_at _ x); [done|]. apply wp_bind, wp_modify.
    apply wp_bind. eapply wp_lift; [apply aget_ok; lia|].
    apply wp_when; intros _; [apply wp_modify|]; (split_and!;
      [try apply wf_called; by apply wf_sigs|done|];
      eexists; split; [apply lookup_insert_eq|done]).
  - intros _ s1 (Hwf1 & Hs1 & y & Hy & Hly). rewrite <- Hs1.
    apply (IH s1 rings t h y); try done; lia.
Qed.

Lemma tick_signals_spec s rings next n :
  wf s rings → k_threads s !! next = Some n →
  wp (tick_signals next) s (λ _ s', wf s' rings ∧ k_sched s' = k_sched s).
Proof.
  intros Hwf Hn. destruct (wf_threads _ _ Hwf next n Hn) as (_ & _ & _ & Hs & _).
  unfold tick_signals. apply wp_bind, (wp_thread_at _ n); [done|].
  destruct (Z.eqb_spec (t_signal n) 0) as [E|E]; [by apply wp_ret|].
  destruct Hs as [?|(x & Hx & Hl)]; [done|].
  apply wp_bind, (wp_sig_at _ x); [done|]. apply wp_when; intros _; [|done].
  by apply (signal_loop_spec 64 s rings next _ x).
Qed.

(** ** From the accounting to the exit *)

Definition tick_rest (c next_node old : Z) (needs from : bool) : M tick_exit :=
  r ← tick_run kernel_context_restore c next_node old needs from;
  match r with
  | inl e => mret e
  | inr next => tick_signals next ;; hibernate_cpu sch_idle_loop c ;; mret Iret
  end.

Definition tick_tail (fuel : nat) (c q now old : Z) (needs from : bool) : M tick_exit :=
  sc ← sched_at c;
  when (negb (sc_head sc =? 0)) (tick_wakeups fuel (sc_head sc) (sc_head sc) now) ;;
  p ← tick_pick sch_idle_loop fuel c q needs from;
  match p with
  | PickDone => mret Iret
  | PickRun next_node => tick_rest c next_node old needs from
  end.

Definition woken (now : Z) (l : list Z) (s : ks) : ks :=
  set_k_threads (wake_ring now (k_nodes s) l (k_threads s)) s.

(** [s'] runs the thread [next], which was [n] in [s]. *)
Definition dispatched (c found next : Z) (n : thread) (s s' : ks) (r : tick_exit) : Prop :=
  co_active_thread (at_ (k_cores s') c) = next ∧ sc_current (at_ (k_sched s') c) = found ∧
  (∀ t, t ≠ next → untimed <$> k_threads s' !! t = untimed <$> k_threads s !! t) ∧
  if t_in_kernel_sleep n then r = ContextRestore (t_kernel_rsp n) ∧ k_frame s' = k_frame s
  else r = Iret ∧ k_frame s' = vxRestoreRegister (k_frame s) (t_reg n) ∧
       ∃ n', k_threads s' !! next = Some n' ∧ t_state n' = THREAD_STATE_RUNNING.

(** Running the chosen node, which is in the queue and current. *)
Lemma tick_run_exit s rings c q nq n old needs from :
  wf s rings → 0 ≤ c < zlen (k_sched s) → lock_held c s → q ∈ at_ rings c →
  sc_current (at_ (k_sched s) c) = q →
  k_nodes s !! q = Some nq → k_threads s !! n_thread nq = Some n →
  wp (tick_rest c q old needs from) s (λ r s', wf s' rings ∧ lock_free c s' ∧
    (t_state n = THREAD_STATE_READY ∨ t_in_kernel_sleep n = true → dispatched c q (n_thread nq) n s s' r)).
Proof.
  intros Hwf Hc Hl Hq Hcur Hnq Hn. unfold tick_rest. apply wp_bind. eapply wp_mono; [by eapply tick_run_spec|].
  intros r s1 (Hcalm & Hf & Ha & Hx). destruct (calm_bounds _ _ _ _ c Hcalm Hc) as (Hc1 & _).
  destruct Hcalm as (Hwf1 & _ & _ & Hln & Hv & Ht). unfold run_exit in Hx.
  assert (sc_current (at_ (k_sched s1) c) = q) as Hc1'.
  { specialize (Hv c). apply (f_equal sc_current) in Hv. simpl in Hv. by rewrite Hv. }
  destruct (t_in_kernel_sleep n) eqn:Es; [|destruct (Z.eqb_spec (t_state n) THREAD_STATE_READY) as [Er|Er]].
  - destruct Hx as (-> & Hfr). apply wp_ret. split; [done|]. split; [done|]. intros _.
    split; [done|]. split; [done|]. split; [done|]. by rewrite Es.
  - destruct Hx as (-> & Hfr & Hn'). apply wp_ret. split; [done|]. split; [done|]. intros _.
    split; [done|]. split; [done|]. split; [done|]. by rewrite Es.
  - destruct Hx as (-> & _ & n' & Hn' & _).
    apply wp_bind. eapply wp_mono; [by eapply tick_signals_spec|]. intros _ s2 (Hwf2 & Hs2).
    apply wp_bind. eapply wp_mono; [eapply hibernate_cpu_spec; [done|by rewrite Hs2]|].
    intros _ s3 (Hwf3 & Hs3). apply wp_ret. split; [done|]. split; [|by intros [?|?]].
    unfold lock_free. by rewrite Hs3, Hs2.
Qed.

Lemma tick_tail_spec fuel s rings c q now old (needs from : bool) found :
  wf s rings → 0 ≤ c < zlen (k_sched s) → lock_held c s →
  at_ rings c ≠ [] → (length (at_ rings c) ≤ fuel)%nat →
  let s1 := woken now (at_ rings c) s in
  (if needs then tick_search fuel c q from s1 = Ok (found, s1) ∧ (found = 0 ∨ found ∈ at_ rings c)
   else found = q ∧ q ∈ at_ rings c ∧ sc_current (at_ (k_sched s) c) = q) →
  wp (tick_tail fuel c q now old needs from) s (λ r s', wf s' rings ∧ lock_free c s' ∧
    ∀ nq n, found ≠ 0 → k_nodes s !! found = Some nq → k_threads s1 !! n_thread nq = Some n →
      (t_state n = THREAD_STATE_READY ∨ t_in_kernel_sleep n = true) →
      dispatched c found (n_thread nq) n s1 s' r).
Proof.
  intros Hwf Hc Hl Hne Hf s1 Hs. destruct (wf_queue _ _ Hwf c Hc) as (_ & Hh & _).
  destruct (wf_nodup _ _ Hwf c Hc) as (_ & H0).
  assert (wf s1 rings) as Hwf1 by (by apply wf_wake_ring).
  unfold tick_tail. apply wp_bind, wp_sched_at; [done|].
  assert (sc_head (at_ (k_sched s) c) ≠ 0) as Hh0 by (rewrite Hh; intros E; apply H0; rewrite <- E; by apply hd0_in).
  rewrite (proj2 (Z.eqb_neq _ _) Hh0). simpl when.
  apply wp_bind. eapply wp_intro; [by eapply tick_wakeups_ring|]. fold s1.
  assert (∀ s2, wf s2 rings → length (k_sched s2) = length (k_sched s) → lock_held c s2 →
    k_nodes s2 = k_nodes s → k_threads s2 = k_threads s1 → k_frame s2 = k_frame s1 →
    found ∈ at_ rings c → sc_current (at_ (k_sched s2) c) = found →
    wp (tick_rest c found old needs from) s2 (λ r s', wf s' rings ∧ lock_free c s' ∧
    ∀ nq n, found ≠ 0 → k_nodes s !! found = Some nq → k_threads s1 !! n_thread nq = Some n →
      (t_state n = THREAD_STATE_READY ∨ t_in_kernel_sleep n = true) →
      dispatched c found (n_thread nq) n s1 s' r)) as Hrun.
  { intros s2 Hwf2 Hlen Hl2 Hn2 Ht2 Hf2 Hin Hcur.
    destruct (wf_manned s2 rings c Hwf2 ltac:(lia) found Hin) as (nq & n & Hnq & _ & Hn).
    eapply wp_mono; [by eapply (tick_run_exit s2 rings c found nq n); [|lia|..]|].
    intros r s' (Hw & Hlf & Hd). split; [done|]. split; [done|]. intros nq' n' _ Hnq' Hn' Hr.
    rewrite Hn2, Hnq' in Hnq. injection Hnq as <-. rewrite Ht2, Hn' in Hn. injection Hn as <-.
    specialize (Hd Hr). unfold dispatched in *. by rewrite Ht2, Hf2 in Hd. }
  destruct needs.
  - destruct Hs as (Hs & Hin). apply wp_bind. eapply wp_mono; [by eapply (tick_pick_spec _ s1 rings)|].
    intros p s2 Hp. destruct (Z.eqb_spec found 0) as [E|E].
    { destruct Hp as (-> & ? & ?). apply wp_ret. split; [done|]. split; [done|]. by intros. }
    destruct Hin as [?|Hin]; [done|]. destruct Hp as (-> & ->). apply Hrun; try done.
    + by apply wf_with_current.
    + simpl. apply length_insert.
    + by apply with_current_lock.
    + simpl. by rewrite at_insert_eq.
  - destruct Hs as (-> & Hin & Hcur). unfold tick_pick. simpl negb. cbv iota.
    apply wp_bind, wp_ret. by apply (Hrun s1).
Qed.

(** ** What the search finds *)

Lemma first_run_in s l : first_run s l = 0 ∨ first_run s l ∈ l.
Proof.
  unfold first_run. destruct (filter (λ q, runb s q = true) l) as [|x r] eqn:E; [by left|right].
  assert (x ∈ filter (λ q, runb s q = true) l) as Hx by (rewrite E; apply list_elem_of_here).
  by apply list_elem_of_filter in Hx as (_ & Hx).
Qed.

Lemma search_order_in a q b x : x ∈ search_order a q b → x ∈ a ++ q :: b.
Proof. unfold search_order. case_decide; set_solver. Qed.

Lemma search_in fuel s rings c q from :
  wf s rings → 0 ≤ c < zlen (k_sched s) → q ∈ at_ rings c → (length (at_ rings c) ≤ fuel)%nat →
  ∃ found, tick_search fuel c q from s = Ok (found, s) ∧ (found = 0 ∨ found ∈ at_ rings c).
Proof.
  intros Hwf Hc Hq Hf. destruct (list_elem_of_split _ _ Hq) as (a & b & Hr).
  eexists. split; [by eapply tick_search_run|]. destruct (from && runb s q); [by right|].
  destruct (first_run_in s (search_order a q b)) as [|Hi]; [by left|right].
  apply search_order_in in Hi. by rewrite Hr.
Qed.

Lemma unlinked_self nodes q n :
  nodes !! q = Some n → ∃ n', unlinked nodes q n !! q = Some n' ∧ n_next n' = 0 ∧ n_thread n' = n_thread n.
Proof.
  intros Hn. pose proof (unlinked_thread nodes q n q) as Ht. rewrite Hn in Ht.
  apply fmap_Some in Ht as (n' & Hn' & Ht). exists n'. split; [done|]. split; [|done].
  unfold unlinked, remove_nodes in Hn'. 
  destruct (n_next n =? q); rewrite lookup_alter_eq in Hn'; rewrite lookup_alter_eq in Hn';
    (destruct (_ !! q) as [m|] in Hn'; [|done]); simpl in Hn'; by injection Hn' as <-.
Qed.

Lemma accounted_terminated c s now x :
  t_state x = THREAD_STATE_TERMINATED → t_state (accounted c s now x) = THREAD_STATE_HAL.
Proof. intros E. unfold accounted, stopped. rewrite E. simpl. rewrite stamped_state, E. done. Qed.

(** Node [y] can run once the sleepers due at [now] are awake. *)
Definition can_run (now : Z) (s : ks) (y : Z) : bool :=
  match k_nodes s !! y with
  | Some n => match k_threads s !! n_thread n with
              | Some t => runnable_state (t_state (wake_thread now t))
              | None => false
              end
  | None => false
  end.

Lemma can_run_after c q nq s now active x l y :
  k_threads s !! active = Some x → t_state x = THREAD_STATE_TERMINATED → y ∈ l →
  runb (woken now l (after_account c q nq s now active x)) y = can_run now s y.
Proof.
  intros Hx Hst Hy. set (s1 := after_account c q nq s now active x).
  assert (∀ z, n_thread <$> k_nodes s1 !! z = n_thread <$> k_nodes s !! z) as Hn.
  { intros z. unfold s1, after_account, without. destruct (_ && _); [apply unlinked_thread|done]. }
  assert (k_threads s1 = alter (accounted c s now) active (k_threads s)) as Ht.
  { unfold s1, after_account, without. by destruct (_ && _). }
  unfold runb, can_run. simpl. specialize (Hn y).
  destruct (k_nodes s !! y) as [n|] eqn:En, (k_nodes s1 !! y) as [n1|] eqn:En1; simplify_eq/=; [|done].
  rewrite wake_ring_lookup, Ht, Hn, decide_True.
  2:{ apply list_elem_of_fmap. exists y. split; [|done]. unfold thread_of. by rewrite En1. }
  rewrite lookup_alter_fmap. destruct (k_threads s !! n_thread n) as [t|] eqn:Et; [|done]. simpl.
  destruct (decide _) as [E|]; [|done]. rewrite <- E, Hx in Et. injection Et as <-.
  pose proof (accounted_terminated c s now x Hst) as Ha. unfold wake_thread. rewrite Ha, Hst. simpl. by rewrite Ha, Hst.
Qed.

Lemma search_gone fuel s rings c a q b nq now active x from :
  wf s rings → 0 ≤ c < zlen (k_sched s) → lock_held c s → at_ rings c = a ++ q :: b →
  k_nodes s !! q = Some nq → active = n_thread nq → k_threads s !! active = Some x →
  t_state x = THREAD_STATE_TERMINATED → a ++ b ≠ [] → (length (a ++ b) ≤ fuel)%nat →
  let s1 := woken now (a ++ b) (after_account c q nq s now active x) in
  tick_search fuel c q from s1 =
    if existsb (can_run now s) (a ++ b) then Ok (first_run s1 (a ++ b), s1) else NoFuel.
Proof.
  intros Hwf Hc Hl Hr Hq -> Hx Hst Hne Hf s1. set (active := n_thread nq) in *.
  destruct (after_account_ok s rings c a q b nq now active x Hwf Hc Hl Hr Hq) as (Hwf1 & _ & Hln & Hr1).
  destruct (wf_nodup _ _ Hwf c Hc) as (Hnd & H0). rewrite Hr in Hnd, H0.
  rewrite Hst in Hwf1, Hr1. fold active in Hwf1, Hr1. rewrite !Z.eqb_refl in Hwf1, Hr1. simpl andb in *. cbv iota in Hr1.
  assert (q ∉ a ++ b) as Hqn.
  { apply NoDup_app in Hnd as (_ & Hd & Hnd%NoDup_cons). intros [Hi|Hi]%elem_of_app; [|by destruct Hnd].
    apply (Hd q Hi). apply list_elem_of_here. }
  destruct (unlinked_self (k_nodes s) q nq Hq) as (n' & Hn' & Hnx & Hnt).
  assert (k_nodes s1 = unlinked (k_nodes s) q nq) as Hns.
  { unfold s1, after_account, without. by rewrite Hst, !Z.eqb_refl. }
  assert (k_threads s1 !! active = Some (wake_thread now (accounted c s now x)) ∨
          k_threads s1 !! active = Some (accounted c s now x)) as Hx1.
  { unfold s1, woken. simpl. rewrite wake_ring_lookup. unfold after_account, without.
    rewrite Hst, !Z.eqb_refl. simpl. rewrite lookup_alter_eq, Hx. simpl.
    destruct (decide _); [by left|by right]. }
  assert (∃ x1, k_threads s1 !! active = Some x1 ∧ t_state x1 = THREAD_STATE_HAL) as (x1 & Hx1' & Hs1).
  { pose proof (accounted_terminated c s now x Hst) as Ht. destruct Hx1 as [E|E]; (eexists; split; [exact E|]); [|done].
    unfold wake_thread. by rewrite Ht. }
  assert (wf s1 (rings_after c rings a b true)) as Hws by (unfold s1, woken; rewrite <- Hr1; by apply wf_wake_ring).
  assert (runb s1 q = false ∧ ∃ t, k_threads s1 !! n_thread n' = Some t ∧ n_thread n' ≠ 0) as Hstay.
  { split; [unfold runb; rewrite Hns, Hn', Hnt; fold active; by rewrite Hx1', Hs1|].
    exists x1. rewrite Hnt. split; [done|]. by apply (wf_threads _ _ Hwf active x). }
  assert (∀ y, y ∈ a ++ b → runb s1 y = can_run now s y) as Hcan by (intros y Hy; by apply can_run_after).
  destruct (existsb (can_run now s) (a ++ b)) eqn:Ex.
  - apply existsb_exists in Ex as (y & Hy%list_elem_of_In & Hcy).
    pose proof (tick_search_gone fuel s1 (rings_after c rings a b true) c q n' from) as Hg.
    rewrite Hr1 in Hg. apply Hg; try done; [unfold s1; simpl; lia|intros ->; apply H0; set_solver|by rewrite Hns|].
    exists y. by rewrite Hcan.
  - pose proof (tick_search_spins fuel s1 (rings_after c rings a b true) c q n' from) as Hg.
    rewrite Hr1 in Hg. apply Hg; try done; [unfold s1; simpl; lia|by rewrite Hns|].
    intros y Hy. rewrite Hcan by done. destruct (can_run now s y) eqn:Ec; [|done].
    rewrite <- Ex. symmetry. apply existsb_exists. exists y. by rewrite <- list_elem_of_In.
Qed.

End run.
