(* ===== verification/SchedProps.v ===== *)
(** * Properties of the scheduler

    First a concrete machine with one core and two threads, shared by the
    witnesses, then what a tick does. *)

From S2P Require Import Prelude Spinlock Cpu Signal SchedState Sched SchedQueue SchedWf SchedTick SchedThm SchedRun.

(** ** One core and two threads *)

(** A 10 MHz counter that is read every 100 ms, slices of 10 ms. *)
Definition demo_platform : Platform := {|
  VOXIA_MAX_SCHEDULER_TIME_MS := 10;
  hpet_count n := (Z.of_nat n + 1) * 1000000;
  vxHPETMinTickNs := 100;
  highest_page_map := 0x1000;
  core_data_addr c := 0x9000 + c;
  cpu_apicids := [0];
  active_core_count := 1 |}.

(** A kernel thread in state [st], with saved instruction pointer [rip]. *)
Definition demo_thread (st rip : Z) : thread :=
  mkThread 1 0 st 0 0 0 true 0 0 0 0 0 0x8000 false false 0 (set_r_rip zero_reg rip) 0 0.

Definition demo_frame (rip : Z) : interrupt_stack_frame := set_f_rip zero_frame_regs rip.

Definition demo_state (nodes : gmap Z node) (current head last active : Z) (x y : thread) (rip : Z) : ks :=
  mkKs {[1 := x; 2 := y]} nodes [mkSched current last head SPINLOCK_INIT 0x20000 0 true 32 0 0]
    [mkCore 0 0 active 0 0 0 0 0 None 0] ∅ ∅ ∅ (demo_frame rip) 0 [] 1.

Definition duo_nodes : gmap Z node := {[1000 := mkNode 1 2000 2000; 2000 := mkNode 2 1000 1000]}.
Definition solo_nodes : gmap Z node := {[1000 := mkNode 1 0 0; 2000 := mkNode 2 2000 2000]}.

(** Both threads are queued and thread 1 is active and current. *)
Definition duo (x y : thread) (rip : Z) : ks := demo_state duo_nodes 1000 1000 2000 1 x y rip.
(** Thread 1 has left the queue. *)
Definition solo (x y : thread) (rip : Z) : ks := demo_state solo_nodes 2000 2000 2000 1 x y rip.

(** A thread of core 0 that owns no other object. *)
Definition plain (x : thread) : Prop :=
  t_core_affinity x = 0 ∧ t_process x = 0 ∧ t_fpu_state x = 0 ∧ t_signal x = 0 ∧ t_current_core_id x = 0.

Lemma demo_plain st rip : plain (demo_thread st rip).
Proof. done. Qed.

Lemma two_inv {A} (i j k : Z) (x y z : A) :
  ({[i := x; j := y]} : gmap Z A) !! k = Some z → (k = i ∧ z = x) ∨ (k = j ∧ z = y).
Proof.
  rewrite lookup_insert_Some. intros [(-> & ->)|(_ & Hk)]; [by left|right].
  apply lookup_singleton_Some in Hk as (-> & ->). done.
Qed.

Lemma demo_wf nodes current head last active x y rip ring :
  plain x → plain y → queue_ok nodes (mkSched current last head SPINLOCK_INIT 0x20000 0 true 32 0 0) ring →
  NoDup ring → 0 ∉ ring →
  (∀ q n, q ∈ ring → nodes !! q = Some n → n_thread n = 1 ∨ n_thread n = 2) →
  active ∈ [0; 1; 2] →
  wf (demo_state nodes current head last active x y rip) [ring].
Proof.
  intros Hx Hy Hq Hnd H0 Hn Ha.
  assert (∀ t, (t = 1 ∨ t = 2) → ∃ z, ({[1 := x; 2 := y]} : gmap Z thread) !! t = Some z ∧ plain z) as Hth.
  { intros t [->| ->]; eauto. }
  constructor; try done; simpl.
  - intros c Hc. by assert (c = 0) as -> by lia.
  - intros c Hc. by assert (c = 0) as -> by lia.
  - intros c d q Hc Hd. lia.
  - intros c q n Hc Hqi Hqn. assert (c = 0) as -> by lia.
    destruct (Hth _ (Hn q n Hqi Hqn)) as (z & Hz & Hp & _). eauto.
  - intros t z Hz. assert (t ≠ 0 ∧ plain z) as (Ht & ? & ? & ? & ? & Hcc).
    { by apply two_inv in Hz as [(-> & ->)|(-> & ->)]. }
    split; [done|]. unfold valid_thread. simpl. rewrite Hcc. split_and!; by auto || lia.
  - intros c Hc. assert (c = 0) as -> by lia. simpl.
    apply elem_of_cons in Ha as [->|Ha]; [by left|right].
    destruct (Hth active) as (z & -> & _); [set_solver|done].
Qed.

Lemma duo_wf x y rip : plain x → plain y → wf (duo x y rip) [[1000; 2000]].
Proof.
  intros Hx Hy. apply demo_wf; try done.
  - split_and!; try done; [|right; set_solver]. intros a n b E.
    destruct a as [|? [|? [|]]]; simplify_eq/=; eexists; (split; [vm_compute; reflexivity|done]).
  - repeat constructor; set_solver.
  - set_solver.
  - intros q n Hq Hn. apply two_inv in Hn as [(-> & ->)|(-> & ->)]; auto.
  - set_solver.
Qed.

Lemma solo_wf x y rip : plain x → plain y → wf (solo x y rip) [[2000]].
Proof.
  intros Hx Hy. apply demo_wf; try done.
  - split_and!; try done; [|right; set_solver]. intros a n b E.
    destruct a as [|? [|]]; simplify_eq/=. eexists; (split; [vm_compute; reflexivity|done]).
  - repeat constructor; set_solver.
  - set_solver.
  - intros q n Hq Hn. apply two_inv in Hn as [(-> & ->)|(-> & ->)]; auto.
  - set_solver.
Qed.

(** ** The properties *)

Section props.
Context `{Platform}.
Context (sch_idle_loop kernel_context_restore : Z).

(** ** The whole tick *)

Lemma same_view_trans c s1 s2 s3 : same_view c s1 s2 → same_view c s2 s3 → same_view c s1 s3.
Proof.
  intros (? & ? & ? & ? & ? & ? & ? & ? & ?) (? & ? & ? & ? & ? & ? & ? & ? & ?).
  unfold same_view. split_and!; congruence.
Qed.

Lemma wp_same {A} (m k : M A) s s' Q : m s = k s' → wp k s' Q → wp m s Q.
Proof. unfold wp. by intros ->. Qed.

(** The tick up to the point where it has the lock and its current node. *)
Lemma tick_begin s rings c :
  wf s rings → 0 ≤ c < zlen (k_sched s) → lock_free c s →
  ∃ r s', (∀ A (k : option Z → M A), (tick_arm c ;; cur ← tick_enter c; k cur) s = k r s') ∧
    wf s' rings ∧ same_view c s s' ∧
    match r with
    | None => lock_free c s' ∧ at_ rings c = []
    | Some q => lock_held c s' ∧ q ∈ at_ rings c ∧ q = current_of (at_ (k_sched s) c) ∧
                sc_current (at_ (k_sched s') c) = q
    end.
Proof.
  intros Hwf Hc Hf. pose proof (tick_arm_spec s rings c Hwf Hc) as Ha.
  apply wp_elim in Ha as ([] & s1 & Ha & Hwf1 & Hv1 & Hl1 & Hc1).
  assert (0 ≤ c < zlen (k_sched s1)) as Hb1 by (destruct Hv1 as (_ & _ & _ & _ & -> & _); done).
  pose proof (tick_enter_spec s1 rings c Hwf1 Hb1 ltac:(unfold lock_free; by rewrite Hl1)) as He.
  apply wp_elim in He as (r & s2 & He & Hwf2 & Hv2 & Hr). exists r, s2. rewrite Hc1 in Hr.
  split; [intros A k; unfold mbind, M_bind; by rewrite Ha, He|]. split; [done|]. split; [by eapply same_view_trans|done].
Qed.

(** The active thread has terminated and belongs to the current node [q]. *)
Definition leaving (s : ks) (c q : Z) : bool :=
  match k_nodes s !! q with
  | Some n => match k_threads s !! n_thread n with
              | Some x => (t_state x =? THREAD_STATE_TERMINATED) && (co_active_thread (at_ (k_cores s) c) =? n_thread n)
              | None => false
              end
  | None => false
  end.

Definition others (q : Z) (ring : list Z) : list Z := filter (λ y, y ≠ q) ring.

(** The run queues after a tick: the node of a leaving thread is out. *)
Definition rings_left (s : ks) (rings : list (list Z)) (c q : Z) : list (list Z) :=
  if leaving s c q then <[Z.to_nat c := others q (at_ rings c)]> rings else rings.

(** The thread that leaves is not alone in its queue, and none of the threads
    it leaves behind can run at [now]. *)
Definition stranded (now : Z) (s : ks) (rings : list (list Z)) (c q : Z) : bool :=
  leaving s c q && negb (bool_decide (others q (at_ rings c) = [])) &&
  negb (existsb (can_run now s) (others q (at_ rings c))).

Lemma filter_all {A} (P : A → Prop) `{!∀ x, Decision (P x)} (l : list A) : (∀ x, x ∈ l → P x) → filter P l = l.
Proof.
  induction l as [|x l IH]; intros HP; [done|]. rewrite filter_cons, decide_True by (apply HP; left).
  f_equal. apply IH. intros y Hy. apply HP. by right.
Qed.

Lemma others_split a q b : NoDup (a ++ q :: b) → others q (a ++ q :: b) = a ++ b.
Proof.
  intros (_ & Hd & Hnd)%NoDup_app. apply NoDup_cons in Hnd as (Hq & _).
  unfold others. rewrite filter_app, filter_cons, decide_False by (intros Hn; by apply Hn).
  f_equal; apply filter_all; intros y Hy ->; [|done].
  apply (Hd q Hy). apply list_elem_of_here.
Qed.

Lemma leaving_gone s c q nq active x :
  k_nodes s !! q = Some nq → co_active_thread (at_ (k_cores s) c) = active → k_threads s !! active = Some x →
  leaving s c q = (t_state x =? THREAD_STATE_TERMINATED) && (active =? n_thread nq).
Proof.
  intros Hnq Ha Hx. unfold leaving. rewrite Hnq, Ha. destruct (Z.eqb_spec active (n_thread nq)) as [<-|Hne].
  - by rewrite Hx.
  - rewrite andb_false_r. destruct (k_threads s !! n_thread nq); [|done]. apply andb_false_r.
Qed.

Definition tick_main (fuel : nat) (c q now old : Z) : M tick_exit :=
  acc ← tick_account c q now;
  match acc with
  | None => hibernate_cpu sch_idle_loop c ;; mret Iret
  | Some (needs, from) => tick_tail sch_idle_loop kernel_context_restore fuel c q now old needs from
  end.

Lemma vxSchedulerTick_unfold fuel c :
  vxSchedulerTick sch_idle_loop kernel_context_restore fuel c =
  (tick_arm c ;; cur ← tick_enter c;
   match cur with
   | None => hibernate_cpu sch_idle_loop c ;; mret Iret
   | Some q => co ← core_at c; now ← vxHPETGetMainCount; tick_main fuel c q now (co_active_thread co)
   end).
Proof. reflexivity. Qed.

Lemma tick_tail_safe fuel s rings c q now old (needs from : bool) found :
  wf s rings → 0 ≤ c < zlen (k_sched s) → lock_held c s →
  at_ rings c ≠ [] → (length (at_ rings c) ≤ fuel)%nat →
  (if needs then let s1 := woken now (at_ rings c) s in
     tick_search fuel c q from s1 = Ok (found, s1) ∧ (found = 0 ∨ found ∈ at_ rings c)
   else q ∈ at_ rings c ∧ sc_current (at_ (k_sched s) c) = q) →
  wp (tick_tail sch_idle_loop kernel_context_restore fuel c q now old needs from) s
    (λ _ s', wf s' rings ∧ lock_free c s').
Proof.
  intros Hwf Hc Hl Hne Hf Hs.
  eapply wp_mono; [apply (tick_tail_spec _ _ fuel s rings c q now old needs from (if needs then found else q)); try done|].
  - by destruct needs.
  - by intros r s' (Hw & Hlf & _).
Qed.

(** The tail does not end when its search does not. *)
Lemma tick_tail_spins fuel s rings c q now old from :
  wf s rings → 0 ≤ c < zlen (k_sched s) → at_ rings c ≠ [] → (length (at_ rings c) ≤ fuel)%nat →
  tick_search fuel c q from (woken now (at_ rings c) s) = NoFuel →
  tick_tail sch_idle_loop kernel_context_restore fuel c q now old true from s = NoFuel.
Proof.
  intros Hwf Hc Hne Hf Hs. destruct (wf_queue _ _ Hwf c Hc) as (_ & Hh & _).
  destruct (wf_nodup _ _ Hwf c Hc) as (_ & H0).
  assert (sc_head (at_ (k_sched s) c) ≠ 0) as Hh0 by (rewrite Hh; intros E; apply H0; rewrite <- E; by apply hd0_in).
  unfold tick_tail, mbind, M_bind, sched_at. rewrite aget_ok by done. rewrite bind_Ok.
  rewrite (proj2 (Z.eqb_neq _ _) Hh0). simpl when. rewrite (tick_wakeups_ring fuel s rings c now) by done.
  unfold tick_pick, mbind, M_bind. simpl. unfold woken in Hs. by rewrite Hs.
Qed.

(** The current thread does not leave: the search finds its way in the ring. *)
Lemma tick_main_stays fuel s rings c q now :
  wf s rings → 0 ≤ c < zlen (k_sched s) → lock_held c s → q ∈ at_ rings c →
  sc_current (at_ (k_sched s) c) = q → (length (at_ rings c) ≤ fuel)%nat → leaving s c q = false →
  wp (tick_main fuel c q now (co_active_thread (at_ (k_cores s) c))) s (λ _ s', wf s' rings ∧ lock_free c s').
Proof.
  intros Hwf Hc Hl Hq Hcur Hf Hlv. destruct (wf_manned s rings c Hwf Hc q Hq) as (nq & _ & Hnq & Hz & _).
  assert (at_ rings c ≠ []) as Hne by (intros E; rewrite E in Hq; by apply elem_of_nil in Hq).
  unfold tick_main. set (active := co_active_thread (at_ (k_cores s) c)).
  destruct (wf_active _ _ Hwf c Hc) as [Ha|[x Hx]].
  - apply wp_bind. eapply wp_intro; [by eapply tick_account_idle|].
    destruct (search_in fuel (woken now (at_ rings c) s) rings c q (from_stack c s)) as (f & Hs & Hi);
      [by apply wf_wake_ring|done..|].
    destruct (from_stack c s) eqn:Ef; by eapply (tick_tail_safe _ _ _ _ _ _ _ _ _ f).
  - fold active in Hx. destruct (wf_threads _ _ Hwf active x Hx) as (Ha0 & _).
    rewrite (leaving_gone s c q nq active x) in Hlv by done. destruct (list_elem_of_split _ _ Hq) as (a & b & Hr).
    pose proof (tick_account_run s rings c a q b nq now active x Hwf Hc Hl Hr Hnq eq_refl Ha0 Hx) as Hacc.
    pose proof (after_account_ok s rings c a q b nq now active x Hwf Hc Hl Hr Hnq) as (Hw1 & Hl1 & Hn1 & Hr1).
    assert (sc_current (at_ (k_sched (after_account c q nq s now active x)) c) = q) as Hc1
      by (unfold after_account; by rewrite Hlv).
    cbv zeta in Hacc. rewrite Hlv in Hacc, Hw1, Hr1. cbn [andb] in Hacc. cbv iota in Hacc, Hr1. unfold rings_after in Hw1.
    set (s1 := after_account c q nq s now active x) in *. apply wp_bind. eapply wp_intro; [exact Hacc|].
    destruct (search_in fuel (woken now (at_ rings c) s1) rings c q (from_stack c s)) as (f & Hs & Hi);
      [by apply wf_wake_ring|simpl; lia|done..|].
    eapply (tick_tail_safe _ _ _ _ _ _ _ _ _ f); try done; [lia|]. by case_match.
Qed.

(** The current thread leaves. *)
Lemma tick_main_leaves fuel s rings c q now :
  wf s rings → 0 ≤ c < zlen (k_sched s) → lock_held c s → q ∈ at_ rings c →
  sc_current (at_ (k_sched s) c) = q → (length (at_ rings c) ≤ fuel)%nat → leaving s c q = true →
  let tick := tick_main fuel c q now (co_active_thread (at_ (k_cores s) c)) in
  if stranded now s rings c q then tick s = NoFuel
  else wp tick s (λ _ s', wf s' (rings_left s rings c q) ∧ lock_free c s').
Proof.
  intros Hwf Hc Hl Hq Hcur Hf Hlv tick. destruct (wf_manned s rings c Hwf Hc q Hq) as (nq & x & Hnq & Hz & Hx).
  destruct (list_elem_of_split _ _ Hq) as (a & b & Hr). destruct (wf_nodup _ _ Hwf c Hc) as (Hnd & _). rewrite Hr in Hnd.
  unfold stranded, rings_left. rewrite Hlv, Hr, (others_split a q b Hnd). unfold tick, tick_main. clear tick.
  assert (t_state x = THREAD_STATE_TERMINATED ∧ co_active_thread (at_ (k_cores s) c) = n_thread nq) as (Hst & Ha).
  { unfold leaving in Hlv. rewrite Hnq, Hx in Hlv. by apply andb_prop in Hlv as (?%Z.eqb_eq & ?%Z.eqb_eq). }
  rewrite Ha. set (active := n_thread nq) in *.
  pose proof (tick_account_run s rings c a q b nq now active x Hwf Hc Hl Hr Hnq Ha Hz Hx) as Hacc.
  pose proof (after_account_ok s rings c a q b nq now active x Hwf Hc Hl Hr Hnq) as (Hw1 & Hl1 & Hn1 & Hr1).
  pose proof (search_gone fuel s rings c a q b nq now active x (from_stack c s) Hwf Hc Hl Hr Hnq eq_refl Hx Hst) as Hs.
  assert (wants_switch c s now active active x = true) as Hwant
    by (unfold wants_switch; rewrite Hst; simpl; by destruct (from_stack c s)).
  cbv zeta in Hacc. fold active in Hacc, Hw1, Hr1. rewrite Hst, !Z.eqb_refl in Hacc, Hw1, Hr1. cbn [andb] in Hacc, Hw1, Hr1.
  rewrite Hwant in Hacc. unfold rings_after in Hw1, Hr1. set (s1 := after_account c q nq s now active x) in *.
  assert (length (a ++ b) < fuel)%nat as Hf1 by (rewrite Hr, length_app in Hf; simpl in Hf; rewrite length_app; lia).
  destruct (decide (a ++ b = [])) as [E|E].
  - rewrite bool_decide_true in Hacc |- * by done. simpl. destruct Hacc as (l & Hlf & Hacc).
    apply wp_bind. eapply wp_intro; [exact Hacc|].
    apply wp_bind. eapply wp_mono; [eapply hibernate_cpu_spec; [apply wf_with_lock; [exact Hw1|lia]|simpl; rewrite length_insert; lia]|].
    intros _ s2 (Hw2 & Hs2). apply wp_ret. split; [done|]. unfold lock_free in *. by rewrite Hs2.
  - rewrite bool_decide_false in Hacc |- * by done. simpl. specialize (Hs E ltac:(lia)).
    destruct (existsb (can_run now s) (a ++ b)) eqn:Ex; simpl; rewrite <- Hr1 in Hs, E.
    + apply wp_bind. eapply wp_intro; [exact Hacc|].
      eapply (tick_tail_safe _ s1 _ _ _ _ _ true _ (first_run (woken now (a ++ b) s1) (a ++ b))); try done; [lia|rewrite Hr1; lia|].
      simpl. rewrite Hs. rewrite Hr1. split; [done|]. apply first_run_in.
    + unfold mbind, M_bind. rewrite Hacc. eapply tick_tail_spins; [exact Hw1|lia|done|rewrite Hr1; lia|done].
Qed.

(** C1. A timer tick on a well-formed state, with fuel for one turn of the
    queue, does one of two things. If the active thread has terminated, is the
    thread of the current node, and leaves behind only threads that cannot run,
    none of them a sleeper that is due, the tick never ends, whatever the fuel.
    In every other case it ends without a fault, with the run queues well
    formed and the lock of the core free; the node of the terminated thread is
    out of the queue, and no other node comes or goes. *)
Theorem vxSchedulerTick_safe fuel s rings c :
  wf s rings → 0 ≤ c < zlen (k_sched s) → lock_free c s → (length (at_ rings c) ≤ fuel)%nat →
  let q := current_of (at_ (k_sched s) c) in
  let tick := vxSchedulerTick sch_idle_loop kernel_context_restore fuel c in
  if stranded (hpet_count (k_reads s)) s rings c q then tick s = NoFuel
  else ∃ r s', tick s = Ok (r, s') ∧ wf s' (rings_left s rings c q) ∧ lock_free c s'.
Proof.
  intros Hwf Hc Hlf Hf q tick. set (now := hpet_count (k_reads s)).
  destruct (tick_begin s rings c Hwf Hc Hlf) as (r & s1 & Hrun & Hwf1 & Hv & Hr).
  unfold tick. rewrite vxSchedulerTick_unfold, Hrun. clear tick Hrun. destruct Hv as (Ht & Hn & _ & Hrd & Hln & _ & Ha & _).
  pose proof (wf_cores _ _ Hwf1) as Hcl. destruct r as [q'|].
  - destruct Hr as (Hl & Hq & -> & Hcur). fold q in Hq, Hcur |- *.
    unfold mbind, M_bind, core_at. rewrite aget_ok by lia. rewrite bind_Ok. unfold vxHPETGetMainCount, mbind, M_bind. simpl.
    rewrite Hrd. fold now. set (s2 := set_k_reads (Datatypes.S (k_reads s)) s1).
    assert (wf s2 rings) as Hwf2 by (by apply wf_reads).
    assert (leaving s2 c q = leaving s c q) as Hlv by (unfold leaving, s2; simpl; by rewrite Hn, Ht, Ha).
    assert (stranded now s2 rings c q = stranded now s rings c q) as Hst.
    { unfold stranded. rewrite Hlv. unfold can_run, s2. simpl. by rewrite Hn, Ht. }
    rewrite <- Hst. unfold rings_left. rewrite <- Hlv. destruct (leaving s2 c q) eqn:E.
    + pose proof (tick_main_leaves fuel s2 rings c q now Hwf2 ltac:(simpl; lia) Hl Hq Hcur Hf E) as Hm. cbv zeta in Hm.
      destruct (stranded now s2 rings c q); [exact Hm|]. apply wp_elim in Hm as (r & s' & Hm & Hw & Hlf').
      exists r, s'. split; [exact Hm|]. unfold rings_left in Hw. by rewrite E in Hw.
    + unfold stranded. rewrite E. simpl.
      pose proof (tick_main_stays fuel s2 rings c q now Hwf2 ltac:(simpl; lia) Hl Hq Hcur Hf E) as Hm.
      apply wp_elim in Hm as (r & s' & Hm & Hw & Hlf'). exists r, s'. split; [exact Hm|done].
  - destruct Hr as (Hl & Hr). unfold stranded, rings_left. rewrite Hr. simpl. rewrite andb_false_r. simpl.
    pose proof (hibernate_cpu_spec sch_idle_loop s1 rings c Hwf1 ltac:(lia)) as Hh. apply wp_elim in Hh as ([] & s2 & Hh & Hw2 & Hs2).
    exists Iret, s2. unfold mbind, M_bind. rewrite Hh. split; [done|]. split; [|unfold lock_free; by rewrite Hs2].
    destruct (leaving s c q); [|done]. change (others q []) with (@nil Z). rewrite list_insert_id; [done|]. rewrite <- Hr. unfold at_.
    apply list_lookup_lookup_total_lt. pose proof (wf_rings _ _ Hwf). lia.
Qed.

(** ** Preemption *)

Lemma accounted_view c s s' now x :
  same_view c s s' → accounted c s' now x = accounted c s now x ∧ from_stack c s' = from_stack c s.
Proof.
  intros (_ & _ & Hf & _ & _ & Hs & _ & Hfs & Hkg). unfold accounted, charged, from_stack.
  by rewrite Hf, Hs, Hfs, Hkg.
Qed.

Lemma first_run_ext s s' l :
  k_nodes s' = k_nodes s → k_threads s' = k_threads s → first_run s' l = first_run s l.
Proof. intros Hn Ht. unfold first_run, runb. by rewrite Hn, Ht. Qed.

(** The state of the preempted thread. *)
Definition preempted (c : Z) (s : ks) (x x' : thread) : Prop :=
  t_state x' = THREAD_STATE_READY ∧ t_reg x' = vxSaveRegister (k_frame s) (t_reg x) ∧
  t_fs_base x' = co_fs (at_ (k_cores s) c) ∧ t_gs_base x' = co_kgs (at_ (k_cores s) c).

Lemma accounted_preempted c s now x :
  t_state x = THREAD_STATE_RUNNING → from_stack c s = false → slice_over now (stamped now x) = true →
  preempted c s x (wake_thread now (accounted c s now x)) ∧ preempted c s x (accounted c s now x).
Proof.
  intros Hr Hf Hs. unfold accounted. rewrite Hr, Hf. simpl. unfold charged.
  change (elapsed now (set_t_gs_base _ _)) with (elapsed now (stamped now x)).
  unfold slice_over in Hs. rewrite Hs. simpl. unfold wake_thread. simpl. unfold preempted. simpl.
  unfold stamped. by destruct (t_has_update_run_time x).
Qed.

Lemma preempted_untimed c s x x' y : untimed y = untimed x' → preempted c s x x' → preempted c s x y.
Proof.
  intros E (? & ? & ? & ?). apply untimed_eq in E. unfold preempted.
  destruct E as (_ & -> & _ & _ & _ & -> & -> & _ & _ & _ & _ & _ & -> & _). done.
Qed.

Lemma wants_preempt c s0 now active thr x :
  t_state x = THREAD_STATE_RUNNING → slice_over now (stamped now x) = true →
  wants_switch c s0 now active thr x = true.
Proof. intros Hr Hs. unfold wants_switch. rewrite Hr, Hs. simpl. by destruct (from_stack c s0). Qed.

(** The state the choice of the next thread sees. *)
Definition charged_state (c now : Z) (ring : list Z) (active : Z) (s : ks) : ks :=
  woken now ring (set_k_threads (alter (accounted c s now) active (k_threads s)) s).

Lemma tick_main_preempts fuel s rings c a q b nq x now nf n :
  wf s rings → 0 ≤ c < zlen (k_sched s) → lock_held c s → (length (at_ rings c) ≤ fuel)%nat →
  at_ rings c = a ++ q :: b → k_nodes s !! q = Some nq →
  co_active_thread (at_ (k_cores s) c) = n_thread nq → k_threads s !! n_thread nq = Some x →
  t_state x = THREAD_STATE_RUNNING → from_stack c s = false → slice_over now (stamped now x) = true →
  let s1 := charged_state c now (at_ rings c) (n_thread nq) s in
  let found := first_run s1 (search_order a q b) in
  found ≠ 0 → k_nodes s !! found = Some nf → k_threads s1 !! n_thread nf = Some n →
  t_state n = THREAD_STATE_READY ∨ t_in_kernel_sleep n = true →
  wp (tick_main fuel c q now (co_active_thread (at_ (k_cores s) c))) s (λ r s',
    wf s' rings ∧ lock_free c s' ∧ dispatched c found (n_thread nf) n s1 s' r).
Proof.
  intros Hwf Hc Hl Hf Hr Hnq Ha Hx Hst Hfs Hso s1 found Hf0 Hnf Hn Hrd.
  destruct (wf_threads _ _ Hwf _ _ Hx) as (Hz & _).
  pose proof (tick_account_run s rings c a q b nq now (n_thread nq) x Hwf Hc Hl Hr Hnq Ha Hz Hx) as Hacc.
  pose proof (after_account_ok s rings c a q b nq now (n_thread nq) x Hwf Hc Hl Hr Hnq) as (Hwf4 & Hl4 & Hln4 & _).
  unfold after_account in *. rewrite Hst in Hacc, Hwf4, Hl4, Hln4. simpl in Hacc, Hwf4, Hl4, Hln4.
  rewrite Hfs, wants_preempt in Hacc by done. set (s4 := set_k_threads _ s) in *.
  unfold tick_main. apply wp_bind. eapply wp_intro; [done|].
  assert (wf s1 rings) as Hwf5 by (by apply (wf_wake_ring s4)).
  eapply wp_mono.
  - apply (tick_tail_spec _ _ fuel s4 rings c q now _ true false found); try done; [rewrite Hr; by destruct a|].
    split; [|destruct (first_run_in s1 (search_order a q b)) as [E|E]].
    + apply (tick_search_run fuel s1 rings c a q b false Hwf5); done.
    + by left.
    + right. rewrite Hr. by apply search_order_in.
  - intros r s' (Hw & Hlf' & Hd). split; [done|]. split; [done|]. by apply Hd.
Qed.

(** C2. Preemption is exact: when the running thread of the current node has
    used its time slice, the tick saves the interrupted registers, FS and GS
    in it and makes it ready; it chooses the first runnable thread after it
    in queue order, and leaves with the registers of that thread in the
    interrupt frame (or through its kernel context if it sleeps in the
    kernel); every other thread keeps its state. *)
Theorem vxSchedulerTick_preempts fuel s rings c a q b nq x nf n :
  wf s rings → 0 ≤ c < zlen (k_sched s) → lock_free c s → (length (at_ rings c) ≤ fuel)%nat →
  at_ rings c = a ++ q :: b → current_of (at_ (k_sched s) c) = q → k_nodes s !! q = Some nq →
  co_active_thread (at_ (k_cores s) c) = n_thread nq → k_threads s !! n_thread nq = Some x →
  t_state x = THREAD_STATE_RUNNING → from_stack c s = false →
  let now := hpet_count (k_reads s) in
  slice_over now (stamped now x) = true →
  let s1 := charged_state c now (at_ rings c) (n_thread nq) s in
  let found := first_run s1 (search_order a q b) in
  found ≠ 0 → k_nodes s !! found = Some nf → k_threads s1 !! n_thread nf = Some n →
  t_state n = THREAD_STATE_READY ∨ t_in_kernel_sleep n = true →
  ∃ r s', vxSchedulerTick sch_idle_loop kernel_context_restore fuel c s = Ok (r, s') ∧
    wf s' rings ∧ lock_free c s' ∧ dispatched c found (n_thread nf) n s1 s' r ∧
    (n_thread nf ≠ n_thread nq → ∃ x', k_threads s' !! n_thread nq = Some x' ∧ preempted c s x x').
Proof.
  intros Hwf Hc Hlf Hf Hr Hcur Hnq Ha Hx Hst Hfs now Hso s1 found Hf0 Hnf Hn Hrd.
  enough (wp (vxSchedulerTick sch_idle_loop kernel_context_restore fuel c) s (λ r s',
    wf s' rings ∧ lock_free c s' ∧ dispatched c found (n_thread nf) n s1 s' r)) as Hw.
  { apply wp_elim in Hw as (r & s' & Hw & Hwf' & Hlf' & Hd). exists r, s'.
    split; [done|]. split; [done|]. split; [done|]. split; [done|]. intros Hne.
    destruct Hd as (_ & _ & Ho & _). specialize (Ho (n_thread nq) ltac:(done)).
    unfold s1, charged_state, woken in Ho. simpl in Ho. rewrite wake_ring_lookup, lookup_alter_eq, Hx in Ho.
    destruct (accounted_preempted c s now x Hst Hfs Hso) as (Hp1 & Hp2).
    simpl in Ho. apply fmap_Some in Ho as (y & Hy & Ho). exists y. split; [done|]. symmetry in Ho.
    destruct (decide _); eapply preempted_untimed; eauto. }
  destruct (tick_begin s rings c Hwf Hc Hlf) as (r & s2 & Hrun & Hwf2 & Hv2 & Hr2).
  rewrite vxSchedulerTick_unfold. eapply wp_same; [apply Hrun|].
  destruct r as [q'|]; [|destruct Hr2 as (_ & E); rewrite Hr in E; by destruct a].
  destruct Hr2 as (Hl & Hq & -> & Hcur'). rewrite Hcur in Hq, Hcur' |- *.
  destruct (Hv2) as (Ht2 & Hn2 & Hf2 & Hrd2 & Hln2 & _ & Ha2 & _). pose proof (wf_cores _ _ Hwf2) as Hcl.
  apply wp_bind, wp_core_at; [lia|]. apply wp_bind. eapply wp_intro; [done|].
  rewrite Hrd2. fold now. set (s3 := set_k_reads (Datatypes.S (k_reads s)) s2).
  destruct (accounted_view c s s2 now x Hv2) as (Hac & Hfs2). rewrite Hfs in Hfs2.
  set (s4 := charged_state c now (at_ rings c) (n_thread nq) s3).
  assert (k_threads s4 = k_threads s1) as Ht4.
  { unfold s4, s1, s3, charged_state, woken. simpl. rewrite Ht2, Hn2. f_equal.
    apply (alter_ext_at _ _ _ _ x Hx). exact Hac. }
  assert (k_nodes s4 = k_nodes s1) as Hn4 by exact Hn2.
  assert (k_frame s4 = k_frame s1) as Hf4 by exact Hf2.
  assert (first_run s4 (search_order a q b) = found) as Hfnd by (by apply first_run_ext).
  eapply wp_mono; [apply (tick_main_preempts fuel s3 rings c a q b nq x now nf n)|].
  all: fold s4; rewrite ?Hfnd, ?Ht4; unfold s3; simpl; rewrite ?Hn2, ?Ht2, ?Ha2; try done.
  - by apply wf_reads.
  - lia.
  - intros r s' (Hw & Hl' & Hd). split; [done|]. split; [done|].
    unfold dispatched in *. by rewrite Ht4, Hf4 in Hd.
Qed.

(** ** Round robin *)




(** The tick wakes exactly the sleepers that are due: over the threads of
    the queue, a blocked thread whose wake-up time is set and reached becomes
    ready with a pending wake; every other thread and everything else is
    unchanged, whatever the length of the queue. *)
Theorem tick_wakeups_due fuel s rings c now :
  wf s rings → 0 ≤ c < zlen (k_sched s) → at_ rings c ≠ [] → (length (at_ rings c) ≤ fuel)%nat →
  let head := sc_head (at_ (k_sched s) c) in
  ∃ threads, tick_wakeups fuel head head now s = Ok ((), set_k_threads threads s) ∧
    wf (set_k_threads threads s) rings ∧
    ∀ t, threads !! t =
      (if decide (t ∈ thread_of (k_nodes s) <$> at_ rings c) then wake_thread now else id) <$> k_threads s !! t.
Proof.
  intros Hwf Hc Hne Hf head. eexists. split; [by eapply tick_wakeups_ring|].
  split; [by apply wf_wake_ring|]. intros t. apply wake_ring_lookup.
Qed.

(** ** Attaching a thread *)

(** No node of a run queue holds thread [t]. *)
Definition unqueued (s : ks) (rings : list (list Z)) (t : Z) : Prop :=
  ∀ c q n, 0 ≤ c < zlen (k_sched s) → q ∈ at_ rings c → k_nodes s !! q = Some n → n_thread n ≠ t.

Lemma wf_set_unqueued s rings t f :
  wf s rings → unqueued s rings t → (∀ x, valid_thread s x → valid_thread s (f x)) →
  wf (set_k_threads (alter f t (k_threads s)) s) rings.
Proof.
  intros Hwf Hu Hv. pose proof Hwf as [? ? ? ? ? Hn Ht Ha]. constructor; try done; simpl.
  - intros c q n Hc Hq Hqn. destruct (Hn c q n Hc Hq Hqn) as (x & Hx & Hcx). exists x.
    rewrite lookup_alter_ne; [done|]. intros E. by eapply (Hu c q n).
  - intros i x Hx. apply alter_lookup_inv in Hx as (x0 & Hx0 & ->). destruct (Ht i x0 Hx0) as (? & Hv0).
    split; [done|]. destruct (decide _); [by apply Hv|done].
  - intros c Hc. destruct (Ha c Hc) as [|[x Hx]]; [by left|right]. rewrite lookup_alter_fmap, Hx. by eexists.
Qed.

(** The core [attach_to_scheduler] puts thread [x] on. *)
Definition attach_core (s : ks) (x : thread) : res Z :=
  if negb (t_core_affinity x =? 0xFFFF) then Ok (t_core_affinity x) else choose_core (k_hint s).

Lemma attach_chooses s x c :
  attach_core s x = Ok c →
  wp (if negb (t_core_affinity x =? 0xFFFF) then mret (t_core_affinity x)
      else
        hint ← get k_hint;
        when (1 <? active_core_count) (modify (set_k_hint (u16 (hint + 1)))) ;;
        lift (choose_core hint)) s (λ r s', r = c ∧ ∃ h, s' = set_k_hint h s).
Proof.
  assert (s = set_k_hint (k_hint s) s) as Hs by (by destruct s).
  unfold attach_core. intros Hcore. destruct (negb (t_core_affinity x =? 0xFFFF)).
  - apply wp_ret. injection Hcore as <-. eauto.
  - apply wp_bind, wp_get. apply wp_bind, wp_when; intros _;
      [apply wp_modify|]; (eapply wp_lift; [done|]); eauto.
Qed.

Lemma linked_with_new nodes ns q t : thread_of (linked_with nodes ns q t) q = t.
Proof.
  unfold thread_of, linked_with, append_nodes. destruct (decide (ns = [])); [by rewrite lookup_insert_eq|].
  rewrite !lookup_alter_fmap, lookup_insert_eq. by repeat destruct (decide _).
Qed.

(** Attaching a thread that is in no run queue puts a new node for it at
    the end of the queue of the core chosen for it, makes it ready on that
    core, and keeps every run queue well formed. *)
Theorem attach_to_scheduler_queues s rings t x queue c :
  wf s rings → k_threads s !! t = Some x → unqueued s rings t →
  attach_core s x = Ok c → 0 ≤ c < zlen (k_sched s) → lock_free c s →
  queue ≠ 0 → (∀ d, 0 ≤ d < zlen (k_sched s) → queue ∉ at_ rings d) →
  ∃ s', attach_to_scheduler t queue s = Ok ((), s') ∧
    wf s' (<[Z.to_nat c := at_ rings c ++ [queue]]> rings) ∧ lock_free c s' ∧
    thread_of (k_nodes s') queue = t ∧
    k_threads s' !! t = Some (set_t_state THREAD_STATE_READY (set_t_core_affinity c x)) ∧
    ∀ t', t' ≠ t → k_threads s' !! t' = k_threads s !! t'.
Proof.
  intros Hwf Hx Hu Hcore Hc Hf Hq0 Hqf. destruct (wf_threads _ _ Hwf t x Hx) as (Ht0 & _).
  enough (wp (attach_to_scheduler t queue) s (λ _ s',
    wf s' (<[Z.to_nat c := at_ rings c ++ [queue]]> rings) ∧ lock_free c s' ∧
    thread_of (k_nodes s') queue = t ∧
    k_threads s' !! t = Some (set_t_state THREAD_STATE_READY (set_t_core_affinity c x)) ∧
    ∀ t', t' ≠ t → k_threads s' !! t' = k_threads s !! t')) as Hw.
  { apply wp_elim in Hw as ([] & s' & Hw & Hp). eauto. }
  unfold attach_to_scheduler. rewrite (proj2 (Z.eqb_neq _ _) Ht0).
  apply wp_bind, (wp_thread_at _ x); [done|].
  apply wp_bind, (wp_mono _ _ (λ r s', r = c ∧ ∃ h, s' = set_k_hint h s)).
  { by apply attach_chooses. }
  intros ? s1 (-> & h & ->). set (s1 := set_k_hint h s).
  assert (wf s1 rings) as Hwf1 by (by apply wf_hint).
  apply wp_bind, wp_set_thread; [by exists x|]. apply wp_bind, wp_set_thread.
  { simpl. rewrite lookup_alter_eq, Hx. by eexists. }
  rewrite set_threads_twice. simpl k_threads. rewrite alter_alter.
  set (s2 := set_k_threads _ s1).
  assert (wf s2 rings) as Hwf2 by (by apply (wf_set_unqueued s1)).
  assert (k_threads s2 !! t = Some (set_t_state THREAD_STATE_READY (set_t_core_affinity c x))) as Hx2.
  { unfold s2. simpl. by rewrite lookup_alter_eq, Hx. }
  destruct (vxAllocScheduler_run s2 rings c t queue Hwf2) as (l & Hl & Hrun); [done|done|done|by apply Hqf|].
  apply wp_bind. eapply wp_intro; [exact Hrun|]. apply wp_ret. split; [|split; [|split; [|split]]].
  - by eapply wf_appended.
  - unfold lock_free. simpl. by rewrite at_insert_eq.
  - apply linked_with_new.
  - done.
  - intros t' Hne. unfold s2. simpl. by rewrite lookup_alter_ne.
Qed.

End props.

(** ** Witnesses *)

Definition running_one : thread := demo_thread THREAD_STATE_RUNNING 0x100.
Definition ready_two : thread := demo_thread THREAD_STATE_READY 0x200.
Definition blocked_two : thread := demo_thread THREAD_STATE_BLOCKED 0x200.

(** A terminated thread leaves: to a ready one, and to a blocked one. *)
Definition ended_one : thread := demo_thread THREAD_STATE_TERMINATED 0x100.

Lemma vxSchedulerTick_safe_witness :
  (∃ r s', @vxSchedulerTick demo_platform 0x5000 0x6000 2 0 (duo ended_one ready_two 0x111) = Ok (r, s') ∧
    wf s' [[2000]] ∧ lock_free 0 s') ∧
  @vxSchedulerTick demo_platform 0x5000 0x6000 2 0 (duo ended_one blocked_two 0x111) = NoFuel.
Proof.
  split.
  - apply (@vxSchedulerTick_safe demo_platform 0x5000 0x6000 2 (duo ended_one ready_two 0x111) [[1000; 2000]] 0);
      [by apply duo_wf|done|done|vm_compute; lia].
  - apply (@vxSchedulerTick_safe demo_platform 0x5000 0x6000 2 (duo ended_one blocked_two 0x111) [[1000; 2000]] 0);
      [by apply duo_wf|done|done|vm_compute; lia].
Defined.

Lemma vxSchedulerTick_preempts_witness :
  ∃ r s', @vxSchedulerTick demo_platform 0x5000 0x6000 2 0 (duo running_one ready_two 0x111) = Ok (r, s') ∧
    wf s' [[1000; 2000]] ∧ lock_free 0 s' ∧
    dispatched 0 2000 2 ready_two
      (@charged_state demo_platform 0 1000000 [1000; 2000] 1 (duo running_one ready_two 0x111)) s' r ∧
    (2 ≠ 1 → ∃ x', k_threads s' !! 1 = Some x' ∧ preempted 0 (duo running_one ready_two 0x111) running_one x').
Proof.
  apply (@vxSchedulerTick_preempts demo_platform 0x5000 0x6000 2 (duo running_one ready_two 0x111)
    [[1000; 2000]] 0 [] 1000 [2000] (mkNode 1 2000 2000) running_one (mkNode 2 1000 1000) ready_two).
  - by apply duo_wf.
  - done.
  - done.
  - vm_compute. lia.
  - done.
  - done.
  - vm_compute. reflexivity.
  - done.
  - vm_compute. reflexivity.
  - done.
  - vm_compute. reflexivity.
  - vm_compute. reflexivity.
  - vm_compute. discriminate.
  - vm_compute. reflexivity.
  - vm_compute. reflexivity.
  - by left.
Defined.


(** Thread 2 sleeps until time 50. *)
Definition sleeping_two : thread := set_t_wakeup_time 50 blocked_two.

Lemma tick_wakeups_due_witness :
  ∃ threads, tick_wakeups 2 1000 1000 60 (duo running_one sleeping_two 0x111) =
      Ok ((), set_k_threads threads (duo running_one sleeping_two 0x111)) ∧
    wf (set_k_threads threads (duo running_one sleeping_two 0x111)) [[1000; 2000]] ∧
    ∀ t, threads !! t =
      (if decide (t ∈ thread_of duo_nodes <$> [1000; 2000]) then wake_thread 60 else id) <$>
      ({[1 := running_one; 2 := sleeping_two]} : gmap Z thread) !! t.
Proof.
  apply (tick_wakeups_due 2 (duo running_one sleeping_two 0x111) [[1000; 2000]] 0 60).
  - by apply duo_wf.
  - done.
  - done.
  - vm_compute. lia.
Defined.

(** The queue holds thread 2 only; thread 1 is attached. *)
Lemma attach_to_scheduler_queues_witness :
  ∃ s', @attach_to_scheduler demo_platform 1 3000 (solo (demo_thread THREAD_STATE_CREATE 0) blocked_two 0x111)
      = Ok ((), s') ∧
    wf s' [[2000; 3000]] ∧ lock_free 0 s' ∧ thread_of (k_nodes s') 3000 = 1 ∧
    k_threads s' !! 1 = Some (set_t_state THREAD_STATE_READY
      (set_t_core_affinity 0 (demo_thread THREAD_STATE_CREATE 0))) ∧
    ∀ t', t' ≠ 1 → k_threads s' !! t' =
      k_threads (solo (demo_thread THREAD_STATE_CREATE 0) blocked_two 0x111) !! t'.
Proof.
  apply (@attach_to_scheduler_queues demo_platform
    (solo (demo_thread THREAD_STATE_CREATE 0) blocked_two 0x111) [[2000]] 1
    (demo_thread THREAD_STATE_CREATE 0) 3000 0).
  - by apply solo_wf.
  - vm_compute. reflexivity.
  - intros c q n Hc Hq Hn. assert (c = 0) as -> by (unfold solo, demo_state in Hc; simpl in Hc; lia).
    apply elem_of_cons in Hq as [->|Hq%elem_of_nil]; [|done]. vm_compute in Hn. by injection Hn as <-.
  - done.
  - done.
  - done.
  - done.
  - intros d Hd. assert (d = 0) as -> by (unfold solo, demo_state in Hd; simpl in Hd; lia).
    change (3000 ∉ [2000]). set_solver.
Defined.

(** ** A thread that stays ready while it runs *)

(** The interrupt frame and the state of thread 2 between two ticks. *)
Definition interlude (rip : Z) (s : ks) : ks :=
  set_k_frame (demo_frame rip) (set_k_threads (alter (set_t_state THREAD_STATE_READY) 2 (k_threads s)) s).

(** Two ticks, the first while thread 2 is blocked: its slice over, thread 1
    becomes ready but runs on, as no other thread is.  At the second tick it
    is no longer in the running state, so its registers are not saved: it
    was interrupted at 0x222 and will resume at 0x111. *)
Example ready_thread_resumes_in_the_past :
  (match @vxSchedulerTick demo_platform 0x5000 0x6000 2 0 (duo running_one blocked_two 0x111) with
   | Ok (_, s1) =>
       match @vxSchedulerTick demo_platform 0x5000 0x6000 2 0 (interlude 0x222 s1) with
       | Ok (_, s2) => Some (f_rip (k_frame s1), f_rip (k_frame s2), (r_rip ∘ t_reg) <$> k_threads s2 !! 1)
       | _ => None
       end
   | _ => None
   end) = Some (0x111, 0x200, Some 0x111).
Proof. vm_compute. reflexivity. Qed.
