(* ===== verification/SchedWake.v ===== *)
(** * Blocking against waking, step by step

    [thread_block] and [thread_sleep] race with [vxThreadWake] on another
    core: no lock orders them, only the fences after the stores.  Each store
    and load of the fields the three share is one step here, and the steps
    of the blocking thread and of any number of wakers interleave. *)

From S2P Require Import Prelude Spinlock Cpu Signal SchedState Sched SchedQueue SchedWf SchedTick SchedProps.

(** The fields of the thread the routines share. *)
Record shared := mkShared { sh_state : Z; sh_wake : bool; sh_sleep : bool }.

(** The blocking side. [thread_block] goes through [BSleep], [BMark],
    [BCheck]; [thread_sleep] through [SSleep], [SCheck], [SMark]. *)
Inductive bpc :=
  | BSleep | BMark | BCheck | BClear | BUnsleep | BRun
  | SSleep | SCheck | SMark | SClear | SUnsleep
  | Asleep | RUnsleep | RClear | RRun | Returned.

(** [thread->in_kernel_sleep = true] to the return, or to the switch and, once
    the scheduler finds the thread runnable, from there to the return. *)
Definition block_step (h : shared) (p : bpc) : option (shared * bpc) :=
  match p with
  | BSleep => Some (mkShared (sh_state h) (sh_wake h) true, BMark)
  | BMark => Some (mkShared THREAD_STATE_BLOCKED (sh_wake h) (sh_sleep h), BCheck)
  | BCheck => Some (h, if sh_wake h then BClear else Asleep)
  | BClear => Some (mkShared (sh_state h) false (sh_sleep h), BUnsleep)
  | BUnsleep => Some (mkShared (sh_state h) (sh_wake h) false, BRun)
  | BRun => Some (mkShared THREAD_STATE_RUNNING (sh_wake h) (sh_sleep h), Returned)
  | SSleep => Some (mkShared (sh_state h) (sh_wake h) true, SCheck)
  | SCheck => Some (h, if sh_wake h then SClear else SMark)
  | SMark => Some (mkShared THREAD_STATE_BLOCKED (sh_wake h) (sh_sleep h), Asleep)
  | SClear => Some (mkShared (sh_state h) false (sh_sleep h), SUnsleep)
  | SUnsleep => Some (mkShared (sh_state h) (sh_wake h) false, Returned)
  | Asleep => if runnable_state (sh_state h) then Some (h, RUnsleep) else None
  | RUnsleep => Some (mkShared (sh_state h) (sh_wake h) false, RClear)
  | RClear => Some (mkShared (sh_state h) false (sh_sleep h), RRun)
  | RRun => Some (mkShared THREAD_STATE_RUNNING (sh_wake h) (sh_sleep h), Returned)
  | Returned => None
  end.

(** [vxThreadWake]: store [wake_pending], load the state, store the state. *)
Inductive wpc := WSet | WCheck | WRun | WDone.

Definition wake_step (h : shared) (p : wpc) : option (shared * wpc) :=
  match p with
  | WSet => Some (mkShared (sh_state h) true (sh_sleep h), WCheck)
  | WCheck => Some (h, if sh_state h =? THREAD_STATE_BLOCKED then WRun else WDone)
  | WRun => Some (mkShared THREAD_STATE_RUNNING (sh_wake h) (sh_sleep h), WDone)
  | WDone => None
  end.

(** The blocking thread and the wakers. *)
Record race := mkRace { mem : shared; blocker : bpc; wakers : list wpc }.

Inductive race_step (r : race) : race → Prop :=
  | step_block h p : block_step (mem r) (blocker r) = Some (h, p) → race_step r (mkRace h p (wakers r))
  | step_wake i w h w' : wakers r !! i = Some w → wake_step (mem r) w = Some (h, w') →
      race_step r (mkRace h (blocker r) (<[i := w']> (wakers r))).

Definition race_start (p : bpc) (n : nat) : race :=
  mkRace (mkShared THREAD_STATE_RUNNING false false) p (replicate n WSet).

(** A run of the race as a list of choices: [None] is a step of the blocking
    thread, [Some i] one of waker [i]. *)
Fixpoint race_run (l : list (option nat)) (r : race) : option race :=
  match l with
  | [] => Some r
  | None :: l => '(h, p) ← block_step (mem r) (blocker r); race_run l (mkRace h p (wakers r))
  | Some i :: l =>
      w ← wakers r !! i; '(h, w') ← wake_step (mem r) w;
      race_run l (mkRace h (blocker r) (<[i := w']> (wakers r)))
  end.

(** ** The invariant *)

Definition unstarted (ws : list wpc) : Prop := ∀ i w, ws !! i = Some w → w = WSet.
Definition unfinished (ws : list wpc) : Prop := ∀ i, ws !! i ≠ Some WDone.

(** Before its check [thread_block] sees the wake of every waker that has
    started; once it is asleep, it is runnable as soon as one has finished. *)
Definition race_inv (r : race) : Prop :=
  match blocker r with
  | BSleep | BMark => sh_wake (mem r) = false → unstarted (wakers r)
  | BCheck => (sh_wake (mem r) = false → unstarted (wakers r)) ∧
              (sh_state (mem r) = THREAD_STATE_BLOCKED ∨ sh_state (mem r) = THREAD_STATE_RUNNING)
  | Asleep => sh_state (mem r) = THREAD_STATE_RUNNING ∨
              sh_state (mem r) = THREAD_STATE_BLOCKED ∧ unfinished (wakers r)
  | SSleep | SCheck | SMark | SClear | SUnsleep => False
  | Returned => sh_state (mem r) = THREAD_STATE_RUNNING
  | _ => True
  end.

Lemma insert_inv {A} (l : list A) i j x y : <[i := x]> l !! j = Some y → y = x ∨ l !! j = Some y.
Proof. rewrite list_lookup_insert. case_decide; [intros; simplify_eq; auto|auto]. Qed.

Lemma unfinished_insert ws i w : unfinished ws → w ≠ WDone → unfinished (<[i := w]> ws).
Proof. intros Hu Hw j Hj. apply insert_inv in Hj as [E|Hj]; [by apply Hw|by apply (Hu j)]. Qed.

Lemma race_inv_block r h p :
  race_inv r → block_step (mem r) (blocker r) = Some (h, p) → race_inv (mkRace h p (wakers r)).
Proof.
  destruct r as [m q ws]. unfold race_inv. simpl. intros Hi Hs.
  destruct q; simpl in Hs; try done; simplify_eq/=; try done; auto.
  - destruct Hi as (Hf & Hst). destruct (sh_wake h); [done|].
    destruct Hst as [?|?]; [right|by left]. split; [done|]. intros i Hin. by apply (Hf eq_refl) in Hin.
  - destruct (runnable_state (sh_state m)); [|done]. by simplify_eq/=.
Qed.

Lemma race_inv_wake r i w h w' :
  race_inv r → wakers r !! i = Some w → wake_step (mem r) w = Some (h, w') →
  race_inv (mkRace h (blocker r) (<[i := w']> (wakers r))).
Proof.
  destruct r as [m p ws]. unfold race_inv. simpl. intros Hi Hw Hs.
  assert (∀ P : Prop, (sh_wake m = false → unstarted ws) → w ≠ WSet → sh_wake m = false → P) as Hst.
  { intros P Hf Hne E. destruct Hne. by apply (Hf E i). }
  destruct w; simpl in Hs; simplify_eq/=; destruct p; try done; simpl; auto.
  all: try (intros E; by eapply Hst).
  all: try (destruct Hi as (Hi & Hor); split; [intros E; by eapply Hst|by auto]).
  - destruct Hi as [?|(? & Hn)]; [by left|right]. split; [done|]. by apply unfinished_insert.
  - destruct Hi as [?|(E & Hn)]; [by left|right]. split; [done|]. rewrite E. by apply unfinished_insert.
Qed.

Lemma race_inv_step r r' : race_inv r → race_step r r' → race_inv r'.
Proof. intros Hi [h p Hs|i w h w' Hw Hs]; [by apply race_inv_block|by eapply race_inv_wake]. Qed.

Lemma race_inv_start n : race_inv (race_start BSleep n).
Proof. intros _ i w Hw. by apply lookup_replicate in Hw as (-> & _). Qed.

(** ** No wake is lost by [thread_block] *)

(** C6. Whatever the interleaving of [thread_block] with any number of calls
    of [vxThreadWake]: once one of the wakers has finished, the thread is not
    left asleep in the blocked state; it has returned, or its next step is
    enabled. *)
Theorem thread_block_no_lost_wake n r i :
  rtc race_step (race_start BSleep n) r → wakers r !! i = Some WDone →
  blocker r = Returned ∧ sh_state (mem r) = THREAD_STATE_RUNNING ∨
  is_Some (block_step (mem r) (blocker r)).
Proof.
  intros Hr Hd. assert (race_inv r) as Hi.
  { clear Hd. revert Hr. generalize (race_inv_start n). intros H0 Hr.
    induction Hr as [|x y z Hs _ IH]; [done|]. apply IH. by eapply race_inv_step. }
  destruct r as [m p ws]. unfold race_inv in Hi. simpl in *.
  destruct p; try (right; by eexists); [done..| |by left].
  right. destruct Hi as [E|(_ & Hu)]; [simpl; rewrite E; by eexists|]. by destruct (Hu i).
Qed.

(** The blocker checks, a waker runs to its end, and the blocker, whose
    check found no wake, is asleep but runnable. *)
Definition raced : race :=
  mkRace (mkShared THREAD_STATE_RUNNING true true) Asleep [WDone].

Lemma race_run_rtc l : ∀ r r', race_run l r = Some r' → rtc race_step r r'.
Proof.
  induction l as [|[i|] l IH]; intros r r' Hr; simpl in Hr; [by simplify_eq|..].
  - destruct (wakers r !! i) as [w|] eqn:Ew; [|done]. simpl in Hr.
    destruct (wake_step (mem r) w) as [[h w']|] eqn:Es; [|done]. simpl in Hr.
    eapply rtc_l; [by eapply step_wake|by apply IH].
  - destruct (block_step (mem r) (blocker r)) as [[h p]|] eqn:Es; [|done]. simpl in Hr.
    eapply rtc_l; [by eapply step_block|by apply IH].
Qed.

Lemma thread_block_no_lost_wake_witness :
  blocker raced = Returned ∧ sh_state (mem raced) = THREAD_STATE_RUNNING ∨
  is_Some (block_step (mem raced) (blocker raced)).
Proof.
  apply (thread_block_no_lost_wake 1 raced 0).
  - apply (race_run_rtc [None; None; None; Some 0; Some 0; Some 0]%nat). vm_compute. reflexivity.
  - reflexivity.
Defined.

(** [thread_sleep] checks for a wake before it marks itself blocked: a waker
    that runs in between finishes without waking it, and it sleeps on, until
    its timeout. *)
Example thread_sleep_loses_wake :
  race_run [None; None; Some 0; Some 0; None]%nat (race_start SSleep 1) =
    Some (mkRace (mkShared THREAD_STATE_BLOCKED true true) Asleep [WDone]).
Proof. vm_compute. reflexivity. Qed.

(** ** The steps are those of the routines *)

Definition view (x : thread) : shared := mkShared (t_state x) (t_wake_pending x) (t_in_kernel_sleep x).

(** The blocking side alone, up to the switch or the return. *)
Fixpoint block_alone (fuel : nat) (h : shared) (p : bpc) : option (shared * bpc) :=
  match p with
  | Asleep | Returned => Some (h, p)
  | _ => match fuel with
         | O => None
         | Datatypes.S fuel => '(h, p) ← block_step h p; block_alone fuel h p
         end
  end.

Fixpoint wake_alone (fuel : nat) (h : shared) (p : wpc) : option shared :=
  match p with
  | WDone => Some h
  | _ => match fuel with
         | O => None
         | Datatypes.S fuel => '(h, p) ← wake_step h p; wake_alone fuel h p
         end
  end.

Section refine.
Context `{Platform}.

(** Thread [t] is [x], on a machine of the given size. *)
Definition here (t c : Z) (cores : list core) (scheds : list sched_core) (x : thread) (s : ks) : Prop :=
  k_threads s !! t = Some x ∧ length (k_cores s) = length cores ∧ k_sched s = scheds ∧ 0 ≤ c < zlen cores.

Section track.
Context (t c : Z) (cores : list core) (scheds : list sched_core).
Context {A : Type}.
Implicit Types (m : M A) (Q : A → ks → Prop).

Lemma here_set x s f m Q :
  here t c cores scheds x s → (∀ s', here t c cores scheds (f x) s' → wp m s' Q) → wp (set_thread t f ;; m) s Q.
Proof.
  intros (Hx & Hc & Hs & Hb) Hm. apply wp_bind, wp_set_thread; [by eexists|]. apply Hm.
  split; [|done]. simpl. by rewrite lookup_alter_eq, Hx.
Qed.

Lemma here_at x s (m : thread → M A) Q :
  here t c cores scheds x s → wp (m x) s Q → wp (y ← thread_at t; m y) s Q.
Proof. intros (Hx & _) Hm. by apply wp_bind, (wp_thread_at _ x). Qed.

Lemma here_core x s (m : core → M A) Q :
  here t c cores scheds x s → (∀ co, wp (m co) s Q) → wp (co ← core_at c; m co) s Q.
Proof. intros (_ & Hc & _ & Hb) Hm. apply wp_bind, wp_core_at; [lia|]. apply Hm. Qed.

Lemma here_set_core x s f m Q :
  here t c cores scheds x s → (∀ s', here t c cores scheds x s' → wp m s' Q) → wp (set_core c f ;; m) s Q.
Proof.
  intros (Hx & Hc & Hs & Hb) Hm. apply wp_bind, wp_set_core; [lia|]. apply Hm.
  unfold here. simpl. by rewrite length_insert.
Qed.

Lemma here_sched x s d (m : sched_core → M A) Q :
  here t c cores scheds x s → 0 ≤ d < zlen scheds → (∀ sc, wp (m sc) s Q) → wp (sc ← sched_at d; m sc) s Q.
Proof. intros (_ & _ & Hs & _) Hd Hm. apply wp_bind, wp_sched_at; [by rewrite Hs|]. apply Hm. Qed.
End track.

(** The step machines are the routines of the scheduler: run alone,
    [thread_block], its second half and [vxThreadWake] leave in the thread
    exactly what their steps leave, and [thread_block] switches away exactly
    when its steps end asleep. *)
Theorem wake_steps_refine s c t x krsp :
  0 ≤ c < zlen (k_cores s) → co_active_thread (at_ (k_cores s) c) = t → t ≠ 0 →
  k_threads s !! t = Some x → 0 ≤ t_current_core_id x < zlen (k_sched s) →
  (∃ r s' x' p, thread_block c krsp s = Ok (r, s') ∧ k_threads s' !! t = Some x' ∧
     block_alone 6 (view x) BSleep = Some (view x', p) ∧
     p = (match r with Some _ => Asleep | None => Returned end)) ∧
  (∃ s' x', thread_block_resumed t s = Ok ((), s') ∧ k_threads s' !! t = Some x' ∧
     block_alone 3 (view x) RUnsleep = Some (view x', Returned)) ∧
  (∃ s' x', vxThreadWake t s = Ok ((), s') ∧ k_threads s' !! t = Some x' ∧
     wake_alone 3 (view x) WSet = Some (view x')).
Proof.
  intros Hc Ha Ht Hx Hcc.
  assert (here t c (k_cores s) (k_sched s) x s) as Hh by done. split; [|split].
  - enough (wp (thread_block c krsp) s (λ r s', ∃ x' p, k_threads s' !! t = Some x' ∧
      block_alone 6 (view x) BSleep = Some (view x', p) ∧
      p = (match r with Some _ => Asleep | None => Returned end))) as Hw.
    { apply wp_elim in Hw as (r & s' & Hw & x' & p & Hp). eauto 10. }
    unfold thread_block. apply wp_bind, wp_core_at; [done|]. rewrite Ha.
    eapply here_set; [done|]. intros s1 H1. eapply here_set; [done|]. intros s2 H2. eapply here_at; [done|].
    simpl t_wake_pending. destruct (t_wake_pending x) eqn:Ew.
    + eapply here_set; [done|]. intros s3 H3. eapply here_set; [done|]. intros s4 H4.
      eapply here_set; [done|]. intros s5 (H5 & _). apply wp_ret. eexists _, _.
      split; [done|]. unfold view. simpl. rewrite Ew. done.
    + eapply here_set; [done|]. intros s3 H3. unfold leave_thread. apply wp_bind.
      eapply here_core; [done|]. intros co. eapply here_set; [done|]. intros s4 H4.
      eapply here_set; [done|]. intros s5 H5. eapply here_set_core; [done|]. intros s6 H6.
      eapply here_at; [done|]. eapply here_sched; [done|done|]. intros sc.
      eapply here_set; [done|]. intros s7 (H7 & _). apply wp_ret, wp_ret. eexists _, _.
      split; [done|]. unfold view. simpl. rewrite Ew. done.
  - enough (wp (thread_block_resumed t) s (λ _ s', ∃ x', k_threads s' !! t = Some x' ∧
      block_alone 3 (view x) RUnsleep = Some (view x', Returned))) as Hw.
    { apply wp_elim in Hw as ([] & s' & Hw & x' & Hp). eauto 10. }
    unfold thread_block_resumed. eapply here_set; [done|]. intros s1 H1. eapply here_set; [done|]. intros s2 H2.
    apply wp_unit. eapply here_set; [done|]. intros s3 (H3 & _). apply wp_ret. by eexists.
  - enough (wp (vxThreadWake t) s (λ _ s', ∃ x', k_threads s' !! t = Some x' ∧
      wake_alone 3 (view x) WSet = Some (view x'))) as Hw.
    { apply wp_elim in Hw as ([] & s' & Hw & x' & Hp). eauto 10. }
    unfold vxThreadWake. rewrite (proj2 (Z.eqb_neq _ _) Ht). eapply here_set; [done|]. intros s1 H1.
    eapply here_at; [done|]. simpl t_state. apply wp_when; intros E.
    + apply wp_unit. eapply here_set; [done|]. intros s2 (H2 & _). apply wp_ret. eexists.
      split; [done|]. unfold view. simpl. by rewrite E.
    + destruct H1 as (H1 & _). eexists. split; [done|]. unfold view. simpl. by rewrite E.
Qed.
End refine.

Lemma wake_steps_refine_witness :
  (∃ r s' x' p, thread_block 0 0x7000 (duo (demo_thread THREAD_STATE_RUNNING 0) (demo_thread THREAD_STATE_READY 0) 0)
       = Ok (r, s') ∧ k_threads s' !! 1 = Some x' ∧
     block_alone 6 (view (demo_thread THREAD_STATE_RUNNING 0)) BSleep = Some (view x', p) ∧
     p = (match r with Some _ => Asleep | None => Returned end)) ∧
  (∃ s' x', thread_block_resumed 1 (duo (demo_thread THREAD_STATE_RUNNING 0) (demo_thread THREAD_STATE_READY 0) 0)
       = Ok ((), s') ∧ k_threads s' !! 1 = Some x' ∧
     block_alone 3 (view (demo_thread THREAD_STATE_RUNNING 0)) RUnsleep = Some (view x', Returned)) ∧
  (∃ s' x', vxThreadWake 1 (duo (demo_thread THREAD_STATE_RUNNING 0) (demo_thread THREAD_STATE_READY 0) 0)
       = Ok ((), s') ∧ k_threads s' !! 1 = Some x' ∧
     wake_alone 3 (view (demo_thread THREAD_STATE_RUNNING 0)) WSet = Some (view x')).
Proof.
  apply (wake_steps_refine (duo (demo_thread THREAD_STATE_RUNNING 0) (demo_thread THREAD_STATE_READY 0) 0)
    0 1 (demo_thread THREAD_STATE_RUNNING 0) 0x7000).
  - done.
  - done.
  - done.
  - vm_compute. reflexivity.
  - done.
Defined.
