(* ===== verification/StateM.v ===== *)
(** * A state monad over outcomes

    Code that works on one mutable structure runs in [SM S]: a function from
    the state to an outcome with the next state.  [swp m s Q] is its weakest
    precondition for returning: [m] returns from [s] with [Q]. *)

From S2P Require Import Prelude.

Definition SM (S A : Type) : Type := S → res (A * S).

#[global] Instance SM_ret {S} : MRet (SM S) := fun _ a s => Ok (a, s).
#[global] Instance SM_bind {S} : MBind (SM S) := fun _ _ f m s =>
  match m s with Ok (a, s') => f a s' | Fault => Fault | NoFuel => NoFuel end.

Declare Scope sm_scope.
Delimit Scope sm_scope with sm.
Notation "m ;; k" := (@mbind (SM _) _ _ _ (fun _ => k) m) (at level 100, right associativity) : sm_scope.

Section ops.
Context {S : Type}.

Definition sm_get : SM S S := fun s => Ok (s, s).
Definition sm_set (s' : S) : SM S () := fun _ => Ok ((), s').
Definition sm_lift {A} (r : res A) : SM S A := fun s =>
  match r with Ok a => Ok (a, s) | Fault => Fault | NoFuel => NoFuel end.
Definition sm_when (b : bool) (m : SM S ()) : SM S () := if b then m else mret ().

Definition swp {A} (m : SM S A) (s : S) (Q : A → S → Prop) : Prop :=
  match m s with Ok (a, s') => Q a s' | _ => False end.
End ops.

Section rules.
Context {S A : Type}.
Implicit Types (Q : A → S → Prop) (s : S).

Lemma swp_elim (m : SM S A) s Q : swp m s Q → ∃ a s', m s = Ok (a, s') ∧ Q a s'.
Proof. unfold swp. destruct (m s) as [[a s']| |]; [|done..]. eauto. Qed.

Lemma swp_intro (m : SM S A) s Q a s' : m s = Ok (a, s') → Q a s' → swp m s Q.
Proof. unfold swp. by intros ->. Qed.

Lemma swp_mono (m : SM S A) s (P Q : A → S → Prop) :
  swp m s P → (∀ a s', P a s' → Q a s') → swp m s Q.
Proof. unfold swp. destruct (m s) as [[a s']| |]; naive_solver. Qed.

Lemma swp_ret (a : A) s Q : Q a s → swp (mret a) s Q.
Proof. done. Qed.

Lemma swp_bind {B} (m : SM S B) (f : B → SM S A) s Q :
  swp m s (λ b s', swp (f b) s' Q) → swp (m ≫= f) s Q.
Proof. unfold swp, mbind, SM_bind. by destruct (m s) as [[]| |]. Qed.

Lemma swp_lift (r : res A) a s Q : r = Ok a → Q a s → swp (sm_lift r) s Q.
Proof. unfold swp, sm_lift. by intros ->. Qed.

Lemma swp_if (b : bool) (m m' : SM S A) s Q :
  (b = true → swp m s Q) → (b = false → swp m' s Q) → swp (if b then m else m') s Q.
Proof. destruct b; auto. Qed.
End rules.

Lemma swp_get {S} (s : S) (Q : S → S → Prop) : Q s s → swp sm_get s Q.
Proof. done. Qed.

Lemma swp_set {S} (s s' : S) (Q : () → S → Prop) : Q () s' → swp (sm_set s') s Q.
Proof. done. Qed.

Lemma swp_when {S} b (m : SM S ()) s (Q : () → S → Prop) :
  (b = true → swp m s Q) → (b = false → Q () s) → swp (sm_when b m) s Q.
Proof. destruct b; intros H1 H2; [by apply H1|by apply H2]. Qed.

(** A last step as a step before the return. *)
Lemma swp_unit {S} (m : SM S ()) s (Q : () → S → Prop) : swp (m ≫= λ _, mret ()) s Q → swp m s Q.
Proof. unfold swp, mbind, SM_bind, mret, SM_ret. by destruct (m s) as [[[] ?]| |]. Qed.
