(* ===== verification/Rbt.v ===== *)
(** * Red-black trees with parent pointers

    [kernel/libk/tree/rbt.h]: nodes are objects in a heap keyed by address,
    with one shared sentinel [NIL]; the operations are the pointer updates of
    the code, in its order.  [key] reads the field [RBT_ID_NAME] of a data
    object. *)

From S2P Require Import Prelude StateM.

Open Scope sm_scope.

Inductive rbt_node_color := RBT_RED | RBT_BLACK.

#[global] Instance rbt_node_color_eq_dec : EqDecision rbt_node_color.
Proof. solve_decision. Defined.

Record rbt_node := mkNode {
  n_data : Z; n_left : Z; n_right : Z; n_parent : Z; n_color : rbt_node_color }.

Definition set_left (x : Z) (n : rbt_node) : rbt_node :=
  mkNode (n_data n) x (n_right n) (n_parent n) (n_color n).
Definition set_right (x : Z) (n : rbt_node) : rbt_node :=
  mkNode (n_data n) (n_left n) x (n_parent n) (n_color n).
Definition set_parent (x : Z) (n : rbt_node) : rbt_node :=
  mkNode (n_data n) (n_left n) (n_right n) x (n_color n).
Definition set_color (x : rbt_node_color) (n : rbt_node) : rbt_node :=
  mkNode (n_data n) (n_left n) (n_right n) (n_parent n) x.
Definition set_data (x : Z) (n : rbt_node) : rbt_node :=
  mkNode x (n_left n) (n_right n) (n_parent n) (n_color n).

(** The nodes and the root pointer the operations are given. *)
Record rbt := mkRbt { heap : gmap Z rbt_node; root : Z }.

Definition is_red (n : rbt_node) : bool := bool_decide (n_color n = RBT_RED).
Definition is_black (n : rbt_node) : bool := bool_decide (n_color n = RBT_BLACK).

(** [*p] and [p->field = ...]. *)
Definition node (p : Z) : SM rbt rbt_node := fun s =>
  match heap s !! p with Some n => Ok (n, s) | None => Fault end.
Definition upd (p : Z) (f : rbt_node → rbt_node) : SM rbt () := fun s =>
  match heap s !! p with
  | Some n => Ok ((), mkRbt (<[p := f n]> (heap s)) (root s))
  | None => Fault
  end.
Definition get_root : SM rbt Z := fun s => Ok (root s, s).
Definition set_root (p : Z) : SM rbt () := fun s => Ok ((), mkRbt (heap s) p).
Definition no_fuel {A} : SM rbt A := fun _ => NoFuel.

Section rbt.
Context (NIL : Z) (key : Z → res Z).

Definition rbt_rotate_left (x : Z) : SM rbt () :=
  nx ← node x;
  let y := n_right nx in
  ny ← node y;
  upd x (set_right (n_left ny)) ;;
  sm_when (negb (n_left ny =? NIL)) (upd (n_left ny) (set_parent x)) ;;
  nx ← node x;
  upd y (set_parent (n_parent nx)) ;;
  (if n_parent nx =? NIL then set_root y
   else
     np ← node (n_parent nx);
     if x =? n_left np then upd (n_parent nx) (set_left y) else upd (n_parent nx) (set_right y)) ;;
  upd y (set_left x) ;;
  upd x (set_parent y).

Definition rbt_rotate_right (y : Z) : SM rbt () :=
  ny ← node y;
  let x := n_left ny in
  nx ← node x;
  upd y (set_left (n_right nx)) ;;
  sm_when (negb (n_right nx =? NIL)) (upd (n_right nx) (set_parent y)) ;;
  ny ← node y;
  upd x (set_parent (n_parent ny)) ;;
  (if n_parent ny =? NIL then set_root x
   else
     np ← node (n_parent ny);
     if y =? n_right np then upd (n_parent ny) (set_right x) else upd (n_parent ny) (set_left x)) ;;
  upd x (set_right y) ;;
  upd y (set_parent x).

(** The two halves of the loop of [rbt_fix_insert]; the result is the next
    [y]. *)
Definition fix_insert_left (y : Z) : SM rbt Z :=
  ny ← node y;
  np ← node (n_parent ny);
  ng ← node (n_parent np);
  let x := n_right ng in
  red ← (if negb (x =? NIL) then nx ← node x; mret (is_red nx) else mret false);
  if (red : bool) then
    upd (n_parent ny) (set_color RBT_BLACK) ;;
    upd x (set_color RBT_BLACK) ;;
    upd (n_parent np) (set_color RBT_RED) ;;
    mret (n_parent np)
  else
    y ← (if y =? n_right np then rbt_rotate_left (n_parent ny) ;; mret (n_parent ny) else mret y);
    ny ← node y;
    upd (n_parent ny) (set_color RBT_BLACK) ;;
    np ← node (n_parent ny);
    upd (n_parent np) (set_color RBT_RED) ;;
    rbt_rotate_right (n_parent np) ;;
    mret y.

Definition fix_insert_right (y : Z) : SM rbt Z :=
  ny ← node y;
  np ← node (n_parent ny);
  ng ← node (n_parent np);
  let x := n_left ng in
  red ← (if negb (x =? NIL) then nx ← node x; mret (is_red nx) else mret false);
  if (red : bool) then
    upd (n_parent ny) (set_color RBT_BLACK) ;;
    upd x (set_color RBT_BLACK) ;;
    upd (n_parent np) (set_color RBT_RED) ;;
    mret (n_parent np)
  else
    y ← (if y =? n_left np then rbt_rotate_right (n_parent ny) ;; mret (n_parent ny) else mret y);
    ny ← node y;
    upd (n_parent ny) (set_color RBT_BLACK) ;;
    np ← node (n_parent ny);
    upd (n_parent np) (set_color RBT_RED) ;;
    rbt_rotate_left (n_parent np) ;;
    mret y.

Fixpoint rbt_fix_insert (fuel : nat) (y : Z) : SM rbt () :=
  match fuel with
  | O => no_fuel
  | Datatypes.S fuel =>
      ny ← node y;
      np ← node (n_parent ny);
      if is_red np then
        ng ← node (n_parent np);
        y ← (if n_parent ny =? n_left ng then fix_insert_left y else fix_insert_right y);
        rbt_fix_insert fuel y
      else
        r ← get_root;
        upd r (set_color RBT_BLACK)
  end.

(** The descent of [rbt_insert_node]: the node [z] becomes a child of. *)
Fixpoint insert_descend (fuel : nat) (k parent curent : Z) : SM rbt Z :=
  match fuel with
  | O => no_fuel
  | Datatypes.S fuel =>
      if curent =? NIL then mret parent
      else
        nc ← node curent;
        kc ← sm_lift (key (n_data nc));
        insert_descend fuel k curent (if k <? kc then n_left nc else n_right nc)
  end.

Definition rbt_insert_node (fuel : nat) (z data : Z) : SM rbt Z :=
  upd z (λ _, mkNode 0 0 0 0 RBT_RED) ;;
  upd z (set_data data) ;;
  upd z (set_right NIL) ;;
  upd z (set_left NIL) ;;
  upd z (set_color RBT_RED) ;;
  r ← get_root;
  k ← (if r =? NIL then mret 0 else sm_lift (key data));
  parent ← insert_descend fuel k NIL r;
  upd z (set_parent parent) ;;
  (if parent =? NIL then set_root z
   else
     np ← node parent;
     kp ← sm_lift (key (n_data np));
     if k <? kp then upd parent (set_left z) else upd parent (set_right z)) ;;
  nz ← node z;
  if n_parent nz =? NIL then upd z (set_color RBT_BLACK) ;; mret 1
  else
    np ← node (n_parent nz);
    if n_parent np =? NIL then mret 1
    else rbt_fix_insert fuel z ;; mret 1.

Fixpoint rbt_search_node (fuel : nat) (curr id : Z) : SM rbt Z :=
  match fuel with
  | O => no_fuel
  | Datatypes.S fuel =>
      if curr =? NIL then mret curr
      else
        n ← node curr;
        if n_data n =? 0 then mret curr
        else
          k ← sm_lift (key (n_data n));
          if k =? id then mret curr
          else rbt_search_node fuel (if id <? k then n_left n else n_right n) id
  end.

(** The two halves of the loop of [rbt_fix_delete]; the result is the next
    [x] and [x_parent]. *)
Definition fix_delete_left (x_parent : Z) : SM rbt (Z * Z) :=
  np ← node x_parent;
  nw ← node (n_right np);
  w ← (if is_red nw then
         upd (n_right np) (set_color RBT_BLACK) ;;
         upd x_parent (set_color RBT_RED) ;;
         rbt_rotate_left x_parent ;;
         np ← node x_parent;
         mret (n_right np)
       else mret (n_right np));
  nw ← node w;
  nl ← node (n_left nw);
  nr ← node (n_right nw);
  if is_black nl && is_black nr then
    upd w (set_color RBT_RED) ;;
    nx ← node x_parent;
    mret (x_parent, n_parent nx)
  else
    w ← (if is_black nr then
           upd (n_left nw) (set_color RBT_BLACK) ;;
           upd w (set_color RBT_RED) ;;
           rbt_rotate_right w ;;
           np ← node x_parent;
           mret (n_right np)
         else mret w);
    np ← node x_parent;
    upd w (set_color (n_color np)) ;;
    upd x_parent (set_color RBT_BLACK) ;;
    nw ← node w;
    upd (n_right nw) (set_color RBT_BLACK) ;;
    rbt_rotate_left x_parent ;;
    r ← get_root;
    mret (r, x_parent).

Definition fix_delete_right (x_parent : Z) : SM rbt (Z * Z) :=
  np ← node x_parent;
  nw ← node (n_left np);
  w ← (if is_red nw then
         upd (n_left np) (set_color RBT_BLACK) ;;
         upd x_parent (set_color RBT_RED) ;;
         rbt_rotate_right x_parent ;;
         np ← node x_parent;
         mret (n_left np)
       else mret (n_left np));
  nw ← node w;
  nr ← node (n_right nw);
  nl ← node (n_left nw);
  if is_black nr && is_black nl then
    upd w (set_color RBT_RED) ;;
    nx ← node x_parent;
    mret (x_parent, n_parent nx)
  else
    w ← (if is_black nl then
           upd (n_right nw) (set_color RBT_BLACK) ;;
           upd w (set_color RBT_RED) ;;
           rbt_rotate_left w ;;
           np ← node x_parent;
           mret (n_left np)
         else mret w);
    np ← node x_parent;
    upd w (set_color (n_color np)) ;;
    upd x_parent (set_color RBT_BLACK) ;;
    nw ← node w;
    upd (n_left nw) (set_color RBT_BLACK) ;;
    rbt_rotate_right x_parent ;;
    r ← get_root;
    mret (r, x_parent).

Fixpoint rbt_fix_delete (fuel : nat) (x x_parent : Z) : SM rbt () :=
  match fuel with
  | O => no_fuel
  | Datatypes.S fuel =>
      r ← get_root;
      black ← (if negb (x =? r) then nx ← node x; mret (is_black nx) else mret false);
      if (black : bool) then
        np ← node x_parent;
        xp ← (if x =? n_left np then fix_delete_left x_parent else fix_delete_right x_parent);
        rbt_fix_delete fuel xp.1 xp.2
      else upd x (set_color RBT_BLACK)
  end.

(** [*link_of(z) = x]: the pointer to [z] in its parent, or the root. *)
Definition relink (z x : Z) : SM rbt () :=
  nz ← node z;
  if n_parent nz =? NIL then set_root x
  else
    np ← node (n_parent nz);
    if z =? n_left np then upd (n_parent nz) (set_left x) else upd (n_parent nz) (set_right x).

(** [while (y->left != NIL) y = y->left]. *)
Fixpoint leftmost (fuel : nat) (y : Z) : SM rbt Z :=
  match fuel with
  | O => no_fuel
  | Datatypes.S fuel =>
      ny ← node y;
      if negb (n_left ny =? NIL) then leftmost fuel (n_left ny) else mret y
  end.

(** A node with at most one child is replaced by [x]. *)
Definition splice (z x : Z) : SM rbt () :=
  relink z x ;;
  sm_when (negb (x =? NIL)) (nz ← node z; upd x (set_parent (n_parent nz))).

(** The successor [y] of [z] takes its place. *)
Definition replace (z y : Z) : SM rbt () :=
  relink z y ;;
  nz ← node z;
  upd y (set_parent (n_parent nz)) ;;
  upd y (set_left (n_left nz)) ;;
  sm_when (negb (n_left nz =? NIL)) (upd (n_left nz) (set_parent y)) ;;
  upd y (set_color (n_color nz)).

(** Take [y], below the right child of [z], out of the tree and give it the
    right subtree of [z]. *)
Definition detach_successor (z y : Z) : SM rbt Z :=
  ny ← node y;
  if n_parent ny =? z then mret y
  else
    let x_parent := n_parent ny in
    upd x_parent (set_left (n_right ny)) ;;
    sm_when (negb (n_right ny =? NIL)) (upd (n_right ny) (set_parent x_parent)) ;;
    nz ← node z;
    upd y (set_right (n_right nz)) ;;
    sm_when (negb (n_right nz =? NIL)) (upd (n_right nz) (set_parent y)) ;;
    mret x_parent.

Definition rbt_remove_node (fuel : nat) (z : Z) : SM rbt () :=
  nz ← node z;
  if n_left nz =? NIL then
    splice z (n_right nz) ;;
    sm_when (is_black nz) (rbt_fix_delete fuel (n_right nz) (n_parent nz))
  else if n_right nz =? NIL then
    splice z (n_left nz) ;;
    sm_when (is_black nz) (rbt_fix_delete fuel (n_left nz) (n_parent nz))
  else
    y ← leftmost fuel (n_right nz);
    ny ← node y;
    x_parent ← detach_successor z y;
    replace z y ;;
    sm_when (is_black ny) (rbt_fix_delete fuel (n_right ny) x_parent).

End rbt.
