(* ===== verification/RbtTree.v ===== *)
(** * Trees, paths and the heap cells they own

    The shape of a red-black tree as an inductive type whose nodes carry
    their address, a path to a subtree (a zipper), and the list of heap cells
    a tree or a path stands for.  Ownership of a list of cells is invariant
    under permutation, so the pointer updates are reasoned about locally. *)

From S2P Require Import Prelude StateM Rbt.

Inductive dir := L | R.
Definition opp (d : dir) : dir := match d with L => R | R => L end.

Inductive tree := E | T (c : rbt_node_color) (l : tree) (p dt : Z) (r : tree).

#[global] Instance dir_eq_dec : EqDecision dir.
Proof. solve_decision. Defined.
#[global] Instance tree_eq_dec : EqDecision tree.
Proof. solve_decision. Defined.

(** The tree whose [d]-side subtree is [a] and whose other one is [b]. *)
Definition join (d : dir) (c : rbt_node_color) (a : tree) (p dt : Z) (b : tree) : tree :=
  match d with L => T c a p dt b | R => T c b p dt a end.

(** A step of a path: the hole is the [fr_dir]-side child of node [fr_ptr],
    whose other child is [fr_sib]. *)
Record frame := Fr {
  fr_dir : dir; fr_color : rbt_node_color; fr_ptr : Z; fr_data : Z; fr_sib : tree }.

(** From the hole up to the root. *)
Abbreviation path := (list frame).

Definition fill (f : frame) (t : tree) : tree :=
  join (fr_dir f) (fr_color f) t (fr_ptr f) (fr_data f) (fr_sib f).

Fixpoint plug (k : path) (t : tree) : tree :=
  match k with [] => t | f :: k => plug k (fill f t) end.

Definition tcolor (t : tree) : rbt_node_color := match t with E => RBT_BLACK | T c _ _ _ _ => c end.
Definition kcolor (k : path) : rbt_node_color := match k with [] => RBT_BLACK | f :: _ => fr_color f end.

Definition recolor (c : rbt_node_color) (t : tree) : tree :=
  match t with E => E | T _ l p dt r => T c l p dt r end.

(** Addresses and data in key order. *)
Fixpoint elems (t : tree) : list (Z * Z) :=
  match t with E => [] | T _ l p dt r => elems l ++ (p, dt) :: elems r end.

(** ** Generic sides *)

Definition child (d : dir) (n : rbt_node) : Z := match d with L => n_left n | R => n_right n end.
Definition set_child (d : dir) (x : Z) : rbt_node → rbt_node :=
  match d with L => set_left x | R => set_right x end.
Definition mk_node (d : dir) (dt a b par : Z) (c : rbt_node_color) : rbt_node :=
  match d with L => mkNode dt a b par c | R => mkNode dt b a par c end.

(** Selectors and setters of [mk_node], as a rewriting system. *)
Lemma child_mk d dt a b par c : child d (mk_node d dt a b par c) = a.
Proof. by destruct d. Qed.
Lemma child_opp_mk d dt a b par c : child (opp d) (mk_node d dt a b par c) = b.
Proof. by destruct d. Qed.
Lemma child_mk_opp d dt a b par c : child d (mk_node (opp d) dt a b par c) = b.
Proof. by destruct d. Qed.
Lemma set_child_mk d x dt a b par c : set_child d x (mk_node d dt a b par c) = mk_node d dt x b par c.
Proof. by destruct d. Qed.
Lemma set_child_opp_mk d x dt a b par c : set_child (opp d) x (mk_node d dt a b par c) = mk_node d dt a x par c.
Proof. by destruct d. Qed.
Lemma set_child_mk_opp d x dt a b par c : set_child d x (mk_node (opp d) dt a b par c) = mk_node (opp d) dt a x par c.
Proof. by destruct d. Qed.
Lemma set_parent_mk d x dt a b par c : set_parent x (mk_node d dt a b par c) = mk_node d dt a b x c.
Proof. by destruct d. Qed.
Lemma set_color_mk d x dt a b par c : set_color x (mk_node d dt a b par c) = mk_node d dt a b par x.
Proof. by destruct d. Qed.
Lemma parent_mk d dt a b par c : n_parent (mk_node d dt a b par c) = par.
Proof. by destruct d. Qed.
Lemma color_mk d dt a b par c : n_color (mk_node d dt a b par c) = c.
Proof. by destruct d. Qed.
Lemma data_mk d dt a b par c : n_data (mk_node d dt a b par c) = dt.
Proof. by destruct d. Qed.

Create Rewrite HintDb nodes.
#[export] Hint Rewrite child_mk child_opp_mk child_mk_opp set_child_mk set_child_opp_mk set_child_mk_opp
  set_parent_mk set_color_mk parent_mk color_mk data_mk : nodes.

Lemma opp_opp d : opp (opp d) = d.
Proof. by destruct d. Qed.

Lemma join_opp d c a p dt b : join (opp d) c a p dt b = join d c b p dt a.
Proof. by destruct d. Qed.

Lemma tcolor_join d c a p dt b : tcolor (join d c a p dt b) = c.
Proof. by destruct d. Qed.

Lemma recolor_join d c c' a p dt b : recolor c' (join d c a p dt b) = join d c' a p dt b.
Proof. by destruct d. Qed.

Lemma tree_join d t : t ≠ E → ∃ c a p dt b, t = join d c a p dt b.
Proof. destruct t as [|c l p dt r]; [done|]. intros _. destruct d; [exists c, l, p, dt, r|exists c, r, p, dt, l]; done. Qed.

Lemma plug_app k k' t : plug (k ++ k') t = plug k' (plug k t).
Proof. revert t. induction k as [|f k IH]; intros t; [done|]. apply IH. Qed.

Lemma plug_elems k t t' : elems t = elems t' → elems (plug k t) = elems (plug k t').
Proof.
  revert t t'. induction k as [|[d c p dt s] k IH]; intros t t' Ht; [done|]. apply IH.
  unfold fill. simpl. destruct d; simpl; by rewrite Ht.
Qed.

Lemma rotate_elems d c1 c2 c3 c4 a p dt b q dq g :
  elems (join d c1 (join d c2 a p dt b) q dq g) = elems (join d c3 a p dt (join d c4 b q dq g)).
Proof. destruct d; simpl; by rewrite <- ?app_assoc. Qed.

Lemma join_elems d c c' a p dt b a' b' :
  elems a = elems a' → elems b = elems b' → elems (join d c a p dt b) = elems (join d c' a' p dt b').
Proof. intros Ha Hb. destruct d; simpl; by rewrite Ha, Hb. Qed.

Lemma recolor_elems c t : elems (recolor c t) = elems t.
Proof. by destruct t. Qed.

(** What comes before and after the hole of a path. *)
Fixpoint lefts (k : path) : list (Z * Z) :=
  match k with
  | [] => []
  | f :: k => match fr_dir f with L => lefts k | R => lefts k ++ elems (fr_sib f) ++ [(fr_ptr f, fr_data f)] end
  end.

Fixpoint rights (k : path) : list (Z * Z) :=
  match k with
  | [] => []
  | f :: k => match fr_dir f with L => (fr_ptr f, fr_data f) :: elems (fr_sib f) ++ rights k | R => rights k end
  end.

Lemma elems_plug k t : elems (plug k t) = lefts k ++ elems t ++ rights k.
Proof.
  revert t. induction k as [|[d c p dt sib] k IH]; intros t; simpl; [by rewrite app_nil_r|].
  rewrite IH. unfold fill. destruct d; simpl; by rewrite <- !app_assoc.
Qed.

(** ** Cells *)

Section cells.
Context (NIL : Z).

Definition rp (t : tree) : Z := match t with E => NIL | T _ _ p _ _ => p end.
Definition kptr (k : path) : Z := match k with [] => NIL | f :: _ => fr_ptr f end.

Fixpoint cells (par : Z) (t : tree) : list (Z * rbt_node) :=
  match t with
  | E => []
  | T c l p dt r => (p, mkNode dt (rp l) (rp r) par c) :: cells p l ++ cells p r
  end.

Fixpoint kcells (k : path) (hole : Z) : list (Z * rbt_node) :=
  match k with
  | [] => []
  | f :: k => (fr_ptr f, mk_node (fr_dir f) (fr_data f) hole (rp (fr_sib f)) (kptr k) (fr_color f)) ::
              cells (fr_ptr f) (fr_sib f) ++ kcells k (fr_ptr f)
  end.

Fixpoint kroot (k : path) (hole : Z) : Z :=
  match k with [] => hole | f :: k => kroot k (fr_ptr f) end.

Definition nil_node : rbt_node := mkNode 0 NIL NIL NIL RBT_BLACK.

Lemma rp_join d c a p dt b : rp (join d c a p dt b) = p.
Proof. by destruct d. Qed.

Lemma rp_fill f t : rp (fill f t) = fr_ptr f.
Proof. apply rp_join. Qed.

Lemma rp_recolor c t : rp (recolor c t) = rp t.
Proof. by destruct t. Qed.

Lemma cells_join d par c a p dt b :
  cells par (join d c a p dt b) ≡ₚ (p, mk_node d dt (rp a) (rp b) par c) :: cells p a ++ cells p b.
Proof. destruct d; simpl; [done|]. by rewrite (Permutation_app_comm (cells p b)). Qed.

Lemma rp_plug k t : rp (plug k t) = kroot k (rp t).
Proof. revert t. induction k as [|f k IH]; intros t; [done|]. simpl. rewrite IH. unfold fill. by rewrite rp_join. Qed.

Lemma cells_plug k t : cells NIL (plug k t) ≡ₚ kcells k (rp t) ++ cells (kptr k) t.
Proof.
  revert t. induction k as [|f k IH]; intros t; [done|]. simpl plug. rewrite IH. unfold fill at 2.
  rewrite cells_join. unfold fill. rewrite rp_join. simpl. solve_Permutation.
Qed.

(** ** Ownership *)

Definition owns (h : gmap Z rbt_node) (cs : list (Z * rbt_node)) : Prop :=
  NoDup cs.*1 ∧ ∀ p n, (p, n) ∈ cs → h !! p = Some n.

#[global] Instance owns_proper h : Proper ((≡ₚ) ==> iff) (owns h).
Proof.
  intros cs cs' Hp. unfold owns. rewrite (fmap_Permutation fst _ _ Hp).
  split; intros (? & Hc); (split; [done|]); intros p n Hi; apply Hc; [by rewrite Hp|by rewrite <- Hp].
Qed.

Lemma owns_update h p n f cs : owns h ((p, n) :: cs) → h !! p = Some n ∧ owns (<[p := f n]> h) ((p, f n) :: cs).
Proof.
  intros (Hd & Hc). split; [apply Hc, list_elem_of_here|]. simpl in Hd. apply NoDup_cons in Hd as (Hp & Hd).
  split; [by apply NoDup_cons|]. intros q m [[= -> ->]|Hi]%elem_of_cons; [by rewrite lookup_insert_eq|].
  assert (q ≠ p) as Hne.
  { intros ->. apply Hp. apply list_elem_of_fmap. by exists (p, m). }
  rewrite lookup_insert_ne by done. apply Hc. by apply list_elem_of_further.
Qed.

Lemma owns_ne h p n q m cs : owns h ((p, n) :: (q, m) :: cs) → p ≠ q.
Proof. intros (Hd & _) ->. simpl in Hd. apply NoDup_cons in Hd as (Hp & _). apply Hp, list_elem_of_here. Qed.

(** The state: root pointer and owned cells. *)
Definition st (s : rbt) (r : Z) (cs : list (Z * rbt_node)) : Prop := root s = r ∧ owns (heap s) cs.

#[global] Instance st_proper s r : Proper ((≡ₚ) ==> iff) (st s r).
Proof. intros cs cs' Hp. unfold st. by rewrite Hp. Qed.

Lemma st_perm s r cs cs' : st s r cs → cs ≡ₚ cs' → st s r cs'.
Proof. intros Hs Hp. by rewrite <- Hp. Qed.

(** [cs] is [cs'] and the cell of [p], found by structural search. *)
Inductive pulls (p : Z) (n : rbt_node) : list (Z * rbt_node) → list (Z * rbt_node) → Prop :=
  | pull_here cs : pulls p n ((p, n) :: cs) cs
  | pull_next c cs cs' : pulls p n cs cs' → pulls p n (c :: cs) (c :: cs')
  | pull_left a a' b : pulls p n a a' → pulls p n (a ++ b) (a' ++ b)
  | pull_right a b b' : pulls p n b b' → pulls p n (a ++ b) (a ++ b').

Lemma pulls_perm p n cs cs' : pulls p n cs cs' → cs ≡ₚ (p, n) :: cs'.
Proof. induction 1 as [|? ? ? ? IH|? ? ? ? IH|? ? ? ? IH]; rewrite ?IH; [done|solve_Permutation..]. Qed.

(** [cs] is [cs'] and the segment [l]. *)
Inductive takes (l : list (Z * rbt_node)) : list (Z * rbt_node) → list (Z * rbt_node) → Prop :=
  | take_all : takes l l []
  | take_next c cs cs' : takes l cs cs' → takes l (c :: cs) (c :: cs')
  | take_left a a' b : takes l a a' → takes l (a ++ b) (a' ++ b)
  | take_right a b b' : takes l b b' → takes l (a ++ b) (a ++ b').

Lemma takes_perm l cs cs' : takes l cs cs' → cs ≡ₚ l ++ cs'.
Proof.
  induction 1 as [|? ? ? ? IH|? ? ? ? IH|? ? ? ? IH]; rewrite ?IH; [by rewrite app_nil_r|solve_Permutation..].
Qed.

Section rules.
Context {A : Type}.
Implicit Types (m : SM rbt A) (Q : A → rbt → Prop).

Lemma st_upd s r cs p n cs' f m Q :
  st s r cs → pulls p n cs cs' →
  (∀ s', st s' r ((p, f n) :: cs') → swp m s' Q) → swp (upd p f ≫= λ _, m) s Q.
Proof.
  intros Hs Hp%pulls_perm Hm. rewrite Hp in Hs. destruct Hs as (Hr & Ho). destruct (owns_update _ _ _ f _ Ho) as (Hl & Ho').
  apply swp_bind. unfold swp at 1, upd. rewrite Hl. apply Hm. by split.
Qed.

Lemma st_node s r cs p n (m : rbt_node → SM rbt A) Q :
  st s r cs → (∃ cs', pulls p n cs cs') → swp (m n) s Q → swp (x ← node p; m x) s Q.
Proof.
  intros (_ & _ & Ho) (cs' & Hp%pulls_perm) Hm. apply swp_bind. unfold swp at 1, node.
  rewrite (Ho p n); [done|]. rewrite Hp. apply list_elem_of_here.
Qed.

Lemma st_get_root s r cs (m : Z → SM rbt A) Q : st s r cs → swp (m r) s Q → swp (x ← get_root; m x) s Q.
Proof. intros (<- & _) Hm. by apply swp_bind. Qed.

Lemma st_set_root s r cs p m Q :
  st s r cs → (∀ s', st s' p cs → swp m s' Q) → swp (set_root p ≫= λ _, m) s Q.
Proof. intros (_ & Ho) Hm. apply swp_bind. unfold swp at 1, set_root. by apply Hm. Qed.
End rules.

(** An update at the end of a routine. *)
Lemma st_upd_end s r cs p n cs' f (Q : () → rbt → Prop) :
  st s r cs → pulls p n cs cs' → (∀ s', st s' r ((p, f n) :: cs') → Q () s') → swp (upd p f) s Q.
Proof. intros Hs Hp HQ. apply swp_unit. eapply st_upd; [done|done|]. intros s' Hs'. apply swp_ret. by apply HQ. Qed.

Lemma st_ne s r cs p n q m cs' cs'' : st s r cs → pulls p n cs cs' → pulls q m cs' cs'' → p ≠ q.
Proof. intros (_ & Ho) Hp%pulls_perm Hq%pulls_perm. rewrite Hp, Hq in Ho. by eapply owns_ne. Qed.

End cells.

Definition nil_cell (NIL : Z) : Z * rbt_node := (NIL, nil_node NIL).

(** Search for a cell or a segment. *)
Ltac pull :=
  lazymatch goal with
  | |- pulls _ _ (_ :: _) _ => first [apply pull_here | apply pull_next; pull]
  | |- pulls _ _ (nil_cell ?N :: _) _ => unfold nil_cell; pull
  | |- pulls _ _ (_ ++ _) _ => first [apply pull_left; pull | apply pull_right; pull]
  end.
Ltac take :=
  first [apply take_all
        | lazymatch goal with
          | |- takes _ (_ :: _) _ => apply take_next; take
          | |- takes _ (_ ++ _) _ => first [apply take_left; take | apply take_right; take]
          end].

(** The cells in another order. *)
Ltac perm H := eapply st_perm; [exact H|]; simpl; solve_Permutation.

(** Two cells have different addresses. *)
Ltac apart := eapply st_ne; [eassumption|pull|pull].

(** One step of a routine: read a node, or update one and go on in the state
    [s'] that owns the new cells ([H']). *)
Ltac rd := eapply st_node; [eassumption|eexists; pull|]; autorewrite with nodes; cbn beta iota.
Ltac up_end s' H' := eapply st_upd_end; [eassumption|pull|]; autorewrite with nodes; intros s' H'.
Ltac up s' H' := eapply st_upd; [eassumption|pull|]; autorewrite with nodes; intros s' H'.
