(* ===== verification/RbtInv.v ===== *)
(** * Rotations and the red-black invariant *)

From S2P Require Import Prelude StateM Rbt RbtTree.

Open Scope sm_scope.

Section rotate.
Context (NIL : Z).

(** Both rotations, by the side the top node moves to. *)
Definition link (d : dir) (x y par : Z) : SM rbt () :=
  if par =? NIL then set_root y
  else
    np ← node par;
    if x =? child d np then upd par (set_child d y) else upd par (set_child (opp d) y).

Definition rotate (d : dir) (x : Z) : SM rbt () :=
  nx ← node x;
  let y := child (opp d) nx in
  ny ← node y;
  upd x (set_child (opp d) (child d ny)) ;;
  sm_when (negb (child d ny =? NIL)) (upd (child d ny) (set_parent x)) ;;
  nx ← node x;
  upd y (set_parent (n_parent nx)) ;;
  link d x y (n_parent nx) ;;
  upd y (set_child d x) ;;
  upd x (set_parent y).

Lemma rotate_left_eq x : rbt_rotate_left NIL x = rotate L x.
Proof. reflexivity. Qed.
Lemma rotate_right_eq x : rbt_rotate_right NIL x = rotate R x.
Proof. reflexivity. Qed.

Section rules.
Context {A : Type}.
Implicit Types (m : SM rbt A) (Q : A → rbt → Prop).

(** [if (b != NIL) b->parent = x] moves a subtree under [x]. *)
Lemma reparent s r y x b cs cs1 cs2 n m Q :
  st s r cs → takes (cells NIL y b) cs cs1 → pulls NIL n cs1 cs2 →
  (∀ s', st s' r (cells NIL x b ++ cs1) → swp m s' Q) →
  swp (sm_when (negb (rp NIL b =? NIL)) (upd (rp NIL b) (set_parent x)) ≫= λ _, m) s Q.
Proof.
  intros Hs Hb%takes_perm Hn Hm. rewrite Hb in Hs. destruct b as [|c l p dt g]; simpl rp.
  - rewrite Z.eqb_refl. apply swp_bind, swp_when; [done|]. intros _. by apply Hm.
  - assert (p ≠ NIL) as Hp.
    { eapply st_ne; [exact Hs|apply pull_here|]. simpl. by apply pull_right. }
    rewrite (proj2 (Z.eqb_neq _ _) Hp). simpl sm_when. simpl in Hs. up s' Hs'. by apply Hm.
Qed.

(** The pointer to the hole, in its parent or the root, changes from [x] to
    [y]. *)
Lemma link_rule d k s x n y cs cs1 cs2 cs3 m nn Q :
  st s (kroot k x) cs → takes (kcells NIL k x) cs cs1 → pulls x n cs1 cs2 → pulls NIL nn cs2 cs3 →
  (∀ s', st s' (kroot k y) (kcells NIL k y ++ cs1) → swp m s' Q) →
  swp (link d x y (kptr NIL k) ≫= λ _, m) s Q.
Proof.
  intros Hs Hk%takes_perm Hx1%pulls_perm Hn1%pulls_perm Hm. rewrite Hk in Hs.
  assert (st s (kroot k x) (kcells NIL k x ++ (x, n) :: (NIL, nn) :: cs3)) as Hs'.
  { eapply st_perm; [exact Hs|]. rewrite Hx1, Hn1. done. }
  unfold link. destruct k as [|[fd c p dt sib] k]; simpl kptr.
  { rewrite Z.eqb_refl. eapply st_set_root; [exact Hs|]. exact Hm. }
  simpl kcells in *. simpl kroot in *.
  assert (p ≠ NIL) as Hp by apart. assert (x ≠ NIL) as Hx by apart.
  assert (rp NIL sib ≠ x) as Hsx.
  { destruct sib as [|sc sl sp sd sr]; simpl rp; [done|]. simpl cells in *. apart. }
  clear Hs' Hx1 Hn1.
  rewrite (proj2 (Z.eqb_neq _ _) Hp).
  apply swp_bind. rd. destruct d, fd; simpl child; rewrite ?Z.eqb_refl, ?(proj2 (Z.eqb_neq x _)) by done;
    up_end s' Hs'; apply Hm; perm Hs'.
Qed.
End rules.

(** A rotation of the subtree at the end of a path. *)
Lemma rotate_spec d s k c cy a x dx b y dy g cs (Q : () → rbt → Prop) :
  st s (kroot k x)
    (kcells NIL k x ++ cells NIL (kptr NIL k) (join d c a x dx (join d cy b y dy g)) ++ nil_cell NIL :: cs) →
  (∀ s', st s' (kroot k y)
    (kcells NIL k y ++ cells NIL (kptr NIL k) (join d cy (join d c a x dx b) y dy g) ++ nil_cell NIL :: cs) →
    Q () s') →
  swp (rotate d x) s Q.
Proof.
  intros Hs HQ. rewrite !cells_join, rp_join in Hs. unfold rotate. rd. rd. up s1 H1.
  eapply (reparent _ _ y x b); [exact H1|take|pull|]. clear s Hs s1 H1. intros s Hs.
  rd. up s1 H1.
  eapply (link_rule d k); [exact H1|take|pull|pull|]. clear s Hs s1 H1. intros s Hs.
  up s1 H1. up_end s2 H2. apply HQ. rewrite !cells_join, rp_join. perm H2.
Qed.
(** ** The tree seen from a subtree *)

(** The cells of a tree seen from the subtree [t] at the end of path [k], the
    sentinel and the rest. *)
Definition at_focus (s : rbt) (k : path) (t : tree) (fr : list (Z * rbt_node)) : Prop :=
  st s (kroot k (rp NIL t)) (kcells NIL k (rp NIL t) ++ cells NIL (kptr NIL k) t ++ nil_cell NIL :: fr).

(** The focus moves along the path. *)
Lemma zip s f k t fr : at_focus s (f :: k) t fr ↔ at_focus s k (fill f t) fr.
Proof.
  destruct f as [d c p dt sib]. unfold at_focus, fill. simpl. rewrite cells_join, rp_join.
  split; intros Hs; perm Hs.
Qed.

Lemma unzip s d c a p dt b k fr :
  at_focus s k (join d c a p dt b) fr ↔ at_focus s (Fr d c p dt b :: k) a fr.
Proof. by rewrite zip. Qed.

(** From a subtree to its sibling. *)
Lemma flip s d c p dt sib k t fr :
  at_focus s (Fr d c p dt sib :: k) t fr ↔ at_focus s (Fr (opp d) c p dt t :: k) sib fr.
Proof. rewrite !zip. unfold fill. simpl. by rewrite join_opp. Qed.

Lemma zip_all s k t fr : at_focus s k t fr ↔ at_focus s [] (plug k t) fr.
Proof. revert t. induction k as [|f k IH]; intros t; [done|]. rewrite zip. apply IH. Qed.

Section focus.
Context {A : Type}.
Implicit Types (m : SM rbt A) (Q : A → rbt → Prop).

Lemma focus_node d s k c a p dt b fr (m : rbt_node → SM rbt A) Q :
  at_focus s k (join d c a p dt b) fr →
  swp (m (mk_node d dt (rp NIL a) (rp NIL b) (kptr NIL k) c)) s Q → swp (x ← node p; m x) s Q.
Proof. unfold at_focus. rewrite cells_join. intros Hs Hm. rd. exact Hm. Qed.

Lemma frame_node s d c p dt sib k t fr (m : rbt_node → SM rbt A) Q :
  at_focus s (Fr d c p dt sib :: k) t fr →
  swp (m (mk_node d dt (rp NIL t) (rp NIL sib) (kptr NIL k) c)) s Q → swp (x ← node p; m x) s Q.
Proof. rewrite zip. apply focus_node. Qed.

Lemma focus_color d s k c0 c a p dt b fr m Q :
  at_focus s k (join d c0 a p dt b) fr → (∀ s', at_focus s' k (join d c a p dt b) fr → swp m s' Q) →
  swp (upd p (set_color c) ≫= λ _, m) s Q.
Proof.
  unfold at_focus. rewrite !rp_join. setoid_rewrite cells_join. intros Hs Hm. up s' Hs'. apply Hm. perm Hs'.
Qed.

Lemma frame_color s d c0 c p dt sib k t fr m Q :
  at_focus s (Fr d c0 p dt sib :: k) t fr → (∀ s', at_focus s' (Fr d c p dt sib :: k) t fr → swp m s' Q) →
  swp (upd p (set_color c) ≫= λ _, m) s Q.
Proof. setoid_rewrite zip. apply focus_color. Qed.

(** The color of the focus, through its pointer. *)
Lemma focus_read_color s k t fr (m : rbt_node → SM rbt A) Q :
  at_focus s k t fr → (∀ n, n_color n = tcolor t → swp (m n) s Q) → swp (x ← node (rp NIL t); m x) s Q.
Proof.
  intros Hs Hm. unfold at_focus in Hs. destruct t as [|c l p dt g]; simpl in *; rd; by apply Hm.
Qed.

Lemma focus_read s k t fr (m : rbt_node → SM rbt A) Q :
  at_focus s k t fr → t ≠ E →
  (∀ n, n_parent n = kptr NIL k → n_color n = tcolor t → swp (m n) s Q) → swp (x ← node (rp NIL t); m x) s Q.
Proof.
  intros Hs Ht Hm. destruct (tree_join L t Ht) as (c & a & p & dt & b & ->). rewrite rp_join.
  eapply focus_node; [done|]. by apply Hm.
Qed.

(** The color of the focus changes, through its pointer. *)
Lemma focus_recolor s k c t fr m Q :
  at_focus s k t fr → t ≠ E → (∀ s', at_focus s' k (recolor c t) fr → swp m s' Q) →
  swp (upd (rp NIL t) (set_color c) ≫= λ _, m) s Q.
Proof.
  intros Hs Ht Hm. destruct (tree_join L t Ht) as (c0 & a & p & dt & b & ->). rewrite rp_join.
  eapply (focus_color L); [done|]. exact Hm.
Qed.

(** A node is not the sentinel. *)
Lemma focus_not_nil s k t fr : at_focus s k t fr → t ≠ E → rp NIL t ≠ NIL.
Proof. intros Hs Ht. unfold at_focus in Hs. destruct t as [|c l p dt g]; [done|]. simpl in *. apart. Qed.

(** The subtree and its sibling have different pointers. *)
Lemma focus_not_sib s f k t fr : at_focus s (f :: k) t fr → t ≠ E ∨ fr_sib f ≠ E → rp NIL t ≠ rp NIL (fr_sib f).
Proof.
  intros Hs Ht. unfold at_focus in Hs. destruct f as [d c p dt sib]. simpl in *.
  destruct t as [|c1 l1 p1 d1 r1], sib as [|c2 l2 p2 d2 r2]; simpl in *; [by destruct Ht|..].
  - apply not_eq_sym. apart.
  - apart.
  - apply not_eq_sym. apart.
Qed.
End focus.

(** Rotation at the focus. *)
Lemma focus_rotate d s k c cy a x dx b y dy g fr (Q : () → rbt → Prop) :
  at_focus s k (join d c a x dx (join d cy b y dy g)) fr →
  (∀ s', at_focus s' k (join d cy (join d c a x dx b) y dy g) fr → Q () s') →
  swp (rotate d x) s Q.
Proof.
  unfold at_focus. rewrite !rp_join. intros Hs HQ. by eapply rotate_spec.
Qed.

End rotate.

(** * The red-black invariant on trees and paths *)

(** [t] has black height [n] and no red node with a red child. *)
Fixpoint RB (n : nat) (t : tree) : Prop :=
  match t with
  | E => n = O
  | T RBT_RED l _ _ r => tcolor l = RBT_BLACK ∧ tcolor r = RBT_BLACK ∧ RB n l ∧ RB n r
  | T RBT_BLACK l _ _ r => match n with O => False | S m => RB m l ∧ RB m r end
  end.

(** [k] is a path in such a tree, with a black root, to a hole of black
    height [n]. *)
Fixpoint RBk (n : nat) (k : path) : Prop :=
  match k with
  | [] => True
  | f :: k =>
      RB n (fr_sib f) ∧
      match fr_color f with
      | RBT_BLACK => RBk (S n) k
      | RBT_RED => tcolor (fr_sib f) = RBT_BLACK ∧ k ≠ [] ∧ kcolor k = RBT_BLACK ∧ RBk n k
      end
  end.

Lemma RB_red d n a p dt b :
  RB n (join d RBT_RED a p dt b) ↔ tcolor a = RBT_BLACK ∧ tcolor b = RBT_BLACK ∧ RB n a ∧ RB n b.
Proof. destruct d; simpl; tauto. Qed.

Lemma RB_black d n a p dt b :
  RB n (join d RBT_BLACK a p dt b) ↔ ∃ m, n = S m ∧ RB m a ∧ RB m b.
Proof.
  destruct d; simpl; destruct n; (split; [intros ?; try done; by eexists|intros (? & ? & ?); simplify_eq; tauto]) ||
  (split; [naive_solver|intros (? & ? & ?); simplify_eq; tauto]).
Qed.

(** A red root may become black. *)
Lemma RB_blacken n t : RB n t → tcolor t = RBT_RED → RB (S n) (recolor RBT_BLACK t).
Proof. destruct t as [|[] ]; simpl; naive_solver. Qed.

Lemma RBk_color n k : RBk n k → kcolor k = RBT_RED → ∃ f f' k', k = f :: f' :: k' ∧ fr_color f' = RBT_BLACK.
Proof.
  destruct k as [|f k]; [done|]. simpl. intros (_ & Hk) Hc. rewrite Hc in Hk.
  destruct Hk as (_ & Hne & Hb & _). destruct k as [|f' k]; [done|]. eauto.
Qed.

Lemma RB_plug k : ∀ n t,
  RBk n k → RB n t → (kcolor k = RBT_RED → tcolor t = RBT_BLACK) →
  (k = [] → tcolor t = RBT_BLACK) → ∃ m, RB m (plug k t) ∧ tcolor (plug k t) = RBT_BLACK.
Proof.
  induction k as [|[d c p dt sib] k IH]; intros n t Hk Ht Hc Hr; [eauto|]. simpl in *.
  destruct Hk as (Hs & Hk). destruct c.
  - destruct Hk as (Hsc & Hne & Hkc & Hk). apply (IH n); [done| |by intros E; rewrite E in Hkc|done].
    unfold fill. simpl. apply RB_red. auto.
  - apply (IH (S n)); [done| |by intros; unfold fill; rewrite tcolor_join..].
    unfold fill. simpl. apply RB_black. eauto.
Qed.

Lemma RB_unplug k : ∀ m t,
  RB m (plug k t) → tcolor (plug k t) = RBT_BLACK →
  ∃ n, RBk n k ∧ RB n t ∧ (kcolor k = RBT_RED → tcolor t = RBT_BLACK) ∧ (k = [] → tcolor t = RBT_BLACK).
Proof.
  induction k as [|[d c p dt sib] k IH]; intros m t Hm Hr; [exists m; by simpl in *|]. simpl plug in *.
  destruct (IH m _ Hm Hr) as (n & Hk & Ht & Hc & He). unfold fill in *. simpl in *. rewrite tcolor_join in *.
  destruct c.
  - apply RB_red in Ht as (Htc & Hsc & Ht & Hs). exists n. split; [|by auto]. split; [done|]. split; [done|].
    split; [by intros ->; specialize (He eq_refl)|]. split; [|done].
    destruct (kcolor k) eqn:E; [by specialize (Hc eq_refl)|done].
  - apply RB_black in Ht as (n' & -> & Ht & Hs). exists n'. done.
Qed.

(** ** Height *)

Fixpoint height (t : tree) : nat :=
  match t with E => O | T _ l _ _ r => S (Nat.max (height l) (height r)) end.

Lemma RB_height n t : RB n t → (height t ≤ 2 * n + match tcolor t with RBT_RED => 1 | RBT_BLACK => 0 end)%nat.
Proof.
  revert n. induction t as [|c l IHl p dt r IHr]; intros n Ht; [simpl in *; lia|]. destruct c; simpl in *.
  - destruct Ht as (Hl & Hr & Htl & Htr). specialize (IHl n Htl). specialize (IHr n Htr).
    rewrite Hl in IHl. rewrite Hr in IHr. lia.
  - destruct n as [|n]; [done|]. destruct Ht as (Htl & Htr). specialize (IHl n Htl). specialize (IHr n Htr).
    destruct (tcolor l), (tcolor r); lia.
Qed.

Lemma RB_size n t : RB n t → (2 ^ n ≤ length (elems t) + 1)%nat.
Proof.
  revert n. induction t as [|c l IHl p dt r IHr]; intros n Ht; simpl in *; [by subst|].
  rewrite length_app. simpl. destruct c.
  - destruct Ht as (_ & _ & Htl & Htr). specialize (IHl n Htl). lia.
  - destruct n as [|n]; [done|]. destruct Ht as (Htl & Htr). specialize (IHl n Htl). specialize (IHr n Htr).
    simpl. lia.
Qed.

(** A red-black tree of [N] nodes is at most [2 log2 (N + 1)] high. *)
Lemma RB_log n t : RB n t → tcolor t = RBT_BLACK → (height t ≤ 2 * Nat.log2 (length (elems t) + 1))%nat.
Proof.
  intros Ht Hc. pose proof (RB_height n t Ht) as Hh. rewrite Hc in Hh. pose proof (RB_size n t Ht) as Hs.
  assert (n ≤ Nat.log2 (length (elems t) + 1))%nat; [|lia].
  apply Nat.log2_le_pow2; lia.
Qed.
