(* ===== verification/RbtInsert.v ===== *)
(** * Insertion and search *)

From stdpp Require Import sorting.
From S2P Require Import Prelude StateM Rbt RbtTree RbtInv.

Open Scope sm_scope.

Section insert.
Context (NIL : Z).

(** The two halves of the loop, by the side of the parent. *)
Definition fix_insert_case (d : dir) (y : Z) : SM rbt Z :=
  ny ← node y;
  np ← node (n_parent ny);
  ng ← node (n_parent np);
  let x := child (opp d) ng in
  red ← (if negb (x =? NIL) then nx ← node x; mret (is_red nx) else mret false);
  if (red : bool) then
    upd (n_parent ny) (set_color RBT_BLACK) ;;
    upd x (set_color RBT_BLACK) ;;
    upd (n_parent np) (set_color RBT_RED) ;;
    mret (n_parent np)
  else
    y ← (if y =? child (opp d) np then rotate NIL d (n_parent ny) ;; mret (n_parent ny) else mret y);
    ny ← node y;
    upd (n_parent ny) (set_color RBT_BLACK) ;;
    np ← node (n_parent ny);
    upd (n_parent np) (set_color RBT_RED) ;;
    rotate NIL (opp d) (n_parent np) ;;
    mret y.

Lemma fix_insert_left_eq y : fix_insert_left NIL y = fix_insert_case L y.
Proof. reflexivity. Qed.
Lemma fix_insert_right_eq y : fix_insert_right NIL y = fix_insert_case R y.
Proof. reflexivity. Qed.

(** The test [x != NIL && x->color == RBT_RED]. *)
Lemma read_red s k t fr {A} (m : bool → SM rbt A) (Q : A → rbt → Prop) :
  at_focus NIL s k t fr → swp (m (bool_decide (tcolor t = RBT_RED))) s Q →
  swp (b ← (if negb (rp NIL t =? NIL) then nx ← node (rp NIL t); mret (is_red nx) else mret false); m b) s Q.
Proof.
  intros Hs Hm. apply swp_bind. destruct (decide (t = E)) as [->|Ht].
  - simpl rp. rewrite Z.eqb_refl. simpl. apply swp_ret. done.
  - rewrite (proj2 (Z.eqb_neq _ _) (focus_not_nil _ _ _ _ _ Hs Ht)). simpl negb. cbv iota.
    eapply focus_read_color; [done|]. intros n Hnc. apply swp_ret. unfold is_red. by rewrite Hnc.
Qed.

(** The final rotation: red parent and grandparent on the same side. *)
Lemma fix_outer d s k t p dp sib g dg u fr (Q : Z → rbt → Prop) :
  at_focus NIL s (Fr d RBT_RED p dp sib :: Fr d RBT_BLACK g dg u :: k) t fr → t ≠ E →
  (∀ s', at_focus NIL s' (Fr d RBT_BLACK p dp (join d RBT_RED sib g dg u) :: k) t fr → Q (rp NIL t) s') →
  swp (ny ← node (rp NIL t);
       upd (n_parent ny) (set_color RBT_BLACK) ;;
       np ← node (n_parent ny);
       upd (n_parent np) (set_color RBT_RED) ;;
       rotate NIL (opp d) (n_parent np) ;;
       mret (rp NIL t)) s Q.
Proof.
  intros Hs Ht HQ. destruct (tree_join d t Ht) as (c & a & y & dy & b & Et). rewrite Et in Hs.
  replace (rp NIL t) with y in * by (by rewrite Et, rp_join).
  eapply focus_node; [done|]. autorewrite with nodes. simpl kptr. eapply frame_color; [done|]. clear s Hs. intros s Hs.
  eapply frame_node; [done|]. autorewrite with nodes. simpl kptr. rewrite zip in Hs.
  eapply frame_color; [done|]. clear s Hs. intros s Hs. apply swp_bind. rewrite zip in Hs. unfold fill in Hs. simpl in Hs.
  eapply (focus_rotate NIL (opp d) _ _ _ _ u g dg sib p dp).
  { rewrite !join_opp. exact Hs. }
  clear s Hs. intros s Hs. apply swp_ret, HQ. rewrite zip, Et. unfold fill. simpl. by rewrite !join_opp in Hs.
Qed.
(** The loop invariant: a red subtree whose parent may be red too. *)
Definition red_at (s : rbt) (k : path) (t : tree) (fr : list (Z * rbt_node)) (es : list (Z * Z)) : Prop :=
  at_focus NIL s k t fr ∧ tcolor t = RBT_RED ∧ elems (plug k t) = es ∧ ∃ n, RBk n k ∧ RB n t.

Lemma red_not_empty t : tcolor t = RBT_RED → t ≠ E.
Proof. by intros ? ->. Qed.

(** Two red nodes on one side of the grandparent. *)
Lemma fix_outer_inv d s k t p dp sib g dg u fr es :
  red_at s (Fr d RBT_RED p dp sib :: Fr d RBT_BLACK g dg u :: k) t fr es → tcolor u = RBT_BLACK →
  swp (ny ← node (rp NIL t);
       upd (n_parent ny) (set_color RBT_BLACK) ;;
       np ← node (n_parent ny);
       upd (n_parent np) (set_color RBT_RED) ;;
       rotate NIL (opp d) (n_parent np) ;;
       mret (rp NIL t)) s
    (λ y s', y = rp NIL t ∧ red_at s' (Fr d RBT_BLACK p dp (join d RBT_RED sib g dg u) :: k) t fr es).
Proof.
  intros (Hs & Hc & He & n & Hk & Ht) Hu. eapply fix_outer; [done|by apply red_not_empty|]. intros s' Hs'.
  split; [done|]. split; [done|]. split; [done|]. split.
  - rewrite <- He. simpl. apply plug_elems. unfold fill. simpl. symmetry. apply rotate_elems.
  - exists n. split; [|done]. simpl in *. destruct Hk as (Hsib & Hsc & _ & _ & Hun & Hk). split; [|done].
    apply RB_red. auto.
Qed.

(** The inner child: a first rotation turns it outwards. *)
Lemma fix_inner_inv d s k t p dp sib G fr es :
  red_at s (Fr (opp d) RBT_RED p dp sib :: G :: k) t fr es →
  swp (rotate NIL d p) s (λ _ s', ∃ t' y dy b,
    rp NIL t' = p ∧ red_at s' (Fr d RBT_RED y dy b :: G :: k) t' fr es).
Proof.
  intros (Hs & Hc & He & n & Hk & Ht). destruct (tree_join d t (red_not_empty _ Hc)) as (c & a & y & dy & b & ->).
  rewrite tcolor_join in Hc. subst c. rewrite zip in Hs. unfold fill in Hs. simpl in Hs. rewrite join_opp in Hs.
  eapply focus_rotate; [exact Hs|]. clear s Hs. intros s Hs.
  exists (join d RBT_RED sib p dp a), y, dy, b. apply RB_red in Ht as (Hac & Hbc & Ha & Hb).
  simpl in Hk. destruct Hk as (Hsib & Hsc & Hne & Hkc & Hk). split; [apply rp_join|].
  split; [by rewrite zip|]. split; [apply tcolor_join|]. split.
  - rewrite <- He. simpl. apply plug_elems. unfold fill. simpl.
    apply join_elems; [|done]. rewrite join_opp. apply rotate_elems.
  - exists n. split; [|apply RB_red; auto]. simpl. auto.
Qed.

(** A red uncle: the colors move up. *)
Lemma fix_uncle_inv d dy s k t p dp sib g dg u fr es :
  red_at s (Fr dy RBT_RED p dp sib :: Fr d RBT_BLACK g dg u :: k) t fr es → tcolor u = RBT_RED →
  swp (upd p (set_color RBT_BLACK) ;; upd (rp NIL u) (set_color RBT_BLACK) ;; upd g (set_color RBT_RED) ;; mret g) s
    (λ y s', ∃ t', y = rp NIL t' ∧ red_at s' k t' fr es).
Proof.
  intros (Hs & Hc & He & n & Hk & Ht) Hu. eapply frame_color; [done|]. clear s Hs. intros s Hs. rewrite zip, flip in Hs.
  eapply focus_recolor; [done|by apply red_not_empty|]. clear s Hs. intros s Hs. rewrite flip, opp_opp in Hs.
  eapply frame_color; [done|]. clear s Hs. intros s Hs. apply swp_ret. rewrite zip in Hs.
  eexists. split; [|split; [exact Hs|]]; [by rewrite rp_fill|]. unfold fill. simpl.
  split; [apply tcolor_join|]. split.
  - rewrite <- He. simpl. apply plug_elems. unfold fill. simpl. apply join_elems; [by apply join_elems|apply recolor_elems].
  - simpl in Hk. destruct Hk as (Hsib & Hsc & _ & _ & Hun & Hk). exists (S n). split; [done|]. apply RB_red.
    rewrite tcolor_join. split; [done|]. split; [by destruct u|]. split; [apply RB_black; eauto|by apply RB_blacken].
Qed.

Lemma fix_insert_case_spec d dy s k t p dp sib g dg u fr es :
  red_at s (Fr dy RBT_RED p dp sib :: Fr d RBT_BLACK g dg u :: k) t fr es →
  swp (fix_insert_case d (rp NIL t)) s (λ y s', ∃ k' t',
    y = rp NIL t' ∧ red_at s' k' t' fr es ∧ (length k' < S (S (length k)))%nat).
Proof.
  intros Hinv. pose proof Hinv as (Hs & Hc & He & n & Hk & Ht). unfold fix_insert_case.
  eapply focus_read; [done|by apply red_not_empty|]. intros ny Hny _. rewrite Hny. simpl kptr.
  eapply frame_node; [done|]. autorewrite with nodes. simpl kptr.
  pose proof Hs as Hs'. rewrite zip in Hs'. eapply frame_node; [exact Hs'|]. autorewrite with nodes.
  rewrite flip in Hs'. eapply read_red; [exact Hs'|]. destruct (decide (tcolor u = RBT_RED)) as [Hu|Hu].
  { rewrite bool_decide_true by done. eapply swp_mono; [by eapply fix_uncle_inv|].
    intros y s' (t' & -> & Hr). exists k, t'. split; [done|]. split; [done|lia]. }
  rewrite bool_decide_false by done. assert (tcolor u = RBT_BLACK) as Hub by (by destruct (tcolor u)).
  apply swp_bind. destruct (decide (dy = d)) as [->|Hd].
  - rewrite child_opp_mk. rewrite (proj2 (Z.eqb_neq _ _)).
    2: { apply (focus_not_sib NIL s _ _ _ _ Hs). left. by apply red_not_empty. }
    apply swp_ret. eapply swp_mono; [by eapply fix_outer_inv|]. intros y s' (-> & Hr).
    eexists _, _. split; [done|]. split; [exact Hr|simpl; lia].
  - assert (dy = opp d) as -> by (by destruct d, dy). rewrite child_mk, Z.eqb_refl.
    apply swp_bind. eapply swp_mono; [by eapply fix_inner_inv|]. intros _ s1 (t1 & y1 & dy1 & b1 & <- & Hr).
    apply swp_ret. eapply swp_mono; [by eapply fix_outer_inv|]. intros y s' (-> & Hr').
    eexists _, _. split; [done|]. split; [exact Hr'|simpl; lia].
Qed.

(** A red-black tree in the heap. *)
Definition is_rbt (s : rbt) (t : tree) (fr : list (Z * rbt_node)) : Prop :=
  at_focus NIL s [] t fr ∧ tcolor t = RBT_BLACK ∧ ∃ n, RB n t.

Lemma fix_insert_end s k t fr es :
  red_at s k t fr es → kcolor k = RBT_BLACK →
  swp (r ← get_root; upd r (set_color RBT_BLACK)) s (λ _ s', ∃ t', is_rbt s' t' fr ∧ elems t' = es).
Proof.
  intros (Hs & Hc & He & n & Hk & Ht) Hkc. rewrite zip_all in Hs. 
  eapply st_get_root; [exact Hs|]. simpl kroot. apply swp_unit.
  assert (plug k t ≠ E) as Hne.
  { intros E. assert (elems (plug k t) = []) as E' by (by rewrite E). rewrite elems_plug in E'.
    apply app_eq_nil in E' as (_ & E'). apply app_eq_nil in E' as (E' & _).
    destruct t; [done|]. simpl in E'. by apply app_eq_nil in E' as (_ & ?). }
  eapply focus_recolor; [exact Hs|done|]. clear s Hs. intros s Hs. apply swp_ret.
  exists (recolor RBT_BLACK (plug k t)). split; [|by rewrite recolor_elems].
  split; [done|]. split; [by destruct (plug k t)|].
  destruct k as [|f k]; [exists (S n); by apply RB_blacken|].
  destruct (RB_plug (f :: k) n t) as (m & Hm & Hb); [done|done|by rewrite Hkc|done|].
  exists m. destruct (plug (f :: k) t) as [|c l p dt g]; [done|]. simpl in Hb. by subst c.
Qed.

Lemma rbt_fix_insert_spec fuel : ∀ s k t fr es,
  red_at s k t fr es → (length k < fuel)%nat →
  swp (rbt_fix_insert NIL fuel (rp NIL t)) s (λ _ s', ∃ t', is_rbt s' t' fr ∧ elems t' = es).
Proof.
  induction fuel as [|fuel IH]; intros s k t fr es Hr Hf; [lia|]. pose proof Hr as (Hs & Hc & _ & n & Hk & _).
  simpl. eapply focus_read; [done|by apply red_not_empty|]. intros ny Hny _. rewrite Hny.
  destruct k as [|[dy c p dp sib] k].
  { simpl kptr. unfold at_focus in Hs. simpl in Hs. rd. by apply (fix_insert_end s [] t). }
  eapply frame_node; [done|]. autorewrite with nodes. simpl kptr. unfold is_red. autorewrite with nodes.
  destruct c; [|by apply (fix_insert_end s (Fr dy RBT_BLACK p dp sib :: k) t)].
  rewrite bool_decide_true by done. destruct (RBk_color _ _ Hk eq_refl) as (f & f' & k' & [= <- ->] & Hb).
  destruct f' as [d c g dg u]. simpl in Hb. subst c. simpl kptr.
  pose proof Hs as Hs'. rewrite zip in Hs'. eapply frame_node; [exact Hs'|]. rewrite rp_fill. simpl fr_ptr.
  assert ((p =? n_left (mk_node d dg p (rp NIL u) (kptr NIL k') RBT_BLACK)) = bool_decide (d = L)) as ->.
  { destruct d; simpl; [by rewrite Z.eqb_refl|]. apply Z.eqb_neq.
    pose proof (focus_not_sib NIL s _ _ _ _ Hs') as Hn. rewrite rp_fill in Hn. apply Hn. left. by destruct dy. }
  apply swp_bind, (swp_mono _ _ (λ y s', ∃ k1 t1,
    y = rp NIL t1 ∧ red_at s' k1 t1 fr es ∧ (length k1 < S (S (length k')))%nat)).
  - destruct d; rewrite ?bool_decide_true, ?bool_decide_false by done;
      rewrite ?fix_insert_left_eq, ?fix_insert_right_eq; by eapply fix_insert_case_spec.
  - intros y s1 (k1 & t1 & -> & Hr1 & Hl1). apply (IH s1 k1 t1); [exact Hr1|simpl in *; lia].
Qed.

(** ** The descent *)

Context (key : Z → res Z) (kv : Z → Z).

(** The keys of the data in [es] can be read, and are in order. *)
Definition keyed (es : list (Z * Z)) : Prop := Forall (λ e, key e.2 = Ok (kv e.2)) es.
Definition sorted (es : list (Z * Z)) : Prop := StronglySorted (λ a b, kv a.2 ≤ kv b.2) es.

Lemma sorted_app l r : sorted (l ++ r) → sorted l ∧ sorted r ∧ ∀ a b, a ∈ l → b ∈ r → kv a.2 ≤ kv b.2.
Proof.
  unfold sorted. induction l as [|x l IH]; simpl; intros Hs.
  { split; [constructor|]. split; [done|]. intros a b Ha. by apply elem_of_nil in Ha. }
  apply StronglySorted_inv in Hs as (Hs & Hx). destruct (IH Hs) as (Hl & Hr & Hlr).
  rewrite Forall_app in Hx. destruct Hx as (Hxl & Hxr). split; [by constructor|]. split; [done|].
  intros a b [->|Ha]%elem_of_cons Hb; [|by apply Hlr]. by apply (proj1 (Forall_forall _ _) Hxr).
Qed.

(** [k0] comes after [lefts k] and before [rights k]; the last step of the
    path went the way the comparison says. *)
Definition placed (k0 : Z) (k : path) : Prop :=
  Forall (λ e, kv e.2 ≤ k0) (lefts k) ∧ Forall (λ e, k0 < kv e.2) (rights k) ∧
  match k with [] => True | f :: _ => fr_dir f = (if k0 <? kv (fr_data f) then L else R) end.

Lemma insert_descend_spec fuel k0 : ∀ s k t fr,
  at_focus NIL s k t fr → keyed (elems t) → sorted (elems t) → placed k0 k → (height t < fuel)%nat →
  swp (insert_descend NIL key fuel k0 (kptr NIL k) (rp NIL t)) s (λ p s', s' = s ∧ ∃ k',
    p = kptr NIL k' ∧ plug k' E = plug k t ∧ placed k0 k' ∧ (length k' ≤ length k + height t)%nat).
Proof.
  induction fuel as [|fuel IH]; intros s k t fr Hs Hk Hso Hp Hf; [lia|]. simpl.
  destruct t as [|c l p dt r].
  { simpl rp. rewrite Z.eqb_refl. apply swp_ret. split; [done|]. exists k. split; [done|]. split; [done|].
    split; [done|simpl; lia]. }
  rewrite (proj2 (Z.eqb_neq _ _) (focus_not_nil _ _ _ _ _ Hs ltac:(done))). simpl rp.
  eapply (focus_node NIL L); [exact Hs|]. simpl. unfold keyed in Hk. simpl in Hk, Hso.
  rewrite Forall_app, Forall_cons in Hk. destruct Hk as (Hkl & Hkp & Hkr). simpl in Hkp.
  apply sorted_app in Hso as (Hsl & Hsr & Hlr). apply StronglySorted_inv in Hsr as (Hsr & Hpr).
  rewrite Hkp. apply swp_bind, (swp_lift _ (kv dt)); [done|].
  destruct Hp as (Hlo & Hhi & _). destruct (Z.ltb_spec k0 (kv dt)) as [Hlt|Hge].
  - assert (at_focus NIL s (Fr L c p dt r :: k) l fr) as Hs' by (by rewrite zip).
    eapply swp_mono; [apply (IH s _ l fr Hs' Hkl Hsl); [|simpl in Hf; lia]|].
    + split; [done|]. split; [|simpl; by rewrite (proj2 (Z.ltb_lt _ _) Hlt)]. simpl. constructor; [done|].
      apply Forall_app. split; [|done]. eapply Forall_impl; [exact Hpr|]. simpl. lia.
    + intros q s' (-> & k' & -> & Hpl & Hp' & Hl). split; [done|]. exists k'. split; [done|]. split; [done|].
      split; [done|]. simpl in *. lia.
  - assert (at_focus NIL s (Fr R c p dt l :: k) r fr) as Hs' by (by rewrite zip).
    eapply swp_mono; [apply (IH s _ r fr Hs' Hkr Hsr); [|simpl in Hf; lia]|].
    + split; [|split; [done|simpl; by rewrite (proj2 (Z.ltb_ge _ _) Hge)]]. simpl.
      apply Forall_app. split; [done|]. apply Forall_app. split; [|by constructor].
      apply Forall_forall. intros a Ha. assert (kv a.2 ≤ kv dt); [|lia].
      apply (Hlr a (p, dt)); [done|apply list_elem_of_here].
    + intros q s' (-> & k' & -> & Hpl & Hp' & Hl). split; [done|]. exists k'. split; [done|]. split; [done|].
      split; [done|]. simpl in *. lia.
Qed.

(** The new leaf is linked under its parent. *)
Lemma link_leaf s k k0 z dz fr (Q : () → rbt → Prop) :
  at_focus NIL s k E ((z, mkNode dz NIL NIL (kptr NIL k) RBT_RED) :: fr) →
  placed k0 k → keyed (elems (plug k E)) →
  (∀ s', at_focus NIL s' k (T RBT_RED E z dz E) fr → Q () s') →
  swp (if kptr NIL k =? NIL then set_root z
       else
         np ← node (kptr NIL k);
         kp ← sm_lift (key (n_data np));
         if k0 <? kp then upd (kptr NIL k) (set_left z) else upd (kptr NIL k) (set_right z)) s Q.
Proof.
  intros Hs (_ & _ & Hd) Hk HQ. destruct k as [|[d c p dt sib] k]; simpl kptr in *.
  - rewrite Z.eqb_refl. unfold swp, set_root. apply HQ. unfold at_focus in *. destruct Hs as (Hr & Ho).
    simpl in *. split; [done|]. by rewrite Permutation_swap.
  - unfold at_focus in Hs. simpl in Hs. assert (p ≠ NIL) as Hp by apart.
    rewrite (proj2 (Z.eqb_neq _ _) Hp). rd.
    assert (key dt = Ok (kv dt)) as Hkd.
    { rewrite elems_plug in Hk. unfold keyed in Hk. rewrite Forall_forall in Hk. apply (Hk (p, dt)).
      destruct d; simpl; set_solver. }
    rewrite Hkd. apply swp_bind, (swp_lift _ (kv dt)); [done|]. simpl in Hd.
    destruct (k0 <? kv dt); subst d; simpl in Hs; up_end s' Hs'; apply HQ; unfold at_focus; simpl; perm Hs'.
Qed.

(** The leaf colors of the three ends of [rbt_insert_node]. *)
Lemma leaf_red_at s k z dz fr n :
  at_focus NIL s k (T RBT_RED E z dz E) fr → RBk n k → n = O →
  red_at s k (T RBT_RED E z dz E) fr (lefts k ++ (z, dz) :: rights k).
Proof. intros Hs Hk ->. split; [done|]. split; [done|]. split; [by rewrite elems_plug|]. exists O. by split. Qed.

Lemma plug_empty k : plug k E = E → k = [].
Proof.
  intros He. destruct k as [|f k]; [done|]. exfalso. assert (elems (plug (f :: k) E) = []) as H0 by (by rewrite He).
  simpl in H0. rewrite elems_plug in H0. unfold fill in H0.
  destruct f as [[] c p dt sib]; simpl in H0; rewrite <- ?app_assoc in H0; simpl in H0;
    [by apply app_eq_nil in H0 as (_ & ?)|].
  apply app_eq_nil in H0 as (_ & H0). by apply app_eq_nil in H0 as (_ & ?).
Qed.

(** The end of [rbt_insert_node], with the leaf linked. *)
Lemma insert_finish fuel s k z data fr m :
  at_focus NIL s k (T RBT_RED E z data E) fr → RB m (plug k E) → tcolor (plug k E) = RBT_BLACK →
  (length k < fuel)%nat →
  swp (nz ← node z;
       if n_parent nz =? NIL then upd z (set_color RBT_BLACK) ;; mret 1
       else
         np ← node (n_parent nz);
         if n_parent np =? NIL then mret 1
         else rbt_fix_insert NIL fuel z ;; mret 1) s
    (λ r s', r = 1 ∧ ∃ t', is_rbt s' t' fr ∧ elems t' = lefts k ++ (z, data) :: rights k).
Proof.
  intros Hs Hm Hb Hf. destruct (RB_unplug k m E Hm Hb) as (n & Hk & Hn & Hkc & _). simpl in Hn. subst n.
  pose proof (leaf_red_at s k z data fr O Hs Hk eq_refl) as Hr.
  eapply (focus_node NIL L); [exact Hs|]. simpl n_parent. destruct k as [|[d c p dp sib] k].
  - simpl kptr. rewrite Z.eqb_refl. eapply (focus_color NIL L); [exact Hs|]. clear s Hs Hr. intros s Hs.
    apply swp_ret. split; [done|]. exists (T RBT_BLACK E z data E). split; [|done]. split; [done|].
    split; [done|]. by exists 1%nat.
  - simpl kptr. assert (p ≠ NIL) as Hp.
    { rewrite zip in Hs. pose proof (focus_not_nil _ _ _ _ _ Hs) as Hp. rewrite rp_fill in Hp. apply Hp. by destruct d. }
    rewrite (proj2 (Z.eqb_neq _ _) Hp). eapply frame_node; [exact Hs|]. autorewrite with nodes.
    destruct k as [|[d2 c2 p2 dp2 sib2] k].
    + simpl kptr. rewrite Z.eqb_refl. apply swp_ret. split; [done|].
      exists (plug [Fr d c p dp sib] (T RBT_RED E z data E)). split; [|by rewrite elems_plug].
      simpl in Hk. destruct Hk as (Hsib & Hk). destruct c; [by destruct Hk as (_ & ? & _)|].
      destruct (RB_plug [Fr d RBT_BLACK p dp sib] O (T RBT_RED E z data E)) as (m' & Hm' & Hb'); try done.
      split; [by apply zip_all in Hs|]. eauto.
    + simpl kptr. assert (p2 ≠ NIL) as Hp2.
      { rewrite !zip in Hs. pose proof (focus_not_nil _ _ _ _ _ Hs) as Hp2. rewrite rp_fill in Hp2.
        apply Hp2. by destruct d2. }
      rewrite (proj2 (Z.eqb_neq _ _) Hp2). apply swp_bind.
      eapply swp_mono; [by apply (rbt_fix_insert_spec fuel s _ _ fr _ Hr)|].
      intros [] s' Hs'. by apply swp_ret.
Qed.

Lemma rbt_insert_node_spec fuel s t z n0 data fr :
  is_rbt s t ((z, n0) :: fr) → keyed (elems t) → sorted (elems t) → key data = Ok (kv data) →
  (height t < fuel)%nat →
  swp (rbt_insert_node NIL key fuel z data) s (λ r s', r = 1 ∧ ∃ t' l r,
    is_rbt s' t' fr ∧ elems t = l ++ r ∧ elems t' = l ++ (z, data) :: r ∧
    Forall (λ e, kv e.2 ≤ kv data) l ∧ Forall (λ e, kv data < kv e.2) r).
Proof.
  intros (Hs & Hc & n & Hn) Hk Hso Hkd Hf. unfold rbt_insert_node. unfold at_focus in Hs. simpl in Hs.
  up s1 H1. up s2 H2. up s3 H3. up s4 H4. up s5 H5. simpl in H5.
  eapply st_get_root; [exact H5|]. clear s Hs s1 H1 s2 H2 s3 H3 s4 H4.
  assert (at_focus NIL s5 [] t ((z, mkNode data NIL NIL 0 RBT_RED) :: fr)) as Hs.
  { unfold at_focus. simpl. perm H5. }
  apply swp_bind, (swp_mono _ _ (λ k0 s', s' = s5 ∧ (rp NIL t = NIL ∨ k0 = kv data))).
  { destruct (Z.eqb_spec (rp NIL t) NIL); [apply swp_ret; auto|]. by apply (swp_lift _ (kv data)); [|auto]. }
  intros k0 ? (-> & Hk0). apply swp_bind. eapply swp_mono.
  { apply (insert_descend_spec fuel k0 s5 [] t _ Hs Hk Hso); [|done]. split; [by constructor|split; [by constructor|done]]. }
  intros p ? (-> & k & -> & Hpl & Hp0 & Hlen). simpl plug in Hpl. simpl in Hlen. subst t.
  assert (placed k0 k ∧ placed (kv data) k) as (_ & Hp).
  { split; [done|]. destruct Hk0 as [Heq| ->]; [|done]. destruct (decide (plug k E = E)) as [He|He].
    - rewrite (plug_empty k He). split; [by constructor|split; [by constructor|done]].
    - by destruct (focus_not_nil _ _ _ _ _ Hs He). }
  clear H5. rewrite <- zip_all in Hs. unfold at_focus in Hs. simpl in Hs. up s6 H6. clear s5 Hs.
  assert (at_focus NIL s6 k E ((z, mkNode data NIL NIL (kptr NIL k) RBT_RED) :: fr)) as Hs.
  { unfold at_focus. simpl. perm H6. }
  apply swp_bind. eapply link_leaf; [exact Hs|done|done|]. clear s6 H6 Hs. intros s Hs.
  eapply swp_mono; [apply (insert_finish fuel s k z data fr n); [done..|lia]|].
  intros r s' (-> & t' & Ht' & He). split; [done|]. exists t', (lefts k), (rights k).
  destruct Hp as (Hlo & Hhi & _). split; [done|]. split; [by rewrite elems_plug|]. done.
Qed.

(** ** Search *)

Lemma rbt_search_node_spec fuel id : ∀ s k t fr,
  at_focus NIL s k t fr → keyed (elems t) → sorted (elems t) → Forall (λ e, e.2 ≠ 0) (elems t) →
  (height t < fuel)%nat →
  swp (rbt_search_node NIL key fuel (rp NIL t) id) s (λ p s', s' = s ∧
    ((∃ dt, (p, dt) ∈ elems t ∧ kv dt = id) ∨ p = NIL ∧ Forall (λ e, kv e.2 ≠ id) (elems t))).
Proof.
  induction fuel as [|fuel IH]; intros s k t fr Hs Hk Hso Hz Hf; [lia|]. simpl. destruct t as [|c l p dt r].
  { simpl rp. rewrite Z.eqb_refl. apply swp_ret. split; [done|]. right. by split; [|constructor]. }
  rewrite (proj2 (Z.eqb_neq _ _) (focus_not_nil _ _ _ _ _ Hs ltac:(done))). simpl rp.
  eapply (focus_node NIL L); [exact Hs|]. simpl. unfold keyed in Hk. simpl in Hk, Hso, Hz.
  rewrite Forall_app, Forall_cons in Hk, Hz. destruct Hk as (Hkl & Hkp & Hkr), Hz as (Hzl & Hzp & Hzr). simpl in Hkp, Hzp.
  apply sorted_app in Hso as (Hsl & Hsr & Hlr). apply StronglySorted_inv in Hsr as (Hsr & Hpr).
  rewrite (proj2 (Z.eqb_neq _ _) Hzp), Hkp. apply swp_bind, (swp_lift _ (kv dt)); [done|].
  destruct (Z.eqb_spec (kv dt) id) as [Hid|Hid].
  { apply swp_ret. split; [done|]. left. exists dt. split; [|done]. set_solver. }
  destruct (Z.ltb_spec id (kv dt)) as [Hlt|Hge].
  - assert (at_focus NIL s (Fr L c p dt r :: k) l fr) as Hs' by (by rewrite zip).
    eapply swp_mono; [apply (IH s _ l fr Hs' Hkl Hsl Hzl); simpl in Hf; lia|].
    intros q s' (-> & [(d & Hin & Hd)|(-> & Hn)]); (split; [done|]); [left; exists d; split; [set_solver|done]|right].
    split; [done|]. apply Forall_app. split; [done|]. constructor; [done|].
    eapply Forall_impl; [exact Hpr|]. simpl. lia.
  - assert (at_focus NIL s (Fr R c p dt l :: k) r fr) as Hs' by (by rewrite zip).
    eapply swp_mono; [apply (IH s _ r fr Hs' Hkr Hsr Hzr); simpl in Hf; lia|].
    intros q s' (-> & [(d & Hin & Hd)|(-> & Hn)]); (split; [done|]); [left; exists d; split; [set_solver|done]|right].
    split; [done|]. apply Forall_app. split; [|by constructor].
    apply Forall_forall. intros e He. pose proof (Hlr e (p, dt) He ltac:(apply list_elem_of_here)) as Hle. simpl in Hle. lia.
Qed.

End insert.
