(* ===== verification/RbtDelete.v ===== *)
(** * Removal *)

From stdpp Require Import sorting.
From S2P Require Import Prelude StateM Rbt RbtTree RbtInv RbtInsert.

Open Scope sm_scope.

Section delete.
Context (NIL : Z).

(** ** The two halves of the loop, by the side of the short subtree *)

(** A red sibling is turned into a black one. *)
Definition black_sibling (d : dir) (x_parent w : Z) (nw : rbt_node) : SM rbt Z :=
  if is_red nw then
    upd w (set_color RBT_BLACK) ;;
    upd x_parent (set_color RBT_RED) ;;
    rotate NIL d x_parent ;;
    np ← node x_parent;
    mret (child (opp d) np)
  else mret w.

(** The far nephew is made red. *)
Definition far_red (d : dir) (x_parent w : Z) (nw nr : rbt_node) : SM rbt Z :=
  if is_black nr then
    upd (child d nw) (set_color RBT_BLACK) ;;
    upd w (set_color RBT_RED) ;;
    rotate NIL (opp d) w ;;
    np ← node x_parent;
    mret (child (opp d) np)
  else mret w.

Definition delete_end (d : dir) (x_parent w : Z) : SM rbt (Z * Z) :=
  np ← node x_parent;
  upd w (set_color (n_color np)) ;;
  upd x_parent (set_color RBT_BLACK) ;;
  nw ← node w;
  upd (child (opp d) nw) (set_color RBT_BLACK) ;;
  rotate NIL d x_parent ;;
  r ← get_root;
  mret (r, x_parent).

Definition delete_rest (d : dir) (x_parent w : Z) : SM rbt (Z * Z) :=
  nw ← node w;
  nl ← node (child d nw);
  nr ← node (child (opp d) nw);
  if is_black nl && is_black nr then
    upd w (set_color RBT_RED) ;;
    nx ← node x_parent;
    mret (x_parent, n_parent nx)
  else
    w ← far_red d x_parent w nw nr;
    delete_end d x_parent w.

Definition fix_delete_case (d : dir) (x_parent : Z) : SM rbt (Z * Z) :=
  np ← node x_parent;
  nw ← node (child (opp d) np);
  w ← black_sibling d x_parent (child (opp d) np) nw;
  delete_rest d x_parent w.

Lemma fix_delete_left_eq p : fix_delete_left NIL p = fix_delete_case L p.
Proof. reflexivity. Qed.
Lemma fix_delete_right_eq p : fix_delete_right NIL p = fix_delete_case R p.
Proof. reflexivity. Qed.

(** ** The steps *)

(** [t], below [k], is one black node short. *)
Definition short_at (s : rbt) (k : path) (t : tree) (fr : list (Z * rbt_node)) (es : list (Z * Z)) : Prop :=
  at_focus NIL s k t fr ∧ elems (plug k t) = es ∧
  ∃ n, RBk (S n) k ∧
    (tcolor t = RBT_BLACK ∧ RB n t ∨ tcolor t = RBT_RED ∧ RB (S n) (recolor RBT_BLACK t)).

(** The same with a black [t] whose sibling is black. *)
Definition ready_at (s : rbt) (d : dir) (c : rbt_node_color) (p dp : Z) (wa : tree) (w dw : Z) (wb : tree)
    (k : path) (t : tree) (fr : list (Z * rbt_node)) (es : list (Z * Z)) (n : nat) : Prop :=
  at_focus NIL s (Fr d c p dp (join d RBT_BLACK wa w dw wb) :: k) t fr ∧
  elems (plug (Fr d c p dp (join d RBT_BLACK wa w dw wb) :: k) t) = es ∧
  RBk (S n) (Fr d c p dp (join d RBT_BLACK wa w dw wb) :: k) ∧ tcolor t = RBT_BLACK ∧ RB n t.

Lemma ready_rb s d c p dp wa w dw wb k t fr es n :
  ready_at s d c p dp wa w dw wb k t fr es n → RB n wa ∧ RB n wb.
Proof. intros (_ & _ & (Hw & _) & _). simpl in Hw. apply RB_black in Hw as (m & [= <-] & ? & ?). done. Qed.

(** A focus step that leaves the state of the proof. *)
Ltac next s Hs := clear s Hs; intros s Hs.

Lemma plug_fill_elems f k t t' : elems (fill f t) = elems t' → elems (plug (f :: k) t) = elems (plug k t').
Proof. intros He. simpl. by apply plug_elems. Qed.

(** After the optional rotation at a red sibling. *)
Lemma black_sibling_spec d s c p dp cw wa w dw wb k t fr es n nw :
  at_focus NIL s (Fr d c p dp (join d cw wa w dw wb) :: k) t fr →
  elems (plug (Fr d c p dp (join d cw wa w dw wb) :: k) t) = es →
  RBk (S n) (Fr d c p dp (join d cw wa w dw wb) :: k) → tcolor t = RBT_BLACK → RB n t → n_color nw = cw →
  swp (black_sibling d p w nw) s (λ w' s', ∃ c' k' wa' dw' wb',
    ready_at s' d c' p dp wa' w' dw' wb' k' t fr es n ∧
    (k' = k ∨ length k' = S (length k) ∧ c' = RBT_RED)).
Proof.
  intros Hs He Hk Htc Ht Hnw. unfold black_sibling, is_red. rewrite Hnw. destruct cw.
  - rewrite bool_decide_true by done. simpl in Hk. destruct Hk as (Hw & Hk).
    apply RB_red in Hw as (Hac & Hbc & Ha & Hb).
    destruct c; [by rewrite tcolor_join in Hk; destruct Hk as (? & _)|].
    rewrite flip in Hs. eapply focus_color; [exact Hs|]. next s Hs. rewrite flip, opp_opp in Hs.
    eapply frame_color; [exact Hs|]. next s Hs. rewrite zip in Hs. unfold fill in Hs. simpl in Hs.
    apply swp_bind. eapply focus_rotate; [exact Hs|]. next s Hs.
    assert (at_focus NIL s (Fr d RBT_RED p dp wa :: Fr d RBT_BLACK w dw wb :: k) t fr) as Hs' by (by rewrite !zip).
    eapply frame_node; [exact Hs'|]. autorewrite with nodes. apply swp_ret.
    assert (wa ≠ E) as Hwa by (by intros ->). destruct (tree_join d wa Hwa) as (ca & a1 & pa & da & a2 & ->).
    rewrite tcolor_join in Hac. subst ca. rewrite rp_join.
    exists RBT_RED, (Fr d RBT_BLACK w dw wb :: k), a1, da, a2. split; [|by right]. split; [done|]. split.
    + rewrite <- He. simpl. apply plug_elems. unfold fill. simpl. apply rotate_elems.
    + simpl. rewrite tcolor_join. split; [|done]. split; [done|]. done.
  - rewrite bool_decide_false by done. apply swp_ret. exists c, k, wa, dw, wb. split; [|by left]. done.
Qed.

(** The colors of the nephews. *)
Lemma nephew_nodes s d c p dp cw wa w dw wb k t fr {A} (m : rbt_node → rbt_node → rbt_node → SM rbt A) Q :
  at_focus NIL s (Fr d c p dp (join d cw wa w dw wb) :: k) t fr →
  (∀ nl nr, n_color nl = tcolor wa → n_color nr = tcolor wb →
    swp (m (mk_node d dw (rp NIL wa) (rp NIL wb) p cw) nl nr) s Q) →
  swp (nw ← node w; nl ← node (child d nw); nr ← node (child (opp d) nw); m nw nl nr) s Q.
Proof.
  intros Hs Hm. rewrite flip in Hs. eapply focus_node; [exact Hs|]. autorewrite with nodes. simpl kptr.
  assert (at_focus NIL s (Fr d cw w dw wb :: Fr (opp d) c p dp t :: k) wa fr) as Ha by (by rewrite zip).
  eapply focus_read_color; [exact Ha|]. intros nl Hnl. rewrite flip in Ha.
  eapply focus_read_color; [exact Ha|]. intros nr Hnr. by apply Hm.
Qed.
(** Both nephews black: the sibling becomes red and the shortage moves up. *)
Lemma both_black_spec d s c p dp wa w dw wb k t fr es n :
  ready_at s d c p dp wa w dw wb k t fr es n → tcolor wa = RBT_BLACK → tcolor wb = RBT_BLACK →
  swp (upd w (set_color RBT_RED) ;; nx ← node p; mret (p, n_parent nx)) s (λ r s', ∃ t',
    r = (rp NIL t', kptr NIL k) ∧ tcolor t' = c ∧ short_at s' k t' fr es).
Proof.
  intros Hr Hac Hbc. destruct (ready_rb _ _ _ _ _ _ _ _ _ _ _ _ _ _ Hr) as (Ha & Hb).
  destruct Hr as (Hs & He & Hk & Htc & Ht).
  rewrite flip in Hs. eapply focus_color; [exact Hs|]. next s Hs. rewrite flip, opp_opp in Hs.
  eapply frame_node; [exact Hs|]. autorewrite with nodes. apply swp_ret. rewrite zip in Hs.
  eexists. split; [|split; [|split; [exact Hs|]]]; [by rewrite rp_fill|apply tcolor_join|]. unfold fill. simpl. split.
  - rewrite <- He. simpl. apply plug_elems. unfold fill. simpl. apply join_elems; [done|]. by apply join_elems.
  - rewrite tcolor_join, recolor_join. simpl in Hk. destruct Hk as (_ & Hk).
    assert (RB n (join d RBT_RED wa w dw wb)) as Hw by (by apply RB_red). destruct c.
    + exists n. destruct Hk as (_ & _ & _ & Hk). split; [done|]. right. split; [done|]. apply RB_black. eauto.
    + exists (S n). split; [done|]. left. split; [done|]. apply RB_black. eauto.
Qed.

(** The rotation that brings a red near nephew to the far side. *)
Lemma far_red_spec d s c p dp wa w dw wb k t fr es n nr :
  ready_at s d c p dp wa w dw wb k t fr es n → n_color nr = tcolor wb →
  ¬ (tcolor wa = RBT_BLACK ∧ tcolor wb = RBT_BLACK) →
  swp (far_red d p w (mk_node d dw (rp NIL wa) (rp NIL wb) p RBT_BLACK) nr) s (λ w' s', ∃ wa' dw' wb',
    ready_at s' d c p dp wa' w' dw' wb' k t fr es n ∧ tcolor wb' = RBT_RED).
Proof.
  intros Hr Hnr Hnb. destruct (ready_rb _ _ _ _ _ _ _ _ _ _ _ _ _ _ Hr) as (Ha & Hb).
  pose proof Hr as (Hs & He & Hk & Htc & Ht). unfold far_red, is_black. rewrite Hnr. autorewrite with nodes.
  destruct (tcolor wb) eqn:Hbc.
  { rewrite bool_decide_false by done. apply swp_ret. exists wa, dw, wb. done. }
  clear Hr. rewrite bool_decide_true by done. assert (tcolor wa = RBT_RED) as Hac by (destruct (tcolor wa); [done|by destruct Hnb]).
  destruct (tree_join d wa (red_not_empty _ Hac)) as (ca & a1 & pa & da & a2 & ->).
  rewrite tcolor_join in Hac. subst ca. rewrite rp_join. apply RB_red in Ha as (Hc1 & Hc2 & Ha1 & Ha2).
  rewrite flip, unzip in Hs.
  eapply focus_color; [exact Hs|]. next s Hs. eapply frame_color; [exact Hs|]. next s Hs.
  rewrite zip in Hs. unfold fill in Hs. simpl in Hs.
  apply swp_bind. eapply (focus_rotate NIL (opp d) _ _ _ _ wb w dw a2 pa da a1); [by rewrite !join_opp|].
  next s Hs. rewrite !join_opp, flip, opp_opp in Hs.
  eapply frame_node; [exact Hs|]. autorewrite with nodes. rewrite rp_join. apply swp_ret.
  exists a1, da, (join d RBT_RED a2 w dw wb). split; [|apply tcolor_join]. split; [done|]. split.
  - rewrite <- He. simpl. apply plug_elems. unfold fill. simpl. apply join_elems; [done|]. symmetry. apply rotate_elems.
  - split; [|done]. simpl in *. rewrite tcolor_join in *. destruct Hk as (_ & Hk). split; [|done].
    apply RB_black. exists n. split; [done|]. split; [done|]. by apply RB_red.
Qed.

(** The last rotation restores the height. *)
Lemma delete_end_spec d s c p dp wa w dw wb k t fr es n :
  ready_at s d c p dp wa w dw wb k t fr es n → tcolor wb = RBT_RED →
  swp (delete_end d p w) s (λ r s', ∃ t', r = (rp NIL t', p) ∧ is_rbt NIL s' t' fr ∧ elems t' = es).
Proof.
  intros Hr Hbc. destruct (ready_rb _ _ _ _ _ _ _ _ _ _ _ _ _ _ Hr) as (Ha & Hb).
  destruct Hr as (Hs & He & Hk & Htc & Ht). unfold delete_end.
  eapply frame_node; [exact Hs|]. autorewrite with nodes.
  rewrite flip in Hs. eapply focus_color; [exact Hs|]. next s Hs. rewrite flip, opp_opp in Hs.
  eapply frame_color; [exact Hs|]. next s Hs. rewrite flip in Hs.
  eapply focus_node; [exact Hs|]. autorewrite with nodes. rewrite unzip, flip in Hs.
  eapply focus_recolor; [exact Hs|by apply red_not_empty|]. next s Hs.
  rewrite flip, opp_opp, zip in Hs. unfold fill in Hs. simpl in Hs. rewrite flip, opp_opp, zip in Hs. unfold fill in Hs. simpl in Hs.
  apply swp_bind. eapply focus_rotate; [exact Hs|]. next s Hs.
  pose proof Hs as (Hroot & _). rewrite zip_all in Hs. eapply st_get_root; [exact Hs|]. simpl kroot. apply swp_ret.
  eexists. split; [done|]. simpl in Hk. destruct Hk as (_ & Hk).
  assert (∃ n', RBk n' k ∧ RB n' (join d c (join d RBT_BLACK t p dp wa) w dw (recolor RBT_BLACK wb)) ∧
    (kcolor k = RBT_RED → c = RBT_BLACK) ∧ (k = [] → c = RBT_BLACK)) as (n' & Hk' & Ht' & Hc' & He').
  { assert (RB (S n) (join d RBT_BLACK t p dp wa)) as Hin by (apply RB_black; eauto).
    assert (RB (S n) (recolor RBT_BLACK wb)) as Hout by (by apply RB_blacken).
    destruct c.
    - destruct Hk as (_ & Hne & Hkc & Hk). exists (S n). split; [done|]. split; [|by rewrite Hkc].
      apply RB_red. rewrite tcolor_join. by destruct wb.
    - exists (S (S n)). split; [done|]. split; [|done]. apply RB_black. eauto. }
  destruct (RB_plug k n' _ Hk' Ht') as (m & Hm & Hmb); [by rewrite tcolor_join..|].
  split; [split; [done|eauto]|]. rewrite <- He. simpl. apply plug_elems. unfold fill. simpl.
  rewrite (rotate_elems d _ _ RBT_BLACK RBT_BLACK). apply join_elems; [done|].
  apply join_elems; [done|apply recolor_elems].
Qed.

(** Turns of the loop left: a red subtree ends it. *)
Definition need (k : path) (t : tree) : nat := match tcolor t with RBT_RED => O | RBT_BLACK => length k end.

(** The loop goes on at a subtree that is short, or the tree is repaired. *)
Definition deleting (s : rbt) (x xp : Z) (fr : list (Z * rbt_node)) (es : list (Z * Z)) (fuel : nat) : Prop :=
  (∃ k t, x = rp NIL t ∧ xp = kptr NIL k ∧ short_at s k t fr es ∧ (need k t < fuel)%nat) ∨
  (∃ t, x = rp NIL t ∧ is_rbt NIL s t fr ∧ elems t = es ∧ (0 < fuel)%nat).

Lemma fix_delete_case_spec d s c p dp sib k t fr es fuel :
  short_at s (Fr d c p dp sib :: k) t fr es → tcolor t = RBT_BLACK → (length k < fuel)%nat →
  swp (fix_delete_case d p) s (λ r s', deleting s' r.1 r.2 fr es fuel).
Proof.
  intros (Hs & He & n & Hk & [(Htc & Ht)|(Htc & _)]) Hb Hf; [|by rewrite Hb in Htc].
  assert (sib ≠ E) as Hne by (intros ->; simpl in Hk; by destruct Hk as (? & _)).
  destruct (tree_join d sib Hne) as (cw & wa & w & dw & wb & ->). unfold fix_delete_case.
  eapply frame_node; [exact Hs|]. autorewrite with nodes. rewrite rp_join.
  pose proof Hs as Hs'. rewrite flip in Hs'. eapply focus_node; [exact Hs'|].
  apply swp_bind. eapply swp_mono; [by eapply black_sibling_spec; [..|apply color_mk]|].
  intros w' s1 (c1 & k1 & wa1 & dw1 & wb1 & Hr & Hk1). unfold delete_rest.
  destruct Hr as (Hs1 & Hr1). eapply nephew_nodes; [exact Hs1|]. intros nl nr Hnl Hnr.
  pose proof (conj Hs1 Hr1) as Hr. unfold is_black. rewrite Hnl, Hnr.
  destruct (bool_decide (tcolor wa1 = RBT_BLACK) && bool_decide (tcolor wb1 = RBT_BLACK)) eqn:Eb.
  - apply andb_prop in Eb as (Ea%bool_decide_eq_true & Eb%bool_decide_eq_true).
    eapply swp_mono; [by eapply both_black_spec|]. intros r s2 (t2 & -> & Hc2 & H2). left. exists k1, t2.
    split; [done|]. split; [done|]. split; [done|]. unfold need. rewrite Hc2.
    destruct Hk1 as [->|(Hl & ->)]; [destruct c1; lia|lia].
  - apply swp_bind. eapply swp_mono.
    { eapply far_red_spec; [done|done|]. intros (Ha & Hb'). by rewrite Ha, Hb' in Eb. }
    intros w2 s2 (wa2 & dw2 & wb2 & Hr2 & Hc2). eapply swp_mono; [by eapply delete_end_spec|].
    intros r s3 (t3 & -> & H3 & He3). right. exists t3. split; [done|]. split; [done|]. split; [done|lia].
Qed.

(** The root is the outermost node of a path. *)
Lemma kroot_cell k hole : k ≠ [] → ∃ n cs, kcells NIL k hole ≡ₚ (kroot k hole, n) :: cs.
Proof.
  revert hole. induction k as [|f k IH]; intros hole Hk; [done|]. simpl.
  destruct (decide (k = [])) as [->|Hne]; [eauto|].
  destruct (IH (fr_ptr f) Hne) as (n & cs & Hp). 
  exists n, ((fr_ptr f, mk_node (fr_dir f) (fr_data f) hole (rp NIL (fr_sib f)) (kptr NIL k) (fr_color f)) ::
    cells NIL (fr_ptr f) (fr_sib f) ++ cs). rewrite Hp. solve_Permutation.
Qed.

Lemma focus_not_root s k t fr : at_focus NIL s k t fr → k ≠ [] → rp NIL t ≠ kroot k (rp NIL t).
Proof.
  intros (_ & Hd & _) Hk Hq. destruct (kroot_cell k (rp NIL t) Hk) as (n & cs & Hp). rewrite Hp in Hd. simpl in Hd.
  apply NoDup_cons in Hd as (Hd & _). apply Hd. rewrite fmap_app, elem_of_app. right. rewrite <- Hq.
  destruct t; apply list_elem_of_here.
Qed.

Lemma recolor_black t : tcolor t = RBT_BLACK → recolor RBT_BLACK t = t.
Proof. destruct t; simpl; [done|]. by intros ->. Qed.

(** The end of the loop: the subtree becomes black. *)
Lemma fix_delete_end s k t fr es :
  short_at s k t fr es → k = [] ∨ tcolor t = RBT_RED →
  swp (upd (rp NIL t) (set_color RBT_BLACK)) s (λ _ s', ∃ t', is_rbt NIL s' t' fr ∧ elems t' = es).
Proof.
  intros (Hs & He & n & Hk & Hn) Hor. apply (swp_mono _ _ (λ _ s', at_focus NIL s' k (recolor RBT_BLACK t) fr)).
  - apply swp_unit. destruct (decide (t = E)) as [->|Ht]; [|by eapply focus_recolor].
    unfold at_focus in Hs. simpl in Hs. unfold nil_cell in Hs. simpl rp. up s1 H1. apply swp_ret.
    unfold at_focus. simpl. perm H1.
  - intros _ s1 H1. exists (plug k (recolor RBT_BLACK t)). split; [|by rewrite <- He; apply plug_elems, recolor_elems].
    assert (∃ m, RB m (plug k (recolor RBT_BLACK t)) ∧ tcolor (plug k (recolor RBT_BLACK t)) = RBT_BLACK) as (m & Hm & Hmb).
    { destruct Hn as [(Htc & Ht)|(Htc & Ht)].
      - destruct Hor as [->|Hor]; [|by rewrite Htc in Hor]. simpl. rewrite recolor_black by done. eauto.
      - apply (RB_plug k (S n)); [done|done|by destruct t..]. }
    split; [by rewrite <- zip_all|]. eauto.
Qed.

Lemma rbt_fix_delete_spec fuel : ∀ s x xp fr es,
  deleting s x xp fr es fuel →
  swp (rbt_fix_delete NIL fuel x xp) s (λ _ s', ∃ t', is_rbt NIL s' t' fr ∧ elems t' = es).
Proof.
  induction fuel as [|fuel IH]; intros s x xp fr es Hd.
  { destruct Hd as [(? & ? & _ & _ & _ & ?)|(? & _ & _ & _ & ?)]; lia. }
  simpl. destruct Hd as [(k & t & -> & -> & Hd & Hf)|(t & -> & (Hs & Hc & n & Hn) & He & _)].
  - pose proof Hd as (Hs & He & _). eapply st_get_root; [exact Hs|].
    destruct (decide (k = [])) as [->|Hne].
    { simpl kroot. rewrite Z.eqb_refl. apply swp_bind. simpl negb. cbv iota. apply swp_ret.
      apply (fix_delete_end s [] t); auto. }
    rewrite (proj2 (Z.eqb_neq _ _) (focus_not_root s k t fr Hs Hne)). simpl negb. cbv iota. apply swp_bind.
    eapply focus_read_color; [exact Hs|]. intros nx Hnx. apply swp_ret. unfold is_black. rewrite Hnx.
    destruct (tcolor t) eqn:Htc; [rewrite bool_decide_false by done; by apply (fix_delete_end s k t); auto|].
    rewrite bool_decide_true by done. destruct k as [|[d c p dp sib] k]; [done|]. simpl kptr.
    eapply frame_node; [exact Hs|].
    assert ((rp NIL t =? n_left (mk_node d dp (rp NIL t) (rp NIL sib) (kptr NIL k) c)) = bool_decide (d = L)) as ->.
    { destruct d; simpl; [by rewrite Z.eqb_refl|]. apply Z.eqb_neq. apply (focus_not_sib NIL s _ _ _ _ Hs). right. simpl.
      destruct Hd as (_ & _ & n & Hk & _). intros ->. simpl in Hk. by destruct Hk as (? & _). }
    apply swp_bind, (swp_mono _ _ (λ r s', deleting s' r.1 r.2 fr es fuel)); [|intros r s1 H1; by apply IH].
    unfold need in Hf. rewrite Htc in Hf. simpl in Hf.
    destruct d; rewrite ?bool_decide_true, ?bool_decide_false by done;
      rewrite ?fix_delete_left_eq, ?fix_delete_right_eq; (eapply fix_delete_case_spec; [done|done|lia]).
  - eapply st_get_root; [exact Hs|]. simpl kroot. rewrite Z.eqb_refl. apply swp_bind. simpl negb. cbv iota. apply swp_ret.
    apply (fix_delete_end s [] t); [|by left]. split; [done|]. split; [done|]. exists n. split; [done|]. by left.
Qed.

(** ** Taking a node out *)

Lemma relink_eq z x : relink NIL z x = (nz ← node z; link NIL L z x (n_parent nz)).
Proof. reflexivity. Qed.

(** A node with one subtree is replaced by it. *)
Lemma splice_spec d s k c sub z dz fr (Q : () → rbt → Prop) :
  at_focus NIL s k (join d c sub z dz E) fr →
  (∀ s' nz, at_focus NIL s' k sub ((z, nz) :: fr) → Q () s') →
  swp (splice NIL z (rp NIL sub)) s Q.
Proof.
  intros Hs HQ. unfold at_focus in Hs. rewrite cells_join, rp_join in Hs. simpl in Hs. rewrite app_nil_r in Hs.
  unfold splice. rewrite relink_eq. apply swp_bind. rd.
  apply swp_unit. eapply (link_rule NIL L k); [exact Hs|take|pull|pull|]. next s Hs. apply swp_ret.
  set (nz := mk_node d dz (rp NIL sub) NIL (kptr NIL k) c) in *.
  apply swp_unit. destruct sub as [|sc sl sp sd sr]; simpl rp in *.
  - rewrite Z.eqb_refl. apply swp_bind, swp_when; [done|]. intros _. apply swp_ret, (HQ _ nz).
    unfold at_focus. simpl. perm Hs.
  - simpl cells in Hs. assert (sp ≠ NIL) as Hp by apart. rewrite (proj2 (Z.eqb_neq _ _) Hp). simpl sm_when.
    apply swp_bind. rd. up_end s1 H1. apply swp_ret, (HQ _ nz). unfold at_focus. simpl. simpl in H1.
    unfold nz in *. autorewrite with nodes in H1. perm H1.
Qed.

(** The leftmost node of a subtree, and the path to it. *)
Lemma leftmost_spec fuel : ∀ s k t fr,
  at_focus NIL s k t fr → t ≠ E → (height t ≤ fuel)%nat →
  swp (leftmost NIL fuel (rp NIL t)) s (λ y s', s' = s ∧ ∃ k' cy dy yr,
    t = plug k' (T cy E y dy yr) ∧ Forall (λ f, fr_dir f = L) k').
Proof.
  induction fuel as [|fuel IH]; intros s k t fr Hs Ht Hf; destruct t as [|c l p dt r]; try done; simpl in Hf; [lia|].
  simpl. eapply (focus_node NIL L); [exact Hs|]. simpl. destruct (decide (l = E)) as [->|Hl].
  - simpl rp. rewrite Z.eqb_refl. simpl. apply swp_ret. split; [done|]. exists [], c, dt, r. by split; [|constructor].
  - assert (at_focus NIL s (Fr L c p dt r :: k) l fr) as Hs' by (by rewrite zip).
    rewrite (proj2 (Z.eqb_neq _ _) (focus_not_nil _ _ _ _ _ Hs' Hl)). simpl negb. cbv iota.
    eapply swp_mono; [apply (IH s _ l fr Hs' Hl); lia|]. intros y s' (-> & k' & cy & dy & yr & -> & Hk').
    split; [done|]. exists (k' ++ [Fr L c p dt r]), cy, dy, yr. split; [by rewrite plug_app|].
    apply Forall_app. split; [done|]. by repeat constructor.
Qed.

(** [z] is unlinked from the successor [y], which owns the right subtree. *)
Definition mid (s : rbt) (k : path) (c : rbt_node_color) (l : tree) (z dz rz y dy : Z) (r : tree) (stale : Z)
    (cy : rbt_node_color) (fr : list (Z * rbt_node)) : Prop :=
  st s (kroot k z) (kcells NIL k z ++ (z, mkNode dz (rp NIL l) rz (kptr NIL k) c) :: cells NIL z l ++
    cells NIL y r ++ (y, mkNode dy NIL (rp NIL r) stale cy) :: nil_cell NIL :: fr).

Lemma replace_spec s k c l z dz rz y dy r stale cy fr (Q : () → rbt → Prop) :
  mid s k c l z dz rz y dy r stale cy fr →
  (∀ s' nz, at_focus NIL s' k (T c l y dy r) ((z, nz) :: fr) → Q () s') → swp (replace NIL z y) s Q.
Proof.
  unfold mid. intros Hs HQ. unfold replace. rewrite relink_eq. apply swp_bind. rd. simpl n_parent.
  apply swp_unit. eapply (link_rule NIL L k); [exact Hs|take|pull|pull|]. next s Hs. apply swp_ret.
  rd. simpl. up s1 H1. simpl in H1. clear s Hs. up s Hs. simpl in Hs. clear s1 H1.
  eapply (reparent NIL _ _ z y l); [exact Hs|take|pull|]. next s Hs. up_end s1 H1. simpl in H1.
  apply (HQ _ (mkNode dz (rp NIL l) rz (kptr NIL k) c)). unfold at_focus. simpl. perm H1.
Qed.

(** A subtree whose parent is on a path of left steps is replaced by one of
    its subtrees. *)
Lemma cut_spec s f k cy y dy yr fr {A} (m : SM rbt A) Q :
  at_focus NIL s (f :: k) (T cy E y dy yr) fr → fr_dir f = L →
  (∀ s', at_focus NIL s' (f :: k) yr ((y, mkNode dy NIL (rp NIL yr) (fr_ptr f) cy) :: fr) → swp m s' Q) →
  swp (upd (fr_ptr f) (set_left (rp NIL yr)) ;;
       sm_when (negb (rp NIL yr =? NIL)) (upd (rp NIL yr) (set_parent (fr_ptr f))) ;; m) s Q.
Proof.
  intros Hs Hf Hm. destruct f as [d c p dt sib]. simpl in Hf. subst d. unfold at_focus in Hs. simpl in *.
  up s1 H1. simpl in H1. clear s Hs.
  eapply (reparent NIL _ _ y p yr); [exact H1|take|pull|]. next s1 H1. apply Hm. unfold at_focus. simpl. perm H1.
Qed.

Lemma frame_cell k1 f k2 : ∀ hole, ∃ n cs, kcells NIL (k1 ++ f :: k2) hole ≡ₚ (fr_ptr f, n) :: cs.
Proof.
  induction k1 as [|g k1 IH]; intros hole; simpl; [eauto|].
  destruct (IH (fr_ptr g)) as (n & cs & Hp).
  exists n, ((fr_ptr g, mk_node (fr_dir g) (fr_data g) hole (rp NIL (fr_sib g)) (kptr NIL (k1 ++ f :: k2)) (fr_color g)) ::
    cells NIL (fr_ptr g) (fr_sib g) ++ cs). rewrite Hp. solve_Permutation.
Qed.

Lemma frames_apart s f k1 g k2 t fr : at_focus NIL s (f :: k1 ++ g :: k2) t fr → fr_ptr f ≠ fr_ptr g.
Proof.
  intros (_ & Ho) Heq. simpl in Ho. destruct (frame_cell k1 g k2 (fr_ptr f)) as (n & cs & Hp). rewrite Hp in Ho.
  destruct Ho as (Hd & _). simpl in Hd. apply NoDup_cons in Hd as (Hd & _). apply Hd. rewrite Heq.
  rewrite !fmap_app. simpl. set_solver.
Qed.

Lemma detach_spec s k c l z dz k' cy y dy yr fr (Q : Z → rbt → Prop) :
  at_focus NIL s k (T c l z dz (plug k' (T cy E y dy yr))) fr → Forall (λ f, fr_dir f = L) k' →
  (∀ s' rz stale c2 dz2, mid s' k c l z dz rz y dy (plug k' yr) stale cy fr →
    Q (kptr NIL (k' ++ Fr R c2 y dz2 l :: k)) s') →
  swp (detach_successor NIL z y) s Q.
Proof.
  intros Hs Hk HQ. unfold detach_successor.
  change (T c l z dz ?t) with (fill (Fr R c z dz l) t) in Hs. rewrite <- zip in Hs.
  assert (at_focus NIL s (k' ++ Fr R c z dz l :: k) (T cy E y dy yr) fr) as Hf.
  { rewrite zip_all. rewrite plug_app. by rewrite zip_all in Hs. }
  eapply (focus_node NIL L); [exact Hf|]. simpl n_parent. destruct k' as [|f k'].
  - simpl kptr. rewrite Z.eqb_refl. apply swp_ret. apply (HQ s y z c dz). unfold mid. unfold at_focus in Hf. simpl in *. perm Hf.
  - simpl kptr. apply Forall_cons in Hk as (Hd & _). simpl app in Hf.
    pose proof (frames_apart _ _ _ _ _ _ _ Hf) as Hne. simpl in Hne.
    rewrite (proj2 (Z.eqb_neq _ _) Hne). simpl n_right. clear Hs. eapply cut_spec; [exact Hf|done|]. next s Hf.
    assert (at_focus NIL s k (T c l z dz (plug (f :: k') yr)) ((y, mkNode dy NIL (rp NIL yr) (fr_ptr f) cy) :: fr)) as Hs.
    { change (T c l z dz ?t) with (fill (Fr R c z dz l) t). rewrite <- zip, zip_all.
      rewrite app_comm_cons, zip_all, plug_app in Hf. done. }
    clear Hf. unfold at_focus in Hs. set (r := plug (f :: k') yr) in *. simpl in Hs. rd. simpl n_right.
    up s1 H1. clear s Hs. simpl in H1.
    eapply (reparent NIL _ _ z y r); [exact H1|take|pull|]. next s1 H1. apply swp_ret.
    apply (HQ s1 (rp NIL r) (fr_ptr f) c dz). unfold mid. perm H1.
Qed.

(** ** The whole removal *)

Lemma RBk_rename k' : ∀ n d c p dt p2 dt2 sib k,
  RBk n (k' ++ Fr d c p dt sib :: k) → RBk n (k' ++ Fr d c p2 dt2 sib :: k).
Proof.
  induction k' as [|f k' IH]; intros n d c p dt p2 dt2 sib k; [done|]. simpl. intros (Hs & Hk). split; [done|].
  destruct (fr_color f); [|by eapply IH]. destruct Hk as (Hsc & _ & Hkc & Hk). split; [done|].
  split; [by destruct k'|]. split; [by destruct k'|by eapply IH].
Qed.

Lemma short_child n t : RB n t →
  tcolor t = RBT_BLACK ∧ RB n t ∨ tcolor t = RBT_RED ∧ RB (S n) (recolor RBT_BLACK t).
Proof. intros Ht. destruct (tcolor t) eqn:E; [right|by left]. split; [done|]. by apply RB_blacken. Qed.

(** A node with an empty side has been cut out: repair if it was black. *)
Lemma cut_repair fuel s d k c p dt sub fr m es :
  at_focus NIL s k sub fr → RB m (plug k (join d c sub p dt E)) → tcolor (plug k (join d c sub p dt E)) = RBT_BLACK →
  elems (plug k sub) = es → (length k < fuel)%nat →
  swp (sm_when (bool_decide (c = RBT_BLACK)) (rbt_fix_delete NIL fuel (rp NIL sub) (kptr NIL k))) s
    (λ _ s', ∃ t', is_rbt NIL s' t' fr ∧ elems t' = es).
Proof.
  intros Hs Hm Hb He Hf. destruct (RB_unplug k m _ Hm Hb) as (n & Hk & Hn & Hkc & Hke). rewrite tcolor_join in Hkc, Hke.
  destruct c.
  - rewrite bool_decide_false by done. apply RB_red in Hn as (Hsc & _ & Hsub & _). exists (plug k sub).
    destruct (RB_plug k n sub) as (m' & Hm' & Hb'); [done..|by intros ->; specialize (Hke eq_refl)|].
    split; [|done]. split; [by rewrite <- zip_all|eauto].
  - rewrite bool_decide_true by done. apply RB_black in Hn as (n' & -> & Hsub & _). apply rbt_fix_delete_spec.
    left. exists k, sub. split; [done|]. split; [done|]. split; [|unfold need; destruct (tcolor sub); lia].
    split; [done|]. split; [done|]. exists n'. split; [done|]. by apply short_child.
Qed.

Lemma plug_height k t : (length k + height t ≤ height (plug k t))%nat.
Proof.
  revert t. induction k as [|f k IH]; intros t; [simpl; lia|]. simpl. specialize (IH (fill f t)).
  assert (S (height t) ≤ height (fill f t))%nat; [|lia]. unfold fill. destruct (fr_dir f); simpl; lia.
Qed.

Lemma lefts_all_left k : Forall (λ f, fr_dir f = L) k → lefts k = [].
Proof. induction 1 as [|f k Hf Hk IH]; [done|]. simpl. by rewrite Hf. Qed.

(** A node with one subtree. *)
Lemma remove_one fuel s d k c sub z dz fr n par :
  at_focus NIL s k (join d c sub z dz E) fr → RB n (plug k (join d c sub z dz E)) →
  tcolor (plug k (join d c sub z dz E)) = RBT_BLACK → (length k < fuel)%nat → par = kptr NIL k →
  swp (splice NIL z (rp NIL sub) ;;
       sm_when (bool_decide (c = RBT_BLACK)) (rbt_fix_delete NIL fuel (rp NIL sub) par)) s
    (λ _ s', ∃ t' nz, is_rbt NIL s' t' ((z, nz) :: fr) ∧ elems t' = lefts k ++ elems sub ++ rights k).
Proof.
  intros Hs Hn Hb Hf ->. apply swp_bind. eapply splice_spec; [exact Hs|]. clear s Hs. intros s nz Hs.
  eapply swp_mono; [eapply (cut_repair fuel s d k); [exact Hs|done|done|done|done]|].
  intros [] s' (t' & Ht' & He). exists t', nz. split; [done|]. by rewrite He, elems_plug.
Qed.

(** A node with two subtrees. *)
Lemma remove_two fuel s k c l z dz r fr n :
  at_focus NIL s k (T c l z dz r) fr → RB n (plug k (T c l z dz r)) →
  tcolor (plug k (T c l z dz r)) = RBT_BLACK → r ≠ E → (height (plug k (T c l z dz r)) < fuel)%nat →
  swp (y ← leftmost NIL fuel (rp NIL r);
       ny ← node y;
       x_parent ← detach_successor NIL z y;
       replace NIL z y ;;
       sm_when (is_black ny) (rbt_fix_delete NIL fuel (n_right ny) x_parent)) s
    (λ _ s', ∃ t' nz, is_rbt NIL s' t' ((z, nz) :: fr) ∧ elems t' = lefts k ++ elems l ++ elems r ++ rights k).
Proof.
  intros Hs Hn Hb Hr Hf. assert (at_focus NIL s (Fr R c z dz l :: k) r fr) as Hs' by (by rewrite zip).
  assert (height r ≤ fuel)%nat as Hrf by (pose proof (plug_height k (T c l z dz r)); simpl in *; lia).
  apply swp_bind. eapply swp_mono; [by apply (leftmost_spec fuel s _ r fr Hs')|].
  intros y ? (-> & k' & cy & dy & yr & -> & Hk').
  assert (at_focus NIL s (k' ++ Fr R c z dz l :: k) (T cy E y dy yr) fr) as Hfoc.
  { rewrite zip_all, plug_app. by rewrite zip_all in Hs'. }
  eapply (focus_node NIL L); [exact Hfoc|]. simpl.
  pose proof (plug_height (k' ++ Fr R c z dz l :: k) (T cy E y dy yr)) as Hh.
  assert (plug (k' ++ Fr R c z dz l :: k) (T cy E y dy yr) = plug k (T c l z dz (plug k' (T cy E y dy yr)))) as Hpl
    by (by rewrite plug_app).
  rewrite Hpl in Hh. apply swp_bind. eapply detach_spec; [exact Hs|done|]. clear s Hs Hs' Hfoc.
  intros s rz stale c2 dz2 Hs. apply swp_bind. eapply replace_spec; [exact Hs|]. clear s Hs. intros s nz Hs.
  set (K := k' ++ Fr R c y dy l :: k).
  assert (at_focus NIL s K yr ((z, nz) :: fr)) as Hfoc.
  { unfold K. rewrite zip_all, plug_app. simpl. unfold fill. simpl. by rewrite zip_all in Hs. }
  destruct (RB_unplug (k' ++ Fr R c z dz l :: k) n (T cy E y dy yr)) as (m & Hkm & Hm & Hkc & _); [by rewrite Hpl..|].
  apply (RBk_rename k' m R c z dz y dy l k) in Hkm. fold K in Hkm.
  assert (kcolor K = kcolor (k' ++ Fr R c z dz l :: k)) as HkK by (unfold K; by destruct k').
  destruct (RB_plug K m (T cy E y dy yr)) as (m2 & Hm2 & Hb2); [done|done|by rewrite HkK|unfold K; by destruct k'|].
  assert (kptr NIL (k' ++ Fr R c2 y dz2 l :: k) = kptr NIL K) as -> by (unfold K; by destruct k').
  eapply swp_mono.
  { apply (cut_repair fuel s R K cy y dy yr ((z, nz) :: fr) m2 (elems (plug K yr))); [done..|].
    unfold K. rewrite length_app in *. simpl in *. lia. }
  intros [] s' (t' & Ht' & He). exists t', nz. split; [done|]. rewrite He. unfold K. rewrite plug_app. simpl.
  rewrite elems_plug. unfold fill. simpl. rewrite <- !app_assoc. f_equal. f_equal. simpl.
  rewrite !(elems_plug k'), (lefts_all_left k' Hk'). simpl. by rewrite <- !app_assoc.
Qed.

Lemma rbt_remove_node_spec fuel s k c l z dz r fr :
  is_rbt NIL s (plug k (T c l z dz r)) fr → (height (plug k (T c l z dz r)) < fuel)%nat →
  swp (rbt_remove_node NIL fuel z) s (λ _ s', ∃ t' nz,
    is_rbt NIL s' t' ((z, nz) :: fr) ∧ elems t' = lefts k ++ elems l ++ elems r ++ rights k).
Proof.
  intros (Hs & Hb & n & Hn) Hf. rewrite <- zip_all in Hs. unfold rbt_remove_node.
  assert (length k < fuel)%nat as Hlk by (pose proof (plug_height k (T c l z dz r)); simpl in *; lia).
  eapply (focus_node NIL L); [exact Hs|]. simpl. unfold is_black at 1 2. simpl n_color.
  destruct (decide (l = E)) as [->|Hl].
  { simpl rp. rewrite Z.eqb_refl. by apply (remove_one fuel s R k c r z dz fr n). }
  assert (rp NIL l ≠ NIL) as Hl0.
  { eapply (focus_not_nil NIL s (Fr L c z dz r :: k)); [by rewrite zip|done]. }
  rewrite (proj2 (Z.eqb_neq _ _) Hl0). destruct (decide (r = E)) as [->|Hr].
  { simpl rp. rewrite Z.eqb_refl. by apply (remove_one fuel s L k c l z dz fr n). }
  assert (rp NIL r ≠ NIL) as Hr0.
  { eapply (focus_not_nil NIL s (Fr R c z dz l :: k)); [by rewrite zip|done]. }
  rewrite (proj2 (Z.eqb_neq _ _) Hr0). by apply (remove_two fuel s k c l z dz r fr n).
Qed.

End delete.
