(* ===== verification/RbtThm.v ===== *)
(** * Properties of the red-black tree *)

From stdpp Require Import sorting.
From S2P Require Import Prelude StateM Rbt RbtTree RbtInv RbtInsert RbtDelete.

Section thm.
Context (NIL : Z) (key : Z → res Z) (kv : Z → Z).

Lemma is_rbt_height s t fr fuel :
  is_rbt NIL s t fr → (2 * Nat.log2 (length (elems t) + 1) < fuel)%nat → (height t < fuel)%nat.
Proof. intros (_ & Hb & n & Hn) Hf. pose proof (RB_log n t Hn Hb). lia. Qed.

Lemma elem_plug z dz t : (z, dz) ∈ elems t → ∃ k c l r, t = plug k (T c l z dz r).
Proof.
  induction t as [|c l IHl p dt r IHr]; simpl; [by intros ?%elem_of_nil|].
  intros [Hi|[[= -> ->]|Hi]%elem_of_cons]%elem_of_app.
  - destruct (IHl Hi) as (k & c' & l' & r' & ->). exists (k ++ [Fr L c p dt r]), c', l', r'. by rewrite plug_app.
  - by exists [], c, l, r.
  - destruct (IHr Hi) as (k & c' & l' & r' & ->). exists (k ++ [Fr R c p dt l]), c', l', r'. by rewrite plug_app.
Qed.

(** C23. Insertion into a red-black search tree returns 1 and leaves a
    red-black tree in the heap, in which the new node stands after every key
    that is at most its own and before every greater one, and nothing else
    has changed place.  Twice the binary logarithm of the size bounds the
    descent and the repair. *)
Theorem rbt_insert_node_correct fuel s t z n0 data fr :
  is_rbt NIL s t ((z, n0) :: fr) → keyed key kv (elems t) → sorted kv (elems t) → key data = Ok (kv data) →
  (2 * Nat.log2 (length (elems t) + 1) < fuel)%nat →
  ∃ s' t' l r, rbt_insert_node NIL key fuel z data s = Ok (1, s') ∧ is_rbt NIL s' t' fr ∧
    elems t = l ++ r ∧ elems t' = l ++ (z, data) :: r ∧
    Forall (λ e, kv e.2 ≤ kv data) l ∧ Forall (λ e, kv data < kv e.2) r.
Proof.
  intros Hs Hk Hso Hd Hf. pose proof (is_rbt_height _ _ _ _ Hs Hf) as Hh.
  pose proof (rbt_insert_node_spec NIL key kv fuel s t z n0 data fr Hs Hk Hso Hd Hh) as Hw.
  apply swp_elim in Hw as (a & s' & Hw & -> & t' & l & r & H'). eauto 10.
Qed.

(** C37. Search finds a node exactly when the key is in the tree, in at most
    twice the binary logarithm of the size steps, and changes nothing. *)
Theorem rbt_search_node_correct fuel s t fr id :
  is_rbt NIL s t fr → keyed key kv (elems t) → sorted kv (elems t) → Forall (λ e, e.2 ≠ 0) (elems t) →
  (2 * Nat.log2 (length (elems t) + 1) < fuel)%nat →
  ∃ p, rbt_search_node NIL key fuel (root s) id s = Ok (p, s) ∧
    ((∃ dt, (p, dt) ∈ elems t ∧ kv dt = id) ∨ p = NIL ∧ Forall (λ e, kv e.2 ≠ id) (elems t)).
Proof.
  intros Hs Hk Hso Hz Hf. pose proof (is_rbt_height _ _ _ _ Hs Hf) as Hh. destruct Hs as (Hs & _).
  pose proof (rbt_search_node_spec NIL key kv fuel id s [] t fr Hs Hk Hso Hz Hh) as Hw.
  destruct Hs as (-> & _). simpl kroot. apply swp_elim in Hw as (p & s' & Hw & -> & H'). eauto.
Qed.

(** C24. Removing a node of a red-black tree leaves a red-black tree that
    holds the other nodes in their order; the removed cell belongs to the
    caller again. *)
Theorem rbt_remove_node_correct fuel s t fr z dz :
  is_rbt NIL s t fr → (z, dz) ∈ elems t → (2 * Nat.log2 (length (elems t) + 1) < fuel)%nat →
  ∃ s' t' nz l r, rbt_remove_node NIL fuel z s = Ok ((), s') ∧ is_rbt NIL s' t' ((z, nz) :: fr) ∧
    elems t = l ++ (z, dz) :: r ∧ elems t' = l ++ r.
Proof.
  intros Hs Hz Hf. pose proof (is_rbt_height _ _ _ _ Hs Hf) as Hh.
  destruct (elem_plug z dz t Hz) as (k & c & l & r & ->).
  pose proof (rbt_remove_node_spec NIL fuel s k c l z dz r fr Hs Hh) as Hw.
  apply swp_elim in Hw as ([] & s' & Hw & t' & nz & Hs' & He).
  exists s', t', nz, (lefts k ++ elems l), (elems r ++ rights k). split; [done|]. split; [done|].
  rewrite elems_plug, He. simpl. by rewrite <- !app_assoc.
Qed.
End thm.

(** ** Witnesses *)

(** Three nodes with the keys 5, 7 and 9, the sentinel at address 1. *)
Definition three : tree := T RBT_BLACK (T RBT_RED E 20 5 E) 10 7 (T RBT_RED E 30 9 E).
Definition spare : rbt_node := mkNode 0 0 0 0 RBT_RED.
Definition three_heap : rbt :=
  mkRbt (list_to_map (cells 1 1 three ++ nil_cell 1 :: [(40, spare)])) 10.

Lemma three_ok : is_rbt 1 three_heap three [(40, spare)].
Proof.
  split; [|split; [done|by exists 1%nat]]. split; [done|]. split; [by apply (bool_decide_unpack _); vm_compute|].
  intros p n Hp. apply elem_of_list_to_map; [|exact Hp]. by apply (bool_decide_unpack _); vm_compute.
Qed.

Lemma three_sorted : sorted id (elems three).
Proof. repeat constructor; simpl; lia. Qed.

Lemma rbt_insert_node_correct_witness :
  ∃ s' t' l r, rbt_insert_node 1 Ok 5 40 8 three_heap = Ok (1, s') ∧ is_rbt 1 s' t' [] ∧
    elems three = l ++ r ∧ elems t' = l ++ (40, 8) :: r ∧
    Forall (λ e, e.2 ≤ 8) l ∧ Forall (λ e, 8 < e.2) r.
Proof.
  apply (rbt_insert_node_correct 1 Ok id 5 three_heap three 40 spare 8 []).
  - apply three_ok.
  - repeat constructor.
  - apply three_sorted.
  - done.
  - vm_compute. lia.
Defined.

Lemma rbt_search_node_correct_witness :
  ∃ p, rbt_search_node 1 Ok 5 (root three_heap) 9 three_heap = Ok (p, three_heap) ∧
    ((∃ dt, (p, dt) ∈ elems three ∧ dt = 9) ∨ p = 1 ∧ Forall (λ e, e.2 ≠ 9) (elems three)).
Proof.
  apply (rbt_search_node_correct 1 Ok id 5 three_heap three [(40, spare)] 9).
  - apply three_ok.
  - repeat constructor.
  - apply three_sorted.
  - repeat constructor; done.
  - vm_compute. lia.
Defined.

Lemma rbt_remove_node_correct_witness :
  ∃ s' t' nz l r, rbt_remove_node 1 5 10 three_heap = Ok ((), s') ∧ is_rbt 1 s' t' [(10, nz); (40, spare)] ∧
    elems three = l ++ (10, 7) :: r ∧ elems t' = l ++ r.
Proof.
  apply (rbt_remove_node_correct 1 5 three_heap three [(40, spare)] 10 7).
  - apply three_ok.
  - simpl. set_solver.
  - vm_compute. lia.
Defined.
