(* ===== verification/Vma.v ===== *)
(** * Virtual memory areas

    [kernel/memory/vm_manager.c]: the areas of an address space are objects
    in a heap, indexed by start address in a red-black tree; each region has
    a list of the ranges handed out.  A slab cache is the list of the objects
    it has left; freeing returns an object to it.  The range lists own their
    nodes, so they are plain lists. *)

From S2P Require Import Prelude StateM Spinlock Pmm Frames Paging Rbt.

Open Scope sm_scope.

Definition REGION_SIZE : Z := 0x0000000400000000.
Definition USER_MMAP_BASE : Z := 0x100000000.
Definition VMA_ANCHOR : Z := 0xffffff8000000000.
Definition VMA_REGION_A : Z := VMA_ANCHOR.
Definition VMA_REGION_B : Z := VMA_REGION_A + REGION_SIZE.
Definition VMA_REGION_C : Z := VMA_REGION_B + REGION_SIZE.
Definition VMA_REGION_KMODULE : Z := VMA_REGION_C + REGION_SIZE.
Definition VMA_REGION_PROCESS : Z := 0x400000.

Record virtual_memory := mkVma {
  start_address : Z; end_address : Z; phys_address : Z; vm_length : Z; flags : Z; core : Z }.

(** [struct virtual_memory_tree]: two lists of ranges. *)
Record virtual_memory_tree := mkZone { active : list (Z * Z); unused : list (Z * Z) }.

Definition push_active (z : virtual_memory_tree) (r : Z * Z) : virtual_memory_tree :=
  mkZone (r :: active z) (unused z).

Record virtual_memory_page := mkPage {
  lock : spinlock; zone_process : virtual_memory_tree; zone_a : virtual_memory_tree; tree_root : Z;
  zone_b : virtual_memory_tree; zone_c : virtual_memory_tree; zone_kmodule : virtual_memory_tree;
  zone_user_mmap : virtual_memory_tree }.

Definition set_zone_process (z : virtual_memory_tree) (p : virtual_memory_page) : virtual_memory_page :=
  mkPage (lock p) z (zone_a p) (tree_root p) (zone_b p) (zone_c p) (zone_kmodule p) (zone_user_mmap p).
Definition set_zone_a (z : virtual_memory_tree) (p : virtual_memory_page) : virtual_memory_page :=
  mkPage (lock p) (zone_process p) z (tree_root p) (zone_b p) (zone_c p) (zone_kmodule p) (zone_user_mmap p).
Definition set_tree_root (r : Z) (p : virtual_memory_page) : virtual_memory_page :=
  mkPage (lock p) (zone_process p) (zone_a p) r (zone_b p) (zone_c p) (zone_kmodule p) (zone_user_mmap p).
Definition set_zone_b (z : virtual_memory_tree) (p : virtual_memory_page) : virtual_memory_page :=
  mkPage (lock p) (zone_process p) (zone_a p) (tree_root p) z (zone_c p) (zone_kmodule p) (zone_user_mmap p).
Definition set_zone_c (z : virtual_memory_tree) (p : virtual_memory_page) : virtual_memory_page :=
  mkPage (lock p) (zone_process p) (zone_a p) (tree_root p) (zone_b p) z (zone_kmodule p) (zone_user_mmap p).
Definition set_zone_kmodule (z : virtual_memory_tree) (p : virtual_memory_page) : virtual_memory_page :=
  mkPage (lock p) (zone_process p) (zone_a p) (tree_root p) (zone_b p) (zone_c p) z (zone_user_mmap p).
Definition set_zone_user_mmap (z : virtual_memory_tree) (p : virtual_memory_page) : virtual_memory_page :=
  mkPage (lock p) (zone_process p) (zone_a p) (tree_root p) (zone_b p) (zone_c p) (zone_kmodule p) z.
Definition set_lock (l : spinlock) (p : virtual_memory_page) : virtual_memory_page :=
  mkPage l (zone_process p) (zone_a p) (tree_root p) (zone_b p) (zone_c p) (zone_kmodule p) (zone_user_mmap p).

(** Tree nodes, areas and page objects by address, and the objects the two
    slab caches have left to hand out. *)
Record vms := mkVms {
  vnodes : gmap Z rbt_node; vareas : gmap Z virtual_memory; vpages : gmap Z virtual_memory_page;
  node_pool : list Z; area_pool : list Z }.

(** [page->field], [vma->field], [node->field]. *)
Definition page_at (page : Z) : SM vms virtual_memory_page := fun s =>
  match vpages s !! page with Some p => Ok (p, s) | None => Fault end.
Definition upd_page (page : Z) (f : virtual_memory_page → virtual_memory_page) : SM vms () := fun s =>
  match vpages s !! page with
  | Some p => Ok ((), mkVms (vnodes s) (vareas s) (<[page := f p]> (vpages s)) (node_pool s) (area_pool s))
  | None => Fault
  end.
Definition area_at (p : Z) : SM vms virtual_memory := fun s =>
  match vareas s !! p with Some v => Ok (v, s) | None => Fault end.
Definition put_area (p : Z) (v : virtual_memory) : SM vms () := fun s =>
  Ok ((), mkVms (vnodes s) (<[p := v]> (vareas s)) (vpages s) (node_pool s) (area_pool s)).
Definition tree_node_at (p : Z) : SM vms rbt_node := fun s =>
  match vnodes s !! p with Some n => Ok (n, s) | None => Fault end.

(** The key of the tree: [data->start_address]. *)
Definition area_key (areas : gmap Z virtual_memory) (p : Z) : res Z :=
  match areas !! p with Some v => Ok (start_address v) | None => Fault end.

(** An operation on [page->tree], given the key of the tree. *)
Definition on_tree {A} (page : Z) (m : (Z → res Z) → SM rbt A) : SM vms A := fun s =>
  match vpages s !! page with
  | Some p =>
      match m (area_key (vareas s)) (mkRbt (vnodes s) (tree_root p)) with
      | Ok (a, t) =>
          Ok (a, mkVms (heap t) (vareas s) (<[page := set_tree_root (root t) p]> (vpages s)) (node_pool s) (area_pool s))
      | Fault => Fault
      | NoFuel => NoFuel
      end
  | None => Fault
  end.

(** The slab caches; an exhausted cache returns NULL, which the callers
    write through. *)
Definition alloc_area : SM vms Z := fun s =>
  match area_pool s with
  | p :: ps => Ok (p, mkVms (vnodes s) (vareas s) (vpages s) (node_pool s) ps)
  | [] => Fault
  end.
Definition free_area (p : Z) : SM vms () := fun s =>
  Ok ((), mkVms (vnodes s) (vareas s) (vpages s) (node_pool s) (p :: area_pool s)).
Definition alloc_node : SM vms Z := fun s =>
  match node_pool s with
  | p :: ps => Ok (p, mkVms (vnodes s) (vareas s) (vpages s) ps (area_pool s))
  | [] => Fault
  end.
Definition free_node (p : Z) : SM vms () := fun s =>
  Ok ((), mkVms (vnodes s) (vareas s) (vpages s) (p :: node_pool s) (area_pool s)).

Definition page_acquire (page : Z) : SM vms () :=
  p ← page_at page; l ← sm_lift (spin_acquire (lock p)); upd_page page (set_lock l).
Definition page_release (page : Z) : SM vms () :=
  p ← page_at page; upd_page page (set_lock (spin_release (lock p))).

Section vma.
Context {S : Type} `{FrameSource S} (VMA_RBT_NIL : Z).

(** The range list of a region. *)
Definition zone_of (region : Z) (p : virtual_memory_page) : option virtual_memory_tree :=
  if region =? VMA_REGION_A then Some (zone_a p)
  else if region =? VMA_REGION_B then Some (zone_b p)
  else if region =? VMA_REGION_C then Some (zone_c p)
  else if region =? VMA_REGION_KMODULE then Some (zone_kmodule p)
  else if region =? VMA_REGION_PROCESS then Some (zone_process p)
  else if region =? USER_MMAP_BASE then Some (zone_user_mmap p)
  else None.

Definition vma_tree_add_locked (page region start_addr end_addr : Z) : SM vms () :=
  upd_page page (λ p,
    if region =? VMA_REGION_A then set_zone_a (push_active (zone_a p) (start_addr, end_addr)) p
    else if region =? VMA_REGION_B then set_zone_b (push_active (zone_b p) (start_addr, end_addr)) p
    else if region =? VMA_REGION_C then set_zone_c (push_active (zone_c p) (start_addr, end_addr)) p
    else if region =? VMA_REGION_KMODULE then
      set_zone_kmodule (push_active (zone_kmodule p) (start_addr, end_addr)) p
    else if region =? VMA_REGION_PROCESS then
      set_zone_process (push_active (zone_process p) (start_addr, end_addr)) p
    else if region =? USER_MMAP_BASE then
      set_zone_user_mmap (push_active (zone_user_mmap p) (start_addr, end_addr)) p
    else p).

Definition empty_zone : virtual_memory_tree := mkZone [] [].

(** [page] is what the slab cache returns. *)
Definition create_vmm_page (page : Z) : SM vms Z := fun s =>
  let p := mkPage SPINLOCK_INIT empty_zone empty_zone VMA_RBT_NIL empty_zone empty_zone empty_zone empty_zone in
  Ok (page, mkVms (vnodes s) (vareas s) (<[page := p]> (vpages s)) (node_pool s) (area_pool s)).

(** [rbt_search_node(page->tree, id, VMA_RBT_NIL)]. *)
Definition tree_search (fuel : nat) (page id : Z) : SM vms Z :=
  on_tree page (λ key, r ← get_root; rbt_search_node VMA_RBT_NIL key fuel r id).

Definition vma_register_locked (fuel : nat) (page phys virt size fl : Z) : SM vms () :=
  if page =? 0 then mret ()
  else
    existing ← tree_search fuel page virt;
    if negb (existing =? VMA_RBT_NIL) then mret ()
    else
      area ← alloc_area;
      put_area area (mkVma virt (u64 (virt + size)) phys size fl 0) ;;
      n ← alloc_node;
      on_tree page (λ key, rbt_insert_node VMA_RBT_NIL key fuel n area) ;;
      mret ().

Definition vma_register (fuel : nat) (page phys virt size fl : Z) : SM vms () :=
  if page =? 0 then mret ()
  else page_acquire page ;; vma_register_locked fuel page phys virt size fl ;; page_release page.

Definition vma_find (fuel : nat) (page virt : Z) : SM vms Z :=
  page_acquire page ;;
  n ← tree_search fuel page virt;
  ret ← (if negb (n =? VMA_RBT_NIL) then x ← tree_node_at n; mret (n_data x) else mret 0);
  page_release page ;;
  mret ret.

(** The walk down the tree to an area that contains [virt], 0 if it finds
    none. *)
Fixpoint find_containing (fuel : nat) (curr virt : Z) : SM vms Z :=
  match fuel with
  | O => fun _ => NoFuel
  | Datatypes.S fuel =>
      if (curr =? 0) || (curr =? VMA_RBT_NIL) then mret 0
      else
        n ← tree_node_at curr;
        if n_data n =? 0 then mret 0
        else
          v ← area_at (n_data n);
          if (start_address v <=? virt) && (virt <? end_address v) then mret (n_data n)
          else find_containing fuel (if virt <? start_address v then n_left n else n_right n) virt
  end.

Definition vma_find_contains (fuel : nat) (page virt : Z) : SM vms Z :=
  if page =? 0 then mret 0
  else
    page_acquire page ;;
    p ← page_at page;
    found ← find_containing fuel (tree_root p) virt;
    page_release page ;;
    mret found.

Definition vma_unregister (fuel : nat) (page virt : Z) : SM vms () :=
  page_acquire page ;;
  n ← tree_search fuel page virt;
  if n =? VMA_RBT_NIL then page_release page
  else
    x ← tree_node_at n;
    on_tree page (λ _, rbt_remove_node VMA_RBT_NIL fuel n) ;;
    free_area (n_data x) ;;
    free_node n ;;
    page_release page.

(** The [for] of [vma_lookup_free_vaddr], [count] rounds from [i] on: the
    end of the area that holds the first page that is in one. *)
Fixpoint page_collision (count : nat) (fuel : nat) (page result i : Z) : SM vms (option Z) :=
  match count with
  | O => mret None
  | Datatypes.S count =>
      p ← page_at page;
      v ← find_containing fuel (tree_root p) (u64 (result + u64 (i * BLOCK_SIZE)));
      if negb (v =? 0) then a ← area_at v; mret (Some (end_address a))
      else page_collision count fuel page result (i + 1)
  end.

(** Its [while (1)]. *)
Fixpoint find_gap (turns : nat) (fuel : nat) (page result size : Z) : SM vms Z :=
  match turns with
  | O => fun _ => NoFuel
  | Datatypes.S turns =>
      c ← page_collision (Z.to_nat size) fuel page result 0;
      match c with
      | Some e => find_gap turns fuel page e size
      | None => mret result
      end
  end.

Definition vma_lookup_free_vaddr (turns fuel : nat) (page region size : Z) : SM vms Z :=
  if page =? 0 then mret 0
  else
    page_acquire page ;;
    p ← page_at page;
    match zone_of region p with
    | None => page_release page ;; mret 0
    | Some z =>
        let result := match active z with [] => region | (_, e) :: _ => e end in
        result ← find_gap turns fuel page result size;
        vma_tree_add_locked page region result (u64 (result + u64 (BLOCK_SIZE * size))) ;;
        page_release page ;;
        mret result
    end.

(** [size] and [pages] of the walks below. *)
Definition area_size (v : virtual_memory) : Z := u64 (end_address v - start_address v).
Definition area_pages (v : virtual_memory) : Z :=
  let pages := u64 (area_size v + 4095) / BLOCK_SIZE in
  if pages =? 0 then 1 else pages.

Fixpoint vma_mmap_recursive (fuel : nat) (node pml4 : Z) (m : machine S) : SM vms (machine S) :=
  match fuel with
  | O => fun _ => NoFuel
  | Datatypes.S fuel =>
      if (node =? VMA_RBT_NIL) || (node =? 0) then mret m
      else
        n ← tree_node_at node;
        m ← vma_mmap_recursive fuel (n_left n) pml4 m;
        m ← (if n_data n =? 0 then mret m
             else
               v ← area_at (n_data n);
               sm_lift (paging_multiple_mmap m pml4 (start_address v) (phys_address v) (area_pages v) (flags v)));
        vma_mmap_recursive fuel (n_right n) pml4 m
  end.

Definition vma_mmap (fuel : nat) (page pml4 : Z) (m : machine S) : SM vms (machine S) :=
  page_acquire page ;;
  p ← page_at page;
  m ← vma_mmap_recursive fuel (tree_root p) pml4 m;
  page_release page ;;
  mret m.

(** The ranges in the same order, none unused. *)
Definition vma_tree_clone (src : virtual_memory_tree) : virtual_memory_tree := mkZone (active src) [].

(** The pages of one user area of the parent, [count] rounds from [i] on:
    a mapped page is made copy-on-write and mapped in the child. *)
Fixpoint clone_cow_pages (count : nat) (i start child_pml4 parent_pml4 : Z) (m : machine S) : res (machine S) :=
  match count with
  | O => Ok m
  | Datatypes.S count =>
      let virt := u64 (start + u64 (i * BLOCK_SIZE)) in
      '(entry, m) ← paging_get_entry m parent_pml4 virt;
      m ← (if negb (Z.land entry 1 =? 0) then
             m ← paging_make_cow m parent_pml4 virt;
             '(phys, m) ← vaddr_to_paddr m parent_pml4 virt;
             '(new_entry, m) ← paging_get_entry m parent_pml4 virt;
             let child_flags := Z.lor PAGE_PRESENT PAGE_USER in
             let child_flags := if negb (Z.land new_entry PAGE_COW =? 0) then Z.lor child_flags PAGE_COW else child_flags in
             let child_flags :=
               if negb (Z.land new_entry PAGE_NO_EXECUTE =? 0) then Z.lor child_flags PAGE_NO_EXECUTE else child_flags in
             let child_flags :=
               if negb (Z.land new_entry PAGE_WRITABLE =? 0) then Z.lor child_flags PAGE_WRITABLE else child_flags in
             paging_mmap m child_pml4 virt phys child_flags
           else Ok m);
      clone_cow_pages count (i + 1) start child_pml4 parent_pml4 m
  end.

(** Its result is always 0; only the page tables and the child change. *)
Fixpoint vma_clone_cow_recursive (fuel sfuel : nat) (node child child_pml4 parent_pml4 : Z) (m : machine S) :
    SM vms (machine S) :=
  match fuel with
  | O => fun _ => NoFuel
  | Datatypes.S fuel =>
      if (node =? VMA_RBT_NIL) || (node =? 0) then mret m
      else
        n ← tree_node_at node;
        m ← vma_clone_cow_recursive fuel sfuel (n_left n) child child_pml4 parent_pml4 m;
        m ← (if n_data n =? 0 then mret m
             else
               v ← area_at (n_data n);
               if (start_address v <? end_address v) && (area_pages v <? 1000000) then
                 m ← sm_lift (if start_address v <? VMA_REGION_A
                     then clone_cow_pages (Z.to_nat (area_pages v)) 0 (start_address v) child_pml4 parent_pml4 m
                     else paging_multiple_mmap m child_pml4 (start_address v) (phys_address v) (area_pages v) (flags v));
                 vma_register_locked sfuel child (phys_address v) (start_address v) (area_size v) (flags v) ;;
                 mret m
               else mret m);
        vma_clone_cow_recursive fuel sfuel (n_right n) child child_pml4 parent_pml4 m
  end.

Definition vma_clone_cow (fuel sfuel : nat) (parent child child_pml4 parent_pml4 : Z) (m : machine S) :
    SM vms (Z * machine S) :=
  if parent =? child then mret (-1, m)
  else
    page_acquire parent ;;
    page_acquire child ;;
    p ← page_at parent;
    upd_page child (set_zone_process (vma_tree_clone (zone_process p))) ;;
    upd_page child (set_zone_a (vma_tree_clone (zone_a p))) ;;
    upd_page child (set_zone_b (vma_tree_clone (zone_b p))) ;;
    upd_page child (set_zone_c (vma_tree_clone (zone_c p))) ;;
    upd_page child (set_zone_kmodule (vma_tree_clone (zone_kmodule p))) ;;
    m ← vma_clone_cow_recursive fuel sfuel (tree_root p) child child_pml4 parent_pml4 m;
    page_release child ;;
    page_release parent ;;
    mret (0, m).

(** [pml4] is [None] when the pointer is null. *)
Fixpoint vma_unmap_all_recursive (fuel : nat) (node : Z) (pml4 : option Z) (m : machine S) : SM vms (machine S) :=
  match fuel with
  | O => fun _ => NoFuel
  | Datatypes.S fuel =>
      if (node =? VMA_RBT_NIL) || (node =? 0) then mret m
      else
        n ← tree_node_at node;
        m ← vma_unmap_all_recursive fuel (n_left n) pml4 m;
        m ← vma_unmap_all_recursive fuel (n_right n) pml4 m;
        m ← (if n_data n =? 0 then mret m
             else
               v ← area_at (n_data n);
               m ← (match pml4 with
                    | Some pml4 => sm_lift (paging_multiple_unmap m pml4 (start_address v) (area_pages v))
                    | None => mret m
                    end);
               free_area (n_data n) ;;
               mret m);
        free_node node ;;
        mret m
  end.

Definition vma_tree_zone_free (z : virtual_memory_tree) : virtual_memory_tree := empty_zone.

Definition vma_unmap_all (fuel : nat) (page : Z) (pml4 : option Z) (m : machine S) : SM vms (machine S) :=
  page_acquire page ;;
  p ← page_at page;
  m ← vma_unmap_all_recursive fuel (tree_root p) pml4 m;
  upd_page page (set_tree_root VMA_RBT_NIL) ;;
  upd_page page (λ p, set_zone_process (vma_tree_zone_free (zone_process p)) p) ;;
  upd_page page (λ p, set_zone_a (vma_tree_zone_free (zone_a p)) p) ;;
  upd_page page (λ p, set_zone_b (vma_tree_zone_free (zone_b p)) p) ;;
  upd_page page (λ p, set_zone_c (vma_tree_zone_free (zone_c p)) p) ;;
  upd_page page (λ p, set_zone_kmodule (vma_tree_zone_free (zone_kmodule p)) p) ;;
  page_release page ;;
  mret m.

End vma.
