(* ===== verification/VmaOps.v ===== *)
(** * The invariant of an address space and the finite map it stands for *)

From stdpp Require Import sorting.
From S2P Require Import Prelude StateM Spinlock Rbt RbtTree RbtInv RbtInsert RbtDelete RbtThm Vma.

(** The key of an area as a total function. *)
Definition akv (areas : gmap Z virtual_memory) (p : Z) : Z := from_option start_address 0 (areas !! p).

Definition by_start (areas : gmap Z virtual_memory) : list (Z * Z) → Prop :=
  StronglySorted (λ a b, akv areas a.2 < akv areas b.2).

Section inv.
Context (NIL : Z).

(** The tree of [page] is [t]: a red-black tree of areas with increasing
    start addresses, apart from the cells [fr] of other users and from the
    objects the caches have left. *)
Record tree_ok (s : vms) (page : Z) (t : tree) (fr : list (Z * rbt_node)) : Prop := mkOk {
  ok_tree : ∃ pg pool, vpages s !! page = Some pg ∧ pool.*1 = node_pool s ∧
    is_rbt NIL (mkRbt (vnodes s) (tree_root pg)) t (pool ++ fr);
  ok_areas : Forall (λ e, is_Some (vareas s !! e.2)) (elems t);
  ok_sorted : by_start (vareas s) (elems t);
  ok_nodup : NoDup (area_pool s ++ (elems t).*2);
  ok_area0 : 0 ∉ area_pool s ++ (elems t).*2;
  ok_node0 : 0 ∉ node_pool s ++ (elems t).*1 }.

(** The map from start addresses to areas a page stands for. *)
Definition represents (s : vms) (t : tree) (M : gmap Z virtual_memory) : Prop :=
  ∀ a v, M !! a = Some v ↔ ∃ e, e ∈ elems t ∧ vareas s !! e.2 = Some v ∧ start_address v = a.

Lemma by_start_sorted areas es : by_start areas es → sorted (akv areas) es.
Proof.
  induction 1 as [|e es Hs IH He]; [constructor|]. apply SSorted_cons; [done|].
  eapply Forall_impl; [exact He|]. simpl. lia.
Qed.

Lemma area_key_akv areas p : is_Some (areas !! p) → area_key areas p = Ok (akv areas p).
Proof. intros (v & Hv). unfold area_key, akv. by rewrite Hv. Qed.

Lemma areas_keyed areas es : Forall (λ e, is_Some (areas !! e.2)) es → keyed (area_key areas) (akv areas) es.
Proof. intros Ha. eapply Forall_impl; [exact Ha|]. intros. by apply area_key_akv. Qed.

Lemma not_zero es : 0 ∉ es.*2 → Forall (λ e : Z * Z, e.2 ≠ 0) es.
Proof. intros Hz. apply Forall_forall. intros e He He0. apply Hz, list_elem_of_fmap. eauto. Qed.

Lemma start_inj areas es e e' :
  by_start areas es → e ∈ es → e' ∈ es → akv areas e.2 = akv areas e'.2 → e = e'.
Proof.
  induction 1 as [|x es Hs IH Hx]; intros He He' Heq; [by apply elem_of_nil in He|].
  rewrite Forall_forall in Hx.
  apply elem_of_cons in He, He'. destruct He as [->|He], He' as [->|He']; [done| | |by apply IH].
  - specialize (Hx _ He'). lia.
  - specialize (Hx _ He). lia.
Qed.

(** The cell of a node of the tree. *)
Lemma tree_cell s t fr p dt :
  is_rbt NIL s t fr → (p, dt) ∈ elems t → p ≠ NIL ∧ ∃ n, heap s !! p = Some n ∧ n_data n = dt.
Proof.
  intros (Hs & _) Hi. destruct (elem_plug p dt t Hi) as (k & c & l & r & ->). rewrite <- zip_all in Hs.
  split; [exact (focus_not_nil NIL s k _ fr Hs ltac:(done))|].
  unfold at_focus in Hs. simpl in Hs. destruct Hs as (_ & _ & Hs). eexists. split; [apply Hs|].
  - rewrite !elem_of_app, !elem_of_cons. eauto.
  - done.
Qed.

(** ** Search *)

Lemma tree_search_spec fuel s page t fr id :
  tree_ok s page t fr → (height t < fuel)%nat →
  swp (tree_search NIL fuel page id) s (λ p s', s' = s ∧
    ((∃ dt, (p, dt) ∈ elems t ∧ akv (vareas s) dt = id) ∨ p = NIL ∧ Forall (λ e, akv (vareas s) e.2 ≠ id) (elems t))).
Proof.
  intros [(pg & pool & Hp & Hpl & Ht) Ha Hs _ H0 _] Hf. unfold tree_search, on_tree, swp. rewrite Hp.
  pose proof (rbt_search_node_spec NIL (area_key (vareas s)) (akv (vareas s)) fuel id
    (mkRbt (vnodes s) (tree_root pg)) [] t (pool ++ fr) (proj1 Ht) (areas_keyed _ _ Ha)
    (by_start_sorted _ _ Hs) (not_zero (elems t) ltac:(set_solver)) Hf) as Hw.
  assert (tree_root pg = rp NIL t) as Hr by apply Ht.
  apply swp_elim in Hw as (p & s' & Hw & -> & Hc). unfold mbind, SM_bind, get_root. simpl. rewrite Hr in *.
  rewrite Hw. simpl. split; [|done]. rewrite insert_id; [by destruct s|]. rewrite Hp. f_equal. rewrite <- Hr. by destruct pg.
Qed.

(** ** Insertion and removal *)

(** Areas outside the tree may change. *)
Lemma akv_eq areas areas' es :
  (∀ e, e ∈ es → areas' !! e.2 = areas !! e.2) → Forall (λ e, is_Some (areas !! e.2)) es → by_start areas es →
  Forall (λ e, is_Some (areas' !! e.2)) es ∧ by_start areas' es.
Proof.
  intros Heq Ha Hs. split.
  { rewrite Forall_forall in Ha |- *. intros e He. rewrite Heq by done. by apply Ha. }
  clear Ha. induction Hs as [|e es Hs IH He]; [constructor|]. apply SSorted_cons.
  - apply IH. intros x Hx. apply Heq. set_solver.
  - rewrite Forall_forall in He |- *. intros x Hx. unfold akv.
    rewrite !Heq by set_solver. by apply He.
Qed.

Lemma by_start_insert areas l r e :
  by_start areas (l ++ r) → Forall (λ x, akv areas x.2 < akv areas e.2) l →
  Forall (λ x, akv areas e.2 < akv areas x.2) r → by_start areas (l ++ e :: r).
Proof.
  intros Hs Hl Hr. induction l as [|x l IH]; simpl in *; [by apply SSorted_cons|].
  apply StronglySorted_inv in Hs as (Hs & Hx). apply Forall_cons in Hl as (Hxe & Hl).
  apply SSorted_cons; [by apply IH|]. apply Forall_app in Hx as (Hxl & Hxr).
  apply Forall_app. split; [done|]. by apply Forall_cons.
Qed.

Lemma by_start_delete areas l r e : by_start areas (l ++ e :: r) → by_start areas (l ++ r).
Proof.
  induction l as [|x l IH]; simpl; intros Hs; apply StronglySorted_inv in Hs as (Hs & Hx); [done|].
  apply SSorted_cons; [by apply IH|]. rewrite Forall_app, Forall_cons in Hx. apply Forall_app. tauto.
Qed.

(** The registration proper: a new area in a new node. *)
Lemma insert_spec fuel s page t fr v a ps n ns :
  tree_ok s page t fr → (height t < fuel)%nat → area_pool s = a :: ps → node_pool s = n :: ns →
  Forall (λ e, akv (vareas s) e.2 ≠ start_address v) (elems t) →
  swp (on_tree page (λ key, rbt_insert_node NIL key fuel n a))
    (mkVms (vnodes s) (<[a := v]> (vareas s)) (vpages s) ns ps)
    (λ _ s', (∃ pg r, vpages s !! page = Some pg ∧ vpages s' = <[page := set_tree_root r pg]> (vpages s)) ∧
      vareas s' = <[a := v]> (vareas s) ∧ node_pool s' = ns ∧ area_pool s' = ps ∧
      ∃ t' l r, tree_ok s' page t' fr ∧
      elems t = l ++ r ∧ elems t' = l ++ (n, a) :: r).
Proof.
  intros [(pg & pool & Hp & Hpl & Ht) Ha Hs Hnd H0 H1] Hf Hap Hnp Hne.
  rewrite Hap in Hnd, H0. rewrite Hnp in Hpl, H1. destruct pool as [|[n' n0] pool]; [done|].
  injection Hpl as -> Hpl. simpl in Hnd. apply NoDup_cons in Hnd as (Hna & Hnd).
  assert (∀ e, e ∈ elems t → <[a := v]> (vareas s) !! e.2 = vareas s !! e.2) as Hsame.
  { intros e He. apply lookup_insert_ne. intros ->. apply Hna, elem_of_app. right. by apply list_elem_of_fmap_2. }
  destruct (akv_eq _ (<[a := v]> (vareas s)) _ Hsame Ha Hs) as (Ha' & Hs').
  assert (akv (<[a := v]> (vareas s)) a = start_address v) as Hka by (unfold akv; by rewrite lookup_insert_eq).
  unfold on_tree, swp. simpl. rewrite Hp.
  pose proof (rbt_insert_node_spec NIL _ (akv (<[a := v]> (vareas s))) fuel
    (mkRbt (vnodes s) (tree_root pg)) t n n0 a (pool ++ fr) Ht (areas_keyed _ _ Ha')
    (by_start_sorted _ _ Hs') (area_key_akv _ _ ltac:(by rewrite lookup_insert_eq)) Hf) as Hw.
  apply swp_elim in Hw as (? & s' & Hw & -> & t' & l & r & Ht' & Hel & Hel' & Hl & Hr). rewrite Hw. simpl.
  split; [by eauto|]. do 3 (split; [done|]). exists t', l, r. split; [|done].
  assert (Forall (λ e, akv (<[a := v]> (vareas s)) e.2 < akv (<[a := v]> (vareas s)) a) l) as Hl'.
  { rewrite Forall_forall in Hl, Hne |- *. intros e He. specialize (Hl e He).
    assert (e ∈ elems t) as Het by (rewrite Hel; set_solver). specialize (Hne e Het).
    unfold akv in Hne |- *. rewrite Hsame in * by done. unfold akv in Hl. rewrite Hsame in Hl by done.
    rewrite lookup_insert_eq in *. simpl in *. lia. }
  split; simpl.
  - eexists _, pool. rewrite lookup_insert_eq. split; [done|]. split; [done|]. by destruct s'.
  - rewrite Hel' . rewrite Hel in Ha'. rewrite Forall_app in Ha' |- *. rewrite Forall_cons. simpl.
    rewrite lookup_insert_eq. naive_solver.
  - rewrite Hel'. apply by_start_insert; [by rewrite <- Hel|done..].
  - rewrite Hel'. rewrite Hel in Hnd, Hna. rewrite fmap_app in *. simpl in *.
    eapply (NoDup_Permutation_proper _ (a :: ps ++ l.*2 ++ r.*2)); [by solve_Permutation|]. by apply NoDup_cons.
  - rewrite Hel'. rewrite Hel in H0. rewrite fmap_app in *. simpl in *. set_solver.
  - rewrite Hel'. rewrite Hel in H1. rewrite fmap_app in *. simpl in *. set_solver.
Qed.

Lemma remove_spec fuel s page t fr n a :
  tree_ok s page t fr → (height t < fuel)%nat → (n, a) ∈ elems t →
  swp (on_tree page (λ _, rbt_remove_node NIL fuel n)) s
    (λ _ s', (∃ pg r, vpages s !! page = Some pg ∧ vpages s' = <[page := set_tree_root r pg]> (vpages s)) ∧
      vareas s' = vareas s ∧ node_pool s' = node_pool s ∧ area_pool s' = area_pool s ∧ ∃ t' l r,
      tree_ok (mkVms (vnodes s') (vareas s') (vpages s') (n :: node_pool s') (a :: area_pool s')) page t' fr ∧
      elems t = l ++ (n, a) :: r ∧ elems t' = l ++ r).
Proof.
  intros [(pg & pool & Hp & Hpl & Ht) Ha Hs Hnd H0 H1] Hf Hi. unfold on_tree, swp. rewrite Hp.
  destruct (elem_plug n a t Hi) as (k & c & l & r & ->).
  pose proof (rbt_remove_node_spec NIL fuel _ k c l n a r _ Ht Hf) as Hw.
  apply swp_elim in Hw as ([] & s' & Hw & t' & nz & Ht' & Hel'). rewrite Hw. simpl.
  split; [by eauto|]. do 3 (split; [done|]). rewrite elems_plug in *. simpl in *. rewrite <- app_assoc in *. simpl in *.
  exists t', (lefts k ++ elems l), (elems r ++ rights k). rewrite app_assoc in *. split; [|by rewrite Hel', <- !app_assoc].
  rewrite <- (app_assoc (lefts k)) in Hel'. rewrite (app_assoc (lefts k)) in Hel'.
  set (L := lefts k ++ elems l) in *. set (R := elems r ++ rights k) in *. clearbody L R.
  split; simpl.
  - eexists _, ((n, nz) :: pool). rewrite lookup_insert_eq. split; [done|]. simpl. split; [by f_equal|]. by destruct s'.
  - rewrite Hel'. rewrite Forall_app, Forall_cons in Ha. apply Forall_app. tauto.
  - rewrite Hel'. by eapply by_start_delete.
  - rewrite Hel'. rewrite fmap_app in *. simpl in *.
    eapply (NoDup_Permutation_proper _ (area_pool s ++ L.*2 ++ a :: R.*2)); [by solve_Permutation|done].
  - rewrite Hel'. rewrite fmap_app in *. simpl in *. set_solver.
  - rewrite Hel'. rewrite fmap_app in *. simpl in *. set_solver.
Qed.
End inv.

(** * The operations of an address space refine a finite map *)

Open Scope sm_scope.

(** ** The map a list of areas stands for *)

Definition view (areas : gmap Z virtual_memory) (es : list (Z * Z)) : list (Z * virtual_memory) :=
  omap (λ e, (λ v, (start_address v, v)) <$> areas !! e.2) es.

(** Start addresses to areas. *)
Definition vmap (areas : gmap Z virtual_memory) (es : list (Z * Z)) : gmap Z virtual_memory :=
  list_to_map (view areas es).

Section view.
Context (areas : gmap Z virtual_memory).
Implicit Types (es l r : list (Z * Z)).

Lemma view_keys es : Forall (λ e, is_Some (areas !! e.2)) es → (view areas es).*1 = (λ e, akv areas e.2) <$> es.
Proof.
  induction 1 as [|e es (v & Hv) Ha IH]; [done|]. rewrite fmap_cons, <- IH. unfold view, akv. csimpl.
  by rewrite Hv.
Qed.

Lemma by_start_nodup es : by_start areas es → NoDup ((λ e, akv areas e.2) <$> es).
Proof.
  induction 1 as [|e es Hs IH He]; simpl; [constructor|]. apply NoDup_cons. split; [|done].
  intros (x & Hx & Hi)%list_elem_of_fmap. rewrite Forall_forall in He. specialize (He x Hi). lia.
Qed.

Lemma view_nodup es : Forall (λ e, is_Some (areas !! e.2)) es → by_start areas es → NoDup (view areas es).*1.
Proof. intros Ha Hs. rewrite view_keys by done. by apply by_start_nodup. Qed.

Lemma vmap_lookup es a v :
  Forall (λ e, is_Some (areas !! e.2)) es → by_start areas es →
  vmap areas es !! a = Some v ↔ ∃ e, e ∈ es ∧ areas !! e.2 = Some v ∧ start_address v = a.
Proof.
  intros Ha Hs. unfold vmap. rewrite <- elem_of_list_to_map by by apply view_nodup.
  unfold view. rewrite list_elem_of_omap. split.
  - intros (e & He & (w & Hw & [= -> ->])%fmap_Some). eauto.
  - intros (e & He & Hv & <-). exists e. split; [done|]. by rewrite Hv.
Qed.

Lemma vmap_none es a :
  Forall (λ e, is_Some (areas !! e.2)) es → by_start areas es →
  Forall (λ e, akv areas e.2 ≠ a) es → vmap areas es !! a = None.
Proof.
  intros Ha Hs Hn. apply eq_None_not_Some. intros (v & (e & He & Hv & Hva)%vmap_lookup); [|done..].
  rewrite Forall_forall in Hn. apply (Hn e He). unfold akv. by rewrite Hv.
Qed.

Lemma vmap_size es :
  Forall (λ e, is_Some (areas !! e.2)) es → by_start areas es → size (vmap areas es) = length es.
Proof.
  intros Ha Hs. unfold vmap. rewrite map_size_list_to_map by by apply view_nodup.
  by rewrite <- (length_fmap fst), view_keys, length_fmap by done.
Qed.

Lemma vmap_insert l r n a v :
  areas !! a = Some v → Forall (λ e, is_Some (areas !! e.2)) (l ++ (n, a) :: r) →
  by_start areas (l ++ (n, a) :: r) → vmap areas (l ++ (n, a) :: r) = <[start_address v := v]> (vmap areas (l ++ r)).
Proof.
  intros Hv Ha Hs. unfold vmap. change (<[start_address v := v]> (list_to_map (view areas (l ++ r))))
    with (list_to_map (M := gmap Z virtual_memory) ((start_address v, v) :: view areas (l ++ r))).
  apply list_to_map_proper; [by apply view_nodup|]. unfold view. rewrite !omap_app. simpl. rewrite Hv. simpl.
  by solve_Permutation.
Qed.

Lemma vmap_delete l r n a v :
  areas !! a = Some v → Forall (λ e, is_Some (areas !! e.2)) (l ++ (n, a) :: r) →
  by_start areas (l ++ (n, a) :: r) → vmap areas (l ++ r) = delete (start_address v) (vmap areas (l ++ (n, a) :: r)).
Proof.
  intros Hv Ha Hs. rewrite (vmap_insert l r n a v Hv Ha Hs), delete_insert_id; [done|].
  apply vmap_none.
  - rewrite Forall_app, Forall_cons in Ha. apply Forall_app. tauto.
  - by eapply by_start_delete.
  - pose proof (by_start_nodup _ Hs) as Hnd. rewrite fmap_app in Hnd. simpl in Hnd.
    replace (akv areas a) with (start_address v) in Hnd by (unfold akv; by rewrite Hv).
    rewrite Forall_forall. intros e He Heq.
    apply NoDup_app in Hnd as (_ & Hd & Hnd). apply NoDup_cons in Hnd as (Hnr & _).
    apply elem_of_app in He as [He|He]; [eapply (Hd (akv areas e.2)); [by apply (list_elem_of_fmap_2 (λ e, akv areas e.2))|]|].
    + rewrite Heq. apply list_elem_of_here.
    + apply Hnr. rewrite <- Heq. by apply (list_elem_of_fmap_2 (λ e, akv areas e.2)).
Qed.
End view.

Lemma vmap_eq areas areas' es : (∀ e, e ∈ es → areas' !! e.2 = areas !! e.2) → vmap areas' es = vmap areas es.
Proof.
  intros Heq. unfold vmap. f_equal. unfold view. induction es as [|e es IH]; [done|]. csimpl.
  rewrite Heq, IH by set_solver. done.
Qed.

(** ** The state between calls *)

Definition with_page (s : vms) (page : Z) (p : virtual_memory_page) : vms :=
  mkVms (vnodes s) (vareas s) (<[page := p]> (vpages s)) (node_pool s) (area_pool s).

(** A lock whose release leaves it free. *)
Definition held (l : spinlock) : Prop := unlocked (spin_release l).

(** Go on in the locked state, forgetting the state before. *)
Ltac enter s HR :=
  let s1 := fresh in let H1 := fresh in
  intros s1 H1 _; clear s HR; rename s1 into s; rename H1 into HR.

Section rep.
Context (NIL : Z) (fr : list (Z * rbt_node)).

(** [page] stands for the map [M], its lock satisfies [P], and each cache
    has at least [k] objects left. *)
Definition Rep (P : spinlock → Prop) (k : nat) (s : vms) (page : Z) (M : gmap Z virtual_memory) : Prop :=
  ∃ t pg, tree_ok NIL s page t fr ∧ vmap (vareas s) (elems t) = M ∧
    vpages s !! page = Some pg ∧ P (lock pg) ∧ (k ≤ length (area_pool s))%nat ∧ (k ≤ length (node_pool s))%nat.

Lemma tree_ok_page s page t pg pg' :
  tree_ok NIL s page t fr → vpages s !! page = Some pg → tree_root pg' = tree_root pg →
  tree_ok NIL (with_page s page pg') page t fr.
Proof.
  intros [(q & pool & Hq & Hpl & Ht) Ha Hs Hnd H0 H1] Hp Hr. split; [|done..].
  exists pg', pool. simpl. rewrite lookup_insert_eq, Hr. by simplify_eq.
Qed.

Lemma Rep_fuel P k s page M fuel :
  Rep P k s page M → (2 * Nat.log2 (size M + 1) < fuel)%nat →
  ∀ t, tree_ok NIL s page t fr → vmap (vareas s) (elems t) = M → (height t < fuel)%nat.
Proof.
  intros _ Hf t [(q & pool & Hq & Hpl & Ht) Ha Hs _ _ _] Hm. eapply is_rbt_height; [exact Ht|].
  by rewrite <- Hm, vmap_size in Hf.
Qed.

Lemma upd_page_spec P P' k s page M pg f (Q : () → vms → Prop) :
  Rep P k s page M → vpages s !! page = Some pg → tree_root (f pg) = tree_root pg → P' (lock (f pg)) →
  (∀ s', Rep P' k s' page M → vpages s' !! page = Some (f pg) → vareas s' = vareas s → Q () s') →
  swp (upd_page page f) s Q.
Proof.
  intros (t & q & Ht & Hm & Hq & _ & Hk) Hp Hr HP HQ. unfold upd_page, swp. rewrite Hp.
  apply HQ; [|by apply lookup_insert_eq|done]. exists t, (f pg). split; [by eapply tree_ok_page|]. simpl.
  by rewrite lookup_insert_eq.
Qed.

Lemma page_at_spec P k s page M (Q : virtual_memory_page → vms → Prop) :
  Rep P k s page M → (∀ pg, vpages s !! page = Some pg → P (lock pg) → Q pg s) → swp (page_at page) s Q.
Proof. intros (t & pg & Ht & Hm & Hp & Hl & Hk) HQ. unfold page_at, swp. rewrite Hp. by apply HQ. Qed.

Lemma page_acquire_spec k s page M (Q : () → vms → Prop) :
  Rep unlocked k s page M →
  (∀ s', Rep held k s' page M → (∀ pg, vpages s !! page = Some pg → ∃ l, vpages s' !! page = Some (set_lock l pg)) → Q () s') →
  swp (page_acquire page) s Q.
Proof.
  intros HR HQ. unfold page_acquire. apply swp_bind. eapply page_at_spec; [exact HR|]. intros pg Hp Hl.
  destruct (spin_acquire_ok _ Hl) as (l & Hal & Hrl & _). apply swp_bind, (swp_lift _ l); [done|].
  eapply (upd_page_spec unlocked held); [exact HR|done..|]. intros s' HR' Hp' _. apply HQ; [done|]. intros q Hq. simplify_eq. eauto.
Qed.

Lemma page_release_spec k s page M (Q : () → vms → Prop) :
  Rep held k s page M →
  (∀ s', Rep unlocked k s' page M → vareas s' = vareas s →
    (∀ pg, vpages s !! page = Some pg → ∃ l, vpages s' !! page = Some (set_lock l pg)) → Q () s') →
  swp (page_release page) s Q.
Proof.
  intros HR HQ. unfold page_release. apply swp_bind. eapply page_at_spec; [exact HR|]. intros pg Hp Hl.
  eapply (upd_page_spec held unlocked); [exact HR|done..|]. intros s' HR' Hp' Hva. apply HQ; [done|done|]. intros q Hq. simplify_eq. eauto.
Qed.

(** ** The operations *)

Lemma search_map_spec P k s page M fuel id :
  Rep P k s page M → (2 * Nat.log2 (size M + 1) < fuel)%nat →
  swp (tree_search NIL fuel page id) s (λ p s', s' = s ∧ ∃ t, tree_ok NIL s page t fr ∧ vmap (vareas s) (elems t) = M ∧
    ((∃ a v, (p, a) ∈ elems t ∧ p ≠ NIL ∧ vareas s !! a = Some v ∧ M !! id = Some v ∧ start_address v = id) ∨
     p = NIL ∧ M !! id = None ∧ Forall (λ e, akv (vareas s) e.2 ≠ id) (elems t))).
Proof.
  intros HR Hf. destruct (HR) as (t & pg & Ht & Hm & _). pose proof (Rep_fuel _ _ _ _ _ _ HR Hf t Ht Hm) as Hh.
  eapply swp_mono; [by apply (tree_search_spec NIL fuel s page t fr id)|].
  intros p s' (-> & Hc). split; [done|]. exists t. split; [done|]. split; [done|].
  destruct Ht as [(q & pool & Hq & Hpl & Ht) Ha Hs _ _ _]. subst M. destruct Hc as [(a & Hi & Hk)|(-> & Hn)].
  - left. rewrite Forall_forall in Ha. destruct (Ha _ Hi) as (v & Hv). simpl in Hv.
    assert (start_address v = id) as Hsv by (unfold akv in Hk; by rewrite Hv in Hk).
    exists a, v. split; [done|]. split; [apply (tree_cell NIL _ _ _ _ _ Ht Hi)|]. split; [done|]. split; [|done].
    apply vmap_lookup; [by apply Forall_forall|done|]. eauto.
  - right. split; [done|]. split; [by apply vmap_none|done].
Qed.

Lemma register_spec k s page M fuel phys virt size fl :
  page ≠ 0 → Rep held (Datatypes.S k) s page M → (2 * Nat.log2 (stdpp.base.size M + 1) < fuel)%nat →
  swp (vma_register_locked NIL fuel page phys virt size fl) s (λ _ s',
    Rep held k s' page (if M !! virt is Some _ then M else <[virt := mkVma virt (u64 (virt + size)) phys size fl 0]> M)).
Proof.
  intros Hpg HR Hf. unfold vma_register_locked. rewrite (proj2 (Z.eqb_neq _ _) Hpg). apply swp_bind.
  eapply swp_mono; [by eapply search_map_spec|]. intros p s' (-> & t & Ht & Hm & Hc).
  destruct (HR) as (t0 & pg & _ & _ & Hp & Hl & Hk1 & Hk2).
  destruct Hc as [(a & v & _ & Hne & _ & HM & _)|(-> & HM & Hn)]; rewrite HM.
  { rewrite (proj2 (Z.eqb_neq _ _) Hne). apply swp_ret. exists t, pg. split_and!; try done; lia. }
  rewrite Z.eqb_refl. simpl negb. cbv iota.
  destruct (area_pool s) as [|a ps] eqn:Hap; [simpl in Hk1; lia|].
  destruct (node_pool s) as [|n ns] eqn:Hnp; [simpl in Hk2; lia|]. simpl in Hk1, Hk2.
  apply swp_bind, (swp_intro _ _ _ a (mkVms (vnodes s) (vareas s) (vpages s) (n :: ns) ps)).
  { unfold alloc_area. by rewrite Hap, Hnp. }
  apply swp_bind. unfold put_area, swp at 1. simpl. apply swp_bind. unfold alloc_node, swp at 1. simpl.
  set (v := mkVma virt (u64 (virt + size)) phys size fl 0).
  assert (height t < fuel)%nat as Hh by by eapply Rep_fuel.
  apply swp_bind. eapply swp_mono; [by apply (insert_spec NIL fuel s page t fr v a ps n ns)|].
  intros _ s' ((pg' & r & Hp' & Hvp) & Hva & Hns & Hps & t' & l & rr & Ht' & Hel & Hel').
  apply swp_ret. simplify_eq. exists t', (set_tree_root r pg). split; [done|].
  rewrite Hvp, lookup_insert_eq. split; [|split_and!; [done|done|lia|lia]].
  destruct Ht' as [_ Ha' Hs' _ _ _], Ht as [_ _ _ Hnd _ _]. rewrite Hel', Hva in *.
  rewrite (vmap_insert _ l rr n a v); [|by rewrite lookup_insert_eq|done..]. simpl. f_equal. rewrite <- Hel.
  apply vmap_eq. intros e He. apply lookup_insert_ne. intros ->. rewrite Hap in Hnd. apply NoDup_cons in Hnd as (Hnd & _).
  apply Hnd, elem_of_app. right. by apply list_elem_of_fmap_2.
Qed.

(** An area as the caller of [vma_find] sees it. *)
Definition deref_area (p : Z) : SM vms (option virtual_memory) :=
  if p =? 0 then mret None else v ← area_at p; mret (Some v).

Lemma find_spec k s page M fuel virt :
  Rep unlocked k s page M → (2 * Nat.log2 (size M + 1) < fuel)%nat →
  swp (p ← vma_find NIL fuel page virt; deref_area p) s (λ o s', o = M !! virt ∧ Rep unlocked k s' page M).
Proof.
  intros HR Hf. apply swp_bind. unfold vma_find. apply swp_bind. eapply page_acquire_spec; [exact HR|].
  enter s HR. apply swp_bind. eapply swp_mono; [by eapply search_map_spec|].
  intros p s' (-> & t & Ht & Hm & Hc). apply swp_bind.
  destruct Hc as [(a & v & Hi & Hne & Hv & HM & _)|(-> & HM & Hn)]; rewrite HM.
  - rewrite (proj2 (Z.eqb_neq _ _) Hne). simpl.
    destruct Ht as [(q & pool & Hq & Hpl & Ht) _ _ _ H0 _].
    destruct (tree_cell NIL _ _ _ _ _ Ht Hi) as (_ & x & Hx & Hxd). simpl in Hx.
    apply swp_bind, (swp_intro _ _ _ x s); [unfold tree_node_at; by rewrite Hx|]. apply swp_ret. rewrite Hxd.
    apply swp_bind. eapply page_release_spec; [exact HR|]. intros s' HR' Hva _. apply swp_ret. unfold deref_area.
    assert (a ≠ 0) as Ha0.
    { intros ->. apply H0, elem_of_app. right. by apply (list_elem_of_fmap_2 snd _ (p, 0)). }
    rewrite (proj2 (Z.eqb_neq _ _) Ha0). apply swp_bind, (swp_intro _ _ _ v s'); [|by apply swp_ret].
    unfold area_at. by rewrite Hva, Hv.
  - rewrite Z.eqb_refl. simpl. apply swp_ret, swp_bind. eapply page_release_spec; [exact HR|].
    intros s' HR' _ _. by apply swp_ret.
Qed.

Lemma unregister_spec k s page M fuel virt :
  Rep unlocked k s page M → (2 * Nat.log2 (size M + 1) < fuel)%nat →
  swp (vma_unregister NIL fuel page virt) s (λ _ s', Rep unlocked k s' page (delete virt M)).
Proof.
  intros HR Hf. unfold vma_unregister. apply swp_bind. eapply page_acquire_spec; [exact HR|].
  enter s HR. apply swp_bind. eapply swp_mono; [by eapply search_map_spec|].
  intros p s' (-> & t & Ht & Hm & Hc).
  destruct Hc as [(a & v & Hi & Hne & Hv & HM & Hsv)|(-> & HM & Hn)].
  2: { rewrite Z.eqb_refl. eapply page_release_spec; [exact HR|]. intros s' HR' _ _. by rewrite delete_id. }
  rewrite (proj2 (Z.eqb_neq _ _) Hne). pose proof (Rep_fuel _ _ _ _ _ _ HR Hf t Ht Hm) as Hh.
  destruct (ok_tree _ _ _ _ _ Ht) as (q & pool & Hq & _ & Hrb).
  destruct (tree_cell NIL _ _ _ _ _ Hrb Hi) as (_ & x & Hx & Hxd). simpl in Hx.
  apply swp_bind, (swp_intro _ _ _ x s); [unfold tree_node_at; by rewrite Hx|]. apply swp_bind.
  eapply swp_mono; [by apply (remove_spec NIL fuel s page t fr p a)|].
  intros _ s' ((pg' & r & Hp' & Hvp) & Hva & Hns & Hps & t' & l & rr & Ht' & Hel & Hel').
  apply swp_bind. unfold free_area, swp at 1. apply swp_bind. unfold free_node, swp at 1. simpl. rewrite Hxd.
  destruct HR as (t0 & pg & _ & _ & Hp & Hl & Hk1 & Hk2). simplify_eq.
  eapply page_release_spec; [|by intros s'' HR' _ _; exact HR'].
  exists t', (set_tree_root r pg). split; [done|]. simpl. rewrite Hvp, lookup_insert_eq, Hns, Hps. split; [|split_and!; [done|done|lia|lia]].
  destruct Ht as [_ Ha Hs _ _ _]. rewrite Hel in Ha, Hs. rewrite Hel', Hva, Hel. by apply vmap_delete.
Qed.

(** ** Sequences of calls *)

Inductive vma_op :=
| Register (phys virt size fl : Z)
| Find (virt : Z)
| Unregister (virt : Z).

(** The specification: a finite map from start addresses to areas, in which
    the first registration of a start address wins. *)
Definition vma_spec (o : vma_op) (M : gmap Z virtual_memory) : option virtual_memory * gmap Z virtual_memory :=
  match o with
  | Register phys virt size fl =>
      (None, if M !! virt is Some _ then M else <[virt := mkVma virt (u64 (virt + size)) phys size fl 0]> M)
  | Find virt => (M !! virt, M)
  | Unregister virt => (None, delete virt M)
  end.

Definition vma_run (fuel : nat) (page : Z) (o : vma_op) : SM vms (option virtual_memory) :=
  match o with
  | Register phys virt size fl => vma_register NIL fuel page phys virt size fl ;; mret None
  | Find virt => p ← vma_find NIL fuel page virt; deref_area p
  | Unregister virt => vma_unregister NIL fuel page virt ;; mret None
  end.

Fixpoint vma_specs (os : list vma_op) (M : gmap Z virtual_memory) : list (option virtual_memory) * gmap Z virtual_memory :=
  match os with
  | [] => ([], M)
  | o :: os => let '(x, M) := vma_spec o M in let '(xs, M) := vma_specs os M in (x :: xs, M)
  end.

Fixpoint vma_runs (fuel : nat) (page : Z) (os : list vma_op) : SM vms (list (option virtual_memory)) :=
  match os with
  | [] => mret []
  | o :: os => x ← vma_run fuel page o; xs ← vma_runs fuel page os; mret (x :: xs)
  end.

Lemma vma_run_spec k s page M fuel o :
  page ≠ 0 → Rep unlocked (Datatypes.S k) s page M → (2 * Nat.log2 (size M + 1) < fuel)%nat →
  swp (vma_run fuel page o) s (λ x s', x = (vma_spec o M).1 ∧ Rep unlocked k s' page (vma_spec o M).2).
Proof.
  intros Hpg HR Hf.
  assert (∀ s M, Rep unlocked (Datatypes.S k) s page M → Rep unlocked k s page M) as Hw.
  { intros s0 M0 (t & pg & H'). exists t, pg. split_and!; try apply H'; lia. }
  destruct o as [phys virt sz fl|virt|virt]; simpl vma_run; simpl vma_spec.
  - unfold vma_register. rewrite (proj2 (Z.eqb_neq _ _) Hpg). apply swp_bind, swp_bind.
    eapply page_acquire_spec; [exact HR|]. enter s HR. apply swp_bind.
    eapply swp_mono; [by apply (register_spec k s page M fuel phys virt sz fl)|]. intros [] s' HR'.
    eapply page_release_spec; [exact HR'|]. intros s'' HR'' _ _. by apply swp_ret.
  - eapply swp_mono; [by eapply find_spec|]. simpl. naive_solver.
  - apply swp_bind. eapply swp_mono; [by eapply unregister_spec|]. intros [] s' HR'. apply swp_ret. auto.
Qed.

Lemma vma_spec_size o M : (size (vma_spec o M).2 ≤ size M + 1)%nat.
Proof.
  destruct o as [phys virt sz fl|virt|virt]; simpl.
  - destruct (M !! virt) eqn:HM; [lia|]. rewrite map_size_insert_None by done. lia.
  - lia.
  - rewrite map_size_delete. destruct (M !! virt); simpl; lia.
Qed.

Lemma vma_runs_spec os : ∀ k s page M fuel,
  page ≠ 0 → Rep unlocked (length os + k) s page M → (2 * Nat.log2 (size M + length os) < fuel)%nat →
  swp (vma_runs fuel page os) s (λ xs s', xs = (vma_specs os M).1 ∧ Rep unlocked k s' page (vma_specs os M).2).
Proof.
  induction os as [|o os IH]; intros k s page M fuel Hpg HR Hf; [by apply swp_ret|]. simpl vma_runs.
  simpl vma_specs. pose proof (vma_spec_size o M) as Hsz. simpl length in HR, Hf.
  assert (2 * Nat.log2 (size M + 1) < fuel)%nat as Hf1.
  { eapply Nat.le_lt_trans; [|exact Hf]. apply Nat.mul_le_mono_l, Nat.log2_le_mono. lia. }
  apply swp_bind. eapply swp_mono; [by apply (vma_run_spec (length os + k) s page M fuel o)|].
  intros x s' (-> & HR'). destruct (vma_spec o M) as [x M']. simpl in *. apply swp_bind.
  eapply swp_mono; [apply (IH k s' page M' fuel Hpg HR')|].
  { pose proof (Nat.log2_le_mono (size M' + length os) (size M + Datatypes.S (length os))). lia. }
  intros xs s'' (-> & HR''). apply swp_ret. by destruct (vma_specs os M').
Qed.
End rep.
