(* ===== verification/VmaFind.v ===== *)
(** * Finding the area of an address, and free address ranges *)

From stdpp Require Import sorting.
From S2P Require Import Prelude StateM Spinlock Pmm Rbt RbtTree RbtInv RbtInsert RbtThm Vma VmaOps.

Open Scope sm_scope.

Definition contains (v : virtual_memory) (x : Z) : Prop := start_address v ≤ x < end_address v.

(** No two areas overlap. *)
Definition separate (M : gmap Z virtual_memory) : Prop :=
  ∀ a b v w, M !! a = Some v → M !! b = Some w → a < b → end_address v ≤ start_address w.

(** The same of the areas in tree order. *)
Definition apart (areas : gmap Z virtual_memory) : list (Z * Z) → Prop :=
  StronglySorted (λ a b, ∀ v w, areas !! a.2 = Some v → areas !! b.2 = Some w → end_address v ≤ start_address w).

Lemma separate_apart areas es :
  Forall (λ e, is_Some (areas !! e.2)) es → by_start areas es → separate (vmap areas es) → apart areas es.
Proof.
  intros Ha Hs Hsep.
  assert (∀ a b v w, a ∈ es → b ∈ es → akv areas a.2 < akv areas b.2 →
    areas !! a.2 = Some v → areas !! b.2 = Some w → end_address v ≤ start_address w) as Hab.
  { intros a b v w Hia Hib Hlt Hv Hw. unfold akv in Hlt. rewrite Hv, Hw in Hlt. simpl in Hlt.
    eapply (Hsep (start_address v) (start_address w)); [| |done]; apply vmap_lookup; eauto. }
  clear Ha Hsep. induction Hs as [|e es Hs IH He]; [constructor|]. apply SSorted_cons.
  - apply IH. intros. eapply (Hab a b); eauto; by apply list_elem_of_further.
  - rewrite Forall_forall in He |- *. intros x Hx v w Hv Hw.
    eapply (Hab e x); [apply list_elem_of_here|by apply list_elem_of_further|by apply He|done..].
Qed.

Section find.
Context (NIL : Z).

(** What is known of a subtree on the way down. *)
Record sub_ok (s : vms) (es : list (Z * Z)) : Prop := mkSub {
  sub_areas : Forall (λ e, is_Some (vareas s !! e.2)) es;
  sub_sorted : by_start (vareas s) es;
  sub_apart : apart (vareas s) es;
  sub_nodes : 0 ∉ es.*1;
  sub_data : 0 ∉ es.*2 }.

Lemma sub_split s l e r :
  sub_ok s (l ++ e :: r) → sub_ok s l ∧ sub_ok s r ∧ e.1 ≠ 0 ∧ e.2 ≠ 0 ∧
  ∃ v, vareas s !! e.2 = Some v ∧
    (∀ x w, x ∈ l → vareas s !! x.2 = Some w → end_address w ≤ start_address v) ∧
    (∀ x w, x ∈ r → vareas s !! x.2 = Some w → start_address v < start_address w ∧ end_address v ≤ start_address w).
Proof.
  intros [Ha Hs Hp Hn Hd]. rewrite Forall_app, Forall_cons in Ha. destruct Ha as (Hal & (v & Hv) & Har).
  assert (∀ (R : Z * Z → Z * Z → Prop) l r, StronglySorted R (l ++ r) →
    StronglySorted R l ∧ StronglySorted R r ∧ ∀ a b, a ∈ l → b ∈ r → R a b) as Happ.
  { intros R l0 r0. induction l0 as [|x l0 IH]; simpl; intros H0.
    - split; [constructor|]. split; [done|]. intros a b Hi. by apply elem_of_nil in Hi.
    - apply StronglySorted_inv in H0 as (H0 & Hx). destruct (IH H0) as (H1 & H2 & H3).
      apply Forall_app in Hx as (Hxl & Hxr). split; [by apply SSorted_cons|]. split; [done|].
      rewrite Forall_forall in Hxr. intros a b [->|Hi]%elem_of_cons Hb; auto. }
  apply Happ in Hs as (Hsl & Hsr & Hslr), Hp as (Hpl & Hpr & Hplr).
  apply StronglySorted_inv in Hsr as (Hsr & Her), Hpr as (Hpr & Hper).
  rewrite fmap_app, fmap_cons in Hn, Hd. rewrite Forall_forall in Her, Hper.
  split; [split; try done; set_solver|]. split; [split; try done; set_solver|].
  split; [set_solver|]. split; [set_solver|]. exists v. split; [done|]. split.
  - intros x w Hx Hw. eapply Hplr; [done|apply list_elem_of_here|done..].
  - intros x w Hx Hw. split; [|by eapply Hper]. specialize (Her x Hx). unfold akv in Her. by rewrite Hv, Hw in Her.
Qed.

Lemma focus_cell s k c l p dt r fr :
  at_focus NIL s k (T c l p dt r) fr →
  ∃ n, heap s !! p = Some n ∧ n_data n = dt ∧ n_left n = rp NIL l ∧ n_right n = rp NIL r.
Proof.
  unfold at_focus. simpl. intros (_ & _ & Hs). eexists. split; [apply Hs|].
  - rewrite !elem_of_app, !elem_of_cons. eauto.
  - done.
Qed.

(** The descent finds the area that contains [virt], if there is one. *)
Lemma find_containing_spec fuel virt : ∀ s root k t fr,
  at_focus NIL (mkRbt (vnodes s) root) k t fr → sub_ok s (elems t) → (height t < fuel)%nat →
  swp (find_containing NIL fuel (rp NIL t) virt) s (λ p s', s' = s ∧
    ((p ≠ 0 ∧ ∃ n v, (n, p) ∈ elems t ∧ vareas s !! p = Some v ∧ contains v virt) ∨
     p = 0 ∧ ∀ e v, e ∈ elems t → vareas s !! e.2 = Some v → ¬ contains v virt)).
Proof.
  induction fuel as [|fuel IH]; intros s root k t fr Hs Ht Hf; [lia|]. simpl.
  destruct t as [|c l p dt r].
  { simpl rp. rewrite Z.eqb_refl, orb_true_r. apply swp_ret. split; [done|]. right. split; [done|].
    intros e v He. by apply elem_of_nil in He. }
  simpl elems in *. destruct (sub_split _ _ _ _ Ht) as (Hl & Hr & Hp0 & Hd0 & v & Hv & Hlv & Hrv). simpl in *.
  assert (p ≠ NIL) as Hpn by exact (focus_not_nil NIL _ _ _ _ Hs ltac:(done)).
  rewrite (proj2 (Z.eqb_neq _ _) Hp0), (proj2 (Z.eqb_neq _ _) Hpn). simpl.
  destruct (focus_cell _ _ _ _ _ _ _ _ Hs) as (n & Hn & Hnd & Hnl & Hnr). simpl in Hn.
  apply swp_bind, (swp_intro _ _ _ n s); [unfold tree_node_at; by rewrite Hn|]. rewrite Hnd, Hnl, Hnr.
  rewrite (proj2 (Z.eqb_neq _ _) Hd0). apply swp_bind, (swp_intro _ _ _ v s); [unfold area_at; by rewrite Hv|].
  apply swp_if; intros Hc.
  { apply swp_ret. split; [done|]. left. split; [done|]. exists p, v. unfold contains. split; [set_solver|]. split; [done|lia]. }
  assert (¬ contains v virt) as Hnc by (unfold contains; lia).
  destruct (Z.ltb_spec virt (start_address v)) as [Hlt|Hge].
  - eapply swp_mono; [eapply (IH s root (Fr L c p dt r :: k) l fr); [by rewrite zip|done|lia]|].
    intros q s' (-> & Hq). split; [done|]. destruct Hq as [(Hq0 & n' & w & Hi & Hw)|(-> & Hno)].
    + left. split; [done|]. exists n', w. split; [set_solver|done].
    + right. split; [done|]. intros e w [He|[->|He]%elem_of_cons]%elem_of_app Hw; [by eapply Hno|simpl in Hw; by simplify_eq|].
      specialize (Hrv e w He Hw). unfold contains. lia.
  - eapply swp_mono; [eapply (IH s root (Fr R c p dt l :: k) r fr); [by rewrite zip|done|lia]|].
    intros q s' (-> & Hq). split; [done|]. destruct Hq as [(Hq0 & n' & w & Hi & Hw)|(-> & Hno)].
    + left. split; [done|]. exists n', w. split; [set_solver|done].
    + right. split; [done|]. intros e w [He|[->|He]%elem_of_cons]%elem_of_app Hw; [|simpl in Hw; by simplify_eq|by eapply Hno].
      specialize (Hlv e w He Hw). unfold contains in *. lia.
Qed.

(** ** In terms of the map *)

Context (fr : list (Z * rbt_node)).

Lemma find_map_spec P k s page M fuel virt :
  Rep NIL fr P k s page M → separate M → (2 * Nat.log2 (size M + 1) < fuel)%nat →
  swp (p ← page_at page; find_containing NIL fuel (tree_root p) virt) s (λ p s', s' = s ∧
    ((p ≠ 0 ∧ ∃ a v, M !! a = Some v ∧ vareas s !! p = Some v ∧ contains v virt) ∨
     p = 0 ∧ ∀ a v, M !! a = Some v → ¬ contains v virt)).
Proof.
  intros HR Hsep Hf. destruct (HR) as (t & pg & Ht & Hm & Hp & _). pose proof (Rep_fuel _ _ _ _ _ _ _ _ HR Hf t Ht Hm) as Hh.
  destruct Ht as [(q & pool & Hq & Hpl & Ht) Ha Hs _ H0 H1]. simplify_eq.
  apply swp_bind, (swp_intro _ _ _ q s); [unfold page_at; by rewrite Hq|].
  replace (tree_root q) with (rp NIL t) by (symmetry; apply Ht).
  eapply swp_mono.
  { eapply (find_containing_spec fuel virt s (tree_root q) [] t (pool ++ fr)); [apply Ht| |done].
    split; [done|done|by apply separate_apart|set_solver|set_solver]. }
  intros p s' (-> & Hc). split; [done|]. destruct Hc as [(Hp0 & n & v & Hi & Hv & Hc)|(-> & Hno)].
  - left. split; [done|]. exists (start_address v), v. split; [|done]. apply vmap_lookup; [done..|]. eauto.
  - right. split; [done|]. intros a v (e & He & Hv & _)%vmap_lookup; [|done..]. by eapply Hno.
Qed.

Lemma find_contains_spec k s page M fuel virt :
  page ≠ 0 → Rep NIL fr unlocked k s page M → separate M → (2 * Nat.log2 (size M + 1) < fuel)%nat →
  swp (p ← vma_find_contains NIL fuel page virt; deref_area p) s (λ o s', Rep NIL fr unlocked k s' page M ∧
    match o with
    | Some v => contains v virt ∧ ∃ a, M !! a = Some v
    | None => ∀ a v, M !! a = Some v → ¬ contains v virt
    end).
Proof.
  intros Hpg HR Hsep Hf. apply swp_bind. unfold vma_find_contains. rewrite (proj2 (Z.eqb_neq _ _) Hpg).
  apply swp_bind. eapply page_acquire_spec; [exact HR|]. enter s HR.
  pose proof (find_map_spec _ _ _ _ _ _ virt HR Hsep Hf) as Hw. apply swp_elim in Hw as (p & s' & Hw & -> & Hc).
  destruct (HR) as (t & pg & _ & _ & Hp & _).
  apply swp_bind, (swp_intro _ _ _ pg s); [unfold page_at; by rewrite Hp|].
  unfold mbind, SM_bind, page_at in Hw. rewrite Hp in Hw.
  apply swp_bind. eapply swp_intro; [exact Hw|]. apply swp_bind. eapply page_release_spec; [exact HR|].
  intros s' HR' Hva _. apply swp_ret. unfold deref_area. destruct Hc as [(Hp0 & a & v & HM & Hv & Hc)|(-> & Hno)].
  - rewrite (proj2 (Z.eqb_neq _ _) Hp0). apply swp_bind, (swp_intro _ _ _ v s'); [unfold area_at; by rewrite Hva, Hv|].
    apply swp_ret. eauto.
  - by apply swp_ret.
Qed.

(** ** Free ranges *)

(** [contains] at one of the pages the loop tests. *)
Lemma page_collision_spec count : ∀ P k s page M fuel result i,
  Rep NIL fr P k s page M → separate M → (2 * Nat.log2 (size M + 1) < fuel)%nat →
  0 ≤ i → 0 ≤ result → result + (i + Z.of_nat count) * BLOCK_SIZE < 2 ^ 64 →
  swp (page_collision NIL count fuel page result i) s (λ c s', s' = s ∧
    match c with
    | Some e => ∃ a v j, M !! a = Some v ∧ e = end_address v ∧ i ≤ j < i + Z.of_nat count ∧ contains v (result + j * BLOCK_SIZE)
    | None => ∀ a v j, M !! a = Some v → i ≤ j < i + Z.of_nat count → ¬ contains v (result + j * BLOCK_SIZE)
    end).
Proof.
  induction count as [|count IH]; intros P k s page M fuel result i HR Hsep Hf Hi Hr Hb.
  { apply swp_ret. split; [done|]. intros. lia. }
  cbn [page_collision]. destruct (HR) as (t & pg & _ & _ & Hp & _). unfold BLOCK_SIZE in *.
  pose proof (find_map_spec _ _ _ _ _ _ (result + i * 4096) HR Hsep Hf) as Hw.
  apply swp_elim in Hw as (p & s' & Hw & -> & Hc). unfold mbind, SM_bind, page_at in Hw. rewrite Hp in Hw.
  apply swp_bind, (swp_intro _ _ _ pg s); [unfold page_at; by rewrite Hp|].
  replace (u64 (result + u64 (i * 4096))) with (result + i * 4096).
  2: { unfold u64. rewrite (Z.mod_small (i * 4096)) by lia. rewrite Z.mod_small by lia. done. }
  apply swp_bind. eapply swp_intro; [exact Hw|]. destruct Hc as [(Hp0 & a & v & HM & Hv & Hc)|(-> & Hno)].
  - rewrite (proj2 (Z.eqb_neq _ _) Hp0). simpl. apply swp_bind, (swp_intro _ _ _ v s); [unfold area_at; by rewrite Hv|].
    apply swp_ret. split; [done|]. exists a, v, i. split_and!; try done; lia.
  - simpl. eapply swp_mono; [by apply (IH P k s page M fuel result (i + 1)); try done; lia|].
    intros [e|] s' (-> & He); (split; [done|]).
    + destruct He as (a & v & j & HM & -> & Hj & Hc). exists a, v, j. split_and!; try done; lia.
    + intros a v j HM Hj. destruct (decide (j = i)) as [->|Hji]; [by eapply Hno|]. eapply He; [done|lia].
Qed.

Definition occupied (M : gmap Z virtual_memory) (x : Z) : Prop := ∃ a v, M !! a = Some v ∧ contains v x.

Definition page_aligned (M : gmap Z virtual_memory) : Prop :=
  ∀ a v, M !! a = Some v → (BLOCK_SIZE | start_address v) ∧ (BLOCK_SIZE | end_address v) ∧ 0 ≤ start_address v.

(** Page-aligned areas that hold none of the tested addresses hold no byte
    of the pages. *)
Lemma pages_free M result size x :
  page_aligned M → (BLOCK_SIZE | result) →
  (∀ a v j, M !! a = Some v → 0 ≤ j < size → ¬ contains v (result + j * BLOCK_SIZE)) →
  result ≤ x < result + BLOCK_SIZE * size → ¬ occupied M x.
Proof.
  unfold BLOCK_SIZE. intros Hal (q & ->) Hno Hx (a & v & HM & Hc). destruct (Hal a v HM) as ((b & Hb) & (e & He) & _).
  apply (Hno a v (x / 4096 - q) HM).
  - dlia.
  - unfold contains, BLOCK_SIZE in *. dlia.
Qed.

(** Areas that end behind [r]: each turn of the search leaves one behind. *)
Definition ahead (M : gmap Z virtual_memory) (r : Z) : gmap Z virtual_memory := filter (λ p, r < end_address p.2) M.

Lemma ahead_lt M a v r : M !! a = Some v → r < end_address v → (size (ahead M (end_address v)) < size (ahead M r))%nat.
Proof.
  intros HM Hr. apply map_subset_size, strict_spec. unfold ahead. split.
  - apply map_filter_subseteq_ext. simpl. intros. lia.
  - intros Hsub. assert (filter (λ p : Z * virtual_memory, r < end_address p.2) M !! a = Some v) as Ha.
    { by apply map_lookup_filter_Some. }
    apply (lookup_weaken _ _ _ _ Ha) in Hsub. apply map_lookup_filter_Some in Hsub as (_ & Hlt). simpl in Hlt. lia.
Qed.

(** The search ends, at the first place from [result] on where [size] pages
    are free. *)
Lemma find_gap_spec turns : ∀ P k s page M fuel result size,
  Rep NIL fr P k s page M → separate M → (2 * Nat.log2 (stdpp.base.size M + 1) < fuel)%nat →
  (stdpp.base.size (ahead M result) < turns)%nat → page_aligned M → 0 < size → 0 ≤ result → (BLOCK_SIZE | result) →
  result + BLOCK_SIZE * size < 2 ^ 64 →
  (∀ a v, M !! a = Some v → end_address v + BLOCK_SIZE * size < 2 ^ 64) →
  swp (find_gap NIL turns fuel page result size) s (λ r s', s' = s ∧ result ≤ r ∧ (BLOCK_SIZE | r) ∧
    r + BLOCK_SIZE * size < 2 ^ 64 ∧
    (∀ x, r ≤ x < r + BLOCK_SIZE * size → ¬ occupied M x) ∧
    (∀ r', result ≤ r' < r → ∃ x, r' ≤ x < r' + BLOCK_SIZE * size ∧ occupied M x)).
Proof.
  induction turns as [|turns IH]; intros P k s page M fuel result size HR Hsep Hf Ht Hal Hsz Hr Hra Hb He; [lia|].
  cbn [find_gap]. apply swp_bind.
  eapply swp_mono; [apply (page_collision_spec (Z.to_nat size) P k s page M fuel result 0); try done; lia|].
  rewrite Z2Nat.id by lia. intros [e|] s' (-> & Hc).
  - destruct Hc as (a & v & j & HM & -> & Hj & Hc). destruct (Hal a v HM) as (_ & Hve & Hv0).
    unfold BLOCK_SIZE in *. unfold contains in Hc.
    pose proof (ahead_lt M a v result HM ltac:(lia)) as Hlt.
    eapply swp_mono; [apply (IH P k s page M fuel (end_address v) size); try done; [lia|lia|by eapply He]|].
    intros r s' (-> & Hle & Hdr & Hbr & Hfree & Hfirst). split_and!; try done; [lia|].
    intros r' Hr'. destruct (Z.lt_ge_cases r' (end_address v)) as [Hlt'|]; [|apply Hfirst; lia].
    exists (Z.max r' (result + j * 4096)). split; [lia|]. exists a, v. split; [done|]. unfold contains. lia.
  - apply swp_ret. split_and!; try done; [|intros; lia]. intros x Hx.
    eapply pages_free; [done|exact Hra| |exact Hx]. intros a v j HM Hj. by eapply (Hc a v j).
Qed.
End find.
