(* ===== verification/VmaMap.v ===== *)
(** * Mapping an address space into page tables

    [vma_mmap] composes the tree walk with the paging layer. *)

From S2P Require Import Prelude StateM Spinlock Pmm Frames Paging PagingWin PagingMap PagingOps PagingThm Rbt RbtTree RbtInv RbtInsert RbtThm Vma VmaOps VmaFind.

Open Scope sm_scope.

(** A user area of whole pages, present, with a frame range. *)
Record mappable (v : virtual_memory) : Prop := mkMappable {
  ma_start : 0 ≤ start_address v < end_address v;
  ma_end : end_address v ≤ 2 ^ 47;
  ma_aligned : start_address v mod 0x1000 = 0 ∧ end_address v mod 0x1000 = 0;
  ma_phys : 0 < phys_address v ∧ phys_address v mod 0x1000 = 0 ∧
            phys_address v + (end_address v - start_address v) ≤ 2 ^ 52;
  ma_flags : 0 ≤ flags v < 2 ^ 64 ∧ has (flags v) 1 = true ∧
             has (flags v) PAGE_1GB = false ∧ has (flags v) PAGE_2MB = false }.

Lemma user_not_window x : 0 ≤ x mod 2 ^ 48 < 2 ^ 47 → vpn 1 x ≠ window_vpn.
Proof.
  intros Hx He. assert (vpn 1 x < 2 ^ 26) as Hlt.
  { unfold vpn. apply Z.div_lt_upper_bound; [done|]. simpl. lia. }
  rewrite He in Hlt. vm_compute in Hlt. done.
Qed.

Lemma area_pages_exact v : mappable v → area_pages v * 0x1000 = end_address v - start_address v ∧ 0 < area_pages v < 2 ^ 36.
Proof.
  intros [Hs He (Ha & Hb) _ _]. unfold area_pages, area_size, u64, BLOCK_SIZE.
  rewrite (Z.mod_small (end_address v - start_address v)) by lia. rewrite Z.mod_small by lia.
  destruct (Z.eqb_spec ((end_address v - start_address v + 4095) / 4096) 0) as [Hz|Hz]; dlia.
Qed.

Section mmap.
Context {S : Type} `{!FrameSource S} (NIL : Z).

(** What mapping a list of areas does to the translation of [va]. *)
Definition translated (areas : gmap Z virtual_memory) (es : list (Z * Z)) (old new : Z → Z) : Prop :=
  ∀ va, 0 ≤ va < 2 ^ 47 →
    (∀ e v, e ∈ es → areas !! e.2 = Some v → contains v va → new va = phys_address v + (va - start_address v)) ∧
    ((∀ e v, e ∈ es → areas !! e.2 = Some v → ¬ contains v va) → new va = old va).

Lemma translated_join areas l e v r old x1 x2 new :
  areas !! e.2 = Some v → start_address v < end_address v →
  (∀ x w, x ∈ l → areas !! x.2 = Some w → end_address w ≤ start_address v) →
  (∀ x w, x ∈ r → areas !! x.2 = Some w → end_address v ≤ start_address w) →
  translated areas l old x1 →
  (∀ va, 0 ≤ va < 2 ^ 47 →
    x2 va = if decide (contains v va) then phys_address v + (va - start_address v) else x1 va) →
  translated areas r x2 new → translated areas (l ++ e :: r) old new.
Proof.
  intros Hv Hsv Hl Hr H1 H2 H3 va Hva. destruct (H1 va Hva) as (T1 & U1), (H3 va Hva) as (T3 & U3).
  specialize (H2 va Hva). unfold contains in *. split.
  - intros x w [Hx|[->|Hx]%elem_of_cons]%elem_of_app Hw Hc.
    + rewrite U3, H2, decide_False; [by eapply T1| |]; [specialize (Hl x w Hx Hw); lia|].
      intros y u Hy Hu. specialize (Hl x w Hx Hw). specialize (Hr y u Hy Hu). lia.
    + simplify_eq. rewrite U3, H2, decide_True; [done|done|]. intros y u Hy Hu. specialize (Hr y u Hy Hu). lia.
    + by eapply T3.
  - intros Hno. rewrite U3, H2, decide_False, U1; [done| | |].
    + intros x w Hx. apply Hno. set_solver.
    + eapply Hno; [|exact Hv]. set_solver.
    + intros x w Hx. apply Hno. set_solver.
Qed.

(** The paging layer's promise for one area. *)
Lemma map_area own (m : machine S) pml4 v :
  tables own m pml4 → (5 ≤ nfree (windows m))%nat → mappable v → 3 * area_pages v ≤ fs_avail (msrc m) →
  ∃ own' m', paging_multiple_mmap m pml4 (start_address v) (phys_address v) (area_pages v) (flags v) = Ok m' ∧
    tables own' m' pml4 ∧ nfree (windows m') = nfree (windows m) ∧
    fs_avail (msrc m) - 3 * area_pages v ≤ fs_avail (msrc m') ∧
    ∀ va, 0 ≤ va < 2 ^ 47 → xl 3 (mram m') pml4 va =
      if decide (contains v va) then phys_address v + (va - start_address v) else xl 3 (mram m) pml4 va.
Proof.
  intros Ht Hn Hv Hav. destruct (area_pages_exact v Hv) as (Hp & Hp0).
  destruct Hv as [Hs He (Hal & Hbl) Hph (Hfl & Hpr & Hf1 & Hf2)].
  destruct (range_pages own m pml4 (start_address v) (phys_address v) (area_pages v) (flags v))
    as (own' & m' & E & Ht' & _ & Hn' & Hav' & Hxl & _); try done; [lia| |].
  - intros _. split; [lia| | |right; lia].
    + rewrite Z.mod_small by lia. lia.
    + intros x Hx. rewrite (Z.mod_small (start_address v)) in Hx by lia. apply user_not_window. lia.
  - exists own', m'. split_and!; try done. intros va Hva.
    rewrite Hxl by (apply user_not_window; rewrite Z.mod_small by lia; lia).
    rewrite !Z.mod_small by lia. unfold range_addr. rewrite Hpr.
    unfold contains. repeat case_decide; lia || done.
Qed.

Lemma mmap_walk K pml4 fuel : ∀ s root k t fr own (m : machine S),
  at_focus NIL (mkRbt (vnodes s) root) k t fr → sub_ok s (elems t) → (height t < fuel)%nat →
  (∀ e v, e ∈ elems t → vareas s !! e.2 = Some v → mappable v ∧ area_pages v ≤ K) →
  tables own m pml4 → (5 ≤ nfree (windows m))%nat → 3 * K * Z.of_nat (length (elems t)) ≤ fs_avail (msrc m) →
  swp (vma_mmap_recursive NIL fuel (rp NIL t) pml4 m) s (λ m' s', s' = s ∧
    (∃ own', tables own' m' pml4) ∧ nfree (windows m') = nfree (windows m) ∧
    fs_avail (msrc m) - 3 * K * Z.of_nat (length (elems t)) ≤ fs_avail (msrc m') ∧
    translated (vareas s) (elems t) (xl 3 (mram m) pml4) (xl 3 (mram m') pml4)).
Proof.
  induction fuel as [|fuel IH]; intros s root k t fr own m Hs Ht Hf Hma Htb Hn Hav; [lia|]. simpl.
  destruct t as [|c l p dt r].
  { simpl rp. rewrite Z.eqb_refl. apply swp_ret. simpl in Hav |- *. split_and!; try done; [eauto|lia|].
    intros va Hva. split; [|done]. intros e v He. by apply elem_of_nil in He. }
  simpl elems in *. destruct (sub_split _ _ _ _ Ht) as (Hl & Hr & Hp0 & Hd0 & v & Hv & Hlv & Hrv). simpl in Hp0, Hd0, Hv.
  assert (p ≠ NIL) as Hpn by exact (focus_not_nil NIL _ _ _ _ Hs ltac:(done)). simpl rp.
  rewrite (proj2 (Z.eqb_neq _ _) Hp0), (proj2 (Z.eqb_neq _ _) Hpn). simpl orb. cbv iota.
  destruct (focus_cell NIL _ _ _ _ _ _ _ _ Hs) as (n & Hns & Hnd & Hnl & Hnr). simpl in Hns.
  apply swp_bind, (swp_intro _ _ _ n s); [unfold tree_node_at; by rewrite Hns|]. rewrite Hnd, Hnl, Hnr.
  destruct (Hma (p, dt) v) as (Hmv & HKv); [set_solver|done|]. destruct (area_pages_exact v Hmv) as (Hpx & Hpp).
  rewrite length_app in Hav |- *. simpl length in Hav |- *. simpl in Hf.
  apply swp_bind. eapply swp_mono.
  { eapply (IH s root (Fr L c p dt r :: k) l fr own m); [by rewrite zip|done|lia| |done|done|nia].
    intros e w He. apply Hma. set_solver. }
  intros m1 s1 (-> & (own1 & Htb1) & Hn1 & Hav1 & Htr1). rewrite (proj2 (Z.eqb_neq _ _) Hd0).
  apply swp_bind, swp_bind, (swp_intro _ _ _ v s); [unfold area_at; by rewrite Hv|].
  destruct (map_area own1 m1 pml4 v) as (own2 & m2 & E2 & Htb2 & Hn2 & Hav2 & Htr2); [done|lia|done|nia|].
  apply (swp_lift _ m2); [done|]. eapply swp_mono.
  { eapply (IH s root (Fr R c p dt l :: k) r fr own2 m2); [by rewrite zip|done|lia| |done|lia|nia].
    intros e w He. apply Hma. set_solver. }
  intros m3 s3 (-> & Htb3 & Hn3 & Hav3 & Htr3). split_and!; [done|done|lia|nia|].
  eapply (translated_join _ _ (p, dt) v); [done|apply Hmv|done| |exact Htr1|exact Htr2|exact Htr3].
  intros x w Hx Hw. by apply (Hrv x w).
Qed.

Lemma vma_mmap_spec fr K k s page M fuel pml4 own (m : machine S) :
  Rep NIL fr unlocked k s page M → separate M → (2 * Nat.log2 (size M + 1) < fuel)%nat →
  (∀ a v, M !! a = Some v → mappable v ∧ area_pages v ≤ K) →
  tables own m pml4 → (5 ≤ nfree (windows m))%nat → 3 * K * Z.of_nat (size M) ≤ fs_avail (msrc m) →
  swp (vma_mmap NIL fuel page pml4 m) s (λ m' s', Rep NIL fr unlocked k s' page M ∧
    (∃ own', tables own' m' pml4) ∧ nfree (windows m') = nfree (windows m) ∧
    ∀ va, 0 ≤ va < 2 ^ 47 →
      (∀ a v, M !! a = Some v → contains v va → xl 3 (mram m') pml4 va = phys_address v + (va - start_address v)) ∧
      (¬ occupied M va → xl 3 (mram m') pml4 va = xl 3 (mram m) pml4 va)).
Proof.
  intros HR Hsep Hf Hma Htb Hn Hav. unfold vma_mmap. apply swp_bind. eapply page_acquire_spec; [exact HR|].
  enter s HR. destruct (HR) as (t & pg & Ht & Hm & Hp & _). pose proof (Rep_fuel _ _ _ _ _ _ _ _ HR Hf t Ht Hm) as Hh.
  apply swp_bind, (swp_intro _ _ _ pg s); [unfold page_at; by rewrite Hp|].
  destruct Ht as [(q & pool & Hq & Hpl & Ht) Ha Hs _ H0 H1]. simplify_eq. rewrite vmap_size in Hav by done.
  replace (tree_root q) with (rp NIL t) by (symmetry; apply Ht).
  apply swp_bind. eapply swp_mono.
  { eapply (mmap_walk K pml4 fuel s (tree_root q) [] t (pool ++ fr) own m); [apply Ht| |done| |done|done|done].
    - split; [done|done|by apply separate_apart|set_solver|set_solver].
    - intros e v He Hv. apply (Hma (start_address v)). apply vmap_lookup; eauto. }
  intros m' s' (-> & Htb' & Hn' & _ & Htr). apply swp_bind. eapply page_release_spec; [exact HR|].
  intros s' HR' _ _. apply swp_ret. split_and!; try done. intros va Hva. destruct (Htr va Hva) as (T & U). split.
  - intros a v (e & He & Hv & _)%vmap_lookup; [|done..]. by eapply T.
  - intros Hno. apply U. intros e v He Hv Hc. apply Hno. exists (start_address v), v. split; [|done].
    apply vmap_lookup; eauto.
Qed.
End mmap.
