(* ===== verification/VmaThm.v ===== *)
(** * Properties of the virtual memory areas *)

From stdpp Require Import sorting.
From S2P Require Import Prelude StateM Spinlock Pmm Frames Paging PagingWin PagingMap PagingOps PagingThm Rbt RbtTree RbtInv RbtInsert RbtThm Vma VmaOps VmaFind VmaMap.

Open Scope sm_scope.

Section thm.
Context (NIL : Z) (fr : list (Z * rbt_node)).

(** C11. Any sequence of registrations, lookups and removals on an address
    space returns, and its results are those of a finite map from start
    addresses to areas in which the first registration of an address wins;
    the space stands for the final map.  The tree depth, and so the fuel, is
    logarithmic in the number of areas. *)
Theorem vma_ops_refine os k s page M fuel :
  page ≠ 0 → Rep NIL fr unlocked (length os + k) s page M →
  (2 * Nat.log2 (size M + length os) < fuel)%nat →
  ∃ s', vma_runs NIL fuel page os s = Ok ((vma_specs os M).1, s') ∧
    Rep NIL fr unlocked k s' page (vma_specs os M).2.
Proof.
  intros Hpg HR Hf. pose proof (vma_runs_spec NIL fr os k s page M fuel Hpg HR Hf) as Hw.
  apply swp_elim in Hw as (xs & s' & Hw & -> & HR'). eauto.
Qed.

(** When no two areas overlap, [vma_find_contains] returns the area that
    contains an address exactly when there is one. *)
Theorem vma_find_contains_correct k s page M fuel virt :
  page ≠ 0 → Rep NIL fr unlocked k s page M → separate M → (2 * Nat.log2 (size M + 1) < fuel)%nat →
  ∃ o s', (p ← vma_find_contains NIL fuel page virt; deref_area p) s = Ok (o, s') ∧
    Rep NIL fr unlocked k s' page M ∧
    match o with
    | Some v => contains v virt ∧ ∃ a, M !! a = Some v
    | None => ¬ occupied M virt
    end.
Proof.
  intros Hpg HR Hsep Hf. pose proof (find_contains_spec NIL fr k s page M fuel virt Hpg HR Hsep Hf) as Hw.
  apply swp_elim in Hw as (o & s' & Hw & HR' & Ho). exists o, s'. split; [done|]. split; [done|].
  destruct o; [done|]. intros (a & v & HM & Hc). by apply (Ho a v).
Qed.

(** Where the search of a region starts. *)
Definition zone_next (region : Z) (z : virtual_memory_tree) : Z :=
  match active z with [] => region | (_, e) :: _ => e end.

Lemma zone_of_add region r pg z :
  zone_of region pg = Some z →
  zone_of region (if region =? VMA_REGION_A then set_zone_a (push_active (zone_a pg) r) pg
    else if region =? VMA_REGION_B then set_zone_b (push_active (zone_b pg) r) pg
    else if region =? VMA_REGION_C then set_zone_c (push_active (zone_c pg) r) pg
    else if region =? VMA_REGION_KMODULE then set_zone_kmodule (push_active (zone_kmodule pg) r) pg
    else if region =? VMA_REGION_PROCESS then set_zone_process (push_active (zone_process pg) r) pg
    else if region =? USER_MMAP_BASE then set_zone_user_mmap (push_active (zone_user_mmap pg) r) pg
    else pg) = Some (push_active z r).
Proof.
  unfold zone_of. intros Hz. repeat (destruct (region =? _); [by simplify_eq|]). done.
Qed.

Lemma zone_of_lock region l pg : zone_of region (set_lock l pg) = zone_of region pg.
Proof. done. Qed.

Lemma lookup_free_spec k s page M fuel turns region z pg size :
  page ≠ 0 → Rep NIL fr unlocked k s page M → vpages s !! page = Some pg → zone_of region pg = Some z →
  separate M → page_aligned M → 0 < size →
  0 ≤ zone_next region z → (BLOCK_SIZE | zone_next region z) → zone_next region z + BLOCK_SIZE * size < 2 ^ 64 →
  (∀ a v, M !! a = Some v → end_address v + BLOCK_SIZE * size < 2 ^ 64) →
  (2 * Nat.log2 (stdpp.base.size M + 1) < fuel)%nat → (stdpp.base.size M < turns)%nat →
  swp (vma_lookup_free_vaddr NIL turns fuel page region size) s (λ r s',
    Rep NIL fr unlocked k s' page M ∧ zone_next region z ≤ r ∧ (BLOCK_SIZE | r) ∧
    (∀ x, r ≤ x < r + BLOCK_SIZE * size → ¬ occupied M x) ∧
    (∀ r', zone_next region z ≤ r' < r → ∃ x, r' ≤ x < r' + BLOCK_SIZE * size ∧ occupied M x) ∧
    ∃ pg', vpages s' !! page = Some pg' ∧ zone_of region pg' = Some (push_active z (r, r + BLOCK_SIZE * size))).
Proof.
  intros Hpg HR Hp Hz Hsep Hal Hsz Hz0 Hza Hzb He Hf Ht.
  unfold vma_lookup_free_vaddr. rewrite (proj2 (Z.eqb_neq _ _) Hpg). apply swp_bind.
  eapply page_acquire_spec; [exact HR|]. intros s1 HR1 Hpg1. destruct (Hpg1 pg Hp) as (l & Hp1). clear Hpg1 s HR Hp. apply swp_bind.
  eapply page_at_spec; [exact HR1|]. intros q Hq _. simplify_eq. rewrite zone_of_lock, Hz. cbv zeta.
  fold (zone_next region z). apply swp_bind. eapply swp_mono.
  { apply (find_gap_spec NIL fr turns held k s1 page M fuel (zone_next region z) size); try done.
    eapply Nat.le_lt_trans; [|exact Ht]. apply map_subseteq_size, map_filter_subseteq. }
  intros r s2 (-> & Hr & Hra & Hrb & Hfree & Hfirst). apply swp_bind.
  unfold BLOCK_SIZE in *. replace (u64 (r + u64 (4096 * size))) with (r + 4096 * size).
  2: { unfold u64. rewrite (Z.mod_small (4096 * size)) by lia. rewrite Z.mod_small by lia. done. }
  assert (held (lock (set_lock l pg))) as Hl.
  { destruct HR1 as (t & q & _ & _ & Hq & Hl & _). by simplify_eq. }
  unfold vma_tree_add_locked. eapply (upd_page_spec NIL fr held held); [exact HR1|exact Hp1| | |].
  { by repeat (destruct (region =? _); [done|]). }
  { by repeat (destruct (region =? _); [exact Hl|]). }
  intros s3 HR3 Hp3 _. apply swp_bind. eapply page_release_spec; [exact HR3|].
  intros s4 HR4 _ Hp4. destruct (Hp4 _ Hp3) as (l' & Hp5). clear Hp4. apply swp_ret. split_and!; try done. eexists. split; [exact Hp5|].
  rewrite zone_of_lock. apply zone_of_add. by rewrite zone_of_lock.
Qed.

(** C25. [vma_lookup_free_vaddr] on a known region terminates and reserves the
    first place from the end of the last reservation on where [size] pages
    are free: no byte of the range is in an area, every earlier place hits
    one, and the range becomes the head of the region's list. *)
Theorem vma_lookup_free_vaddr_correct k s page M fuel turns region z pg size :
  page ≠ 0 → Rep NIL fr unlocked k s page M → vpages s !! page = Some pg → zone_of region pg = Some z →
  separate M → page_aligned M → 0 < size →
  0 ≤ zone_next region z → (BLOCK_SIZE | zone_next region z) → zone_next region z + BLOCK_SIZE * size < 2 ^ 64 →
  (∀ a v, M !! a = Some v → end_address v + BLOCK_SIZE * size < 2 ^ 64) →
  (2 * Nat.log2 (stdpp.base.size M + 1) < fuel)%nat → (stdpp.base.size M < turns)%nat →
  ∃ r s' pg', vma_lookup_free_vaddr NIL turns fuel page region size s = Ok (r, s') ∧
    Rep NIL fr unlocked k s' page M ∧ zone_next region z ≤ r ∧ (BLOCK_SIZE | r) ∧
    (∀ x, r ≤ x < r + BLOCK_SIZE * size → ¬ occupied M x) ∧
    (∀ r', zone_next region z ≤ r' < r → ∃ x, r' ≤ x < r' + BLOCK_SIZE * size ∧ occupied M x) ∧
    vpages s' !! page = Some pg' ∧ zone_of region pg' = Some (push_active z (r, r + BLOCK_SIZE * size)).
Proof.
  intros Hpg HR Hp Hz Hsep Hal Hsz Hz0 Hza Hzb He Hf Ht.
  pose proof (lookup_free_spec k s page M fuel turns region z pg size Hpg HR Hp Hz Hsep Hal Hsz Hz0 Hza Hzb He Hf Ht) as Hw.
  apply swp_elim in Hw as (r & s' & Hw & H1 & H2 & H3 & H4 & H5 & pg' & H6). exists r, s', pg'. split_and!; try done; apply H6.
Qed.

(** C12. [vma_mmap] puts an address space of present areas of small pages, at
    page boundaries in user memory and over frames below 2^52, into page tables with free windows
    and frames: each byte of each area translates to the byte at the same
    distance from the area's frame range, and user addresses in no area keep
    their translation. *)
Theorem vma_mmap_correct {S} `{!FrameSource S} K k s page M fuel pml4 own (m : machine S) :
  Rep NIL fr unlocked k s page M → separate M → (2 * Nat.log2 (size M + 1) < fuel)%nat →
  (∀ a v, M !! a = Some v → mappable v ∧ area_pages v ≤ K) →
  tables own m pml4 → (5 ≤ nfree (windows m))%nat → 3 * K * Z.of_nat (size M) ≤ fs_avail (msrc m) →
  ∃ m' s', vma_mmap NIL fuel page pml4 m s = Ok (m', s') ∧ Rep NIL fr unlocked k s' page M ∧
    (∃ own', tables own' m' pml4) ∧
    ∀ va, 0 ≤ va < 2 ^ 47 → ∃ p p' m1 m2,
      vaddr_to_paddr m pml4 va = Ok (p, m1) ∧ vaddr_to_paddr m' pml4 va = Ok (p', m2) ∧
      (∀ a v, M !! a = Some v → contains v va → p' = phys_address v + (va - start_address v)) ∧
      (¬ occupied M va → p' = p).
Proof.
  intros HR Hsep Hf Hma Htb Hn Hav.
  pose proof (vma_mmap_spec NIL fr K k s page M fuel pml4 own m HR Hsep Hf Hma Htb Hn Hav) as Hw.
  apply swp_elim in Hw as (m' & s' & Hw & HR' & (own' & Ht') & Hn' & Htr). exists m', s'. split_and!; try done; [eauto|].
  intros va Hva. assert (vpn 1 va ≠ window_vpn) as Hwin by (apply user_not_window; rewrite Z.mod_small by lia; lia).
  destruct (vaddr_to_paddr_spec own m pml4 va Htb Hwin) as (m1 & E1 & _); [lia|].
  destruct (vaddr_to_paddr_spec own' m' pml4 va Ht' Hwin) as (m2 & E2 & _); [lia|].
  destruct (Htr va Hva) as (T & U). eexists _, _, m1, m2. split; [exact E1|]. split; [exact E2|]. done.
Qed.
End thm.

(** ** A concrete address space *)

(** Three areas in the tree [three], with spare objects in the caches. *)
Definition demo_areas : gmap Z virtual_memory :=
  {[ 5 := mkVma 0x100000000 0x100002000 0x8000 0x2000 7 0;
     7 := mkVma 0x100002000 0x100003000 0x5000 0x1000 7 0;
     9 := mkVma 0x100008000 0x100009000 0x20000 0x1000 7 0 ]}.

Definition demo_spares : list (Z * rbt_node) := [(40, spare); (50, spare); (60, spare)].

Definition demo_space : vms :=
  mkVms (list_to_map (cells 1 1 three ++ nil_cell 1 :: demo_spares)) demo_areas
    {[ 0x9000 := mkPage SPINLOCK_INIT empty_zone empty_zone 10 empty_zone empty_zone empty_zone empty_zone ]}
    [40; 50; 60] [11; 12; 13].

Definition demo_map : gmap Z virtual_memory := vmap demo_areas (elems three).

Lemma demo_some : Forall (λ e, is_Some (demo_areas !! e.2)) (elems three).
Proof. repeat constructor; eexists; done. Qed.

Lemma demo_sorted : by_start demo_areas (elems three).
Proof. repeat constructor; simpl; done. Qed.

Lemma demo_rep : Rep 1 [] unlocked 3 demo_space 0x9000 demo_map.
Proof.
  eexists three, _. split; [|by split_and!].
  split.
  - eexists _, demo_spares. split; [done|]. split; [done|]. split; [|split; [done|by exists 1%nat]].
    split; [done|]. split; [by apply (bool_decide_unpack _); vm_compute|].
    intros p n Hp. apply elem_of_list_to_map; [|exact Hp]. by apply (bool_decide_unpack _); vm_compute.
  - apply demo_some.
  - apply demo_sorted.
  - by apply (bool_decide_unpack _); vm_compute.
  - by apply (bool_decide_unpack _); vm_compute.
  - by apply (bool_decide_unpack _); vm_compute.
Qed.

Lemma demo_cases a v :
  demo_map !! a = Some v →
  a = start_address v ∧
  (v = mkVma 0x100000000 0x100002000 0x8000 0x2000 7 0 ∨ v = mkVma 0x100002000 0x100003000 0x5000 0x1000 7 0 ∨
   v = mkVma 0x100008000 0x100009000 0x20000 0x1000 7 0).
Proof.
  unfold demo_map. intros Hm. apply vmap_lookup in Hm as (e & He & Hv & Ha); [|apply demo_some|apply demo_sorted].
  split; [done|]. simpl in He. repeat (apply elem_of_cons in He as [->|He]); [| | |by apply elem_of_nil in He];
    vm_compute in Hv; injection Hv as <-; auto.
Qed.

Lemma demo_separate : separate demo_map.
Proof.
  intros a b v w [-> Hv]%demo_cases [-> Hw]%demo_cases Hab.
  destruct Hv as [->|[->| ->]], Hw as [->|[->| ->]]; simpl in *; lia.
Qed.

Lemma vma_ops_refine_witness :
  ∃ s', vma_runs 1 9 0x9000 [Find 0x100002000; Unregister 0x100002000; Find 0x100002000] demo_space =
      Ok ([Some (mkVma 0x100002000 0x100003000 0x5000 0x1000 7 0); None; None], s') ∧
    Rep 1 [] unlocked 0 s' 0x9000 (delete 0x100002000 demo_map).
Proof.
  apply (vma_ops_refine 1 [] [Find 0x100002000; Unregister 0x100002000; Find 0x100002000] 0 demo_space 0x9000 demo_map 9).
  - done.
  - apply demo_rep.
  - vm_compute. lia.
Defined.

Lemma vma_find_contains_correct_witness :
  ∃ o s', (p ← vma_find_contains 1 9 0x9000 0x100001234; deref_area p) demo_space = Ok (o, s') ∧
    Rep 1 [] unlocked 3 s' 0x9000 demo_map ∧
    match o with
    | Some v => contains v 0x100001234 ∧ ∃ a, demo_map !! a = Some v
    | None => ¬ occupied demo_map 0x100001234
    end.
Proof.
  apply (vma_find_contains_correct 1 [] 3 demo_space 0x9000 demo_map 9 0x100001234).
  - done.
  - apply demo_rep.
  - apply demo_separate.
  - vm_compute. lia.
Defined.

Lemma demo_aligned : page_aligned demo_map.
Proof.
  intros a v [_ Hv]%demo_cases. rewrite <- !Z.mod_divide by done. by destruct Hv as [->|[->| ->]].
Qed.

Lemma vma_lookup_free_vaddr_correct_witness :
  ∃ r s' pg', vma_lookup_free_vaddr 1 9 9 0x9000 USER_MMAP_BASE 3 demo_space = Ok (r, s') ∧
    Rep 1 [] unlocked 3 s' 0x9000 demo_map ∧ 0x100000000 ≤ r ∧ (BLOCK_SIZE | r) ∧
    (∀ x, r ≤ x < r + BLOCK_SIZE * 3 → ¬ occupied demo_map x) ∧
    (∀ r', 0x100000000 ≤ r' < r → ∃ x, r' ≤ x < r' + BLOCK_SIZE * 3 ∧ occupied demo_map x) ∧
    vpages s' !! 0x9000 = Some pg' ∧
    zone_of USER_MMAP_BASE pg' = Some (push_active empty_zone (r, r + BLOCK_SIZE * 3)).
Proof.
  eapply (vma_lookup_free_vaddr_correct 1 [] 3 demo_space 0x9000 demo_map 9 9 USER_MMAP_BASE empty_zone _ 3).
  - done.
  - apply demo_rep.
  - reflexivity.
  - reflexivity.
  - apply demo_separate.
  - apply demo_aligned.
  - done.
  - done.
  - by exists 0x100000.
  - done.
  - intros a v [_ Hv]%demo_cases. by destruct Hv as [->|[->| ->]].
  - vm_compute. lia.
  - vm_compute. lia.
Defined.

Lemma demo_mappable a v : demo_map !! a = Some v → mappable v ∧ area_pages v ≤ 2.
Proof.
  intros [_ Hv]%demo_cases. destruct Hv as [->|[->| ->]]; (split; [split; simpl; (repeat split); lia || done|by vm_compute]).
Qed.

Lemma vma_mmap_correct_witness :
  ∃ m' s', vma_mmap 1 9 0x9000 0x1000 demo_machine demo_space = Ok (m', s') ∧ Rep 1 [] unlocked 3 s' 0x9000 demo_map ∧
    (∃ own', tables own' m' 0x1000) ∧
    ∀ va, 0 ≤ va < 2 ^ 47 → ∃ p p' m1 m2,
      vaddr_to_paddr demo_machine 0x1000 va = Ok (p, m1) ∧ vaddr_to_paddr m' 0x1000 va = Ok (p', m2) ∧
      (∀ a v, demo_map !! a = Some v → contains v va → p' = phys_address v + (va - start_address v)) ∧
      (¬ occupied demo_map va → p' = p).
Proof.
  apply (vma_mmap_correct 1 [] 2 3 demo_space 0x9000 demo_map 9 0x1000 demo_own demo_machine).
  - apply demo_rep.
  - apply demo_separate.
  - vm_compute. lia.
  - apply demo_mappable.
  - apply demo_tables.
  - vm_compute. lia.
  - vm_compute. discriminate.
Defined.
