(* ===== verification/Pipe.v ===== *)
(** * Pipes

    [kernel/sys/syscall/pipe.c]: a ring of 4096 bytes with two free-running
    64-bit counters, and the blocking layer over the scheduler.  A user
    buffer is the list of its bytes. *)

From S2P Require Import Prelude StateM SchedState Sched.

Open Scope sm_scope.

Definition PIPE_MAX_RING_BUFFER : Z := 4096.
Definition EAGAIN : Z := 11.
Definition EINVAL : Z := 22.
Definition EPIPE : Z := 32.
Definition O_NONBLOCK : Z := 2048.

Record pipe_ring := mkRing { buf : list Z; head : Z; tail : Z }.

(** [memcopy] into and out of the ring. *)
Fixpoint copy_in (b : list Z) (off : Z) (bs : list Z) : res (list Z) :=
  match bs with
  | [] => Ok b
  | x :: bs => b ← aset b off x; copy_in b (off + 1) bs
  end.

Fixpoint copy_out (n : nat) (b : list Z) (off : Z) : res (list Z) :=
  match n with
  | O => Ok []
  | Datatypes.S n => x ← aget b off; xs ← copy_out n b (off + 1); Ok (x :: xs)
  end.

(** [offset] and [first_part] of a transfer of [len] bytes at [pos]. *)
Definition split_at (pos len : Z) : Z * Z :=
  let offset := Z.land pos (PIPE_MAX_RING_BUFFER - 1) in
  let first_part := PIPE_MAX_RING_BUFFER - offset in
  (offset, if len <? first_part then len else first_part).

(** The two [memcopy] of a transfer, before and after the end of the ring. *)
Definition ring_copy_in (b : list Z) (pos len : Z) (data : list Z) : res (list Z) :=
  let '(offset, first_part) := split_at pos len in
  b ← copy_in b offset (take (Z.to_nat first_part) data);
  if first_part <? len
  then copy_in b 0 (take (Z.to_nat (len - first_part)) (drop (Z.to_nat first_part) data))
  else Ok b.

Definition ring_copy_out (b : list Z) (pos len : Z) : res (list Z) :=
  let '(offset, first_part) := split_at pos len in
  xs ← copy_out (Z.to_nat first_part) b offset;
  if first_part <? len
  then ys ← copy_out (Z.to_nat (len - first_part)) b 0; Ok (xs ++ ys)
  else Ok xs.

(** Space left for a writer that has loaded [head] and [tail], and bytes
    left for a reader. *)
Definition write_len (h t len : Z) : Z :=
  let avail := u64 (PIPE_MAX_RING_BUFFER - u64 (h - t)) in if avail <? len then avail else len.
Definition read_len (h t len : Z) : Z :=
  let avail := u64 (h - t) in if avail <? len then avail else len.

Definition pipe_ring_write (ring : pipe_ring) (data : list Z) : res (Z * pipe_ring) :=
  let len := write_len (head ring) (tail ring) (Z.of_nat (length data)) in
  if len =? 0 then Ok (0, ring)
  else
    b ← ring_copy_in (buf ring) (head ring) len data;
    Ok (len, mkRing b (u64 (head ring + len)) (tail ring)).

Definition pipe_ring_read (ring : pipe_ring) (len : Z) : res (list Z * pipe_ring) :=
  let len := read_len (head ring) (tail ring) len in
  if len =? 0 then Ok ([], ring)
  else
    xs ← ring_copy_out (buf ring) (tail ring) len;
    Ok (xs, mkRing (buf ring) (head ring) (u64 (tail ring + len))).

(** ** The blocking layer *)

Record internal_pipe := mkPipe {
  ring : pipe_ring; reader_waiter : Z; writer_waiter : Z; reader_count : Z; writer_count : Z }.

Definition set_ring (r : pipe_ring) (p : internal_pipe) : internal_pipe :=
  mkPipe r (reader_waiter p) (writer_waiter p) (reader_count p) (writer_count p).
Definition set_reader_waiter (t : Z) (p : internal_pipe) : internal_pipe :=
  mkPipe (ring p) t (writer_waiter p) (reader_count p) (writer_count p).
Definition set_writer_waiter (t : Z) (p : internal_pipe) : internal_pipe :=
  mkPipe (ring p) (reader_waiter p) t (reader_count p) (writer_count p).
Definition set_reader_count (n : Z) (p : internal_pipe) : internal_pipe :=
  mkPipe (ring p) (reader_waiter p) (writer_waiter p) n (writer_count p).
Definition set_writer_count (n : Z) (p : internal_pipe) : internal_pipe :=
  mkPipe (ring p) (reader_waiter p) (writer_waiter p) (reader_count p) n.

(** A pipe and the scheduler; [None] after [kfree2(internal)], when the
    [private_data] of the descriptor is null. *)
Record pst := mkPst { internal : option internal_pipe; p_ks : ks }.

Definition get_pipe : SM pst internal_pipe := fun s =>
  match internal s with Some p => Ok (p, s) | None => Fault end.
Definition upd_pipe (f : internal_pipe → internal_pipe) : SM pst () := fun s =>
  match internal s with Some p => Ok ((), mkPst (Some (f p)) (p_ks s)) | None => Fault end.
Definition free_pipe : SM pst () := fun s => Ok ((), mkPst None (p_ks s)).
Definition on_ks {A} (m : M A) : SM pst A := fun s =>
  match m (p_ks s) with
  | Ok (a, k) => Ok (a, mkPst (internal s) k)
  | Fault => Fault
  | NoFuel => NoFuel
  end.

Section pipe.
Context `{Platform}.

(** Wake a waiter the pipe remembers and forget it. *)
Definition wake_writer : SM pst () :=
  p ← get_pipe;
  sm_when (negb (writer_waiter p =? 0)) (on_ks (vxThreadWake (writer_waiter p)) ;; upd_pipe (set_writer_waiter 0)).
Definition wake_reader : SM pst () :=
  p ← get_pipe;
  sm_when (negb (reader_waiter p =? 0)) (on_ks (vxThreadWake (reader_waiter p)) ;; upd_pipe (set_reader_waiter 0)).

(** One turn of the loop of [pipe_read] up to where it waits: the bytes and
    the result, or [inr] when the caller has to wait. *)
Definition pipe_read_poll (fl len : Z) : SM pst ((list Z * Z) + ()) :=
  p ← get_pipe;
  '(xs, r) ← sm_lift (pipe_ring_read (ring p) len);
  upd_pipe (set_ring r) ;;
  if negb (Z.of_nat (length xs) =? 0) then
    wake_writer ;;
    mret (inl (xs, Z.of_nat (length xs)))
  else if len =? 0 then mret (inl ([], 0))
  else
    p ← get_pipe;
    if writer_count p =? 0 then mret (inl ([], 0))
    else if negb (Z.land fl O_NONBLOCK =? 0) then mret (inl ([], - EAGAIN))
    else mret (inr ()).

(** The null tests: [fd] is the descriptor of the vnode, as its flags, or null.
    The flags if there is a pipe behind it. *)
Definition private_pipe (fd : option Z) : SM pst (option Z) := fun s =>
  Ok (match fd, internal s with Some fl, Some _ => Some fl | _, _ => None end, s).

Definition pipe_read (fd : option Z) (len : Z) : SM pst ((list Z * Z) + ()) :=
  o ← private_pipe fd;
  match o with
  | None => mret (inl ([], - EINVAL))
  | Some fl => pipe_read_poll fl len
  end.

(** The wait on core [c]: [None] when [thread_block] returns at once. *)
Definition pipe_read_wait (c krsp : Z) : SM pst (option Z) :=
  co ← on_ks (core_at c);
  upd_pipe (set_reader_waiter (co_active_thread co)) ;;
  on_ks (thread_block c krsp).

(** One turn of the loop of [pipe_write] with [written] bytes of [data]
    gone: [inl] the result, [inr (n, wait)] the new count and whether to wait. *)
Definition pipe_write_poll (fl written : Z) (data : list Z) : SM pst (Z + (Z * bool)) :=
  if written <? Z.of_nat (length data) then
    p ← get_pipe;
    '(ret, r) ← sm_lift (pipe_ring_write (ring p) (drop (Z.to_nat written) data));
    upd_pipe (set_ring r) ;;
    if 0 <? ret then
      wake_reader ;;
      mret (inr (written + ret, false))
    else
      p ← get_pipe;
      if reader_count p =? 0 then mret (inl (if 0 <? written then written else - EPIPE))
      else if negb (Z.land fl O_NONBLOCK =? 0) then mret (inl (if 0 <? written then written else - EAGAIN))
      else mret (inr (written, true))
  else mret (inl written).

Definition pipe_write_wait (c krsp : Z) : SM pst (option Z) :=
  co ← on_ks (core_at c);
  upd_pipe (set_writer_waiter (co_active_thread co)) ;;
  on_ks (thread_block c krsp).

(** [pipe_write] until it returns or has to wait: [inr] the count so far. *)
Fixpoint pipe_write_loop (fuel : nat) (fl written : Z) (data : list Z) : SM pst (Z + Z) :=
  match fuel with
  | O => fun _ => NoFuel
  | Datatypes.S fuel =>
      r ← pipe_write_poll fl written data;
      match r with
      | inl z => mret (inl z)
      | inr (n, true) => mret (inr n)
      | inr (n, false) => pipe_write_loop fuel fl n data
      end
  end.

Definition pipe_write (fd : option Z) (data : list Z) : SM pst (Z + Z) :=
  o ← private_pipe fd;
  match o with
  | None => mret (inl (- EINVAL))
  | Some fl =>
      p ← get_pipe;
      if reader_count p =? 0 then mret (inl (- EPIPE))
      else pipe_write_loop (Datatypes.S (Datatypes.S (length data))) fl 0 data
  end.

(** Which end a descriptor is: its [ops]. *)
Inductive pipe_end := ReadEnd | WriteEnd.

(** The result tells whether [private_data] was freed. *)
Definition pipe_close_fd (e : pipe_end) : SM pst bool :=
  (match e with
   | ReadEnd =>
       p ← get_pipe;
       let r := s32 (reader_count p - 1) in
       upd_pipe (set_reader_count r) ;;
       sm_when (r =? 0) wake_writer
   | WriteEnd =>
       p ← get_pipe;
       let w := s32 (writer_count p - 1) in
       upd_pipe (set_writer_count w) ;;
       sm_when (w =? 0) wake_reader
   end) ;;
  p ← get_pipe;
  if (reader_count p =? 0) && (writer_count p =? 0) then
    free_pipe ;;
    mret true
  else mret false.

Definition pipe_dup_fd (e : pipe_end) : SM pst () :=
  p ← get_pipe;
  match e with
  | ReadEnd => upd_pipe (set_reader_count (s32 (reader_count p + 1)))
  | WriteEnd => upd_pipe (set_writer_count (s32 (writer_count p + 1)))
  end.

End pipe.

(** ** The ring as a queue *)

(** [w] are the bytes written so far, the first [t] of which have been read;
    the counters are their lengths modulo 2^64. *)
Record rep (r : pipe_ring) (t : Z) (w : list Z) : Prop := mkRep {
  rep_len : zlen (buf r) = 4096;
  rep_head : head r = u64 (zlen w);
  rep_tail : tail r = u64 t;
  rep_room : 0 ≤ t ≤ zlen w ∧ zlen w ≤ t + 4096;
  rep_bytes : ∀ i, t ≤ i < zlen w → at_ (buf r) (i mod 4096) = at_ w i }.

Lemma ring_mask x : Z.land x 4095 = x mod 4096.
Proof. change 4095 with (Z.ones 12). by rewrite Z.land_ones. Qed.

Lemma u64_mod4096 x : u64 x mod 4096 = x mod 4096.
Proof. unfold u64. dlia. Qed.

Lemma u64_sub x y : u64 (u64 x - u64 y) = u64 (x - y).
Proof. unfold u64. by rewrite Zminus_mod_idemp_l, Zminus_mod_idemp_r. Qed.

Lemma u64_add x y : u64 (u64 x + y) = u64 (x + y).
Proof. unfold u64. by rewrite Zplus_mod_idemp_l. Qed.

Lemma copy_in_ok bs : ∀ b off, 0 ≤ off → off + zlen bs ≤ zlen b →
  ∃ b', copy_in b off bs = Ok b' ∧ zlen b' = zlen b ∧
    ∀ j, 0 ≤ j < zlen b → at_ b' j = if decide (off ≤ j < off + zlen bs) then at_ bs (j - off) else at_ b j.
Proof.
  induction bs as [|x bs IH]; intros b off Ho Hl; simpl.
  - exists b. split_and!; [done..|]. intros j Hj. rewrite decide_False by (simpl; lia). done.
  - simpl in Hl. rewrite aset_ok by lia. simpl.
    destruct (IH (<[Z.to_nat off := x]> b) (off + 1)) as (b' & E & Hl' & Hb'); [lia|rewrite length_insert; lia|].
    rewrite length_insert in Hl', Hb'. exists b'. split_and!; [done..|]. intros j Hj. rewrite Hb' by done.
    rewrite at_insert by lia. rewrite at_cons. simpl. repeat case_decide; try lia; try done.
    f_equal. lia.
Qed.

Lemma copy_out_ok n : ∀ b off, 0 ≤ off → off + Z.of_nat n ≤ zlen b →
  ∃ xs, copy_out n b off = Ok xs ∧ zlen xs = Z.of_nat n ∧
    ∀ j, 0 ≤ j < Z.of_nat n → at_ xs j = at_ b (off + j).
Proof.
  induction n as [|n IH]; intros b off Ho Hl; simpl.
  - exists []. split_and!; [done..|lia].
  - rewrite aget_ok by lia. simpl. destruct (IH b (off + 1)) as (xs & -> & Hx & Hxs); [lia|lia|]. simpl.
    eexists. split; [done|]. split; [simpl; lia|]. intros j Hj. rewrite at_cons. case_decide; [f_equal; lia|].
    rewrite Hxs by lia. f_equal. lia.
Qed.

Lemma split_at_spec pos len :
  0 < len ≤ 4096 →
  let '(off, fp) := split_at pos len in
  off = pos mod 4096 ∧ 0 < fp ≤ len ∧ off + fp ≤ 4096 ∧ (fp < len → off + fp = 4096).
Proof.
  intros Hl. unfold split_at, PIPE_MAX_RING_BUFFER. rewrite ring_mask.
  destruct (Z.ltb_spec len (4096 - pos mod 4096)); dlia.
Qed.

(** Position [j] of the ring belongs to a transfer of [n] bytes at [pos] when
    its distance from [pos] around the ring is less than [n]. *)
Lemma ring_copy_in_spec b pos n data :
  zlen b = 4096 → 0 < n ≤ 4096 → n ≤ zlen data →
  ∃ b', ring_copy_in b pos n data = Ok b' ∧ zlen b' = 4096 ∧
    ∀ j, 0 ≤ j < 4096 → at_ b' j = if decide ((j - pos) mod 4096 < n) then at_ data ((j - pos) mod 4096) else at_ b j.
Proof.
  intros Hb Hn Hd. unfold ring_copy_in. pose proof (split_at_spec pos n Hn) as Hsp.
  destruct (split_at pos n) as [off fp]. destruct Hsp as (Ho & Hfp & Hoff & Hwrap).
  assert (∃ q, pos = 4096 * q + off ∧ 0 ≤ off < 4096) as (q & Hp & Hor).
  { exists (pos / 4096). subst off. pose proof (Z.mod_pos_bound pos 4096). pose proof (Z.div_mod pos 4096). lia. }
  assert (∀ j, 0 ≤ j < 4096 → (j - pos) mod 4096 = if decide (off ≤ j) then j - off else j - off + 4096) as Hdist.
  { intros j Hj. case_decide; symmetry.
    - apply (Z.mod_unique_pos _ _ (- q)); lia.
    - apply (Z.mod_unique_pos _ _ (- q - 1)); lia. }
  clear Ho. destruct (copy_in_ok (take (Z.to_nat fp) data) b off) as (b1 & -> & Hl1 & Hb1); [lia|rewrite length_take; lia|].
  rewrite length_take in Hb1. replace (Z.of_nat (Z.to_nat fp `min` length data)) with fp in Hb1 by lia.
  cbn [mbind res_bind]. destruct (Z.ltb_spec fp n) as [Hlt|Hge].
  - destruct (copy_in_ok (take (Z.to_nat (n - fp)) (drop (Z.to_nat fp) data)) b1 0) as (b2 & E & Hl2 & Hb2);
      [lia|rewrite length_take, length_drop; lia|].
    rewrite length_take, length_drop in Hb2.
    replace (Z.of_nat (Z.to_nat (n - fp) `min` (length data - Z.to_nat fp))) with (n - fp) in Hb2 by lia.
    exists b2. split_and!; [done|lia|]. intros j Hj. rewrite Hb2, Hb1, Hdist by lia. specialize (Hwrap Hlt).
    repeat case_decide; try lia; try done.
    + rewrite at_take, at_drop by lia. f_equal. lia.
    + rewrite at_take by lia. done.
  - exists b1. split_and!; [done|lia|]. intros j Hj. rewrite Hb1, Hdist by lia.
    repeat case_decide; try lia; try done. by rewrite at_take by lia.
Qed.

Lemma ring_copy_out_spec b pos n :
  zlen b = 4096 → 0 < n ≤ 4096 →
  ∃ xs, ring_copy_out b pos n = Ok xs ∧ zlen xs = n ∧
    ∀ k, 0 ≤ k < n → at_ xs k = at_ b ((pos + k) mod 4096).
Proof.
  intros Hb Hn. unfold ring_copy_out. pose proof (split_at_spec pos n Hn) as Hsp.
  destruct (split_at pos n) as [off fp]. destruct Hsp as (Ho & Hfp & Hoff & Hwrap).
  assert (∀ k, 0 ≤ k < n → (pos + k) mod 4096 = if decide (off + k < 4096) then off + k else off + k - 4096) as Hpos.
  { assert (∃ q, pos = 4096 * q + off ∧ 0 ≤ off < 4096) as (q & Hp & Hor).
    { exists (pos / 4096). subst off. pose proof (Z.mod_pos_bound pos 4096). pose proof (Z.div_mod pos 4096). lia. }
    intros k Hk. case_decide; symmetry.
    - apply (Z.mod_unique_pos _ _ q); lia.
    - apply (Z.mod_unique_pos _ _ (q + 1)); lia. }
  assert (0 ≤ off) as Ho0 by (subst off; apply Z.mod_pos_bound; lia). clear Ho.
  destruct (copy_out_ok (Z.to_nat fp) b off) as (xs & -> & Hx & Hxs); [lia|lia|]. cbn [mbind res_bind].
  destruct (Z.ltb_spec fp n) as [Hlt|Hge].
  - destruct (copy_out_ok (Z.to_nat (n - fp)) b 0) as (ys & -> & Hy & Hys); [lia|lia|]. cbn [mbind res_bind].
    exists (xs ++ ys). rewrite length_app. split_and!; [done|lia|]. intros k Hk. rewrite at_app, Hpos by lia. specialize (Hwrap Hlt).
    repeat case_decide; try lia; [rewrite Hxs by lia; done|]. rewrite Hys by lia. f_equal. lia.
  - exists xs. split_and!; [done|lia|]. intros k Hk. rewrite Hpos, Hxs by lia. case_decide; [done|lia].
Qed.

Lemma write_len_spec r t w len :
  rep r t w → write_len (head r) (tail r) len = Z.min len (4096 - (zlen w - t)).
Proof.
  intros [Hl Hh Ht Hroom Hb]. unfold write_len, PIPE_MAX_RING_BUFFER. rewrite Hh, Ht, u64_sub.
  assert (u64 (4096 - u64 (zlen w - t)) = 4096 - (zlen w - t)) as ->.
  { unfold u64. rewrite (Z.mod_small (zlen w - t)) by lia. rewrite Z.mod_small by lia. done. }
  destruct (Z.ltb_spec (4096 - (zlen w - t)) len); lia.
Qed.

(** Writing appends as many bytes as there is room for. *)
Lemma ring_write_spec r t w data :
  rep r t w →
  let n := Z.min (zlen data) (4096 - (zlen w - t)) in
  ∃ r', pipe_ring_write r data = Ok (n, r') ∧ rep r' t (w ++ take (Z.to_nat n) data).
Proof.
  intros Hr n. unfold pipe_ring_write. rewrite (write_len_spec r t w) by done. fold n.
  destruct (Z.eqb_spec n 0) as [Hn|Hn].
  { exists r. split; [by rewrite Hn|]. rewrite Hn. simpl. rewrite app_nil_r. done. }
  destruct Hr as [Hl Hh Ht Hroom Hb]. assert (0 < n ≤ 4096 ∧ n ≤ zlen data ∧ n ≤ 4096 - (zlen w - t)) as (Hn' & Hnd & Hnr) by lia.
  clearbody n. destruct (ring_copy_in_spec (buf r) (head r) n data) as (b' & -> & Hl' & Hb'); [done..|]. simpl.
  eexists. split; [done|]. assert (zlen (w ++ take (Z.to_nat n) data) = zlen w + n) as Hlen.
  { rewrite length_app, length_take. lia. }
  split; simpl; [done| |done|lia|].
  - by rewrite Hlen, Hh, u64_add.
  - intros i Hi. rewrite Hlen in Hi. rewrite Hb' by (apply Z.mod_pos_bound; lia).
    rewrite Hh, <- Zminus_mod_idemp_r, u64_mod4096, Zminus_mod_idemp_r, Zminus_mod_idemp_l.
    rewrite at_app by lia. case_decide as Hc; destruct (decide (i < zlen w)) as [Hiw|Hiw].
    + exfalso. revert Hc. replace ((i - zlen w) mod 4096) with (i - zlen w + 4096); [lia|].
      apply (Z.mod_unique_pos _ _ (-1)); lia.
    + rewrite Z.mod_small by lia. by rewrite at_take by lia.
    + apply Hb. lia.
    + exfalso. apply Hc. rewrite Z.mod_small by lia. lia.
Qed.

(** Reading takes the oldest bytes. *)
Lemma ring_read_spec r t w len :
  rep r t w → 0 ≤ len →
  let n := Z.min len (zlen w - t) in
  ∃ r', pipe_ring_read r len = Ok (take (Z.to_nat n) (drop (Z.to_nat t) w), r') ∧ rep r' (t + n) w.
Proof.
  intros [Hl Hh Ht Hroom Hb] Hlen n. unfold pipe_ring_read, read_len. rewrite Hh, Ht, u64_sub.
  assert (u64 (zlen w - t) = zlen w - t) as -> by (apply Z.mod_small; lia).
  replace (if zlen w - t <? len then zlen w - t else len) with n by (unfold n; destruct (Z.ltb_spec (zlen w - t) len); lia).
  destruct (Z.eqb_spec n 0) as [Hn|Hn].
  { exists r. rewrite Hn. simpl. split; [done|]. by rewrite Z.add_0_r. }
  assert (0 < n ≤ 4096 ∧ n ≤ zlen w - t) as (Hn' & Hnw) by lia. clearbody n.
  destruct (ring_copy_out_spec (buf r) (u64 t) n) as (xs & -> & Hx & Hxs); [done..|]. simpl. eexists. split.
  - do 2 f_equal. apply at_ext; [rewrite length_take, length_drop; lia|].
    intros i Hi. rewrite Hxs by lia. rewrite at_take, at_drop by lia.
    rewrite <- Zplus_mod_idemp_l, u64_mod4096, Zplus_mod_idemp_l. rewrite Hb by lia. f_equal. lia.
  - split; simpl; [done|done|by rewrite u64_add|lia|]. intros i Hi. apply Hb. lia.
Qed.
