(* ===== verification/PipeRace.v ===== *)
(** * One writer and one reader at a pipe ring

    The calls run on different CPUs: their loads, byte copies and the final
    store of the counter interleave. *)

From stdpp Require Import relations.
From S2P Require Import Prelude Pipe.

(** A writer has loaded [head]; has the transfer [data] to copy, [k] bytes of
    it done. *)
Inductive wpc := WIdle | WHead (data : list Z) (h : Z) | WCopy (data : list Z) (h : Z) (k : Z).

(** A reader has loaded [head]; has [n] bytes to copy out, [acc] so far. *)
Inductive rpc := RIdle | RHead (len h : Z) | RCopy (t n : Z) (acc : list Z).

(** [sent] and [received] record what completed calls have taken and given. *)
Record race := mkRace { r_ring : pipe_ring; writer : wpc; reader : rpc; sent : list Z; received : list Z }.

(** Where the [k]-th byte of a transfer of [len] bytes at [pos] is. *)
Definition slot (pos len k : Z) : Z :=
  let '(offset, first_part) := split_at pos len in if k <? first_part then offset + k else k - first_part.

(** The writer's next access; [WIdle] starts a call with [data]. *)
Definition write_step (data : list Z) (s : race) : res race :=
  let r := r_ring s in
  match writer s with
  | WIdle => Ok (mkRace r (WHead data (head r)) (reader s) (sent s) (received s))
  | WHead data h =>
      let len := write_len h (tail r) (Z.of_nat (length data)) in
      Ok (mkRace r (if len =? 0 then WIdle else WCopy (take (Z.to_nat len) data) h 0) (reader s) (sent s) (received s))
  | WCopy data h k =>
      if k <? Z.of_nat (length data) then
        b ← aset (buf r) (slot h (Z.of_nat (length data)) k) (at_ data k);
        Ok (mkRace (mkRing b (head r) (tail r)) (WCopy data h (k + 1)) (reader s) (sent s) (received s))
      else
        Ok (mkRace (mkRing (buf r) (u64 (h + Z.of_nat (length data))) (tail r)) WIdle (reader s) (sent s ++ data) (received s))
  end.

Definition read_step (len : Z) (s : race) : res race :=
  let r := r_ring s in
  match reader s with
  | RIdle => Ok (mkRace r (writer s) (RHead len (head r)) (sent s) (received s))
  | RHead len h =>
      let n := read_len h (tail r) len in
      Ok (mkRace r (writer s) (if n =? 0 then RIdle else RCopy (tail r) n []) (sent s) (received s))
  | RCopy t n acc =>
      if Z.of_nat (length acc) <? n then
        x ← aget (buf r) (slot t n (Z.of_nat (length acc)));
        Ok (mkRace r (writer s) (RCopy t n (acc ++ [x])) (sent s) (received s))
      else
        Ok (mkRace (mkRing (buf r) (head r) (u64 (t + n))) (writer s) RIdle (sent s) (received s ++ acc))
  end.

Inductive race_step (s : race) : race → Prop :=
| step_write data s' : write_step data s = Ok s' → race_step s s'
| step_read len s' : 0 ≤ len → read_step len s = Ok s' → race_step s s'.

Definition race_start : race := mkRace (mkRing (replicate 4096 0) 0 0) WIdle RIdle [] [].

(** ** The invariant *)

Lemma slot_mod pos len k : 0 ≤ k < len → len ≤ 4096 → slot pos len k = (pos + k) mod 4096.
Proof.
  intros Hk Hl. unfold slot. pose proof (split_at_spec pos len ltac:(lia)) as Hsp.
  destruct (split_at pos len) as [off fp]. destruct Hsp as (Ho & Hfp & Hoff & Hwrap).
  pose proof (Z.mod_pos_bound pos 4096). pose proof (Z.div_mod pos 4096).
  destruct (Z.ltb_spec k fp).
  - apply (Z.mod_unique_pos _ _ (pos / 4096)); lia.
  - apply (Z.mod_unique_pos _ _ (pos / 4096 + 1)); lia.
Qed.

(** What is known at each point of the two calls. *)
Definition writer_ok (s : race) : Prop :=
  match writer s with
  | WIdle => True
  | WHead data h => h = u64 (zlen (sent s))
  | WCopy data h k =>
      h = u64 (zlen (sent s)) ∧ 0 ≤ k ≤ zlen data ∧ 0 < zlen data ∧
      zlen (sent s) + zlen data ≤ zlen (received s) + 4096 ∧
      ∀ j, 0 ≤ j < k → at_ (buf (r_ring s)) ((zlen (sent s) + j) mod 4096) = at_ data j
  end.

Definition reader_ok (s : race) : Prop :=
  match reader s with
  | RIdle => True
  | RHead len h => 0 ≤ len ∧ ∃ hl, h = u64 hl ∧ zlen (received s) ≤ hl ≤ zlen (sent s)
  | RCopy t n acc =>
      t = u64 (zlen (received s)) ∧ zlen acc ≤ n ∧ 0 < n ∧ zlen (received s) + n ≤ zlen (sent s) ∧
      ∀ j, 0 ≤ j < zlen acc → at_ acc j = at_ (sent s) (zlen (received s) + j)
  end.

Record race_ok (s : race) : Prop := mkOk {
  ok_rep : rep (r_ring s) (zlen (received s)) (sent s);
  ok_prefix : received s = take (length (received s)) (sent s);
  ok_writer : writer_ok s;
  ok_reader : reader_ok s }.

(** Two positions of the ring are equal only when a multiple of 4096 apart. *)
Lemma mod4096_ne x y : 0 < x - y < 4096 → x mod 4096 ≠ y mod 4096.
Proof. intros Hd He. pose proof (Z.div_mod x 4096). pose proof (Z.div_mod y 4096). lia. Qed.

Lemma u64_pos x k : (u64 x + k) mod 4096 = (x + k) mod 4096.
Proof. by rewrite <- Zplus_mod_idemp_l, u64_mod4096, Zplus_mod_idemp_l. Qed.

Lemma write_step_ok data s : race_ok s → ∃ s', write_step data s = Ok s' ∧ race_ok s'.
Proof.
  destruct s as [r w rd sn rc]. intros [Hrep Hpre Hw Hr]. unfold write_step. simpl in *.
  destruct w as [|d h|d h k]; unfold writer_ok in Hw; simpl in Hw.
  - eexists. split; [done|]. split; [done|done| |done]. apply Hrep.
  - eexists. split; [done|]. split; [done|done| |done]. subst h.
    rewrite <- (rep_head _ _ _ Hrep), (write_len_spec _ _ _ _ Hrep). unfold writer_ok. simpl.
    destruct (Z.eqb_spec (Z.min (zlen d) (4096 - (zlen sn - zlen rc))) 0) as [Hz|Hz]; [done|].
    rewrite length_take. pose proof (rep_room _ _ _ Hrep). split_and!; [by apply Hrep|lia|lia|lia|lia|]. intros. lia.
  - destruct Hw as (-> & Hk & Hd & Hroom & Hb). destruct Hrep as [Hl Hh Ht Hrm Hby].
    destruct (Z.ltb_spec k (zlen d)) as [Hlt|Hge].
    + rewrite slot_mod, u64_pos by lia. pose proof (Z.mod_pos_bound (zlen sn + k) 4096 ltac:(lia)).
      rewrite aset_ok by lia. eexists. split; [done|].
      assert (∀ i, zlen rc ≤ i < zlen sn + k →
        at_ (<[Z.to_nat ((zlen sn + k) mod 4096) := at_ d k]> (buf r)) (i mod 4096) = at_ (buf r) (i mod 4096)) as Hsame.
      { intros i Hi. pose proof (Z.mod_pos_bound i 4096 ltac:(lia)). rewrite at_insert by lia.
        rewrite decide_False; [done|]. apply mod4096_ne. lia. }
      split; simpl.
      * split; simpl; [by rewrite length_insert|done|done|done|]. intros i Hi. rewrite Hsame by lia. by apply Hby.
      * done.
      * unfold writer_ok. simpl. split_and!; [done|lia|lia|lia|lia|]. intros j Hj.
        destruct (decide (j = k)) as [->|Hjk].
        -- rewrite at_insert by lia. by rewrite decide_True.
        -- rewrite Hsame by lia. apply Hb. lia.
      * done.
    + assert (k = zlen d) as -> by lia. eexists. split; [done|].
      split; simpl.
      * split; simpl; rewrite ?length_app; [done| |done|lia|].
        -- by rewrite u64_add, Nat2Z.inj_add.
        -- intros i Hi. rewrite at_app by lia. case_decide; [apply Hby; lia|].
           rewrite <- (Hb (i - zlen sn)) by lia. do 2 f_equal. lia.
      * rewrite take_app_le by lia. done.
      * done.
      * destruct rd as [|len h|t n acc]; unfold reader_ok in *; simpl in *; [done| |].
        -- destruct Hr as (Hlen & hl & -> & Hhl). split; [done|]. exists hl. rewrite length_app. split; [done|lia].
        -- destruct Hr as (-> & Hn & Hn0 & Hs & Ha). rewrite length_app. split_and!; [done..|lia|].
           intros j Hj. rewrite at_app by lia. rewrite decide_True by lia. by apply Ha.
Qed.

Lemma read_step_ok len s : 0 ≤ len → race_ok s → ∃ s', read_step len s = Ok s' ∧ race_ok s'.
Proof.
  intros Hlen. destruct s as [r w rd sn rc]. intros [Hrep Hpre Hw Hr]. unfold read_step. simpl in *.
  pose proof Hrep as [Hl Hh Ht Hrm Hby].
  destruct rd as [|ln h|t n acc]; unfold reader_ok in Hr; simpl in Hr.
  - eexists. split; [done|]. split; [done|done|done|]. split; [done|]. exists (zlen sn). simpl. split; [done|lia].
  - destruct Hr as (Hln & hl & -> & Hhl). eexists. split; [done|]. split; [done|done|done|]. unfold reader_ok. simpl.
    assert (read_len (u64 hl) (tail r) ln = Z.min ln (hl - zlen rc)) as ->.
    { unfold read_len. rewrite Ht, u64_sub. assert (u64 (hl - zlen rc) = hl - zlen rc) as -> by (apply Z.mod_small; lia).
      destruct (Z.ltb_spec (hl - zlen rc) ln); lia. }
    destruct (Z.eqb_spec (Z.min ln (hl - zlen rc)) 0) as [Hz|Hz]; [done|].
    simpl. split_and!; [done|lia|lia|lia|]. intros. lia.
  - destruct Hr as (-> & Hn & Hn0 & Hs & Ha). destruct (Z.ltb_spec (zlen acc) n) as [Hlt|Hge].
    + rewrite slot_mod, u64_pos by lia. pose proof (Z.mod_pos_bound (zlen rc + zlen acc) 4096 ltac:(lia)).
      rewrite aget_ok by lia. eexists. split; [done|]. split; [done|done|done|].
      unfold reader_ok. simpl. rewrite length_app. simpl. split_and!; [done|lia|done|done|].
      intros j Hj. rewrite at_app by lia. case_decide; [apply Ha; lia|].
      rewrite at_cons, decide_True by lia. replace j with (zlen acc) by lia. apply Hby. lia.
    + assert (n = zlen acc) as -> by lia. eexists. split; [done|].
      split; simpl.
      * split; simpl; rewrite ?length_app; [done|done| |lia|].
        -- by rewrite u64_add, Nat2Z.inj_add.
        -- intros i Hi. apply Hby. lia.
      * rewrite length_app. apply at_ext; [rewrite length_app, length_take; lia|].
        rewrite length_app. intros i Hi. rewrite at_take, at_app by lia. case_decide; [|rewrite Ha by lia; f_equal; lia].
        rewrite Hpre at 1. rewrite at_take by lia. done.
      * destruct w as [|d h|d h k]; unfold writer_ok in *; simpl in *; [done|done|].
        rewrite length_app. destruct Hw as (-> & Hk & Hd & Hroom & Hb). split_and!; [done|lia|lia|lia|lia|]. done.
      * done.
Qed.

Lemma race_start_ok : race_ok race_start.
Proof. split; [|done|done|done]. split; simpl; [done|done|done|lia|lia]. Qed.

Lemma race_steps_ok s s' : rtc race_step s s' → race_ok s → race_ok s'.
Proof.
  induction 1 as [|s s1 s' Hs _ IH]; [done|]. intros Hok. apply IH. destruct Hs as [data s1 E|len s1 Hlen E].
  - destruct (write_step_ok data s Hok) as (s2 & E2 & Hok2). by rewrite E in E2; simplify_eq.
  - destruct (read_step_ok len s Hlen Hok) as (s2 & E2 & Hok2). by rewrite E in E2; simplify_eq.
Qed.

(** A run as a list of choices: a step of the writer or of the reader. *)
Fixpoint race_run (l : list (list Z + Z)) (s : race) : res race :=
  match l with
  | [] => Ok s
  | inl data :: l => s ← write_step data s; race_run l s
  | inr len :: l => s ← read_step len s; race_run l s
  end.

Lemma race_run_steps l : ∀ s s', Forall (λ c, match c with inr len => 0 ≤ len | _ => True end) l →
  race_run l s = Ok s' → rtc race_step s s'.
Proof.
  induction l as [|c l IH]; intros s s' Hl E; [simpl in E; by simplify_eq|].
  apply Forall_cons in Hl as (Hc & Hl). destruct c as [data|len]; simpl in E.
  - destruct (write_step data s) as [s1| |] eqn:E1; [|done..]. eapply rtc_l; [by eapply step_write|]. by apply IH.
  - destruct (read_step len s) as [s1| |] eqn:E1; [|done..]. eapply rtc_l; [by eapply step_read|]. by apply IH.
Qed.

(** C22. However the accesses of one writer and one reader of a pipe
    interleave, what the reader has received is a prefix of what the writer
    has sent, in order; the rest, at most 4096 bytes, is in the ring at the
    places its counters name; neither side ever accesses the ring out of
    bounds.  The counters may wrap. *)
Theorem pipe_ring_spsc_fifo s :
  rtc race_step race_start s →
  received s `prefix_of` sent s ∧ zlen (sent s) ≤ zlen (received s) + 4096 ∧
  rep (r_ring s) (zlen (received s)) (sent s) ∧
  (∀ data, ∃ s', write_step data s = Ok s') ∧ (∀ len, 0 ≤ len → ∃ s', read_step len s = Ok s').
Proof.
  intros Hr. pose proof (race_steps_ok _ _ Hr race_start_ok) as Hok. split_and!.
  - rewrite (ok_prefix _ Hok). exists (drop (length (received s)) (sent s)). by rewrite take_drop.
  - apply (rep_room _ _ _ (ok_rep _ Hok)).
  - apply (ok_rep _ Hok).
  - intros data. destruct (write_step_ok data s Hok) as (s' & E & _). eauto.
  - intros len Hlen. destruct (read_step_ok len s Hlen Hok) as (s' & E & _). eauto.
Qed.

(** Two bytes are sent; the reader starts in the middle and gets them. *)
Lemma pipe_ring_spsc_fifo_witness :
  ∃ s, race_run [inl [7; 9]; inr 5; inr 5; inl []; inl []; inl []; inl []; inr 5; inr 5; inr 5; inr 5; inr 5] race_start = Ok s ∧
    received s = [7; 9] ∧ received s `prefix_of` sent s ∧ zlen (sent s) ≤ zlen (received s) + 4096 ∧
    rep (r_ring s) (zlen (received s)) (sent s) ∧
    (∀ data, ∃ s', write_step data s = Ok s') ∧ (∀ len, 0 ≤ len → ∃ s', read_step len s = Ok s').
Proof.
  destruct (race_run [inl [7; 9]; inr 5; inr 5; inl []; inl []; inl []; inl []; inr 5; inr 5; inr 5; inr 5; inr 5] race_start)
    as [s| |] eqn:E; [|by vm_compute in E..].
  exists s. split; [done|]. split; [vm_compute in E; by simplify_eq|]. apply pipe_ring_spsc_fifo.
  eapply race_run_steps; [|exact E]. repeat constructor; lia.
Defined.
