(* ===== verification/PipeThm.v ===== *)
(** * Properties of pipes *)

From S2P Require Import Prelude StateM SchedState Sched SchedProps Pipe.

Open Scope sm_scope.

Section wake.
Context `{Platform}.

(** [vxThreadWake] leaves a thread with its wake flag set and not blocked. *)
Lemma vxThreadWake_spec t x k :
  t ≠ 0 → k_threads k !! t = Some x →
  ∃ x', vxThreadWake t k = Ok ((), set_k_threads (<[t := x']> (k_threads k)) k) ∧
    t_wake_pending x' = true ∧ t_state x' ≠ THREAD_STATE_BLOCKED.
Proof.
  intros Ht Hx. unfold vxThreadWake. rewrite (proj2 (Z.eqb_neq _ _) Ht).
  unfold set_thread, thread_at, when, mbind, M_bind. rewrite Hx. simpl. rewrite lookup_insert_eq. simpl.
  destruct (Z.eqb_spec (t_state x) THREAD_STATE_BLOCKED) as [He|Hne].
  - simpl. rewrite lookup_insert_eq. unfold set_k_threads. simpl. rewrite insert_insert_eq. eexists. split; [done|]. by destruct x.
  - eexists. split; [done|]. by destruct x.
Qed.

(** A waiter the pipe may remember. *)
Definition waiter_ok (k : ks) (t : Z) : Prop := t = 0 ∨ is_Some (k_threads k !! t).

Definition woken (k : ks) (t : Z) : Prop :=
  ∃ x, k_threads k !! t = Some x ∧ t_wake_pending x = true ∧ t_state x ≠ THREAD_STATE_BLOCKED.

Lemma wake_reader_spec s p :
  internal s = Some p → waiter_ok (p_ks s) (reader_waiter p) →
  swp wake_reader s (λ _ s', internal s' = Some (set_reader_waiter 0 p) ∧
    (reader_waiter p ≠ 0 → woken (p_ks s') (reader_waiter p))).
Proof.
  intros Hp Hw. unfold wake_reader. apply swp_bind. unfold get_pipe, swp at 1. rewrite Hp. unfold sm_when.
  destruct (Z.eqb_spec (reader_waiter p) 0) as [Hz|Hz]; simpl.
  - split; [|done]. rewrite Hp. f_equal. destruct p; simpl in *. by subst.
  - destruct Hw as [?|(x & Hx)]; [done|]. destruct (vxThreadWake_spec _ x _ Hz Hx) as (x' & E & Hx1 & Hx2).
    unfold swp, mbind, SM_bind, on_ks. rewrite E. simpl. unfold upd_pipe. simpl. rewrite Hp. simpl. split; [done|].
    intros _. exists x'. simpl. by rewrite lookup_insert_eq.
Qed.

Lemma wake_writer_spec s p :
  internal s = Some p → waiter_ok (p_ks s) (writer_waiter p) →
  swp wake_writer s (λ _ s', internal s' = Some (set_writer_waiter 0 p) ∧
    (writer_waiter p ≠ 0 → woken (p_ks s') (writer_waiter p))).
Proof.
  intros Hp Hw. unfold wake_writer. apply swp_bind. unfold get_pipe, swp at 1. rewrite Hp. unfold sm_when.
  destruct (Z.eqb_spec (writer_waiter p) 0) as [Hz|Hz]; simpl.
  - split; [|done]. rewrite Hp. f_equal. destruct p; simpl in *. by subst.
  - destruct Hw as [?|(x & Hx)]; [done|]. destruct (vxThreadWake_spec _ x _ Hz Hx) as (x' & E & Hx1 & Hx2).
    unfold swp, mbind, SM_bind, on_ks. rewrite E. simpl. unfold upd_pipe. simpl. rewrite Hp. simpl. split; [done|].
    intros _. exists x'. simpl. by rewrite lookup_insert_eq.
Qed.

Lemma get_pipe_spec s p (Q : internal_pipe → pst → Prop) : internal s = Some p → Q p s → swp get_pipe s Q.
Proof. unfold get_pipe, swp. by intros ->. Qed.

Lemma upd_pipe_spec s p f (Q : () → pst → Prop) :
  internal s = Some p → Q () (mkPst (Some (f p)) (p_ks s)) → swp (upd_pipe f) s Q.
Proof. unfold upd_pipe, swp. by intros ->. Qed.

(** One turn of the write loop with [d] left to write. *)
Lemma write_poll_spec fl written data s p t w :
  internal s = Some p → rep (ring p) t w → waiter_ok (p_ks s) (reader_waiter p) → 0 ≤ written < zlen data →
  let room := 4096 - (zlen w - t) in
  let n := Z.min (zlen data - written) room in
  swp (pipe_write_poll fl written data) s (λ o s', ∃ r', rep r' t (w ++ take (Z.to_nat n) (drop (Z.to_nat written) data)) ∧
    if decide (n = 0) then
      internal s' = Some (set_ring r' p) ∧ p_ks s' = p_ks s ∧
      o = if reader_count p =? 0 then inl (if 0 <? written then written else - EPIPE)
          else if negb (Z.land fl O_NONBLOCK =? 0) then inl (if 0 <? written then written else - EAGAIN)
          else inr (written, true)
    else
      internal s' = Some (set_reader_waiter 0 (set_ring r' p)) ∧ o = inr (written + n, false) ∧
      (reader_waiter p ≠ 0 → woken (p_ks s') (reader_waiter p))).
Proof.
  intros Hp Hr Hw Hwr room n. unfold pipe_write_poll. rewrite (proj2 (Z.ltb_lt _ _)) by lia.
  apply swp_bind. eapply get_pipe_spec; [done|].
  destruct (ring_write_spec (ring p) t w (drop (Z.to_nat written) data) Hr) as (r' & E & Hr').
  rewrite length_drop in E, Hr'. replace (Z.min _ _) with n in E, Hr' by lia.
  apply swp_bind, (swp_lift _ (n, r')); [done|]. apply swp_bind. eapply upd_pipe_spec; [done|].
  assert (0 ≤ n) as Hn0 by (pose proof (rep_room _ _ _ Hr); lia). clearbody n. clear E. case_decide as Hn.
  - subst n. simpl. apply swp_bind. eapply get_pipe_spec; [done|]. simpl.
    apply swp_if; intros H1; [|apply swp_if; intros H2]; apply swp_ret; exists r'; rewrite H1, ?H2; done.
  - rewrite (proj2 (Z.ltb_lt 0 n)) by lia. apply swp_bind.
    eapply swp_mono; [by apply (wake_reader_spec _ (set_ring r' p))|]. intros [] s' (Hs' & Hwk). apply swp_ret.
    exists r'. done.
Qed.

(** C34. [pipe_write] on a pipe without readers answers -EPIPE and changes
    nothing. Otherwise it accepts the longest prefix of the data that the ring
    has room for, behind everything written before, and wakes a waiting reader
    if it accepted anything.  It returns the length when all fits; otherwise
    it goes to sleep with the count so far, or returns it (or -EAGAIN) on a
    non-blocking descriptor. A vnode without a descriptor, or a descriptor
    whose pipe is gone, gives -EINVAL. *)
Theorem pipe_write_correct fl data s p t w :
  internal s = Some p → rep (ring p) t w → waiter_ok (p_ks s) (reader_waiter p) →
  let room := 4096 - (zlen w - t) in
  let n := if reader_count p =? 0 then 0 else Z.min (zlen data) room in
  (∃ s' p', pipe_write (Some fl) data s = Ok (
      if reader_count p =? 0 then inl (- EPIPE)
      else if zlen data <=? room then inl (zlen data)
      else if negb (Z.land fl O_NONBLOCK =? 0) then inl (if 0 <? room then room else - EAGAIN)
      else inr room, s') ∧
    internal s' = Some p' ∧ rep (ring p') t (w ++ take (Z.to_nat n) data) ∧ (reader_count p = 0 → s' = s) ∧
    (n = 0 ∨ reader_waiter p' = 0 ∧ (reader_waiter p ≠ 0 → woken (p_ks s') (reader_waiter p)))) ∧
  pipe_write None data s = Ok (inl (- EINVAL), s) ∧
  pipe_write (Some fl) data (mkPst None (p_ks s)) = Ok (inl (- EINVAL), mkPst None (p_ks s)).
Proof.
  intros Hp Hr Hw room n. pose proof (rep_room _ _ _ Hr) as Hroom. split; [|done].
  unfold pipe_write, mbind, SM_bind, private_pipe, get_pipe. rewrite Hp. cbv iota. rewrite Hp.
  destruct (Z.eqb_spec (reader_count p) 0) as [Hz|Hrc].
  { exists s, p. unfold n. rewrite take_0, app_nil_r. split_and!; auto. }
  assert (reader_count p = 0 → ∀ s' : pst, s' = s) as Hnever by done.
  cbn [pipe_write_loop]. unfold mbind at 1, SM_bind at 1.
  destruct (decide (zlen data = 0)) as [Hd|Hd].
  { destruct data; [|simpl in Hd; lia]. unfold pipe_write_poll. simpl. exists s, p.
    rewrite (proj2 (Z.leb_le _ _)) by lia. unfold n. simpl. rewrite take_nil, app_nil_r. split_and!; try done. left. lia. }
  pose proof (write_poll_spec fl 0 data s p t w Hp Hr Hw ltac:(lia)) as Hp1. cbv zeta in Hp1.
  rewrite drop_0, Z.sub_0_r in Hp1. fold room n in Hp1.
  apply swp_elim in Hp1 as (o & s1 & -> & r1 & Hr1 & Hc). case_decide as Hn.
  { destruct Hc as (Hs1 & _ & ->). rewrite (proj2 (Z.eqb_neq (reader_count p) 0) Hrc). exists s1, (set_ring r1 p).
    rewrite (proj2 (Z.leb_gt _ _)) by lia. rewrite (proj2 (Z.ltb_ge 0 room)) by lia.
    assert (room = 0) as Hroom0 by lia. destruct (negb _); simpl; rewrite ?Hroom0; split_and!; auto. }
  destruct Hc as (Hs1 & -> & Hwk). rewrite Z.add_0_l. cbv iota. unfold mbind, SM_bind.
  destruct (Z.leb_spec (zlen data) room) as [Hle|Hgt].
  - assert (n = zlen data) as Hnd by lia.
    unfold pipe_write_poll. rewrite Hnd, Z.ltb_irrefl. exists s1, (set_reader_waiter 0 (set_ring r1 p)).
    rewrite Hnd in Hr1. split_and!; auto.
  - assert (n = room) as Hnr by lia.
    pose proof (write_poll_spec fl n data s1 (set_reader_waiter 0 (set_ring r1 p)) t (w ++ take (Z.to_nat n) data)
      Hs1 Hr1 (or_introl eq_refl) ltac:(lia)) as Hp2. cbv zeta in Hp2.
    rewrite length_app, length_take in Hp2.
    replace (Z.min (zlen data - n) _) with 0 in Hp2 by lia. simpl in Hp2. rewrite app_nil_r in Hp2.
    apply swp_elim in Hp2 as (o & s2 & -> & r2 & Hr2 & Hs2 & Hk2 & ->).
    rewrite (proj2 (Z.eqb_neq (reader_count p) 0) Hrc), (proj2 (Z.ltb_lt 0 n)), (proj2 (Z.ltb_lt 0 room)) by lia.
    exists s2, (set_ring r2 (set_reader_waiter 0 (set_ring r1 p))). rewrite Hk2, <- Hnr.
    destruct (negb _); split_and!; auto.
Qed.

(** C35. A turn of [pipe_read] gives the oldest unread bytes, at most the
    number asked for, and wakes a waiting writer; on an empty pipe it
    returns 0 at the end of the stream, -EAGAIN on a non-blocking descriptor,
    and otherwise the reader has to wait. *)
Theorem pipe_read_correct fl len s p t w :
  internal s = Some p → rep (ring p) t w → 0 ≤ len → waiter_ok (p_ks s) (writer_waiter p) →
  let n := Z.min len (zlen w - t) in
  ∃ s' p', pipe_read_poll fl len s = Ok (
      if 0 <? n then inl (take (Z.to_nat n) (drop (Z.to_nat t) w), n)
      else if (len =? 0) || (writer_count p =? 0) then inl ([], 0)
      else if negb (Z.land fl O_NONBLOCK =? 0) then inl ([], - EAGAIN)
      else inr (), s') ∧
    internal s' = Some p' ∧ rep (ring p') (t + n) w ∧
    (n = 0 ∨ writer_waiter p' = 0 ∧ (writer_waiter p ≠ 0 → woken (p_ks s') (writer_waiter p))).
Proof.
  intros Hp Hr Hlen Hw n. pose proof (rep_room _ _ _ Hr) as Hroom.
  destruct (ring_read_spec (ring p) t w len Hr Hlen) as (r' & E & Hr'). fold n in E, Hr'.
  assert (zlen (take (Z.to_nat n) (drop (Z.to_nat t) w)) = n) as Hln by (rewrite length_take, length_drop; lia).
  unfold pipe_read_poll, mbind, SM_bind, get_pipe, sm_lift, upd_pipe. rewrite Hp. simpl. rewrite E, Hp. simpl. rewrite Hln.
  destruct (Z.ltb_spec 0 n) as [Hn|Hn].
  - rewrite (proj2 (Z.eqb_neq n 0)) by lia. simpl.
    pose proof (wake_writer_spec (mkPst (Some (set_ring r' p)) (p_ks s)) (set_ring r' p) eq_refl Hw) as Hwk.
    apply swp_elim in Hwk as ([] & s' & -> & Hs' & Hk). exists s', (set_writer_waiter 0 (set_ring r' p)). split_and!; auto.
  - assert (n = 0) as Hn0 by lia. rewrite (proj2 (Z.eqb_eq n 0)) by lia. simpl.
    exists (mkPst (Some (set_ring r' p)) (p_ks s)), (set_ring r' p). split_and!; auto.
    destruct (len =? 0); [done|]. simpl. destruct (writer_count p =? 0); [done|]. by destruct (negb _).
Qed.
End wake.

(** ** A concrete pipe *)

#[local] Existing Instance demo_platform.

(** An empty pipe; thread 1 is active on core 0, in state [st]. *)
Definition demo_pipe (rw ww st : Z) : pst :=
  mkPst (Some (mkPipe (mkRing (replicate 4096 0) 0 0) rw ww 1 1))
    (duo (demo_thread st 0x100) (demo_thread THREAD_STATE_BLOCKED 0x200) 0x100).

Lemma empty_rep : rep (mkRing (replicate 4096 0) 0 0) 0 [].
Proof. split; simpl; [done|done|done|lia|lia]. Qed.

(** The same pipe when the reader is gone. *)
Definition demo_broken : pst :=
  mkPst (Some (mkPipe (mkRing (replicate 4096 0) 0 0) 0 0 0 1)) (p_ks (demo_pipe 0 0 THREAD_STATE_RUNNING)).

Lemma pipe_write_correct_witness :
  (∃ s' p', pipe_write (Some 0) [7; 8; 9] (demo_pipe 2 0 THREAD_STATE_RUNNING) = Ok (inl 3, s') ∧
    internal s' = Some p' ∧ rep (ring p') 0 [7; 8; 9] ∧
    (3 = 0 ∨ reader_waiter p' = 0 ∧ (2 ≠ 0 → woken (p_ks s') 2))) ∧
  ∃ s', pipe_write (Some 0) [7; 8; 9] demo_broken = Ok (inl (- EPIPE), s') ∧ s' = demo_broken.
Proof.
  split.
  - destruct (pipe_write_correct 0 [7; 8; 9] (demo_pipe 2 0 THREAD_STATE_RUNNING) _ 0 [] eq_refl) as ((s' & p' & E & Hp & Hr & _ & Hw) & _).
    + apply empty_rep.
    + right. by eexists.
    + exists s', p'. split; [exact E|]. split; [exact Hp|]. split; [exact Hr|exact Hw].
  - destruct (pipe_write_correct 0 [7; 8; 9] demo_broken _ 0 [] eq_refl) as ((s' & p' & E & _ & _ & Hs & _) & _).
    + apply empty_rep.
    + by left.
    + exists s'. split; [exact E|by apply Hs].
Defined.

Lemma pipe_read_correct_witness :
  ∃ s' p', pipe_read_poll 0 16 (demo_pipe 0 2 THREAD_STATE_RUNNING) = Ok (inr (), s') ∧
    internal s' = Some p' ∧ rep (ring p') 0 [] ∧
    (0 = 0 ∨ writer_waiter p' = 0 ∧ (2 ≠ 0 → woken (p_ks s') 2)).
Proof.
  apply (pipe_read_correct 0 16 (demo_pipe 0 2 THREAD_STATE_RUNNING) _ 0 [] eq_refl).
  - apply empty_rep.
  - done.
  - right. by eexists.
Defined.

(** A reader of 16 bytes finds the pipe empty, a writer writes, the reader
    goes on to wait: the bytes in the ring and the reader's thread. *)
Definition late_reader : SM pst (Z * thread) :=
  o ← pipe_read (Some 0) 16;
  match o with
  | inl _ => sm_lift Fault
  | inr () =>
      n ← pipe_write (Some 0) [7; 8; 9];
      w ← pipe_read_wait 0 0x7000;
      p ← get_pipe;
      x ← on_ks (thread_at 1);
      mret (head (ring p) - tail (ring p), x)
  end.

(** Data that arrive before the reader stores itself as the waiter go
    unnoticed: it blocks with no wake pending and three bytes to read. *)
Example pipe_read_misses_write :
  match late_reader (demo_pipe 0 0 THREAD_STATE_RUNNING) with
  | Ok ((n, x), _) => n = 3 ∧ t_state x = THREAD_STATE_BLOCKED ∧ t_wake_pending x = false
  | _ => False
  end.
Proof. vm_compute. done. Qed.
