(* ===== verification/Futex.v ===== *)
(** * Futexes

    [kernel/sys/syscall/futex.c]: a table of 1024 waiters under one lock.
    [FUTEX_WAIT] is modelled in the parts the context switch divides it
    into: queueing, blocking, and what runs after the thread resumes. *)

From S2P Require Import Prelude StateM Spinlock SchedState Sched.

Open Scope sm_scope.

Definition FUTEX_WAIT : Z := 0.
Definition FUTEX_WAKE : Z := 1.
Definition FUTEX_REQUEUE : Z := 3.
Definition FUTEX_CMP_REQUEUE : Z := 4.
Definition FUTEX_PRIVATE_FLAG : Z := 128.
Definition MAX_FUTEX : nat := 1024.

Definition FE_AGAIN : Z := 11.
Definition FE_NOMEM : Z := 12.
Definition FE_NOSYS : Z := 38.
Definition FE_TIMEDOUT : Z := 110.

Record futex_waiter := mkWaiter { fw_uaddr : Z; fw_thread : Z }.

#[global] Instance futex_waiter_inhabited : Inhabited futex_waiter := populate (mkWaiter 0 0).

(** The table, its lock, the scheduler, and the user memory the call reads:
    integers and time specifications by address. *)
Record fst_ := mkFst {
  futex_queue : list futex_waiter; futex_lock : spinlock; f_ks : ks;
  user_int : gmap Z Z; user_time : gmap Z (Z * Z) }.

Definition set_queue (q : list futex_waiter) : SM fst_ () := fun s =>
  Ok ((), mkFst q (futex_lock s) (f_ks s) (user_int s) (user_time s)).
Definition get_queue : SM fst_ (list futex_waiter) := fun s => Ok (futex_queue s, s).
Definition int_at (p : Z) : SM fst_ Z := fun s => match user_int s !! p with Some x => Ok (x, s) | None => Fault end.
Definition time_at (p : Z) : SM fst_ (Z * Z) := fun s =>
  match user_time s !! p with Some x => Ok (x, s) | None => Fault end.
Definition on_ks {A} (m : M A) : SM fst_ A := fun s =>
  match m (f_ks s) with
  | Ok (a, k) => Ok (a, mkFst (futex_queue s) (futex_lock s) k (user_int s) (user_time s))
  | Fault => Fault
  | NoFuel => NoFuel
  end.
Definition set_futex_lock (l : spinlock) : SM fst_ () := fun s =>
  Ok ((), mkFst (futex_queue s) l (f_ks s) (user_int s) (user_time s)).
Definition futex_acquire : SM fst_ () := fun s =>
  match spin_acquire (futex_lock s) with
  | Ok l => set_futex_lock l s
  | Fault => Fault
  | NoFuel => NoFuel
  end.
Definition futex_release : SM fst_ () := fun s => set_futex_lock (spin_release (futex_lock s)) s.

(** [futex_queue[i]]. *)
Definition waiter_at (i : Z) : SM fst_ futex_waiter := q ← get_queue; sm_lift (aget q i).
Definition set_waiter (i : Z) (w : futex_waiter) : SM fst_ () := q ← get_queue; q ← sm_lift (aset q i w); set_queue q.

(** The first slot from [i] on, of [n], that thread [thr] has. *)
Fixpoint find_slot (n : nat) (i thr : Z) : SM fst_ (option Z) :=
  match n with
  | O => mret None
  | Datatypes.S n =>
      w ← waiter_at i;
      if fw_thread w =? thr then mret (Some i) else find_slot n (i + 1) thr
  end.

Section futex.
Context `{Platform}.

(** [FUTEX_WAIT] up to the release of the lock: an error, or the slot. *)
Definition futex_wait_queue (thr addr val : Z) : SM fst_ (Z + Z) :=
  on_ks (set_thread thr (set_t_wake_pending false)) ;;
  futex_acquire ;;
  x ← int_at addr;
  if negb (x =? val) then futex_release ;; mret (inl (- FE_AGAIN))
  else
    o ← find_slot MAX_FUTEX 0 thr;
    match o with
    | Some i => futex_release ;; mret (inr i)
    | None =>
        o ← find_slot MAX_FUTEX 0 0;
        match o with
        | Some i => set_waiter i (mkWaiter addr thr) ;; futex_release ;; mret (inr i)
        | None => futex_release ;; mret (inl (- FE_NOMEM))
        end
    end.

(** Milliseconds of a time specification. *)
Definition timeout_ms (ts : Z * Z) : Z := u64 (u64 (u64 (fst ts) * 1000000000) + u64 (snd ts)) / 1000000.

(** Whether the call sleeps for a time, or blocks. *)
Definition futex_sleeps (timeout : Z) : SM fst_ (option Z) :=
  if timeout =? 0 then mret None
  else ts ← time_at timeout; mret (if 0 <? timeout_ms ts then Some (timeout_ms ts) else None).

(** The wait; [None] when it returns without a context switch. *)
Definition futex_wait_block (c krsp : Z) (sleep : option Z) : SM fst_ (option Z) :=
  match sleep with
  | Some ms => on_ks (thread_sleep c ms krsp)
  | None => on_ks (thread_block c krsp)
  end.

(** After the context switch back to [thr]. *)
Definition futex_wait_switched (thr : Z) (sleep : option Z) : SM fst_ () :=
  match sleep with
  | Some _ => on_ks (thread_sleep_resumed thr)
  | None => on_ks (thread_block_resumed thr)
  end.

(** Leave the table. *)
Definition futex_cleanup (thr slot : Z) : SM fst_ () :=
  futex_acquire ;;
  w ← waiter_at slot;
  sm_when (fw_thread w =? thr) (set_waiter slot (mkWaiter 0 0)) ;;
  futex_release.

(** The rest of [FUTEX_WAIT]. *)
Definition futex_wait_finish (thr slot timeout : Z) : SM fst_ Z :=
  if negb (timeout =? 0) then
    x ← on_ks (thread_at thr);
    if negb (t_wake_pending x) then futex_cleanup thr slot ;; mret (- FE_TIMEDOUT)
    else futex_cleanup thr slot ;; mret 0
  else futex_cleanup thr slot ;; mret 0.

(** The loop of [FUTEX_WAKE]. *)
Fixpoint wake_loop (n : nat) (i addr val awoken : Z) : SM fst_ Z :=
  match n with
  | O => mret awoken
  | Datatypes.S n =>
      w ← waiter_at i;
      if negb (fw_thread w =? 0) && (fw_uaddr w =? addr) then
        on_ks (vxThreadWake (fw_thread w)) ;;
        set_waiter i (mkWaiter 0 0) ;;
        if val <=? awoken + 1 then mret (awoken + 1)
        else wake_loop n (i + 1) addr val (awoken + 1)
      else wake_loop n (i + 1) addr val awoken
  end.

Definition futex_wake (addr val : Z) : SM fst_ Z :=
  futex_acquire ;;
  awoken ← wake_loop MAX_FUTEX 0 addr val 0;
  futex_release ;;
  mret awoken.

(** The loop of the requeue commands. *)
Fixpoint requeue_loop (n : nat) (i addr addr2 val val2 awoken requeued : Z) : SM fst_ Z :=
  match n with
  | O => mret (awoken + requeued)
  | Datatypes.S n =>
      w ← waiter_at i;
      if negb (fw_thread w =? 0) && (fw_uaddr w =? addr) then
        if awoken <? val then
          on_ks (vxThreadWake (fw_thread w)) ;;
          set_waiter i (mkWaiter 0 0) ;;
          requeue_loop n (i + 1) addr addr2 val val2 (awoken + 1) requeued
        else if requeued <? val2 then
          set_waiter i (mkWaiter addr2 (fw_thread w)) ;;
          requeue_loop n (i + 1) addr addr2 val val2 awoken (requeued + 1)
        else requeue_loop n (i + 1) addr addr2 val val2 awoken requeued
      else requeue_loop n (i + 1) addr addr2 val val2 awoken requeued
  end.

Definition futex_requeue (cmp : bool) (addr addr2 val val2 val3 : Z) : SM fst_ Z :=
  futex_acquire ;;
  x ← (if cmp then int_at addr else mret val3);
  if negb (x =? val3) then futex_release ;; mret (- FE_AGAIN)
  else
    n ← requeue_loop MAX_FUTEX 0 addr addr2 val val2 0 0;
    futex_release ;;
    mret n.

(** How the call leaves the CPU: it returns, or waits in a slot on the
    scheduler stack [rsp]. *)
Inductive futex_exit := FutexReturn (z : Z) | FutexWait (slot : Z) (sleep : option Z) (rsp : Z).

Definition syscall_futex (c krsp addr futex_op val timeout addr2 val3 : Z) : SM fst_ futex_exit :=
  let cmd := s32 (Z.land futex_op (Z.lnot FUTEX_PRIVATE_FLAG)) in
  co ← on_ks (core_at c);
  let thr := co_active_thread co in
  if cmd =? FUTEX_WAIT then
    o ← futex_wait_queue thr addr val;
    match o with
    | inl e => mret (FutexReturn e)
    | inr slot =>
        sleep ← futex_sleeps timeout;
        rsp ← futex_wait_block c krsp sleep;
        match rsp with
        | Some rsp => mret (FutexWait slot sleep rsp)
        | None => z ← futex_wait_finish thr slot timeout; mret (FutexReturn z)
        end
    end
  else if cmd =? FUTEX_WAKE then n ← futex_wake addr val; mret (FutexReturn n)
  else if (cmd =? FUTEX_CMP_REQUEUE) || (cmd =? FUTEX_REQUEUE) then
    n ← futex_requeue (cmd =? FUTEX_CMP_REQUEUE) addr addr2 val (s32 timeout) val3; mret (FutexReturn n)
  else mret (FutexReturn (- FE_NOSYS)).

(** The end of a [FUTEX_WAIT] that switched away. *)
Definition syscall_futex_resumed (thr slot timeout : Z) (sleep : option Z) : SM fst_ Z :=
  futex_wait_switched thr sleep ;; futex_wait_finish thr slot timeout.

End futex.
