(* ===== verification/FutexThm.v ===== *)
(** * Properties of futexes *)

From S2P Require Import Prelude StateM Spinlock SchedState Sched SchedQueue SchedWf SchedProps SchedWake PipeThm Futex.

Open Scope sm_scope.

Definition waits_on (a : Z) (w : futex_waiter) : Prop := fw_thread w ≠ 0 ∧ fw_uaddr w = a.
#[global] Instance waits_on_dec a w : Decision (waits_on a w).
Proof. unfold waits_on. apply _. Defined.

(** The threads waiting on an address, in table order. *)
Definition waiting (q : list futex_waiter) (a : Z) : list Z := fw_thread <$> filter (waits_on a) q.

(** [FUTEX_WAKE] on a table: the new table and the threads it wakes. *)
Fixpoint wake_table (q : list futex_waiter) (a val awoken : Z) : list futex_waiter * list Z :=
  match q with
  | [] => ([], [])
  | w :: q =>
      if decide (waits_on a w) then
        if val <=? awoken + 1 then (mkWaiter 0 0 :: q, [fw_thread w])
        else let '(q', ts) := wake_table q a val (awoken + 1) in (mkWaiter 0 0 :: q', fw_thread w :: ts)
      else let '(q', ts) := wake_table q a val awoken in (w :: q', ts)
  end.

Lemma waiting_cons_yes w q a : waits_on a w → waiting (w :: q) a = fw_thread w :: waiting q a.
Proof. intros Hw. unfold waiting. by rewrite filter_cons_True. Qed.
Lemma waiting_cons_no w q a : ¬ waits_on a w → waiting (w :: q) a = waiting q a.
Proof. intros Hw. unfold waiting. by rewrite filter_cons_False. Qed.
Lemma no_waiter a : ¬ waits_on a (mkWaiter 0 0).
Proof. by intros []. Qed.

Lemma waits_once a b w : waits_on a w → b ≠ a → ¬ waits_on b w.
Proof. intros (_ & <-) Hb (_ & He). congruence. Qed.

Lemma wake_table_spec q a val : ∀ awoken,
  let '(q', ts) := wake_table q a val awoken in
  let n := Z.to_nat (Z.max 1 (val - awoken)) in
  length q' = length q ∧ ts = take n (waiting q a) ∧ waiting q' a = drop n (waiting q a) ∧
  (∀ b, b ≠ a → waiting q' b = waiting q b).
Proof.
  induction q as [|w q IH]; intros awoken; simpl.
  { unfold waiting. simpl. by rewrite take_nil, drop_nil. }
  case_decide as Hw.
  - rewrite waiting_cons_yes by done. destruct (Z.leb_spec val (awoken + 1)) as [Hv|Hv].
    + replace (Z.to_nat _) with 1%nat by lia. simpl. rewrite take_0, drop_0, waiting_cons_no by apply no_waiter.
      split_and!; try done. intros b Hb. rewrite !waiting_cons_no; [done| |apply no_waiter]. by eapply waits_once.
    + specialize (IH (awoken + 1)). destruct (wake_table q a val (awoken + 1)) as [q' ts].
      destruct IH as (Hl & -> & Hd & Ho). replace (Z.to_nat (Z.max 1 (val - awoken))) with (Datatypes.S (Z.to_nat (Z.max 1 (val - (awoken + 1))))) by lia.
      simpl. rewrite waiting_cons_no by apply no_waiter. split_and!; [lia|done|done|].
      intros b Hb. rewrite !waiting_cons_no; [by apply Ho| |apply no_waiter]. by eapply waits_once.
  - specialize (IH awoken). destruct (wake_table q a val awoken) as [q' ts]. destruct IH as (Hl & -> & Hd & Ho).
    simpl. rewrite !(waiting_cons_no w) by done. split_and!; [lia|done|done|]. intros b Hb. specialize (Ho b Hb).
    destruct (decide (waits_on b w)) as [Hw'|Hw']; [rewrite !(waiting_cons_yes w) by done; by rewrite Ho|].
    by rewrite !(waiting_cons_no w) by done.
Qed.

Lemma waiter_at_ok s pre w rest : futex_queue s = pre ++ w :: rest → waiter_at (zlen pre) s = Ok (w, s).
Proof.
  intros Hq. unfold waiter_at, mbind, SM_bind, get_queue, sm_lift.
  rewrite Hq, aget_ok by (rewrite length_app; simpl; lia). by rewrite at_app, decide_False, Z.sub_diag by lia.
Qed.

Lemma set_waiter_ok s pre w w' rest :
  futex_queue s = pre ++ w :: rest →
  set_waiter (zlen pre) w' s = Ok ((), mkFst (pre ++ w' :: rest) (futex_lock s) (f_ks s) (user_int s) (user_time s)).
Proof.
  intros Hq. unfold set_waiter, mbind, SM_bind, get_queue, sm_lift.
  rewrite Hq, aset_ok by (rewrite length_app; simpl; lia). unfold set_queue. do 3 f_equal.
  by rewrite Nat2Z.id, insert_app_r_alt, Nat.sub_diag by lia.
Qed.

Section futex.
Context `{Platform}.

(** The threads in the table exist. *)
Definition table_ok (k : ks) (q : list futex_waiter) : Prop :=
  ∀ w, w ∈ q → fw_thread w ≠ 0 → is_Some (k_threads k !! fw_thread w).

(** [ts] have been woken, nothing else has changed. *)
Definition woken_all (ts : list Z) (k k' : ks) : Prop :=
  (∀ t, t ∈ ts → woken k' t) ∧ (∀ t, t ∉ ts → k_threads k' !! t = k_threads k !! t) ∧
  (∀ t, is_Some (k_threads k !! t) → is_Some (k_threads k' !! t)) ∧ ∃ m, k' = set_k_threads m k.

Lemma woken_all_nil k : woken_all [] k k.
Proof. split_and!; [|done|done|by exists (k_threads k); destruct k]. intros t Ht. by apply elem_of_nil in Ht. Qed.

Lemma woken_all_cons t ts k k1 k' : woken_all [t] k k1 → woken_all ts k1 k' → woken_all (t :: ts) k k'.
Proof.
  intros (W1 & S1 & E1 & m1 & ->) (W2 & S2 & E2 & m2 & ->). split_and!.
  - intros u Hu. destruct (decide (u ∈ ts)) as [Hi|Hi]; [by apply W2|].
    assert (u = t) as -> by set_solver. destruct (W1 t ltac:(set_solver)) as (x & Hx & Hx').
    exists x. by rewrite S2.
  - intros u Hu. rewrite S2 by set_solver. apply S1. set_solver.
  - auto.
  - by exists m2.
Qed.

Lemma wake_one s t :
  t ≠ 0 → is_Some (k_threads (f_ks s) !! t) →
  swp (on_ks (vxThreadWake t)) s (λ _ s', ∃ k', s' = mkFst (futex_queue s) (futex_lock s) k' (user_int s) (user_time s) ∧
    woken_all [t] (f_ks s) k').
Proof.
  intros Ht (x & Hx). destruct (vxThreadWake_spec t x (f_ks s) Ht Hx) as (x' & E & Hw & Hst).
  unfold swp, on_ks. rewrite E. eexists. split; [done|]. split_and!; simpl.
  - intros u ->%list_elem_of_singleton. exists x'. simpl. by rewrite lookup_insert_eq.
  - intros u Hu. apply lookup_insert_ne. set_solver.
  - intros u Hu. apply lookup_insert_is_Some. destruct (decide (t = u)); auto.
  - by eexists.
Qed.

Lemma wake_loop_spec addr val rest : ∀ pre s awoken,
  futex_queue s = pre ++ rest → table_ok (f_ks s) rest →
  swp (wake_loop (length rest) (zlen pre) addr val awoken) s (λ z s',
    let '(rest', ts) := wake_table rest addr val awoken in
    z = awoken + zlen ts ∧ woken_all ts (f_ks s) (f_ks s') ∧
    s' = mkFst (pre ++ rest') (futex_lock s) (f_ks s') (user_int s) (user_time s)).
Proof.
  induction rest as [|w rest IH]; intros pre s awoken Hq Hok; simpl.
  { apply swp_ret. split_and!; [lia|apply woken_all_nil|]. destruct s. simpl in *. by subst. }
  apply swp_bind, (swp_intro _ _ _ w s); [by eapply waiter_at_ok|].
  assert (∀ s' x, futex_queue s' = (pre ++ [x]) ++ rest → table_ok (f_ks s') rest → ∀ aw,
    swp (wake_loop (length rest) (zlen pre + 1) addr val aw) s' (λ z s'',
      let '(rest', ts) := wake_table rest addr val aw in z = aw + zlen ts ∧ woken_all ts (f_ks s') (f_ks s'') ∧
      s'' = mkFst (pre ++ x :: rest') (futex_lock s') (f_ks s'') (user_int s') (user_time s'))) as Hnext.
  { intros s' x Hs' Hok' aw. specialize (IH (pre ++ [x]) s' aw Hs' Hok'). rewrite length_app in IH. simpl in IH.
    replace (Z.of_nat (length pre + 1)) with (zlen pre + 1) in IH by lia. eapply swp_mono; [exact IH|].
    intros z s''. destruct (wake_table rest addr val aw) as [rest' ts]. by rewrite <- app_assoc. }
  assert (table_ok (f_ks s) rest) as Hokr by (intros u Hu; apply Hok; set_solver).
  destruct (decide (waits_on addr w)) as [Hw|Hw].
  - destruct (Hw) as (Hw0 & Hwa). rewrite (proj2 (Z.eqb_neq _ _) Hw0), (proj2 (Z.eqb_eq _ _) Hwa). simpl.
    apply swp_bind. eapply swp_mono; [apply (wake_one s (fw_thread w) Hw0), Hok; [set_solver|done]|].
    intros [] s1 (k1 & -> & Hk1). apply swp_bind. eapply swp_intro; [by eapply set_waiter_ok|]. simpl.
    destruct (val <=? awoken + 1).
    + apply swp_ret. simpl. split_and!; [lia|done|done].
    + eapply swp_mono; [apply (Hnext _ (mkWaiter 0 0)); simpl; [by rewrite <- app_assoc|]|].
      { intros u Hu Hu0. apply Hk1. by apply Hokr. }
      intros z s2. destruct (wake_table rest addr val (awoken + 1)) as [rest' ts]. intros (-> & Hk2 & ->). simpl in *.
      split_and!; [lia|by eapply woken_all_cons|done].
  - assert (negb (fw_thread w =? 0) && (fw_uaddr w =? addr) = false) as ->.
    { destruct (Z.eqb_spec (fw_thread w) 0), (Z.eqb_spec (fw_uaddr w) addr); try done. by destruct Hw. }
    eapply swp_mono; [apply (Hnext s w); [by rewrite <- app_assoc|done]|].
    intros z s2. destruct (wake_table rest addr val awoken) as [rest' ts]. done.
Qed.

Lemma futex_acquire_ok s : unlocked (futex_lock s) →
  ∃ l, futex_acquire s = Ok ((), mkFst (futex_queue s) l (f_ks s) (user_int s) (user_time s)) ∧ unlocked (spin_release l).
Proof.
  intros Hl. destruct (spin_acquire_ok _ Hl) as (l & E & Hu & _). exists l. unfold futex_acquire. by rewrite E.
Qed.

Lemma futex_wake_spec addr val s :
  unlocked (futex_lock s) → length (futex_queue s) = MAX_FUTEX → table_ok (f_ks s) (futex_queue s) →
  let n := Z.to_nat (Z.max 1 val) in
  let ts := take n (waiting (futex_queue s) addr) in
  ∃ s', futex_wake addr val s = Ok (zlen ts, s') ∧ unlocked (futex_lock s') ∧
    length (futex_queue s') = MAX_FUTEX ∧ woken_all ts (f_ks s) (f_ks s') ∧
    waiting (futex_queue s') addr = drop n (waiting (futex_queue s) addr) ∧
    (∀ b, b ≠ addr → waiting (futex_queue s') b = waiting (futex_queue s) b).
Proof.
  intros Hl Hlen Hok n ts. destruct (futex_acquire_ok s Hl) as (l & E & Hu).
  unfold futex_wake, mbind, SM_bind. rewrite E. rewrite <- Hlen.
  pose proof (wake_loop_spec addr val (futex_queue s) [] (mkFst (futex_queue s) l (f_ks s) (user_int s) (user_time s)) 0 eq_refl Hok) as Hw.
  apply swp_elim in Hw as (z & s' & Hw & Hc). change (zlen (@nil futex_waiter)) with 0 in Hw. rewrite Hw.
  pose proof (wake_table_spec (futex_queue s) addr val 0) as Ht. destruct (wake_table (futex_queue s) addr val 0) as [q' ts'].
  rewrite Z.sub_0_r in Ht. fold n ts in Ht. destruct Ht as (Hl' & -> & Hd & Ho), Hc as (-> & Hk & ->). simpl in *.
  eexists. split; [done|]. simpl. split_and!; [done|done|done|done|done].
Qed.

(** [FUTEX_WAKE] wakes the first waiters of the address in table order,
    at most [val] of them but always one if there is one, and returns their
    number.  The woken threads have a wake pending, are not blocked and have
    left the table; all other waiters stay, and the lock is free again. *)
Theorem futex_wake_correct addr val s :
  unlocked (futex_lock s) → length (futex_queue s) = MAX_FUTEX → table_ok (f_ks s) (futex_queue s) →
  let n := Z.to_nat (Z.max 1 val) in
  let ts := take n (waiting (futex_queue s) addr) in
  ∃ s', futex_wake addr val s = Ok (zlen ts, s') ∧ unlocked (futex_lock s') ∧
    length (futex_queue s') = MAX_FUTEX ∧ woken_all ts (f_ks s) (f_ks s') ∧
    waiting (futex_queue s') addr = drop n (waiting (futex_queue s) addr) ∧
    (∀ b, b ≠ addr → waiting (futex_queue s') b = waiting (futex_queue s) b).
Proof. apply futex_wake_spec. Qed.

(** ** Waiting *)


#[local] Arguments find_slot : simpl never.






Lemma futex_cleanup_ok thr i s :
  thr ≠ 0 → unlocked (futex_lock s) → 0 ≤ i < zlen (futex_queue s) →
  ∃ s', futex_cleanup thr i s = Ok ((), s') ∧ unlocked (futex_lock s') ∧
    fw_thread (at_ (futex_queue s') i) ≠ thr ∧ f_ks s' = f_ks s.
Proof.
  intros Ht Hl Hi. destruct (futex_acquire_ok s Hl) as (l & E & Hu).
  unfold futex_cleanup, mbind, SM_bind. rewrite E. unfold waiter_at, set_waiter, mbind, SM_bind, get_queue, sm_lift.
  simpl. rewrite aget_ok by done. unfold sm_when. destruct (Z.eqb_spec (fw_thread (at_ (futex_queue s) i)) thr) as [Hw|Hw].
  - rewrite aset_ok by done. simpl. eexists. split; [done|]. simpl. split; [done|]. split; [|done].
    rewrite at_insert by lia. rewrite decide_True by done. simpl. congruence.
  - eexists. split; [done|]. simpl. auto.
Qed.

(** The end of a [FUTEX_WAIT] that did not switch away. *)
Lemma futex_wait_finish_spec thr i timeout s x :
  thr ≠ 0 → unlocked (futex_lock s) → 0 ≤ i < zlen (futex_queue s) →
  k_threads (f_ks s) !! thr = Some x → t_wake_pending x = false →
  ∃ s', futex_wait_finish thr i timeout s = Ok (if timeout =? 0 then 0 else - FE_TIMEDOUT, s') ∧ unlocked (futex_lock s') ∧
    fw_thread (at_ (futex_queue s') i) ≠ thr ∧ f_ks s' = f_ks s.
Proof.
  intros Ht Hl Hi Hx Hw. destruct (futex_cleanup_ok thr i s Ht Hl Hi) as (s' & E & Hp). exists s'. split; [|done].
  unfold futex_wait_finish, mbind, SM_bind. destruct (timeout =? 0); simpl; [by rewrite E|].
  unfold on_ks, thread_at. rewrite Hx. simpl. rewrite Hw. simpl.
  assert (mkFst (futex_queue s) (futex_lock s) (f_ks s) (user_int s) (user_time s) = s) as -> by (by destruct s). by rewrite E.
Qed.


(** A [FUTEX_WAIT] with a timeout that went to sleep reports a timeout
    however it was woken: the scheduler clears the wake flag the test looks
    at. *)
Theorem futex_timed_wait_times_out thr slot timeout sleep s x :
  timeout ≠ 0 → thr ≠ 0 → k_threads (f_ks s) !! thr = Some x → unlocked (futex_lock s) → 0 ≤ slot < zlen (futex_queue s) →
  ∃ s', syscall_futex_resumed thr slot timeout sleep s = Ok (- FE_TIMEDOUT, s').
Proof.
  intros Ht Hz Hx Hl Hs.
  assert (∃ k' x', futex_wait_switched thr sleep s = Ok ((), mkFst (futex_queue s) (futex_lock s) k' (user_int s) (user_time s)) ∧
    k_threads k' !! thr = Some x' ∧ t_wake_pending x' = false) as (k' & x' & E & Hx' & Hw).
  { unfold futex_wait_switched, on_ks. destruct sleep; unfold thread_sleep_resumed, thread_block_resumed, set_thread, mbind, M_bind;
      repeat (rewrite ?Hx, ?lookup_insert_eq; simpl); eexists _, _; (split; [done|]); simpl; rewrite lookup_insert_eq; done. }
  destruct (futex_wait_finish_spec thr slot timeout (mkFst (futex_queue s) (futex_lock s) k' (user_int s) (user_time s)) x')
    as (s' & Ef & _); [done..|].
  exists s'. unfold syscall_futex_resumed, mbind, SM_bind. rewrite E, Ef. by rewrite (proj2 (Z.eqb_neq _ _) Ht).
Qed.
End futex.

(** ** A concrete table *)

#[local] Existing Instance demo_platform.

(** Thread 2 waits on 0x5000; thread 1 is active on core 0. *)
Definition demo_futex : fst_ :=
  mkFst (mkWaiter 0x5000 2 :: replicate 1023 (mkWaiter 0 0)) SPINLOCK_INIT
    (duo (demo_thread THREAD_STATE_RUNNING 0x100) (demo_thread THREAD_STATE_BLOCKED 0x200) 0x100) {[0x5000 := 42]} ∅.

Lemma demo_table : table_ok (f_ks demo_futex) (futex_queue demo_futex).
Proof.
  intros w [->|Hw]%elem_of_cons Hw0; [by eexists|]. by apply elem_of_replicate in Hw as (-> & _).
Qed.

Lemma demo_waiting : waiting (futex_queue demo_futex) 0x5000 = [2].
Proof. vm_compute. reflexivity. Qed.

Lemma futex_wake_correct_witness :
  ∃ s', futex_wake 0x5000 1 demo_futex = Ok (1, s') ∧ unlocked (futex_lock s') ∧
    length (futex_queue s') = MAX_FUTEX ∧ woken_all [2] (f_ks demo_futex) (f_ks s') ∧
    waiting (futex_queue s') 0x5000 = [] ∧
    (∀ b, b ≠ 0x5000 → waiting (futex_queue s') b = waiting (futex_queue demo_futex) b).
Proof.
  pose proof (futex_wake_correct 0x5000 1 demo_futex) as Hw. rewrite demo_waiting in Hw. apply Hw.
  - done.
  - vm_compute. reflexivity.
  - apply demo_table.
Defined.

