(* ===== verification/Fd.v ===== *)
(** * File descriptors

    [kernel/sys/fd.c], the descriptor calls of [kernel/sys/syscall] and the
    copy of a table at fork: tables of pointers to open files, which are
    shared between descriptors and between processes and counted.

    The operations of the file system behind an open file are an interface,
    [FileOps]: a state and what reading, writing and flushing do to it. *)

From S2P Require Import Prelude StateM.

Open Scope sm_scope.

Definition INITIAL_MAX_FDS : Z := 64.
Definition VNODE_TYPE_FILE : Z := 1.
Definition VNODE_TYPE_DIR : Z := 2.
Definition VNODE_TYPE_BLK : Z := 5.
Definition VNODE_TYPE_FIFO : Z := 6.
Definition VNODE_TYPE_SOCK : Z := 7.

Definition EIO : Z := 5.
Definition EBADF : Z := 9.
Definition ENOMEM : Z := 12.
Definition EISDIR : Z := 21.
Definition EINVAL : Z := 22.
Definition EMFILE : Z := 24.
Definition ENOTTY : Z := 25.
Definition ENOSPC : Z := 28.
Definition ESPIPE : Z := 29.

(** The size of a vnode is the file system's, [op_size] below. *)
Record vnode := mkVnode { v_id : Z; v_type : Z; v_fs_instance : bool }.

(** Which pointers of a [vops_file_t] are set. *)
Record vops_file := mkVops { has_read : bool; has_write : bool; has_flush : bool }.

(** [ops] is [None] when the pointer is null; [vnode] and [dentry] are
    addresses, 0 for null. *)
Record file_descriptor := mkFile {
  count : Z; ops : option vops_file; dentry : Z; pos : Z; flags : Z; vnode_ptr : Z;
  write_buffer : option (list Z); write_buffer_size : Z }.

Definition set_count (x : Z) (f : file_descriptor) : file_descriptor :=
  mkFile x (ops f) (dentry f) (pos f) (flags f) (vnode_ptr f) (write_buffer f) (write_buffer_size f).
Definition set_pos (x : Z) (f : file_descriptor) : file_descriptor :=
  mkFile (count f) (ops f) (dentry f) x (flags f) (vnode_ptr f) (write_buffer f) (write_buffer_size f).
Definition set_flags (x : Z) (f : file_descriptor) : file_descriptor :=
  mkFile (count f) (ops f) (dentry f) (pos f) x (vnode_ptr f) (write_buffer f) (write_buffer_size f).
Definition set_ops (x : option vops_file) (f : file_descriptor) : file_descriptor :=
  mkFile (count f) x (dentry f) (pos f) (flags f) (vnode_ptr f) (write_buffer f) (write_buffer_size f).
Definition set_vnode (x : Z) (f : file_descriptor) : file_descriptor :=
  mkFile (count f) (ops f) (dentry f) (pos f) (flags f) x (write_buffer f) (write_buffer_size f).
Definition set_write_buffer (x : option (list Z)) (f : file_descriptor) : file_descriptor :=
  mkFile (count f) (ops f) (dentry f) (pos f) (flags f) (vnode_ptr f) x (write_buffer_size f).
Definition set_write_buffer_size (x : Z) (f : file_descriptor) : file_descriptor :=
  mkFile (count f) (ops f) (dentry f) (pos f) (flags f) (vnode_ptr f) (write_buffer f) x.

Record fdtable := mkTable { max_fds : Z; fds : list Z; fd_flags : list Z; next_fd : Z }.

Definition set_fds (x : list Z) (t : fdtable) : fdtable := mkTable (max_fds t) x (fd_flags t) (next_fd t).
Definition set_fd_flags (x : list Z) (t : fdtable) : fdtable := mkTable (max_fds t) (fds t) x (next_fd t).
Definition set_next_fd (x : Z) (t : fdtable) : fdtable := mkTable (max_fds t) (fds t) (fd_flags t) x.

(** The calls of a closing file into other components: the end of a pipe, the
    reference to the dentry, the test whether a dentry with no other reference
    leaves the cache, the walk to the entry of the descriptor in [/proc]. *)
Inductive fd_event := PipeClose (p : Z) | DentryPut (d : Z) | EvictUnused (d : Z) | ProcFdLookup (me : nat) (fd : Z).

(** File system operations, by vnode: the bytes read; the result of a write;
    the size of the file. *)
Class FileOps (St : Type) := {
  op_read : vnode → Z → Z → St → Z * list Z * St;
  op_write : vnode → list Z → Z → St → Z * St;
  op_flush : vnode → St → St;
  op_size : vnode → St → Z }.

Section fd.
Context {St : Type} `{!FileOps St}.

(** The tables of the processes ([None]: freed or none), the open files, the
    vnodes, the file system and the trace. *)
Record fdst := mkFd {
  tables : list (option fdtable); files : gmap Z file_descriptor; vnodes : gmap Z vnode;
  store : St; trace : list fd_event }.

Definition set_tables (x : list (option fdtable)) (s : fdst) : fdst :=
  mkFd x (files s) (vnodes s) (store s) (trace s).
Definition set_files (x : gmap Z file_descriptor) (s : fdst) : fdst :=
  mkFd (tables s) x (vnodes s) (store s) (trace s).
Definition set_store (x : St) (s : fdst) : fdst := mkFd (tables s) (files s) (vnodes s) x (trace s).

(** The table of process [me]. *)
Definition table_of (me : nat) : SM fdst (option fdtable) := fun s =>
  Ok (match tables s !! me with Some o => o | None => None end, s).
Definition upd_table (me : nat) (f : fdtable → fdtable) : SM fdst () := fun s =>
  match tables s !! me with
  | Some (Some t) => Ok ((), set_tables (<[me := Some (f t)]> (tables s)) s)
  | _ => Fault
  end.
Definition file_at (p : Z) : SM fdst file_descriptor := fun s =>
  match files s !! p with Some f => Ok (f, s) | None => Fault end.
Definition upd_file (p : Z) (f : file_descriptor → file_descriptor) : SM fdst () := fun s =>
  match files s !! p with
  | Some x => Ok ((), set_files (<[p := f x]> (files s)) s)
  | None => Fault
  end.
Definition vnode_at (p : Z) : SM fdst vnode := fun s =>
  match vnodes s !! p with Some v => Ok (v, s) | None => Fault end.
Definition emit (e : fd_event) : SM fdst () := fun s =>
  Ok ((), mkFd (tables s) (files s) (vnodes s) (store s) (trace s ++ [e])).

(** [fdt->fds[i]], [fdt->fds[i] = p], [fdt->fd_flags[i] = x]. *)
Definition slot (t : fdtable) (i : Z) : SM fdst Z := sm_lift (aget (fds t) i).
Definition set_slot (me : nat) (i p : Z) : SM fdst () := fun s =>
  match tables s !! me with
  | Some (Some t) =>
      match aset (fds t) i p with
      | Ok l => Ok ((), set_tables (<[me := Some (set_fds l t)]> (tables s)) s)
      | _ => Fault
      end
  | _ => Fault
  end.
Definition set_slot_flags (me : nat) (i x : Z) : SM fdst () := fun s =>
  match tables s !! me with
  | Some (Some t) =>
      match aset (fd_flags t) i x with
      | Ok l => Ok ((), set_tables (<[me := Some (set_fd_flags l t)]> (tables s)) s)
      | _ => Fault
      end
  | _ => Fault
  end.

Definition new_fdtable : fdtable :=
  mkTable INITIAL_MAX_FDS (replicate 64 0) (replicate 64 0) 0.

(** A process gets an empty table. *)
Definition alloc_fdtable (me : nat) : SM fdst () := fun s =>
  match tables s !! me with
  | Some _ => Ok ((), set_tables (<[me := Some new_fdtable]> (tables s)) s)
  | None => Fault
  end.

(** [p] is the object [kalloc] returns. *)
Definition alloc_fd (p : Z) : SM fdst () := fun s =>
  Ok ((), set_files (<[p := mkFile 1 None 0 0 0 0 None 0]> (files s)) s).

(** [ops->write(vnode, bytes, len, off)]. *)
Definition do_write (v : vnode) (bs : list Z) (off : Z) : SM fdst Z := fun s =>
  let '(r, st) := op_write v bs off (store s) in Ok (r, set_store st s).

(** The write of a non-empty buffer of a regular file; [None] when there is
    nothing to write. *)
Definition flush_buffer (p : Z) : SM fdst (option Z) :=
  f ← file_at p;
  match write_buffer f with
  | Some b =>
      if (0 <? write_buffer_size f) && negb (vnode_ptr f =? 0) then
        v ← vnode_at (vnode_ptr f);
        if v_type v =? VNODE_TYPE_FILE then
          match ops f with
          | Some o =>
              if has_write o then
                r ← do_write v (take (Z.to_nat (write_buffer_size f)) b) (u64 (pos f - write_buffer_size f));
                mret (Some r)
              else mret None
          | None => mret None
          end
        else mret None
      else mret None
  | None => mret None
  end.

Definition free_file (p : Z) : SM fdst () := fun s => Ok ((), set_files (delete p (files s)) s).
Definition free_table (me : nat) : SM fdst () := fun s => Ok ((), set_tables (<[me := None]> (tables s)) s).

(** The last reference to a file is gone. *)
Definition release_file (p : Z) : SM fdst () :=
  flush_buffer p ;;
  f ← file_at p;
  (if negb (vnode_ptr f =? 0) then
     v ← vnode_at (vnode_ptr f);
     sm_when (v_type v =? VNODE_TYPE_FIFO) (emit (PipeClose p))
   else mret ()) ;;
  sm_when (negb (dentry f =? 0)) (emit (DentryPut (dentry f))) ;;
  free_file p.

(** [if (__atomic_sub_fetch(&fd->count, 1) == 0)] release the file. *)
Definition drop_ref (p : Z) : SM fdst () :=
  f ← file_at p;
  upd_file p (set_count (s32 (count f - 1))) ;;
  sm_when (s32 (count f - 1) =? 0) (release_file p).

Fixpoint free_fdtable_loop (n : nat) (t : fdtable) (i : Z) : SM fdst () :=
  match n with
  | O => mret ()
  | Datatypes.S n =>
      p ← slot t i;
      sm_when (negb (p =? 0)) (drop_ref p) ;;
      free_fdtable_loop n t (i + 1)
  end.

Definition free_fdtable (me : nat) : SM fdst () :=
  o ← table_of me;
  match o with
  | None => mret ()
  | Some t =>
      free_fdtable_loop (Z.to_nat (max_fds t)) t 0 ;;
      free_table me
  end.

(** ** Descriptor calls *)

(** An open file at descriptor [fd]: [None] when the call answers -EBADF. *)
Definition open_slot (me : nat) (fd : Z) : SM fdst (option (fdtable * Z)) :=
  o ← table_of me;
  match o with
  | None => mret None
  | Some t =>
      if (fd <? 0) || (s32 (max_fds t) <=? fd) then mret None
      else
        p ← slot t fd;
        if p =? 0 then mret None else mret (Some (t, p))
  end.

(** The first empty slot of [n] from [i] on. *)
Fixpoint first_free (n : nat) (t : fdtable) (i : Z) : SM fdst (option Z) :=
  match n with
  | O => mret None
  | Datatypes.S n =>
      p ← slot t i;
      if p =? 0 then mret (Some i) else first_free n t (i + 1)
  end.

(** Give descriptor [newfd] a reference to [p]. *)
Definition install (me : nat) (newfd p fl : Z) : SM fdst () :=
  f ← file_at p;
  upd_file p (set_count (s32 (count f + 1))) ;;
  set_slot_flags me newfd fl ;;
  set_slot me newfd p ;;
  upd_table me (λ t, if s32 (next_fd t) <=? newfd then set_next_fd (u32 (newfd + 1)) t else t).

(** Duplicate to the lowest free descriptor from [start] on. *)
Definition dup_from (me : nat) (t : fdtable) (p start fl : Z) : SM fdst Z :=
  o ← first_free (Z.to_nat (s32 (max_fds t) - start)) t start;
  match o with
  | None => mret (- EMFILE)
  | Some newfd => install me newfd p fl ;; mret newfd
  end.

Definition syscall_dup (me : nat) (oldfd : Z) : SM fdst Z :=
  o ← open_slot me oldfd;
  match o with
  | None => mret (- EBADF)
  | Some (t, p) => dup_from me t p 0 0
  end.

(** [close] reads the table without a test for null. *)
Definition deref_table (me : nat) : SM fdst () :=
  o ← table_of me;
  match o with None => sm_lift Fault | Some _ => mret () end.

Definition syscall_close (me : nat) (fd : Z) : SM fdst Z :=
  deref_table me ;;
  o ← open_slot me fd;
  match o with
  | None => mret (- EBADF)
  | Some (t, p) =>
      set_slot me fd 0 ;;
      f ← file_at p;
      drop_ref p ;;
      sm_when ((s32 (count f - 1) =? 0) && negb (dentry f =? 0)) (emit (EvictUnused (dentry f))) ;;
      emit (ProcFdLookup me fd) ;;
      mret 0
  end.

Definition syscall_dup2 (me : nat) (oldfd newfd : Z) : SM fdst Z :=
  o ← open_slot me oldfd;
  match o with
  | None => mret (- EBADF)
  | Some (t, p) =>
      if (newfd <? 0) || (s32 (max_fds t) <=? newfd) then mret (- EBADF)
      else if oldfd =? newfd then mret newfd
      else
        q ← slot t newfd;
        (if negb (q =? 0) then syscall_close me newfd ;; mret () else mret ()) ;;
        install me newfd p 0 ;;
        mret newfd
  end.

Definition F_DUPFD : Z := 0.
Definition F_GETFD : Z := 1.
Definition F_SETFD : Z := 2.
Definition F_GETFL : Z := 3.
Definition F_SETFL : Z := 4.
Definition F_DUPFD_CLOEXEC : Z := 1030.
Definition FD_CLOEXEC : Z := 1.
(** [O_APPEND | O_NONBLOCK | O_ASYNC | O_DIRECT | O_NOATIME]. *)
Definition SETFL_ALLOWED : Z :=
  Z.lor (Z.lor (Z.lor (Z.lor 1024 2048) 8192) 16384) 262144.

Definition syscall_fcntl (me : nat) (fd cmd arg : Z) : SM fdst Z :=
  o ← open_slot me fd;
  match o with
  | None => mret (- EBADF)
  | Some (t, p) =>
      let start := if s32 arg <? 0 then 0 else s32 arg in
      if cmd =? F_DUPFD then dup_from me t p start 0
      else if cmd =? F_DUPFD_CLOEXEC then dup_from me t p start FD_CLOEXEC
      else if cmd =? F_GETFD then sm_lift (aget (fd_flags t) fd)
      else if cmd =? F_SETFD then set_slot_flags me fd (u8 arg) ;; mret 0
      else if cmd =? F_GETFL then f ← file_at p; mret (flags f)
      else if cmd =? F_SETFL then
        f ← file_at p;
        let keep := Z.land (flags f) (not32 SETFL_ALLOWED) in
        let changed := Z.land (u32 arg) SETFL_ALLOWED in
        upd_file p (set_flags (Z.lor keep changed)) ;;
        mret 0
      else mret (- EINVAL)
  end.

(** Copy the table of [parent] to [child] at fork, entries [i] on. *)
Fixpoint clone_fds (n : nat) (child : nat) (t : fdtable) (i : Z) : SM fdst () :=
  match n with
  | O => mret ()
  | Datatypes.S n =>
      p ← slot t i;
      (if negb (p =? 0) then
         f ← file_at p;
         upd_file p (set_count (s32 (count f + 1))) ;;
         set_slot child i p ;;
         x ← sm_lift (aget (fd_flags t) i);
         set_slot_flags child i x
       else set_slot child i 0) ;;
      clone_fds n child t (i + 1)
  end.

Definition fork_fdtable (parent child : nat) : SM fdst () :=
  alloc_fdtable child ;;
  o ← table_of parent;
  match o with
  | None => sm_lift Fault
  | Some t =>
      upd_table child (λ c, mkTable (max_fds t) (fds c) (fd_flags c) (next_fd t)) ;;
      clone_fds (Z.to_nat (max_fds t)) child t 0
  end.

(** The close-on-exec descriptors at [execve]. *)
Fixpoint close_on_exec (n : nat) (me : nat) (i : Z) : SM fdst () :=
  match n with
  | O => mret ()
  | Datatypes.S n =>
      o ← table_of me;
      match o with
      | None => sm_lift Fault
      | Some t =>
          p ← slot t i;
          x ← sm_lift (aget (fd_flags t) i);
          (if negb (p =? 0) && negb (Z.land x FD_CLOEXEC =? 0) then syscall_close me i ;; mret () else mret ()) ;;
          close_on_exec n me (i + 1)
      end
  end.

(** ** New files: pipes *)

(** A new open file [p] at descriptor [fd]. *)
Definition install_new (me : nat) (fd p : Z) (o : vops_file) (fl clo : Z) : SM fdst () :=
  alloc_fd p ;;
  upd_file p (λ f, set_flags (Z.lor (flags f) fl) (set_ops (Some o) f)) ;;
  set_slot me fd p ;;
  set_slot_flags me fd clo.

(** A new vnode at [vp] for the pipe end [p]; [id] is the counter's value. *)
Definition attach_fifo (p vp id : Z) : SM fdst () :=
  (fun s => Ok ((), mkFd (tables s) (files s) (<[vp := mkVnode id VNODE_TYPE_FIFO false]> (vnodes s)) (store s) (trace s))) ;;
  upd_file p (set_vnode vp).

Definition bump_next_fd (me : nat) (fd : Z) : SM fdst () :=
  upd_table me (λ t, if s32 (next_fd t) <=? fd then set_next_fd (u32 (fd + 1)) t else t).

Definition pipe_read_ops : vops_file := mkVops true false false.
Definition pipe_write_ops : vops_file := mkVops false true false.

(** [rp], [wp] are the objects [alloc_fd] returns, [rv], [wv] the vnodes; the
    result has the two descriptors. *)
Definition syscall_pipe2 (me : nat) (fl rp wp rv wv id : Z) : SM fdst (Z * option (Z * Z)) :=
  o ← table_of me;
  match o with
  | None => sm_lift Fault
  | Some t =>
      r ← first_free (Z.to_nat (s32 (max_fds t))) t 0;
      match r with
      | None => mret (- EMFILE, None)
      | Some rfd =>
          w ← first_free (Z.to_nat (s32 (max_fds t) - (rfd + 1))) t (rfd + 1);
          match w with
          | None => mret (- EMFILE, None)
          | Some wfd =>
              let nb := Z.land fl 2048 in
              let clo := if Z.land fl 524288 =? 0 then 0 else 1 in
              install_new me rfd rp pipe_read_ops nb clo ;;
              install_new me wfd wp pipe_write_ops nb clo ;;
              attach_fifo rp rv id ;;
              attach_fifo wp wv (id + 1) ;;
              set_slot me rfd rp ;;
              set_slot me wfd wp ;;
              bump_next_fd me rfd ;;
              bump_next_fd me wfd ;;
              mret (0, Some (rfd, wfd))
          end
      end
  end.

End fd.

Arguments fdst : clear implicits.
