(* ===== verification/FdOps.v ===== *)
(** * Reference counts of open files and the calls that keep them *)

From S2P Require Import Prelude StateM Fd.

Open Scope sm_scope.

(** ** Counting *)

Definition occ (p : Z) (l : list Z) : nat := length (filter (λ q, q = p) l).

Lemma occ_nil p : occ p [] = 0%nat.
Proof. done. Qed.

Lemma occ_cons p q l : occ p (q :: l) = ((if decide (q = p) then 1 else 0) + occ p l)%nat.
Proof. unfold occ. rewrite filter_cons. by case_decide. Qed.

Lemma occ_app p l k : occ p (l ++ k) = (occ p l + occ p k)%nat.
Proof. unfold occ. by rewrite filter_app, length_app. Qed.

Lemma occ_insert p l i x y :
  l !! i = Some x → (occ p (<[i := y]> l) + (if decide (x = p) then 1 else 0) = occ p l + if decide (y = p) then 1 else 0)%nat.
Proof.
  intros (l1 & l2 & -> & ->)%list_elem_of_split_length. rewrite insert_app_r_alt, Nat.sub_diag by lia. simpl.
  rewrite !occ_app, !occ_cons. lia.
Qed.

Lemma occ_le p l : (occ p l ≤ length l)%nat.
Proof. unfold occ. apply length_filter. Qed.

Lemma occ_pos p l : p ∈ l → (0 < occ p l)%nat.
Proof. intros (l1 & l2 & ->)%list_elem_of_split. rewrite occ_app, occ_cons, decide_True by done. lia. Qed.

(** References from the tables. *)
Fixpoint refs (ts : list (option fdtable)) (p : Z) : nat :=
  match ts with
  | [] => 0
  | Some t :: ts => occ p (fds t) + refs ts p
  | None :: ts => refs ts p
  end.

Definition entries (o : option fdtable) : list Z := match o with Some t => fds t | None => [] end.

Lemma refs_insert p ts i o o' :
  ts !! i = Some o → (refs (<[i := o']> ts) p + occ p (entries o) = refs ts p + occ p (entries o'))%nat.
Proof.
  revert i. induction ts as [|a ts IH]; intros [|i] Hi; simpl in Hi; [done|done| |].
  - injection Hi as ->. destruct o, o'; simpl; rewrite ?occ_nil; lia.
  - specialize (IH i Hi). destruct a; simpl; lia.
Qed.

Lemma refs_le ts p :
  (∀ i t, ts !! i = Some (Some t) → (length (fds t) ≤ 64)%nat) → (refs ts p ≤ 64 * length ts)%nat.
Proof.
  induction ts as [|[t|] ts IH]; intros Hl; simpl; [lia| |].
  - specialize (IH (λ i, Hl (Datatypes.S i))). pose proof (Hl 0%nat t eq_refl). pose proof (occ_le p (fds t)). lia.
  - specialize (IH (λ i, Hl (Datatypes.S i))). lia.
Qed.

Section inv.
Context {St : Type} `{!FileOps St}.
Implicit Types (s : fdst St).

(** The tables are well formed; every file in a table or in the list [pend]
    of references under way exists, and its count is their number. *)
Record fd_inv (ts : list (option fdtable)) (pend : list Z) (s : fdst St) : Prop := mkInv {
  inv_table i t : ts !! i = Some (Some t) → max_fds t = 64 ∧ zlen (fds t) = 64 ∧ zlen (fd_flags t) = 64;
  inv_size : zlen ts < 2 ^ 24 ∧ zlen pend < 2 ^ 24;
  inv_file p : p ≠ 0 → (0 < refs ts p + occ p pend)%nat → is_Some (files s !! p);
  inv_count p f : files s !! p = Some f → p ≠ 0 ∧ count f = Z.of_nat (refs ts p + occ p pend) ∧ 0 < count f;
  inv_vnode p f : files s !! p = Some f → vnode_ptr f = 0 ∨ is_Some (vnodes s !! vnode_ptr f) }.

Definition fd_ok s : Prop := fd_inv (tables s) [] s.

Lemma inv_refs ts pend s p : fd_inv ts pend s → Z.of_nat (refs ts p + occ p pend) < 2 ^ 31 - 1.
Proof.
  intros [Ht (Hl & Hp) _ _ _]. pose proof (occ_le p pend).
  assert (refs ts p ≤ 64 * length ts)%nat; [|lia]. apply refs_le. intros i t Hi. apply Ht in Hi. lia.
Qed.

Lemma file_at_spec s p f (Q : file_descriptor → fdst St → Prop) : files s !! p = Some f → Q f s → swp (file_at p) s Q.
Proof. unfold file_at, swp. by intros ->. Qed.

Lemma vnode_at_spec s p v (Q : vnode → fdst St → Prop) : vnodes s !! p = Some v → Q v s → swp (vnode_at p) s Q.
Proof. unfold vnode_at, swp. by intros ->. Qed.

Lemma upd_file_spec s p f g (Q : () → fdst St → Prop) :
  files s !! p = Some f → Q () (set_files (<[p := g f]> (files s)) s) → swp (upd_file p g) s Q.
Proof. unfold upd_file, swp. by intros ->. Qed.

(** Only the file system has changed. *)
Definition same_fds (s s' : fdst St) : Prop := tables s' = tables s ∧ files s' = files s ∧ vnodes s' = vnodes s.

Lemma inv_same ts pend s s' : fd_inv ts pend s → same_fds s s' → fd_inv ts pend s'.
Proof. intros [] (Ht & Hf & Hv). split; try done; by rewrite ?Hf, ?Hv. Qed.

Lemma flush_buffer_spec s p f :
  files s !! p = Some f → (vnode_ptr f = 0 ∨ is_Some (vnodes s !! vnode_ptr f)) →
  swp (flush_buffer p) s (λ _ s', same_fds s s').
Proof.
  intros Hf Hv. unfold flush_buffer. apply swp_bind. eapply file_at_spec; [done|].
  destruct (write_buffer f) as [b|]; [|by apply swp_ret].
  apply swp_if; [|by intros; apply swp_ret]. rewrite andb_true_iff, negb_true_iff, Z.eqb_neq. intros (_ & Hn).
  destruct Hv as [?|(v & Hv)]; [done|]. apply swp_bind. eapply vnode_at_spec; [done|].
  apply swp_if; intros _; [|by apply swp_ret]. destruct (ops f) as [o|]; [|by apply swp_ret].
  destruct (has_write o); [|by apply swp_ret]. apply swp_bind. unfold do_write, swp at 1.
  destruct (op_write _ _ _ _) as [r st]. by apply swp_ret.
Qed.

Lemma release_file_spec s p f :
  files s !! p = Some f → (vnode_ptr f = 0 ∨ is_Some (vnodes s !! vnode_ptr f)) →
  swp (release_file p) s (λ _ s', tables s' = tables s ∧ files s' = delete p (files s) ∧ vnodes s' = vnodes s).
Proof.
  intros Hf Hv. unfold release_file. apply swp_bind. eapply swp_mono; [by apply (flush_buffer_spec s p f)|].
  intros o s1 (Ht1 & Hf1 & Hv1). rewrite <- Hf1, <- Hv1, <- Ht1 in *. clear s Hf1 Hv1 Ht1. rename s1 into s.
  apply swp_bind. eapply file_at_spec; [done|]. apply swp_bind.
  apply (swp_mono _ _ (λ _ s', same_fds s s')).
  { apply swp_if; [|by intros; apply swp_ret]. rewrite negb_true_iff, Z.eqb_neq. intros Hn.
    destruct Hv as [?|(v & Hv)]; [done|]. apply swp_bind. eapply vnode_at_spec; [done|]. by apply swp_when. }
  intros [] s2 (Ht2 & Hf2 & Hv2). apply swp_bind. apply (swp_mono _ _ (λ _ s', same_fds s2 s')).
  { by apply swp_when. }
  intros [] s3 (Ht3 & Hf3 & Hv3). unfold free_file, swp. simpl. by rewrite Hf3, Ht3, Hv3, Hf2, Ht2, Hv2.
Qed.

(** Dropping a reference under way. *)
Lemma drop_ref_spec ts pend s p :
  fd_inv ts (p :: pend) s → p ≠ 0 →
  swp (drop_ref p) s (λ _ s', fd_inv ts pend s' ∧ tables s' = tables s ∧
    (files s' !! p = None ↔ (refs ts p + occ p pend = 0)%nat)).
Proof.
  intros Hi Hp. pose proof (inv_refs _ _ _ p Hi) as Hr. destruct Hi as [Ht Hsz Hfile Hcnt Hvn].
  rewrite occ_cons, decide_True in Hr by done.
  destruct (Hfile p Hp) as (f & Hf); [rewrite occ_cons, decide_True by done; lia|].
  destruct (Hcnt p f Hf) as (_ & Hc & Hc0). rewrite occ_cons, decide_True in Hc by done.
  assert (s32 (count f - 1) = Z.of_nat (refs ts p + occ p pend)) as Hs.
  { unfold s32. rewrite Z.mod_small by lia. lia. }
  simpl in Hsz. unfold drop_ref. apply swp_bind. eapply file_at_spec; [done|]. apply swp_bind. eapply upd_file_spec; [done|].
  rewrite Hs. set (s1 := set_files _ s).
  assert (files s1 !! p = Some (set_count (Z.of_nat (refs ts p + occ p pend)) f)) as Hf1 by (apply lookup_insert_eq).
  assert (∀ q g, q ≠ p → files s !! q = Some g → q ≠ 0 ∧ count g = Z.of_nat (refs ts q + occ q pend) ∧ 0 < count g) as Hoth.
  { intros q g Hq Hg. specialize (Hcnt q g Hg). by rewrite occ_cons, decide_False in Hcnt by done. }
  assert (∀ q, q ≠ p → q ≠ 0 → (0 < refs ts q + occ q pend)%nat → is_Some (files s !! q)) as Hex.
  { intros q Hq Hq0 Hpos. apply Hfile; [done|]. rewrite occ_cons, decide_False by done. lia. }
  apply swp_when; intros Hz.
  - apply Z.eqb_eq in Hz. eapply swp_mono; [apply (release_file_spec s1 p _ Hf1); apply (Hvn p f Hf)|].
    intros [] s' (Ht' & Hf' & Hv'). unfold s1 in Hf'. simpl in Hf'. rewrite delete_insert_eq in Hf'.
    split; [split; try done; try lia|split; [done|]].
    + intros q Hq0 Hq. rewrite Hf'. rewrite lookup_delete_ne; [apply Hex; [|done|done]|]; intros ->; lia.
    + intros q g Hg. rewrite Hf' in Hg. apply lookup_delete_Some in Hg as (Hne & Hg). by apply Hoth.
    + intros q g Hg. rewrite Hf' in Hg. apply lookup_delete_Some in Hg as (Hne & Hg). rewrite Hv'. by apply (Hvn q).
    + rewrite Hf', lookup_delete_eq. split; [lia|done].
  - apply Z.eqb_neq in Hz. split; [split; try done; try lia|split; [done|]].
    + intros q Hq0 Hq. unfold s1. simpl. apply lookup_insert_is_Some. destruct (decide (p = q)) as [?|Hne]; [by left|right]. auto.
    + intros q g Hg. unfold s1 in Hg. simpl in Hg. apply lookup_insert_Some in Hg as [(<- & <-)|(Hne & Hg)]; [|by apply Hoth].
      simpl. split; [done|]. split; [done|lia].
    + intros q g Hg. unfold s1 in Hg |- *. simpl in *. apply lookup_insert_Some in Hg as [(<- & <-)|(Hne & Hg)]; [apply (Hvn p f Hf)|by apply (Hvn q)].
    + rewrite Hf1. split; [done|lia].
Qed.

(** References move between the tables and the list of those under way. *)
Lemma inv_move ts pend ts' pend' s s' :
  fd_inv ts pend s → files s' = files s → vnodes s' = vnodes s →
  (∀ i t, ts' !! i = Some (Some t) → max_fds t = 64 ∧ zlen (fds t) = 64 ∧ zlen (fd_flags t) = 64) →
  zlen ts' < 2 ^ 24 ∧ zlen pend' < 2 ^ 24 →
  (∀ x, x ≠ 0 → (refs ts' x + occ x pend' = refs ts x + occ x pend)%nat) → fd_inv ts' pend' s'.
Proof.
  intros [Ht Hsz Hfile Hcnt Hvn] Hf Hv Ht' Hsz' Heq. split; rewrite ?Hf, ?Hv; try done.
  - intros p Hp Hpos. rewrite Heq in Hpos by done. by apply Hfile.
  - intros p f Hpf. destruct (Hcnt p f Hpf) as (Hp & Hc & Hc0). by rewrite Heq.
Qed.

(** Tables after one of them is updated. *)
Lemma tables_insert (ts : list (option fdtable)) me t t' :
  (∀ i t, ts !! i = Some (Some t) → max_fds t = 64 ∧ zlen (fds t) = 64 ∧ zlen (fd_flags t) = 64) →
  ts !! me = Some (Some t) → max_fds t' = 64 ∧ zlen (fds t') = 64 ∧ zlen (fd_flags t') = 64 →
  ∀ i u, <[me := Some t']> ts !! i = Some (Some u) → max_fds u = 64 ∧ zlen (fds u) = 64 ∧ zlen (fd_flags u) = 64.
Proof.
  intros Ht Hme Ht' i u [(<- & [= ->] & _)|(_ & Hi)]%list_lookup_insert_Some; [done|by apply (Ht i)].
Qed.

(** Storing [p] in a slot that held [q]. *)
Lemma set_slot_spec pend pend' s me t i q p :
  fd_inv (tables s) pend s → tables s !! me = Some (Some t) → 0 ≤ i < 64 → at_ (fds t) i = q →
  zlen pend' < 2 ^ 24 →
  (∀ x, x ≠ 0 → ((if decide (p = x) then 1 else 0) + occ x pend' = (if decide (q = x) then 1 else 0) + occ x pend)%nat) →
  swp (set_slot me i p) s (λ _ s', fd_inv (tables s') pend' s' ∧ files s' = files s ∧
    tables s' = <[me := Some (set_fds (<[Z.to_nat i := p]> (fds t)) t)]> (tables s)).
Proof.
  intros Hi Hme Hb Hq Hsz Heq. destruct (inv_table _ _ _ Hi _ _ Hme) as (Hm & Hl & Hfl).
  unfold set_slot, swp. rewrite Hme, aset_ok by lia. simpl. split; [|done].
  eapply (inv_move _ _ _ _ _ _ Hi); [done|done| | |]; simpl.
  - eapply tables_insert; [apply Hi|done|]. simpl. by rewrite length_insert.
  - rewrite length_insert. split; [apply (inv_size _ _ _ Hi)|done].
  - intros x Hx. specialize (Heq x Hx). pose proof (refs_insert x (tables s) me _ (Some (set_fds (<[Z.to_nat i := p]> (fds t)) t)) Hme) as Hr.
    simpl in Hr. assert (fds t !! Z.to_nat i = Some q) as Hlk.
    { subst q. unfold at_. apply list_lookup_lookup_total_lt. lia. }
    pose proof (occ_insert x _ _ _ p Hlk). lia.
Qed.

(** Storing a flag, or the next descriptor: nothing moves. *)
Lemma upd_table_spec pend s me t f (Q : () → fdst St → Prop) :
  fd_inv (tables s) pend s → tables s !! me = Some (Some t) → fds (f t) = fds t →
  max_fds (f t) = 64 ∧ zlen (fd_flags (f t)) = 64 →
  (∀ s', fd_inv (tables s') pend s' → files s' = files s → tables s' = <[me := Some (f t)]> (tables s) → Q () s') →
  swp (upd_table me f) s Q.
Proof.
  intros Hi Hme Hfd (Hm & Hfl) HQ. unfold upd_table, swp. rewrite Hme. apply HQ; [|done|done]. simpl.
  eapply (inv_move _ _ _ _ _ _ Hi); [done|done| | |]; simpl.
  - eapply tables_insert; [apply Hi|done|]. rewrite Hfd. split; [done|]. split; [|done]. by apply (inv_table _ _ _ Hi _ _ Hme).
  - rewrite length_insert. apply (inv_size _ _ _ Hi).
  - intros x _. pose proof (refs_insert x (tables s) me _ (Some (f t)) Hme) as Hr. simpl in Hr. rewrite Hfd in Hr. lia.
Qed.

Lemma set_slot_flags_spec pend s me t i x (Q : () → fdst St → Prop) :
  fd_inv (tables s) pend s → tables s !! me = Some (Some t) → 0 ≤ i < 64 →
  (∀ s', fd_inv (tables s') pend s' → files s' = files s →
    tables s' = <[me := Some (set_fd_flags (<[Z.to_nat i := x]> (fd_flags t)) t)]> (tables s) → Q () s') →
  swp (set_slot_flags me i x) s Q.
Proof.
  intros Hi Hme Hb HQ. destruct (inv_table _ _ _ Hi _ _ Hme) as (Hm & Hl & Hfl).
  assert (set_slot_flags me i x s = upd_table me (set_fd_flags (<[Z.to_nat i := x]> (fd_flags t))) s) as He.
  { unfold set_slot_flags, upd_table. by rewrite Hme, aset_ok by lia. }
  unfold swp. rewrite He. eapply upd_table_spec; [done|done|done| |done]. simpl. by rewrite length_insert.
Qed.

(** One more reference under way. *)
Lemma add_ref_spec pend s p f (Q : () → fdst St → Prop) :
  fd_inv (tables s) pend s → zlen pend + 1 < 2 ^ 24 → files s !! p = Some f →
  (∀ s', fd_inv (tables s') (p :: pend) s' → tables s' = tables s → Q () s') →
  swp (upd_file p (set_count (s32 (count f + 1)))) s Q.
Proof.
  intros Hi Hsz Hf HQ. pose proof (inv_refs _ _ _ p Hi) as Hr. destruct Hi as [Ht Hsz0 Hfile Hcnt Hvn].
  destruct (Hcnt p f Hf) as (Hp & Hc & Hc0). eapply upd_file_spec; [done|]. apply HQ; [|done].
  assert (s32 (count f + 1) = Z.of_nat (refs (tables s) p + occ p (p :: pend))) as ->.
  { rewrite occ_cons, decide_True by done. unfold s32. rewrite Z.mod_small by lia. lia. }
  split; simpl; [done|lia| | |].
  - intros q Hq Hpos. apply lookup_insert_is_Some. destruct (decide (p = q)) as [?|Hne]; [by left|right]. split; [done|].
    apply Hfile; [done|]. by rewrite occ_cons, decide_False in Hpos by done.
  - intros q g Hg. apply lookup_insert_Some in Hg as [(<- & <-)|(Hne & Hg)].
    + split; [done|]. split; [done|]. simpl. rewrite occ_cons, decide_True by done. lia.
    + rewrite occ_cons, decide_False by done. by apply Hcnt.
  - intros q g Hg. apply lookup_insert_Some in Hg as [(<- & <-)|(Hne & Hg)]; [apply (Hvn p f Hf)|by apply (Hvn q)].
Qed.
End inv.

(** * Descriptor calls and the reference counts *)

Open Scope sm_scope.

Section ops.
Context {St : Type} `{!FileOps St}.
Implicit Types (s : fdst St).

Lemma table_of_spec s me t (Q : option fdtable → fdst St → Prop) :
  tables s !! me = Some (Some t) → Q (Some t) s → swp (table_of me) s Q.
Proof. unfold table_of, swp. by intros ->. Qed.

Lemma slot_spec s t i (Q : Z → fdst St → Prop) :
  0 ≤ i < zlen (fds t) → Q (at_ (fds t) i) s → swp (slot t i) s Q.
Proof. intros Hi HQ. unfold slot. by eapply swp_lift; [apply aget_ok|]. Qed.

(** What an update of one table leaves. *)
Definition retabled (s s' : fdst St) (me : nat) (t' : fdtable) : Prop :=
  tables s !! me ≠ None ∧ tables s' = <[me := Some t']> (tables s).

Lemma retabled_at s s' me t' : retabled s s' me t' → tables s' !! me = Some (Some t').
Proof. intros (Hn & ->). apply list_lookup_insert_eq. apply lookup_lt_is_Some. by destruct (tables s !! me). Qed.

Lemma retabled_trans s s1 s2 me t1 t2 : retabled s s1 me t1 → retabled s1 s2 me t2 → retabled s s2 me t2.
Proof. intros (Hn & H1) (_ & H2). split; [done|]. by rewrite H2, H1, list_insert_insert_eq. Qed.

Lemma open_slot_spec s me fd t :
  fd_ok s → tables s !! me = Some (Some t) →
  swp (open_slot me fd) s (λ o s', s' = s ∧ match o with
    | None => ¬ (0 ≤ fd < 64 ∧ at_ (fds t) fd ≠ 0)
    | Some (t', p) => t' = t ∧ 0 ≤ fd < 64 ∧ at_ (fds t) fd = p ∧ p ≠ 0
    end).
Proof.
  intros Hok Hme. destruct (inv_table _ _ _ Hok _ _ Hme) as (Hm & Hl & _). unfold open_slot.
  apply swp_bind. eapply table_of_spec; [done|]. rewrite Hm. change (s32 64) with 64.
  apply swp_if; intros Hb.
  - apply swp_ret. split; [done|]. apply orb_true_iff in Hb. lia.
  - apply orb_false_iff in Hb. apply swp_bind. apply slot_spec; [lia|].
    apply swp_if; intros Hz; apply swp_ret; (split; [done|]); [lia|]. split_and!; try done; lia.
Qed.

(** The file of a slot exists. *)
Lemma slot_file s me t i : fd_ok s → tables s !! me = Some (Some t) → 0 ≤ i < 64 → at_ (fds t) i ≠ 0 → is_Some (files s !! at_ (fds t) i).
Proof.
  intros Hok Hme Hi Hp. apply (inv_file _ _ _ Hok); [done|]. destruct (inv_table _ _ _ Hok _ _ Hme) as (_ & Hl & _).
  pose proof (refs_insert (at_ (fds t) i) _ _ _ None Hme) as Hr. simpl in Hr.
  assert (0 < occ (at_ (fds t) i) (fds t))%nat; [|rewrite ?occ_nil in *; lia].
  apply occ_pos. unfold at_. apply list_elem_of_lookup_total_2. lia.
Qed.

Lemma first_free_spec s t n : ∀ i,
  0 ≤ i → i + Z.of_nat n ≤ zlen (fds t) →
  swp (first_free n t i) s (λ o s', s' = s ∧ match o with
    | Some k => i ≤ k < i + Z.of_nat n ∧ at_ (fds t) k = 0 ∧ ∀ j, i ≤ j < k → at_ (fds t) j ≠ 0
    | None => ∀ j, i ≤ j < i + Z.of_nat n → at_ (fds t) j ≠ 0
    end).
Proof.
  induction n as [|n IH]; intros i Hi Hn; simpl.
  { apply swp_ret. split; [done|]. intros. lia. }
  apply swp_bind, slot_spec; [lia|]. destruct (Z.eqb_spec (at_ (fds t) i) 0) as [Hz|Hz].
  - apply swp_ret. split_and!; try done; lia.
  - eapply swp_mono; [apply IH; lia|]. intros [k|] s' (-> & Hk); (split; [done|]).
    + destruct Hk as (Hk & Hk0 & Hlow). split_and!; [lia|lia|done|]. intros j Hj.
      destruct (decide (j = i)) as [->|]; [done|]. apply Hlow. lia.
    + intros j Hj. destruct (decide (j = i)) as [->|]; [done|]. apply Hk. lia.
Qed.

(** A free descriptor gets one more reference to an open file. *)
Lemma install_fd_spec s me t newfd p fl f :
  fd_ok s → tables s !! me = Some (Some t) → 0 ≤ newfd < 64 → at_ (fds t) newfd = 0 → files s !! p = Some f →
  swp (install me newfd p fl) s (λ _ s', fd_ok s' ∧ ∃ t', retabled s s' me t' ∧
    fds t' = <[Z.to_nat newfd := p]> (fds t) ∧ fd_flags t' = <[Z.to_nat newfd := fl]> (fd_flags t)).
Proof.
  intros Hok Hme Hn Hz Hf. destruct (inv_table _ _ _ Hok _ _ Hme) as (Hm & Hl & Hfl).
  unfold install. apply swp_bind. eapply file_at_spec; [done|]. apply swp_bind.
  eapply (add_ref_spec [] s p f); [done|done|done|]. intros s1 H1 Ht1.
  assert (tables s1 !! me = Some (Some t)) as Hme1 by by rewrite Ht1.
  apply swp_bind. eapply set_slot_flags_spec; [exact H1|done|done|]. intros s2 H2 Hf2 Ht2.
  assert (retabled s1 s2 me (set_fd_flags (<[Z.to_nat newfd := fl]> (fd_flags t)) t)) as R2 by (split; [by rewrite Hme1|done]).
  pose proof (retabled_at _ _ _ _ R2) as Hme2. apply swp_bind.
  eapply swp_mono; [eapply (set_slot_spec [p] [] s2 me _ newfd 0 p); [exact H2|exact Hme2|done|done|done|]|].
  { intros x Hx. rewrite occ_cons. rewrite (decide_False (P := 0 = x)) by done. rewrite occ_nil. lia. }
  intros [] s3 (H3 & Hf3 & Ht3). simpl in Ht3.
  assert (retabled s2 s3 me (set_fds (<[Z.to_nat newfd := p]> (fds t)) (set_fd_flags (<[Z.to_nat newfd := fl]> (fd_flags t)) t))) as R3
    by (split; [by rewrite Hme2|done]).
  pose proof (retabled_at _ _ _ _ R3) as Hme3.
  eapply upd_table_spec; [exact H3|exact Hme3|by destruct (_ <=? _)| |].
  { destruct (_ <=? _); simpl; rewrite length_insert; done. }
  intros s4 H4 Hf4 Ht4. split; [exact H4|]. eexists. split.
  - split; [by rewrite Hme|]. rewrite Ht4, Ht3, Ht2, Ht1, !list_insert_insert_eq. done.
  - by destruct (_ <=? _).
Qed.

Lemma emit_inv ts pend s e : fd_inv ts pend s → fd_inv ts pend (mkFd (tables s) (files s) (vnodes s) (store s) (trace s ++ [e])).
Proof. intros []. by split. Qed.

Definition is_open (t : fdtable) (fd : Z) : Prop := 0 ≤ fd < 64 ∧ at_ (fds t) fd ≠ 0.

Lemma close_spec s me fd t :
  fd_ok s → tables s !! me = Some (Some t) →
  swp (syscall_close me fd) s (λ z s', fd_ok s' ∧
    (is_open t fd → z = 0 ∧ ∃ t', retabled s s' me t' ∧ fds t' = <[Z.to_nat fd := 0]> (fds t) ∧ fd_flags t' = fd_flags t ∧
      (files s' !! at_ (fds t) fd = None ↔ refs (tables s') (at_ (fds t) fd) = 0%nat)) ∧
    (¬ is_open t fd → z = - EBADF ∧ s' = s)).
Proof.
  intros Hok Hme. unfold syscall_close. apply swp_bind, swp_bind. eapply table_of_spec; [done|]. apply swp_ret, swp_bind.
  eapply swp_mono; [by eapply open_slot_spec|].
  intros [(t' & p)|] s' (-> & Ho).
  2: { apply swp_ret. split_and!; [done|intros Hop; by destruct Ho|done]. }
  destruct Ho as (-> & Hb & Hp & Hp0). apply swp_bind.
  eapply swp_mono; [eapply (set_slot_spec [] [p] s me t fd p 0); [exact Hok|done|done|done|done|]|].
  { intros x Hx. rewrite occ_cons, occ_nil. rewrite (decide_False (P := 0 = x)) by done. lia. }
  intros [] s1 (H1 & Hf1 & Ht1). apply swp_bind.
  destruct (inv_file _ _ _ H1 p Hp0) as (f & Hf); [rewrite occ_cons, decide_True by done; lia|].
  eapply file_at_spec; [done|]. apply swp_bind. eapply swp_mono; [by apply (drop_ref_spec _ _ _ _ H1)|].
  intros [] s2 H2. apply swp_bind.
  apply (swp_mono _ _ (λ _ s', fd_inv (tables s1) [] s' ∧ tables s' = tables s1 ∧ (files s' !! p = None ↔ (refs (tables s1) p + occ p [])%nat = 0%nat))).
  { destruct H2 as (H2 & H2'). apply swp_when; intros _; [|done]. by split; [apply emit_inv|]. }
  clear s2 H2. intros [] s2 H2. apply swp_bind.
  apply (swp_mono _ _ (λ _ s', fd_inv (tables s1) [] s' ∧ tables s' = tables s1 ∧ (files s' !! p = None ↔ (refs (tables s1) p + occ p [])%nat = 0%nat))).
  { destruct H2 as (H2 & H2'). by split; [apply emit_inv|]. }
  clear s2 H2. intros [] s2 (H2 & Ht2 & Hfree). apply swp_ret. rewrite <- Ht2 in H2, Hfree. rewrite occ_nil, Nat.add_0_r in Hfree.
  split; [exact H2|]. split; [|intros Hn; by destruct Hn; subst p].
  intros _. split; [done|]. eexists. split; [split; [by rewrite Hme|by rewrite Ht2, Ht1]|]. subst p. done.
Qed.

Lemma dup_from_spec s me t p f start fl :
  fd_ok s → tables s !! me = Some (Some t) → files s !! p = Some f → 0 ≤ start →
  swp (dup_from me t p start fl) s (λ z s', fd_ok s' ∧
    ((z = - EMFILE ∧ s' = s ∧ ∀ j, start ≤ j < 64 → at_ (fds t) j ≠ 0) ∨
     (start ≤ z < 64 ∧ at_ (fds t) z = 0 ∧ (∀ j, start ≤ j < z → at_ (fds t) j ≠ 0) ∧
      ∃ t', retabled s s' me t' ∧ fds t' = <[Z.to_nat z := p]> (fds t) ∧ fd_flags t' = <[Z.to_nat z := fl]> (fd_flags t)))).
Proof.
  intros Hok Hme Hf Hs. destruct (inv_table _ _ _ Hok _ _ Hme) as (Hm & Hl & _). unfold dup_from. rewrite Hm.
  change (s32 64) with 64. apply swp_bind. destruct (Z.le_gt_cases 64 start) as [Hge|Hlt].
  { replace (Z.to_nat (64 - start)) with 0%nat by lia. apply swp_ret, swp_ret. split; [done|]. left. split_and!; try done. lia. }
  eapply swp_mono; [apply (first_free_spec s t (Z.to_nat (64 - start)) start); lia|].
  intros [k|] s' (-> & Hk).
  - destruct Hk as (Hk & Hk0 & Hlow). apply swp_bind. eapply swp_mono; [eapply (install_fd_spec s me t k p fl f); try done; lia|].
    intros [] s' (H' & t' & Hr & Ht'). apply swp_ret. split; [done|]. right. split_and!; try done; try lia. eauto.
  - apply swp_ret. split; [done|]. left. split_and!; try done. intros j Hj. apply Hk. lia.
Qed.

(** A call is fine when it returns and keeps the invariant and the other
    processes' tables. *)
Definition fine {A} (me : nat) (m : SM (fdst St) A) (s : fdst St) : Prop :=
  swp m s (λ _ s', fd_ok s' ∧ length (tables s') = length (tables s) ∧
    (∃ t', tables s' !! me = Some (Some t')) ∧ ∀ j, j ≠ me → tables s' !! j = tables s !! j).

Lemma fine_same {A} me (a : A) s t : fd_ok s → tables s !! me = Some (Some t) → fine me (mret a) s.
Proof. intros Hok Hme. apply swp_ret. eauto. Qed.

Lemma retabled_fine s s' me t' :
  fd_ok s' → retabled s s' me t' →
  fd_ok s' ∧ length (tables s') = length (tables s) ∧
  (∃ t', tables s' !! me = Some (Some t')) ∧ ∀ j, j ≠ me → tables s' !! j = tables s !! j.
Proof.
  intros Hok Hr. split; [done|]. split; [by destruct Hr as (_ & ->); rewrite length_insert|].
  split; [by eexists; apply (retabled_at _ _ _ _ Hr)|].
  intros j Hj. destruct Hr as (_ & ->). by apply list_lookup_insert_ne.
Qed.

Lemma dup_from_fine s me t p f start fl :
  fd_ok s → tables s !! me = Some (Some t) → files s !! p = Some f → 0 ≤ start → fine me (dup_from me t p start fl) s.
Proof.
  intros Hok Hme Hf Hs. eapply swp_mono; [by apply (dup_from_spec s me t p f start fl)|].
  intros z s' (H' & [(_ & -> & _)|(_ & _ & _ & t' & Hr & _)]); [by eauto|]. by eapply retabled_fine.
Qed.

Lemma dup_fine s me t oldfd : fd_ok s → tables s !! me = Some (Some t) → fine me (syscall_dup me oldfd) s.
Proof.
  intros Hok Hme. unfold fine, syscall_dup. apply swp_bind. eapply swp_mono; [by eapply open_slot_spec|].
  intros [(t' & p)|] s' (-> & Ho); [|by apply (fine_same me (- EBADF) s t)]. destruct Ho as (-> & Hb & Hp & Hp0). subst p.
  destruct (slot_file s me t oldfd Hok Hme Hb Hp0) as (f & Hf). by apply (dup_from_fine s me t _ f).
Qed.

Lemma close_fine s me t fd : fd_ok s → tables s !! me = Some (Some t) → fine me (syscall_close me fd) s.
Proof.
  intros Hok Hme. eapply swp_mono; [by apply (close_spec s me fd t)|]. intros z s' (H' & Hyes & Hno).
  destruct (decide (0 ≤ fd < 64 ∧ at_ (fds t) fd ≠ 0)) as [Ho|Ho].
  - destruct (Hyes Ho) as (_ & t' & Hr & _). by eapply retabled_fine.
  - destruct (Hno Ho) as (_ & ->). eauto.
Qed.

Lemma fine_bind {A B} me (m : SM (fdst St) A) (k : A → SM (fdst St) B) s :
  fine me m s → (∀ a s' t', fd_ok s' → tables s' !! me = Some (Some t') → fine me (k a) s') → fine me (m ≫= k) s.
Proof.
  intros Hm Hk. apply swp_bind. eapply swp_mono; [exact Hm|]. intros a s1 (H1 & Hl1 & (t1 & Hme1) & Hoth1).
  eapply swp_mono; [by apply (Hk a s1 t1)|]. intros b s2 (H2 & Hl2 & Hme2 & Hoth2).
  split_and!; [done|by rewrite Hl2|done|]. intros j Hj. by rewrite Hoth2, Hoth1.
Qed.

Lemma dup2_fine s me t oldfd newfd : fd_ok s → tables s !! me = Some (Some t) → fine me (syscall_dup2 me oldfd newfd) s.
Proof.
  intros Hok Hme. destruct (inv_table _ _ _ Hok _ _ Hme) as (Hm & Hl & _).
  unfold fine, syscall_dup2. apply swp_bind. eapply swp_mono; [by eapply open_slot_spec|].
  intros [(t' & p)|] s' (-> & Ho); [|by apply (fine_same me (- EBADF) s t)]. destruct Ho as (-> & Hb & Hp & Hp0).
  rewrite Hm. change (s32 64) with 64. apply swp_if; intros Hnb; [by apply (fine_same me (- EBADF) s t)|].
  apply swp_if; intros Hne; [by apply (fine_same me newfd s t)|]. apply orb_false_iff in Hnb. apply Z.eqb_neq in Hne.
  apply swp_bind, slot_spec; [lia|].
  (* after the close the new descriptor is free and the old one still open *)
  apply swp_bind. apply (swp_mono _ _ (λ _ s', fd_ok s' ∧ ∃ t', retabled s s' me t' ∧ at_ (fds t') newfd = 0 ∧ at_ (fds t') oldfd = p)).
  - apply swp_if; intros Hq.
    + apply swp_bind. eapply swp_mono; [by apply (close_spec s me newfd t)|]. intros z s1 (H1 & Hyes & _). apply swp_ret.
      destruct Hyes as (_ & t1 & Hr & Ht1 & _); [split; lia|]. split; [done|]. exists t1. split; [done|].
      rewrite Ht1, !at_insert by lia. rewrite decide_True, decide_False by done. done.
    + apply swp_ret. split; [done|]. exists t. split; [split; [by rewrite Hme|by rewrite list_insert_id]|]. split; [lia|done].
  - intros [] s1 (H1 & t1 & Hr1 & Hn1 & Ho1). pose proof (retabled_at _ _ _ _ Hr1) as Hme1.
    destruct (slot_file s1 me t1 oldfd H1 Hme1 Hb ltac:(lia)) as (f & Hf). rewrite Ho1 in Hf.
    apply swp_bind. eapply swp_mono; [apply (install_fd_spec s1 me t1 newfd p 0 f); try done; lia|].
    intros [] s2 (H2 & t2 & Hr2 & _). apply swp_ret. eapply retabled_fine; [done|]. by eapply retabled_trans.
Qed.

(** A change of a file that keeps its count and vnode. *)
Lemma upd_file_inv pend s p f g (Q : () → fdst St → Prop) :
  fd_inv (tables s) pend s → files s !! p = Some f → count (g f) = count f →
  (vnode_ptr (g f) = vnode_ptr f ∨ is_Some (vnodes s !! vnode_ptr (g f))) →
  (∀ s', fd_inv (tables s') pend s' → tables s' = tables s → files s' = <[p := g f]> (files s) → Q () s') → swp (upd_file p g) s Q.
Proof.
  intros [Ht Hsz Hfile Hcnt Hvn] Hf Hc Hv HQ. eapply upd_file_spec; [done|]. apply HQ; [|done|done]. split; simpl; [done|done| | |].
  - intros q Hq Hpos. apply lookup_insert_is_Some. destruct (decide (p = q)); auto.
  - intros q h Hg. apply lookup_insert_Some in Hg as [(<- & <-)|(_ & Hg)]; [rewrite Hc; by apply Hcnt|by apply Hcnt].
  - intros q h Hg. apply lookup_insert_Some in Hg as [(<- & <-)|(_ & Hg)]; [|by apply (Hvn q)].
    destruct Hv as [->|Hv]; [by apply (Hvn p)|by right].
Qed.

Lemma upd_file_ok s p f g (Q : () → fdst St → Prop) :
  fd_ok s → files s !! p = Some f → count (g f) = count f → vnode_ptr (g f) = vnode_ptr f →
  (∀ s', fd_ok s' → tables s' = tables s → Q () s') → swp (upd_file p g) s Q.
Proof. intros Hok Hf Hc Hv HQ. eapply (upd_file_inv []); eauto. Qed.

Lemma fcntl_fine s me t fd cmd arg : fd_ok s → tables s !! me = Some (Some t) → fine me (syscall_fcntl me fd cmd arg) s.
Proof.
  intros Hok Hme. destruct (inv_table _ _ _ Hok _ _ Hme) as (Hm & Hl & Hfl).
  unfold fine, syscall_fcntl. apply swp_bind. eapply swp_mono; [by eapply open_slot_spec|].
  intros [(t' & p)|] s' (-> & Ho); [|by apply (fine_same me (- EBADF) s t)]. destruct Ho as (-> & Hb & Hp & Hp0).
  destruct (slot_file s me t fd Hok Hme Hb ltac:(lia)) as (f & Hf). rewrite Hp in Hf.
  assert (0 ≤ if s32 arg <? 0 then 0 else s32 arg) as Hst by (destruct (Z.ltb_spec (s32 arg) 0); lia).
  do 2 (apply swp_if; intros _; [by apply (dup_from_fine s me t p f)|]).
  apply swp_if; intros _; [eapply swp_lift; [apply aget_ok; lia|]; by eauto|].
  apply swp_if; intros _.
  { apply swp_bind. eapply set_slot_flags_spec; [exact Hok|done|done|]. intros s1 H1 _ Ht1. apply swp_ret.
    eapply retabled_fine; [exact H1|]. split; [by rewrite Hme|done]. }
  apply swp_if; intros _; [apply swp_bind; eapply file_at_spec; [done|]; by apply (fine_same me (flags f) s t)|].
  apply swp_if; intros _; [|by apply (fine_same me (- EINVAL) s t)].
  apply swp_bind. eapply file_at_spec; [done|]. apply swp_bind. eapply upd_file_ok; [done..|]. intros s1 H1 Ht1.
  apply swp_ret. rewrite Ht1. eauto.
Qed.

Lemma close_on_exec_fine me n : ∀ s t i,
  fd_ok s → tables s !! me = Some (Some t) → 0 ≤ i → i + Z.of_nat n ≤ 64 → fine me (close_on_exec n me i) s.
Proof.
  induction n as [|n IH]; intros s t i Hok Hme Hi Hn; [by apply (fine_same me () s t)|].
  destruct (inv_table _ _ _ Hok _ _ Hme) as (Hm & Hl & Hfl).
  cbn [close_on_exec]. apply swp_bind. eapply table_of_spec; [done|]. apply swp_bind, slot_spec; [lia|].
  apply swp_bind. eapply swp_lift; [apply aget_ok; lia|]. apply fine_bind.
  - apply swp_if; intros _; [|by apply (fine_same me () s t)]. apply fine_bind; [by eapply close_fine|].
    intros z s1 t1 H1 Hme1. by apply (fine_same me () s1 t1).
  - intros [] s1 t1 H1 Hme1. apply (IH s1 t1); [done|done|lia|lia].
Qed.
End ops.
