(* ===== verification/FdFork.v ===== *)
(** * Tables at fork, exit and when files are opened *)

From S2P Require Import Prelude StateM Fd FdOps.

Open Scope sm_scope.

Section fork.
Context {St : Type} `{!FileOps St}.
Implicit Types (s : fdst St).

(** ** A new file *)

Lemma alloc_fd_spec pend s p :
  fd_inv (tables s) pend s → zlen pend + 1 < 2 ^ 24 → p ≠ 0 → files s !! p = None →
  swp (alloc_fd p) s (λ _ s', fd_inv (tables s') (p :: pend) s' ∧ tables s' = tables s ∧
    files s' = <[p := mkFile 1 None 0 0 0 0 None 0]> (files s)).
Proof.
  intros [Ht Hsz Hfile Hcnt Hvn] Hs Hp Hn. unfold alloc_fd, swp. split; [|done].
  assert (refs (tables s) p + occ p pend = 0)%nat as H0.
  { destruct (decide (refs (tables s) p + occ p pend = 0)%nat) as [|Hne]; [done|].
    destruct (Hfile p Hp) as (f & Hf); [lia|]. by rewrite Hn in Hf. }
  split; simpl; [done|lia| | |].
  - intros q Hq Hpos. apply lookup_insert_is_Some. destruct (decide (p = q)) as [?|Hne]; [by left|right]. split; [done|].
    apply Hfile; [done|]. by rewrite occ_cons, decide_False in Hpos by done.
  - intros q g Hg. apply lookup_insert_Some in Hg as [(<- & <-)|(Hne & Hg)].
    + simpl. rewrite occ_cons, decide_True by done. split; [done|]. lia.
    + rewrite occ_cons, decide_False by done. by apply Hcnt.
  - intros q g Hg. apply lookup_insert_Some in Hg as [(<- & <-)|(Hne & Hg)]; [by left|by apply (Hvn q)].
Qed.

(** The table after a step keeps its process's and the files others need. *)
Definition grown s s' (me : nat) (t' : fdtable) : Prop :=
  fd_ok s' ∧ retabled s s' me t' ∧ ∀ q, is_Some (files s !! q) → is_Some (files s' !! q).

Lemma install_new_spec s me t fd p o fl clo :
  fd_ok s → tables s !! me = Some (Some t) → 0 ≤ fd < 64 → at_ (fds t) fd = 0 → p ≠ 0 → files s !! p = None →
  swp (install_new me fd p o fl clo) s (λ _ s', ∃ t', grown s s' me t' ∧ fds t' = <[Z.to_nat fd := p]> (fds t) ∧
    is_Some (files s' !! p) ∧ ∀ q, q ≠ p → files s' !! q = files s !! q).
Proof.
  intros Hok Hme Hb Hz Hp Hn. unfold install_new. apply swp_bind.
  eapply swp_mono; [by apply (alloc_fd_spec [] s p)|]. intros [] s1 (H1 & Ht1 & Hf1). apply swp_bind.
  eapply (upd_file_inv [p] s1 p); [exact H1|rewrite Hf1; apply lookup_insert_eq|done|by left|]. intros s2 H2 Ht2 Hf2.
  rewrite Hf1, insert_insert_eq in Hf2. rewrite Ht1 in Ht2. apply swp_bind.
  eapply swp_mono; [eapply (set_slot_spec [p] [] s2 me t fd 0 p); [exact H2|by rewrite Ht2|done|done|done|]|].
  { intros x Hx. rewrite occ_cons, occ_nil. rewrite (decide_False (P := 0 = x)) by done. lia. }
  intros [] s3 (H3 & Hf3 & Ht3). rewrite Ht2 in Ht3.
  assert (retabled s s3 me (set_fds (<[Z.to_nat fd := p]> (fds t)) t)) as R3 by (split; [by rewrite Hme|done]).
  pose proof (retabled_at _ _ _ _ R3) as Hme3. eapply set_slot_flags_spec; [exact H3|exact Hme3|done|].
  intros s4 H4 Hf4 Ht4. eexists. assert (files s4 = files s2) as Hf by congruence. rewrite Hf, Hf2. split_and!; [split_and!|..].
  - exact H4.
  - eapply retabled_trans; [exact R3|]. split; [by rewrite Hme3|exact Ht4].
  - intros q Hq. rewrite Hf, Hf2. apply lookup_insert_is_Some. destruct (decide (p = q)); auto.
  - done.
  - by rewrite lookup_insert_eq.
  - intros q Hq. by apply lookup_insert_ne.
Qed.

Lemma attach_fifo_spec s p vp id :
  fd_ok s → is_Some (files s !! p) →
  swp (attach_fifo p vp id) s (λ _ s', fd_ok s' ∧ tables s' = tables s ∧ ∀ q, is_Some (files s !! q) → is_Some (files s' !! q)).
Proof.
  intros Hok (f & Hf). unfold attach_fifo. apply swp_bind. unfold swp at 1. set (s1 := mkFd _ _ _ _ _).
  assert (fd_ok s1) as H1.
  { destruct Hok as [Ht Hsz Hfile Hcnt Hvn]. split; try done. intros q g Hg. destruct (Hvn q g Hg) as [?|Hv]; [by left|right].
    unfold s1. simpl. apply lookup_insert_is_Some. destruct (decide (vp = vnode_ptr g)); auto. }
  eapply (upd_file_inv [] s1 p f); [exact H1|done|done| |].
  { right. unfold s1. simpl. by rewrite lookup_insert_eq. }
  intros s' H' Ht Hf'. split_and!; [done|done|]. intros q Hq. rewrite Hf'. apply lookup_insert_is_Some. destruct (decide (p = q)); auto.
Qed.

(** Storing what a slot holds, and moving [next_fd], keep the table. *)
Lemma set_same_fine s me t fd :
  fd_ok s → tables s !! me = Some (Some t) → 0 ≤ fd < 64 →
  swp (set_slot me fd (at_ (fds t) fd)) s (λ _ s', fd_ok s' ∧ retabled s s' me t).
Proof.
  intros Hok Hme Hb. eapply swp_mono; [by apply (set_slot_spec [] [] s me t fd (at_ (fds t) fd) (at_ (fds t) fd))|].
  intros [] s' (H' & _ & Ht). split; [done|]. split; [by rewrite Hme|]. rewrite Ht. do 2 f_equal.
  destruct (inv_table _ _ _ Hok _ _ Hme) as (_ & Hl & _). unfold at_. rewrite list_insert_id; [by destruct t|].
  apply list_lookup_lookup_total_lt. lia.
Qed.

Lemma bump_fine s me t fd : fd_ok s → tables s !! me = Some (Some t) → fine me (bump_next_fd me fd) s.
Proof.
  intros Hok Hme. destruct (inv_table _ _ _ Hok _ _ Hme) as (Hm & _ & Hfl). unfold fine, bump_next_fd.
  eapply upd_table_spec; [exact Hok|exact Hme|by destruct (_ <=? _)|by destruct (_ <=? _)|].
  intros s' H' _ Ht. eapply retabled_fine; [exact H'|]. split; [by rewrite Hme|exact Ht].
Qed.

Lemma retabled_same s s' s'' me t' : retabled s s' me t' → tables s'' = tables s' → retabled s s'' me t'.
Proof. intros (H1 & H2) E. split; [done|]. by rewrite E. Qed.

Lemma syscall_pipe2_fine s me t fl rp wp rv wv id :
  fd_ok s → tables s !! me = Some (Some t) → rp ≠ 0 → wp ≠ 0 → rp ≠ wp → files s !! rp = None → files s !! wp = None →
  fine me (syscall_pipe2 me fl rp wp rv wv id) s.
Proof.
  intros Hok Hme Hr Hw Hne Hrn Hwn. destruct (inv_table _ _ _ Hok _ _ Hme) as (Hm & Hl & _).
  unfold fine, syscall_pipe2. apply swp_bind. eapply table_of_spec; [done|]. rewrite Hm. change (s32 64) with 64.
  apply swp_bind. eapply swp_mono; [apply (first_free_spec s t (Z.to_nat 64) 0); lia|].
  intros [rfd|] s' (-> & Hfr); [|by apply (fine_same me (- EMFILE, @None (Z * Z)) s t)]. destruct Hfr as (Hrb & Hr0 & _).
  apply swp_bind. eapply swp_mono; [apply (first_free_spec s t (Z.to_nat (64 - (rfd + 1))) (rfd + 1)); lia|].
  intros [wfd|] s' (-> & Hfw); [|by apply (fine_same me (- EMFILE, @None (Z * Z)) s t)]. destruct Hfw as (Hwb & Hw0 & _). set (nb := Z.land fl 2048).
  apply swp_bind. eapply swp_mono; [apply (install_new_spec s me t rfd rp); try done; lia|].
  intros [] s1 (t1 & (H1 & R1 & _) & Ht1 & Hr1 & Hf1). pose proof (retabled_at _ _ _ _ R1) as M1.
  apply swp_bind. eapply swp_mono; [apply (install_new_spec s1 me t1 wfd wp); [done|done|lia| |done|by rewrite Hf1]|].
  { rewrite Ht1, at_insert by lia. by case_decide; [lia|]. }
  intros [] s2 (t2 & (H2 & R2 & G2) & Ht2 & Hw2 & _). apply swp_bind.
  eapply swp_mono; [apply (attach_fifo_spec s2 rp rv id H2); by apply G2|]. intros [] s3 (H3 & T3 & G3). apply swp_bind.
  eapply swp_mono; [apply (attach_fifo_spec s3 wp wv (id + 1) H3); by apply G3|]. intros [] s4 (H4 & T4 & _).
  assert (retabled s s4 me t2) as R4 by (eapply retabled_same; [by eapply retabled_trans|congruence]).
  pose proof (retabled_at _ _ _ _ R4) as M4.
  assert (at_ (fds t2) rfd = rp ∧ at_ (fds t2) wfd = wp) as (Er & Ew).
  { rewrite Ht2, Ht1, !at_insert by (rewrite ?length_insert; lia). split; repeat case_decide; lia || done. }
  apply swp_bind. rewrite <- Er at 1. eapply swp_mono; [apply (set_same_fine s4 me t2 rfd H4 M4); lia|]. intros [] s5 (H5 & R5).
  pose proof (retabled_at _ _ _ _ R5) as M5. apply swp_bind. rewrite <- Ew at 1.
  eapply swp_mono; [apply (set_same_fine s5 me t2 wfd H5 M5); lia|]. intros [] s6 (H6 & R6).
  pose proof (retabled_at _ _ _ _ R6) as M6.
  assert (retabled s s6 me t2) as R by (eapply retabled_trans; [exact R4|by eapply retabled_trans]).
  destruct (retabled_fine s s6 me t2 H6 R) as (_ & L6 & _ & O6).
  eapply swp_mono; [apply (fine_bind me (bump_next_fd me rfd) (λ _, bump_next_fd me wfd ;; mret (0, Some (rfd, wfd))) s6)|].
  - by apply (bump_fine s6 me t2).
  - intros [] s7 t7 H7 M7. apply fine_bind; [by apply (bump_fine s7 me t7)|]. intros [] s8 t8 H8 M8. by apply (fine_same me (0, Some (rfd, wfd)) s8 t8).
  - intros z s9 (H9 & L9 & T9 & O9). split_and!; [done|congruence|done|]. intros j Hj. by rewrite O9, O6.
Qed.

(** ** Exit *)

Definition held_by (t : fdtable) (i : Z) : list Z := filter (λ p, p ≠ 0) (drop (Z.to_nat i) (fds t)).

Lemma held_by_step t i :
  0 ≤ i < zlen (fds t) →
  held_by t i = (if decide (at_ (fds t) i = 0) then [] else [at_ (fds t) i]) ++ held_by t (i + 1).
Proof.
  intros Hi. unfold held_by, at_. replace (Z.to_nat (i + 1)) with (Datatypes.S (Z.to_nat i)) by lia.
  erewrite (drop_S (fds t)); [|apply list_lookup_lookup_total_lt; lia]. rewrite filter_cons.
  repeat case_decide; done.
Qed.

Lemma free_loop_spec ts t n : ∀ s i,
  zlen (fds t) = 64 → 0 ≤ i → i + Z.of_nat n = 64 → fd_inv ts (held_by t i) s →
  swp (free_fdtable_loop n t i) s (λ _ s', fd_inv ts [] s' ∧ tables s' = tables s).
Proof.
  induction n as [|n IH]; intros s i Hl Hi Hn Hinv; simpl.
  { apply swp_ret. split; [|done]. unfold held_by in Hinv. by rewrite drop_ge in Hinv by lia. }
  apply swp_bind, slot_spec; [lia|]. rewrite held_by_step in Hinv by lia. apply swp_bind.
  apply (swp_mono _ _ (λ _ s', fd_inv ts (held_by t (i + 1)) s' ∧ tables s' = tables s)).
  - case_decide as Hz; [rewrite Hz; by apply swp_ret|]. rewrite (proj2 (Z.eqb_neq _ _) Hz).
    eapply swp_mono; [by apply (drop_ref_spec _ _ _ _ Hinv)|]. intros [] s1 (H1 & Ht1 & _). done.
  - intros [] s1 (H1 & Ht1). eapply swp_mono; [apply IH; [done|lia|lia|done]|]. intros [] s2 (H2 & Ht2). by rewrite Ht2.
Qed.

Lemma occ_held t x : x ≠ 0 → occ x (held_by t 0) = occ x (fds t).
Proof.
  intros Hx. unfold held_by. rewrite drop_0. induction (fds t) as [|p l IH]; [done|].
  rewrite filter_cons, occ_cons. case_decide as Hp; [by rewrite occ_cons, IH|]. rewrite IH. rewrite decide_False; [done|]. lia.
Qed.

Lemma free_fdtable_spec s me t :
  fd_ok s → tables s !! me = Some (Some t) →
  swp (free_fdtable me) s (λ _ s', fd_ok s' ∧ tables s' = <[me := None]> (tables s)).
Proof.
  intros Hok Hme. destruct (inv_table _ _ _ Hok _ _ Hme) as (Hm & Hl & Hfl).
  unfold free_fdtable. apply swp_bind. eapply table_of_spec; [done|]. rewrite Hm. apply swp_bind.
  eapply swp_mono; [eapply (free_loop_spec (<[me := None]> (tables s)) t); [done|lia|lia|]|].
  - eapply (inv_move _ _ _ _ _ _ Hok); [done|done| | |].
    + intros i u [(_ & [=] & _)|(_ & Hi)]%list_lookup_insert_Some. by apply (inv_table _ _ _ Hok i).
    + rewrite length_insert. split; [apply (inv_size _ _ _ Hok)|].
      assert (length (held_by t 0) ≤ 64)%nat; [|lia]. unfold held_by.
      pose proof (length_filter (λ p, p ≠ 0) (drop (Z.to_nat 0) (fds t))). rewrite length_drop in *. lia.
    + intros x Hx. pose proof (refs_insert x _ _ _ None Hme) as Hr. simpl in Hr.
      rewrite occ_held, ?occ_nil in * by done. lia.
  - intros [] s1 (H1 & Ht1). unfold free_table, swp. simpl. rewrite Ht1. split; [|done]. unfold fd_ok. simpl.
    eapply (inv_move _ _ _ _ _ _ H1); [done|done|apply H1|apply H1|done].
Qed.

(** ** Fork *)

Lemma occ_zeros n x : x ≠ 0 → occ x (replicate n 0) = 0%nat.
Proof. intros Hx. induction n as [|n IH]; [done|]. simpl. by rewrite occ_cons, decide_False, IH. Qed.

Lemma alloc_fdtable_spec s child :
  fd_ok s → tables s !! child = Some None →
  swp (alloc_fdtable child) s (λ _ s', fd_ok s' ∧ tables s' = <[child := Some new_fdtable]> (tables s) ∧ files s' = files s).
Proof.
  intros Hok Hc. unfold alloc_fdtable, swp. rewrite Hc. split; [|done]. unfold fd_ok. simpl.
  eapply (inv_move _ _ _ _ _ _ Hok); [done|done| | |].
  - intros i u [(_ & [= <-] & _)|(_ & Hi)]%list_lookup_insert_Some; [done|by apply (inv_table _ _ _ Hok i)].
  - rewrite length_insert. apply (inv_size _ _ _ Hok).
  - intros x Hx. pose proof (refs_insert x _ _ _ (Some new_fdtable) Hc) as Hr. cbn [entries] in Hr. rewrite occ_nil in *.
    change (fds new_fdtable) with (replicate 64 0) in Hr. rewrite occ_zeros in Hr by done. lia.
Qed.

(** The copy loop: entries below [i] are copied, the others still empty. *)
Lemma clone_fds_spec parent child t n : parent ≠ child → ∀ s i c,
  fd_ok s → tables s !! parent = Some (Some t) → tables s !! child = Some (Some c) →
  0 ≤ i → i + Z.of_nat n = 64 →
  (∀ j, 0 ≤ j < 64 → at_ (fds c) j = if decide (j < i) then at_ (fds t) j else 0) →
  swp (clone_fds n child t i) s (λ _ s', fd_ok s' ∧ ∃ c', retabled s s' child c' ∧ fds c' = fds t).
Proof.
  intros Hpc. induction n as [|n IH]; intros s i c Hok Hp Hc Hi Hn Hcp.
  { apply swp_ret. split; [done|]. exists c. split; [split; [by rewrite Hc|by rewrite list_insert_id]|].
    destruct (inv_table _ _ _ Hok _ _ Hc) as (_ & Hlc & _), (inv_table _ _ _ Hok _ _ Hp) as (_ & Hlt & _).
    apply at_ext; [lia|]. intros j Hj. rewrite Hcp by lia. rewrite decide_True by lia. done. }
  destruct (inv_table _ _ _ Hok _ _ Hc) as (_ & Hlc & _), (inv_table _ _ _ Hok _ _ Hp) as (_ & Hlt & Hft).
  cbn [clone_fds]. apply swp_bind, slot_spec; [lia|]. apply swp_bind.
  apply (swp_mono _ _ (λ _ s', fd_ok s' ∧ ∃ c', retabled s s' child c' ∧ fds c' = <[Z.to_nat i := at_ (fds t) i]> (fds c))).
  - apply swp_if; intros Hz.
    + apply negb_true_iff, Z.eqb_neq in Hz. destruct (slot_file s parent t i Hok Hp ltac:(lia) Hz) as (f & Hf).
      apply swp_bind. eapply file_at_spec; [done|]. apply swp_bind.
      eapply (add_ref_spec [] s); [exact Hok|done|done|]. intros s1 H1 Ht1. apply swp_bind.
      eapply swp_mono; [eapply (set_slot_spec [at_ (fds t) i] [] s1 child c i 0); [exact H1|by rewrite Ht1|lia| |done|]|].
      { rewrite Hcp by lia. by rewrite decide_False by lia. }
      { intros x Hx. rewrite occ_cons, occ_nil. rewrite (decide_False (P := 0 = x)) by done. lia. }
      intros [] s2 (H2 & _ & Ht2). rewrite Ht1 in Ht2.
      eassert (retabled s s2 child _) as R2 by (split; [by rewrite Hc|exact Ht2]).
      pose proof (retabled_at _ _ _ _ R2) as Hc2. apply swp_bind. eapply swp_lift; [apply aget_ok; lia|].
      eapply set_slot_flags_spec; [exact H2|exact Hc2|lia|]. intros s3 H3 _ Ht3. split; [exact H3|].
      eexists. split; [eapply retabled_trans; [exact R2|split; [by rewrite Hc2|exact Ht3]]|done].
    + apply negb_false_iff, Z.eqb_eq in Hz. rewrite Hz.
      eapply swp_mono; [eapply (set_slot_spec [] [] s child c i 0 0); [exact Hok|done|lia| |done|done]|].
      { rewrite Hcp by lia. by rewrite decide_False by lia. }
      intros [] s2 (H2 & _ & Ht2). split; [exact H2|]. eexists. split; [split; [by rewrite Hc|exact Ht2]|done].
  - intros [] s1 (H1 & c1 & R1 & Hc1). pose proof (retabled_at _ _ _ _ R1) as Hch.
    eapply swp_mono; [apply (IH s1 (i + 1) c1); try done; try lia|].
    + destruct R1 as (_ & ->). by rewrite list_lookup_insert_ne.
    + intros j Hj. rewrite Hc1, at_insert, Hcp by lia. repeat case_decide; try lia; by subst.
    + intros [] s2 (H2 & c2 & R2 & Hc2). split; [done|]. exists c2. split; [by eapply retabled_trans|done].
Qed.

Lemma fork_fdtable_spec s parent child t :
  fd_ok s → tables s !! parent = Some (Some t) → tables s !! child = Some None →
  swp (fork_fdtable parent child) s (λ _ s', fd_ok s' ∧ ∃ c, retabled s s' child c ∧ fds c = fds t).
Proof.
  intros Hok Hp Hc. assert (parent ≠ child) as Hpc by (intros ->; by simplify_eq).
  unfold fork_fdtable. apply swp_bind. eapply swp_mono; [by apply alloc_fdtable_spec|].
  intros [] s1 (H1 & Ht1 & _). assert (retabled s s1 child new_fdtable) as R1 by (split; [by rewrite Hc|done]).
  pose proof (retabled_at _ _ _ _ R1) as Hc1.
  assert (tables s1 !! parent = Some (Some t)) as Hp1 by (by rewrite Ht1, list_lookup_insert_ne).
  destruct (inv_table _ _ _ H1 _ _ Hp1) as (Hm & Hl & _).
  apply swp_bind. eapply table_of_spec; [done|]. apply swp_bind.
  eapply upd_table_spec; [exact H1|exact Hc1|done|by rewrite Hm|]. intros s2 H2 _ Ht2.
  eassert (retabled s1 s2 child _) as R2 by (split; [by rewrite Hc1|exact Ht2]).
  pose proof (retabled_at _ _ _ _ R2) as Hc2. rewrite Hm.
  eapply swp_mono; [eapply (clone_fds_spec parent child t 64 Hpc s2 0); [exact H2| |exact Hc2|lia|lia|]|].
  - by rewrite Ht2, list_lookup_insert_ne.
  - intros j Hj. simpl. rewrite decide_False by lia. unfold at_. apply (lookup_total_replicate_2 64). lia.
  - intros [] s3 (H3 & c & R3 & Hcf). split; [done|]. exists c. split; [|done].
    eapply retabled_trans; [exact R1|]. eapply retabled_trans; [exact R2|exact R3].
Qed.
End fork.
