(* ===== verification/FdThm.v ===== *)
(** * Properties of descriptor tables *)

From stdpp Require Import relations.
From S2P Require Import Prelude StateM Fd FdOps FdFork.

Open Scope sm_scope.

Section thm.
Context {St : Type} `{!FileOps St}.
Implicit Types (s : fdst St).

(** The calls that change descriptors. *)
Inductive fd_op :=
| OpDup (me : nat) (fd : Z)
| OpDup2 (me : nat) (oldfd newfd : Z)
| OpFcntl (me : nat) (fd cmd arg : Z)
| OpClose (me : nat) (fd : Z)
| OpExec (me : nat)
| OpPipe (me : nat) (fl rp wp rv wv id : Z)
| OpFork (parent child : nat)
| OpExit (me : nat).

Definition run_op (o : fd_op) : SM (fdst St) Z :=
  match o with
  | OpDup me fd => syscall_dup me fd
  | OpDup2 me oldfd newfd => syscall_dup2 me oldfd newfd
  | OpFcntl me fd cmd arg => syscall_fcntl me fd cmd arg
  | OpClose me fd => syscall_close me fd
  | OpExec me => close_on_exec 64 me 0 ;; mret 0
  | OpPipe me fl rp wp rv wv id => r ← syscall_pipe2 me fl rp wp rv wv id; mret (fst r)
  | OpFork parent child => fork_fdtable parent child ;; mret 0
  | OpExit me => free_fdtable me ;; mret 0
  end.

Definition has_table s (me : nat) : Prop := ∃ t, tables s !! me = Some (Some t).

(** A live process calls; the files of a pipe are new objects; the child has
    no table yet. *)
Definition op_ok s (o : fd_op) : Prop :=
  match o with
  | OpDup me _ | OpDup2 me _ _ | OpFcntl me _ _ _ | OpClose me _ | OpExec me | OpExit me => has_table s me
  | OpPipe me _ rp wp _ _ _ => has_table s me ∧ rp ≠ 0 ∧ wp ≠ 0 ∧ rp ≠ wp ∧ files s !! rp = None ∧ files s !! wp = None
  | OpFork parent child => has_table s parent ∧ tables s !! child = Some None
  end.

Inductive fd_step s s' : Prop :=
| do_op o z : op_ok s o → run_op o s = Ok (z, s') → fd_step s s'.

Lemma fine_ok {A} me (m : SM (fdst St) A) s : fine me m s → ∃ z s', m s = Ok (z, s') ∧ fd_ok s'.
Proof. intros Hf. apply swp_elim in Hf as (z & s' & E & Hok & _). eauto. Qed.

Lemma swp_then {A} (m : SM (fdst St) A) z s (P : fdst St → Prop) :
  swp m s (λ _ s', P s') → ∃ z' s', (m ;; mret z : SM (fdst St) Z) s = Ok (z', s') ∧ P s'.
Proof. intros Hw. apply swp_elim in Hw as (a & s' & E & Hp). unfold mbind, SM_bind. rewrite E. eauto. Qed.

Lemma run_op_ok s o : fd_ok s → op_ok s o → ∃ z s', run_op o s = Ok (z, s') ∧ fd_ok s'.
Proof.
  intros Hok Ho. destruct o as [me fd|me ofd nfd|me fd cmd arg|me fd|me|me fl rp wp rv wv id|pa ch|me]; simpl in Ho.
  - destruct Ho as (t & Ht). eapply fine_ok. by apply (dup_fine s me t fd).
  - destruct Ho as (t & Ht). eapply fine_ok. by apply (dup2_fine s me t ofd nfd).
  - destruct Ho as (t & Ht). eapply fine_ok. by apply (fcntl_fine s me t fd cmd arg).
  - destruct Ho as (t & Ht). eapply fine_ok. by apply (close_fine s me t fd).
  - destruct Ho as (t & Ht). apply swp_then. eapply swp_mono; [by apply (close_on_exec_fine me 64 s t 0)|]. naive_solver.
  - destruct Ho as ((t & Ht) & Hr & Hw & Hne & Hrn & Hwn). eapply (fine_ok me), fine_bind; [by apply (syscall_pipe2_fine s me t)|].
    intros r s' t' H' M'. by apply (fine_same me (fst r) s' t').
  - destruct Ho as ((t & Ht) & Hc). apply swp_then. eapply swp_mono; [by apply (fork_fdtable_spec s pa ch t)|]. naive_solver.
  - destruct Ho as (t & Ht). apply swp_then. eapply swp_mono; [by apply (free_fdtable_spec s me t)|]. naive_solver.
Qed.

(** C16. Over any sequence of pipes made, duplications, closes, forks, execs and
    exits of processes, the count of every open file is the number of
    descriptors that refer to it and is positive, no descriptor refers to a
    freed file, and the next call returns. *)
Theorem fd_refcount_invariant s s' :
  fd_ok s → rtc fd_step s s' →
  (∀ p f, files s' !! p = Some f → count f = Z.of_nat (refs (tables s') p) ∧ 0 < count f) ∧
  (∀ me t fd, tables s' !! me = Some (Some t) → is_open t fd → is_Some (files s' !! at_ (fds t) fd)) ∧
  (∀ o, op_ok s' o → ∃ z s'', run_op o s' = Ok (z, s'')).
Proof.
  intros Hok Hr. assert (fd_ok s') as H'.
  { clear -Hok Hr. induction Hr as [|s s1 s' Hs _ IH]; [done|]. apply IH. destruct Hs as [o z Ho E].
    destruct (run_op_ok s o Hok Ho) as (z' & s2 & E2 & H2). rewrite E in E2. by simplify_eq. }
  split_and!.
  - intros p f Hf. destruct (inv_count _ _ _ H' p f Hf) as (_ & Hc & Hc0). rewrite occ_nil, Nat.add_0_r in Hc. done.
  - intros me t fd Ht (Hb & Hn). by apply (slot_file s' me t fd).
  - intros o Ho. destruct (run_op_ok s' o H' Ho) as (z & s2 & E & _). eauto.
Qed.

(** [dup] of an open descriptor returns the lowest free one, which then
    refers to the same open file, and leaves all others alone; with no free
    descriptor it answers -EMFILE, for a descriptor that is not open -EBADF. *)
Theorem syscall_dup_lowest s me t fd :
  fd_ok s → tables s !! me = Some (Some t) →
  ∃ z s', syscall_dup me fd s = Ok (z, s') ∧
    if decide (0 ≤ fd < 64 ∧ at_ (fds t) fd ≠ 0) then
      (z = - EMFILE ∧ s' = s ∧ ∀ j, 0 ≤ j < 64 → at_ (fds t) j ≠ 0) ∨
      (0 ≤ z < 64 ∧ at_ (fds t) z = 0 ∧ (∀ j, 0 ≤ j < z → at_ (fds t) j ≠ 0) ∧
       ∃ t', tables s' !! me = Some (Some t') ∧
         ∀ j, 0 ≤ j < 64 → at_ (fds t') j = if decide (j = z) then at_ (fds t) fd else at_ (fds t) j)
    else z = - EBADF ∧ s' = s.
Proof.
  intros Hok Hme. destruct (inv_table _ _ _ Hok _ _ Hme) as (_ & Hl & _).
  pose proof (open_slot_spec s me fd t Hok Hme) as Ho. apply swp_elim in Ho as (o & s0 & E & -> & Ho).
  unfold syscall_dup, mbind, SM_bind. rewrite E. destruct o as [[t0 p]|].
  - destruct Ho as (-> & Hb & Hp & Hp0).
    destruct (slot_file s me t fd Hok Hme Hb ltac:(lia)) as (f & Hf). rewrite Hp in Hf.
    pose proof (dup_from_spec s me t p f 0 0 Hok Hme Hf ltac:(lia)) as Hd.
    apply swp_elim in Hd as (z & s' & Ed & _ & Hz). exists z, s'. split; [done|]. rewrite decide_True by lia.
    destruct Hz as [Hz|(Hz & Hz0 & Hlow & t' & Hr & Ht' & _)]; [by left|right]. split_and!; try done; try lia.
    exists t'. split; [by apply (retabled_at _ _ _ _ Hr)|]. intros j Hj. rewrite Ht', at_insert by lia.
    repeat case_decide; congruence.
  - eexists _, _. split; [done|]. by rewrite decide_False by done.
Qed.
End thm.

(** Two processes, one with an empty table, over a file system that takes
    every write and holds nothing. *)
Module Demo.
#[local] Instance null_ops : FileOps () := {
  op_read _ _ _ st := (0, [], st); op_write _ bs _ st := (zlen bs, st); op_flush _ st := st; op_size _ _ := 0 }.

Definition start : fdst () := mkFd [Some new_fdtable; None] ∅ ∅ () [].

Lemma start_ok : fd_ok start.
Proof.
  split.
  - intros [|[|i]] t E; by simplify_eq/=.
  - vm_compute. by split.
  - intros p Hp Hr. exfalso. change (0 < occ p (replicate 64 0%Z) + 0 + 0)%nat in Hr. rewrite occ_zeros in Hr by done. lia.
  - done.
  - done.
Qed.

Lemma can_open : op_ok start (OpPipe 0 0 100 200 300 400 7).
Proof. split; [by eexists|done]. Qed.

Lemma demo_calls : ∃ s', rtc fd_step start s' ∧ count <$> files s' !! 100 = Some 3.
Proof.
  eexists. split.
  - eapply rtc_l; [apply (do_op _ _ (OpPipe 0 0 100 200 300 400 7) 0); [exact can_open|by vm_compute]|].
    eapply rtc_l; [apply (do_op _ _ (OpDup 0 0) 2); [by eexists|by vm_compute]|].
    eapply rtc_l; [apply (do_op _ _ (OpFork 0 1) 0); [by split; [eexists|]|by vm_compute]|].
    eapply rtc_l; [apply (do_op _ _ (OpClose 0 0) 0); [by eexists|by vm_compute]|]. apply rtc_refl.
  - by vm_compute.
Qed.

Lemma fd_refcount_invariant_witness :
  ∃ s', rtc fd_step start s' ∧ count <$> files s' !! 100 = Some 3 ∧
    ∀ p f, files s' !! p = Some f → count f = Z.of_nat (refs (tables s') p) ∧ 0 < count f.
Proof.
  destruct demo_calls as (s' & Hr & Hc). exists s'. split; [exact Hr|]. split; [exact Hc|].
  apply (fd_refcount_invariant start s' start_ok Hr).
Defined.

(** The first process has opened a file. *)
Definition opened : fdst () := match run_op (OpPipe 0 0 100 200 300 400 7) start with Ok (_, s) => s | _ => start end.

Lemma opened_ok : fd_ok opened.
Proof.
  destruct (run_op_ok start (OpPipe 0 0 100 200 300 400 7) start_ok can_open) as (z & s' & E & H).
  unfold opened. by rewrite E.
Qed.

Lemma syscall_dup_lowest_witness :
  ∃ t z s', tables opened !! 0%nat = Some (Some t) ∧ at_ (fds t) 0 = 100 ∧ syscall_dup 0 0 opened = Ok (z, s') ∧
    ((z = - EMFILE ∧ s' = opened ∧ ∀ j, 0 ≤ j < 64 → at_ (fds t) j ≠ 0) ∨
      (0 ≤ z < 64 ∧ at_ (fds t) z = 0 ∧ (∀ j, 0 ≤ j < z → at_ (fds t) j ≠ 0) ∧
       ∃ t', tables s' !! 0%nat = Some (Some t') ∧
         ∀ j, 0 ≤ j < 64 → at_ (fds t') j = if decide (j = z) then at_ (fds t) 0 else at_ (fds t) j)).
Proof.
  eexists. destruct (syscall_dup_lowest opened 0 _ 0 opened_ok eq_refl) as (z & s' & E & H).
  exists z, s'. split; [reflexivity|]. split; [by vm_compute|]. split; [exact E|]. exact H.
Defined.
End Demo.
