(* ===== verification/FdIo.v ===== *)
(** * Reading, writing and seeking

    The calls of [kernel/sys/syscall] that move data through a descriptor.
    Small writes to a regular file collect in a buffer of 4096 bytes of the
    open file; a write that does not fit, a seek and the last close hand the
    buffer to the file system.

    User memory is the list of bytes readable from the address the caller
    passes, and an access past it is a fault.  [mem n] says whether [kalloc n]
    has memory. *)

From S2P Require Import Prelude StateM Fd.

Open Scope sm_scope.

(** The socket layer, by open file without a vnode: [None] when the file is
    not an [AF_UNIX] or [AF_INET] socket. *)
Class SockOps (St : Type) := {
  sock_send : Z → list Z → Z → St → option (Z * St);
  sock_recv : Z → Z → St → option (Z * list Z * St) }.

(** [iov_len] is an [int]. *)
Record iovec := mkIov { iov_base : option (list Z); iov_len : Z }.

Definition WRITE_BUFFER : Z := 4096.
Definition SEEK_SET : Z := 0.
Definition SEEK_CUR : Z := 1.
Definition SEEK_END : Z := 2.
Definition INT64_MAX : Z := 2 ^ 63 - 1.

Section io.
Context {St : Type} `{!FileOps St, !SockOps St}.
Variable mem : Z → bool.

(** [n] bytes from the start of [buf]. *)
Definition user_bytes (buf : list Z) (n : Z) : SM (fdst St) (list Z) :=
  sm_lift (if n <=? zlen buf then Ok (take (Z.to_nat n) buf) else Fault).

(** [memcopy (b + i, bs, len)]. *)
Definition put (b bs : list Z) (i : Z) : SM (fdst St) (list Z) :=
  sm_lift (if i + zlen bs <=? zlen b
           then Ok (take (Z.to_nat i) b ++ bs ++ drop (Z.to_nat i + length bs) b) else Fault).

(** The pointer in the caller's table: [None] when the call answers -EBADF. *)
Definition file_slot (me : nat) (fd : Z) : SM (fdst St) (option Z) :=
  o ← table_of me;
  match o with
  | None => sm_lift Fault
  | Some t =>
      if (fd <? 0) || (s32 (max_fds t) <=? fd) then mret None
      else p ← slot t fd; mret (if p =? 0 then None else Some p)
  end.

Definition do_send (p : Z) (buf : list Z) (n : Z) : SM (fdst St) (option Z) := fun s =>
  match sock_send p buf n (store s) with
  | Some (r, st) => Ok (Some r, set_store st s)
  | None => Ok (None, s)
  end.
Definition do_recv (p n : Z) : SM (fdst St) (option (Z * list Z)) := fun s =>
  match sock_recv p n (store s) with
  | Some (r, bs, st) => Ok (Some (r, bs), set_store st s)
  | None => Ok (None, s)
  end.
Definition do_read (v : vnode) (n off : Z) : SM (fdst St) (Z * list Z) := fun s =>
  let '(r, bs, st) := op_read v n off (store s) in Ok ((r, bs), set_store st s).
Definition do_flush (v : vnode) : SM (fdst St) () := fun s => Ok ((), set_store (op_flush v (store s)) s).
Definition do_size (v : vnode) : SM (fdst St) Z := fun s => Ok (op_size v (store s), s).

(** The buffer of a file that has one. *)
Definition buffer_of (f : file_descriptor) : SM (fdst St) (list Z) :=
  match write_buffer f with Some b => mret b | None => sm_lift Fault end.

(** Give the file a buffer; false when there is no memory. *)
Definition ensure_buffer (p : Z) : SM (fdst St) bool :=
  f ← file_at p;
  match write_buffer f with
  | Some _ => mret true
  | None =>
      if mem WRITE_BUFFER then
        upd_file p (λ f, set_write_buffer_size 0 (set_write_buffer (Some (replicate 4096 0)) f)) ;; mret true
      else mret false
  end.

(** Write the buffer out; false when the file system has no space. *)
Definition flush_full (p : Z) (v : vnode) : SM (fdst St) bool :=
  f ← file_at p;
  b ← buffer_of f;
  r ← do_write v (take (Z.to_nat (write_buffer_size f)) b) (u64 (pos f - write_buffer_size f));
  if (r =? 0) && (0 <? write_buffer_size f) then mret false
  else upd_file p (set_write_buffer_size 0) ;; mret true.

(** Append to the buffer and move the position. *)
Definition append_buffer (p : Z) (bs : list Z) : SM (fdst St) () :=
  f ← file_at p;
  b ← buffer_of f;
  b' ← put b bs (write_buffer_size f);
  upd_file p (λ f, set_pos (u64 (pos f + zlen bs))
    (set_write_buffer_size (u64 (write_buffer_size f + zlen bs)) (set_write_buffer (Some b') f))).

(** [pos += r] for a positive result. *)
Definition advance (p r : Z) : SM (fdst St) () :=
  sm_when (0 <? r) (upd_file p (λ f, set_pos (u64 (pos f + r)) f)).

Definition write_regular (p : Z) (v : vnode) (buf : list Z) (count : Z) : SM (fdst St) Z :=
  ok ← ensure_buffer p;
  if negb ok then mret (- ENOMEM) else
  f ← file_at p;
  ok ← (if WRITE_BUFFER <? u64 (write_buffer_size f + u64 count) then flush_full p v else mret true);
  if negb ok then mret (- ENOSPC)
  else if WRITE_BUFFER <? count then
    bs ← user_bytes buf (u64 count);
    r ← do_write v bs (pos f);
    advance p r ;;
    mret (if (r =? 0) && (0 <? count) then - ENOSPC else s32 r)
  else
    bs ← user_bytes buf (u64 count);
    append_buffer p bs ;;
    mret (s32 count).

Definition is_regular (v : vnode) : bool := (v_type v =? VNODE_TYPE_FILE) && v_fs_instance v.

Definition syscall_write (me : nat) (fd : Z) (buf : list Z) (count : Z) : SM (fdst St) Z :=
  o ← file_slot me fd;
  match o with
  | None => mret (- EBADF)
  | Some p =>
      f ← file_at p;
      if vnode_ptr f =? 0 then
        r ← do_send p buf (u32 count);
        mret (match r with Some z => z | None => - EBADF end)
      else
        v ← vnode_at (vnode_ptr f);
        match ops f with
        | None => mret (- EBADF)
        | Some o =>
            if negb (has_write o) then mret (- ENOTTY)
            else if is_regular v then write_regular p v buf count
            else
              bs ← user_bytes buf (u64 count);
              r ← do_write v bs (pos f);
              advance p r ;;
              mret (s32 r)
        end
  end.

(** A result so far, or the error when there is none. *)
Definition or_total (total err : Z) : Z := if 0 <? total then total else err.

(** The bytes of one vector into the buffer, at least one each time: [inl r] when the call returns
    [r], [inr total] when the vector is written. *)
Fixpoint writev_chunks (n : nat) (p : Z) (v : vnode) (buf : list Z) (count total : Z) : SM (fdst St) (Z + Z) :=
  match n with
  | O => sm_lift NoFuel
  | Datatypes.S n =>
      if negb (0 <? count) then mret (inr total) else
      f ← file_at p;
      ok ← (if write_buffer_size f =? WRITE_BUFFER then flush_full p v else mret true);
      if negb ok then mret (inl (or_total total (- ENOSPC))) else
      f ← file_at p;
      if (write_buffer_size f =? 0) && (WRITE_BUFFER <=? count) then
        bs ← user_bytes buf count;
        r ← do_write v bs (pos f);
        if 0 <? r then
          advance p r ;; writev_chunks n p v (drop (Z.to_nat r) buf) (u64 (count - r)) (s64 (total + r))
        else if r =? 0 then mret (inl (or_total total (- ENOSPC)))
        else mret (inl (or_total total r))
      else
        let room := u64 (WRITE_BUFFER - write_buffer_size f) in
        let to_copy := if count <? room then count else room in
        bs ← user_bytes buf to_copy;
        append_buffer p bs ;;
        writev_chunks n p v (drop (Z.to_nat to_copy) buf) (u64 (count - to_copy)) (s64 (total + to_copy))
  end.

Fixpoint writev_loop (iovs : list iovec) (p : Z) (v : vnode) (total : Z) : SM (fdst St) Z :=
  match iovs with
  | [] => mret total
  | iov :: iovs =>
      match iov_base iov with
      | None => writev_loop iovs p v total
      | Some buf =>
          if iov_len iov =? 0 then writev_loop iovs p v total
          else if is_regular v then
            ok ← ensure_buffer p;
            if negb ok then mret (or_total total (- ENOMEM)) else
            r ← writev_chunks (Datatypes.S (length buf)) p v buf (u64 (iov_len iov)) total;
            match r with inl z => mret z | inr total => writev_loop iovs p v total end
          else
            f ← file_at p;
            bs ← user_bytes buf (u64 (iov_len iov));
            r ← do_write v bs (pos f);
            if r <? 0 then mret (or_total total r)
            else if r =? 0 then mret (if total =? 0 then - ENOSPC else total)
            else advance p r ;; writev_loop iovs p v (s64 (total + r))
      end
  end.

(** The kernel's copy of the vector. *)
Definition copy_iovec (iov : list iovec) (iovcnt : Z) : SM (fdst St) (list iovec) :=
  sm_lift (if mem (16 * iovcnt) && (iovcnt <=? zlen iov) then Ok (take (Z.to_nat iovcnt) iov) else Fault).

Definition syscall_writev (me : nat) (fd : Z) (iov : option (list iovec)) (iovcnt : Z) : SM (fdst St) Z :=
  o ← file_slot me fd;
  match o with
  | None => mret (- EBADF)
  | Some p =>
      f ← file_at p;
      if vnode_ptr f =? 0 then mret (- EBADF)
      else if negb (match ops f with Some o => has_write o | None => false end) then mret (- ENOTTY)
      else
        match iov with
        | None => mret (- EINVAL)
        | Some l =>
            if iovcnt <=? 0 then mret (- EINVAL)
            else
              iovs ← copy_iovec l iovcnt;
              v ← vnode_at (vnode_ptr f);
              writev_loop iovs p v 0
        end
  end.

(** ** Reading: the result and the bytes stored at the caller's address *)

Definition syscall_read (me : nat) (fd count : Z) : SM (fdst St) (Z * list Z) :=
  o ← file_slot me fd;
  match o with
  | None => mret (- EBADF, [])
  | Some p =>
      f ← file_at p;
      if vnode_ptr f =? 0 then
        r ← do_recv p (u32 count);
        mret (match r with Some x => x | None => (- EBADF, []) end)
      else
        v ← vnode_at (vnode_ptr f);
        match ops f with
        | None => mret (- EBADF, [])
        | Some o =>
            if v_type v =? VNODE_TYPE_DIR then mret (- EISDIR, [])
            else if negb (has_read o) then mret (- EINVAL, [])
            else if negb (mem (u64 count)) then mret (- ENOMEM, [])
            else
              x ← do_read v (u64 count) (pos f);
              advance p (fst x) ;;
              mret (fst x, take (Z.to_nat (fst x)) (snd x))
        end
  end.

(** The vectors from offset [off] on: a result that ends the call, or the
    offset and the total reached; and what each vector received. *)
Fixpoint readv_loop (iovs : list iovec) (v : vnode) (off total : Z) (got : list (list Z)) :
    SM (fdst St) ((Z + Z * Z) * list (list Z)) :=
  match iovs with
  | [] => mret (inr (off, total), got)
  | iov :: iovs =>
      if (iov_len iov =? 0) || negb (match iov_base iov with Some _ => true | None => false end)
      then readv_loop iovs v off total got
      else if negb (mem (u64 (iov_len iov))) then mret (inl (- ENOMEM), got)
      else
        x ← do_read v (u64 (iov_len iov)) off;
        if fst x <? 0 then mret (inl (fst x), got)
        else
          let off := u64 (off + fst x) in
          let total := s64 (total + fst x) in
          let got := got ++ [take (Z.to_nat (fst x)) (snd x)] in
          if fst x <? iov_len iov then mret (inr (off, total), got) else readv_loop iovs v off total got
  end.

Definition syscall_readv (me : nat) (fd : Z) (iov : option (list iovec)) (iovcnt : Z) :
    SM (fdst St) (Z * list (list Z)) :=
  o ← file_slot me fd;
  match o with
  | None => mret (- EBADF, [])
  | Some p =>
      f ← file_at p;
      if vnode_ptr f =? 0 then mret (- EBADF, [])
      else if negb (match ops f with Some o => has_read o | None => false end) then mret (- ENOTTY, [])
      else
        match iov with
        | None => mret (- EINVAL, [])
        | Some l =>
            if iovcnt <=? 0 then mret (- EINVAL, [])
            else
              iovs ← copy_iovec l iovcnt;
              v ← vnode_at (vnode_ptr f);
              x ← readv_loop iovs v (pos f) 0 [];
              match fst x with
              | inl z => mret (z, snd x)
              | inr (off, total) => upd_file p (set_pos off) ;; mret (total, snd x)
              end
        end
  end.

(** ** Seeking *)

(** The target of a seek from [pos] in a file of [size] bytes; [None] when the
    call answers -EINVAL. *)
Definition seek_target (pos size offset whence : Z) : option Z :=
  if whence =? SEEK_SET then (if offset <? 0 then None else Some offset)
  else if whence =? SEEK_CUR then
    if 0 <? offset then
      (if u64 (INT64_MAX - offset) <? pos then None else Some (s64 (s64 pos + offset)))
    else if offset <? 0 then
      (if pos <? u64 (- offset) then None else Some (s64 (pos - u64 (- offset))))
    else Some (s64 pos)
  else if whence =? SEEK_END then
    if 0 <? offset then
      (if s64 (INT64_MAX - offset) <? s64 size then None else Some (s64 (s64 size + offset)))
    else if offset <? 0 then
      (if s64 size <? s64 (- offset) then None else Some (s64 (s64 size + offset)))
    else Some (s64 size)
  else None.

(** The buffer goes out before a seek: [Some r] when the call returns [r]. *)
Definition seek_flush (p : Z) (v : vnode) : SM (fdst St) (option Z) :=
  f ← file_at p;
  match write_buffer f with
  | Some b =>
      if (0 <? write_buffer_size f) && (v_type v =? VNODE_TYPE_FILE) then
        r ← (if match ops f with Some o => has_write o | None => false end then
               do_write v (take (Z.to_nat (write_buffer_size f)) b) (u64 (pos f - write_buffer_size f))
             else mret 1);
        if r <=? 0 then mret (Some (if r <? 0 then r else - EIO))
        else upd_file p (set_write_buffer_size 0) ;; mret None
      else mret None
  | None => mret None
  end.

Definition syscall_lseek (me : nat) (fd offset whence : Z) : SM (fdst St) Z :=
  o ← file_slot me fd;
  match o with
  | None => mret (- EBADF)
  | Some p =>
      f ← file_at p;
      if vnode_ptr f =? 0 then mret (- EBADF)
      else
        v ← vnode_at (vnode_ptr f);
        if (v_type v =? VNODE_TYPE_FIFO) || (v_type v =? VNODE_TYPE_SOCK) then mret (- ESPIPE)
        else
          r ← seek_flush p v;
          match r with
          | Some z => mret z
          | None =>
              size ← do_size v;
              match seek_target (pos f) size offset whence with
              | None => mret (- EINVAL)
              | Some n => upd_file p (set_pos (u64 n)) ;; mret n
              end
          end
  end.

Definition syscall_fsync (me : nat) (fd : Z) : SM (fdst St) Z :=
  o ← file_slot me fd;
  match o with
  | None => mret (- EBADF)
  | Some p =>
      f ← file_at p;
      if vnode_ptr f =? 0 then mret (- EBADF)
      else
        v ← vnode_at (vnode_ptr f);
        sm_when (((v_type v =? VNODE_TYPE_FILE) || (v_type v =? VNODE_TYPE_BLK))
                 && match ops f with Some o => has_flush o | None => false end) (do_flush v) ;;
        mret 0
  end.
End io.
