(* ===== verification/FdIoOps.v ===== *)
(** * What an open regular file holds

    The bytes a program has written through a descriptor are those of the file
    system with the buffered bytes laid over them: [io_view].  The lemmas say
    what the parts of the calls do to it. *)

From S2P Require Import Prelude Bytes StateM Fd FdOps FdIo.

Open Scope sm_scope.

Section view.
Context {St : Type} `{!FileOps St}.

(** What a file system promises for a regular file: [content] is what the file
    holds, and [fits n] says it is sound and has space for [n] bytes.  Writes
    start inside the file or at its end. *)
Class FileLaws (content : vnode → St → list Z) (fits : vnode → St → Z → Prop) : Prop := {
  law_write v bs off st n :
    fits v st n → bs ≠ [] → 0 ≤ off ≤ zlen (content v st) → off + zlen bs ≤ n →
    ∃ st', op_write v bs off st = (zlen bs, st') ∧ fits v st' n ∧
      content v st' = splice (Z.to_nat off) bs (content v st);
  law_write_nil v off st n :
    fits v st n → ∃ r st', op_write v [] off st = (r, st') ∧ fits v st' n ∧ content v st' = content v st;
  law_size v st n : fits v st n → op_size v st = zlen (content v st) }.

Context (content : vnode → St → list Z) (fits : vnode → St → Z → Prop) `{!FileLaws content fits}.
Variables (me : nat) (fd p : Z) (v : vnode) (limit : Z).

(** What waits in the buffer, and what a reader of the file should see. *)
Definition pending (f : file_descriptor) : list Z :=
  match write_buffer f with Some b => take (Z.to_nat (write_buffer_size f)) b | None => [] end.
Definition io_view (f : file_descriptor) (st : St) : list Z :=
  splice (Z.to_nat (pos f - write_buffer_size f)) (pending f) (content v st).

Definition at_table (s : fdst St) : Prop :=
  ∃ t, tables s !! me = Some (Some t) ∧ 0 ≤ fd < s32 (max_fds t) ∧ fds t !! Z.to_nat fd = Some p ∧ p ≠ 0.

Definition buf_ok (f : file_descriptor) : Prop :=
  0 ≤ write_buffer_size f ≤ pos f ∧ pos f < 2 ^ 63 ∧
  match write_buffer f with Some b => length b = 4096%nat ∧ write_buffer_size f ≤ 4096 | None => write_buffer_size f = 0 end.

(** Buffered bytes start inside the file or at its end, and will fit. *)
Definition buf_fits (f : file_descriptor) (st : St) : Prop :=
  write_buffer_size f = 0 ∨ (pos f - write_buffer_size f ≤ zlen (content v st) ∧ pos f ≤ limit).

(** [p] is the only reference, from descriptor [fd] of [me], to the regular
    file [v], and holds [d]; the file may grow to [limit] bytes. *)
Record holds (s : fdst St) (f : file_descriptor) (d : list Z) : Prop := mkHolds {
  h_table : at_table s;
  h_file : files s !! p = Some f;
  h_count : count f = 1;
  h_vnode : vnode_ptr f ≠ 0 ∧ vnodes s !! vnode_ptr f = Some v;
  h_regular : is_regular v = true;
  h_ops : ∃ o, ops f = Some o ∧ has_write o = true;
  h_buf : buf_ok f;
  h_space : fits v (store s) limit ∧ buf_fits f (store s);
  h_view : io_view f (store s) = d }.

(** The same open file with another position and buffer. *)
Definition same_file (f f' : file_descriptor) : Prop :=
  count f' = count f ∧ ops f' = ops f ∧ vnode_ptr f' = vnode_ptr f.

Lemma holds_update s s' f f' d d' :
  holds s f d → tables s' = tables s → vnodes s' = vnodes s → files s' !! p = Some f' → same_file f f' →
  buf_ok f' → fits v (store s') limit → buf_fits f' (store s') → io_view f' (store s') = d' → holds s' f' d'.
Proof.
  intros [] Ht Hv Hf (Hc & Ho & Hp) Hb Hfit Hbf Hd. split; try done.
  - destruct h_table0 as (t & H). exists t. by rewrite Ht.
  - by rewrite Hc.
  - by rewrite Hp, Hv.
  - by rewrite Ho.
Qed.

Lemma holds_len s f d : holds s f d → zlen (pending f) = write_buffer_size f.
Proof.
  intros Hh. destruct (h_buf _ _ _ Hh) as (Hs & _ & Hb). unfold pending. destruct (write_buffer f) as [b|]; [|simpl; lia].
  rewrite length_take. lia.
Qed.

Lemma pending_nil f : write_buffer_size f = 0 → pending f = [].
Proof. unfold pending. intros ->. by destruct (write_buffer f). Qed.

Lemma view_flushed f st : write_buffer_size f = 0 → io_view f st = content v st.
Proof. intros Hs. unfold io_view. by rewrite pending_nil. Qed.

(** ** The parts of the calls *)

Lemma file_slot_spec s (Q : option Z → fdst St → Prop) : at_table s → Q (Some p) s → swp (file_slot me fd) s Q.
Proof.
  intros (t & Ht & Hb & Hp & Hp0) HQ. unfold file_slot. apply swp_bind. unfold table_of, swp. rewrite Ht.
  destruct (Z.ltb_spec fd 0); [lia|]. destruct (Z.leb_spec (s32 (max_fds t)) fd); [lia|]. simpl.
  apply swp_bind. unfold slot. eapply swp_lift with (a := p).
  { unfold aget. destruct (Z.leb_spec 0 fd); [|lia]. simpl. by rewrite Hp. }
  apply swp_ret. destruct (Z.eqb_spec p 0); [done|exact HQ].
Qed.

(** The buffer goes to the file system. *)
Lemma do_flush_spec s f d (Q : Z → fdst St → Prop) :
  holds s f d →
  (∀ r st', (0 < write_buffer_size f → r = write_buffer_size f) → fits v st' limit → content v st' = d → Q r (set_store st' s)) →
  swp (do_write v (pending f) (pos f - write_buffer_size f)) s Q.
Proof.
  intros Hh HQ. pose proof (holds_len _ _ _ Hh) as Hlen. destruct (h_buf _ _ _ Hh) as (Hs & _).
  destruct (h_space _ _ _ Hh) as (Hfit & Hgap). pose proof (h_view _ _ _ Hh) as Hv. unfold do_write, swp.
  destruct (decide (pending f = [])) as [E|E].
  - rewrite E in *. destruct (law_write_nil v (pos f - write_buffer_size f) (store s) limit Hfit) as (r & st' & -> & Hf' & Hc').
    apply HQ; [simpl in *; lia|done|]. rewrite Hc', <- Hv. unfold io_view. by rewrite E.
  - assert (0 < zlen (pending f)) by (destruct (pending f); simpl; [done|lia]).
    destruct (law_write v (pending f) (pos f - write_buffer_size f) (store s) limit Hfit E) as (st' & -> & Hf' & Hc').
    + destruct Hgap; lia.
    + destruct Hgap; lia.
    + apply HQ; [lia|done|]. by rewrite Hc'.
Qed.

(** Bytes go to the file system past an empty buffer. *)
Lemma do_direct_spec s f d bs (Q : Z → fdst St → Prop) :
  holds s f d → write_buffer_size f = 0 → bs ≠ [] → pos f ≤ zlen d → pos f + zlen bs ≤ limit →
  (∀ st', fits v st' limit → content v st' = splice (Z.to_nat (pos f)) bs d → Q (zlen bs) (set_store st' s)) →
  swp (do_write v bs (pos f)) s Q.
Proof.
  intros Hh Hs Hne Hp Hl HQ. destruct (h_buf _ _ _ Hh) as (Hs' & _). destruct (h_space _ _ _ Hh) as (Hfit & _).
  pose proof (h_view _ _ _ Hh) as Hv. rewrite view_flushed in Hv by done.
  destruct (law_write v bs (pos f) (store s) limit Hfit Hne) as (st' & E & Hf' & Hc'); [rewrite Hv; lia|done|].
  unfold do_write, swp. rewrite E. apply HQ; [done|]. by rewrite Hc', Hv.
Qed.
End view.

Arguments h_table {_ _ _ _ _ _ _ _ _ _ _} _.
Arguments h_file {_ _ _ _ _ _ _ _ _ _ _} _.
Arguments h_count {_ _ _ _ _ _ _ _ _ _ _} _.
Arguments h_vnode {_ _ _ _ _ _ _ _ _ _ _} _.
Arguments h_regular {_ _ _ _ _ _ _ _ _ _ _} _.
Arguments h_ops {_ _ _ _ _ _ _ _ _ _ _} _.
Arguments h_buf {_ _ _ _ _ _ _ _ _ _ _} _.
Arguments h_space {_ _ _ _ _ _ _ _ _ _ _} _.
Arguments h_view {_ _ _ _ _ _ _ _ _ _ _} _.
Arguments holds_len {_ _ _ _ _ _ _ _ _ _ _} _.
Arguments holds_update {_ _ _ _ _ _ _ _ _ _ _ _ _ _} _.

(** * Writes and seeks on a regular file

    What the calls do to the bytes an open file [holds], in continuation
    style: a caller gives what it needs of the state after. *)

Open Scope sm_scope.

Section ops.
Context {St : Type} `{!FileOps St, !SockOps St}.
Context (content : vnode → St → list Z) (fits : vnode → St → Z → Prop) `{!FileLaws content fits}.
Variables (mem : Z → bool) (me : nat) (fd p : Z) (v : vnode) (limit : Z).
Hypothesis has_memory : ∀ n, mem n = true.
Abbreviation holds := (holds content fits me fd p v limit).
Implicit Types (s : fdst St) (f : file_descriptor) (d : list Z).

Lemma u64_small x : 0 ≤ x < 2 ^ 64 → u64 x = x.
Proof. intros Hx. unfold u64. by rewrite Z.mod_small. Qed.
Lemma s64_small x : - 2 ^ 63 ≤ x < 2 ^ 63 → s64 x = x.
Proof. intros Hx. unfold s64. rewrite Z.mod_small by lia. lia. Qed.
Lemma s32_small x : - 2 ^ 31 ≤ x < 2 ^ 31 → s32 x = x.
Proof. intros Hx. unfold s32. rewrite Z.mod_small by lia. lia. Qed.

Lemma ensure_spec s f d (Q : bool → fdst St → Prop) :
  holds s f d →
  (∀ s' f', holds s' f' d → pos f' = pos f → write_buffer_size f' = write_buffer_size f →
    is_Some (write_buffer f') → Q true s') →
  swp (ensure_buffer mem p) s Q.
Proof.
  intros Hh HQ. pose proof (h_buf Hh) as (Hs & Hp & Hb). unfold ensure_buffer. apply swp_bind.
  eapply file_at_spec; [apply (h_file Hh)|]. destruct (write_buffer f) as [b|] eqn:Eb.
  - apply swp_ret. by apply (HQ s f).
  - rewrite has_memory. apply swp_bind. eapply upd_file_spec; [apply (h_file Hh)|]. apply swp_ret.
    apply (HQ _ (set_write_buffer_size 0 (set_write_buffer (Some (replicate 4096 0)) f))); [eapply (holds_update Hh)|..]; try done.
    + apply lookup_insert_eq.
    + unfold buf_ok. cbn [write_buffer write_buffer_size pos set_write_buffer set_write_buffer_size].
      rewrite length_replicate. lia.
    + apply (h_space Hh).
    + by left.
    + rewrite <- (h_view Hh). unfold io_view. rewrite !pending_nil by done. done.
Qed.

Lemma buffer_of_spec f s b (Q : list Z → fdst St → Prop) : write_buffer f = Some b → Q b s → swp (buffer_of f) s Q.
Proof. intros E HQ. unfold buffer_of. by rewrite E. Qed.

Lemma flush_spec s f d (Q : bool → fdst St → Prop) :
  holds s f d → is_Some (write_buffer f) →
  (∀ s' f', holds s' f' d → pos f' = pos f → write_buffer_size f' = 0 → is_Some (write_buffer f') → Q true s') →
  swp (flush_full p v) s Q.
Proof.
  intros Hh (b & Eb) HQ. pose proof (h_buf Hh) as (Hs & Hp & Hb). rewrite Eb in Hb.
  pose proof (holds_len Hh) as Hlen.
  pose proof (h_file Hh) as Hf. unfold flush_full. apply swp_bind. eapply file_at_spec; [done|].
  apply swp_bind. eapply buffer_of_spec; [done|]. apply swp_bind. rewrite u64_small by lia.
  assert (take (Z.to_nat (write_buffer_size f)) b = pending f) as -> by (unfold pending; by rewrite Eb).
  eapply (do_flush_spec content fits); [done|]. intros r st' Hr Hfit Hst.
  destruct ((r =? 0) && (0 <? write_buffer_size f)) eqn:E.
  { apply andb_true_iff in E as (->%Z.eqb_eq & Hpos%Z.ltb_lt). specialize (Hr Hpos). lia. }
  apply swp_bind. eapply upd_file_spec; [done|]. apply swp_ret.
  apply (HQ _ (set_write_buffer_size 0 f)); [eapply (holds_update Hh)|..]; try done.
  - apply lookup_insert_eq.
  - unfold buf_ok. cbn [write_buffer write_buffer_size pos set_write_buffer_size]. rewrite Eb. lia.
  - by left.
  - by rewrite view_flushed.
Qed.

Lemma append_spec s f d bs (Q : () → fdst St → Prop) :
  holds s f d → is_Some (write_buffer f) → write_buffer_size f + zlen bs ≤ 4096 → pos f + zlen bs < 2 ^ 63 →
  pos f ≤ zlen d → pos f + zlen bs ≤ limit →
  (∀ s' f', holds s' f' (splice (Z.to_nat (pos f)) bs d) → pos f' = pos f + zlen bs →
    write_buffer_size f' = write_buffer_size f + zlen bs → is_Some (write_buffer f') → Q () s') →
  swp (append_buffer p bs) s Q.
Proof.
  intros Hh (b & Eb) Hfit Hmax Hend Hlim HQ. pose proof (h_buf Hh) as (Hs & Hp & Hb). rewrite Eb in Hb.
  pose proof (holds_len Hh) as Hlen.
  pose proof (h_file Hh) as Hf. unfold append_buffer. apply swp_bind. eapply file_at_spec; [done|].
  apply swp_bind. eapply buffer_of_spec; [done|]. apply swp_bind. unfold put. rewrite (proj2 (Z.leb_le _ _)) by lia.
  eapply swp_lift; [done|]. set (i := Z.to_nat (write_buffer_size f)). set (b' := take i b ++ bs ++ drop (i + length bs) b).
  eapply upd_file_spec; [done|]. cbn [pos write_buffer_size set_write_buffer].
  assert (length (take i b) = i) as Hi by (rewrite length_take; lia).
  apply (HQ _ (set_pos (u64 (pos f + zlen bs)) (set_write_buffer_size (u64 (write_buffer_size f + zlen bs)) (set_write_buffer (Some b') f)))); [eapply (holds_update Hh)|..]; try done.
  - apply lookup_insert_eq.
  - unfold buf_ok. cbn [write_buffer write_buffer_size pos set_pos set_write_buffer set_write_buffer_size].
    rewrite !u64_small by lia. unfold b'. rewrite !length_app, length_drop, Hi. lia.
  - apply (h_space Hh).
  - right. cbn [write_buffer_size pos set_pos set_write_buffer_size store set_files]. rewrite !u64_small by lia. split; [|lia].
    destruct (h_space Hh) as (_ & [Hz|(Hg & _)]); [|lia]. pose proof (h_view Hh) as Hv. rewrite view_flushed in Hv by done. rewrite Hv. lia.
  - rewrite <- (h_view Hh). unfold io_view at 1, pending.
    cbn [write_buffer write_buffer_size pos set_pos set_write_buffer set_write_buffer_size store set_files].
    rewrite !u64_small by lia.
    replace (take _ b') with (pending f ++ bs).
    + rewrite splice_app. unfold io_view. f_equal; [lia|]. f_equal. lia.
    + unfold pending, b'. rewrite Eb, app_assoc, take_app_le by (rewrite length_app; lia).
      rewrite (take_ge (take i b ++ bs)) by (rewrite length_app; lia). done.
  - simpl. apply u64_small. lia.
  - simpl. apply u64_small. lia.
Qed.

(** The position moves over bytes that went straight to the file system. *)
Lemma advance_spec s f d bs st' (Q : () → fdst St → Prop) :
  holds s f d → write_buffer_size f = 0 → bs ≠ [] → pos f + zlen bs < 2 ^ 63 → fits v st' limit →
  content v st' = splice (Z.to_nat (pos f)) bs d →
  (∀ s' f', holds s' f' (splice (Z.to_nat (pos f)) bs d) → pos f' = pos f + zlen bs →
    write_buffer_size f' = 0 → write_buffer f' = write_buffer f → Q () s') →
  swp (advance p (zlen bs)) (set_store st' s) Q.
Proof.
  intros Hh Hs0 Hbs Hmax Hfit Hst HQ. pose proof (h_buf Hh) as (Hs & Hp & Hb).
  unfold advance, sm_when. assert (0 < zlen bs) by (destruct bs; simpl; [done|lia]).
  rewrite (proj2 (Z.ltb_lt _ _)) by done. eapply upd_file_spec; [apply (h_file Hh)|].
  apply (HQ _ (set_pos (u64 (pos f + zlen bs)) f)); [eapply (holds_update Hh)|..]; try done.
  - apply lookup_insert_eq.
  - unfold buf_ok. cbn [write_buffer write_buffer_size pos set_pos]. rewrite u64_small by lia.
    destruct (write_buffer f); lia.
  - by left.
  - by rewrite view_flushed.
  - simpl. apply u64_small. lia.
Qed.
Lemma user_bytes_spec s buf n (Q : list Z → fdst St → Prop) :
  0 ≤ n ≤ zlen buf → Q (take (Z.to_nat n) buf) s → swp (user_bytes buf n) s Q.
Proof. intros Hn HQ. unfold user_bytes. rewrite (proj2 (Z.leb_le _ _)) by lia. by eapply swp_lift. Qed.

Lemma all_bytes_spec s buf (Q : list Z → fdst St → Prop) : Q buf s → swp (user_bytes buf (zlen buf)) s Q.
Proof. intros HQ. apply user_bytes_spec; [lia|]. by rewrite Nat2Z.id, take_ge. Qed.

(** ** Whole calls *)

Lemma splice_end q bs d : 0 ≤ q ≤ zlen d → q + zlen bs ≤ zlen (splice (Z.to_nat q) bs d).
Proof.
  intros Hq. destruct (decide (bs = [])) as [->|Hne]; [simpl; lia|]. rewrite length_splice by done. lia.
Qed.

(** The file now holds [bs] at the old position. *)
Definition wrote (f : file_descriptor) (d bs : list Z) (s' : fdst St) : Prop :=
  ∃ f', holds s' f' (splice (Z.to_nat (pos f)) bs d) ∧ pos f' = pos f + zlen bs ∧ is_Some (write_buffer f').

Lemma write_regular_spec s f d bs :
  holds s f d → zlen bs < 2 ^ 31 → pos f + zlen bs < 2 ^ 63 → pos f ≤ zlen d → pos f + zlen bs ≤ limit →
  swp (write_regular mem p v bs (zlen bs)) s (λ z s', z = zlen bs ∧ wrote f d bs s').
Proof.
  intros Hh Hlen Hmax Hend Hlim. unfold write_regular. rewrite (u64_small (zlen bs)), (s32_small (zlen bs)) by lia.
  apply swp_bind. eapply ensure_spec; [done|]. intros s1 f1 H1 Hp1 Hs1 Hb1. simpl.
  apply swp_bind. eapply file_at_spec; [apply (h_file H1)|].
  pose proof (h_buf H1) as (Hw1 & _ & Hbb). assert (write_buffer_size f1 ≤ 4096) as Hw.
  { destruct (write_buffer f1); [lia|lia]. }
  rewrite u64_small by lia. apply swp_bind.
  apply (swp_mono _ _ (λ ok s', ok = true ∧ ∃ f', holds s' f' d ∧ pos f' = pos f ∧ is_Some (write_buffer f') ∧
    write_buffer_size f' = if WRITE_BUFFER <? write_buffer_size f1 + zlen bs then 0 else write_buffer_size f1)).
  { unfold WRITE_BUFFER. destruct (Z.ltb_spec 4096 (write_buffer_size f1 + zlen bs)).
    - eapply flush_spec; [done|done|]. intros s2 f2 H2 Hp2 Hs2 Hb2. split; [done|]. exists f2. split_and!; congruence.
    - apply swp_ret. split; [done|]. exists f1. split_and!; congruence. }
  intros ok s2 (-> & f2 & H2 & Hp2 & Hb2 & Hs2). cbn [negb]. unfold WRITE_BUFFER in *.
  destruct (Z.ltb_spec 4096 (zlen bs)) as [Hbig|Hsmall].
  - rewrite (proj2 (Z.ltb_lt _ _)) in Hs2 by lia. apply swp_bind, all_bytes_spec, swp_bind.
    rewrite Hp1, <- Hp2. assert (bs ≠ []) as Hne by (by intros ->).
    eapply (do_direct_spec content fits); [done|done|done|lia|lia|]. intros st' Hfit Hst.
    apply swp_bind. eapply (advance_spec s2 f2 d bs); try done; [lia|].
    intros s3 f3 H3 Hp3 Hs3 Hb3. apply swp_ret. rewrite (proj2 (Z.eqb_neq _ _)) by lia. split; [simpl; apply s32_small; lia|].
    exists f3. rewrite Hb3, <- Hp2. done.
  - apply swp_bind, all_bytes_spec, swp_bind. eapply (append_spec s2 f2 d bs); try done; [|lia|lia|lia|].
    { rewrite Hs2. destruct (Z.ltb_spec 4096 (write_buffer_size f1 + zlen bs)); lia. }
    intros s3 f3 H3 Hp3 Hs3 Hb3. apply swp_ret. split; [done|]. exists f3. by rewrite <- Hp2.
Qed.

Lemma wrote_app f f1 d a c s' :
  0 ≤ pos f → pos f1 = pos f + zlen a → wrote f1 (splice (Z.to_nat (pos f)) a d) c s' → wrote f d (a ++ c) s'.
Proof.
  intros H0 Hp (f' & Hh & Hp' & Hb). exists f'. split; [|split; [rewrite length_app; lia|done]].
  rewrite splice_app. replace (Z.to_nat (pos f) + length a)%nat with (Z.to_nat (pos f1)) by lia. done.
Qed.

(** Every round of [writev] takes at least one byte of the vector. *)
Lemma chunks_spec n : ∀ s f d buf total,
  (length buf < n)%nat → holds s f d → is_Some (write_buffer f) → pos f + zlen buf < 2 ^ 63 →
  pos f ≤ zlen d → pos f + zlen buf ≤ limit → 0 ≤ total → total + zlen buf < 2 ^ 63 →
  swp (writev_chunks n p v buf (zlen buf) total) s (λ r s', r = inr (total + zlen buf) ∧ wrote f d buf s').
Proof.
  induction n as [|n IH]; intros s f d buf total Hn Hh Hb Hmax Hend Hlim Ht0 Ht; [lia|]. cbn [writev_chunks].
  destruct (Z.ltb_spec 0 (zlen buf)) as [Hpos|Hz]; cbn [negb].
  2: { assert (buf = []) as -> by (destruct buf; simpl in *; [done|lia]). apply swp_ret. split; [f_equal; simpl; lia|].
       exists f. split_and!; simpl; [done|lia|done]. }
  apply swp_bind. eapply file_at_spec; [apply (h_file Hh)|]. apply swp_bind.
  apply (swp_mono _ _ (λ ok s', ok = true ∧ ∃ f', holds s' f' d ∧ pos f' = pos f ∧ is_Some (write_buffer f') ∧ write_buffer_size f' < 4096)).
  { pose proof (h_buf Hh) as (_ & _ & Hbb). unfold WRITE_BUFFER. destruct (Z.eqb_spec (write_buffer_size f) 4096).
    - eapply flush_spec; [done|done|]. intros s2 f2 H2 Hp2 Hs2 Hb2. split; [done|]. exists f2. split_and!; [done..|lia].
    - apply swp_ret. split; [done|]. exists f. split_and!; try done. destruct (write_buffer f); lia. }
  intros ok s2 (-> & f2 & H2 & Hp2 & Hb2 & Hs2). cbn [negb]. pose proof (h_buf H2) as (Hw2 & _).
  apply swp_bind. eapply file_at_spec; [apply (h_file H2)|]. unfold WRITE_BUFFER. apply swp_if.
  - rewrite andb_true_iff, Z.eqb_eq, Z.leb_le. intros (Hz & Hbig).
    apply swp_bind, all_bytes_spec, swp_bind. assert (buf ≠ []) as Hne by (by intros ->).
    eapply (do_direct_spec content fits); [done|done|done|lia|lia|]. intros st' Hfit Hst.
    rewrite (proj2 (Z.ltb_lt _ _)) by lia. apply swp_bind. eapply (advance_spec s2 f2 d buf); try done; [lia|].
    intros s3 f3 H3 Hp3 Hs3 Hb3. rewrite Nat2Z.id, drop_all, Z.sub_diag, s64_small by lia.
    eapply swp_mono; [eapply (IH s3 f3 _ [] (total + zlen buf)); simpl; [lia|exact H3|by rewrite Hb3|lia|pose proof (splice_end (pos f2) buf d); lia|lia|lia|lia]|].
    intros r s4 (-> & f4 & H4 & Hp4 & Hb4). split; [f_equal; simpl; lia|]. exists f4. rewrite Hp2 in H4, Hp3. simpl in Hp4. split_and!; [done|lia|done].
  - intros _. rewrite (u64_small (4096 - _)) by lia. set (c := if _ <? _ then _ else _).
    assert (0 < c ≤ zlen buf ∧ c + write_buffer_size f2 ≤ 4096) as Hc.
    { unfold c. destruct (Z.ltb_spec (zlen buf) (4096 - write_buffer_size f2)); lia. }
    apply swp_bind, user_bytes_spec; [lia|]. set (a := take (Z.to_nat c) buf). assert (zlen a = c) as Ha by (unfold a; rewrite length_take; lia).
    apply swp_bind. eapply (append_spec s2 f2 d a); try done; [lia|lia|lia|lia|]. intros s3 f3 H3 Hp3 Hs3 Hb3.
    rewrite u64_small, s64_small by lia. set (rest := drop (Z.to_nat c) buf).
    assert (zlen rest = zlen buf - c) as Hr by (unfold rest; rewrite length_drop; lia). rewrite <- Hr.
    eapply swp_mono; [eapply (IH s3 f3 _ rest (total + c)); [lia|exact H3|done|lia|pose proof (splice_end (pos f2) a d); lia|lia|lia|lia]|]. intros r s4 (-> & Hw). split; [f_equal; lia|].
    rewrite <- (take_drop (Z.to_nat c) buf). eapply (wrote_app f f3 d a rest); [lia|lia|]. by rewrite <- Hp2.
Qed.
(** A vector over the bytes [bs]. *)
Definition iov_of (bs : list Z) : iovec := mkIov (Some bs) (zlen bs).

Lemma writev_loop_spec bss : ∀ s f d total,
  holds s f d → Forall (λ bs, zlen bs < 2 ^ 31) bss → pos f + zlen (concat bss) < 2 ^ 63 →
  pos f ≤ zlen d → pos f + zlen (concat bss) ≤ limit → 0 ≤ total → total + zlen (concat bss) < 2 ^ 63 →
  swp (writev_loop mem (iov_of <$> bss) p v total) s (λ z s', z = total + zlen (concat bss) ∧
    ∃ f', holds s' f' (splice (Z.to_nat (pos f)) (concat bss) d) ∧ pos f' = pos f + zlen (concat bss)).
Proof.
  induction bss as [|bs bss IH]; intros s f d total Hh Hl Hmax Hend Hlim Ht0 Ht.
  { apply swp_ret. simpl. split; [lia|]. exists f. split; [done|lia]. }
  apply Forall_cons in Hl as (Hlen & Hl). csimpl in *. rewrite length_app, Nat2Z.inj_add in *.
  pose proof (h_buf Hh) as (Hw & _). destruct (Z.eqb_spec (zlen bs) 0) as [Hz|Hz].
  { assert (bs = []) as -> by (destruct bs; simpl in *; [done|lia]). apply IH; simpl in *; try done; lia. }
  rewrite (h_regular Hh). apply swp_bind. eapply ensure_spec; [done|]. intros s1 f1 H1 Hp1 Hs1 Hb1. cbn [negb].
  apply swp_bind. rewrite u64_small by lia. eapply swp_mono; [apply (chunks_spec (S (length bs)) s1 f1 d bs total); try done; lia|].
  intros r s2 (-> & f2 & H2 & Hp2 & Hb2). eapply swp_mono; [eapply (IH s2 f2); [exact H2|done|lia|pose proof (splice_end (pos f1) bs d); lia|lia|lia|lia]|].
  intros z s3 (-> & f3 & H3 & Hp3). split; [lia|]. exists f3. split; [|lia]. rewrite splice_app.
  replace (Z.to_nat (pos f) + length bs)%nat with (Z.to_nat (pos f2)) by lia. by rewrite <- Hp1.
Qed.

(** ** Seeking *)

(** Where a seek should go. *)
Definition seek_base (pos size whence : Z) : option Z :=
  if whence =? SEEK_SET then Some 0 else if whence =? SEEK_CUR then Some pos
  else if whence =? SEEK_END then Some size else None.
Definition seek_to (pos size offset whence : Z) : option Z :=
  base ← seek_base pos size whence;
  if decide (0 ≤ base + offset ≤ INT64_MAX) then Some (base + offset) else None.

Lemma seek_target_correct pos size offset whence :
  0 ≤ pos < 2 ^ 63 → 0 ≤ size < 2 ^ 63 → - 2 ^ 63 < offset < 2 ^ 63 →
  seek_target pos size offset whence = seek_to pos size offset whence.
Proof.
  intros Hp Hs Ho. unfold seek_target, seek_to, seek_base, INT64_MAX. rewrite (s64_small pos), (s64_small size) by lia.
  repeat match goal with
  | |- context [whence =? ?k] => destruct (whence =? k)
  end; csimpl; [| | |done].
  - rewrite Z.add_0_l. destruct (Z.ltb_spec offset 0), (decide (0 ≤ offset ≤ 2 ^ 63 - 1)); done || lia.
  - destruct (Z.ltb_spec 0 offset); [|destruct (Z.ltb_spec offset 0)].
    + rewrite u64_small by lia. destruct (Z.ltb_spec (2 ^ 63 - 1 - offset) pos); case_decide; try lia; [done|].
      by rewrite s64_small by lia.
    + rewrite u64_small by lia. destruct (Z.ltb_spec pos (- offset)); case_decide; try lia; [done|].
      rewrite s64_small by lia. f_equal. lia.
    + rewrite decide_True by lia. f_equal. lia.
  - destruct (Z.ltb_spec 0 offset); [|destruct (Z.ltb_spec offset 0)].
    + rewrite s64_small by lia. destruct (Z.ltb_spec (2 ^ 63 - 1 - offset) size); case_decide; try lia; [done|].
      by rewrite s64_small by lia.
    + rewrite s64_small by lia. destruct (Z.ltb_spec size (- offset)); case_decide; try lia; [done|].
      by rewrite s64_small by lia.
    + rewrite decide_True by lia. f_equal. lia.
Qed.

(** The least [long] is its own opposite. *)
Lemma seek_target_least pos size :
  0 ≤ size < 2 ^ 63 → seek_target pos size (- 2 ^ 63) SEEK_END = Some (size - 2 ^ 63).
Proof.
  intros Hs. unfold seek_target. rewrite (s64_small size) by lia. change (s64 (- - 2 ^ 63)) with (- 2 ^ 63). simpl.
  destruct (Z.ltb_spec size (- 2 ^ 63)); [lia|]. f_equal. rewrite s64_small by lia. lia.
Qed.

Lemma seek_target_full pos size offset whence :
  0 ≤ pos < 2 ^ 63 → 0 ≤ size < 2 ^ 63 → - 2 ^ 63 ≤ offset < 2 ^ 63 → (whence = SEEK_END → offset ≠ - 2 ^ 63) →
  seek_target pos size offset whence = seek_to pos size offset whence.
Proof.
  intros Hp Hs Ho Hne. destruct (Z.eq_dec offset (- 2 ^ 63)) as [->|]; [|apply seek_target_correct; lia].
  unfold seek_target, seek_to, seek_base, INT64_MAX. change (u64 (- - 2 ^ 63)) with (2 ^ 63).
  destruct (whence =? SEEK_SET); csimpl; [done|].
  destruct (whence =? SEEK_CUR); csimpl.
  - destruct (Z.ltb_spec pos (2 ^ 63)); [|lia]. by case_decide; [lia|].
  - destruct (Z.eqb_spec whence SEEK_END) as [E|]; [by destruct (Hne E)|done].
Qed.

Lemma seek_flush_spec s f d (Q : option Z → fdst St → Prop) :
  holds s f d →
  (∀ s' f', holds s' f' d → pos f' = pos f → write_buffer_size f' = 0 → Q None s') →
  swp (seek_flush p v) s Q.
Proof.
  intros Hh HQ. pose proof (h_buf Hh) as (Hs & Hp & Hb). pose proof (h_file Hh) as Hf.
  unfold seek_flush. apply swp_bind. eapply file_at_spec; [done|].
  destruct (write_buffer f) as [b|] eqn:Eb; [|by apply swp_ret, (HQ s f)].
  pose proof (h_regular Hh) as Hr. unfold is_regular in Hr. apply andb_true_iff in Hr as (-> & _). rewrite andb_true_r.
  destruct (Z.ltb_spec 0 (write_buffer_size f)); [|apply swp_ret, (HQ s f); [done|done|lia]].
  destruct (h_ops Hh) as (o & -> & ->). apply swp_bind. rewrite u64_small by lia.
  assert (take (Z.to_nat (write_buffer_size f)) b = pending f) as -> by (unfold pending; by rewrite Eb).
  eapply (do_flush_spec content fits); [done|]. intros r st' Hr Hfit Hst. rewrite Hr by done. rewrite (proj2 (Z.leb_gt _ _)) by lia.
  apply swp_bind. eapply upd_file_spec; [done|]. apply swp_ret.
  apply (HQ _ (set_write_buffer_size 0 f)); [eapply (holds_update Hh)|..]; try done.
  - apply lookup_insert_eq.
  - unfold buf_ok. cbn [write_buffer write_buffer_size pos set_write_buffer_size]. rewrite Eb. lia.
  - by left.
  - by rewrite view_flushed.
Qed.
End ops.
