(* ===== verification/FdIoThm.v ===== *)
(** * Buffering is invisible

    A program of writes and seeks on a regular file behaves as on a file
    without a buffer, and the last close leaves the same bytes. *)

From S2P Require Import Prelude Bytes StateM Fd FdOps FdIo FdIoOps.

Open Scope sm_scope.

(** ** The file without a buffer: a position and bytes *)

Record plain_file := mkPlain { pl_pos : Z; pl_data : list Z }.

Inductive io_op :=
| IoWrite (bs : list Z)
| IoWritev (bss : list (list Z))
| IoSeek (offset whence : Z).

Definition plain_write (bs : list Z) (x : plain_file) : Z * plain_file :=
  (zlen bs, mkPlain (pl_pos x + zlen bs) (splice (Z.to_nat (pl_pos x)) bs (pl_data x))).

Definition plain_op (o : io_op) (x : plain_file) : Z * plain_file :=
  match o with
  | IoWrite bs => plain_write bs x
  | IoWritev bss => plain_write (concat bss) x
  | IoSeek offset whence =>
      match seek_to (pl_pos x) (zlen (pl_data x)) offset whence with
      | Some n => (n, mkPlain n (pl_data x))
      | None => (- EINVAL, x)
      end
  end.

Fixpoint plain_run (l : list io_op) (x : plain_file) : list Z * plain_file :=
  match l with
  | [] => ([], x)
  | o :: l => let '(z, x) := plain_op o x in let '(zs, x) := plain_run l x in (z :: zs, x)
  end.

(** Sizes within the types of the calls; writes start in the file or at its
    end and keep it within [limit] bytes. *)
Definition write_fits (limit : Z) (bs : list Z) (x : plain_file) : Prop :=
  pl_pos x ≤ zlen (pl_data x) ∧ pl_pos x + zlen bs ≤ limit.
Definition op_fits (limit : Z) (o : io_op) (x : plain_file) : Prop :=
  match o with
  | IoWrite bs => zlen bs < 2 ^ 31 ∧ write_fits limit bs x
  | IoWritev bss => bss ≠ [] ∧ Forall (λ bs, zlen bs < 2 ^ 31) bss ∧ write_fits limit (concat bss) x
  | IoSeek offset _ => - 2 ^ 63 < offset < 2 ^ 63 ∧ zlen (pl_data x) < 2 ^ 63
  end.

Fixpoint run_fits (limit : Z) (l : list io_op) (x : plain_file) : Prop :=
  match l with
  | [] => True
  | o :: l => op_fits limit o x ∧ run_fits limit l (snd (plain_op o x))
  end.

Section thm.
Context {St : Type} `{!FileOps St, !SockOps St}.
Context (content : vnode → St → list Z) (fits : vnode → St → Z → Prop) `{!FileLaws content fits}.
Variables (mem : Z → bool) (me : nat) (fd p : Z) (v : vnode) (limit : Z).
Hypothesis has_memory : ∀ n, mem n = true.
Hypothesis limit_long : limit < 2 ^ 63.
Abbreviation holds := (holds content fits me fd p v limit).
Implicit Types (s : fdst St) (f : file_descriptor) (d : list Z).

Definition io_run_op (o : io_op) : SM (fdst St) Z :=
  match o with
  | IoWrite bs => syscall_write mem me fd bs (zlen bs)
  | IoWritev bss => syscall_writev mem me fd (Some (iov_of <$> bss)) (zlen bss)
  | IoSeek offset whence => syscall_lseek me fd offset whence
  end.

Fixpoint io_run (l : list io_op) : SM (fdst St) (list Z) :=
  match l with
  | [] => mret []
  | o :: l => z ← io_run_op o; zs ← io_run l; mret (z :: zs)
  end.

(** The open file stands for [x]. *)
Definition stands_for s (x : plain_file) : Prop := ∃ f, holds s f (pl_data x) ∧ pos f = pl_pos x.

Lemma write_refines s x bs :
  stands_for s x → op_fits limit (IoWrite bs) x →
  swp (syscall_write mem me fd bs (zlen bs)) s (λ z s', z = zlen bs ∧ stands_for s' (snd (plain_write bs x))).
Proof.
  intros (f & Hh & Hp) (Hlen & Hend & Hmax). unfold syscall_write. apply swp_bind.
  eapply file_slot_spec; [apply (h_table Hh)|]. apply swp_bind.
  eapply file_at_spec; [apply (h_file Hh)|]. destruct (h_vnode Hh) as (Hn & Hv).
  rewrite (proj2 (Z.eqb_neq _ _) Hn). apply swp_bind. eapply vnode_at_spec; [done|].
  destruct (h_ops Hh) as (o & -> & ->). cbn [negb]. rewrite (h_regular Hh).
  eapply swp_mono; [eapply (write_regular_spec content fits); try done; lia|]. intros z s' (-> & f' & H' & Hp' & _). split; [done|].
  exists f'. unfold plain_write. simpl. rewrite <- Hp. done.
Qed.

Lemma writev_refines s x bss :
  stands_for s x → op_fits limit (IoWritev bss) x →
  swp (syscall_writev mem me fd (Some (iov_of <$> bss)) (zlen bss)) s
    (λ z s', z = zlen (concat bss) ∧ stands_for s' (snd (plain_write (concat bss) x))).
Proof.
  intros (f & Hh & Hp) (Hne & Hlen & Hend & Hmax). pose proof (h_buf Hh) as (Hw & _).
  unfold syscall_writev. apply swp_bind.
  eapply file_slot_spec; [apply (h_table Hh)|]. apply swp_bind.
  eapply file_at_spec; [apply (h_file Hh)|]. destruct (h_vnode Hh) as (Hn & Hv).
  rewrite (proj2 (Z.eqb_neq _ _) Hn). destruct (h_ops Hh) as (o & -> & ->). cbn [negb].
  assert (0 < zlen bss) by (destruct bss; simpl; [done|lia]). rewrite (proj2 (Z.leb_gt _ _)) by lia.
  apply swp_bind. unfold copy_iovec. rewrite has_memory, length_fmap, Z.leb_refl. eapply swp_lift; [done|].
  apply swp_bind. eapply vnode_at_spec; [done|]. rewrite take_ge by (rewrite length_fmap; lia).
  eapply swp_mono; [eapply (writev_loop_spec content fits mem me fd p v limit has_memory bss s f); try done; lia|].
  intros z s' (-> & f' & H' & Hp'). split; [lia|]. exists f'. unfold plain_write. simpl. by rewrite <- Hp.
Qed.

(** [lseek]: the buffer goes out, then the position is what [seek_target] gives. *)
Lemma lseek_spec s x offset whence :
  stands_for s x → zlen (pl_data x) < 2 ^ 63 →
  swp (syscall_lseek me fd offset whence) s (λ z s', ∃ s1 f1, holds s1 f1 (pl_data x) ∧ pos f1 = pl_pos x ∧
    write_buffer_size f1 = 0 ∧ content v (store s1) = pl_data x ∧
    match seek_target (pl_pos x) (zlen (pl_data x)) offset whence with
    | Some n => z = n ∧ s' = set_files (<[p := set_pos (u64 n) f1]> (files s1)) s1
    | None => z = - EINVAL ∧ s' = s1
    end).
Proof.
  intros (f & Hh & Hp) Hd. pose proof (h_buf Hh) as (Hw & Hw2 & _).
  unfold syscall_lseek. apply swp_bind.
  eapply file_slot_spec; [apply (h_table Hh)|]. apply swp_bind.
  eapply file_at_spec; [apply (h_file Hh)|]. destruct (h_vnode Hh) as (Hn & Hv).
  rewrite (proj2 (Z.eqb_neq _ _) Hn). apply swp_bind. eapply vnode_at_spec; [done|].
  pose proof (h_regular Hh) as Hr. unfold is_regular in Hr. apply andb_true_iff in Hr as (Hty%Z.eqb_eq & _).
  rewrite Hty. cbn [VNODE_TYPE_FILE VNODE_TYPE_FIFO VNODE_TYPE_SOCK Z.eqb Pos.eqb orb]. apply swp_bind.
  eapply (seek_flush_spec content fits me fd p v limit); [done|]. intros s1 f1 H1 Hp1 Hs1. apply swp_bind. unfold do_size at 1, swp at 1.
  destruct (h_space H1) as (Hfit & _). rewrite (law_size v _ _ Hfit). pose proof (h_view H1) as Hview. rewrite view_flushed in Hview by done. rewrite Hview.
  rewrite Hp. destruct (seek_target _ _ offset whence) as [n|].
  - apply swp_bind. eapply upd_file_spec; [apply (h_file H1)|]. apply swp_ret. exists s1, f1. by rewrite Hp1, Hp.
  - apply swp_ret. exists s1, f1. by rewrite Hp1, Hp.
Qed.

(** A flushed file at another position. *)
Lemma stands_moved s f x n :
  holds s f (pl_data x) → write_buffer_size f = 0 → 0 ≤ n < 2 ^ 63 →
  stands_for (set_files (<[p := set_pos (u64 n) f]> (files s)) s) (mkPlain n (pl_data x)).
Proof.
  intros H1 Hs1 Hn. exists (set_pos (u64 n) f). split; [|simpl; apply u64_small; lia].
  eapply (holds_update H1); [done|done|apply lookup_insert_eq|done|..].
  - pose proof (h_buf H1) as (_ & _ & Hb). unfold buf_ok. cbn [pos set_pos write_buffer write_buffer_size].
    rewrite u64_small by lia. rewrite Hs1 in *. split; [lia|]. split; [lia|exact Hb].
  - apply (h_space H1).
  - by left.
  - pose proof (h_view H1) as Hview. by rewrite view_flushed in Hview |- *.
Qed.

Lemma lseek_refines s x offset whence :
  stands_for s x → op_fits limit (IoSeek offset whence) x →
  swp (syscall_lseek me fd offset whence) s (λ z s', z = fst (plain_op (IoSeek offset whence) x) ∧
    stands_for s' (snd (plain_op (IoSeek offset whence) x))).
Proof.
  intros Hx (Ho & Hd). destruct (Hx) as (f & Hh & Hp). pose proof (h_buf Hh) as (Hw & Hw2 & _).
  eapply swp_mono; [by apply lseek_spec|]. intros z s' (s1 & f1 & H1 & Hp1 & Hs1 & _ & Ht).
  rewrite seek_target_correct in Ht by lia. simpl. destruct (seek_to _ _ offset whence) as [n|] eqn:E; destruct Ht as (-> & ->).
  - split; [done|]. apply stands_moved; [done|done|].
    unfold seek_to, INT64_MAX in E. destruct (seek_base _ _ whence) as [b|]; simplify_eq/=. case_decide; simplify_eq/=. lia.
  - split; [done|]. by exists f1.
Qed.

Lemma io_run_op_refines s x o :
  stands_for s x → op_fits limit o x →
  swp (io_run_op o) s (λ z s', z = fst (plain_op o x) ∧ stands_for s' (snd (plain_op o x))).
Proof.
  intros Hx Ho. destruct o as [bs|bss|offset whence].
  - by apply write_refines.
  - by apply writev_refines.
  - by apply lseek_refines.
Qed.

Lemma io_run_refines l : ∀ s x,
  stands_for s x → run_fits limit l x →
  swp (io_run l) s (λ zs s', zs = fst (plain_run l x) ∧ stands_for s' (snd (plain_run l x))).
Proof.
  induction l as [|o l IH]; intros s x Hx Hf; [by apply swp_ret|]. destruct Hf as (Ho & Hf). cbn [io_run plain_run].
  apply swp_bind. eapply swp_mono; [by apply io_run_op_refines|]. intros z s1 (-> & H1). apply swp_bind.
  eapply swp_mono; [by apply IH|]. intros zs s2 (-> & H2). apply swp_ret.
  destruct (plain_op o x) as [z x1]. simpl in *. destruct (plain_run l x1) as [zs x2]. done.
Qed.

(** The last reference goes: the bytes are in the file system. *)
Definition saved (d : list Z) s : Prop := content v (store s) = d ∧ fits v (store s) limit.

Lemma drop_ref_flushes s0 s f d :
  holds s0 f d → files s = files s0 → vnodes s = vnodes s0 → store s = store s0 →
  swp (drop_ref p) s (λ _ s', saved d s' ∧ files s' !! p = None).
Proof.
  intros Hh Ef Ev Es. pose proof (h_file Hh) as Hf. rewrite <- Ef in Hf. pose proof (h_buf Hh) as (Hw & Hw2 & Hb).
  destruct (h_vnode Hh) as (Hn & Hv). rewrite <- Ev in Hv. unfold drop_ref. apply swp_bind. eapply file_at_spec; [done|].
  apply swp_bind. eapply upd_file_spec; [done|]. rewrite (h_count Hh). change (s32 (1 - 1)) with 0.
  set (s1 := set_files _ s). set (f1 := set_count 0 f) in s1. change (0 =? 0) with true. unfold sm_when.
  assert (files s1 !! p = Some f1) as Hf1 by apply lookup_insert_eq. unfold release_file. apply swp_bind.
  apply (swp_mono _ _ (λ _ s', files s' = files s1 ∧ vnodes s' = vnodes s1 ∧ saved d s')).
  { unfold flush_buffer. apply swp_bind. eapply file_at_spec; [done|]. cbn [f1 set_count write_buffer write_buffer_size vnode_ptr pos ops].
    pose proof (h_view Hh) as Hd. pose proof (proj1 (h_space Hh)) as Hfit. rewrite <- Es in Hd, Hfit.
    destruct (write_buffer f) as [b|] eqn:Eb.
    - destruct (Z.ltb_spec 0 (write_buffer_size f)).
      + rewrite (proj2 (Z.eqb_neq _ _) Hn). cbn [andb negb]. apply swp_bind. eapply vnode_at_spec; [done|].
        pose proof (h_regular Hh) as Hr. unfold is_regular in Hr. apply andb_true_iff in Hr as (-> & _).
        destruct (h_ops Hh) as (o & -> & ->). apply swp_bind. rewrite u64_small by lia.
        replace (take _ b) with (pending f) by (unfold pending; by rewrite Eb). eapply swp_mono with (P := λ _ s', files s' = files s1 ∧ vnodes s' = vnodes s1 ∧ saved d s').
        * unfold do_write, swp. simpl. rewrite Es.
          pose proof (do_flush_spec content fits me fd p v limit s0 f d (λ _ s', saved d s') Hh) as Hw'.
          unfold do_write, swp in Hw'. destruct (op_write _ _ _ _) as [r st']. split_and!; try done. by apply Hw'.
        * intros r s' H'. by apply swp_ret.
      + apply swp_ret. split_and!; try done. split; [|done]. rewrite <- Hd, view_flushed by lia. done.
    - apply swp_ret. split_and!; try done. split; [|done]. rewrite <- Hd, view_flushed by lia. done. }
  intros o s2 (Hf2 & Hv2 & Hd2). apply swp_bind. eapply file_at_spec; [by rewrite Hf2|].
  cbn [f1 set_count vnode_ptr dentry]. rewrite (proj2 (Z.eqb_neq _ _) Hn). cbn [negb]. apply swp_bind, swp_bind.
  eapply vnode_at_spec; [by rewrite Hv2|].
  assert (∀ b e s', store s' = store s2 → swp (sm_when b (emit e)) s' (λ _ s'', store s'' = store s2)) as Hem.
  { intros b e s' E. by apply swp_when. }
  eapply swp_mono; [by apply Hem|]. intros [] s3 H3. apply swp_bind. eapply swp_mono; [by apply Hem|].
  intros [] s4 H4. unfold free_file, swp. simpl. unfold saved. simpl. rewrite H4, lookup_delete_eq. done.
Qed.

Lemma close_flushes s f d :
  holds s f d → swp (syscall_close me fd) s (λ z s', z = 0 ∧ saved d s' ∧ files s' !! p = None).
Proof.
  intros Hh. destruct (h_table Hh) as (t & Ht & Hb & Hp & Hp0).
  pose proof (lookup_lt_Some _ _ _ Hp) as Hl. unfold syscall_close, open_slot. apply swp_bind, swp_bind.
  unfold table_of at 1, swp at 1. rewrite Ht. apply swp_ret, swp_bind, swp_bind. unfold table_of, swp at 1. rewrite Ht. rewrite (proj2 (Z.ltb_ge fd 0)), (proj2 (Z.leb_gt _ fd)) by lia. cbn [orb].
  apply swp_bind. unfold slot. eapply swp_lift; [apply aget_ok; lia|]. unfold at_. rewrite (list_lookup_total_correct _ _ _ Hp).
  rewrite (proj2 (Z.eqb_neq _ _) Hp0). apply swp_ret, swp_bind. unfold set_slot, swp at 1. rewrite Ht, aset_ok by lia.
  apply swp_bind. eapply file_at_spec; [apply (h_file Hh)|].
  apply swp_bind. eapply swp_mono; [eapply (drop_ref_flushes s); done|]. intros [] s' H'. apply swp_bind.
  apply swp_when; intros _; apply swp_bind; by apply swp_ret.
Qed.

(** C15. A program of [write], [writev] and [lseek] on the only descriptor of a
    regular file gives the results it gives on a file without a buffer; closing
    the descriptor then leaves the bytes of that file in the file system. The
    program keeps to these limits: every write starts within the file or at its
    end, has less than 2^31 bytes and fits the space of the file system, no seek
    has the least [long] as its offset, no vector is empty, and the kernel has
    memory for buffers. *)
Theorem buffered_file_refines s x l :
  stands_for s x → run_fits limit l x →
  ∃ zs s' s'', io_run l s = Ok (zs, s') ∧ zs = fst (plain_run l x) ∧
    syscall_close me fd s' = Ok (0, s'') ∧ content v (store s'') = pl_data (snd (plain_run l x)).
Proof.
  intros Hx Hl. destruct (swp_elim _ _ _ (io_run_refines l s x Hx Hl)) as (zs & s' & E & -> & f & Hh & _).
  destruct (swp_elim _ _ _ (close_flushes s' f _ Hh)) as (z & s'' & E' & -> & (Hc & _) & _). by exists (fst (plain_run l x)), s', s''.
Qed.

(** C36. [lseek] with any offset, after the buffered bytes went to the file. It
    moves to the position the offset names from the start, the position or the
    end of all bytes written so far; it answers -EINVAL, leaving the position,
    when that is negative, does not fit a [long] or [whence] is none of the
    three. One offset is an exception: the least [long] from the end passes the
    test for a negative target; the call returns a negative number and leaves
    the position above every valid one. *)
Theorem syscall_lseek_correct s x offset whence :
  stands_for s x → - 2 ^ 63 ≤ offset < 2 ^ 63 → zlen (pl_data x) < 2 ^ 63 →
  ∃ z s', syscall_lseek me fd offset whence s = Ok (z, s') ∧
    if decide (whence = SEEK_END ∧ offset = - 2 ^ 63) then
      z = zlen (pl_data x) - 2 ^ 63 ∧ content v (store s') = pl_data x ∧
      ∃ f', files s' !! p = Some f' ∧ pos f' = 2 ^ 63 + zlen (pl_data x)
    else
      match seek_base (pl_pos x) (zlen (pl_data x)) whence with
      | Some b =>
          if decide (0 ≤ b + offset < 2 ^ 63) then z = b + offset ∧ stands_for s' (mkPlain (b + offset) (pl_data x))
          else z = - EINVAL ∧ stands_for s' x
      | None => z = - EINVAL ∧ stands_for s' x
      end.
Proof.
  intros Hx Ho Hd. destruct (Hx) as (f & Hh & Hp). pose proof (h_buf Hh) as (Hw & Hw2 & _).
  destruct (swp_elim _ _ _ (lseek_spec s x offset whence Hx Hd)) as (z & s' & E & s1 & f1 & H1 & Hp1 & Hs1 & Hc & Ht).
  exists z, s'. split; [done|]. destruct (decide _) as [(-> & ->)|Hne].
  - rewrite seek_target_least in Ht by lia. destruct Ht as (-> & ->). split; [done|]. split; [done|].
    eexists. split; [apply lookup_insert_eq|]. cbn [pos set_pos]. unfold u64. symmetry. apply (Z.mod_unique_pos _ _ (-1)); lia.
  - assert (stands_for s1 x) as Hs by (by exists f1).
    rewrite seek_target_full in Ht by (try lia; naive_solver). unfold seek_to, INT64_MAX in Ht.
    destruct (seek_base _ _ whence) as [b|]; [|by destruct Ht as (-> & ->)]. simpl in Ht.
    repeat case_decide; try lia; destruct Ht as (-> & ->); (split; [done|]); [by apply stands_moved|done].
Qed.
End thm.

(** A file system of one file. *)
Module OneFile.
#[local] Instance one_file : FileOps (list Z) := {
  op_read _ n off st := let bs := take (Z.to_nat n) (drop (Z.to_nat off) st) in (zlen bs, bs, st);
  op_write _ bs off st := (zlen bs, splice (Z.to_nat off) bs st);
  op_flush _ st := st;
  op_size _ st := zlen st }.
#[local] Instance no_sockets : SockOps (list Z) := { sock_send _ _ _ _ := None; sock_recv _ _ _ := None }.

Definition whole (_ : vnode) (st : list Z) : list Z := st.
Definition space (_ : vnode) (_ : list Z) (_ : Z) : Prop := True.
#[local] Instance one_file_laws : FileLaws whole space.
Proof. split; [by eauto|by eauto|done]. Qed.

Definition file : vnode := mkVnode 7 VNODE_TYPE_FILE true.
Definition opened : file_descriptor := mkFile 1 (Some (mkVops true true true)) 0 0 0 50 None 0.
Definition start : fdst (list Z) :=
  mkFd [Some (mkTable 64 (100 :: replicate 63 0) (replicate 64 0) 1)] {[100 := opened]} {[50 := file]} [1; 2; 3] [].
Definition memory (_ : Z) : bool := true.

Lemma start_stands : stands_for whole space 0 0 100 file 9000 start (mkPlain 0 [1; 2; 3]).
Proof.
  exists opened. split; [|done]. split; try done.
  - eexists. split; [done|]. split; [vm_compute; by split|done].
  - by eexists.
  - split; [done|by left].
Qed.

Definition calls : list io_op := [IoWrite [9; 8]; IoSeek 0 SEEK_END; IoWritev [[5]; [6; 7]]; IoSeek (-9) SEEK_CUR].

Lemma buffered_file_refines_witness :
  ∃ zs s' s'', io_run memory 0 0 calls start = Ok (zs, s') ∧ zs = [2; 3; 3; - 22] ∧
    syscall_close 0 0 s' = Ok (0, s'') ∧ store s'' = [9; 8; 3; 5; 6; 7].
Proof.
  apply (buffered_file_refines whole space memory 0 0 100 file 9000 (λ _, eq_refl) eq_refl start _ calls start_stands).
  repeat split; try done; repeat constructor; vm_compute; done.
Defined.

Lemma syscall_lseek_correct_witness :
  (∃ z s', syscall_lseek 0 0 2 SEEK_END start = Ok (z, s') ∧ z = 5 ∧
    stands_for whole space 0 0 100 file 9000 s' (mkPlain 5 [1; 2; 3])) ∧
  ∃ z s', syscall_lseek 0 0 (- 2 ^ 63) SEEK_END start = Ok (z, s') ∧ z = 3 - 2 ^ 63 ∧ store s' = [1; 2; 3] ∧
    ∃ f', files s' !! 100 = Some f' ∧ pos f' = 2 ^ 63 + 3.
Proof.
  split.
  - apply (syscall_lseek_correct whole space 0 0 100 file 9000 start _ 2 SEEK_END start_stands); done.
  - apply (syscall_lseek_correct whole space 0 0 100 file 9000 start _ (- 2 ^ 63) SEEK_END start_stands); done.
Defined.

(** [write] with a negative count passes the test against the size of the
    buffer and copies out of bounds. *)
Example write_negative_faults : syscall_write memory 0 0 [1] (-1) start = Fault.
Proof. by vm_compute. Qed.

(** [fsync] returns with the bytes still in the buffer, and a read does not
    see them. *)
Definition after_fsync : res (Z * (Z * list Z)) :=
  match (syscall_write memory 0 0 [9] 1 ;; syscall_fsync 0 0)%sm start with
  | Ok (z, s) => Ok (z, (write_buffer_size (default opened (files s !! 100)), store s))
  | Fault => Fault
  | NoFuel => NoFuel
  end.
Example fsync_keeps_buffer : after_fsync = Ok (0, (1, [1; 2; 3])).
Proof. by vm_compute. Qed.
End OneFile.
