(* ===== verification/Fat32.v ===== *)
(** * FAT32 files

    [kernel/libk/fs/fat32.c]: the file allocation table, the chains of
    clusters that make up files, and reading, writing and truncating a file.

    The block device is an interface, [BlockDev]: reads and writes of bytes
    from a sector on, either of which may fail.  [mem n] says whether
    [kalloc n] has memory; a null buffer that the code uses anyway, and a
    division by zero, are faults.  The node of the file and the size in its
    vnode are state. *)

From S2P Require Import Prelude CMem Bytes StateM.

Open Scope sm_scope.

Definition FAT_EOC : Z := 0x0FFFFFF8.
Definition FAT_MASK : Z := 0x0FFFFFFF.

(** The sector of [struct fat32_fsinfo], 512 bytes: what comes before the two
    counters, and after. *)
Record fat32_fsinfo := mkFsinfo { fi_head : list Z; free_cluster_count : Z; next_free_cluster : Z; fi_tail : list Z }.

Definition fsinfo_bytes (i : fat32_fsinfo) : list Z :=
  fi_head i ++ le_bytes 4 (free_cluster_count i) ++ le_bytes 4 (next_free_cluster i) ++ fi_tail i.

Record fat32_internal_data := mkNode {
  cluster : Z; size : Z; size_in_sectors : Z; flags : Z;
  first_data_sector : Z; sectors_per_cluster : Z; bytes_per_sector : Z; fat_start_sector : Z;
  dir_sector : Z; dir_offset : Z; fsinfo_sector : Z; fsinfo : fat32_fsinfo; fats_count : Z;
  backup_boot_sector : Z; data_sectors : Z }.

Definition set_cluster (x : Z) (n : fat32_internal_data) : fat32_internal_data :=
  mkNode x (size n) (size_in_sectors n) (flags n) (first_data_sector n) (sectors_per_cluster n) (bytes_per_sector n)
    (fat_start_sector n) (dir_sector n) (dir_offset n) (fsinfo_sector n) (fsinfo n) (fats_count n)
    (backup_boot_sector n) (data_sectors n).
Definition set_size (x : Z) (n : fat32_internal_data) : fat32_internal_data :=
  mkNode (cluster n) x (size_in_sectors n) (flags n) (first_data_sector n) (sectors_per_cluster n) (bytes_per_sector n)
    (fat_start_sector n) (dir_sector n) (dir_offset n) (fsinfo_sector n) (fsinfo n) (fats_count n)
    (backup_boot_sector n) (data_sectors n).
Definition set_fsinfo (x : fat32_fsinfo) (n : fat32_internal_data) : fat32_internal_data :=
  mkNode (cluster n) (size n) (size_in_sectors n) (flags n) (first_data_sector n) (sectors_per_cluster n)
    (bytes_per_sector n) (fat_start_sector n) (dir_sector n) (dir_offset n) (fsinfo_sector n) x (fats_count n)
    (backup_boot_sector n) (data_sectors n).

(** [None] and [false]: the device reports an error. *)
Class BlockDev (D : Type) := {
  blk_read : Z → Z → D → option (list Z) * D;
  blk_write : Z → list Z → D → bool * D;
  blk_flush : D → bool * D }.

Section fat.
Context {D : Type} `{!BlockDev D}.
Variable mem : Z → bool.

Record fatst := mkFat { dev : D; node : fat32_internal_data; vnode_size : Z }.

Definition get_node : SM fatst fat32_internal_data := fun s => Ok (node s, s).
Definition upd_node (f : fat32_internal_data → fat32_internal_data) : SM fatst () := fun s =>
  Ok ((), mkFat (dev s) (f (node s)) (vnode_size s)).
Definition set_vnode_size (x : Z) : SM fatst () := fun s => Ok ((), mkFat (dev s) (node s) x).
Definition dev_read (sector n : Z) : SM fatst (option (list Z)) := fun s =>
  let '(r, d) := blk_read sector n (dev s) in Ok (r, mkFat d (node s) (vnode_size s)).
Definition dev_write (sector : Z) (bs : list Z) : SM fatst bool := fun s =>
  let '(r, d) := blk_write sector bs (dev s) in Ok (r, mkFat d (node s) (vnode_size s)).

(** Unsigned division. *)
Definition udiv (a b : Z) : res Z := if b =? 0 then Fault else Ok (a / b).
Definition umod (a b : Z) : res Z := if b =? 0 then Fault else Ok (a mod b).

(** The 32-bit word of [buf] at byte [i], and storing one there. *)
Definition word_at (buf : list Z) (i : Z) : res Z :=
  if (0 <=? i) && (i + 4 <=? zlen buf) then Ok (le_value (sub (Z.to_nat i) 4 buf)) else Fault.
Definition set_word (buf : list Z) (i w : Z) : res (list Z) :=
  if (0 <=? i) && (i + 4 <=? zlen buf) then Ok (splice (Z.to_nat i) (le_bytes 4 w) buf) else Fault.

(** [kalloc n] without a test for null. *)
Definition must_alloc (n : Z) : SM fatst () := if mem n then mret () else sm_lift Fault.

(** ** The table *)

Definition fat32_get_next_cluster (current_cluster : Z) : SM fatst Z :=
  nd ← get_node;
  let fat_offset := u32 (current_cluster * 4) in
  q ← sm_lift (udiv fat_offset (bytes_per_sector nd));
  ent_offset ← sm_lift (umod fat_offset (bytes_per_sector nd));
  if negb (mem (bytes_per_sector nd)) then mret FAT_EOC else
  r ← dev_read (u32 (fat_start_sector nd + q)) (bytes_per_sector nd);
  match r with
  | None => mret FAT_EOC
  | Some sec_buf =>
      w ← sm_lift (word_at sec_buf ent_offset);
      mret (Z.land w FAT_MASK)
  end.

Definition fat32_cluster_to_sector (nd : fat32_internal_data) (c : Z) : Z :=
  u32 (first_data_sector nd + u32 (u32 (c - 2) * sectors_per_cluster nd)).

Definition fat32_write_fsinfo : SM fatst () :=
  nd ← get_node;
  dev_write (fsinfo_sector nd) (fsinfo_bytes (fsinfo nd)) ;;
  if negb (backup_boot_sector nd =? 0) && negb (backup_boot_sector nd =? 0xFFFF) then
    dev_write (u32 (backup_boot_sector nd + fsinfo_sector nd)) (fsinfo_bytes (fsinfo nd)) ;; mret ()
  else mret ().

(** [buf] to every copy of the table, from copy [f] on. *)
Fixpoint write_fats (n : nat) (f sector : Z) (buf : list Z) : SM fatst () :=
  match n with
  | O => mret ()
  | Datatypes.S n =>
      nd ← get_node;
      dev_write (u32 (sector + u32 (f * size_in_sectors nd))) buf ;;
      write_fats n (f + 1) sector buf
  end.

(** The search of [n] more clusters from the [i]-th behind [start] on: the
    cluster taken, or 0. *)
Fixpoint allocate_loop (n : nat) (start max_cluster i : Z) : SM fatst Z :=
  match n with
  | O => mret 0
  | Datatypes.S n =>
      nd ← get_node;
      let c := u32 (u32 (u32 (start - 2) + i) mod max_cluster + 2) in
      q ← sm_lift (udiv (u32 (c * 4)) (bytes_per_sector nd));
      let sector := u32 (fat_start_sector nd + q) in
      r ← dev_read sector (bytes_per_sector nd);
      match r with
      | None => mret 0
      | Some fat_buf =>
          offset ← sm_lift (umod c (bytes_per_sector nd / 4));
          w ← sm_lift (word_at fat_buf (offset * 4));
          if Z.land w FAT_MASK =? 0 then
            buf ← sm_lift (set_word fat_buf (offset * 4) FAT_MASK);
            write_fats (Z.to_nat (fats_count nd)) 0 sector buf ;;
            let next := if u32 (max_cluster + 2) <=? u32 (c + 1) then 2 else u32 (c + 1) in
            let fi := fsinfo nd in
            let count := if free_cluster_count fi =? 0xFFFFFFFF then free_cluster_count fi
                         else u32 (free_cluster_count fi - 1) in
            upd_node (set_fsinfo (mkFsinfo (fi_head fi) count next (fi_tail fi))) ;;
            fat32_write_fsinfo ;;
            mret c
          else allocate_loop n start max_cluster (i + 1)
      end
  end.

Definition fat32_allocate_cluster : SM fatst Z :=
  nd ← get_node;
  must_alloc (bytes_per_sector nd) ;;
  max_cluster ← sm_lift (udiv (data_sectors nd) (sectors_per_cluster nd));
  let start := next_free_cluster (fsinfo nd) in
  let start := if (start <? 2) || (u32 (max_cluster + 2) <=? start) then 2 else start in
  allocate_loop (Z.to_nat max_cluster) start max_cluster 0.

Definition fat32_set_next_cluster (current_cluster next_cluster : Z) : SM fatst () :=
  nd ← get_node;
  let fat_offset := u32 (current_cluster * 4) in
  q ← sm_lift (udiv fat_offset (bytes_per_sector nd));
  ent_offset ← sm_lift (umod fat_offset (bytes_per_sector nd));
  let fat_sector := u32 (fat_start_sector nd + q) in
  if negb (mem (bytes_per_sector nd)) then mret () else
  r ← dev_read fat_sector (bytes_per_sector nd);
  match r with
  | None => mret ()
  | Some sec_buf =>
      old_val ← sm_lift (word_at sec_buf ent_offset);
      buf ← sm_lift (set_word sec_buf ent_offset
        (Z.lor (Z.land old_val 0xF0000000) (Z.land next_cluster FAT_MASK)));
      write_fats (Z.to_nat (fats_count nd)) 0 fat_sector buf
  end.

(** ** Freeing a chain *)

(** The sector of the table in memory: its index ([None] before the first
    read), whether it changed, and its bytes. *)
Record fat_window := mkWin { win_idx : option Z; win_dirty : bool; win_buf : list Z }.

Definition write_window (w : fat_window) : SM fatst () :=
  nd ← get_node;
  match win_idx w with
  | Some i => if win_dirty w then write_fats (Z.to_nat (fats_count nd)) 0 (u32 (fat_start_sector nd + i)) (win_buf w) else mret ()
  | None => mret ()
  end.

(** Load sector [idx], writing the old one back first; [None] when the read
    fails. *)
Definition load_window (w : fat_window) (idx : Z) : SM fatst (option fat_window) :=
  nd ← get_node;
  if match win_idx w with Some i => i =? idx | None => false end then mret (Some w)
  else
    write_window w ;;
    r ← dev_read (u32 (fat_start_sector nd + idx)) (bytes_per_sector nd);
    mret (match r with Some buf => Some (mkWin (Some idx) false buf) | None => None end).

(** When a read fails the window was just written back. *)
Fixpoint free_chain_loop (n : nat) (w : fat_window) (current freed : Z) : SM fatst Z :=
  match n with
  | O => sm_lift NoFuel
  | Datatypes.S n =>
      if (2 <=? current) && (current <? FAT_EOC) then
        nd ← get_node;
        sector_idx ← sm_lift (udiv current (bytes_per_sector nd / 4));
        offset ← sm_lift (umod current (bytes_per_sector nd / 4));
        o ← load_window w sector_idx;
        match o with
        | None => mret freed
        | Some w =>
            x ← sm_lift (word_at (win_buf w) (offset * 4));
            buf ← sm_lift (set_word (win_buf w) (offset * 4) 0);
            free_chain_loop n (mkWin (win_idx w) true buf) (Z.land x FAT_MASK) (u32 (freed + 1))
        end
      else write_window w ;; mret freed
  end.

(** Every round clears an entry of the table, so their number bounds the
    rounds. *)
Definition fat32_free_cluster_chain (start_cluster : Z) : SM fatst () :=
  if (start_cluster =? 0) || (FAT_EOC <=? start_cluster) then mret ()
  else
    nd ← get_node;
    must_alloc (bytes_per_sector nd) ;;
    freed ← free_chain_loop (Z.to_nat (size_in_sectors nd * bytes_per_sector nd / 4) + 2) (mkWin None false []) start_cluster 0;
    if 0 <? freed then
      nd ← get_node;
      let fi := fsinfo nd in
      upd_node (set_fsinfo (mkFsinfo (fi_head fi) (u32 (free_cluster_count fi + freed)) (next_free_cluster fi) (fi_tail fi))) ;;
      fat32_write_fsinfo
    else mret ().

(** ** Reading *)

Definition bytes_per_cluster (nd : fat32_internal_data) : Z := u32 (sectors_per_cluster nd * bytes_per_sector nd).

(** Follow the chain to the cluster of [offset]: the cluster and the offset it
    starts at; [None] past the end of the chain. *)
Fixpoint read_walk (n : nat) (offset c current_offset bpc : Z) : SM fatst (option (Z * Z)) :=
  match n with
  | O => sm_lift NoFuel
  | Datatypes.S n =>
      if u64 (current_offset + bpc) <=? offset then
        c ← fat32_get_next_cluster c;
        if FAT_EOC <=? c then mret None
        else read_walk n offset c (u64 (current_offset + bpc)) bpc
      else mret (Some (c, current_offset))
  end.

(** The bytes read so far, and how many are left. *)
Fixpoint read_loop (n : nat) (c boff left bpc : Z) (acc : list Z) : SM fatst (list Z * Z) :=
  match n with
  | O => sm_lift NoFuel
  | Datatypes.S n =>
      if (0 <? left) && (c <? FAT_EOC) then
        nd ← get_node;
        r ← dev_read (fat32_cluster_to_sector nd c) bpc;
        match r with
        | None => mret (acc, left)
        | Some temp =>
            let k := if left <? u64 (bpc - boff) then left else u64 (bpc - boff) in
            if zlen temp <? boff + k then sm_lift Fault else
            let acc := acc ++ sub (Z.to_nat boff) (Z.to_nat k) temp in
            if 0 <? u64 (left - k) then
              c ← fat32_get_next_cluster c;
              read_loop n c 0 (u64 (left - k)) bpc acc
            else read_loop n c 0 (u64 (left - k)) bpc acc
        end
      else mret (acc, left)
  end.

(** The result and the bytes stored in the caller's buffer. *)
Definition fat32_read (len offset : Z) : SM fatst (Z * list Z) :=
  if len =? 0 then mret (-1, []) else
  nd ← get_node;
  if size nd <=? offset then mret (0, []) else
  let read_len := if size nd <? u64 (offset + len) then u64 (size nd - offset) else len in
  let bpc := bytes_per_cluster nd in
  o ← read_walk (Datatypes.S (Z.to_nat (offset / bpc))) offset (cluster nd) 0 bpc;
  match o with
  | None => mret (0, [])
  | Some (c, current_offset) =>
      if negb (mem bpc) then mret (-1, []) else
      r ← read_loop (Datatypes.S (Z.to_nat read_len)) c (u64 (offset - current_offset)) read_len bpc [];
      mret (s32 (u64 (read_len - snd r)), fst r)
  end.

(** ** Writing *)

(** The cluster behind [c], a new one at the end of the chain; 0 without
    space. *)
Definition next_or_new (c : Z) : SM fatst Z :=
  next ← fat32_get_next_cluster c;
  if (FAT_EOC <=? next) || (next =? 0) then
    next ← fat32_allocate_cluster;
    if next =? 0 then mret 0
    else fat32_set_next_cluster c next ;; mret next
  else mret next.

Fixpoint write_walk (n : nat) (offset c current_offset bpc : Z) : SM fatst (Z * Z) :=
  match n with
  | O => sm_lift NoFuel
  | Datatypes.S n =>
      if u64 (current_offset + bpc) <=? offset then
        next ← next_or_new c;
        if next =? 0 then mret (c, current_offset)
        else write_walk n offset next (u64 (current_offset + bpc)) bpc
      else mret (c, current_offset)
  end.

(** The number of bytes left over.  The buffer is read from the disk unless
    all of it is written. *)
Fixpoint write_loop (n : nat) (c boff : Z) (bs : list Z) (bpc : Z) : SM fatst Z :=
  match n with
  | O => sm_lift NoFuel
  | Datatypes.S n =>
      if (0 <? zlen bs) && (c <? FAT_EOC) then
        nd ← get_node;
        let sector := fat32_cluster_to_sector nd c in
        let k := if zlen bs <? u64 (bpc - boff) then zlen bs else u64 (bpc - boff) in
        r ← (if k <? bpc then dev_read sector bpc else mret (Some (replicate (Z.to_nat bpc) 0)));
        match r with
        | None => mret (zlen bs)
        | Some temp =>
            if zlen temp <? boff + k then sm_lift Fault else
            ok ← dev_write sector (splice (Z.to_nat boff) (take (Z.to_nat k) bs) temp);
            if negb ok then mret (zlen bs) else
            let rest := drop (Z.to_nat k) bs in
            if 0 <? zlen rest then
              next ← next_or_new c;
              if next =? 0 then mret (zlen rest)
              else write_loop n next 0 rest bpc
            else write_loop n c 0 rest bpc
        end
      else mret (zlen bs)
  end.

(** The size and the first cluster in the entry of the directory. *)
Definition update_entry (sz clu : Z) (buf : list Z) (off : Z) : res (list Z) :=
  b ← set_word buf (off + 28) sz;
  if (0 <=? off) && (off + 32 <=? zlen b) then
    Ok (splice (Z.to_nat (off + 26)) (le_bytes 2 (Z.land clu 0xFFFF))
         (splice (Z.to_nat (off + 20)) (le_bytes 2 (Z.land (Z.shiftr clu 16) 0xFFFF)) b))
  else Fault.

Definition write_dir_entry (bpc : Z) : SM fatst () :=
  nd ← get_node;
  if (dir_sector nd =? 0) || negb (mem bpc) then mret ()
  else
    r ← dev_read (dir_sector nd) bpc;
    match r with
    | None => mret ()
    | Some dir_buf =>
        b ← sm_lift (update_entry (size nd) (cluster nd) dir_buf (dir_offset nd));
        dev_write (dir_sector nd) b ;; mret ()
    end.

(** The first cluster of the file, a new one for a file without any; 0
    without space. *)
Definition first_cluster : SM fatst Z :=
  nd ← get_node;
  if cluster nd =? 0 then
    c ← fat32_allocate_cluster;
    if c =? 0 then mret 0 else upd_node (set_cluster c) ;; mret c
  else mret (cluster nd).

Definition fat32_write (buf : list Z) (offset : Z) : SM fatst Z :=
  let len := zlen buf in
  if len =? 0 then mret (-1) else
  nd ← get_node;
  let bpc := bytes_per_cluster nd in
  let grows := size nd <? u64 (offset + len) in
  sm_when grows (upd_node (set_size (u32 (offset + len))) ;; set_vnode_size (u32 (offset + len))) ;;
  c ← first_cluster;
  if c =? 0 then mret 0 else
  let extended := grows || (cluster nd =? 0) in
  w ← write_walk (Datatypes.S (Z.to_nat (offset / bpc))) offset c 0 bpc;
  if u64 (snd w + bpc) <=? offset then mret 0
  else if negb (mem bpc) then mret (-1)
  else
    left ← write_loop (Datatypes.S (length buf)) (fst w) (u64 (offset - snd w)) buf bpc;
    sm_when extended (write_dir_entry bpc) ;;
    mret (len - left).

(** ** Truncating, flushing, symbolic links *)

Definition fat32_truncate (length : Z) : SM fatst Z :=
  if negb (length =? 0) then mret (-1) else
  nd ← get_node;
  if size nd =? 0 then mret 0 else
  fat32_free_cluster_chain (cluster nd) ;;
  upd_node (set_cluster 0) ;;
  upd_node (set_size 0) ;;
  set_vnode_size 0 ;;
  write_dir_entry (bytes_per_cluster nd) ;;
  mret 0.

Definition fat32_flush : SM fatst Z := fun s =>
  let '(ok, d) := blk_flush (dev s) in Ok (if ok then 0 else -1, mkFat d (node s) (vnode_size s)).
End fat.

Arguments fatst : clear implicits.
