(* ===== verification/Fat32Inv.v ===== *)
(** * The table of a sound FAT32 volume

    The disk as one list of bytes, the entries of the first table in it and
    the bytes of the clusters; what reading and writing an entry, taking a
    free cluster and following a chain do to them. *)

From S2P Require Import Prelude CMem Bytes StateM Fat32.

Open Scope sm_scope.

(** A device without errors: [image] is what is on the disk, in sectors of 512
    bytes. *)
Class DiskLaws {D} `{!BlockDev D} (image : D → list Z) : Prop := {
  law_read sector n d :
    0 ≤ sector → 0 < n → sector * 512 + n ≤ zlen (image d) →
    ∃ d', blk_read sector n d = (Some (sub (Z.to_nat (sector * 512)) (Z.to_nat n) (image d)), d') ∧ image d' = image d;
  law_blk_write sector bs d :
    0 ≤ sector → bs ≠ [] → zlen bs mod 512 = 0 → sector * 512 + zlen bs ≤ zlen (image d) →
    ∃ d', blk_write sector bs d = (true, d') ∧ image d' = splice (Z.to_nat (sector * 512)) bs (image d) }.

(** The layout of a volume: where the tables start, their number and sectors,
    where the clusters start, the sectors of a cluster and the number of
    clusters. *)
Record layout := mkLayout { l_fat : Z; l_fats : Z; l_fsz : Z; l_data : Z; l_spc : Z; l_clusters : Z }.

Record layout_ok (L : layout) : Prop := mkLayoutOk {
  lo_fat : 0 < l_fat L;
  lo_fats : 0 < l_fats L;
  lo_fsz : (l_clusters L + 2) * 4 ≤ l_fsz L * 512;
  lo_data : l_fat L + l_fats L * l_fsz L ≤ l_data L;
  lo_spc : 0 < l_spc L ∧ l_spc L * 512 < 2 ^ 32;
  lo_clusters : 0 < l_clusters L ∧ l_clusters L + 2 < FAT_EOC;
  lo_end : l_data L + l_clusters L * l_spc L < 2 ^ 32 }.

Section volume.
Context {D : Type} `{!BlockDev D} (image : D → list Z) `{!DiskLaws image}.
Context (mem : Z → bool) (has_memory : ∀ n, mem n = true).
Context (L : layout) (LO : layout_ok L).
Implicit Types (s : fatst D) (img : list Z) (c : Z).

Definition bpc : Z := l_spc L * 512.
Definition in_range c : Prop := 2 ≤ c < l_clusters L + 2.

Definition fat_off c : nat := Z.to_nat (l_fat L * 512 + 4 * c).
Definition fat_get img c : Z := Z.land (le_value (sub (fat_off c) 4 img)) FAT_MASK.
Definition data_off c : nat := Z.to_nat ((l_data L + (c - 2) * l_spc L) * 512).
Definition cl_bytes img c : list Z := sub (data_off c) (Z.to_nat bpc) img.
Definition disk_size : Z := (l_data L + l_clusters L * l_spc L) * 512.

(** The node of a file on this volume. *)
Record geo (nd : fat32_internal_data) : Prop := mkGeo {
  g_bps : bytes_per_sector nd = 512;
  g_fat : fat_start_sector nd = l_fat L;
  g_fats : fats_count nd = l_fats L;
  g_fsz : size_in_sectors nd = l_fsz L;
  g_data : first_data_sector nd = l_data L;
  g_spc : sectors_per_cluster nd = l_spc L;
  g_clusters : data_sectors nd / sectors_per_cluster nd = l_clusters L;
  g_info : 0 ≤ fsinfo_sector nd < l_fat L;
  g_backup : backup_boot_sector nd = 0 ∨ backup_boot_sector nd = 0xFFFF ∨
    0 ≤ backup_boot_sector nd ∧ backup_boot_sector nd + fsinfo_sector nd < l_fat L;
  g_fsinfo : length (fi_head (fsinfo nd)) = 488%nat ∧ length (fi_tail (fsinfo nd)) = 16%nat ∧
    0 ≤ next_free_cluster (fsinfo nd) < 2 ^ 32 }.

Definition vol_ok s : Prop := geo (node s) ∧ disk_size ≤ zlen (image (dev s)).

(** The data of the clusters is untouched. *)
Definition data_same img img' : Prop :=
  length img' = length img ∧ ∀ i n, (Z.to_nat (l_data L * 512) ≤ i)%nat → sub i n img' = sub i n img.

Lemma data_same_refl img : data_same img img.
Proof. by split. Qed.
Lemma data_same_trans img img' img'' : data_same img img' → data_same img' img'' → data_same img img''.
Proof. intros (H1 & H2) (H3 & H4). split; [congruence|]. intros i n Hi. by rewrite H4, H2. Qed.

Lemma data_same_cluster img img' c : data_same img img' → in_range c → cl_bytes img' c = cl_bytes img c.
Proof. intros (_ & H) Hc. apply H. unfold data_off, in_range in *. destruct LO. nia. Qed.

(** Steps that leave the node, the size and the disk alone. *)
Definition same_fat s s' : Prop := image (dev s') = image (dev s) ∧ node s' = node s ∧ vnode_size s' = vnode_size s.

Lemma dev_read_spec s sector n (Q : option (list Z) → fatst D → Prop) :
  0 ≤ sector → 0 < n → sector * 512 + n ≤ zlen (image (dev s)) →
  (∀ s', same_fat s s' → Q (Some (sub (Z.to_nat (sector * 512)) (Z.to_nat n) (image (dev s)))) s') →
  swp (dev_read sector n) s Q.
Proof.
  intros Hs Hn Hl HQ. unfold dev_read, swp. destruct (law_read sector n (dev s) Hs Hn Hl) as (d' & -> & Hd). by apply HQ.
Qed.

Lemma dev_write_spec s sector bs (Q : bool → fatst D → Prop) :
  0 ≤ sector → bs ≠ [] → zlen bs mod 512 = 0 → sector * 512 + zlen bs ≤ zlen (image (dev s)) →
  (∀ s', image (dev s') = splice (Z.to_nat (sector * 512)) bs (image (dev s)) → node s' = node s →
    vnode_size s' = vnode_size s → Q true s') →
  swp (dev_write sector bs) s Q.
Proof.
  intros Hs Hn Hm Hl HQ. unfold dev_write, swp. destruct (law_blk_write sector bs (dev s) Hs Hn Hm Hl) as (d' & -> & Hd). by apply HQ.
Qed.

Lemma get_node_spec s (Q : fat32_internal_data → fatst D → Prop) : Q (node s) s → swp get_node s Q.
Proof. done. Qed.

Lemma disk_fits s : vol_ok s → disk_size ≤ zlen (image (dev s)) ∧ (l_data L) * 512 ≤ disk_size.
Proof. intros (_ & H). split; [done|]. unfold disk_size. destruct LO. nia. Qed.

Lemma u32_small x : 0 ≤ x < 2 ^ 32 → u32 x = x.
Proof. intros Hx. unfold u32. by rewrite Z.mod_small. Qed.

(** ** Reading an entry *)

(** The sector of entry [c] and the place in it. *)
Lemma entry_sector c :
  in_range c → 0 ≤ 4 * c / 512 < l_fsz L ∧ 4 * c = 4 * c / 512 * 512 + 4 * c mod 512 ∧
  0 ≤ 4 * c mod 512 ∧ 4 * c mod 512 + 4 ≤ 512 ∧ l_fat L + 4 * c / 512 < 2 ^ 32 ∧ 4 * c < 2 ^ 32.
Proof.
  unfold in_range. intros Hc. destruct LO. unfold FAT_EOC in *. pose proof (Z.div_mod (4 * c) 512).
  pose proof (Z.mod_pos_bound (4 * c) 512). assert (4 * c mod 512 + 4 ≤ 512) by dlia.
  assert (l_fsz L ≤ l_fats L * l_fsz L) by nia. assert (0 < l_clusters L * l_spc L) by nia. split_and!; lia.
Qed.

Definition sec_off (q : Z) : nat := Z.to_nat ((l_fat L + q) * 512).

Lemma fat_off_eq c : in_range c → fat_off c = (sec_off (4 * c / 512) + Z.to_nat (4 * c mod 512))%nat.
Proof. intros Hc. destruct (entry_sector c Hc) as (? & ? & ? & ? & _). destruct LO. unfold fat_off, sec_off. lia. Qed.

Lemma word_at_ok buf i : 0 ≤ i → i + 4 ≤ zlen buf → word_at buf i = Ok (le_value (sub (Z.to_nat i) 4 buf)).
Proof. intros H0 Hi. unfold word_at. by rewrite (proj2 (Z.leb_le 0 i)), (proj2 (Z.leb_le (i + 4) _)). Qed.

Lemma set_word_ok buf i w : 0 ≤ i → i + 4 ≤ zlen buf → set_word buf i w = Ok (splice (Z.to_nat i) (le_bytes 4 w) buf).
Proof. intros H0 Hi. unfold set_word. by rewrite (proj2 (Z.leb_le 0 i)), (proj2 (Z.leb_le (i + 4) _)). Qed.

(** The tables are on the disk. *)
Lemma table_on_disk s q :
  vol_ok s → 0 ≤ q < l_fsz L → (l_fat L + q) * 512 + 512 ≤ l_data L * 512 ≤ zlen (image (dev s)).
Proof. intros Hv Hq. destruct (disk_fits s Hv). destruct LO. assert (l_fsz L ≤ l_fats L * l_fsz L) by nia. lia. Qed.

Lemma read_entry img c :
  in_range c → (sec_off (4 * c / 512) + 512 ≤ length img)%nat →
  word_at (sub (sec_off (4 * c / 512)) 512 img) (4 * c mod 512) = Ok (le_value (sub (fat_off c) 4 img)).
Proof.
  intros Hc Hl. destruct (entry_sector c Hc) as (_ & _ & H0 & H4 & _). rewrite word_at_ok by (rewrite ?length_sub; lia).
  rewrite sub_sub by lia. by rewrite fat_off_eq.
Qed.

Lemma read_table_spec s c (Q : option (list Z) → fatst D → Prop) :
  vol_ok s → in_range c →
  (∀ s', same_fat s s' → Q (Some (sub (sec_off (4 * c / 512)) 512 (image (dev s)))) s') →
  swp (dev_read (u32 (l_fat L + 4 * c / 512)) 512) s Q.
Proof.
  intros Hv Hc HQ. destruct (entry_sector c Hc) as (Hq & _ & _ & _ & Hu & _). destruct (table_on_disk s _ Hv Hq).
  destruct LO. rewrite u32_small by lia. apply dev_read_spec; [lia|lia|lia|done].
Qed.

Lemma get_next_spec s c (Q : Z → fatst D → Prop) :
  vol_ok s → in_range c → (∀ s', same_fat s s' → Q (fat_get (image (dev s)) c) s') →
  swp (fat32_get_next_cluster mem c) s Q.
Proof.
  intros Hv Hc HQ. pose proof Hv as (Hg & Hd). destruct (entry_sector c Hc) as (Hq & _ & _ & _ & Hu & H4).
  unfold fat32_get_next_cluster. apply swp_bind, get_node_spec. rewrite (Z.mul_comm c), (u32_small (4 * c)) by (unfold in_range in Hc; lia).
  destruct Hg. rewrite g_bps0, g_fat0, has_memory. apply swp_bind. eapply swp_lift; [done|]. apply swp_bind. eapply swp_lift; [done|].
  cbn [negb]. apply swp_bind, read_table_spec; [done|done|]. intros s' Hs. apply swp_bind. eapply swp_lift.
  { apply read_entry; [done|]. pose proof (table_on_disk s _ Hv Hq). unfold sec_off. lia. }
  apply swp_ret. by apply HQ.
Qed.

(** ** Writing an entry in every copy of the table *)

(** Only bytes of the tables differ. *)
Definition tables_only img img' : Prop :=
  length img' = length img ∧
  ∀ i n, (i + n ≤ Z.to_nat (l_fat L * 512) ∨ Z.to_nat ((l_fat L + l_fats L * l_fsz L) * 512) ≤ i)%nat →
    sub i n img' = sub i n img.

Lemma write_copies_spec n : ∀ s f q buf (Q : () → fatst D → Prop),
  vol_ok s → 0 ≤ q < l_fsz L → length buf = 512%nat → 0 < f → f + Z.of_nat n = l_fats L →
  (∀ s', node s' = node s → vnode_size s' = vnode_size s → tables_only (image (dev s)) (image (dev s')) →
    (∀ i k, (i + k ≤ Z.to_nat ((l_fat L + l_fsz L) * 512))%nat → sub i k (image (dev s')) = sub i k (image (dev s))) → Q () s') →
  swp (write_fats n f (u32 (l_fat L + q)) buf) s Q.
Proof.
  induction n as [|n IH]; intros s f q buf Q Hv Hq Hb Hf Hn HQ; [by apply swp_ret, HQ|]. cbn [write_fats].
  apply swp_bind, get_node_spec. pose proof Hv as (Hg & Hd). rewrite (g_fsz _ Hg).
  destruct (disk_fits s Hv). destruct LO. assert (0 ≤ f * l_fsz L) by nia. assert (f * l_fsz L + q < l_fats L * l_fsz L) by nia.
  assert (0 < l_clusters L * l_spc L) by nia. rewrite (u32_small (f * _)), (u32_small (l_fat L + q)), (u32_small (_ + f * _)) by lia.
  apply swp_bind, dev_write_spec; [lia|by destruct buf|by rewrite Hb|rewrite Hb; lia|]. intros s1 Hi1 Hn1 Hv1.
  set (o := Z.to_nat ((l_fat L + q + f * l_fsz L) * 512)) in *.
  assert (o + length buf ≤ length (image (dev s)))%nat as Ho by (unfold o; rewrite Hb; lia).
  assert (vol_ok s1) as V1.
  { split; [by rewrite Hn1|]. rewrite Hi1, length_splice_in by done. done. }
  replace (l_fat L + q) with (l_fat L + q) at 1 by done.
  rewrite <- (u32_small (l_fat L + q)) by lia. apply (IH s1 (f + 1) q buf); [done|done|done|lia|lia|].
  intros s2 Hn2 Hv2 (Hl2 & Ht2) Hf2. apply HQ; [congruence|congruence|split|].
  - by rewrite Hl2, Hi1, length_splice_in.
  - intros i k Hik. rewrite Ht2 by done. rewrite Hi1. apply sub_splice_other; [done|]. unfold o. rewrite Hb. nia.
  - intros i k Hik. rewrite Hf2 by done. rewrite Hi1. apply sub_splice_other; [done|]. unfold o. rewrite Hb. nia.
Qed.

Lemma write_fats_spec s q buf (Q : () → fatst D → Prop) :
  vol_ok s → 0 ≤ q < l_fsz L → length buf = 512%nat →
  (∀ s', node s' = node s → vnode_size s' = vnode_size s → tables_only (image (dev s)) (image (dev s')) →
    (∀ i k, (i + k ≤ Z.to_nat ((l_fat L + l_fsz L) * 512))%nat →
      sub i k (image (dev s')) = sub i k (splice (sec_off q) buf (image (dev s)))) → Q () s') →
  swp (write_fats (Z.to_nat (l_fats L)) 0 (u32 (l_fat L + q)) buf) s Q.
Proof.
  intros Hv Hq Hb HQ. pose proof Hv as (Hg & Hd). destruct (table_on_disk s q Hv Hq) as (Ht1 & Ht2). destruct LO.
  replace (Z.to_nat (l_fats L)) with (Datatypes.S (Z.to_nat (l_fats L - 1))) by lia. cbn [write_fats].
  apply swp_bind, get_node_spec. assert (0 < l_clusters L * l_spc L) by nia.
  change (u32 (0 * size_in_sectors (node s))) with 0. rewrite (u32_small (l_fat L + q)), Z.add_0_r, (u32_small (l_fat L + q)) by lia.
  apply swp_bind, dev_write_spec; [lia|by destruct buf|by rewrite Hb|rewrite Hb; lia|]. intros s1 Hi1 Hn1 Hv1.
  change (Z.to_nat ((l_fat L + q) * 512)) with (sec_off q) in Hi1.
  assert (sec_off q + length buf ≤ length (image (dev s)))%nat as Ho by (unfold sec_off; rewrite Hb; lia).
  assert (vol_ok s1) as V1.
  { split; [by rewrite Hn1|]. rewrite Hi1, length_splice_in by done. done. }
  rewrite <- (u32_small (l_fat L + q)) by lia. change (0 + 1) with 1.
  apply (write_copies_spec _ s1 1 q buf); [done|done|done|lia|lia|]. intros s2 Hn2 Hv2 (Hl2 & Hs2) Hf2.
  apply HQ; [congruence|congruence|split|].
  - by rewrite Hl2, Hi1, length_splice_in.
  - intros i k Hik. rewrite Hs2 by done. rewrite Hi1. apply sub_splice_other; [done|]. unfold sec_off. rewrite Hb. nia.
  - intros i k Hik. rewrite Hf2 by done. by rewrite Hi1.
Qed.

(** The table with entry [c] set to [w], and no change to the clusters. *)
Definition fat_set img img' c (w : Z) : Prop :=
  data_same img img' ∧ ∀ c', in_range c' → fat_get img' c' = if decide (c' = c) then w else fat_get img c'.

Definition fat_same img img' : Prop := data_same img img' ∧ ∀ c', in_range c' → fat_get img' c' = fat_get img c'.

Lemma tables_only_data img img' : tables_only img img' → data_same img img'.
Proof. intros (Hl & H). split; [done|]. intros i n Hi. apply H. destruct LO. right. lia. Qed.

Lemma entry_range c : in_range c → (fat_off c + 4 ≤ Z.to_nat ((l_fat L + l_fsz L) * 512))%nat.
Proof. intros Hc. destruct (entry_sector c Hc) as (Hq & He & Hm & Hm4 & _). destruct LO. unfold fat_off. lia. Qed.

Lemma mask_word w : 0 ≤ w < 2 ^ 32 → Z.land (le_value (le_bytes 4 w)) FAT_MASK = w mod 2 ^ 28.
Proof. intros Hw. rewrite le_value_bytes, Z.mod_small by lia. change FAT_MASK with (2 ^ 28 - 1). apply land_ones_mod. lia. Qed.

Lemma entry_update img img' c w :
  in_range c → (sec_off (4 * c / 512) + 512 ≤ length img)%nat → 0 ≤ w < 2 ^ 32 → tables_only img img' →
  (∀ i k, (i + k ≤ Z.to_nat ((l_fat L + l_fsz L) * 512))%nat → sub i k img' =
    sub i k (splice (sec_off (4 * c / 512)) (splice (Z.to_nat (4 * c mod 512)) (le_bytes 4 w) (sub (sec_off (4 * c / 512)) 512 img)) img)) →
  fat_set img img' c (w mod 2 ^ 28).
Proof.
  intros Hc Hl Hw Ht Hsub. destruct (entry_sector c Hc) as (_ & _ & Hm & Hm4 & _). split; [by apply tables_only_data|].
  intros c' Hc'. unfold fat_get. rewrite Hsub by (by apply entry_range).
  rewrite splice_sub by (rewrite ?length_le_bytes; lia). rewrite <- fat_off_eq by done.
  assert (fat_off c + length (le_bytes 4 w) ≤ length img)%nat as Hi by (rewrite fat_off_eq, length_le_bytes by done; lia).
  case_decide as Hcc.
  - subst c'. pose proof (sub_splice_same (fat_off c) (le_bytes 4 w) img Hi) as E. rewrite length_le_bytes in E.
    rewrite E. by apply mask_word.
  - rewrite sub_splice_other; [done|done|]. rewrite length_le_bytes. unfold fat_off, in_range in *. destruct LO. lia.
Qed.

(** [splice] of a word into a sector keeps its length. *)
Lemma length_set_word i w img (q : nat) :
  0 ≤ i → i + 4 ≤ 512 → (q + 512 ≤ length img)%nat →
  length (splice (Z.to_nat i) (le_bytes 4 w) (sub q 512 img)) = 512%nat.
Proof. intros Hi H4 Hl. rewrite length_splice_in; rewrite length_sub, ?length_le_bytes by lia; lia. Qed.

(** Writing entry [c] back from its sector. *)
Lemma put_entry_spec s0 s c w (Q : () → fatst D → Prop) :
  vol_ok s → image (dev s0) = image (dev s) → in_range c → 0 ≤ w < 2 ^ 32 →
  (∀ s', node s' = node s → vnode_size s' = vnode_size s → fat_set (image (dev s)) (image (dev s')) c (w mod 2 ^ 28) → Q () s') →
  swp (write_fats (Z.to_nat (l_fats L)) 0 (u32 (l_fat L + 4 * c / 512))
    (splice (Z.to_nat (4 * c mod 512)) (le_bytes 4 w) (sub (sec_off (4 * c / 512)) 512 (image (dev s0))))) s Q.
Proof.
  intros Hv Hi Hc Hw HQ. destruct (entry_sector c Hc) as (Hq & _ & Hm & Hm4 & _).
  pose proof (table_on_disk s _ Hv Hq). assert (sec_off (4 * c / 512) + 512 ≤ length (image (dev s)))%nat by (unfold sec_off; destruct LO; lia).
  apply write_fats_spec; [done|done|rewrite Hi; by apply length_set_word|]. intros s' Hn Hvs Ht Hsub.
  rewrite Hi in Hsub. apply HQ; [done|done|]. by apply entry_update.
Qed.

Lemma same_vol s s' : same_fat s s' → vol_ok s → vol_ok s'.
Proof. intros (Hi & Hn & _) (Hg & Hd). split; [by rewrite Hn|by rewrite Hi]. Qed.

Lemma set_next_spec s c next (Q : () → fatst D → Prop) :
  vol_ok s → in_range c → 0 ≤ next < 2 ^ 28 →
  (∀ s', node s' = node s → vnode_size s' = vnode_size s → fat_set (image (dev s)) (image (dev s')) c next → Q () s') →
  swp (fat32_set_next_cluster mem c next) s Q.
Proof.
  intros Hv Hc Hnx HQ. pose proof Hv as (Hg & Hd). destruct (entry_sector c Hc) as (Hq & _ & Hm & Hm4 & Hu & H4).
  pose proof (table_on_disk s _ Hv Hq). assert (sec_off (4 * c / 512) + 512 ≤ length (image (dev s)))%nat as Hsec by (unfold sec_off; destruct LO; lia).
  unfold fat32_set_next_cluster. apply swp_bind, get_node_spec. rewrite (Z.mul_comm c), (u32_small (4 * c)) by (unfold in_range in Hc; lia).
  rewrite (g_bps _ Hg), (g_fat _ Hg), (g_fats _ Hg), has_memory. apply swp_bind. eapply swp_lift; [done|]. apply swp_bind. eapply swp_lift; [done|].
  cbn [negb]. apply swp_bind, read_table_spec; [done|done|]. intros s1 Hs1. pose proof (same_vol _ _ Hs1 Hv) as V1.
  destruct Hs1 as (Hi1 & Hn1 & Hv1). apply swp_bind. eapply swp_lift; [by apply read_entry|]. apply swp_bind.
  eapply swp_lift; [apply set_word_ok; [lia|rewrite length_sub; lia]|].
  set (old := le_value _). set (w := Z.lor _ _).
  assert (w = old / 2 ^ 28 mod 16 * 2 ^ 28 + next) as Ew.
  { unfold w. change FAT_MASK with (2 ^ 28 - 1). rewrite land_ones_mod, (Z.mod_small next) by lia.
    replace (Z.land old 0xF0000000) with (Z.shiftl (old / 2 ^ 28 mod 16) 28).
    - rewrite lor_shiftl_add by lia. lia.
    - rewrite <- Z.shiftr_div_pow2 by lia. change 16 with (2 ^ 4). rewrite <- Z.land_ones by lia.
      rewrite Z.shiftl_land, Z.shiftl_mul_pow2 by lia. change (Z.shiftl (Z.ones 4) 28) with 0xF0000000.
      apply Z.bits_inj'. intros k Hk. rewrite !Z.land_spec. destruct (Z.testbit 0xF0000000 k) eqn:E; [|by rewrite !andb_false_r].
      rewrite !andb_true_r. rewrite Z.mul_pow2_bits by lia. assert (28 ≤ k).
      { destruct (decide (28 ≤ k)); [done|]. exfalso. change 0xF0000000 with (Z.shiftl 15 28) in E. rewrite Z.shiftl_spec_low in E by lia. done. }
      rewrite Z.shiftr_spec by lia. f_equal. lia. }
  assert (0 ≤ w < 2 ^ 32) as Hw by (rewrite Ew; dlia).
  apply (put_entry_spec s s1 c w); [done|by rewrite Hi1|done|done|]. intros s2 Hn2 Hv2 H2. apply HQ; [congruence|congruence|].
  rewrite Hi1 in H2. replace next with (w mod 2 ^ 28); [done|]. rewrite Ew, Z.add_comm, Z.mod_add by lia. apply Z.mod_small. lia.
Qed.

(** ** The information sector *)

Lemma low_write_same img sector buf :
  0 ≤ sector < l_fat L → length buf = 512%nat → l_data L * 512 ≤ zlen img →
  fat_same img (splice (Z.to_nat (sector * 512)) buf img).
Proof.
  intros Hs Hb Hl. destruct LO. assert (0 ≤ l_fats L * l_fsz L) by nia.
  assert (Z.to_nat (sector * 512) + length buf ≤ length img)%nat as Hi by lia.
  split; [split; [by apply length_splice_in|]|].
  - intros i n Hn. apply sub_splice_other; [done|]. lia.
  - intros c Hc. unfold fat_get. rewrite sub_splice_other; [done|done|]. unfold fat_off, in_range in *. lia.
Qed.

Lemma fat_same_trans img img' img'' : fat_same img img' → fat_same img' img'' → fat_same img img''.
Proof. intros (H1 & H2) (H3 & H4). split; [by eapply data_same_trans|]. intros c Hc. by rewrite H4, H2. Qed.

Lemma fat_set_same img img' img'' c w : fat_set img img' c w → fat_same img' img'' → fat_set img img'' c w.
Proof. intros (H1 & H2) (H3 & H4). split; [by eapply data_same_trans|]. intros c' Hc. by rewrite H4, H2. Qed.

Lemma write_fsinfo_spec s (Q : () → fatst D → Prop) :
  vol_ok s →
  (∀ s', node s' = node s → vnode_size s' = vnode_size s → fat_same (image (dev s)) (image (dev s')) → Q () s') →
  swp fat32_write_fsinfo s Q.
Proof.
  intros Hv HQ. destruct (disk_fits s Hv) as (Hd & Hd'). destruct Hv as (Hg & _). pose proof (g_info _ Hg). pose proof (g_fsinfo _ Hg) as (Hh & Ht & _).
  assert (length (fsinfo_bytes (fsinfo (node s))) = 512%nat) as Hb.
  { unfold fsinfo_bytes. rewrite !length_app, !length_le_bytes, Hh, Ht. done. }
  destruct LO. assert (0 ≤ l_fats L * l_fsz L) by nia. unfold fat32_write_fsinfo.
  apply swp_bind, get_node_spec, swp_bind, dev_write_spec; [lia|by intros E; rewrite E in Hb|by rewrite Hb|rewrite Hb; lia|].
  intros s1 Hi1 Hn1 Hv1. pose proof (low_write_same (image (dev s)) (fsinfo_sector (node s)) _ ltac:(lia) Hb ltac:(lia)) as Hsame.
  rewrite <- Hi1 in Hsame. destruct Hsame as ((Hl1 & Hx) & Hy).
  destruct (_ && _) eqn:E; [|by apply swp_ret, HQ; [..|split; [split|]]].
  apply andb_true_iff in E as (E1%negb_true_iff%Z.eqb_neq & E2%negb_true_iff%Z.eqb_neq).
  destruct (g_backup _ Hg) as [?|[?|(Hb0 & Hlt)]]; [done|done|]. assert (0 < l_clusters L * l_spc L) by nia. rewrite u32_small by lia.
  apply swp_bind, dev_write_spec; [lia|by intros E; rewrite E in Hb|by rewrite Hb|rewrite Hb; lia|].
  intros s2 Hi2 Hn2 Hv2. apply swp_ret, HQ; [congruence|congruence|].
  eapply fat_same_trans; [split; [split; [exact Hl1|exact Hx]|exact Hy]|]. rewrite Hi2. apply low_write_same; [lia|done|lia].
Qed.

(** ** Taking a free cluster *)

(** A node that differs in the information sector only. *)
Definition info_only (nd nd' : fat32_internal_data) : Prop :=
  ∃ fi, nd' = set_fsinfo fi nd ∧ length (fi_head fi) = length (fi_head (fsinfo nd)) ∧
    length (fi_tail fi) = length (fi_tail (fsinfo nd)) ∧ 0 ≤ next_free_cluster fi < 2 ^ 32.

Lemma info_only_geo nd nd' : geo nd → info_only nd nd' → geo nd'.
Proof. intros Hg (fi & -> & H1 & H2 & H3). destruct Hg as [? ? ? ? ? ? ? ? ? (Hh & Ht & _)]. split; simpl; try done. split_and!; congruence || lia. Qed.

Lemma set_fsinfo_twice fi fi' nd : set_fsinfo fi (set_fsinfo fi' nd) = set_fsinfo fi nd.
Proof. done. Qed.

Definition probe (start i : Z) : Z := (start - 2 + i) mod l_clusters L + 2.

Definition took s s' c : Prop :=
  in_range c ∧ fat_get (image (dev s)) c = 0 ∧ fat_set (image (dev s)) (image (dev s')) c FAT_MASK ∧
  info_only (node s) (node s') ∧ vnode_size s' = vnode_size s.

Lemma probe_range start i : 2 ≤ start → 0 ≤ i → in_range (probe start i).
Proof. intros Hs Hi. unfold probe, in_range. destruct LO. pose proof (Z.mod_pos_bound (start - 2 + i) (l_clusters L)). lia. Qed.

(** The entry of a cluster as the allocator finds it. *)
Lemma offset_eq c : c mod (512 / 4) * 4 = 4 * c mod 512.
Proof. change (512 / 4) with 128. rewrite Z.mul_comm, <- Z.mul_mod_distr_l by lia. f_equal; lia. Qed.

(** A free cluster is marked as the end of a chain. *)
Lemma take_free_spec s0 s c (Q : Z → fatst D → Prop) next count :
  vol_ok s → image (dev s0) = image (dev s) → in_range c → fat_get (image (dev s)) c = 0 → 0 ≤ next < 2 ^ 32 →
  (∀ s', took s s' c → Q c s') →
  swp (write_fats (Z.to_nat (l_fats L)) 0 (u32 (l_fat L + 4 * c / 512))
         (splice (Z.to_nat (4 * c mod 512)) (le_bytes 4 FAT_MASK) (sub (sec_off (4 * c / 512)) 512 (image (dev s0)))) ;;
       upd_node (set_fsinfo (mkFsinfo (fi_head (fsinfo (node s))) count next (fi_tail (fsinfo (node s))))) ;;
       fat32_write_fsinfo ;; mret c) s Q.
Proof.
  intros Hv Hi Hc H0 Hnx HQ. destruct (disk_fits s Hv) as (Hd & _). apply swp_bind.
  apply (put_entry_spec s0 s c FAT_MASK); [done|done|done|done|]. intros s1 Hn1 Hv1 Hf1.
  change (FAT_MASK mod 2 ^ 28) with FAT_MASK in Hf1. apply swp_bind. unfold upd_node at 1, swp at 1.
  set (fi := mkFsinfo _ _ _ _). set (s2 := mkFat _ _ _).
  assert (info_only (node s) (node s2)) as Hinfo by (exists fi; unfold s2; simpl; by rewrite Hn1).
  assert (vol_ok s2) as V2.
  { split; [eapply info_only_geo; [apply Hv|done]|]. destruct Hf1 as ((Hl & _) & _). simpl. rewrite Hl. lia. }
  apply swp_bind, write_fsinfo_spec; [done|]. intros s3 Hn3 Hv3 Hf3. apply swp_ret, HQ. split_and!; try done.
  - eapply fat_set_same; [exact Hf1|exact Hf3].
  - by rewrite Hn3.
  - by rewrite Hv3.
Qed.

Lemma same_fat_trans s s' s'' : same_fat s s' → same_fat s' s'' → same_fat s s''.
Proof. intros (? & ? & ?) (? & ? & ?). split_and!; congruence. Qed.

Lemma took_same s s1 s2 c : same_fat s s1 → took s1 s2 c → took s s2 c.
Proof. unfold took. intros (-> & -> & ->). done. Qed.

Lemma allocate_loop_spec n : ∀ s start i (Q : Z → fatst D → Prop),
  vol_ok s → in_range start → 0 ≤ i → i + Z.of_nat n = l_clusters L →
  (∀ c s', took s s' c → Q c s') →
  (∀ s', same_fat s s' → (∀ j, i ≤ j < l_clusters L → fat_get (image (dev s)) (probe start j) ≠ 0) → Q 0 s') →
  swp (allocate_loop n start (l_clusters L) i) s Q.
Proof.
  induction n as [|n IH]; intros s start i Q Hv Hst Hi Hn Hfound Hnone.
  { apply swp_ret, Hnone; [done|]. lia. }
  pose proof (probe_range start i ltac:(unfold in_range in Hst; lia) Hi) as Hc. destruct (disk_fits s Hv) as (Hd & _).
  pose proof (proj1 Hv) as Hg. destruct (entry_sector _ Hc) as (Hq & _ & Hm & Hm4 & Hu & H4). pose proof LO as LO'. destruct LO'.
  unfold FAT_EOC in *. cbn [allocate_loop]. apply swp_bind, get_node_spec.
  rewrite (u32_small (start - 2)), (u32_small (start - 2 + i)) by (unfold in_range in Hst; lia).
  change ((start - 2 + i) mod l_clusters L + 2) with (probe start i). set (c := probe start i) in *.
  rewrite (u32_small c), (Z.mul_comm c), (u32_small (4 * c)) by (unfold in_range in Hc; lia).
  rewrite (g_bps _ Hg), (g_fat _ Hg), (g_fats _ Hg). apply swp_bind. eapply swp_lift; [done|].
  apply swp_bind, read_table_spec; [done|done|]. intros s1 Hs1. pose proof (same_vol _ _ Hs1 Hv) as V1.
  apply swp_bind. eapply swp_lift; [done|]. rewrite offset_eq. apply swp_bind.
  pose proof (table_on_disk s _ Hv Hq). assert (sec_off (4 * c / 512) + 512 ≤ length (image (dev s)))%nat as Hsec by (unfold sec_off; lia).
  eapply swp_lift; [by apply read_entry|]. fold (fat_get (image (dev s)) c). destruct Hs1 as (Hi1 & Hn1 & Hv1).
  destruct (Z.eqb_spec (fat_get (image (dev s)) c) 0) as [Hz|Hz].
  - apply swp_bind. eapply swp_lift; [apply set_word_ok; [lia|rewrite length_sub; lia]|].
    rewrite <- Hn1. apply (take_free_spec s s1 c); [done|done|done|by rewrite Hi1| |].
    { rewrite u32_small, (u32_small (c + 1)) by (unfold in_range in Hc; lia). destruct (_ <=? _); unfold in_range in Hc; lia. }
    intros s2 H2. apply Hfound. by apply (took_same s s1).
  - apply IH; [done|done|lia|lia| |].
    + intros c' s2 H2. apply Hfound. by apply (took_same s s1).
    + intros s2 Hs2 Hall. apply Hnone; [by apply (same_fat_trans s s1)|]. intros j Hj. destruct (decide (j = i)) as [->|Hne]; [done|].
      rewrite <- Hi1. apply Hall. lia.
Qed.

(** The probes reach every cluster. *)
Lemma probe_onto start c : in_range start → in_range c → ∃ j, 0 ≤ j < l_clusters L ∧ probe start j = c.
Proof.
  unfold in_range, probe. intros Hs Hc. destruct LO. exists ((c - start) mod l_clusters L).
  pose proof (Z.mod_pos_bound (c - start) (l_clusters L)). split; [lia|].
  rewrite Zplus_mod_idemp_r. replace (start - 2 + (c - start)) with (c - 2) by lia. rewrite Z.mod_small by lia. lia.
Qed.

Lemma allocate_spec s (Q : Z → fatst D → Prop) :
  vol_ok s →
  (∀ c s', took s s' c → Q c s') →
  (∀ s', same_fat s s' → (∀ c, in_range c → fat_get (image (dev s)) c ≠ 0) → Q 0 s') →
  swp (fat32_allocate_cluster mem) s Q.
Proof.
  intros Hv Hfound Hnone. pose proof (proj1 Hv) as Hg. pose proof LO as LO'. destruct LO'. unfold FAT_EOC in *.
  unfold fat32_allocate_cluster. apply swp_bind, get_node_spec, swp_bind. unfold must_alloc. rewrite has_memory. apply swp_ret, swp_bind.
  pose proof (g_spc _ Hg). pose proof (g_clusters _ Hg) as Hcl. eapply swp_lift.
  { unfold udiv. rewrite (proj2 (Z.eqb_neq _ _)) by lia. done. }
  rewrite Hcl, (u32_small (_ + 2)) by lia. match goal with |- swp (allocate_loop _ ?x _ _) _ _ => set (start := x) end.
  assert (in_range start) as Hst.
  { unfold start, in_range. destruct (Z.ltb_spec (next_free_cluster (fsinfo (node s))) 2); simpl; [lia|].
    destruct (Z.leb_spec (l_clusters L + 2) (next_free_cluster (fsinfo (node s)))); lia. }
  apply allocate_loop_spec; [done|done|lia|lia|done|]. intros s' Hs Hall. apply Hnone; [done|].
  intros c Hc. destruct (probe_onto start c Hst Hc) as (j & Hj & <-). by apply Hall.
Qed.
End volume.
