(* ===== verification/Fat32File.v ===== *)
(** * Chains of clusters

    A file is a chain of clusters in the table; what following a chain,
    growing it at its end and storing bytes in its clusters do to the file and
    to all others. *)

From S2P Require Import Prelude CMem Bytes StateM Fat32 Fat32Inv.

Open Scope sm_scope.

Lemma filter_ext_length (P Q : Z → Prop) `{!∀ c, Decision (P c), !∀ c, Decision (Q c)} l :
  (∀ c, c ∈ l → P c ↔ Q c) → length (filter P l) = length (filter Q l).
Proof.
  induction l as [|c l IH]; intros Hpq; [done|]. rewrite !filter_cons.
  pose proof (Hpq c ltac:(set_solver)) as Hc. specialize (IH ltac:(set_solver)). repeat case_decide; simpl; naive_solver.
Qed.

Section table.
Context (L : layout).
Implicit Types (img : list Z) (c : Z) (l : list Z).

Abbreviation fat_get := (fat_get L).
Abbreviation in_range := (in_range L).
Abbreviation cl_bytes := (cl_bytes L).

Fixpoint linked img l : Prop :=
  match l with
  | [] => True
  | c :: l' =>
      match l' with
      | [] => FAT_EOC ≤ fat_get img c
      | c' :: _ => fat_get img c = c' ∧ linked img l'
      end
  end.

(** The bytes of a chain, and the number of free clusters. *)
Definition bytes_of img l : list Z := concat (cl_bytes img <$> l).
Definition free img : nat := length (filter (λ c, fat_get img c = 0) (seqZ 2 (l_clusters L))).

(** ** The chain *)

Lemma linked_next img pre c c' post : linked img (pre ++ c :: c' :: post) → fat_get img c = c'.
Proof. induction pre as [|a pre IH]; simpl; [naive_solver|]. destruct pre; simpl in *; naive_solver. Qed.

Lemma linked_last img pre c : linked img (pre ++ [c]) → FAT_EOC ≤ fat_get img c.
Proof. induction pre as [|a pre IH]; simpl; [done|]. destruct pre; simpl in *; naive_solver. Qed.

(** Entries of a chain are taken. *)
Lemma linked_taken img l c : linked img l → Forall in_range l → c ∈ l → fat_get img c ≠ 0.
Proof.
  intros Hl Hr (pre & post & ->)%list_elem_of_split. destruct post as [|c' post].
  - apply linked_last in Hl. unfold FAT_EOC in Hl. lia.
  - apply linked_next in Hl. apply Forall_app in Hr as (_ & (_ & (Hc' & _)%Forall_cons)%Forall_cons).
    unfold Fat32Inv.in_range in Hc'. lia.
Qed.

(** A chain depends on its own entries. *)
Lemma chain_ext img img' l : linked img l → (∀ c, c ∈ l → fat_get img' c = fat_get img c) → linked img' l.
Proof.
  induction l as [|c l IH]; [done|]. intros Hl He. destruct l as [|c' l]; simpl in *.
  - rewrite He by set_solver. done.
  - destruct Hl as (Hc & Hl). rewrite He by set_solver. split; [done|]. apply IH; [done|]. set_solver.
Qed.

(** A chain grown by one cluster. *)
Lemma linked_snoc img img' pre c new :
  linked img (pre ++ [c]) → (∀ c', c' ∈ pre → fat_get img' c' = fat_get img c') →
  fat_get img' c = new → FAT_EOC ≤ fat_get img' new → linked img' (pre ++ [c; new]).
Proof.
  induction pre as [|a pre IH]; simpl; [done|]. intros Hl He Hc Hn.
  destruct pre as [|b pre]; simpl in *.
  - rewrite He by set_solver. naive_solver.
  - destruct Hl as (Ha & Hl). rewrite He by set_solver. split; [done|]. apply IH; try done. set_solver.
Qed.

Lemma mask_eoc : FAT_EOC ≤ FAT_MASK.
Proof. done. Qed.

(** ** Counting free clusters *)

Context (LO : layout_ok L).

Lemma in_range_seq c : in_range c ↔ c ∈ seqZ 2 (l_clusters L).
Proof. unfold Fat32Inv.in_range. rewrite elem_of_seqZ. destruct LO. lia. Qed.

Lemma free_set img img' c w :
  fat_set L img img' c w → in_range c → w ≠ 0 →
  (free img' + (if decide (fat_get img c = 0%Z) then 1 else 0) = free img)%nat.
Proof.
  intros (_ & Hf) Hc Hw. unfold free. pose proof (NoDup_seqZ 2 (l_clusters L)) as Hnd.
  assert (∀ c', c' ∈ seqZ 2 (l_clusters L) → fat_get img' c' = if decide (c' = c) then w else fat_get img c') as Hf'.
  { intros c' Hc'. apply Hf. by apply in_range_seq. }
  apply in_range_seq in Hc. apply list_elem_of_split in Hc as (l1 & l2 & E). rewrite E in *.
  apply NoDup_app in Hnd as (_ & Hd & (Hn2 & _)%NoDup_cons). assert (c ∉ l1) as Hn1 by (intros ?; apply (Hd c); set_solver).
  rewrite !filter_app, !filter_cons, !length_app.
  assert (∀ l', l' ⊆ l1 ++ c :: l2 → c ∉ l' →
    length (filter (λ c0, fat_get img' c0 = 0) l') = length (filter (λ c0, fat_get img c0 = 0) l')) as He.
  { intros l' Hl' Hn. apply filter_ext_length. intros c' Hc'. rewrite Hf' by set_solver. rewrite decide_False; [done|]. by intros ->. }
  rewrite (He l1) by set_solver. pose proof (He l2 ltac:(set_solver) Hn2).
  rewrite (Hf' c) by set_solver. rewrite (decide_True (P := c = c)) by done. repeat case_decide; simpl; try done; lia.
Qed.

Lemma free_pos img : (0 < free img)%nat → ∃ c, in_range c ∧ fat_get img c = 0.
Proof.
  unfold free. intros H. destruct (filter _ _) as [|c l] eqn:E; [simpl in H; lia|]. exists c.
  assert (c ∈ filter (λ c, fat_get img c = 0) (seqZ 2 (l_clusters L))) as Hc by (rewrite E; set_solver).
  apply list_elem_of_filter in Hc as (Hc0 & Hc). split; [by apply in_range_seq|done].
Qed.

End table.

Section chains.
Context {D : Type} `{!BlockDev D} (image : D → list Z) `{!DiskLaws image}.
Context (L : layout) (LO : layout_ok L).
Implicit Types (s : fatst D) (img : list Z) (c : Z) (l : list Z).

Abbreviation fat_get := (fat_get L).
Abbreviation in_range := (in_range L).
Abbreviation vol_ok := (vol_ok image L).
Abbreviation img_of s := (image (dev s)).
Abbreviation linked := (linked L).
Abbreviation free := (free L).

Record chained s l : Prop := mkChained {
  ch_vol : vol_ok s;
  ch_linked : linked (img_of s) l;
  ch_range : Forall in_range l;
  ch_nodup : NoDup l }.

(** ** Growing a chain *)

Lemma info_only_refl nd : geo L nd → info_only nd nd.
Proof. intros Hg. exists (fsinfo nd). split; [by destruct nd|]. split_and!; try done; apply (g_fsinfo _ _ Hg). Qed.

Lemma info_only_trans nd nd' nd'' : info_only nd nd' → info_only nd' nd'' → info_only nd nd''.
Proof. intros (fi & -> & ? & ? & ?) (fi' & -> & ? & ? & ?). exists fi'. simpl in *. split_and!; try done; try congruence; lia. Qed.

(** From chain [l] to a longer one: taken entries outside [l] stay. *)
Record grew s l s' l' : Prop := mkGrew {
  gr_ext : ∃ ext, l' = l ++ ext ∧ (free (img_of s') + length ext = free (img_of s))%nat ∧
    ∀ c, c ∈ ext → fat_get (img_of s) c = 0;
  gr_node : info_only (node s) (node s');
  gr_size : vnode_size s' = vnode_size s;
  gr_others c : in_range c → c ∉ l → fat_get (img_of s) c ≠ 0 → fat_get (img_of s') c = fat_get (img_of s) c }.

Lemma grew_refl s l : chained s l → ∀ s', same_fat image s s' → grew s l s' l.
Proof.
  intros Hc s' (Hi & Hn & Hv). split.
  - exists []. rewrite app_nil_r, Hi. split_and!; [done|simpl; lia|set_solver].
  - rewrite Hn. apply info_only_refl, Hc.
  - done.
  - by rewrite Hi.
Qed.

Lemma grew_trans s l s1 l1 s2 l2 : Forall in_range l2 → NoDup l2 → grew s l s1 l1 → grew s1 l1 s2 l2 → grew s l s2 l2.
Proof.
  intros Hr Hnd [(e1 & -> & Hf1 & Hz1) Hn1 Hv1 Ho1] [(e2 & -> & Hf2 & Hz2) Hn2 Hv2 Ho2].
  assert (∀ c, in_range c → c ∉ l → c ∉ e1 → fat_get (img_of s) c ≠ 0 → fat_get (img_of s1) c = fat_get (img_of s) c) as Ho1'.
  { intros c Hc Hl _ Hz. by apply Ho1. }
  split.
  - exists (e1 ++ e2). rewrite app_assoc, length_app. split_and!; [done|lia|]. intros c [Hc|Hc]%elem_of_app; [by apply Hz1|].
    destruct (decide (fat_get (img_of s) c = 0)) as [|Hz]; [done|]. exfalso. specialize (Hz2 c Hc).
    assert (in_range c) as Hc' by (rewrite Forall_forall in Hr; apply Hr; set_solver).
    assert (c ∉ l) as Hcl. { apply NoDup_app in Hnd as (_ & Hd & _). intros Hcl. apply (Hd c); set_solver. }
    rewrite (Ho1 c Hc' Hcl Hz) in Hz2. done.
  - by eapply info_only_trans.
  - congruence.
  - intros c Hc Hl Hz. destruct (decide (c ∈ e1)) as [He|He]; [by apply Hz1 in He|].
    rewrite Ho2, Ho1; try done; [set_solver|]. by rewrite Ho1.
Qed.

Lemma set_vol s s' c w : vol_ok s → fat_set L (img_of s) (img_of s') c w → info_only (node s) (node s') → vol_ok s'.
Proof.
  intros (Hg & Hd) ((Hl & _) & _) Hi. split; [by eapply info_only_geo|]. by rewrite Hl.
Qed.

Lemma snoc_grown s s1 s2 pre c new :
  chained s (pre ++ [c]) → took image L s s1 new → fat_set L (img_of s1) (img_of s2) c new → node s2 = node s1 →
  vnode_size s2 = vnode_size s1 →
  chained s2 (pre ++ [c; new]) ∧ grew s (pre ++ [c]) s2 (pre ++ [c; new]) ∧ data_same L (img_of s) (img_of s2).
Proof.
  intros [Hv Hl Hr Hnd] (Hnew & Hz & Hs1 & Hi1 & Hv1) Hs2 Hn2 Hv2.
  assert (new ∉ pre ++ [c]) as Hni by (intros Hin; by apply (linked_taken L _ _ _ Hl Hr) in Hin).
  assert (in_range c) as Hc by (apply Forall_app in Hr as (_ & (? & _)%Forall_cons); done).
  pose proof (set_vol s s1 new FAT_MASK Hv Hs1 Hi1) as V1.
  assert (vol_ok s2) as V2.
  { eapply (set_vol s1 s2 c new V1 Hs2). rewrite Hn2. apply info_only_refl, V1. }
  assert (∀ c', in_range c' → fat_get (img_of s2) c' = if decide (c' = c) then new else if decide (c' = new) then FAT_MASK else fat_get (img_of s) c') as He.
  { intros c' Hc'. rewrite (proj2 Hs2 c' Hc'). case_decide; [done|]. apply (proj2 Hs1 c' Hc'). }
  assert (c ≠ new) as Hne by (intros ->; apply Hni; set_solver). split_and!.
  - split; [done| | |].
    + eapply linked_snoc; [exact Hl| | |].
      * intros c' Hc'. assert (in_range c') as Hr' by (rewrite Forall_forall in Hr; apply Hr; set_solver).
        rewrite He by done. rewrite !decide_False; [done| |]; [intros ->; apply Hni; set_solver|].
        intros ->. apply NoDup_app in Hnd as (_ & Hd & _). apply (Hd c); set_solver.
      * rewrite He by done. by rewrite decide_True.
      * rewrite He by done. rewrite decide_False, decide_True by done. done.
    + rewrite Forall_app, !Forall_cons in *. naive_solver.
    + change [c; new] with ([c] ++ [new]). rewrite app_assoc. apply NoDup_app. split_and!; [done| |apply NoDup_singleton]. set_solver.
  - split.
    + exists [new]. rewrite <- app_assoc. split_and!; [done| |set_solver].
      assert (new ≠ 0) as Hn0 by (unfold Fat32Inv.in_range in Hnew; lia).
      pose proof (free_set L LO _ _ _ _ Hs1 Hnew ltac:(done)) as F1. rewrite decide_True in F1 by done.
      pose proof (free_set L LO _ _ _ _ Hs2 Hc Hn0) as F2. rewrite decide_False in F2; [simpl; lia|].
      rewrite (proj2 Hs1 c Hc), decide_False by done. apply (linked_taken L _ _ _ Hl Hr). set_solver.
    + by rewrite Hn2.
    + congruence.
    + intros c' Hc' Hcl Hz'. rewrite He by done. rewrite !decide_False; [done| |]; intros ->; [done|]. apply Hcl. set_solver.
  - eapply data_same_trans; [apply Hs1|apply Hs2].
Qed.
End chains.
