(* ===== verification/Fat32Ops.v ===== *)
(** * The loops of reading and writing

    Following and growing a chain to an offset, and moving bytes between a
    buffer and the clusters of a chain. *)

From S2P Require Import Prelude CMem Bytes StateM Fat32 Fat32Inv Fat32File.

Open Scope sm_scope.

Section loops.
Context {D : Type} `{!BlockDev D} (image : D → list Z) `{!DiskLaws image}.
Context (mem : Z → bool) (has_memory : ∀ n, mem n = true).
Context (L : layout) (LO : layout_ok L).
Implicit Types (s : fatst D) (img : list Z) (c : Z) (l : list Z).

Abbreviation fat_get := (fat_get L).
Abbreviation in_range := (in_range L).
Abbreviation cl_bytes := (cl_bytes L).
Abbreviation vol_ok := (vol_ok image L).
Abbreviation img_of s := (image (dev s)).
Abbreviation chained := (chained image L).
Abbreviation grew := (grew image L).
Abbreviation bpc := (bpc L).
Abbreviation free := (free L).
Abbreviation bytes_of := (bytes_of L).

Lemma bpc_bounds : 512 ≤ bpc < 2 ^ 32.
Proof. destruct LO. unfold Fat32Inv.bpc. lia. Qed.

Lemma next_or_new_spec s l pre c post (Q : Z → fatst D → Prop) :
  chained s l → l = pre ++ c :: post → (post = [] → (0 < free (img_of s))%nat) →
  (∀ r s' l' post', chained s' l' → grew s l s' l' → data_same L (img_of s) (img_of s') → r ≠ 0 →
    l' = (pre ++ [c]) ++ r :: post' → Q r s') →
  swp (next_or_new mem c) s Q.
Proof.
  intros Hch -> Hfree HQ. pose proof Hch as [Hv Hl Hr Hnd].
  assert (in_range c) as Hc by (apply Forall_app in Hr as (_ & (? & _)%Forall_cons); done).
  unfold next_or_new. apply swp_bind. apply (get_next_spec image mem has_memory L LO); [done|done|]. intros s1 Hs1.
  destruct post as [|c' post].
  - pose proof (linked_last L _ _ _ Hl) as He. rewrite (proj2 (Z.leb_le _ _) He). cbn [orb]. apply swp_bind.
    pose proof (same_vol image L _ _ Hs1 Hv) as V1.
    apply (allocate_spec image mem has_memory L LO); [done| |].
    + intros new s2 Htook. apply (took_same image L s s1) in Htook; [|done]. pose proof Htook as (Hnew & Hz & Hset & Hinfo & _).
      assert (new ≠ 0) as Hn0 by (unfold Fat32Inv.in_range in Hnew; lia). rewrite (proj2 (Z.eqb_neq _ _) Hn0). apply swp_bind.
      apply (set_next_spec image mem has_memory L LO); [by apply (set_vol image L s s2 new FAT_MASK)|done| |].
      { destruct LO. unfold FAT_EOC, Fat32Inv.in_range in *. lia. }
      intros s3 Hn3 Hv3 Hset3. apply swp_ret.
      destruct (snoc_grown image L LO s s2 s3 pre c new Hch Htook Hset3 Hn3 Hv3) as (Hch' & Hgr & Hd).
      eapply (HQ new s3 _ []); try done. by rewrite <- app_assoc.
    + intros s2 _ Hall. exfalso. destruct (free_pos L LO (img_of s) (Hfree eq_refl)) as (c0 & Hc0 & Hz).
      destruct Hs1 as (Hi1 & _). apply (Hall c0 Hc0). by rewrite Hi1.
  - rewrite (linked_next L _ _ _ _ _ Hl).
    assert (in_range c') as Hc' by (apply Forall_app in Hr as (_ & (_ & (? & _)%Forall_cons)%Forall_cons); done).
    rewrite (proj2 (Z.leb_gt FAT_EOC c')), (proj2 (Z.eqb_neq c' 0)) by (destruct LO; unfold Fat32Inv.in_range in Hc'; lia).
    apply swp_ret. eapply (HQ c' s1 (pre ++ c :: c' :: post) post); [| | |unfold Fat32Inv.in_range in Hc'; lia|by rewrite <- app_assoc].
    + split; [by eapply same_vol|by rewrite (proj1 Hs1)|done|done].
    + by apply grew_refl.
    + rewrite (proj1 Hs1). apply data_same_refl.
Qed.

Lemma grew_free s l s' l' : grew s l s' l' → (length l' + free (img_of s') = length l + free (img_of s))%nat.
Proof. intros [(ext & -> & Hf & _) _ _ _]. rewrite length_app. lia. Qed.

Lemma data_same_bytes img img' l : data_same L img img' → Forall in_range l → bytes_of img' l = bytes_of img l.
Proof.
  intros Hd Hr. unfold Fat32File.bytes_of. induction Hr as [|c l Hc Hr IH]; [done|]. csimpl. by rewrite IH, (data_same_cluster L LO img img' c).
Qed.

(** Walking to the cluster of [offset]. *)
Lemma write_walk_spec n : ∀ s l pre c post offset (Q : Z * Z → fatst D → Prop),
  chained s l → l = pre ++ c :: post → zlen pre * bpc ≤ offset < 2 ^ 32 →
  offset < (zlen pre + Z.of_nat n) * bpc → offset < (zlen l + Z.of_nat (free (img_of s))) * bpc →
  (∀ s' l' pre' c' post', chained s' l' → grew s l s' l' → data_same L (img_of s) (img_of s') → l' = pre' ++ c' :: post' →
    zlen pre' * bpc ≤ offset < (zlen pre' + 1) * bpc → Q (c', zlen pre' * bpc) s') →
  swp (write_walk mem n offset c (zlen pre * bpc) bpc) s Q.
Proof.
  pose proof bpc_bounds as Hbpc.
  induction n as [|n IH]; intros s l pre c post offset Q Hch -> Hoff Hn Hcap HQ; [nia|]. cbn [write_walk].
  replace (u64 (zlen pre * bpc + bpc)) with ((zlen pre + 1) * bpc) by (unfold u64; rewrite Z.mod_small; lia).
  destruct (Z.leb_spec ((zlen pre + 1) * bpc) offset) as [Hle|Hgt].
  - apply swp_bind. eapply (next_or_new_spec s _ pre c post); [done|done| |].
    { intros ->. rewrite length_app in Hcap. simpl in Hcap. nia. }
    intros r s1 l1 post1 Hch1 Hgr1 Hd1 Hr0 Hl1. rewrite (proj2 (Z.eqb_neq _ _) Hr0).
    replace ((zlen pre + 1) * bpc) with (zlen (pre ++ [c]) * bpc) by (rewrite length_app; simpl; lia).
    pose proof (grew_free _ _ _ _ Hgr1).
    apply (IH s1 l1 (pre ++ [c]) r post1 offset); [done|done|rewrite length_app; simpl; lia|rewrite length_app; simpl; lia| |].
    { replace (zlen l1 + Z.of_nat (free (img_of s1))) with (zlen (pre ++ c :: post) + Z.of_nat (free (img_of s))) by lia. done. }
    intros s2 l2 pre2 c2 post2 Hch2 Hgr2 Hd2 Hl2 Hb2. eapply HQ; [exact Hch2| | |exact Hl2|done].
    + destruct Hch2. by eapply grew_trans.
    + by eapply data_same_trans.
  - apply swp_ret. eapply HQ; [done|by apply grew_refl|apply data_same_refl|done|lia].
Qed.

(** ** Clusters on the disk *)

Lemma cluster_sector s c :
  vol_ok s → in_range c → fat32_cluster_to_sector (node s) c = l_data L + (c - 2) * l_spc L ∧
  (l_data L + (c - 2) * l_spc L) * 512 + bpc ≤ zlen (img_of s) ∧ 0 ≤ l_data L + (c - 2) * l_spc L ∧
  (l_data L + (c - 2) * l_spc L) * 512 = Z.of_nat (data_off L c).
Proof.
  intros Hv Hc. destruct (disk_fits image L LO s Hv) as (Hd & _). destruct Hv as (Hg & _). pose proof LO as LO'. destruct LO'.
  unfold fat32_cluster_to_sector. rewrite (g_data _ _ Hg), (g_spc _ _ Hg).
  unfold Fat32Inv.in_range, disk_size, Fat32Inv.bpc, data_off in *.
  assert (0 ≤ (c - 2) * l_spc L) by nia. assert ((c - 2 + 1) * l_spc L ≤ l_clusters L * l_spc L) by nia.
  assert (0 ≤ l_fats L * l_fsz L) by nia. unfold FAT_EOC in *.
  rewrite (u32_small (c - 2)), (u32_small ((c - 2) * _)), u32_small by lia. split_and!; lia.
Qed.

Lemma length_cl_bytes s c : vol_ok s → in_range c → length (cl_bytes (img_of s) c) = Z.to_nat bpc.
Proof. intros Hv Hc. destruct (cluster_sector s c Hv Hc) as (_ & H1 & _ & H2). apply length_sub. pose proof bpc_bounds. lia. Qed.

Lemma length_bytes_of s l : vol_ok s → Forall in_range l → zlen (bytes_of (img_of s) l) = zlen l * bpc.
Proof.
  intros Hv Hr. unfold Fat32File.bytes_of. pose proof bpc_bounds. induction Hr as [|c l Hc Hr IH]; [done|]. csimpl.
  rewrite length_app, length_cl_bytes by done. lia.
Qed.

(** Clusters do not overlap. *)
Lemma clusters_apart c c' :
  in_range c → in_range c' → c ≠ c' → (data_off L c + Z.to_nat bpc ≤ data_off L c' ∨ data_off L c' + Z.to_nat bpc ≤ data_off L c)%nat.
Proof.
  unfold Fat32Inv.in_range, data_off, Fat32Inv.bpc. intros Hc Hc' Hne. destruct LO. assert (0 ≤ l_fats L * l_fsz L) by nia.
  destruct (decide (c < c')) as [Hlt|Hlt]; [left|right].
  - assert ((c - 2 + 1) * l_spc L ≤ (c' - 2) * l_spc L) by nia. assert (0 ≤ (c - 2) * l_spc L) by nia. lia.
  - assert ((c' - 2 + 1) * l_spc L ≤ (c - 2) * l_spc L) by nia. assert (0 ≤ (c' - 2) * l_spc L) by nia. lia.
Qed.

(** The disk after storing [ch] at [boff] of cluster [c]. *)
Definition stored img img' c (boff : Z) (ch : list Z) : Prop := img' = splice (data_off L c + Z.to_nat boff) ch img.

Lemma stored_facts s img' c boff ch :
  vol_ok s → in_range c → 0 ≤ boff → boff + zlen ch ≤ bpc → stored (img_of s) img' c boff ch →
  length img' = length (img_of s) ∧ (∀ c', in_range c' → fat_get img' c' = fat_get (img_of s) c') ∧
  (∀ c', in_range c' → cl_bytes img' c' = if decide (c' = c) then splice (Z.to_nat boff) ch (cl_bytes (img_of s) c) else cl_bytes (img_of s) c').
Proof.
  intros Hv Hc Hb Hfit Hst. unfold stored in Hst. subst img'. destruct (cluster_sector s c Hv Hc) as (_ & Hd1 & Hd0 & Hd2). pose proof bpc_bounds as Hbpc.
  assert (data_off L c + Z.to_nat boff + length ch ≤ length (img_of s))%nat as Hin by lia. split_and!.
  - by apply length_splice_in.
  - intros c' Hc'. unfold Fat32Inv.fat_get. rewrite sub_splice_other; [done|done|]. left.
    pose proof (entry_range L LO c' Hc'). assert (Z.to_nat ((l_fat L + l_fsz L) * 512) ≤ data_off L c)%nat; [|lia].
    pose proof LO as LO'. destruct LO'. unfold Fat32Inv.in_range in Hc. assert (0 ≤ (c - 2) * l_spc L) by nia. assert (l_fsz L ≤ l_fats L * l_fsz L) by nia. lia.
  - intros c' Hc'. case_decide as Hcc.
    + subst c'. unfold Fat32Inv.cl_bytes. apply list_eq. intros k. rewrite lookup_sub.
      rewrite !lookup_splice_in by (rewrite ?length_sub; lia). rewrite lookup_sub. repeat case_decide; try lia; try done. f_equal. lia.
    + unfold Fat32Inv.cl_bytes. apply sub_splice_other; [done|]. destruct (clusters_apart c c' Hc Hc'); [done|lia|lia].
Qed.

Lemma stored_bytes s img' pre c post boff ch :
  vol_ok s → Forall in_range (pre ++ c :: post) → NoDup (pre ++ c :: post) → 0 ≤ boff → boff + zlen ch ≤ bpc →
  stored (img_of s) img' c boff ch →
  bytes_of img' (pre ++ c :: post) = splice (Z.to_nat (zlen pre * bpc + boff)) ch (bytes_of (img_of s) (pre ++ c :: post)).
Proof.
  intros Hv Hr Hnd Hb Hfit Hst. pose proof bpc_bounds as Hbpc.
  assert (in_range c) as Hc by (apply Forall_app in Hr as (_ & (? & _)%Forall_cons); done).
  destruct (stored_facts s img' c boff ch Hv Hc Hb Hfit Hst) as (_ & _ & Hcl).
  assert (∀ l, l ⊆ pre ++ c :: post → c ∉ l → cl_bytes img' <$> l = cl_bytes (img_of s) <$> l) as Hother.
  { intros l Hsub Hcl'. apply list_fmap_ext. intros i c' Hi. apply list_elem_of_lookup_2 in Hi.
    rewrite Hcl by (rewrite Forall_forall in Hr; apply Hr; set_solver). rewrite decide_False; [done|]. by intros ->. }
  apply NoDup_app in Hnd as (_ & Hd & (Hn2 & _)%NoDup_cons).
  unfold Fat32File.bytes_of. rewrite !fmap_app, !fmap_cons, !concat_app. simpl.
  rewrite (Hother pre) by (set_solver). rewrite (Hother post) by set_solver. rewrite Hcl, decide_True by done.
  pose proof (length_bytes_of s pre Hv ltac:(apply Forall_app in Hr; naive_solver)) as Hlp. unfold Fat32File.bytes_of in Hlp.
  replace (Z.to_nat (zlen pre * bpc + boff)) with (length (concat (cl_bytes (img_of s) <$> pre)) + Z.to_nat boff)%nat by lia.
  rewrite splice_mid; [done|]. rewrite length_cl_bytes by done. lia.
Qed.

(** ** Writing *)

(** The buffer the loop stores into: the cluster, or all of it new. *)
Lemma fill_spec s c k (Q : option (list Z) → fatst D → Prop) :
  vol_ok s → in_range c → 0 < k ≤ bpc →
  (∀ s' temp, same_fat image s s' → zlen temp = bpc → (k < bpc → temp = cl_bytes (img_of s) c) → Q (Some temp) s') →
  swp (if k <? bpc then dev_read (fat32_cluster_to_sector (node s) c) bpc else mret (Some (replicate (Z.to_nat bpc) 0))) s Q.
Proof.
  intros Hv Hc Hk HQ. destruct (cluster_sector s c Hv Hc) as (-> & Hd1 & Hd0 & Hd2). pose proof bpc_bounds as Hbpc.
  destruct (Z.ltb_spec k bpc) as [Hlt|Hge].
  - apply (dev_read_spec image); [lia|lia|lia|]. intros s' Hs. rewrite Hd2, Nat2Z.id. apply HQ; [done| |done].
    rewrite length_sub by lia. lia.
  - apply swp_ret, HQ; [done|rewrite length_replicate; lia|lia].
Qed.

Lemma store_spec s c boff ch temp (Q : bool → fatst D → Prop) :
  vol_ok s → in_range c → 0 ≤ boff → ch ≠ [] → boff + zlen ch ≤ bpc → zlen temp = bpc →
  (zlen ch < bpc → temp = cl_bytes (img_of s) c) →
  (∀ s', stored (img_of s) (img_of s') c boff ch → node s' = node s → vnode_size s' = vnode_size s → Q true s') →
  swp (dev_write (fat32_cluster_to_sector (node s) c) (splice (Z.to_nat boff) ch temp)) s Q.
Proof.
  intros Hv Hc Hb Hne Hfit Hlen Htemp HQ. destruct (cluster_sector s c Hv Hc) as (-> & Hd1 & Hd0 & Hd2). pose proof bpc_bounds as Hbpc.
  assert (zlen (splice (Z.to_nat boff) ch temp) = bpc) as Hl by (rewrite length_splice_in; lia).
  apply (dev_write_spec image); [lia|intros E; rewrite E in Hl; simpl in Hl; lia| |lia|].
  { rewrite Hl. unfold Fat32Inv.bpc. by rewrite Z.mod_mul. }
  intros s' Hi Hn Hvs. apply HQ; [|done|done]. unfold stored. rewrite Hi, Hd2, Nat2Z.id.
  destruct (decide (zlen ch < bpc)) as [Hlt|Hge].
  - rewrite Htemp by done. unfold Fat32Inv.cl_bytes. apply splice_sub; lia.
  - assert (boff = 0) as -> by lia. rewrite splice_full by lia. by rewrite Nat.add_0_r.
Qed.

(** The chain and the table do not notice stored bytes. *)
Lemma stored_chained s s' l c boff ch :
  chained s l → in_range c → 0 ≤ boff → boff + zlen ch ≤ bpc → stored (img_of s) (img_of s') c boff ch →
  node s' = node s → vnode_size s' = vnode_size s → chained s' l ∧ grew s l s' l.
Proof.
  intros [Hv Hl Hr Hnd] Hc Hb Hfit Hst Hn Hvs. destruct (stored_facts s _ c boff ch Hv Hc Hb Hfit Hst) as (Hlen & Hfat & _).
  split; [split; try done|split].
  - split; [rewrite Hn; apply Hv|]. rewrite Hlen. apply Hv.
  - eapply chain_ext; [exact Hl|]. intros c' Hc'. apply Hfat. rewrite Forall_forall in Hr. by apply Hr.
  - exists []. rewrite app_nil_r. split_and!; [done| |set_solver]. simpl. rewrite Nat.add_0_r. unfold Fat32File.free.
    apply filter_ext_length. intros c' Hc'. rewrite Hfat; [done|]. by apply (in_range_seq L LO).
  - rewrite Hn. apply (info_only_refl L), Hv.
  - done.
  - intros c' Hc' _ _. by apply Hfat.
Qed.

(** What a completed write of [bs] at [p] of the chain [l] leaves. *)
Definition wrote_chain s l (p : Z) (bs : list Z) s' l' : Prop :=
  chained s' l' ∧ grew s l s' l' ∧ bytes_of (img_of s') l' = splice (Z.to_nat p) bs (bytes_of (img_of s) l') ∧
  ∀ c, in_range c → c ∉ l' → cl_bytes (img_of s') c = cl_bytes (img_of s) c.

Lemma grew_prefix s l s' l' : grew s l s' l' → ∃ ext, l' = l ++ ext.
Proof. intros [(ext & -> & _) _ _ _]. by exists ext. Qed.

Lemma write_loop_spec n : ∀ s l pre c post boff bs (Q : Z → fatst D → Prop),
  (length bs < n)%nat → chained s l → l = pre ++ c :: post → 0 ≤ boff < bpc → zlen bs < 2 ^ 32 →
  zlen pre * bpc + boff + zlen bs ≤ (zlen l + Z.of_nat (free (img_of s))) * bpc →
  (∀ s' l', wrote_chain s l (zlen pre * bpc + boff) bs s' l' → Q 0 s') →
  swp (write_loop mem n c boff bs bpc) s Q.
Proof.
  pose proof bpc_bounds as Hbpc.
  induction n as [|n IH]; intros s l pre c post boff bs Q Hn Hch -> Hboff Hlen Hcap HQ; [lia|]. cbn [write_loop].
  pose proof Hch as [Hv Hl Hr Hnd].
  assert (in_range c) as Hc by (apply Forall_app in Hr as (_ & (? & _)%Forall_cons); done).
  rewrite (proj2 (Z.ltb_lt c FAT_EOC)), andb_true_r by (destruct LO; unfold Fat32Inv.in_range in Hc; lia).
  destruct (Z.ltb_spec 0 (zlen bs)) as [Hpos|Hz].
  2: { assert (bs = []) as -> by (destruct bs; simpl in *; [done|lia]). apply swp_ret, (HQ s (pre ++ c :: post)).
       split_and!; [done|by apply grew_refl|done|done]. }
  apply swp_bind, get_node_spec. replace (u64 (bpc - boff)) with (bpc - boff) by (unfold u64; rewrite Z.mod_small; lia).
  set (k := if zlen bs <? bpc - boff then zlen bs else bpc - boff).
  assert (0 < k ≤ zlen bs ∧ boff + k ≤ bpc ∧ (k < zlen bs → k = bpc - boff)) as (Hk & Hkb & Hkk).
  { unfold k. destruct (Z.ltb_spec (zlen bs) (bpc - boff)); lia. }
  clearbody k. apply swp_bind, fill_spec; [done|done|lia|]. intros s1 temp Hs1 Htl Htemp.
  pose proof (same_vol image L _ _ Hs1 Hv) as V1. destruct Hs1 as (Hi1 & Hn1 & Hv1).
  rewrite (proj2 (Z.ltb_ge (zlen temp) (boff + k))) by lia. set (ch := take (Z.to_nat k) bs).
  assert (zlen ch = k) as Hch' by (unfold ch; rewrite length_take; lia). rewrite <- Hn1. apply swp_bind.
  apply store_spec; [done|done|lia|intros E; rewrite E in Hch'; simpl in Hch'; lia|lia|done|by rewrite Hch', Hi1|].
  intros s2 Hst Hn2 Hv2. cbn [negb]. unfold stored in Hst. rewrite Hi1 in Hst. rewrite Hn1 in Hn2. rewrite Hv1 in Hv2.
  destruct (stored_chained s s2 _ c boff ch Hch Hc ltac:(lia) ltac:(lia) Hst Hn2 Hv2) as (Hch2 & Hgr2).
  destruct (stored_facts s _ c boff ch Hv Hc ltac:(lia) ltac:(lia) Hst) as (_ & _ & Hcl2).
  set (rest := drop (Z.to_nat k) bs). assert (zlen rest = zlen bs - k) as Hrest by (unfold rest; rewrite length_drop; lia).
  assert (bs = ch ++ rest) as Ebs by (symmetry; apply take_drop).
  pose proof (grew_free _ _ _ _ Hgr2) as Hfree2.
  destruct (Z.ltb_spec 0 (zlen rest)) as [Hmore|Hdone].
  - assert (k = bpc - boff) as Ek by lia. apply swp_bind. eapply (next_or_new_spec s2 _ pre c post); [done|done| |].
    { intros ->. rewrite length_app in Hcap, Hfree2. simpl in Hcap, Hfree2. nia. }
    intros r s3 l3 post3 Hch3 Hgr3 Hd3 Hr0 Hl3. rewrite (proj2 (Z.eqb_neq _ _) Hr0). pose proof (grew_free _ _ _ _ Hgr3) as Hfree3.
    assert (zlen (pre ++ [c]) * bpc + 0 = zlen pre * bpc + boff + k) as Epos by (rewrite length_app; simpl; lia).
    apply (IH s3 l3 (pre ++ [c]) r post3 0 rest); [lia|done|done|lia|lia| |].
    { rewrite Epos. replace (zlen l3 + Z.of_nat (free (img_of s3))) with (zlen (pre ++ c :: post) + Z.of_nat (free (img_of s))) by lia. lia. }
    intros s4 l4 (Hch4 & Hgr4 & Hb4 & Ho4). rewrite Epos in Hb4. apply (HQ s4 l4).
    destruct (grew_prefix _ _ _ _ Hgr4) as (e4 & E4). pose proof Hch4 as [_ _ Hr4 Hnd4].
    assert (l4 = pre ++ c :: (r :: post3) ++ e4) as El4 by (rewrite E4, Hl3, <- !app_assoc; done).
    split_and!.
    + done.
    + eapply (grew_trans image L LO s _ s3 l3); [exact Hr4|exact Hnd4| |exact Hgr4]. destruct Hch3. by eapply grew_trans.
    + rewrite Hb4. assert (bytes_of (img_of s3) l4 = bytes_of (img_of s2) l4) as -> by (by apply data_same_bytes).
      rewrite El4 in Hr4, Hnd4 |- *. rewrite (stored_bytes s _ pre c _ boff ch Hv Hr4 Hnd4 ltac:(lia) ltac:(lia) Hst).
      rewrite Ebs, splice_app. f_equal. rewrite <- Hch'. nia.
    + intros c' Hc' Hni. rewrite Ho4 by done. rewrite (data_same_cluster L LO _ _ c' Hd3 Hc').
      rewrite Hcl2 by done. rewrite decide_False; [done|]. intros ->. apply Hni. rewrite El4. set_solver.
  - assert (rest = []) as Er by (destruct rest; simpl in *; [done|lia]). rewrite Er.
    apply (IH s2 (pre ++ c :: post) pre c post 0 []); [simpl; lia|done|done|lia|simpl; lia|simpl; nia|].
    intros s4 l4 (Hch4 & Hgr4 & Hb4 & Ho4). apply (HQ s4 l4). destruct (grew_prefix _ _ _ _ Hgr4) as (e4 & E4).
    pose proof Hch4 as [_ _ Hr4 Hnd4]. assert (l4 = pre ++ c :: post ++ e4) as El4 by (rewrite E4, <- app_assoc; done). split_and!.
    + done.
    + by eapply (grew_trans image L LO s _ s2 _).
    + rewrite Hb4. simpl. rewrite El4 in Hr4, Hnd4 |- *. rewrite (stored_bytes s _ pre c _ boff ch Hv Hr4 Hnd4 ltac:(lia) ltac:(lia) Hst).
      by rewrite Ebs, Er, app_nil_r.
    + intros c' Hc' Hni. rewrite Ho4 by done. rewrite Hcl2 by done. rewrite decide_False; [done|]. intros ->. apply Hni. rewrite El4. set_solver.
Qed.

(** ** Reading *)

Lemma read_walk_spec n : ∀ s l pre c post offset (Q : option (Z * Z) → fatst D → Prop),
  chained s l → l = pre ++ c :: post → zlen pre * bpc ≤ offset < 2 ^ 32 →
  offset < (zlen pre + Z.of_nat n) * bpc → offset < zlen l * bpc →
  (∀ s' pre' c' post', same_fat image s s' → l = pre' ++ c' :: post' →
    zlen pre' * bpc ≤ offset < (zlen pre' + 1) * bpc → Q (Some (c', zlen pre' * bpc)) s') →
  swp (read_walk mem n offset c (zlen pre * bpc) bpc) s Q.
Proof.
  pose proof bpc_bounds as Hbpc.
  induction n as [|n IH]; intros s l pre c post offset Q Hch -> Hoff Hn Hlen HQ; [nia|]. cbn [read_walk].
  pose proof Hch as [Hv Hl Hr Hnd]. rewrite Forall_app, Forall_cons in Hr. destruct Hr as (Hr1 & Hc & Hr2).
  replace (u64 (zlen pre * bpc + bpc)) with ((zlen pre + 1) * bpc) by (unfold u64; rewrite Z.mod_small; lia).
  destruct (Z.leb_spec ((zlen pre + 1) * bpc) offset) as [Hle|Hgt].
  - apply swp_bind. apply (get_next_spec image mem has_memory L LO); [done|done|]. intros s1 Hs1.
    destruct post as [|c' post]; [rewrite length_app in Hlen; simpl in Hlen; nia|].
    rewrite (linked_next L _ _ _ _ _ Hl). apply Forall_cons in Hr2 as (Hc' & Hr2).
    rewrite (proj2 (Z.leb_gt FAT_EOC c')) by (destruct LO; unfold Fat32Inv.in_range in Hc'; lia).
    replace ((zlen pre + 1) * bpc) with (zlen (pre ++ [c]) * bpc) by (rewrite length_app; simpl; lia).
    apply (IH s1 (pre ++ c :: c' :: post) (pre ++ [c]) c' post); try done.
    + split; [by eapply same_vol|by rewrite (proj1 Hs1)|by rewrite Forall_app, !Forall_cons|done].
    + by rewrite <- app_assoc.
    + rewrite length_app. simpl. lia.
    + rewrite length_app. simpl. lia.
    + intros s2 pre' c2 post' Hs2 Hl' Hb. eapply HQ; [by apply (same_fat_trans image s s1)|exact Hl'|done].
  - apply swp_ret. eapply HQ; [done|done|lia].
Qed.

Lemma sub_cluster s pre c post boff k :
  vol_ok s → Forall in_range (pre ++ c :: post) → 0 ≤ boff → 0 ≤ k → boff + k ≤ bpc →
  sub (Z.to_nat boff) (Z.to_nat k) (cl_bytes (img_of s) c) =
  sub (Z.to_nat (zlen pre * bpc + boff)) (Z.to_nat k) (bytes_of (img_of s) (pre ++ c :: post)).
Proof.
  intros Hv Hr Hb Hk Hfit. rewrite Forall_app, Forall_cons in Hr. destruct Hr as (Hr1 & Hc & Hr2). pose proof bpc_bounds.
  pose proof (length_bytes_of s pre Hv Hr1) as Hlp. unfold Fat32File.bytes_of in *. rewrite fmap_app, fmap_cons, concat_app. simpl.
  rewrite sub_app_r by lia. rewrite sub_app_l by (rewrite length_cl_bytes by done; lia). f_equal. lia.
Qed.

Lemma read_loop_spec n : ∀ s l pre c post boff left acc (Q : list Z * Z → fatst D → Prop),
  left < Z.of_nat n → chained s l → l = pre ++ c :: post → 0 ≤ boff < bpc → 0 ≤ left < 2 ^ 32 →
  zlen pre * bpc + boff + left ≤ zlen l * bpc →
  (∀ s', same_fat image s s' →
    Q (acc ++ sub (Z.to_nat (zlen pre * bpc + boff)) (Z.to_nat left) (bytes_of (img_of s) l), 0) s') →
  swp (read_loop mem n c boff left bpc acc) s Q.
Proof.
  pose proof bpc_bounds as Hbpc.
  induction n as [|n IH]; intros s l pre c post boff left acc Q Hn Hch -> Hboff Hleft Hcap HQ; [lia|]. cbn [read_loop].
  pose proof Hch as [Hv Hl Hr Hnd]. pose proof Hr as Hr'. rewrite Forall_app, Forall_cons in Hr'. destruct Hr' as (Hr1 & Hc & Hr2).
  rewrite (proj2 (Z.ltb_lt c FAT_EOC)), andb_true_r by (destruct LO; unfold Fat32Inv.in_range in Hc; lia).
  destruct (Z.ltb_spec 0 left) as [Hpos|Hz].
  2: { assert (left = 0) as -> by lia. apply swp_ret. specialize (HQ s ltac:(done)). by rewrite app_nil_r in HQ. }
  apply swp_bind, get_node_spec, swp_bind. destruct (cluster_sector s c Hv Hc) as (-> & Hd1 & Hd0 & Hd2).
  apply (dev_read_spec image); [lia|lia|lia|]. intros s1 Hs1. rewrite Hd2, Nat2Z.id. fold (cl_bytes (img_of s) c).
  replace (u64 (bpc - boff)) with (bpc - boff) by (unfold u64; rewrite Z.mod_small; lia).
  set (k := if left <? bpc - boff then left else bpc - boff).
  assert (0 < k ≤ left ∧ boff + k ≤ bpc ∧ (k < left → k = bpc - boff)) as (Hk & Hkb & Hkk).
  { unfold k. destruct (Z.ltb_spec left (bpc - boff)); lia. }
  clearbody k. rewrite length_cl_bytes by done. rewrite (proj2 (Z.ltb_ge _ _)) by lia.
  rewrite (sub_cluster s pre c post boff k) by (done || lia). set (p := zlen pre * bpc + boff) in *.
  replace (u64 (left - k)) with (left - k) by (unfold u64; rewrite Z.mod_small; lia).
  assert (chained s1 (pre ++ c :: post)) as Hch1 by (split; [by eapply same_vol|by rewrite (proj1 Hs1)|done|done]).
  assert (∀ s', same_fat image s1 s' → Q ((acc ++ sub (Z.to_nat p) (Z.to_nat k) (bytes_of (img_of s) (pre ++ c :: post))) ++
     sub (Z.to_nat (p + k)) (Z.to_nat (left - k)) (bytes_of (img_of s1) (pre ++ c :: post)), 0) s') as HQ'.
  { intros s' Hs'. rewrite (proj1 Hs1), <- app_assoc. replace (Z.to_nat (p + k)) with (Z.to_nat p + Z.to_nat k)%nat by lia.
    rewrite <- sub_cut. replace (Z.to_nat k + Z.to_nat (left - k))%nat with (Z.to_nat left) by lia.
    apply HQ. by apply (same_fat_trans image s s1). }
  destruct (Z.ltb_spec 0 (left - k)) as [Hmore|Hdone].
  - destruct post as [|c' post]; [rewrite length_app in Hcap; simpl in Hcap; nia|]. apply swp_bind.
    apply (get_next_spec image mem has_memory L LO); [by eapply same_vol|done|]. intros s2 Hs2.
    rewrite (proj1 Hs1), (linked_next L _ _ _ _ _ Hl).
    assert (zlen (pre ++ [c]) * bpc + 0 = p + k) as Ep by (unfold p; rewrite length_app; simpl; lia).
    apply (IH s2 (pre ++ c :: c' :: post) (pre ++ [c]) c' post); [lia| |by rewrite <- app_assoc|lia|lia|lia|].
    + destruct Hch1. split; [by eapply same_vol|by rewrite (proj1 Hs2)|done|done].
    + rewrite Ep, (proj1 Hs2). intros s' Hs'. apply HQ'. by apply (same_fat_trans image s1 s2).
  - apply (IH s1 (pre ++ c :: post) pre c post); [lia|done|done|lia|lia|nia|].
    intros s' Hs'. specialize (HQ' s' Hs'). replace (left - k) with 0 in * by lia. done.
Qed.
End loops.
