(* ===== verification/Fat32Free.v ===== *)
(** * Giving up a chain of clusters

    [fat32_free_cluster_chain] clears the entries of a chain through a window
    of one sector of the table, written back when the chain leaves it. The
    window over the disk is the table the loop works on. *)

From S2P Require Import Prelude CMem Bytes StateM Fat32 Fat32Inv Fat32File.

Open Scope sm_scope.

Section free_chain.
Context {D : Type} `{!BlockDev D} (image : D → list Z) `{!DiskLaws image}.
Context (mem : Z → bool) (has_memory : ∀ n, mem n = true).
Context (L : layout) (LO : layout_ok L).
Implicit Types (s : fatst D) (img : list Z) (c : Z) (l : list Z) (w : fat_window).

Abbreviation fat_get := (fat_get L).
Abbreviation in_range := (in_range L).
Abbreviation vol_ok := (vol_ok image L).
Abbreviation img_of s := (image (dev s)).
Abbreviation chained := (chained image L).
Abbreviation free := (free L).
Abbreviation sec_off := (sec_off L).
Abbreviation tables_only := (tables_only L).

(** ** The window over the disk *)

(** The same bytes up to the end of the first table. *)
Definition view_eq (a b : list Z) : Prop :=
  length a = length b ∧ ∀ i, (i < Z.to_nat ((l_fat L + l_fsz L) * 512))%nat → a !! i = b !! i.

#[global] Instance view_eq_equiv : Equivalence view_eq.
Proof.
  split.
  - by intros a.
  - intros a b (H1 & H2). split; [done|]. intros i Hi. by rewrite H2.
  - intros a b d (H1 & H2) (H3 & H4). split; [congruence|]. intros i Hi. by rewrite H2, H4.
Qed.

#[global] Instance splice_view (i : nat) (bs : list Z) :
  Proper (view_eq ==> view_eq) (splice i bs).
Proof.
  intros a b (Hl & Hab). destruct (decide (bs = [])) as [->|Hne]; [done|].
  split; [by rewrite !length_splice, Hl|]. intros k Hk. rewrite !lookup_splice by done. by rewrite Hab.
Qed.

Lemma view_sub a b i n : view_eq a b → (i + n ≤ Z.to_nat ((l_fat L + l_fsz L) * 512))%nat → sub i n a = sub i n b.
Proof. intros (_ & Hab) Hi. apply list_eq. intros k. rewrite !lookup_sub. case_decide; [|done]. apply Hab. lia. Qed.

Lemma view_entry a b c : view_eq a b → in_range c → fat_get a c = fat_get b c.
Proof. intros Hv Hc. unfold Fat32Inv.fat_get. f_equal. f_equal. apply view_sub; [done|by apply entry_range]. Qed.

Lemma view_intro a b :
  length a = length b →
  (∀ i k, (i + k ≤ Z.to_nat ((l_fat L + l_fsz L) * 512))%nat → sub i k a = sub i k b) → view_eq a b.
Proof.
  intros Hl Hs. split; [done|]. intros i Hi. specialize (Hs i 1%nat ltac:(lia)).
  assert (sub i 1 a !! 0%nat = sub i 1 b !! 0%nat) as E by by rewrite Hs. rewrite !lookup_sub in E.
  rewrite decide_True, Nat.add_0_r in E by lia. done.
Qed.

(** A window is empty or holds a sector that is to be written back. *)
Definition win_ok w : Prop :=
  match win_idx w with
  | None => True
  | Some q => 0 ≤ q < l_fsz L ∧ length (win_buf w) = 512%nat ∧ win_dirty w = true
  end.

Definition view w img : list Z :=
  match win_idx w with Some q => splice (sec_off q) (win_buf w) img | None => img end.

Lemma sec_on_disk s q : vol_ok s → 0 ≤ q < l_fsz L → (sec_off q + 512 ≤ length (img_of s))%nat.
Proof. intros Hv Hq. pose proof (table_on_disk image L LO s q Hv Hq). destruct LO. unfold Fat32Inv.sec_off. lia. Qed.

Lemma write_window_spec s w (Q : () → fatst D → Prop) :
  vol_ok s → win_ok w →
  (∀ s', node s' = node s → vnode_size s' = vnode_size s → tables_only (img_of s) (img_of s') →
    view_eq (img_of s') (view w (img_of s)) → Q () s') →
  swp (write_window w) s Q.
Proof.
  intros Hv Hw HQ. pose proof Hv as (Hg & _). unfold write_window. apply swp_bind, get_node_spec.
  unfold win_ok, view in *. destruct (win_idx w) as [q|]; [|by apply swp_ret, HQ].
  destruct Hw as (Hq & Hb & ->). rewrite (g_fats _ _ Hg), (g_fat _ _ Hg). pose proof (sec_on_disk s q Hv Hq) as Hs.
  apply (write_fats_spec image L LO); [done|done|done|].
  intros s' Hn Hvs Ht Hsub. apply HQ; [done|done|done|]. apply view_intro; [|done].
  rewrite length_splice_in by (rewrite Hb; done). apply Ht.
Qed.

Lemma splice_same i n img : (i + n ≤ length img)%nat → splice i (sub i n img) img = img.
Proof. intros Hi. pose proof (splice_sub i n 0 [] img Hi ltac:(simpl; lia)) as E. exact E. Qed.

Lemma tables_refl img : tables_only img img.
Proof. done. Qed.

Lemma tables_trans a b d : tables_only a b → tables_only b d → tables_only a d.
Proof. intros (H1 & H2) (H3 & H4). split; [congruence|]. intros i n Hi. by rewrite H4, H2. Qed.

Lemma tables_vol s s' : vol_ok s → tables_only (img_of s) (img_of s') → node s' = node s → vol_ok s'.
Proof. intros (Hg & Hd) (Hl & _) Hn. split; [by rewrite Hn|by rewrite Hl]. Qed.

Lemma sector_low q : 0 ≤ q < l_fsz L → (sec_off q + 512 ≤ Z.to_nat ((l_fat L + l_fsz L) * 512))%nat.
Proof. intros Hq. destruct LO. unfold Fat32Inv.sec_off. lia. Qed.

Lemma load_window_spec s w q (Q : option fat_window → fatst D → Prop) :
  vol_ok s → win_ok w → 0 ≤ q < l_fsz L →
  (∀ s' d buf, node s' = node s → vnode_size s' = vnode_size s → tables_only (img_of s) (img_of s') →
    buf = sub (sec_off q) 512 (view w (img_of s)) → length buf = 512%nat →
    view_eq (splice (sec_off q) buf (img_of s')) (view w (img_of s)) → Q (Some (mkWin (Some q) d buf)) s') →
  swp (load_window w q) s Q.
Proof.
  intros Hv Hw Hq HQ. pose proof Hv as (Hg & _). pose proof (sec_on_disk s q Hv Hq) as Hs.
  unfold load_window. apply swp_bind, get_node_spec. destruct (match win_idx w with Some i => i =? q | None => false end) eqn:E.
  - destruct w as [[i|] d buf]; [|done]. simpl in E. apply Z.eqb_eq in E as ->. destruct Hw as (_ & Hb & _). simpl in Hb.
    apply swp_ret, HQ; [done|done|done| |done|done]. unfold view. simpl. rewrite <- Hb. symmetry. apply sub_splice_same. lia.
  - apply swp_bind, write_window_spec; [done|done|]. intros s1 Hn1 Hv1 Ht1 Hview. apply swp_bind.
    pose proof (tables_vol s s1 Hv Ht1 Hn1) as V1. pose proof (table_on_disk image L LO s1 q V1 Hq) as Hd. pose proof (sec_on_disk s1 q V1 Hq) as Hs1.
    rewrite (g_bps _ _ Hg), (g_fat _ _ Hg). destruct LO. assert (0 < l_clusters L * l_spc L) by nia.
    assert (l_fsz L ≤ l_fats L * l_fsz L) by nia. rewrite u32_small by lia.
    apply (dev_read_spec image); [lia|lia|lia|]. intros s2 (Hi2 & Hn2 & Hv2). apply swp_ret.
    change (Z.to_nat ((l_fat L + q) * 512)) with (sec_off q). change (Z.to_nat 512) with 512%nat.
    apply HQ; [congruence|congruence|by rewrite Hi2| |by rewrite length_sub|].
    + apply view_sub; [done|by apply sector_low].
    + rewrite Hi2, splice_same by done. done.
Qed.

(** ** The loop *)

Lemma splice_over i (a b : list Z) img :
  length a = length b → (i + length a ≤ length img)%nat → splice i b (splice i a img) = splice i b img.
Proof.
  intros Hl Hi. apply list_eq. intros k. rewrite !lookup_splice_in; rewrite ?length_splice_in; try lia. rewrite Hl. by case_decide.
Qed.

(** Clearing the entry of [c] in the window clears it in the view. *)
Lemma clear_view s T c d buf :
  vol_ok s → in_range c → length T = length (img_of s) → length buf = 512%nat →
  buf = sub (sec_off (4 * c / 512)) 512 T → view_eq (splice (sec_off (4 * c / 512)) buf (img_of s)) T →
  ∀ c', in_range c' →
    fat_get (view (mkWin (Some (4 * c / 512)) d (splice (Z.to_nat (4 * c mod 512)) (le_bytes 4 0) buf)) (img_of s)) c' =
    if decide (c' = c) then 0 else fat_get T c'.
Proof.
  intros Hv Hc HT Hb Eb Hview c' Hc'. destruct (entry_sector L LO c Hc) as (Hq & _ & Hm & Hm4 & _).
  pose proof (sec_on_disk s _ Hv Hq) as Hs. unfold view. cbn [win_idx win_buf].
  set (b' := splice _ (le_bytes 4 0) buf). assert (length b' = 512%nat) as Hb' by (unfold b'; rewrite length_splice_in; rewrite ?length_le_bytes; lia).
  rewrite <- (splice_over (sec_off (4 * c / 512)) buf b' (img_of s)) by (rewrite ?Hb, ?Hb'; done).
  rewrite (view_entry _ (splice (sec_off (4 * c / 512)) b' T)); [|by rewrite Hview|done].
  assert (fat_set L T (splice (sec_off (4 * c / 512)) b' T) c (0 mod 2 ^ 28)) as (_ & H); [|by apply H].
  unfold b'. rewrite Eb. apply entry_update; [done|done|lia|lia| |done].
  rewrite <- Eb. fold b'. split; [apply length_splice_in; rewrite Hb'; lia|]. intros i n Hi. apply sub_splice_other; [rewrite Hb'; lia|].
  rewrite Hb'. pose proof (sector_low _ Hq). destruct LO. unfold Fat32Inv.sec_off in *. nia.
Qed.

Lemma length_view s w : vol_ok s → win_ok w → length (view w (img_of s)) = length (img_of s).
Proof.
  intros Hv Hw. unfold win_ok, view in *. destruct (win_idx w) as [q|]; [|done]. destruct Hw as (Hq & Hb & _).
  apply length_splice_in. rewrite Hb. by apply sec_on_disk.
Qed.

Lemma sector_index_eq c : c / (512 / 4) = 4 * c / 512.
Proof. change (512 / 4) with 128. change 512 with (4 * 128). by rewrite Z.div_mul_cancel_l. Qed.

(** Where the loop stands: at the head of what is left of the chain. *)
Definition stands_at l current : Prop := match l with [] => FAT_EOC ≤ current | c :: _ => current = c end.

Lemma linked_tail T c l : linked L T (c :: l) → stands_at l (fat_get T c) ∧ linked L T l.
Proof. destruct l as [|c' l]; simpl; [done|]. by intros (-> & H). Qed.

(** The entries of [l] are cleared, all others stay. *)
Definition cleared T img' l : Prop :=
  ∀ c, in_range c → fat_get img' c = if decide (c ∈ l) then 0 else fat_get T c.

Lemma free_chain_loop_spec n : ∀ s w l current freed (Q : Z → fatst D → Prop),
  vol_ok s → win_ok w → linked L (view w (img_of s)) l → Forall in_range l → NoDup l → (length l < n)%nat →
  stands_at l current → 0 ≤ freed → freed + zlen l < 2 ^ 32 →
  (∀ s', node s' = node s → vnode_size s' = vnode_size s → tables_only (img_of s) (img_of s') →
    cleared (view w (img_of s)) (img_of s') l → Q (freed + zlen l) s') →
  swp (free_chain_loop n w current freed) s Q.
Proof.
  induction n as [|n IH]; intros s w l current freed Q Hv Hw Hl Hr Hnd Hn Hst Hf0 Hf HQ; [lia|]. cbn [free_chain_loop].
  destruct l as [|c l].
  { simpl in Hst. rewrite (proj2 (Z.ltb_ge _ _) Hst), andb_false_r. apply swp_bind, write_window_spec; [done|done|].
    intros s1 Hn1 Hv1 Ht1 Hview. apply swp_ret. rewrite <- (Z.add_0_r freed). apply (HQ s1); try done.
    intros c Hc. rewrite decide_False by set_solver. by apply view_entry. }
  simpl in Hst. subst current. apply Forall_cons in Hr as (Hc & Hr). apply NoDup_cons in Hnd as (Hni & Hnd). simpl in Hn, Hf.
  apply linked_tail in Hl as (Hst & Hl). destruct (entry_sector L LO c Hc) as (Hq & _ & Hm & Hm4 & _).
  assert (2 ≤ c < FAT_EOC) as Hc2 by (destruct LO; unfold Fat32Inv.in_range in Hc; lia).
  rewrite (proj2 (Z.leb_le 2 c)), (proj2 (Z.ltb_lt c FAT_EOC)) by lia. cbn [andb]. pose proof Hv as (Hg & _).
  apply swp_bind, get_node_spec. rewrite (g_bps _ _ Hg). apply swp_bind. eapply swp_lift; [done|]. apply swp_bind. eapply swp_lift; [done|].
  rewrite sector_index_eq, offset_eq. apply swp_bind, load_window_spec; [done|done|done|].
  intros s1 d buf Hn1 Hv1 Ht1 Eb Hb Hview. pose proof (tables_vol s s1 Hv Ht1 Hn1) as V1. cbn [win_buf win_idx].
  pose proof (length_view s w Hv Hw) as HT. pose proof (sec_on_disk s _ Hv Hq) as Hs. rewrite <- (proj1 Ht1) in HT.
  pose proof (clear_view s1 _ c true buf V1 Hc HT Hb Eb Hview) as Hclear.
  apply swp_bind. eapply swp_lift. { rewrite Eb. apply read_entry; [done|done|]. rewrite HT, (proj1 Ht1). done. }
  apply swp_bind. eapply swp_lift. { apply set_word_ok; lia. }
  set (w' := mkWin (Some (4 * c / 512)) true _) in *. rewrite (u32_small (freed + 1)) by lia.
  apply (IH s1 w' l); [done| | |done|done|lia|exact Hst|lia|lia|].
  - unfold win_ok, w'. cbn [win_idx win_buf win_dirty]. split_and!; [lia|lia| |done]. rewrite length_splice_in; rewrite ?length_le_bytes; lia.
  - apply (chain_ext L (view w (img_of s))); [done|]. intros c' Hc'. rewrite Hclear by (rewrite Forall_forall in Hr; by apply Hr).
    rewrite decide_False; [done|]. by intros ->.
  - intros s2 Hn2 Hv2 Ht2 Hcl2. replace (freed + 1 + zlen l) with (freed + zlen (c :: l)) by (simpl; lia).
    apply HQ; [congruence|congruence|by eapply tables_trans|]. intros c' Hc'. rewrite Hcl2, Hclear by done.
    destruct (decide (c' ∈ l)); destruct (decide (c' = c)); destruct (decide (c' ∈ c :: l)); set_solver.
Qed.

Lemma free_cleared img img' l :
  linked L img l → Forall in_range l → NoDup l → cleared img img' l → free img' = (free img + length l)%nat.
Proof.
  intros Hl Hr Hnd Hcl. unfold Fat32File.free. rewrite Nat.add_comm, <- length_app. apply Permutation_length, NoDup_Permutation.
  - apply NoDup_filter, NoDup_seqZ.
  - apply NoDup_app. split_and!; [done| |apply NoDup_filter, NoDup_seqZ].
    intros c Hc (Hz & _)%list_elem_of_filter. by apply (linked_taken L _ _ _ Hl Hr) in Hc.
  - intros c. rewrite elem_of_app, !list_elem_of_filter, <- !(in_range_seq L LO). rewrite Forall_forall in Hr. split.
    + intros (Hz & Hc). rewrite Hcl in Hz by done. case_decide; [by left|by right].
    + intros [Hc|(Hz & Hc)]; (split; [|by auto]); rewrite Hcl by auto; by case_decide.
Qed.

Lemma chain_short l : Forall in_range l → NoDup l → zlen l ≤ l_clusters L.
Proof.
  intros Hr Hnd. assert (l ⊆+ seqZ 2 (l_clusters L)) as H%submseteq_length.
  { apply NoDup_submseteq; [done|]. intros c Hc. apply (in_range_seq L LO). rewrite Forall_forall in Hr. by apply Hr. }
  rewrite length_seqZ in H. destruct LO. lia.
Qed.

Lemma free_cluster_chain_spec s l (Q : () → fatst D → Prop) :
  chained s l →
  (∀ s', vol_ok s' → info_only (node s) (node s') → vnode_size s' = vnode_size s → data_same L (img_of s) (img_of s') →
    cleared (img_of s) (img_of s') l → Q () s') →
  swp (fat32_free_cluster_chain mem (hd 0 l)) s Q.
Proof.
  intros Hch HQ. pose proof Hch as [Hv Hl Hr Hnd]. pose proof Hv as (Hg & Hd). pose proof (chain_short l Hr Hnd) as Hshort.
  unfold fat32_free_cluster_chain. destruct l as [|c l]; simpl hd.
  { simpl. apply swp_ret, HQ; try done. apply (info_only_refl L); done. }
  assert (in_range c) as Hc by (by apply Forall_cons in Hr as (? & _)). destruct LO. unfold Fat32Inv.in_range, FAT_EOC in *.
  rewrite (proj2 (Z.eqb_neq c 0)), (proj2 (Z.leb_gt _ c)) by lia. cbn [orb].
  apply swp_bind, get_node_spec. unfold must_alloc. rewrite has_memory. apply swp_bind, swp_ret, swp_bind.
  rewrite (g_bps _ _ Hg), (g_fsz _ _ Hg).
  apply (free_chain_loop_spec _ s _ (c :: l)); try done; [|lia|].
  { assert (l_clusters L + 2 ≤ l_fsz L * 512 / 4) by dlia. lia. }
  intros s1 Hn1 Hv1 Ht1 Hcl. rewrite (proj2 (Z.ltb_lt _ _)) by (simpl; lia). apply swp_bind, get_node_spec.
  pose proof (tables_vol s s1 Hv Ht1 Hn1) as V1. apply swp_bind. unfold upd_node, swp at 1.
  set (s2 := mkFat _ _ _). assert (info_only (node s1) (node s2)) as Hi.
  { unfold s2. eexists. split; [done|]. pose proof (g_fsinfo _ _ (proj1 V1)). split_and!; try done; apply H. }
  apply (write_fsinfo_spec image L LO); [split; [by eapply info_only_geo; [apply V1|]|apply V1]|].
  intros s3 Hn3 Hv3 Hs3. rewrite Hn1 in Hi. apply HQ.
  - split; [rewrite Hn3; by eapply info_only_geo|]. rewrite (proj1 (proj1 Hs3)). apply V1.
  - by rewrite Hn3.
  - by rewrite Hv3.
  - eapply data_same_trans; [by apply (tables_only_data L LO)|apply Hs3].
  - intros c' Hc'. rewrite (proj2 Hs3) by done. by apply Hcl.
Qed.
End free_chain.
