(* ===== verification/Fat32Thm.v ===== *)
(** * Files on a FAT32 volume

    Reading and writing a file act on its bytes, whatever clusters hold them,
    and leave every other file alone; the entry of the directory follows. *)

From S2P Require Import Prelude CMem Bytes StateM Fat32 Fat32Inv Fat32File Fat32Ops Fat32Free.

Open Scope sm_scope.

(** ** The entry of a directory *)

(** The entry at [off] of the directory cluster [b]. *)
Definition entry_is (b : list Z) (off sz clu : Z) : Prop :=
  le_value (sub (Z.to_nat (off + 28)) 4 b) = sz ∧ le_value (sub (Z.to_nat (off + 26)) 2 b) = clu mod 2 ^ 16 ∧
  le_value (sub (Z.to_nat (off + 20)) 2 b) = clu / 2 ^ 16.

Lemma sub_word i (n : nat) w b :
  0 ≤ w < 2 ^ (8 * Z.of_nat n) → (i + n ≤ length b)%nat → le_value (sub i n (splice i (le_bytes n w) b)) = w.
Proof.
  intros Hw Hi. pose proof (sub_splice_same i (le_bytes n w) b ltac:(rewrite length_le_bytes; lia)) as E.
  rewrite length_le_bytes in E. rewrite E, le_value_bytes by lia. by apply Z.mod_small.
Qed.

Lemma update_entry_ok sz clu buf off :
  0 ≤ off → off + 32 ≤ zlen buf → 0 ≤ sz < 2 ^ 32 → 0 ≤ clu < 2 ^ 32 →
  ∃ b, update_entry sz clu buf off = Ok b ∧ length b = length buf ∧ entry_is b off sz clu.
Proof.
  intros H0 Hlen Hsz Hclu. unfold update_entry. rewrite set_word_ok by lia. rewrite bind_Ok.
  assert (length (splice (Z.to_nat (off + 28)) (le_bytes 4 sz) buf) = length buf) as Hl1
    by (apply length_splice_in; rewrite length_le_bytes; lia).
  rewrite Hl1, (proj2 (Z.leb_le 0 off)), (proj2 (Z.leb_le (off + 32) _)) by lia. cbn [andb].
  change 0xFFFF with (2 ^ 16 - 1). rewrite !land_ones_mod, Z.shiftr_div_pow2 by lia.
  rewrite (Z.mod_small (clu / 2 ^ 16)) by dlia.
  set (b1 := splice (Z.to_nat (off + 28)) _ _) in *. set (b2 := splice (Z.to_nat (off + 20)) _ b1).
  assert (length b2 = length buf) as Hl2 by (unfold b2; rewrite length_splice_in; rewrite ?length_le_bytes; lia).
  eexists. split; [done|]. split; [rewrite length_splice_in; rewrite ?length_le_bytes; lia|]. split_and!.
  - rewrite sub_splice_other by (rewrite length_le_bytes; lia). unfold b2. rewrite sub_splice_other by (rewrite length_le_bytes; lia).
    unfold b1. apply sub_word; lia.
  - apply sub_word; [simpl; dlia|lia].
  - rewrite sub_splice_other by (rewrite length_le_bytes; lia). unfold b2. apply sub_word; [simpl; dlia|lia].
Qed.

Section files.
Context {D : Type} `{!BlockDev D} (image : D → list Z) `{!DiskLaws image}.
Context (mem : Z → bool) (has_memory : ∀ n, mem n = true).
Context (L : layout) (LO : layout_ok L).
Implicit Types (s : fatst D) (img : list Z) (c : Z) (l : list Z).

Abbreviation fat_get := (fat_get L).
Abbreviation in_range := (in_range L).
Abbreviation cl_bytes := (cl_bytes L).
Abbreviation vol_ok := (vol_ok image L).
Abbreviation img_of s := (image (dev s)).
Abbreviation chained := (chained image L).
Abbreviation grew := (grew image L).
Abbreviation bpc := (bpc L).
Abbreviation free := (free L).
Abbreviation bytes_of := (bytes_of L).

(** The directory cluster [dc] that holds the entry of the file, if any. *)
Definition entry_at (nd : fat32_internal_data) dc : Prop :=
  in_range dc ∧ dir_sector nd = l_data L + (dc - 2) * l_spc L ∧ 0 ≤ dir_offset nd ∧ dir_offset nd + 32 ≤ bpc.

(** A file made of the clusters [l], whose entry records its size and first
    cluster. *)
Record file_ok s l : Prop := mkFatFile {
  fo_chain : chained s l;
  fo_cluster : cluster (node s) = hd 0 l;
  fo_size : 0 ≤ size (node s) ≤ zlen l * bpc ∧ size (node s) < 2 ^ 32 ∧ vnode_size s = size (node s);
  fo_entry : dir_sector (node s) = 0 ∨ ∃ dc, entry_at (node s) dc ∧ (dc ∉ l) ∧ fat_get (img_of s) dc ≠ 0 ∧
    entry_is (cl_bytes (img_of s) dc) (dir_offset (node s)) (size (node s)) (cluster (node s)) }.

Definition file_bytes s l : list Z := take (Z.to_nat (size (node s))) (bytes_of (img_of s) l).

Lemma length_file_bytes s l : file_ok s l → zlen (file_bytes s l) = size (node s).
Proof.
  intros [[Hv _ Hr _] _ (Hs & _) _]. unfold file_bytes. pose proof (length_bytes_of image L LO s l Hv Hr).
  rewrite length_take. lia.
Qed.

(** ** Reading *)

(** Reading from a file gives the bytes from the offset on, as many as
    asked for and there are, and changes nothing. *)
Theorem fat32_read_correct s l len offset :
  file_ok s l → 0 < len < 2 ^ 31 → 0 ≤ offset < 2 ^ 63 →
  ∃ s' bs, fat32_read mem len offset s = Ok ((zlen bs, bs), s') ∧ same_fat image s s' ∧
    bs = take (Z.to_nat len) (drop (Z.to_nat offset) (file_bytes s l)).
Proof.
  intros Hf Hlen Hoff. pose proof (length_file_bytes s l Hf) as Hfl. destruct Hf as [Hch Hclu (Hsz & Hsz32 & _) _].
  pose proof Hch as [Hv _ Hr _]. pose proof Hv as (Hg & _). pose proof (bpc_bounds L LO) as Hbpc.
  enough (swp (fat32_read mem len offset) s (λ r s', same_fat image s s' ∧
    r = (zlen (take (Z.to_nat len) (drop (Z.to_nat offset) (file_bytes s l))), take (Z.to_nat len) (drop (Z.to_nat offset) (file_bytes s l))))) as Hw.
  { apply swp_elim in Hw as (r & s' & E & Hs & ->). eauto. }
  unfold fat32_read. rewrite (proj2 (Z.eqb_neq _ _)) by lia. apply swp_bind, get_node_spec.
  destruct (Z.leb_spec (size (node s)) offset) as [Hend|Hin].
  { apply swp_ret. split; [done|]. rewrite (drop_ge (file_bytes s l)) by lia. by rewrite take_nil. }
  replace (u64 (offset + len)) with (offset + len) by (unfold u64; rewrite Z.mod_small; lia).
  replace (u64 (size (node s) - offset)) with (size (node s) - offset) by (unfold u64; rewrite Z.mod_small; lia).
  set (n := if size (node s) <? offset + len then _ else _).
  assert (n = Z.min len (size (node s) - offset)) as En by (unfold n; destruct (Z.ltb_spec (size (node s)) (offset + len)); lia).
  clearbody n. assert (bytes_per_cluster (node s) = bpc) as ->.
  { unfold bytes_per_cluster. rewrite (g_spc _ _ Hg), (g_bps _ _ Hg). apply u32_small. unfold Fat32Inv.bpc in *. lia. }
  destruct l as [|c l']; [simpl in Hsz; lia|]. simpl in Hclu. rewrite Hclu.
  pose proof (Z.mul_div_le offset bpc ltac:(lia)). pose proof (Z.mul_succ_div_gt offset bpc ltac:(lia)).
  apply swp_bind. change 0 with (zlen (@nil Z) * bpc) at 1.
  apply (read_walk_spec image mem has_memory L LO _ s (c :: l') [] c l'); [done|done|simpl; lia|simpl; nia|lia|].
  intros s1 pre' c' post' Hs1 El Hb. rewrite has_memory. cbn [negb]. apply swp_bind.
  replace (u64 (offset - zlen pre' * bpc)) with (offset - zlen pre' * bpc) by (unfold u64; rewrite Z.mod_small; lia).
  apply (read_loop_spec image mem has_memory L LO _ s1 (c :: l') pre' c' post'); [lia| |done|lia|lia|lia|].
  { destruct Hch. split; [by eapply same_vol|by rewrite (proj1 Hs1)|done|done]. }
  intros s2 Hs2. apply swp_ret. split; [by apply (same_fat_trans image s s1)|]. cbn [fst snd app].
  replace (zlen pre' * bpc + (offset - zlen pre' * bpc)) with offset by lia. rewrite (proj1 Hs1).
  assert (sub (Z.to_nat offset) (Z.to_nat n) (bytes_of (img_of s) (c :: l')) =
    take (Z.to_nat len) (drop (Z.to_nat offset) (file_bytes s (c :: l')))) as E.
  { apply list_eq. intros k. rewrite lookup_sub. destruct (decide (k < Z.to_nat len)%nat).
    - rewrite lookup_take_lt, lookup_drop by lia. unfold file_bytes. case_decide.
      + by rewrite lookup_take_lt by lia.
      + by rewrite lookup_take_ge by lia.
    - rewrite lookup_take_ge, decide_False by lia. done. }
  assert (zlen (sub (Z.to_nat offset) (Z.to_nat n) (bytes_of (img_of s) (c :: l'))) = n) as Hlb.
  { pose proof (length_bytes_of image L LO s _ Hv Hr). rewrite length_sub; lia. }
  rewrite <- E, Hlb. f_equal. replace (u64 (n - 0)) with n by (unfold u64; rewrite Z.mod_small; lia).
  unfold s32. rewrite Z.mod_small; lia.
Qed.

(** ** Writing *)

Lemma bytes_per_cluster_eq nd : geo L nd → bytes_per_cluster nd = bpc.
Proof.
  intros Hg. unfold bytes_per_cluster. rewrite (g_spc _ _ Hg), (g_bps _ _ Hg). pose proof (bpc_bounds L LO).
  apply u32_small. unfold Fat32Inv.bpc in *. lia.
Qed.

Lemma geo_size nd x : geo L nd → geo L (set_size x nd).
Proof. intros []. by split. Qed.
Lemma geo_cluster nd x : geo L nd → geo L (set_cluster x nd).
Proof. intros []. by split. Qed.

(** Entries of clusters outside [l] that are taken stay. *)
Definition fat_frame s l s' : Prop :=
  ∀ c, in_range c → c ∉ l → fat_get (img_of s) c ≠ 0 → fat_get (img_of s') c = fat_get (img_of s) c.

(** The chain has a first cluster, and the node knows it. *)
Lemma first_cluster_spec s l (Q : Z → fatst D → Prop) :
  chained s l → cluster (node s) = hd 0 l → (l = [] → (0 < free (img_of s))%nat) →
  (∀ s' c l', chained s' (c :: l') → (l = c :: l' ∨ l = [] ∧ l' = [] ∧ fat_get (img_of s) c = 0) →
    (length (c :: l') + free (img_of s') = length l + free (img_of s))%nat → data_same L (img_of s) (img_of s') →
    vnode_size s' = vnode_size s → (∃ fi, info_only (node s) fi ∧ node s' = set_cluster c fi) → fat_frame s l s' → Q c s') →
  swp (first_cluster mem) s Q.
Proof.
  intros Hch Hclu Hfree HQ. pose proof Hch as [Hv Hl Hr Hnd]. unfold first_cluster. apply swp_bind, get_node_spec.
  destruct l as [|c l]; simpl in Hclu; rewrite Hclu.
  - apply swp_bind. apply (allocate_spec image mem has_memory L LO); [done| |].
    + intros c s1 (Hc & Hz & Hset & Hinfo & Hvs). assert (c ≠ 0) as Hc0 by (unfold Fat32Inv.in_range in Hc; lia).
      rewrite (proj2 (Z.eqb_neq _ _) Hc0). apply swp_bind. unfold upd_node, swp at 1. apply swp_ret.
      pose proof (set_vol image L s s1 c FAT_MASK Hv Hset Hinfo) as (Hg1 & Hd1).
      assert (fat_get (img_of s1) c = FAT_MASK) as Hfc by (rewrite (proj2 Hset c Hc); by rewrite decide_True).
      apply (HQ _ c []); simpl; try done.
      * split; [split; [by apply geo_cluster|done]|simpl; rewrite Hfc; done|by apply Forall_singleton|apply NoDup_singleton].
      * by right.
      * pose proof (free_set L LO _ _ _ _ Hset Hc ltac:(done)) as F. rewrite decide_True in F by done. lia.
      * apply Hset.
      * by exists (node s1).
      * intros c' Hc' _ Hz'. cbn [dev]. rewrite (proj2 Hset c' Hc'). rewrite decide_False; [done|]. by intros ->.
    + intros s1 _ Hall. exfalso. destruct (free_pos L LO (img_of s) (Hfree eq_refl)) as (c0 & Hc0 & Hz). by apply (Hall c0).
  - assert (c ≠ 0) as Hc0 by (apply Forall_cons in Hr as (Hc & _); unfold Fat32Inv.in_range in Hc; lia).
    rewrite (proj2 (Z.eqb_neq _ _) Hc0). apply swp_ret, (HQ s c l); try done.
    + by left.
    + exists (node s). split; [apply (info_only_refl L), Hv|]. rewrite <- Hclu. by destruct (node s).
Qed.

(** The update of the entry keeps the file and everything but the entry. *)
Lemma write_entry_spec s l (Q : () → fatst D → Prop) :
  chained s l → 0 ≤ size (node s) < 2 ^ 32 → 0 ≤ cluster (node s) < 2 ^ 32 →
  (dir_sector (node s) = 0 ∨ ∃ dc, entry_at (node s) dc ∧ (dc ∉ l) ∧ fat_get (img_of s) dc ≠ 0) →
  (∀ s', chained s' l → grew s l s' l → bytes_of (img_of s') l = bytes_of (img_of s) l → node s' = node s →
    (∀ c, in_range c → ¬ entry_at (node s) c → cl_bytes (img_of s') c = cl_bytes (img_of s) c) →
    (dir_sector (node s) = 0 ∨ ∃ dc, entry_at (node s) dc ∧ (dc ∉ l) ∧ fat_get (img_of s') dc ≠ 0 ∧
      entry_is (cl_bytes (img_of s') dc) (dir_offset (node s)) (size (node s)) (cluster (node s))) → Q () s') →
  swp (write_dir_entry mem bpc) s Q.
Proof.
  intros Hch Hsz Hclu Hdir HQ. pose proof Hch as [Hv Hl Hr Hnd]. pose proof (bpc_bounds L LO) as Hbpc.
  unfold write_dir_entry. apply swp_bind, get_node_spec. rewrite has_memory, orb_false_r.
  destruct Hdir as [Hz|(dc & Hat & Hdl & Hdz)].
  { rewrite Hz. apply swp_ret, (HQ s); try done; [by apply grew_refl|by left]. }
  destruct Hat as (Hdc & Hds & Ho & Ho32) eqn:Eat. clear Eat.
  destruct (cluster_sector image L LO s dc Hv Hdc) as (Hsec & Hd1 & Hd0 & Hd2). rewrite <- Hsec in Hds. pose proof LO as LO'. destruct LO'.
  assert (dir_sector (node s) ≠ 0) as Hne.
  { rewrite Hds, Hsec. unfold Fat32Inv.in_range in Hdc. assert (0 ≤ l_fats L * l_fsz L) by nia. assert (0 ≤ (dc - 2) * l_spc L) by nia. lia. }
  rewrite (proj2 (Z.eqb_neq _ _) Hne). apply swp_bind. rewrite Hds, Hsec.
  apply (dev_read_spec image); [lia|lia|lia|]. intros s1 Hs1. rewrite Hd2, Nat2Z.id. fold (cl_bytes (img_of s) dc).
  pose proof (length_cl_bytes image L LO s dc Hv Hdc) as Hcl.
  destruct (update_entry_ok (size (node s)) (cluster (node s)) (cl_bytes (img_of s) dc) (dir_offset (node s))) as (b & Eb & Hbl & Hent); [lia|lia|lia|lia|].
  apply swp_bind. eapply swp_lift; [exact Eb|]. apply swp_bind. rewrite <- Hsec, <- (proj1 (proj2 Hs1)).
  replace b with (splice (Z.to_nat 0) b b) by (by apply splice_full).
  apply (store_spec image L LO s1 dc 0 b b); [by eapply same_vol|done|lia|intros ->; simpl in Hbl; lia|lia|lia|lia|].
  intros s2 Hst Hn2 Hv2. apply swp_ret. unfold stored in Hst. rewrite (proj1 Hs1) in Hst. destruct Hs1 as (_ & Hn1 & Hv1). rewrite Hn1 in Hn2. rewrite Hv1 in Hv2.
  destruct (stored_chained image mem has_memory L LO s s2 l dc 0 b Hch Hdc ltac:(lia) ltac:(lia) Hst Hn2 Hv2) as (Hch2 & Hgr2).
  destruct (stored_facts image L LO s _ dc 0 b Hv Hdc ltac:(lia) ltac:(lia) Hst) as (_ & Hfat & Hcb).
  apply (HQ s2); try done.
  - unfold Fat32File.bytes_of. f_equal. apply list_fmap_ext. intros i c' Hi. apply list_elem_of_lookup_2 in Hi.
    rewrite Hcb by (rewrite Forall_forall in Hr; by apply Hr). rewrite decide_False; [done|]. by intros ->.
  - intros c Hc Hna. rewrite Hcb by done. rewrite decide_False; [done|]. by intros ->.
  - right. exists dc. split_and!; try done; [by rewrite Hfat|]. rewrite Hcb, decide_True by done. by rewrite splice_full by lia.
Qed.

(** Walking to the offset and storing the bytes. *)
Lemma write_body_spec s c l bs offset (K : Z → SM (fatst D) Z) (Q : Z → fatst D → Prop) :
  chained s (c :: l) → bs ≠ [] → 0 ≤ offset → offset + zlen bs < 2 ^ 32 →
  offset + zlen bs ≤ (zlen (c :: l) + Z.of_nat (free (img_of s))) * bpc →
  (∀ s' l', wrote_chain image L s (c :: l) offset bs s' l' → swp (K 0) s' Q) →
  swp (w ← write_walk mem (Datatypes.S (Z.to_nat (offset / bpc))) offset c 0 bpc;
       if u64 (snd w + bpc) <=? offset then mret 0
       else if negb (mem bpc) then mret (-1)
       else left ← write_loop mem (Datatypes.S (length bs)) (fst w) (u64 (offset - snd w)) bs bpc; K left) s Q.
Proof.
  intros Hch Hne Hoff Hmax Hcap HQ. pose proof (bpc_bounds L LO) as Hbpc.
  assert (0 < zlen bs) by (destruct bs; simpl; [done|lia]).
  pose proof (Z.mul_div_le offset bpc ltac:(lia)). pose proof (Z.mul_succ_div_gt offset bpc ltac:(lia)).
  apply swp_bind. change 0 with (zlen (@nil Z) * bpc) at 1.
  apply (write_walk_spec image mem has_memory L LO _ s (c :: l) [] c l); [done|done|simpl; lia|simpl; nia|nia|].
  intros s1 l1 pre' c' post' Hch1 Hgr1 Hd1 El1 Hb. cbn [fst snd].
  replace (u64 (zlen pre' * bpc + bpc)) with ((zlen pre' + 1) * bpc) by (unfold u64; rewrite Z.mod_small; lia).
  rewrite (proj2 (Z.leb_gt _ _)), has_memory by lia. cbn [negb]. apply swp_bind.
  replace (u64 (offset - zlen pre' * bpc)) with (offset - zlen pre' * bpc) by (unfold u64; rewrite Z.mod_small; lia).
  pose proof (grew_free image L _ _ _ _ Hgr1) as Hfree.
  apply (write_loop_spec image mem has_memory L LO _ s1 l1 pre' c' post'); [lia|done|done|lia|lia| |].
  { replace (zlen l1 + Z.of_nat (free (img_of s1))) with (zlen (c :: l) + Z.of_nat (free (img_of s))) by lia. lia. }
  intros s2 l2 (Hch2 & Hgr2 & Hb2 & Ho2). apply (HQ s2 l2). pose proof Hch2 as [_ _ Hr2 Hnd2].
  replace (zlen pre' * bpc + (offset - zlen pre' * bpc)) with offset in Hb2 by lia. split_and!.
  - done.
  - by eapply grew_trans.
  - rewrite Hb2. by rewrite (data_same_bytes L LO (img_of s)).
  - intros c0 Hc0 Hni. rewrite Ho2 by done. by rewrite (data_same_cluster L LO (img_of s)).
Qed.

(** The chain is long enough for what was stored in it. *)
Lemma wrote_length s l p bs s' l' :
  vol_ok s → wrote_chain image L s l p bs s' l' → bs ≠ [] → 0 ≤ p → p + zlen bs ≤ zlen l' * bpc.
Proof.
  intros Hv ([Hv' _ Hr' _] & _ & Hb & _) Hne Hp. pose proof (length_bytes_of image L LO s' l' Hv' Hr') as H'.
  pose proof (length_bytes_of image L LO s l' Hv Hr') as H0. rewrite Hb, length_splice in H' by done. lia.
Qed.

Lemma info_only_fields nd nd' :
  info_only nd nd' → size nd' = size nd ∧ cluster nd' = cluster nd ∧ dir_sector nd' = dir_sector nd ∧ dir_offset nd' = dir_offset nd.
Proof. by intros (fi & -> & _). Qed.

(** Everything but the file is as it was. *)
Definition others_kept s l s' : Prop :=
  fat_frame s l s' ∧
  ∀ c, in_range c → c ∉ l → fat_get (img_of s) c ≠ 0 → ¬ entry_at (node s) c → cl_bytes (img_of s') c = cl_bytes (img_of s) c.

(** The bytes of the file, and everything but the file. *)
Definition wrote_file s l (offset : Z) (bs : list Z) s' l' : Prop :=
  file_ok s' l' ∧ file_bytes s' l' = splice (Z.to_nat offset) bs (file_bytes s l) ∧
  (length l' + free (img_of s') = length l + free (img_of s))%nat ∧ others_kept s l s'.

(** What the write has done before it turns to the entry. *)
Record written s l (offset : Z) (bs : list Z) s' l' : Prop := mkWritten {
  wr_chain : chained s' l';
  wr_cluster : cluster (node s') = hd 0 l';
  wr_node : size (node s') = size (node s) ∧ dir_sector (node s') = dir_sector (node s) ∧
    dir_offset (node s') = dir_offset (node s) ∧ vnode_size s' = vnode_size s;
  wr_ext : ∃ ext, l' = l ++ ext;
  wr_fits : offset + zlen bs ≤ zlen l' * bpc;
  wr_bytes : bytes_of (img_of s') l' = splice (Z.to_nat offset) bs (bytes_of (img_of s) l');
  wr_free : (length l' + free (img_of s') = length l + free (img_of s))%nat;
  wr_frame : fat_frame s l s';
  wr_apart c : in_range c → c ∉ l → fat_get (img_of s) c ≠ 0 → c ∉ l';
  wr_data c : in_range c → c ∉ l' → cl_bytes (img_of s') c = cl_bytes (img_of s) c }.

Lemma write_chain_spec s l bs offset (K : Z → SM (fatst D) Z) (Q : Z → fatst D → Prop) :
  chained s l → cluster (node s) = hd 0 l → bs ≠ [] → 0 ≤ offset → offset + zlen bs < 2 ^ 32 →
  offset + zlen bs ≤ (zlen l + Z.of_nat (free (img_of s))) * bpc →
  (∀ s' l', written s l offset bs s' l' → swp (K 0) s' Q) →
  swp (c ← first_cluster mem;
       if c =? 0 then mret 0 else
       w ← write_walk mem (Datatypes.S (Z.to_nat (offset / bpc))) offset c 0 bpc;
       if u64 (snd w + bpc) <=? offset then mret 0
       else if negb (mem bpc) then mret (-1)
       else left ← write_loop mem (Datatypes.S (length bs)) (fst w) (u64 (offset - snd w)) bs bpc; K left) s Q.
Proof.
  intros Hch Hclu Hne Hoff Hmax Hcap HQ. pose proof (bpc_bounds L LO) as Hbpc.
  assert (0 < zlen bs) by (destruct bs; simpl; [done|lia]).
  apply swp_bind, (first_cluster_spec s l); [done|done|intros ->; simpl in *; nia|].
  intros s1 c l1 Hch1 Hl1 Hfree1 Hd1 Hvs1 (fi & Hfi & Hn1) Hfr1. pose proof Hch1 as [Hv1 _ (Hc & _)%Forall_cons _].
  assert (c ≠ 0) as Hc0 by (unfold Fat32Inv.in_range in Hc; lia). rewrite (proj2 (Z.eqb_neq _ _) Hc0).
  apply (write_body_spec s1 c l1); [done|done|done|done| |].
  { replace (zlen (c :: l1) + Z.of_nat (free (img_of s1))) with (zlen l + Z.of_nat (free (img_of s))) by lia. lia. }
  intros s2 l2 Hw. apply (HQ s2 l2). pose proof (wrote_length _ _ _ _ _ _ Hv1 Hw Hne Hoff) as Hfits.
  destruct Hw as (Hch2 & [(ext & -> & Hfx & Hzx) Hi2 Hvs2 Ho2] & Hb2 & Hdata2). pose proof Hch2 as [_ _ Hr2 _].
  apply info_only_fields in Hfi as (F1 & F2 & F3 & F4). apply info_only_fields in Hi2 as (G1 & G2 & G3 & G4).
  rewrite Hn1 in G1, G2, G3, G4. simpl in G1, G2, G3, G4.
  assert (∀ c', in_range c' → c' ∉ l → fat_get (img_of s) c' ≠ 0 → c' ∉ c :: l1) as Hap.
  { intros c' Hc' Hni Hz. destruct Hl1 as [->|(-> & -> & Hz0)]; [done|]. intros [->|[]%elem_of_nil]%elem_of_cons. done. }
  split; try done.
  - split_and!; congruence.
  - destruct Hl1 as [->|(-> & -> & _)]; eauto.
  - rewrite Hb2. by rewrite (data_same_bytes L LO (img_of s)).
  - rewrite length_app. lia.
  - intros c' Hc' Hni Hz. rewrite Ho2; [by apply Hfr1|done|by apply Hap|by rewrite Hfr1].
  - intros c' Hc' Hni Hz [Hin|Hin]%elem_of_app; [by apply (Hap c')|]. apply Hzx in Hin. by rewrite Hfr1 in Hin.
  - intros c' Hc' Hni. rewrite Hdata2 by done. by apply (data_same_cluster L LO).
Qed.

(** The state once the size is recorded. *)
Record resized s s1 (top : Z) : Prop := mkResized {
  rs_dev : dev s1 = dev s;
  rs_geo : geo L (node s1);
  rs_size : size (node s1) = Z.max (size (node s)) top;
  rs_vsize : vnode_size s1 = size (node s1);
  rs_rest : cluster (node s1) = cluster (node s) ∧ dir_sector (node s1) = dir_sector (node s) ∧ dir_offset (node s1) = dir_offset (node s) }.

Definition entry_ok s l : Prop :=
  dir_sector (node s) = 0 ∨ ∃ dc, entry_at (node s) dc ∧ (dc ∉ l) ∧ fat_get (img_of s) dc ≠ 0 ∧
    entry_is (cl_bytes (img_of s) dc) (dir_offset (node s)) (size (node s)) (cluster (node s)).

Lemma entry_at_ext nd nd' dc : dir_sector nd' = dir_sector nd → dir_offset nd' = dir_offset nd → entry_at nd' dc ↔ entry_at nd dc.
Proof. unfold entry_at. by intros -> ->. Qed.

Lemma written_wrote s s1 s2 s3 l l' offset bs :
  file_ok s l → resized s s1 (offset + zlen bs) → written s1 l offset bs s2 l' → bs ≠ [] → 0 ≤ offset ≤ size (node s) →
  offset + zlen bs < 2 ^ 32 → chained s3 l' → grew s2 l' s3 l' → bytes_of (img_of s3) l' = bytes_of (img_of s2) l' →
  node s3 = node s2 → (∀ c, in_range c → ¬ entry_at (node s2) c → cl_bytes (img_of s3) c = cl_bytes (img_of s2) c) →
  entry_ok s3 l' → wrote_file s l offset bs s3 l'.
Proof.
  intros [[Hv Hl Hr Hnd] Hclu (Hsz & Hsz32 & Hvs) _] [Ei Hg1 Hs1 Hv1 (Hc1 & Hd1 & Ho1)] [Hch2 Hclu2 (W1 & W2 & W3 & W4) (ext & ->) Hfits Hb Hfree Hfr Hap Hdata]
    Hne Hoff Hmax Hch3 Hgr Hb3 Hn3 Hd3 Hent.
  rewrite Ei in *. pose proof (length_bytes_of image L LO s l Hv Hr) as Hlb. pose proof Hch2 as [_ _ Hr2 _].
  pose proof (length_bytes_of image L LO s _ Hv Hr2) as Hlb2. pose proof (grew_free image L _ _ _ _ Hgr).
  destruct Hgr as [_ _ Hvs3 Hfr3]. unfold fat_frame in Hfr. rewrite Ei in Hfr. unfold wrote_file, others_kept. split_and!.
  - split; [done|by rewrite Hn3| |done]. rewrite Hn3, W1, Hs1, Hvs3, W4, Hv1, Hs1.
    pose proof (bpc_bounds L LO). assert (zlen l * bpc ≤ zlen (l ++ ext) * bpc) by (rewrite length_app; nia). split_and!; lia.
  - unfold file_bytes. rewrite Hb3, Hn3, W1, Hs1, Hb. unfold Fat32File.bytes_of in *.
    rewrite fmap_app, concat_app in *. rewrite length_app in Hlb2. apply take_splice_grow; [done|lia|lia|lia].
  - lia.
  - intros c Hc Hni Hz. rewrite Hfr3; [by apply Hfr|done|by apply Hap|by rewrite Hfr].
  - intros c Hc Hni Hz Hna. rewrite Hd3; [|done|]; [apply Hdata; [done|by apply Hap]|].
    rewrite (entry_at_ext (node s)); congruence.
Qed.

(** The entry is where it was and as it was. *)
Lemma written_entry s s1 s2 l l' offset bs :
  file_ok s l → resized s s1 (offset + zlen bs) → written s1 l offset bs s2 l' →
  dir_sector (node s2) = 0 ∨ ∃ dc, entry_at (node s2) dc ∧ (dc ∉ l') ∧ fat_get (img_of s2) dc ≠ 0 ∧
    entry_is (cl_bytes (img_of s2) dc) (dir_offset (node s2)) (size (node s)) (cluster (node s)).
Proof.
  intros [_ _ _ Hent] [Ei _ _ _ (_ & Hd1 & Ho1)] [_ _ (_ & W2 & W3 & _) _ _ _ _ Hfr Hap Hdata].
  unfold fat_frame in Hfr. rewrite Ei in *. destruct Hent as [Hz|(dc & Hat & Hni & Hz & He)]; [left; congruence|].
  right. exists dc. pose proof Hat as (Hdc & _). assert (dc ∉ l') by (by apply Hap).
  split_and!; [|done|by rewrite Hfr|].
  - rewrite (entry_at_ext (node s)); congruence.
  - rewrite Hdata, W3, Ho1 by done. done.
Qed.

Lemma hd_range l : Forall in_range l → 0 ≤ hd 0 l < 2 ^ 32.
Proof.
  destruct LO. destruct l as [|c l]; simpl; [lia|]. intros (Hc & _)%Forall_cons. unfold Fat32Inv.in_range, FAT_EOC in *. lia.
Qed.

(** The last step: the entry follows when the file has grown or is new. *)
Lemma finish_write_spec s s1 s2 l l' offset bs (Q : () → fatst D → Prop) :
  file_ok s l → resized s s1 (offset + zlen bs) → written s1 l offset bs s2 l' → bs ≠ [] → 0 ≤ offset ≤ size (node s) →
  offset + zlen bs < 2 ^ 32 → (∀ s', wrote_file s l offset bs s' l' → Q () s') →
  swp (sm_when ((size (node s) <? offset + zlen bs) || (cluster (node s) =? 0)) (write_dir_entry mem bpc)) s2 Q.
Proof.
  intros Hf Hrs Hw Hne Hoff Hmax HQ. pose proof (written_entry s s1 s2 l l' offset bs Hf Hrs Hw) as Hent.
  pose proof Hw as [Hch2 Hclu2 (W1 & _) (ext & El) _ _ _ _ _ _]. pose proof Hf as [_ Hclu (Hsz & Hsz32 & _) _]. pose proof Hrs as [_ _ Hs1 _ _].
  destruct ((size (node s) <? offset + zlen bs) || (cluster (node s) =? 0)) eqn:E; simpl.
  - apply (write_entry_spec s2 l'); [done|lia|rewrite Hclu2; apply hd_range, Hch2| |].
    { destruct Hent as [?|(dc & ? & ? & ? & _)]; eauto. }
    intros s3 Hch3 Hgr Hb Hn Hd He. apply HQ. eapply written_wrote; try done. unfold entry_ok. by rewrite Hn.
  - apply orb_false_iff in E as (E1%Z.ltb_ge & E2%Z.eqb_neq). apply swp_ret, HQ. eapply written_wrote; try done.
    + by apply grew_refl.
    + destruct l as [|c l]; [done|]. unfold entry_ok.
      replace (size (node s2)) with (size (node s)) by lia. replace (cluster (node s2)) with (cluster (node s)) by (rewrite Hclu2, El; done). done.
Qed.

Lemma fat32_write_spec s l bs offset :
  file_ok s l → bs ≠ [] → 0 ≤ offset ≤ size (node s) → offset + zlen bs < 2 ^ 31 →
  offset + zlen bs ≤ (zlen l + Z.of_nat (free (img_of s))) * bpc →
  swp (fat32_write mem bs offset) s (λ r s', r = zlen bs ∧ ∃ l', wrote_file s l offset bs s' l').
Proof.
  intros Hf Hne Hoff Hmax Hcap. pose proof Hf as [Hch Hclu (Hsz & Hsz32 & Hvs) Hent].
  pose proof Hch as [[Hg Hdk] Hl Hr Hnd]. assert (0 < zlen bs) by (destruct bs; simpl; [done|lia]).
  unfold fat32_write. rewrite (proj2 (Z.eqb_neq _ _)) by lia. apply swp_bind, get_node_spec.
  rewrite bytes_per_cluster_eq by done.
  replace (u64 (offset + zlen bs)) with (offset + zlen bs) by (unfold u64; rewrite Z.mod_small; lia). rewrite u32_small by lia.
  apply swp_bind.
  set (s1 := if size (node s) <? offset + zlen bs then mkFat (dev s) (set_size (offset + zlen bs) (node s)) (offset + zlen bs) else s).
  assert (resized s s1 (offset + zlen bs)) as Hrs.
  { unfold s1. destruct (Z.ltb_spec (size (node s)) (offset + zlen bs)); split; simpl; try done; [by apply geo_size|lia|lia]. }
  enough (swp (c ← first_cluster mem;
     if c =? 0 then mret 0 else
     w ← write_walk mem (Datatypes.S (Z.to_nat (offset / bpc))) offset c 0 bpc;
     if u64 (snd w + bpc) <=? offset then mret 0
     else if negb (mem bpc) then mret (-1)
     else left ← write_loop mem (Datatypes.S (length bs)) (fst w) (u64 (offset - snd w)) bs bpc;
       sm_when ((size (node s) <? offset + zlen bs) || (cluster (node s) =? 0)) (write_dir_entry mem bpc) ;;
       mret (zlen bs - left)) s1 (λ r s', r = zlen bs ∧ ∃ l', wrote_file s l offset bs s' l')) as H'.
  { unfold s1 in H'. destruct (size (node s) <? offset + zlen bs); exact H'. }
  clearbody s1. pose proof Hrs as [Ei Hg1 Hs1 Hv1 (Hc1 & Hd1 & Ho1)]. rewrite <- Ei in Hcap, Hl, Hdk.
  apply (write_chain_spec s1 l); [by split|congruence|done|lia|lia|done|].
  intros s2 l2 Hw. apply swp_bind. apply (finish_write_spec s s1 s2 l l2); [done|done|done|done|lia|lia|].
  intros s3 Hw3. apply swp_ret. split; [lia|eauto].
Qed.

(** C14. Writing to a file that has room puts the bytes at the offset, grows the
    file as needed and records the new size and first cluster in the
    directory; no cluster of another file changes, in the table or in the
    data, except for the entry, and no cluster is lost. *)
Theorem fat32_write_correct s l bs offset :
  file_ok s l → bs ≠ [] → 0 ≤ offset ≤ size (node s) → offset + zlen bs < 2 ^ 31 →
  offset + zlen bs ≤ (zlen l + Z.of_nat (free (img_of s))) * bpc →
  ∃ s' l', fat32_write mem bs offset s = Ok (zlen bs, s') ∧ wrote_file s l offset bs s' l'.
Proof.
  intros Hf Hne Hoff Hmax Hcap. destruct (swp_elim _ _ _ (fat32_write_spec s l bs offset Hf Hne Hoff Hmax Hcap)) as (r & s' & E & -> & l' & Hw).
  eauto.
Qed.

(** ** Truncating *)

(** Truncating a file gives all its clusters back and leaves an empty file
    whose entry says so; the clusters of other files are untouched. *)
Theorem fat32_truncate_correct s l :
  file_ok s l → size (node s) ≠ 0 →
  ∃ s', fat32_truncate mem 0 s = Ok (0, s') ∧ file_ok s' [] ∧ size (node s') = 0 ∧
    free (img_of s') = (free (img_of s) + length l)%nat ∧ others_kept s l s'.
Proof.
  intros [Hch Hclu (Hsz & Hsz32 & Hvs) Hent] Hne. pose proof Hch as [Hv Hl Hr Hnd]. pose proof Hv as (Hg & _).
  enough (swp (fat32_truncate mem 0) s (λ r s', r = 0 ∧ file_ok s' [] ∧ size (node s') = 0 ∧
    free (img_of s') = (free (img_of s) + length l)%nat ∧ others_kept s l s')) as Hw.
  { apply swp_elim in Hw as (r & s' & E & -> & Hw). eauto. }
  unfold fat32_truncate. simpl negb. cbn [negb]. apply swp_bind, get_node_spec. rewrite (proj2 (Z.eqb_neq _ _) Hne), Hclu.
  rewrite bytes_per_cluster_eq by done. apply swp_bind, (free_cluster_chain_spec image mem has_memory L LO s l); [done|].
  intros s1 (Hg1 & Hd1) Hi1 Hvs1 Hdat1 Hcl1. apply info_only_fields in Hi1 as (F1 & F2 & F3 & F4).
  pose proof (free_cleared L LO _ _ l Hl Hr Hnd Hcl1) as Hfree.
  apply swp_bind. unfold upd_node, swp at 1. apply swp_bind. unfold upd_node, swp at 1. apply swp_bind. unfold set_vnode_size, swp at 1.
  set (s2 := mkFat (dev s1) (set_size 0 (set_cluster 0 (node s1))) 0).
  apply swp_bind, (write_entry_spec s2 []); [|unfold s2; simpl; lia|unfold s2; simpl; lia| |].
  { split; [split; [by apply geo_size, geo_cluster|done]|done|by apply Forall_nil|by apply NoDup_nil]. }
  { destruct Hent as [Hz|(dc & Hat & Hni & Hz & _)]; [left; simpl; congruence|]. right. exists dc. split_and!; [|set_solver|].
    - rewrite (entry_at_ext (node s)); simpl; congruence.
    - simpl. rewrite Hcl1 by apply Hat. by rewrite decide_False. }
  intros s3 Hch3 Hgr3 _ Hn3 Hdat3 Hent3. apply swp_ret. pose proof (grew_free image L _ _ _ _ Hgr3) as Hf3. simpl in Hf3.
  destruct Hgr3 as [_ _ Hvs3 Hfr3]. unfold others_kept. split_and!; [done| |by rewrite Hn3|lia| |].
  - split; [done|by rewrite Hn3| |by rewrite Hn3]. rewrite Hn3, Hvs3. simpl. lia.
  - intros c Hc Hni Hz. rewrite Hfr3; [|done|set_solver|]; simpl; rewrite Hcl1 by done; by rewrite decide_False.
  - intros c Hc Hni Hz Hna. rewrite Hdat3; [by apply (data_same_cluster L LO)|done|]. rewrite (entry_at_ext (node s)); simpl; congruence.
Qed.
End files.
