(* ===== verification/Fat32Fd.v ===== *)
(** * Programs on FAT32 files

    FAT32 as the file system under the descriptors: its write keeps the laws
    the buffered calls rely on, so a program of [write], [writev] and [lseek]
    followed by [close] leaves its bytes in the clusters of the file. *)

From S2P Require Import Prelude CMem Bytes StateM Fd FdOps FdIo FdIoOps FdIoThm Fat32 Fat32Inv Fat32File Fat32Ops Fat32Free Fat32Thm.

Open Scope sm_scope.

(** ** The clusters of a file, computed *)

Fixpoint chain_from (L : layout) (n : nat) (img : list Z) (c : Z) : list Z :=
  match n with
  | O => []
  | Datatypes.S n => if (c <? 2) || (FAT_EOC <=? c) then [] else c :: chain_from L n img (fat_get L img c)
  end.

Section fat_files.
Context {D : Type} `{!BlockDev D} (image : D → list Z) `{!DiskLaws image}.
Context (mem : Z → bool) (has_memory : ∀ n, mem n = true).
Context (L : layout) (LO : layout_ok L).
Implicit Types (s : fatst D) (l : list Z).

Abbreviation img_of s := (image (dev s)).
Abbreviation file_ok := (file_ok image L).
Abbreviation file_bytes := (file_bytes image L).

Lemma chain_from_linked n : ∀ img l c,
  linked L img l → Forall (in_range L) l → (length l ≤ n)%nat → stands_at l c → chain_from L n img c = l.
Proof.
  induction n as [|n IH]; intros img l c Hl Hr Hn Hst; [by destruct l; simpl in *; [|lia]|]. simpl.
  destruct l as [|c' l]; simpl in Hst.
  - by rewrite (proj2 (Z.leb_le _ _) Hst), orb_true_r.
  - subst c'. apply Forall_cons in Hr as (Hc & Hr). assert (2 ≤ c < FAT_EOC) as Hc2 by (destruct LO; unfold in_range in Hc; lia).
    rewrite (proj2 (Z.ltb_ge c 2)), (proj2 (Z.leb_gt _ c)) by lia. simpl. apply linked_tail in Hl as (Hst & Hl).
    simpl in Hn. f_equal. apply IH; [done|done|lia|done].
Qed.

Definition clusters_of s : list Z := chain_from L (Z.to_nat (l_clusters L)) (img_of s) (cluster (node s)).

Lemma clusters_of_file s l : file_ok s l → clusters_of s = l.
Proof.
  intros [[_ Hl Hr Hnd] Hclu _ _]. unfold clusters_of. rewrite Hclu. destruct l as [|c l].
  - by destruct (Z.to_nat (l_clusters L)).
  - apply chain_from_linked; [done|done| |done]. pose proof (chain_short L LO _ Hr Hnd). lia.
Qed.

(** ** The interface of the descriptors *)

(** Calls that fault have no result; the laws cover those that return. *)
#[global] Instance fat_files : FileOps (fatst D) := {
  op_read _ n off s := match fat32_read mem n off s with Ok ((r, bs), s') => (r, bs, s') | _ => (-1, [], s) end;
  op_write _ bs off s := match fat32_write mem bs off s with Ok (r, s') => (r, s') | _ => (-1, s) end;
  op_flush _ s := match fat32_flush s with Ok (_, s') => s' | _ => s end;
  op_size _ s := vnode_size s }.

Definition fat_content (_ : vnode) s : list Z := file_bytes s (clusters_of s).

(** The file is sound and there are clusters for [n] bytes. *)
Definition fat_fits (_ : vnode) s (n : Z) : Prop :=
  ∃ l, file_ok s l ∧ n < 2 ^ 31 ∧ n ≤ (zlen l + Z.of_nat (free L (img_of s))) * bpc L.

Lemma fat_content_file v s l : file_ok s l → fat_content v s = file_bytes s l.
Proof. intros Hf. unfold fat_content. by rewrite (clusters_of_file s l). Qed.

#[global] Instance fat_files_laws : FileLaws fat_content fat_fits.
Proof.
  split.
  - intros v bs off s n (l & Hf & Hn & Hcap) Hne Hoff Hlen. rewrite (fat_content_file v s l Hf) in *.
    rewrite (length_file_bytes image L LO s l Hf) in Hoff.
    destruct (swp_elim _ _ _ (fat32_write_spec image mem has_memory L LO s l bs off Hf Hne Hoff ltac:(lia) ltac:(lia))) as (r & s' & E & -> & l' & Hf' & Hb & Hfree & _).
    exists s'. simpl. rewrite E. split_and!; [done| |by rewrite (fat_content_file v s' l')].
    exists l'. split_and!; [done|done|]. replace (zlen l' + Z.of_nat (free L (img_of s'))) with (zlen l + Z.of_nat (free L (img_of s))) by lia. done.
  - intros v off s n Hs. by exists (-1), s.
  - intros v s n (l & Hf & _). rewrite (fat_content_file v s l Hf), (length_file_bytes image L LO s l Hf). apply Hf.
Qed.

Context `{!SockOps (fatst D)}.

(** C13. A program of [write], [writev] and [lseek] on the only descriptor of a
    FAT32 file, then [close]: the calls return what they return on a file
    without a buffer, and in the end the clusters of the file hold the bytes of
    that file, its size and entry to match. The program keeps to these limits:
    every write starts within the file or at its end, the file stays below
    2^31 bytes and within its clusters and the free ones, no seek has the least
    [long] as its offset, no vector is empty, and the kernel has memory for
    buffers. *)
Theorem fat32_program_correct me fd p v limit (s : fdst (fatst D)) x ops :
  limit < 2 ^ 31 → stands_for fat_content fat_fits me fd p v limit s x → run_fits limit ops x →
  ∃ zs (s' s'' : fdst (fatst D)) l, io_run mem me fd ops s = Ok (zs, s') ∧ zs = fst (plain_run ops x) ∧
    syscall_close me fd s' = Ok (0, s'') ∧ file_ok (store s'') l ∧ file_bytes (store s'') l = pl_data (snd (plain_run ops x)).
Proof.
  intros Hlim Hx Hl.
  destruct (swp_elim _ _ _ (io_run_refines fat_content fat_fits mem me fd p v limit has_memory ltac:(lia) ops s x Hx Hl)) as (zs & s' & E & -> & f & Hh & _).
  destruct (swp_elim _ _ _ (close_flushes fat_content fat_fits me fd p v limit s' f _ Hh)) as (z & s'' & E' & -> & (Hc & l & Hf & _) & _).
  exists (fst (plain_run ops x)), s', s'', l. split_and!; [done|done|done|done|]. by rewrite <- (fat_content_file v).
Qed.
End fat_files.
