(* ===== verification/Fat32Demo.v ===== *)
(** * A small FAT32 volume

    Three clusters on a disk in memory: a directory, a file of three bytes, and
    a free cluster. The theorems on FAT32 at work on it. *)

From S2P Require Import Prelude CMem Bytes StateM Fd FdOps FdIo FdIoOps FdIoThm Fat32 Fat32Inv Fat32File Fat32Ops Fat32Thm Fat32Fd.

Open Scope sm_scope.

Module RamDisk.
#[local] Instance ram : BlockDev (list Z) := {
  blk_read sector n d :=
    if (0 <=? sector) && (0 <? n) && (sector * 512 + n <=? zlen d) then (Some (sub (Z.to_nat (sector * 512)) (Z.to_nat n) d), d)
    else (None, d);
  blk_write sector bs d :=
    if (0 <=? sector) && (sector * 512 + zlen bs <=? zlen d) then (true, splice (Z.to_nat (sector * 512)) bs d) else (false, d);
  blk_flush d := (true, d) }.

Definition whole_disk (d : list Z) : list Z := d.

#[local] Instance ram_laws : DiskLaws whole_disk.
Proof.
  split; unfold whole_disk.
  - intros sector n d Hs Hn Hd. exists d. split; [|done]. simpl.
    by rewrite (proj2 (Z.leb_le 0 sector)), (proj2 (Z.ltb_lt 0 n)), (proj2 (Z.leb_le _ (zlen d))).
  - intros sector bs d Hs Hne Hm Hd. eexists. split; [|done]. simpl.
    by rewrite (proj2 (Z.leb_le 0 sector)), (proj2 (Z.leb_le _ (zlen d))).
Qed.

#[local] Instance ram_no_sockets : SockOps (fatst (list Z)) := { sock_send _ _ _ _ := None; sock_recv _ _ _ := None }.

(** One table in sector 2, the clusters from sector 3 on. *)
Definition geometry : layout := mkLayout 2 1 1 3 1 3.

Lemma geometry_ok : layout_ok geometry.
Proof. by split; vm_compute. Qed.

(** The entry of the file, in the directory cluster 2: cluster 3, size 3. *)
Definition entry : list Z := replicate 20 0 ++ [0; 0] ++ replicate 4 0 ++ [3; 0] ++ [3; 0; 0; 0].
Definition disk : list Z :=
  replicate 1024 0 ++
  concat (le_bytes 4 <$> [0x0FFFFFF8; 0x0FFFFFFF; 0x0FFFFFFF; 0x0FFFFFFF; 0]) ++ replicate 492 0 ++
  entry ++ replicate 480 0 ++ [1; 2; 3] ++ replicate 509 0 ++ replicate 512 0.

Definition file_node : fat32_internal_data :=
  mkNode 3 3 1 32 3 1 512 2 3 0 1 (mkFsinfo (replicate 488 0) 1 2 (replicate 16 0)) 1 0 3.

Definition volume : fatst (list Z) := mkFat disk file_node 3.

Definition memory (_ : Z) : bool := true.

Lemma volume_ok : file_ok whole_disk geometry volume [3].
Proof.
  split.
  - split; [split; [split|]; try (by vm_compute); by left|by vm_compute|by repeat constructor|apply NoDup_singleton].
  - done.
  - by vm_compute.
  - right. exists 2. split_and!; [by vm_compute|set_solver|by vm_compute|by vm_compute].
Qed.

Lemma fat32_read_correct_witness :
  ∃ s' bs, fat32_read memory 10 1 volume = Ok ((zlen bs, bs), s') ∧ same_fat whole_disk volume s' ∧ bs = [2; 3].
Proof. apply (fat32_read_correct whole_disk memory (λ _, eq_refl) geometry geometry_ok volume [3] 10 1 volume_ok); lia. Defined.

(** 600 bytes from offset 2 on take the free cluster. *)
Lemma fat32_write_correct_witness :
  ∃ s' l', fat32_write memory (replicate 600 7) 2 volume = Ok (600, s') ∧
    wrote_file whole_disk geometry volume [3] 2 (replicate 600 7) s' l'.
Proof.
  apply (fat32_write_correct whole_disk memory (λ _, eq_refl) geometry geometry_ok volume [3] (replicate 600 7) 2 volume_ok);
    by vm_compute.
Defined.

Lemma fat32_truncate_correct_witness :
  ∃ s', fat32_truncate memory 0 volume = Ok (0, s') ∧ file_ok whole_disk geometry s' [] ∧ size (node s') = 0 ∧
    free geometry (dev s') = 2%nat ∧ others_kept whole_disk geometry volume [3] s'.
Proof. apply (fat32_truncate_correct whole_disk memory (λ _, eq_refl) geometry geometry_ok volume [3] volume_ok). done. Defined.

#[local] Instance ram_files : FileOps (fatst (list Z)) := fat_files memory.

(** The file open in descriptor 0 of a process. *)
Definition v : vnode := mkVnode 7 VNODE_TYPE_FILE true.
Definition opened : file_descriptor := mkFile 1 (Some (mkVops true true true)) 0 0 0 50 None 0.
Definition start : fdst (fatst (list Z)) :=
  mkFd [Some (mkTable 64 (100 :: replicate 63 0) (replicate 64 0) 1)] {[100 := opened]} {[50 := v]} volume [].

Lemma open_stands :
  stands_for (fat_content whole_disk geometry) (fat_fits whole_disk geometry) 0 0 100 v 1024 start (mkPlain 0 [1; 2; 3]).
Proof.
  exists opened. split; [|done]. split; try done.
  - eexists. split; [done|]. split; [vm_compute; by split|done].
  - by eexists.
  - split; [|by left]. exists [3]. split; [apply volume_ok|]. by vm_compute.
Qed.

Lemma fat32_program_correct_witness :
  ∃ zs (s' s'' : fdst (fatst (list Z))) l, io_run memory 0 0 [IoSeek 1 SEEK_SET; IoWrite [9; 8]; IoWritev [[5]; [6; 7]]] start = Ok (zs, s') ∧
    zs = [1; 2; 3] ∧ syscall_close 0 0 s' = Ok (0, s'') ∧ file_ok whole_disk geometry (store s'') l ∧
    file_bytes whole_disk geometry (store s'') l = [1; 9; 8; 5; 6; 7].
Proof.
  apply (fat32_program_correct whole_disk memory (λ _, eq_refl) geometry geometry_ok 0 0 100 v 1024 start (mkPlain 0 [1; 2; 3])
    [IoSeek 1 SEEK_SET; IoWrite [9; 8]; IoWritev [[5]; [6; 7]]] eq_refl open_stands).
  repeat split; try done; repeat constructor; vm_compute; done.
Defined.

(** On a full volume a write stops short, but the size, recorded before the
    clusters are found, counts all bytes, more than the chain can hold; so
    does the entry. *)
Definition after_full : res (Z * Z * Z * list Z) :=
  match fat32_write memory (replicate 2000 7) 0 volume with
  | Ok (r, s) => Ok (r, size (node s), vnode_size s, clusters_of whole_disk geometry s)
  | Fault => Fault
  | NoFuel => NoFuel
  end.
Example full_volume_size : after_full = Ok (1024, 2000, 2000, [3; 4]).
Proof. by vm_compute. Qed.
End RamDisk.
