(* ===== verification/Kalloc.v ===== *)
(** * The kernel heap

    [kernel/memory/kalloc.c]: six free lists of slots on every core, refilled
    a page at a time, and whole pages for larger blocks.  A block lies behind
    16 bytes of metadata, between two red zones of 16 bytes.

    Memory is bytes at virtual addresses; touching a page that is not mapped
    faults, and so does taking a lock that is held.  The frames, the virtual
    pages, the page tables and the areas of the kernel are an interface,
    [KernelVm]: the sources have them in other files. *)

From S2P Require Import Prelude CMem Bytes StateM.

Open Scope sm_scope.

Definition BLOCK_SIZE : Z := 0x1000.
Definition KALLOC_REDZONE_SIZE : Z := 16.
Definition KALLOC_REDZONE_MAGIC : Z := 0xFDEAABEE.
Definition METADATA_SIZE : Z := 16.
Definition metadata_overhead : Z := METADATA_SIZE + 2 * KALLOC_REDZONE_SIZE.

(** [PAGE_PRESENT | PAGE_WRITABLE], and with [PAGE_USER] and
    [PAGE_NO_EXECUTE]. *)
Definition PAGE_RW : Z := 3.
Definition PAGE_RW_USER : Z := 7.
Definition PAGE_RW_NX : Z := Z.lor 3 (Z.shiftl 1 63).

Inductive bucket := B64 | B128 | B256 | B512 | B1024 | B2048.

#[global] Instance bucket_eq_dec : EqDecision bucket.
Proof. solve_decision. Defined.

Definition bsize (b : bucket) : Z :=
  match b with B64 => 64 | B128 => 128 | B256 => 256 | B512 => 512 | B1024 => 1024 | B2048 => 2048 end.

(** The head of a free list and the number of its slots, by bucket. *)
Record kalloc_cpu_cache := mkCache { c_head : bucket → Z; c_count : bucket → Z; c_lock : bool }.

Definition set_bucket (b : bucket) (head count : Z) (c : kalloc_cpu_cache) : kalloc_cpu_cache :=
  mkCache (λ b', if decide (b' = b) then head else c_head c b') (λ b', if decide (b' = b) then count else c_count c b') (c_lock c).
Definition set_lock (x : bool) (c : kalloc_cpu_cache) : kalloc_cpu_cache := mkCache (c_head c) (c_count c) x.

(** Frames; the bitmap of virtual pages of the heap; the page tables and the
    areas of the kernel.  A page number is mapped or not; [vm_content] is what
    a byte of a page just mapped holds. *)
Class KernelVm (St : Type) := {
  vm_phys_alloc : Z → St → Z * St;
  vm_phys_free : Z → Z → St → St;
  vm_vaddr_alloc : Z → St → Z * St;
  vm_vaddr_free : Z → Z → St → St;
  vm_map : Z → Z → Z → Z → St → St;
  vm_unmap : Z → Z → St → St;
  vm_register : Z → Z → Z → Z → St → St;
  vm_unregister : Z → St → St;
  vm_find : Z → St → option Z;
  vm_mapped : Z → St → bool;
  vm_content : Z → St → Z }.

Section kalloc.
Context {St : Type} `{!KernelVm St}.

Record kst := mkK { kmem : Z → Z; vm : St; cpu_caches : list kalloc_cpu_cache; global_lock : bool }.

Definition set_mem (m : Z → Z) (s : kst) : kst := mkK m (vm s) (cpu_caches s) (global_lock s).
Definition set_vm (v : St) (s : kst) : kst := mkK (kmem s) v (cpu_caches s) (global_lock s).
Definition set_caches (c : list kalloc_cpu_cache) (s : kst) : kst := mkK (kmem s) (vm s) c (global_lock s).
Definition set_global (x : bool) (s : kst) : kst := mkK (kmem s) (vm s) (cpu_caches s) x.

(** ** Memory *)

Definition bytes_at (m : Z → Z) (a n : Z) : list Z := m <$> seqZ a n.
Definition put_bytes (a : Z) (bs : list Z) (m : Z → Z) : Z → Z := fun x =>
  if (a <=? x) && (x <? a + zlen bs) then default 0 (bs !! Z.to_nat (x - a)) else m x.

Definition pages_mapped (v : St) (a n : Z) : bool :=
  forallb (λ p, vm_mapped p v) (seqZ (a / BLOCK_SIZE) ((a + n - 1) / BLOCK_SIZE - a / BLOCK_SIZE + 1)).

Definition load (a n : Z) : SM kst Z := fun s =>
  if pages_mapped (vm s) a n then Ok (le_value (bytes_at (kmem s) a n), s) else Fault.
Definition store (a : Z) (bs : list Z) : SM kst () := fun s =>
  if pages_mapped (vm s) a (zlen bs) then Ok ((), set_mem (put_bytes a bs (kmem s)) s) else Fault.
Definition load64 (a : Z) : SM kst Z := load a 8.
Definition load32 (a : Z) : SM kst Z := load a 4.
Definition store64 (a w : Z) : SM kst () := store a (le_bytes 8 w).
Definition store32 (a w : Z) : SM kst () := store a (le_bytes 4 w).
Definition memset (a c n : Z) : SM kst () := store a (replicate (Z.to_nat n) c).

(** ** Locks and caches *)

Definition cache (cpu : nat) : SM kst kalloc_cpu_cache := fun s =>
  match cpu_caches s !! cpu with Some c => Ok (c, s) | None => Fault end.
Definition upd_cache (cpu : nat) (f : kalloc_cpu_cache → kalloc_cpu_cache) : SM kst () := fun s =>
  match cpu_caches s !! cpu with Some c => Ok ((), set_caches (<[cpu := f c]> (cpu_caches s)) s) | None => Fault end.

Definition lock_cpu (cpu : nat) : SM kst () :=
  c ← cache cpu; if c_lock c then sm_lift Fault else upd_cache cpu (set_lock true).
Definition unlock_cpu (cpu : nat) : SM kst () := upd_cache cpu (set_lock false).
Definition lock_global : SM kst () := fun s => if global_lock s then Fault else Ok ((), set_global true s).
Definition unlock_global : SM kst () := fun s => Ok ((), set_global false s).

Definition vm_do {A} (f : St → A * St) : SM kst A := fun s => let '(a, v) := f (vm s) in Ok (a, set_vm v s).
Definition vm_run (f : St → St) : SM kst () := fun s => Ok ((), set_vm (f (vm s)) s).

(** Mapping shows the content of the frames. *)
Definition map_pages (virt phys n flags : Z) : SM kst () := fun s =>
  let v := vm_map virt phys n flags (vm s) in
  Ok ((), mkK (λ x, if (virt <=? x) && (x <? virt + n * BLOCK_SIZE) then vm_content x v else kmem s x) v (cpu_caches s) (global_lock s)).
(** ** Red zones *)

Fixpoint setup_redzone_loop (n : nat) (p i : Z) : SM kst () :=
  match n with
  | O => mret ()
  | Datatypes.S n => store32 (u64 (p + 4 * i)) KALLOC_REDZONE_MAGIC ;; setup_redzone_loop n p (i + 1)
  end.
Definition setup_redzone (ptr size : Z) : SM kst () := setup_redzone_loop (Z.to_nat (size / 4)) ptr 0.

Fixpoint check_redzone_loop (n : nat) (p i : Z) : SM kst bool :=
  match n with
  | O => mret true
  | Datatypes.S n =>
      w ← load32 (u64 (p + 4 * i));
      if negb (w =? KALLOC_REDZONE_MAGIC) then mret false else check_redzone_loop n p (i + 1)
  end.
Definition check_redzone (ptr size : Z) : SM kst bool := check_redzone_loop (Z.to_nat (size / 4)) ptr 0.

(** [[metadata] [red_before] [data] [red_after]], from the address of the
    metadata on: the address of the data. *)
Definition setup_block (slot size : Z) : SM kst Z :=
  store64 slot size ;;
  store32 (u64 (slot + 8)) KALLOC_REDZONE_MAGIC ;;
  let red_before := u64 (slot + METADATA_SIZE) in
  setup_redzone red_before KALLOC_REDZONE_SIZE ;;
  let data := u64 (red_before + KALLOC_REDZONE_SIZE) in
  let red_after := u64 (data + size) in
  setup_redzone red_after KALLOC_REDZONE_SIZE ;;
  mret data.

(** ** Pages *)

(** The error is logged and the address, 0, used all the same. *)
Definition vaddr_alloc_locked (page_count : Z) : SM kst Z := vm_do (vm_vaddr_alloc page_count).

Definition alloc_page_locked : SM kst Z :=
  phys ← vm_do (vm_phys_alloc 1);
  virt ← vaddr_alloc_locked 1;
  map_pages virt phys 1 PAGE_RW_USER ;;
  vm_run (vm_register phys virt BLOCK_SIZE PAGE_RW_NX) ;;
  mret virt.

(** ** Slots *)

(** [*(void** )slot = cc->c_B; cc->c_B = slot; cc->c_B_count++]. *)
Definition push_slot (cpu : nat) (b : bucket) (slot : Z) : SM kst () :=
  c ← cache cpu;
  store64 slot (c_head c b) ;;
  upd_cache cpu (set_bucket b slot (u64 (c_count c b + 1))).

Fixpoint refill_loop (n : nat) (cpu : nat) (b : bucket) (page i : Z) : SM kst () :=
  match n with
  | O => mret ()
  | Datatypes.S n => push_slot cpu b (u64 (page + u64 (i * bsize b))) ;; refill_loop n cpu b page (i + 1)
  end.

Definition refill (cpu : nat) (b : bucket) : SM kst () :=
  lock_global ;;
  page ← alloc_page_locked;
  unlock_global ;;
  refill_loop (Z.to_nat (BLOCK_SIZE / bsize b)) cpu b page 0.

Definition pop_slot (cpu : nat) (b : bucket) : SM kst Z :=
  c ← cache cpu;
  next ← load64 (c_head c b);
  upd_cache cpu (set_bucket b next (u64 (c_count c b - 1))) ;;
  mret (c_head c b).

Definition slab_alloc (cpu : nat) (b : bucket) (size : Z) : SM kst Z :=
  lock_cpu cpu ;;
  c ← cache cpu;
  sm_when (c_count c b =? 0) (refill cpu b) ;;
  slot ← pop_slot cpu b;
  unlock_cpu cpu ;;
  setup_block slot size.

(** The bucket for [total] bytes, if there is one. *)
Definition pick_bucket (total : Z) : option bucket :=
  if total <=? 64 then Some B64
  else if total <=? 128 then Some B128
  else if total <=? 256 then Some B256
  else if total <=? 512 then Some B512
  else if total <=? 1024 then Some B1024
  else if total <=? 2048 then Some B2048
  else None.

Definition page_count_of (total_size : Z) : Z := ALIGN_UP total_size BLOCK_SIZE / BLOCK_SIZE.

(** ** The calls *)

Definition kalloc (cpu : nat) (size : Z) : SM kst Z :=
  if size =? 0 then mret 0
  else
    match pick_bucket (u64 (size + metadata_overhead)) with
    | Some b => slab_alloc cpu b size
    | None =>
        let page_count := page_count_of (u64 (size + metadata_overhead)) in
        lock_global ;;
        phys ← vm_do (vm_phys_alloc page_count);
        virt ← vaddr_alloc_locked page_count;
        map_pages virt phys page_count PAGE_RW ;;
        vm_run (vm_register phys virt (u64 (page_count * BLOCK_SIZE)) PAGE_RW_NX) ;;
        unlock_global ;;
        setup_block virt size
    end.

(** From the choice of the bucket on, with the lock of the cache held. *)
Definition kfree_block (cpu : nat) (meta size : Z) : SM kst () :=
  let total_size := u64 (size + metadata_overhead) in
  match pick_bucket total_size with
  | Some b => memset meta 0 (bsize b) ;; push_slot cpu b meta ;; unlock_cpu cpu
  | None =>
      unlock_cpu cpu ;;
      lock_global ;;
      memset meta 0 total_size ;;
      v ← vm_do (λ v, (vm_find meta v, v));
      match v with
      | None => unlock_global
      | Some phys_address =>
          let page_count := page_count_of total_size in
          vm_run (vm_phys_free phys_address page_count) ;;
          vm_run (vm_unmap meta page_count) ;;
          vm_run (vm_unregister meta) ;;
          vm_run (vm_vaddr_free meta page_count) ;;
          unlock_global
      end
  end.

(** The tests [kfree] and [kfree2] share: the size in the metadata when the
    magic and both red zones are intact. *)
Definition check_block (meta ptr : Z) : SM kst (option Z) :=
  magic ← load32 (u64 (meta + 8));
  if negb (magic =? KALLOC_REDZONE_MAGIC) then mret None else
  ok ← check_redzone (u64 (meta + METADATA_SIZE)) KALLOC_REDZONE_SIZE;
  if negb ok then mret None else
  size ← load64 meta;
  ok ← check_redzone (u64 (ptr + size)) KALLOC_REDZONE_SIZE;
  if negb ok then mret None else mret (Some size).

Definition kfree (cpu : nat) (ptr size : Z) : SM kst () :=
  if (ptr =? 0) || (size =? 0) then mret () else
  lock_cpu cpu ;;
  let meta := u64 (ptr - METADATA_SIZE - KALLOC_REDZONE_SIZE) in
  r ← check_block meta ptr;
  match r with None => unlock_cpu cpu | Some _ => kfree_block cpu meta size end.

Definition kfree2 (cpu : nat) (ptr : Z) : SM kst () :=
  if ptr =? 0 then mret () else
  lock_cpu cpu ;;
  let meta := u64 (ptr - METADATA_SIZE - KALLOC_REDZONE_SIZE) in
  r ← check_block meta ptr;
  match r with None => unlock_cpu cpu | Some size => kfree_block cpu meta size end.
End kalloc.

Arguments kst : clear implicits.
