(* ===== verification/KallocHeap.v ===== *)
(** * The regions of the kernel heap

    Memory of the heap is cut into regions that do not overlap: free slots,
    each on one list, and blocks in use with their metadata and red zones.
    What the parts of the calls do to the regions. *)

From S2P Require Import Prelude CMem Bytes StateM Kalloc.

Open Scope sm_scope.

(** ** Bytes of memory *)

Lemma length_bytes_at m a n : zlen (bytes_at m a n) = Z.max n 0.
Proof. unfold bytes_at. rewrite length_fmap, length_seqZ. lia. Qed.

Lemma lookup_bytes_at m a n (i : nat) : Z.of_nat i < n → bytes_at m a n !! i = Some (m (a + Z.of_nat i)).
Proof. intros Hi. unfold bytes_at. rewrite list_lookup_fmap, lookup_seqZ_lt by lia. done. Qed.

Lemma lookup_bytes_at_ge m a n (i : nat) : n ≤ Z.of_nat i → bytes_at m a n !! i = None.
Proof. intros Hi. apply lookup_ge_None_2. pose proof (length_bytes_at m a n). lia. Qed.

Lemma bytes_at_ext m m' a n : (∀ x, a ≤ x < a + n → m' x = m x) → bytes_at m' a n = bytes_at m a n.
Proof.
  intros H. apply list_eq. intros i. destruct (decide (Z.of_nat i < n)).
  - rewrite !lookup_bytes_at by done. f_equal. apply H. lia.
  - by rewrite !lookup_bytes_at_ge by lia.
Qed.

Lemma bytes_at_put a bs m : bytes_at (put_bytes a bs m) a (zlen bs) = bs.
Proof.
  apply list_eq. intros i. destruct (decide (Z.of_nat i < zlen bs)).
  - rewrite lookup_bytes_at by done. unfold put_bytes. rewrite (proj2 (Z.leb_le _ _)), (proj2 (Z.ltb_lt _ _)) by lia. simpl.
    replace (Z.to_nat (a + Z.of_nat i - a)) with i by lia. destruct (lookup_lt_is_Some_2 bs i) as (x & ->); [lia|done].
  - rewrite lookup_bytes_at_ge by lia. by rewrite lookup_ge_None_2 by lia.
Qed.

(** Nothing changed outside [a, a + n). *)
Definition changed (m m' : Z → Z) (a n : Z) : Prop := ∀ x, ¬ (a ≤ x < a + n) → m' x = m x.

Lemma changed_put a bs m : changed m (put_bytes a bs m) a (zlen bs).
Proof.
  intros x Hx. unfold put_bytes. destruct (Z.leb_spec a x); [|done]. destruct (Z.ltb_spec x (a + zlen bs)); [lia|done].
Qed.

Lemma changed_mono m m' a n b k : changed m m' a n → b ≤ a → a + n ≤ b + k → changed m m' b k.
Proof. intros H H1 H2 x Hx. apply H. lia. Qed.

Lemma changed_trans m m1 m2 a n : changed m m1 a n → changed m1 m2 a n → changed m m2 a n.
Proof. intros H1 H2 x Hx. rewrite H2, H1 by done. done. Qed.

Lemma changed_bytes m m' a n b k :
  changed m m' a n → b + k ≤ a ∨ a + n ≤ b → bytes_at m' b k = bytes_at m b k.
Proof. intros H Hd. apply bytes_at_ext. intros x Hx. apply H. lia. Qed.

Lemma bytes_at_join m a n k : 0 ≤ n → 0 ≤ k → bytes_at m a (n + k) = bytes_at m a n ++ bytes_at m (a + n) k.
Proof. intros Hn Hk. unfold bytes_at. rewrite seqZ_app by lia. apply fmap_app. Qed.

Lemma bytes_at_sub m a n i k :
  0 ≤ i → 0 ≤ k → i + k ≤ n → bytes_at m (a + i) k = sub (Z.to_nat i) (Z.to_nat k) (bytes_at m a n).
Proof.
  intros Hi Hk Hn. apply list_eq. intros j. rewrite lookup_sub. case_decide.
  - rewrite !lookup_bytes_at by lia. do 2 f_equal. lia.
  - by rewrite lookup_bytes_at_ge by lia.
Qed.

Lemma bytes_at_splice m a n i bs :
  0 ≤ i → i + zlen bs ≤ n → bytes_at (put_bytes (a + i) bs m) a n = splice (Z.to_nat i) bs (bytes_at m a n).
Proof.
  intros Hi Hn. pose proof (length_bytes_at m a n). apply list_eq. intros j. rewrite lookup_splice_in by lia.
  destruct (decide (Z.of_nat j < n)).
  - rewrite !lookup_bytes_at by done. unfold put_bytes. case_decide.
    + rewrite (proj2 (Z.leb_le _ _)), (proj2 (Z.ltb_lt _ _)) by lia. simpl.
      replace (Z.to_nat (a + Z.of_nat j - (a + i))) with (j - Z.to_nat i)%nat by lia.
      destruct (lookup_lt_is_Some_2 bs (j - Z.to_nat i)) as (x & ->); [lia|done].
    + destruct (Z.leb_spec (a + i) (a + Z.of_nat j)); [|done]. destruct (Z.ltb_spec (a + Z.of_nat j) (a + i + zlen bs)); [lia|done].
  - rewrite !lookup_bytes_at_ge by lia. by rewrite decide_False by lia.
Qed.

Lemma le_bytes_value bs : Forall (λ b, 0 ≤ b < 256) bs → le_bytes (length bs) (le_value bs) = bs.
Proof.
  induction bs as [|b bs IH]; [done|]. intros (Hb & Hbs)%Forall_cons. rewrite le_value_cons by done. simpl.
  f_equal; [unfold u8; dlia|]. rewrite Z.shiftr_div_pow2 by lia. change (2 ^ 8) with 256.
  replace ((b + 256 * le_value bs) / 256) with (le_value bs) by dlia. by apply IH.
Qed.

(** ** What the virtual memory promises *)

Section laws.
Context {St : Type} `{!KernelVm St}.

Definition in_pages (virt n p : Z) : Prop := virt / BLOCK_SIZE ≤ p < virt / BLOCK_SIZE + n.

(** [taken] are the pages of the heap handed out, [areas] the areas registered
    in the kernel by their address, [room v n] says [n] pages are left. *)
Class VmLaws (taken : St → Z → Prop) (areas : St → Z → option Z) (room : St → Z → Prop) : Prop := {
  law_room v n k : room v n → k ≤ n → room v k;
  law_phys_alloc n v : ∃ pa v', vm_phys_alloc n v = (pa, v') ∧ (∀ p, taken v' p ↔ taken v p) ∧ (∀ a, areas v' a = areas v a) ∧
    (∀ p, vm_mapped p v' = vm_mapped p v) ∧ (∀ k, room v k → room v' k);
  law_vaddr_alloc n v k : room v k → 0 < n ≤ k → ∃ va v', vm_vaddr_alloc n v = (va, v') ∧
    0 < va ∧ va mod BLOCK_SIZE = 0 ∧ va + n * BLOCK_SIZE < 2 ^ 64 ∧ (∀ p, in_pages va n p → ¬ taken v p) ∧
    (∀ p, taken v' p ↔ taken v p ∨ in_pages va n p) ∧ (∀ a, areas v' a = areas v a) ∧
    (∀ p, vm_mapped p v' = vm_mapped p v) ∧ room v' (k - n);
  law_map virt pa n flags v : let v' := vm_map virt pa n flags v in
    (∀ p, taken v' p ↔ taken v p) ∧ (∀ a, areas v' a = areas v a) ∧
    (∀ p, in_pages virt n p → vm_mapped p v' = true) ∧ (∀ p, vm_mapped p v = true → vm_mapped p v' = true) ∧ (∀ k, room v k → room v' k);
  law_register pa virt n flags v : let v' := vm_register pa virt n flags v in areas v virt = None →
    (∀ p, taken v' p ↔ taken v p) ∧ areas v' virt = Some pa ∧ (∀ a, a ≠ virt → areas v' a = areas v a) ∧
    (∀ p, vm_mapped p v' = vm_mapped p v) ∧ (∀ k, room v k → room v' k);
  law_find a v : vm_find a v = areas v a;
  law_phys_free pa n v : let v' := vm_phys_free pa n v in
    (∀ p, taken v' p ↔ taken v p) ∧ (∀ a, areas v' a = areas v a) ∧
    (∀ p, vm_mapped p v' = vm_mapped p v) ∧ (∀ k, room v k → room v' k);
  law_unmap virt n v : let v' := vm_unmap virt n v in
    (∀ p, taken v' p ↔ taken v p) ∧ (∀ a, areas v' a = areas v a) ∧
    (∀ p, ¬ in_pages virt n p → vm_mapped p v' = vm_mapped p v) ∧ (∀ k, room v k → room v' k);
  law_unregister virt v : let v' := vm_unregister virt v in
    (∀ p, taken v' p ↔ taken v p) ∧ areas v' virt = None ∧ (∀ a, a ≠ virt → areas v' a = areas v a) ∧
    (∀ p, vm_mapped p v' = vm_mapped p v) ∧ (∀ k, room v k → room v' k);
  law_vaddr_free virt n v : let v' := vm_vaddr_free virt n v in
    (∀ p, in_pages virt n p → taken v p) →
    (∀ p, taken v' p ↔ taken v p ∧ ¬ in_pages virt n p) ∧ (∀ a, areas v' a = areas v a) ∧
    (∀ p, vm_mapped p v' = vm_mapped p v) ∧ (∀ k, room v k → room v' k) }.
End laws.

Section heap.
Context {St : Type} `{!KernelVm St} (taken : St → Z → Prop) (areas : St → Z → option Z) (room : St → Z → Prop).
Context `{!VmLaws taken areas room}.
Implicit Types (s : kst St) (m : Z → Z) (a n : Z).

(** ** Touching memory of the heap *)

(** Bytes [a, a + n) are on pages of the heap. *)
Definition own (v : St) a n : Prop :=
  0 < a ∧ 0 < n ∧ a + n < 2 ^ 64 ∧ ∀ p, a / BLOCK_SIZE ≤ p ≤ (a + n - 1) / BLOCK_SIZE → taken v p ∧ vm_mapped p v = true.

Lemma own_sub v a n b k : own v a n → a ≤ b → 0 < k → b + k ≤ a + n → own v b k.
Proof.
  intros (H0 & Hn & Hm & Hp) Hb Hk He. split_and!; [lia|lia|lia|]. intros p Hpp. apply Hp. unfold BLOCK_SIZE in *. dlia.
Qed.

Lemma own_mapped v a n : own v a n → pages_mapped v a n = true.
Proof.
  intros (_ & _ & _ & Hp). unfold pages_mapped. apply forallb_forall. intros p Hin%list_elem_of_In%elem_of_seqZ. apply Hp. lia.
Qed.

Lemma load_spec s a n (Q : Z → kst St → Prop) :
  own (vm s) a n → Q (le_value (bytes_at (kmem s) a n)) s → swp (load a n) s Q.
Proof. intros Ho HQ. unfold load, swp. by rewrite own_mapped. Qed.

Lemma store_spec_mem s a bs (Q : () → kst St → Prop) :
  own (vm s) a (zlen bs) → Q () (set_mem (put_bytes a bs (kmem s)) s) → swp (store a bs) s Q.
Proof. intros Ho HQ. unfold store, swp. by rewrite own_mapped. Qed.

(** A store as a change of memory. *)
Lemma store_changed s a bs (Q : () → kst St → Prop) :
  own (vm s) a (zlen bs) →
  (∀ m', changed (kmem s) m' a (zlen bs) → bytes_at m' a (zlen bs) = bs → Q () (set_mem m' s)) → swp (store a bs) s Q.
Proof. intros Ho HQ. apply store_spec_mem; [done|]. apply HQ; [apply changed_put|apply bytes_at_put]. Qed.

(** ** The block in a slot *)

Definition redzone : list Z := concat (replicate 4 (le_bytes 4 KALLOC_REDZONE_MAGIC)).

(** Metadata, red zones and the bytes [bs] between them, from [a] on. *)
Record block m a (bs : list Z) : Prop := mkBlock {
  bl_size : bytes_at m a 8 = le_bytes 8 (zlen bs);
  bl_magic : bytes_at m (a + 8) 4 = le_bytes 4 KALLOC_REDZONE_MAGIC;
  bl_before : bytes_at m (a + 16) 16 = redzone;
  bl_data : bytes_at m (a + 32) (zlen bs) = bs;
  bl_after : bytes_at m (a + 32 + zlen bs) 16 = redzone }.

Lemma block_kept m m' a bs b n : block m a bs → changed m m' b n → a + 48 + zlen bs ≤ b ∨ b + n ≤ a → block m' a bs.
Proof. intros [] Hc Hd. split; rewrite (changed_bytes m m' b n _ _ Hc) by lia; done. Qed.

Lemma u64_addr x : 0 ≤ x < 2 ^ 64 → u64 x = x.
Proof. intros H. unfold u64. by rewrite Z.mod_small. Qed.

Lemma setup_redzone_loop_spec k : ∀ s p i (Q : () → kst St → Prop),
  0 ≤ p + 4 * i → (0 < k)%nat → own (vm s) (p + 4 * i) (4 * Z.of_nat k) →
  (∀ m', changed (kmem s) m' (p + 4 * i) (4 * Z.of_nat k) →
    bytes_at m' (p + 4 * i) (4 * Z.of_nat k) = concat (replicate k (le_bytes 4 KALLOC_REDZONE_MAGIC)) → Q () (set_mem m' s)) →
  swp (setup_redzone_loop k p i) s Q.
Proof.
  induction k as [|k IH]; intros s p i Q Hp Hk Ho HQ; [lia|]. cbn [setup_redzone_loop]. unfold store32.
  pose proof Ho as (_ & _ & Hmax & _). rewrite u64_addr by lia.
  apply swp_bind, store_changed; [eapply own_sub; [done|simpl; lia..]|]. intros m1 C1 B1. rewrite length_le_bytes in C1, B1. change (Z.of_nat 4) with 4 in C1, B1.
  destruct k as [|k].
  { apply swp_ret, HQ; [exact C1|exact B1]. }
  apply IH; [lia|lia|eapply own_sub; [done|simpl; lia..]|]. intros m2 C2 B2. cbn [kmem set_mem] in C2. apply (HQ m2).
  - eapply changed_trans; eapply changed_mono; [exact C1|lia|lia|exact C2|lia|lia].
  - replace (4 * Z.of_nat (Datatypes.S (Datatypes.S k))) with (4 + 4 * Z.of_nat (Datatypes.S k)) by lia.
    rewrite bytes_at_join by lia. replace (p + 4 * i + 4) with (p + 4 * (i + 1)) by lia. rewrite B2.
    rewrite (changed_bytes m1 m2 _ _ _ _ C2) by lia. by rewrite B1.
Qed.

Lemma setup_redzone_spec s p (Q : () → kst St → Prop) :
  own (vm s) p 16 →
  (∀ m', changed (kmem s) m' p 16 → bytes_at m' p 16 = redzone → Q () (set_mem m' s)) →
  swp (setup_redzone p KALLOC_REDZONE_SIZE) s Q.
Proof.
  intros Ho HQ. pose proof Ho as (Hp & _). replace p with (p + 4 * 0) in Ho, HQ by lia.
  change (swp (setup_redzone_loop 4 p 0) s Q). apply setup_redzone_loop_spec; [lia|lia|exact Ho|exact HQ].
Qed.

(** What [check_redzone] finds. *)
Fixpoint zone_ok (k : nat) m (p : Z) : bool :=
  match k with
  | O => true
  | Datatypes.S k => (le_value (bytes_at m p 4) =? KALLOC_REDZONE_MAGIC) && zone_ok k m (p + 4)
  end.

Lemma check_redzone_loop_spec k : ∀ s p i (Q : bool → kst St → Prop),
  k = 0%nat ∨ own (vm s) (p + 4 * i) (4 * Z.of_nat k) →
  Q (zone_ok k (kmem s) (p + 4 * i)) s → swp (check_redzone_loop k p i) s Q.
Proof.
  induction k as [|k IH]; intros s p i Q Ho HQ; [by apply swp_ret|]. destruct Ho as [|Ho]; [done|].
  pose proof Ho as (Hp & _ & Hmax & _). cbn [check_redzone_loop zone_ok] in *. unfold load32. rewrite u64_addr by lia.
  apply swp_bind, load_spec; [eapply own_sub; [done|simpl; lia..]|].
  destruct (le_value _ =? _); simpl in *; [|by apply swp_ret]. apply IH.
  - destruct k as [|k]; [by left|]. right. eapply own_sub; [done|simpl; lia..].
  - by replace (p + 4 * (i + 1)) with (p + 4 * i + 4) by lia.
Qed.

Lemma check_redzone_spec s p (Q : bool → kst St → Prop) :
  own (vm s) p 16 → Q (zone_ok 4 (kmem s) p) s → swp (check_redzone p KALLOC_REDZONE_SIZE) s Q.
Proof.
  intros Ho HQ. replace p with (p + 4 * 0) in Ho, HQ by lia.
  change (swp (check_redzone_loop 4 p 0) s Q). apply check_redzone_loop_spec; [by right|done].
Qed.

Lemma zone_intact m p : bytes_at m p 16 = redzone → zone_ok 4 m p = true.
Proof.
  intros H. assert (∀ i, 0 ≤ i → i + 4 ≤ 16 → bytes_at m (p + i) 4 = sub (Z.to_nat i) 4 redzone) as Hi.
  { intros i H0 H4. by rewrite (bytes_at_sub m p 16), H by lia. }
  cbn [zone_ok]. replace (p + 4 + 4 + 4) with (p + 12) by lia. replace (p + 4 + 4) with (p + 8) by lia.
  rewrite <- (Z.add_0_r p) at 1. rewrite !Hi by lia. done.
Qed.

(** Bytes are bytes. *)
Definition byte_mem m : Prop := ∀ x, 0 ≤ m x < 256.

Lemma zone_damaged m p : byte_mem m → bytes_at m p 16 ≠ redzone → zone_ok 4 m p = false.
Proof.
  intros Hb Hne. destruct (zone_ok 4 m p) eqn:E; [|done]. exfalso. apply Hne. cbn [zone_ok] in E.
  rewrite !andb_true_iff, !Z.eqb_eq in E. destruct E as (E1 & E2 & E3 & E4 & _).
  assert (∀ a, le_value (bytes_at m a 4) = KALLOC_REDZONE_MAGIC → bytes_at m a 4 = le_bytes 4 KALLOC_REDZONE_MAGIC) as Hw.
  { intros a <-. symmetry. apply (le_bytes_value (bytes_at m a 4)). apply Forall_fmap, Forall_forall. intros x _. apply Hb. }
  change 16 with (4 + (4 + (4 + 4))). rewrite !bytes_at_join by lia. by rewrite !Hw.
Qed.

Lemma setup_block_spec s a n size (Q : Z → kst St → Prop) :
  own (vm s) a n → 0 < size → size + 48 ≤ n →
  (∀ m' bs, changed (kmem s) m' a n → block m' a bs → zlen bs = size → Q (a + 32) (set_mem m' s)) →
  swp (setup_block a size) s Q.
Proof.
  intros Ho Hs Hn HQ. pose proof Ho as (Ha & _ & Hmax & _). unfold setup_block, store64, store32, METADATA_SIZE, KALLOC_REDZONE_SIZE.
  rewrite !(u64_addr (a + _)), (u64_addr (a + 16 + 16)), (u64_addr (a + 16 + 16 + size)) by lia.
  apply swp_bind, store_changed; [eapply own_sub; [done|simpl; lia..]|]. intros m1 C1 B1.
  apply swp_bind, store_changed; [eapply own_sub; [done|simpl; lia..]|]. intros m2 C2 B2.
  apply swp_bind, setup_redzone_spec; [eapply own_sub; [done|simpl; lia..]|]. intros m3 C3 B3.
  apply swp_bind, setup_redzone_spec; [eapply own_sub; [done|simpl; lia..]|]. intros m4 C4 B4. apply swp_ret.
  rewrite length_le_bytes in *. cbn [kmem set_mem] in *. replace (a + 16 + 16) with (a + 32) in * by lia.
  pose proof (length_bytes_at m4 (a + 32) size) as Hl. rewrite Z.max_l in Hl by lia.
  apply (HQ m4 (bytes_at m4 (a + 32) size)); [| |done].
  - eapply changed_trans; [|eapply changed_mono; [exact C4|lia|lia]]. eapply changed_trans; [|eapply changed_mono; [exact C3|lia|lia]].
    eapply changed_trans; eapply changed_mono; [exact C1|lia|lia|exact C2|lia|lia].
  - split; rewrite ?Hl.
    + rewrite (changed_bytes m3 m4 _ _ _ _ C4), (changed_bytes m2 m3 _ _ _ _ C3), (changed_bytes m1 m2 _ _ _ _ C2) by lia. done.
    + rewrite (changed_bytes m3 m4 _ _ _ _ C4), (changed_bytes m2 m3 _ _ _ _ C3) by lia. done.
    + rewrite (changed_bytes m3 m4 _ _ _ _ C4) by lia. done.
    + done.
    + done.
Qed.

Lemma check_block_spec s a n bs (Q : option Z → kst St → Prop) :
  own (vm s) a n → zlen bs + 48 ≤ n → block (kmem s) a bs → Q (Some (zlen bs)) s → swp (check_block a (a + 32)) s Q.
Proof.
  intros Ho Hn [Bs Bm Bb Bd Ba] HQ. pose proof Ho as (Ha & _ & Hmax & _). unfold check_block, load32, load64, METADATA_SIZE.
  rewrite !(u64_addr (a + _)) by lia.
  apply swp_bind, load_spec; [eapply own_sub; [done|simpl; lia..]|]. rewrite Bm, le_value_bytes by done.
  change (negb (_ =? KALLOC_REDZONE_MAGIC)) with false. cbv iota.
  apply swp_bind, check_redzone_spec; [eapply own_sub; [done|simpl; lia..]|]. rewrite zone_intact by done. cbn [negb].
  apply swp_bind, load_spec; [eapply own_sub; [done|simpl; lia..]|]. rewrite Bs, le_value_bytes by lia.
  rewrite Z.mod_small by (simpl; lia). rewrite u64_addr by lia.
  apply swp_bind, check_redzone_spec; [eapply own_sub; [done|simpl; lia..]|]. rewrite zone_intact by done. by apply swp_ret.
Qed.
End heap.

(** * The heap as a map of regions

    The invariant of the kernel heap, and how taking a slot, returning one,
    carving a fresh page and mapping pages for a large block keep it. *)

Open Scope sm_scope.

(** ** Sizes *)

Definition span_of (size : Z) : Z :=
  match pick_bucket (size + 48) with Some b => bsize b | None => page_count_of (size + 48) * BLOCK_SIZE end.

Lemma bsize_bounds b : 64 ≤ bsize b ≤ 2048 ∧ bsize b mod 16 = 0 ∧ BLOCK_SIZE mod bsize b = 0.
Proof. by destruct b; vm_compute. Qed.

Lemma pick_bucket_fits total b : pick_bucket total = Some b → total ≤ bsize b.
Proof.
  unfold pick_bucket. repeat (case_match; [intros [= <-]; by apply Z.leb_le|]). done.
Qed.

Lemma pick_bucket_none total : pick_bucket total = None → 2048 < total.
Proof.
  unfold pick_bucket. repeat (case_match; [done|]). intros _. by apply Z.leb_gt.
Qed.

Lemma page_count_bounds total :
  0 < total → total < 2 ^ 63 → 0 < page_count_of total ∧ total ≤ page_count_of total * BLOCK_SIZE < total + BLOCK_SIZE.
Proof.
  intros H0 H1. unfold page_count_of, BLOCK_SIZE. change 0x1000 with (2 ^ 12). rewrite ALIGN_UP_pow2 by lia.
  rewrite Z.div_mul by lia. dlia.
Qed.

Lemma span_bounds size : 0 < size < 2 ^ 62 → size + 48 ≤ span_of size ∧ span_of size < 2 ^ 63.
Proof.
  intros Hs. unfold span_of. destruct (pick_bucket _) as [b|] eqn:E.
  - apply pick_bucket_fits in E. pose proof (bsize_bounds b). lia.
  - pose proof (page_count_bounds (size + 48) ltac:(lia) ltac:(lia)). unfold BLOCK_SIZE in *. lia.
Qed.

(** ** Regions *)

(** A free slot on a list of a core, or a block that holds [bs]. *)
Inductive region := RFree (cpu : nat) (b : bucket) | RLive (bs : list Z).

Definition span (r : region) : Z := match r with RFree _ b => bsize b | RLive bs => span_of (zlen bs) end.

Definition is_large (size : Z) : bool := match pick_bucket (size + 48) with Some _ => false | None => true end.

(** The slots behind [head], in order. *)
Fixpoint slots (m : Z → Z) (head : Z) (l : list Z) : Prop :=
  match l with
  | [] => head = 0
  | a :: l => head = a ∧ ∃ next, 0 ≤ next < 2 ^ 64 ∧ bytes_at m a 8 = le_bytes 8 next ∧ slots m next l
  end.

Lemma slots_kept m m' b n l : ∀ head,
  slots m head l → changed m m' b n → (∀ a, a ∈ l → a + 8 ≤ b ∨ b + n ≤ a) → slots m' head l.
Proof.
  induction l as [|a l IH]; intros head; [done|]. intros (-> & next & Hn & Hb & Hs) Hc Hd. split; [done|].
  exists next. split_and!; [lia|lia| |].
  - rewrite (changed_bytes m m' b n _ _ Hc); [done|]. apply Hd. set_solver.
  - apply IH; [done|done|]. intros a' Ha'. apply Hd. set_solver.
Qed.

Lemma slots_head m head l : slots m head l → Forall (λ a, 0 < a < 2 ^ 64) l → 0 ≤ head < 2 ^ 64.
Proof. destruct l as [|a l]; simpl; [lia|]. intros (-> & _) (Ha & _)%Forall_cons. lia. Qed.

Section heap.
Context {St : Type} `{!KernelVm St} (taken : St → Z → Prop) (areas : St → Z → option Z) (room : St → Z → Prop).
Context `{!VmLaws taken areas room}.
Implicit Types (s : kst St) (m : Z → Z) (a n : Z) (regs : gmap Z region).

Abbreviation own := (own taken).

(** [a, a + n) meets no region. *)
Definition apart regs a n : Prop := ∀ a' r, regs !! a' = Some r → a' + span r ≤ a ∨ a + n ≤ a'.

(** The free slots of every core, by bucket. *)
Definition lists : Type := nat → bucket → list Z.
Definition set_list (fl : lists) (cpu : nat) (b : bucket) (l : list Z) : lists :=
  fun cpu' b' => if decide (cpu' = cpu ∧ b' = b) then l else fl cpu' b'.

Definition cache_ok m (fl : bucket → list Z) (c : kalloc_cpu_cache) : Prop :=
  ∀ b, slots m (c_head c b) (fl b) ∧ c_count c b = zlen (fl b).

(** A block of whole pages is a registered area of the kernel. *)
Definition area_ok (v : St) a (bs : list Z) : Prop :=
  is_large (zlen bs) = true → a mod BLOCK_SIZE = 0 ∧ areas v a ≠ None ∧ ∀ x, a < x < a + span (RLive bs) → areas v x = None.

Record heap_ok s regs (fl : lists) : Prop := mkHeap {
  hk_apart a r : regs !! a = Some r → apart (delete a regs) a (span r);
  hk_own a r : regs !! a = Some r → own (vm s) a (span r) ∧ a mod 16 = 0;
  hk_lists cpu b a : a ∈ fl cpu b → regs !! a = Some (RFree cpu b);
  hk_nodup cpu b : NoDup (fl cpu b);
  hk_caches cpu c : cpu_caches s !! cpu = Some c → cache_ok (kmem s) (fl cpu) c;
  hk_live a bs : regs !! a = Some (RLive bs) → 0 < zlen bs < 2 ^ 62 ∧ block (kmem s) a bs ∧ area_ok (vm s) a bs;
  hk_areas x : areas (vm s) x ≠ None → taken (vm s) (x / BLOCK_SIZE) }.

(** The state of the locks. *)
Definition locks s : list bool * bool := (c_lock <$> cpu_caches s, global_lock s).

Lemma span_pos s regs fl a r : heap_ok s regs fl → regs !! a = Some r → 64 ≤ span r ∨ ∃ bs, r = RLive bs ∧ zlen bs + 48 ≤ span r.
Proof.
  intros Hh Ha. destruct r as [cpu b|bs]; [left; simpl; pose proof (bsize_bounds b); lia|]. right. exists bs.
  destruct (hk_live _ _ _ Hh a bs Ha) as (Hs & _). pose proof (span_bounds (zlen bs) Hs). simpl. split; [done|lia].
Qed.

Lemma apart_fresh s regs fl a n : heap_ok s regs fl → apart regs a n → 0 < n → regs !! a = None.
Proof.
  intros Hh Hap Hn. destruct (regs !! a) as [r|] eqn:E; [|done]. exfalso. specialize (Hap a r E).
  destruct (span_pos _ _ _ _ _ Hh E) as [?|(bs & _ & ?)]; lia.
Qed.

Lemma apart_sub regs a n b k : apart regs a n → a ≤ b → b + k ≤ a + n → apart regs b k.
Proof. intros Hap H1 H2 a' r Hr. destruct (Hap a' r Hr); lia. Qed.

Lemma apart_delete regs a n x : apart regs a n → apart (delete x regs) a n.
Proof. intros Hap a' r (_ & Hr)%lookup_delete_Some. by apply Hap in Hr. Qed.

(** Memory changes in a place that meets no region, pages and areas come. *)
Lemma heap_grow s s' regs fl a n :
  heap_ok s regs fl → apart regs a n → changed (kmem s) (kmem s') a n → cpu_caches s' = cpu_caches s →
  (∀ p, taken (vm s) p → taken (vm s') p) → (∀ p, vm_mapped p (vm s) = true → vm_mapped p (vm s') = true) →
  (∀ x, ¬ (a ≤ x < a + n) → areas (vm s') x = areas (vm s) x) →
  (∀ x, areas (vm s') x ≠ None → taken (vm s') (x / BLOCK_SIZE)) → heap_ok s' regs fl.
Proof.
  intros Hh Hap Hc Ecs Ht Hm Ha1 Ha2. pose proof Hh as [H1 H2 H3 H4 H5 H6 H7]. split; try done.
  - intros a' r Hr. destruct (H2 a' r Hr) as ((? & ? & ? & Hp) & ?). split; [|done]. split_and!; try done.
    intros p Hpp. destruct (Hp p Hpp). auto.
  - intros cpu c Hcp b. rewrite Ecs in Hcp. destruct (H5 cpu c Hcp b) as (Hs & Hn). split; [|done].
    eapply slots_kept; [done|exact Hc|]. intros a' Ha'. apply H3 in Ha'. destruct (Hap _ _ Ha'); simpl in *; pose proof (bsize_bounds b); lia.
  - intros a' bs Hb. destruct (H6 a' bs Hb) as (Hsz & Hbl & Har). pose proof (span_bounds (zlen bs) Hsz) as Hsp.
    destruct (Hap _ _ Hb) as [Hd|Hd]; simpl in Hd; (split_and!; [lia|lia|eapply block_kept; [done|exact Hc|lia]|]);
      intros Hl; destruct (Har Hl) as (? & Hae & Hno); (split_and!; [done|rewrite Ha1 by lia; done|]);
      intros x Hx; simpl in *; rewrite Ha1 by lia; by apply Hno.
Qed.

Lemma heap_write s regs fl a n m' :
  heap_ok s regs fl → apart regs a n → changed (kmem s) m' a n → heap_ok (set_mem m' s) regs fl.
Proof. intros Hh Hap Hc. eapply heap_grow; try done. apply Hh. Qed.

Lemma heap_delete s regs fl a bs :
  heap_ok s regs fl → regs !! a = Some (RLive bs) →
  heap_ok s (delete a regs) fl ∧ apart (delete a regs) a (span_of (zlen bs)).
Proof.
  intros Hh Ha. pose proof Hh as [H1 H2 H3 H4 H5 H6 H7]. split; [|by apply (H1 a _ Ha)]. split; try done.
  - intros a' r (Hne & Hr)%lookup_delete_Some. rewrite delete_delete. by apply apart_delete, H1.
  - intros a' r (_ & Hr)%lookup_delete_Some. by apply H2.
  - intros cpu b a' Ha'. apply H3 in Ha' as E. apply lookup_delete_Some. split; [|done]. intros <-. by rewrite Ha in E.
  - intros a' bs' (_ & Hr)%lookup_delete_Some. by apply H6.
Qed.

Lemma apart_insert s regs fl a r :
  heap_ok s regs fl → apart regs a (span r) →
  ∀ a' r', <[a := r]> regs !! a' = Some r' → apart (delete a' (<[a := r]> regs)) a' (span r').
Proof.
  intros Hh Hap a' r' [(<- & <-)|(Hne & Hr)]%lookup_insert_Some.
  - intros b k (Hnb & [(Hb & _)|(_ & Hb)]%lookup_insert_Some)%lookup_delete_Some; [done|]. by apply Hap.
  - intros b k (Hnb & [(<- & <-)|(_ & Hb)]%lookup_insert_Some)%lookup_delete_Some.
    + destruct (Hap _ _ Hr); lia.
    + apply (hk_apart _ _ _ Hh a' r' Hr b k). by apply lookup_delete_Some.
Qed.

Lemma heap_insert s regs fl a bs :
  heap_ok s regs fl → apart regs a (span_of (zlen bs)) → own (vm s) a (span_of (zlen bs)) → a mod 16 = 0 →
  0 < zlen bs < 2 ^ 62 → block (kmem s) a bs → area_ok (vm s) a bs → heap_ok s (<[a := RLive bs]> regs) fl.
Proof.
  intros Hh Hap Ho Hm Hs Hb Hae. pose proof Hh as [H1 H2 H3 H4 H5 H6 H7].
  assert (regs !! a = None) as Hf. { eapply apart_fresh; [done|done|]. pose proof (span_bounds _ Hs). lia. }
  split; try done.
  - by eapply apart_insert.
  - intros a' r [(<- & <-)|(_ & Hr)]%lookup_insert_Some; [done|by apply H2].
  - intros cpu b a' Ha'. apply H3 in Ha' as E. rewrite lookup_insert_ne; [done|]. intros <-. by rewrite Hf in E.
  - intros a' bs' [(<- & [= <-])|(_ & Hr)]%lookup_insert_Some; [done|by apply H6].
Qed.

(** ** Slots *)

Lemma list_short s regs fl cpu b : heap_ok s regs fl → zlen (fl cpu b) < 2 ^ 61.
Proof.
  intros Hh. pose proof (hk_nodup _ _ _ Hh cpu b) as Hnd.
  assert (∀ a, a ∈ fl cpu b → 0 < a < 2 ^ 64 ∧ a mod 16 = 0) as Ha.
  { intros a Ha. apply (hk_lists _ _ _ Hh) in Ha. destruct (hk_own _ _ _ Hh _ _ Ha) as ((? & ? & ? & _) & ?). lia. }
  assert (((λ a, a / 16) <$> fl cpu b) ⊆+ seqZ 0 (2 ^ 60)) as Hsub.
  { apply NoDup_submseteq.
    - apply NoDup_fmap_2_strong; [|done]. intros x y Hx Hy E. pose proof (Ha x Hx). pose proof (Ha y Hy). dlia.
    - intros q (a & -> & Hq)%list_elem_of_fmap. pose proof (Ha a Hq). apply elem_of_seqZ. dlia. }
  apply submseteq_length in Hsub. rewrite length_fmap, length_seqZ in Hsub. lia.
Qed.

Lemma locks_insert s cpu c c' :
  cpu_caches s !! cpu = Some c → c_lock c' = c_lock c → locks (set_caches (<[cpu := c']> (cpu_caches s)) s) = locks s.
Proof.
  intros Hc Hl. unfold locks. simpl. f_equal. rewrite list_fmap_insert, Hl. apply list_insert_id. by rewrite list_lookup_fmap, Hc.
Qed.

Lemma cache_spec s cpu c (Q : kalloc_cpu_cache → kst St → Prop) : cpu_caches s !! cpu = Some c → Q c s → swp (cache cpu) s Q.
Proof. intros Hc HQ. unfold cache, swp. by rewrite Hc. Qed.

Lemma upd_cache_spec s cpu c f (Q : () → kst St → Prop) :
  cpu_caches s !! cpu = Some c → Q () (set_caches (<[cpu := f c]> (cpu_caches s)) s) → swp (upd_cache cpu f) s Q.
Proof. intros Hc HQ. unfold upd_cache, swp. by rewrite Hc. Qed.

(** The lists after the one of [b] on [cpu] is replaced. *)
Lemma caches_set s regs fl cpu c b head l m :
  heap_ok s regs fl → cpu_caches s !! cpu = Some c → slots m head l →
  (∀ cpu' c' b', cpu_caches s !! cpu' = Some c' → ¬ (cpu' = cpu ∧ b' = b) → slots m (c_head c' b') (fl cpu' b')) →
  ∀ cpu' c', <[cpu := set_bucket b head (zlen l) c]> (cpu_caches s) !! cpu' = Some c' → cache_ok m (set_list fl cpu b l cpu') c'.
Proof.
  intros Hh Hc Hsl Hother cpu' c' Hc' b'. unfold set_list.
  apply list_lookup_insert_Some in Hc' as [(<- & <- & _)|(Hne & Hc')].
  - simpl. destruct (decide (b' = b)) as [->|Hb].
    + by rewrite decide_True.
    + rewrite decide_False by naive_solver. split; [apply Hother; naive_solver|]. by apply (hk_caches _ _ _ Hh _ _ Hc).
  - rewrite decide_False by naive_solver. split; [apply Hother; naive_solver|]. by apply (hk_caches _ _ _ Hh _ _ Hc').
Qed.

Lemma pop_slot_spec s regs fl cpu c b a l (Q : Z → kst St → Prop) :
  heap_ok s regs fl → cpu_caches s !! cpu = Some c → fl cpu b = a :: l →
  (∀ s', heap_ok s' (delete a regs) (set_list fl cpu b l) → apart (delete a regs) a (bsize b) → own (vm s') a (bsize b) →
    a mod 16 = 0 → regs !! a = Some (RFree cpu b) → vm s' = vm s → locks s' = locks s → Q a s') →
  swp (pop_slot cpu b) s Q.
Proof.
  intros Hh Hc Hl HQ. pose proof Hh as [H1 H2 H3 H4 H5 H6 H7]. pose proof (list_short _ _ _ cpu b Hh) as Hshort.
  assert (regs !! a = Some (RFree cpu b)) as Ha by (apply H3; rewrite Hl; set_solver).
  destruct (H2 _ _ Ha) as (Ho & Hm). simpl in Ho. destruct (H5 _ _ Hc b) as (Hs & Hn). rewrite Hl in Hs, Hn, Hshort.
  destruct Hs as (Hhd & next & Hnx & Hb & Hs). pose proof (bsize_bounds b) as Hbs.
  unfold pop_slot. apply swp_bind, (cache_spec s cpu c); [done|]. apply swp_bind. unfold load64.
  apply (load_spec taken); [rewrite Hhd; eapply own_sub; [done|lia..]|]. rewrite Hhd, Hb, le_value_bytes, Z.mod_small by (simpl; lia).
  apply swp_bind, (upd_cache_spec s cpu c); [done|]. apply swp_ret. simpl length in Hn, Hshort.
  replace (u64 (c_count c b - 1)) with (zlen l) by (rewrite Hn; unfold u64; rewrite Z.mod_small; lia).
  assert (NoDup (a :: l)) as (Hni & Hnd)%NoDup_cons by (rewrite <- Hl; apply H4).
  apply HQ; try done; [|by apply (H1 _ _ Ha)|by apply (locks_insert s cpu c)]. split; try done.
  - intros a' r (Hne & Hr)%lookup_delete_Some. rewrite delete_delete. by apply apart_delete, H1.
  - intros a' r (_ & Hr)%lookup_delete_Some. by apply H2.
  - intros cpu' b' a'. unfold set_list. case_decide as Hd; intros Ha'.
    + destruct Hd as (-> & ->). apply lookup_delete_Some. split; [by intros <-|]. apply H3. rewrite Hl. set_solver.
    + apply H3 in Ha' as E. apply lookup_delete_Some. split; [|done]. intros <-. rewrite Ha in E. naive_solver.
  - intros cpu' b'. unfold set_list. by case_decide.
  - eapply caches_set; try done. intros cpu' c' b' Hc' _. by apply (H5 _ _ Hc').
  - intros a' bs (_ & Hr)%lookup_delete_Some. by apply H6.
Qed.

Lemma push_slot_spec s regs fl cpu c b a (Q : () → kst St → Prop) :
  heap_ok s regs fl → cpu_caches s !! cpu = Some c → apart regs a (bsize b) → own (vm s) a (bsize b) → a mod 16 = 0 →
  (∀ s', heap_ok s' (<[a := RFree cpu b]> regs) (set_list fl cpu b (a :: fl cpu b)) → vm s' = vm s → locks s' = locks s → Q () s') →
  swp (push_slot cpu b a) s Q.
Proof.
  intros Hh Hc Hap Ho Hm HQ. pose proof Hh as [H1 H2 H3 H4 H5 H6 H7]. pose proof (list_short _ _ _ cpu b Hh) as Hshort.
  pose proof (bsize_bounds b) as Hbs. destruct (H5 _ _ Hc b) as (Hs & Hn).
  assert (regs !! a = None) as Hf by (eapply apart_fresh; [done|done|lia]).
  assert (0 ≤ c_head c b < 2 ^ 64) as Hhd.
  { eapply slots_head; [done|]. apply Forall_forall. intros x Hx%H3. destruct (H2 _ _ Hx) as ((? & ? & ? & _) & _). lia. }
  unfold push_slot. apply swp_bind, (cache_spec s cpu c); [done|]. apply swp_bind. unfold store64.
  apply (store_changed taken); [eapply own_sub; [done|simpl; lia..]|]. intros m' Hch Hby. rewrite length_le_bytes in Hch, Hby.
  change (Z.of_nat 8) with 8 in Hch, Hby. apply (upd_cache_spec _ cpu c); [done|].
  replace (u64 (c_count c b + 1)) with (zlen (a :: fl cpu b)) by (rewrite Hn; unfold u64; rewrite Z.mod_small; simpl; lia).
  assert (heap_ok (set_mem m' s) regs fl) as [G1 G2 G3 G4 G5 G6 G7] by (eapply heap_write; [done| |exact Hch]; eapply apart_sub; [done|lia|lia]).
  apply HQ; [|done|by apply (locks_insert (set_mem m' s) cpu c)]. split; try done.
  - by eapply apart_insert.
  - intros a' r [(<- & <-)|(_ & Hr)]%lookup_insert_Some; [done|by apply H2].
  - intros cpu' b' a'. unfold set_list. case_decide as Hd; intros Ha'.
    + destruct Hd as (-> & ->). apply elem_of_cons in Ha' as [->|Ha']; [by rewrite lookup_insert_eq|].
      apply H3 in Ha' as E. rewrite lookup_insert_ne; [done|]. intros <-. by rewrite Hf in E.
    + apply H3 in Ha' as E. rewrite lookup_insert_ne; [done|]. intros <-. by rewrite Hf in E.
  - intros cpu' b'. unfold set_list. case_decide as Hd; [|done]. destruct Hd as (-> & ->). apply NoDup_cons. split; [|done].
    intros Ha%H3. by rewrite Hf in Ha.
  - apply (caches_set (set_mem m' s) regs fl cpu c b a (a :: fl cpu b) m'); [by split|done| |].
    + split; [done|]. exists (c_head c b). split_and!; [lia|lia|done|]. by apply (G5 _ _ Hc).
    + intros cpu' c' b' Hc' _. by apply (G5 _ _ Hc').
  - intros a' bs [(_ & ?)|(_ & Hr)]%lookup_insert_Some; [done|by apply G6].
Qed.
End heap.
