(* ===== verification/KallocOps.v ===== *)
(** * Allocating and freeing

    [kalloc] hands out bytes that belong to no block in use, [kfree] and
    [kfree2] take a block back, and every other block keeps its bytes. *)

From S2P Require Import Prelude CMem Bytes StateM Kalloc KallocHeap.

Open Scope sm_scope.

Section ops.
Context {St : Type} `{!KernelVm St} (taken : St → Z → Prop) (areas : St → Z → option Z) (room : St → Z → Prop).
Context `{!VmLaws taken areas room}.
Implicit Types (s : kst St) (m : Z → Z) (a n : Z) (regs : gmap Z region).

Abbreviation own := (own taken).
Abbreviation heap_ok := (heap_ok taken areas).

Definition live_same regs regs' : Prop := ∀ a bs, regs' !! a = Some (RLive bs) ↔ regs !! a = Some (RLive bs).

Lemma live_same_trans r1 r2 r3 : live_same r1 r2 → live_same r2 r3 → live_same r1 r3.
Proof. intros H1 H2 a bs. unfold live_same in *. by rewrite H2, H1. Qed.

Lemma live_same_free s regs fl a cpu b :
  heap_ok s regs fl → regs !! a = None → live_same regs (<[a := RFree cpu b]> regs).
Proof.
  intros _ Ha a' bs. rewrite lookup_insert_Some. split; [intros [(_ & ?)|(_ & ?)]; done|]. intros Hr. right. split; [|done].
  intros <-. by rewrite Ha in Hr.
Qed.

Lemma locks_cache s s' cpu c :
  locks s' = locks s → cpu_caches s !! cpu = Some c → ∃ c', cpu_caches s' !! cpu = Some c' ∧ c_lock c' = c_lock c.
Proof.
  unfold locks. intros [= E _] Hc. assert ((c_lock <$> cpu_caches s') !! cpu = Some (c_lock c)) as H by (by rewrite E, list_lookup_fmap, Hc).
  rewrite list_lookup_fmap in H. destruct (cpu_caches s' !! cpu) as [c'|]; simplify_eq/=. by exists c'.
Qed.

(** ** A fresh page *)

(** Pages just mapped and registered at [virt]. *)
Lemma page_apart s regs fl virt n :
  heap_ok s regs fl → 0 < n → virt mod BLOCK_SIZE = 0 → (∀ p, in_pages virt n p → ¬ taken (vm s) p) → apart regs virt (n * BLOCK_SIZE).
Proof.
  intros Hh Hn Hm Hf a r Hr. destruct (hk_own _ _ _ _ _ Hh a r Hr) as ((H0 & Hs & _ & Hp) & _).
  destruct (decide (a + span r ≤ virt)); [by left|]. destruct (decide (virt + n * BLOCK_SIZE ≤ a)); [by right|]. exfalso.
  unfold in_pages, BLOCK_SIZE in *. assert (∃ x, virt ≤ x < virt + n * 4096 ∧ a ≤ x < a + span r) as (x & Hx1 & Hx2) by (exists (Z.max a virt); lia).
  apply (Hf (x / 4096)); [clear Hp Hf; dlia|]. apply (Hp (x / 4096)). clear Hp Hf. dlia.
Qed.

Lemma map_spec s regs fl virt phys n flags (Q : () → kst St → Prop) :
  heap_ok s regs fl → apart regs virt (n * BLOCK_SIZE) → 0 ≤ n →
  (∀ s', heap_ok s' regs fl → locks s' = locks s →
    (∀ p, taken (vm s') p ↔ taken (vm s) p) → (∀ x, areas (vm s') x = areas (vm s) x) →
    (∀ p, in_pages virt n p → vm_mapped p (vm s') = true) → (∀ k, room (vm s) k → room (vm s') k) → Q () s') →
  swp (map_pages virt phys n flags) s Q.
Proof.
  intros Hh Hap Hn HQ. unfold map_pages, swp. destruct (law_map virt phys n flags (vm s)) as (Ht & Ha & Hm1 & Hm2 & Hr).
  apply HQ; try done. eapply (heap_grow taken areas s); try done; simpl.
  - intros x Hx. destruct (Z.leb_spec virt x); [|done]. destruct (Z.ltb_spec x (virt + n * BLOCK_SIZE)); [lia|done].
  - intros p Hp. by apply Ht.
  - intros x. rewrite Ha, Ht. apply Hh.
Qed.

Lemma register_pages_spec s regs fl phys virt n size flags (Q : () → kst St → Prop) :
  heap_ok s regs fl → apart regs virt (n * BLOCK_SIZE) → 0 < n → virt mod BLOCK_SIZE = 0 → areas (vm s) virt = None →
  (∀ p, in_pages virt n p → taken (vm s) p) →
  (∀ s', heap_ok s' regs fl → locks s' = locks s → kmem s' = kmem s →
    (∀ p, taken (vm s') p ↔ taken (vm s) p) → areas (vm s') virt = Some phys → (∀ x, x ≠ virt → areas (vm s') x = areas (vm s) x) →
    (∀ p, vm_mapped p (vm s') = vm_mapped p (vm s)) → (∀ k, room (vm s) k → room (vm s') k) → Q () s') →
  swp (vm_run (vm_register phys virt size flags)) s Q.
Proof.
  intros Hh Hap Hn Hm Hna Htk HQ. unfold vm_run, swp. destruct (law_register phys virt size flags (vm s) Hna) as (Ht & Ha & Ho & Hmp & Hr).
  apply HQ; try done. eapply (heap_grow taken areas s); try done; simpl.
  - intros p Hp. by apply Ht.
  - intros p Hp. by rewrite Hmp.
  - intros x Hx. apply Ho. unfold BLOCK_SIZE in *. lia.
  - intros x. destruct (decide (x = virt)) as [->|Hx].
    + intros _. apply Ht, Htk. unfold in_pages. lia.
    + rewrite Ho, Ht by done. apply Hh.
Qed.

Lemma heap_set_vm s regs fl v :
  heap_ok s regs fl → (∀ p, taken (vm s) p → taken v p) → (∀ p, vm_mapped p (vm s) = true → vm_mapped p v = true) →
  (∀ x, areas v x = areas (vm s) x) → heap_ok (set_vm v s) regs fl.
Proof.
  intros Hh Ht Hm Ha. eapply (heap_grow taken areas s _ regs fl 0 0); try done; simpl.
  - intros a r Hr. destruct (hk_own _ _ _ _ _ Hh a r Hr) as ((? & _) & _). right. lia.
  - intros x. rewrite Ha. intros Hx. apply Ht. by apply Hh.
Qed.

(** Frames, virtual pages, a mapping and an area, for [n] pages. *)
Lemma get_pages_spec {A} s regs fl n k size f1 f2 (K : Z → SM (kst St) A) (Q : A → kst St → Prop) :
  heap_ok s regs fl → room (vm s) k → 0 < n ≤ k →
  (∀ virt s', heap_ok s' regs fl → locks s' = locks s → apart regs virt (n * BLOCK_SIZE) → own (vm s') virt (n * BLOCK_SIZE) →
    virt mod BLOCK_SIZE = 0 → areas (vm s') virt ≠ None → (∀ x, virt < x < virt + n * BLOCK_SIZE → areas (vm s') x = None) →
    room (vm s') (k - n) → swp (K virt) s' Q) →
  swp (phys ← vm_do (vm_phys_alloc n); virt ← vaddr_alloc_locked n; map_pages virt phys n f1 ;;
       vm_run (vm_register phys virt size f2) ;; K virt) s Q.
Proof.
  intros Hh Hroom Hn HK. apply swp_bind. unfold vm_do at 1, swp at 1. destruct (law_phys_alloc n (vm s)) as (pa & v1 & -> & T1 & A1 & M1 & R1).
  pose proof (heap_set_vm s regs fl v1 Hh ltac:(intros; by apply T1) ltac:(intros; by rewrite M1) A1) as H1.
  apply swp_bind. unfold vaddr_alloc_locked, vm_do, swp at 1. cbn [vm set_vm].
  destruct (law_vaddr_alloc n v1 k (R1 _ Hroom) Hn) as (va & v2 & -> & Hva & Hvm & Hmax & Hfresh & T2 & A2 & M2 & R2).
  pose proof (heap_set_vm _ regs fl v2 H1 ltac:(intros; apply T2; by left) ltac:(intros; by rewrite M2) A2) as H2.
  assert (apart regs va (n * BLOCK_SIZE)) as Hap by (eapply (page_apart (set_vm v1 s)); try done; lia).
  apply swp_bind, (map_spec _ regs fl); [exact H2|done|lia|]. intros s3 H3 L3 T3 A3 M3 R3. cbn [vm set_vm] in *.
  assert (∀ x, va ≤ x < va + n * BLOCK_SIZE → areas v1 x = None) as Hno.
  { intros x Hx. destruct (areas v1 x) eqn:E; [|done]. exfalso. apply (Hfresh (x / BLOCK_SIZE)).
    - clear - Hx Hvm. unfold in_pages, BLOCK_SIZE in *. dlia.
    - apply (hk_areas _ _ _ _ _ H1). simpl. by rewrite E. }
  assert (∀ p, in_pages va n p → taken (vm s3) p) as Htk by (intros p Hp; apply T3, T2; by right).
  apply swp_bind, (register_pages_spec _ regs fl pa va n); [done|done|lia|done|rewrite A3, A2; apply Hno; unfold BLOCK_SIZE; lia|done|].
  intros s4 H4 L4 _ T4 A4 A4' M4 R4. apply HK; try done.
  - by rewrite L4, L3.
  - split_and!; [done|unfold BLOCK_SIZE; lia|done|]. intros p Hp. assert (in_pages va n p) as Hin.
    { clear - Hp Hvm. unfold in_pages, BLOCK_SIZE in *. dlia. }
    split; [by apply T4, Htk|]. rewrite M4. by apply M3.
  - by rewrite A4.
  - intros x Hx. rewrite A4', A3, A2 by lia. apply Hno. lia.
  - by apply R4, R3.
Qed.

(** ** Slots from a fresh page *)

Lemma refill_loop_spec k : ∀ s regs fl cpu c b page i (Q : () → kst St → Prop),
  heap_ok s regs fl → cpu_caches s !! cpu = Some c → 0 ≤ i → page mod 16 = 0 →
  k = 0%nat ∨ own (vm s) (page + i * bsize b) (Z.of_nat k * bsize b) →
  apart regs (page + i * bsize b) (Z.of_nat k * bsize b) → 0 < page →
  (∀ s' regs' fl', heap_ok s' regs' fl' → live_same regs regs' → (fl cpu b ≠ [] ∨ k ≠ 0%nat → fl' cpu b ≠ []) →
    vm s' = vm s → locks s' = locks s → Q () s') →
  swp (refill_loop k cpu b page i) s Q.
Proof.
  induction k as [|k IH]; intros s regs fl cpu c b page i Q Hh Hc Hi Hpm Ho Hap Hp HQ; cbn [refill_loop].
  { apply swp_ret, (HQ s regs fl); try done. naive_solver. }
  destruct Ho as [|Ho]; [done|]. pose proof Ho as (Ha & _ & Hmax & _). pose proof (bsize_bounds b) as (Hb & Hbm & _).
  rewrite (u64_addr (i * bsize b)), (u64_addr (page + i * bsize b)) by nia.
  assert (Z.of_nat (Datatypes.S k) * bsize b = bsize b + Z.of_nat k * bsize b) as Es by lia. rewrite Es in *.
  assert ((page + i * bsize b) mod 16 = 0) as Hm16 by (rewrite Z.add_mod, Z.mul_mod, Hbm, Hpm, Z.mul_0_r by lia; done).
  apply swp_bind, (push_slot_spec taken areas s regs fl cpu c); [done|done|eapply apart_sub; [done|lia|nia]|eapply own_sub; [done|nia..]|done|].
  intros s1 H1 V1 L1. destruct (locks_cache s s1 cpu c L1 Hc) as (c1 & Hc1 & _).
  apply (IH s1 (<[page + i * bsize b := RFree cpu b]> regs) (set_list fl cpu b (page + i * bsize b :: fl cpu b)) cpu c1 b page (i + 1));
    [done|done|lia|done| | |done|].
  - destruct k as [|k]; [by left|]. right. rewrite V1. eapply own_sub; [done|nia..].
  - intros a' r [(<- & <-)|(_ & Hr)]%lookup_insert_Some; [left; simpl; lia|]. destruct (Hap a' r Hr); [left; lia|right; lia].
  - intros s2 regs2 fl2 H2 L2 Hne V2 Lk2. apply (HQ s2 regs2 fl2); [done| | |congruence|congruence].
    + eapply live_same_trans; [|exact L2]. eapply live_same_free; [done|]. eapply (apart_fresh taken areas s regs fl); [done| |].
      * eapply apart_sub; [exact Hap|lia|]. instantiate (1 := bsize b). nia.
      * lia.
    + intros _. apply Hne. left. unfold set_list. by rewrite decide_True.
Qed.

(** ** Locks *)

Lemma heap_set_global s regs fl x : heap_ok s regs fl → heap_ok (set_global x s) regs fl.
Proof. intros []. by split. Qed.

Lemma heap_set_lock s regs fl cpu c x :
  heap_ok s regs fl → cpu_caches s !! cpu = Some c → heap_ok (set_caches (<[cpu := set_lock x c]> (cpu_caches s)) s) regs fl.
Proof.
  intros [] Hc. split; try done. intros cpu' c' [(<- & <- & _)|(_ & Hc')]%list_lookup_insert_Some b.
  - by apply (hk_caches _ _ Hc b).
  - by apply (hk_caches _ _ Hc' b).
Qed.

Lemma locks_set_lock s cpu c x : locks (set_caches (<[cpu := set_lock x c]> (cpu_caches s)) s) = (<[cpu := x]> (locks s).1, (locks s).2).
Proof. unfold locks. simpl. by rewrite list_fmap_insert. Qed.

(** No lock is held. *)
Definition unlocked s : Prop := Forall (λ x, x = false) (locks s).1 ∧ (locks s).2 = false.

Lemma unlocked_cache s cpu c : unlocked s → cpu_caches s !! cpu = Some c → c_lock c = false.
Proof.
  intros (Hf & _) Hc. rewrite Forall_lookup in Hf. apply (Hf cpu). unfold locks. simpl. by rewrite list_lookup_fmap, Hc.
Qed.

Lemma lock_cpu_spec s regs fl cpu c (Q : () → kst St → Prop) :
  heap_ok s regs fl → unlocked s → cpu_caches s !! cpu = Some c →
  (∀ s', heap_ok s' regs fl → locks s' = (<[cpu := true]> (locks s).1, false) → kmem s' = kmem s → vm s' = vm s →
    s' = set_caches (<[cpu := set_lock true c]> (cpu_caches s)) s → Q () s') →
  swp (lock_cpu cpu) s Q.
Proof.
  intros Hh Hu Hc HQ. unfold lock_cpu. apply swp_bind, (cache_spec s cpu c); [done|]. rewrite (unlocked_cache s cpu c) by done.
  apply (upd_cache_spec s cpu c); [done|]. apply HQ; try done; [by apply heap_set_lock|]. rewrite locks_set_lock. f_equal. apply Hu.
Qed.

(** Releasing the lock of [cpu] leaves none held. *)
Lemma unlock_cpu_spec s s0 regs fl cpu c (Q : () → kst St → Prop) :
  heap_ok s regs fl → unlocked s0 → cpu_caches s !! cpu = Some c → locks s = (<[cpu := true]> (locks s0).1, false) →
  (∀ s', heap_ok s' regs fl → locks s' = locks s0 → kmem s' = kmem s → vm s' = vm s → Q () s') →
  swp (unlock_cpu cpu) s Q.
Proof.
  intros Hh (Hf & Hg) Hc Hl HQ. unfold unlock_cpu. apply (upd_cache_spec s cpu c); [done|]. apply HQ; try done; [by apply heap_set_lock|].
  rewrite locks_set_lock, Hl. simpl. rewrite list_insert_insert_eq. rewrite (surjective_pairing (locks s0)), Hg. f_equal. simpl.
  apply list_insert_id. assert (cpu < length (locks s0).1)%nat as Hlt.
  { apply (f_equal (length ∘ fst)) in Hl. simpl in Hl |- *. rewrite length_insert, !length_fmap in Hl. rewrite length_fmap, <- Hl. by eapply lookup_lt_Some. }
  destruct (lookup_lt_is_Some_2 _ _ Hlt) as (x & Hx). rewrite Forall_lookup in Hf. by rewrite <- (Hf cpu x Hx).
Qed.

Lemma unlocked_same s s' : unlocked s → locks s' = locks s → unlocked s'.
Proof. unfold unlocked. by intros H ->. Qed.

(** ** Allocating *)

Lemma refill_spec s regs fl cpu c b k (Q : () → kst St → Prop) :
  heap_ok s regs fl → cpu_caches s !! cpu = Some c → global_lock s = false → room (vm s) k → 1 ≤ k →
  (∀ s' regs' fl', heap_ok s' regs' fl' → live_same regs regs' → fl' cpu b ≠ [] → locks s' = locks s → room (vm s') (k - 1) → Q () s') →
  swp (refill cpu b) s Q.
Proof.
  intros Hh Hc Hg Hroom Hk HQ. unfold refill. apply swp_bind. unfold lock_global, swp at 1. rewrite Hg. apply swp_bind.
  unfold alloc_page_locked. apply (get_pages_spec _ regs fl 1 k); [by apply heap_set_global|done|lia|].
  intros virt s1 H1 L1 Hap Ho Hvm _ _ R1. apply swp_ret. apply swp_bind. unfold unlock_global, swp at 1.
  destruct (locks_cache (set_global true s) s1 cpu c L1 Hc) as (c1 & Hc1 & _).
  pose proof (bsize_bounds b) as (Hb & _ & Hdiv). change (1 * BLOCK_SIZE) with BLOCK_SIZE in *.
  assert (Z.of_nat (Z.to_nat (BLOCK_SIZE / bsize b)) * bsize b = BLOCK_SIZE) as E.
  { rewrite Z2Nat.id by (unfold BLOCK_SIZE; dlia). rewrite Z.mul_comm. symmetry. apply Z.div_exact; lia. }
  apply (refill_loop_spec _ _ regs fl cpu c1); [by apply heap_set_global|done|lia| | | |by destruct Ho as (? & _)|].
  - unfold BLOCK_SIZE in Hvm. clear - Hvm. dlia.
  - right. rewrite E, Z.add_0_r. done.
  - rewrite E, Z.add_0_r. done.
  - intros s2 regs2 fl2 H2 L2 Hne V2 Lk2. apply (HQ s2 regs2 fl2); try done.
    + apply Hne. right. intros E0. rewrite E0 in E. unfold BLOCK_SIZE in E. simpl in E. lia.
    + rewrite Lk2. unfold locks in *. simpl in *. rewrite Hg. by injection L1 as ->.
    + by rewrite V2.
Qed.

(** The block is set up in memory that is no region yet. *)
Lemma finish_alloc_spec s regs fl a size (Q : Z → kst St → Prop) :
  heap_ok s regs fl → apart regs a (span_of size) → own (vm s) a (span_of size) → a mod 16 = 0 → 0 < size < 2 ^ 62 →
  (is_large size = true → a mod BLOCK_SIZE = 0 ∧ areas (vm s) a ≠ None ∧ ∀ x, a < x < a + span_of size → areas (vm s) x = None) →
  (∀ s' bs, heap_ok s' (<[a := RLive bs]> regs) fl → zlen bs = size → vm s' = vm s → locks s' = locks s → Q (a + 32) s') →
  swp (setup_block a size) s Q.
Proof.
  intros Hh Hap Ho Hm Hs Hl HQ. pose proof (span_bounds size Hs) as Hsp.
  apply (setup_block_spec taken s a (span_of size)); [done|lia|lia|]. intros m' bs Hc Hb Hlen. apply (HQ _ bs); try done.
  eapply heap_insert; rewrite ?Hlen; try done.
  - by eapply heap_write.
  - unfold area_ok. simpl. by rewrite Hlen.
Qed.

(** What an allocation leaves behind: a new block at [a] and [k] pages. *)
Definition allocated s0 regs (size k : Z) (Q : Z → kst St → Prop) : Prop :=
  ∀ s' regs' fl' a bs, heap_ok s' (<[a := RLive bs]> regs') fl' → live_same regs regs' → regs' !! a = None → zlen bs = size →
    locks s' = locks s0 → room (vm s') k → Q (a + 32) s'.

Lemma slab_alloc_spec s regs fl cpu c b size k (Q : Z → kst St → Prop) :
  heap_ok s regs fl → unlocked s → cpu_caches s !! cpu = Some c → 0 < size < 2 ^ 62 → pick_bucket (size + 48) = Some b →
  room (vm s) k → 1 ≤ k → allocated s regs size (k - 1) Q → swp (slab_alloc cpu b size) s Q.
Proof.
  intros Hh Hu Hc Hs Hb Hroom Hk HQ. assert (span_of size = bsize b) as Esp by (unfold span_of; by rewrite Hb).
  assert (is_large size = false) as Hlg by (unfold is_large; by rewrite Hb). pose proof (bsize_bounds b) as Hbs.
  unfold slab_alloc. apply swp_bind, (lock_cpu_spec s regs fl cpu c); [done|done|done|]. intros s1 H1 L1 _ V1 E1.
  assert (cpu_caches s1 !! cpu = Some (set_lock true c)) as Hc1.
  { rewrite E1. simpl. apply list_lookup_insert_eq. by eapply lookup_lt_Some. }
  apply swp_bind, (cache_spec s1 cpu (set_lock true c)); [done|]. apply swp_bind.
  apply (swp_mono _ _ (λ _ s', ∃ regs' fl', heap_ok s' regs' fl' ∧ live_same regs regs' ∧ fl' cpu b ≠ [] ∧ locks s' = locks s1 ∧ room (vm s') (k - 1))).
  { apply swp_when; intros Hn.
    - apply (refill_spec s1 regs fl cpu (set_lock true c) b k); [done|done|by apply (f_equal snd) in L1|by rewrite V1|lia|].
      intros s2 regs2 fl2 ? ? ? ? ?. by exists regs2, fl2.
    - apply Z.eqb_neq in Hn. exists regs, fl. split_and!; [done|done| |done|rewrite V1; eapply law_room; [done|lia]].
      intros E0. destruct (hk_caches _ _ _ _ _ H1 _ _ Hc1 b) as (_ & Hcnt). rewrite E0 in Hcnt. done. }
  intros _ s2 (regs2 & fl2 & H2 & Hlive & Hne & L2 & R2). destruct (fl2 cpu b) as [|a l] eqn:Efl; [done|].
  destruct (locks_cache s1 s2 cpu _ L2 Hc1) as (c2 & Hc2 & _).
  apply swp_bind, (pop_slot_spec taken areas room s2 regs2 fl2 cpu c2 b a l); [done|done|done|]. intros s3 H3 Hap Ho Hm Hra V3 L3.
  destruct (locks_cache s2 s3 cpu _ L3 Hc2) as (c3 & Hc3 & _).
  apply swp_bind, (unlock_cpu_spec s3 s (delete a regs2) (set_list fl2 cpu b l) cpu c3); [done|done|done|congruence|]. intros s4 H4 L4 _ V4.
  eapply finish_alloc_spec; [exact H4|by rewrite Esp|by rewrite Esp, V4|done|done|by rewrite Hlg|].
  intros s5 bs H5 Hlen V5 L5. apply (HQ s5 (delete a regs2) (set_list fl2 cpu b l) a bs); [done| |apply lookup_delete_eq|done|congruence|].
  - intros a' bs'. rewrite lookup_delete_Some, <- (Hlive a' bs'). split; [naive_solver|]. intros Hr. split; [|done]. intros <-. by rewrite Hra in Hr.
  - by rewrite V5, V4, V3.
Qed.

(** The pages a call may need. *)
Definition pages_for (size : Z) : Z := match pick_bucket (size + 48) with Some _ => 1 | None => page_count_of (size + 48) end.

Lemma kalloc_spec s regs fl cpu c size k (Q : Z → kst St → Prop) :
  heap_ok s regs fl → unlocked s → cpu_caches s !! cpu = Some c → 0 < size < 2 ^ 62 → room (vm s) k → pages_for size ≤ k →
  allocated s regs size (k - pages_for size) Q → swp (kalloc cpu size) s Q.
Proof.
  intros Hh Hu Hc Hs Hroom Hk HQ. unfold kalloc. rewrite (proj2 (Z.eqb_neq _ _)) by lia. change metadata_overhead with 48.
  rewrite (u64_addr (size + 48)) by lia. unfold pages_for in *. destruct (pick_bucket (size + 48)) as [b|] eqn:Eb.
  { by eapply (slab_alloc_spec s regs fl cpu c). }
  pose proof (page_count_bounds (size + 48) ltac:(lia) ltac:(lia)) as (Hp0 & Hp1).
  assert (span_of size = page_count_of (size + 48) * BLOCK_SIZE) as Esp by (unfold span_of; by rewrite Eb).
  apply swp_bind. unfold lock_global, swp at 1. replace (global_lock s) with false by (symmetry; apply Hu).
  apply (get_pages_spec _ regs fl _ k); [by apply heap_set_global|done|lia|].
  intros virt s1 H1 L1 Hap Ho Hvm Ha1 Ha2 R1. apply swp_bind. unfold unlock_global, swp at 1.
  eapply finish_alloc_spec; [by apply heap_set_global|by rewrite Esp|by rewrite Esp| |done|by rewrite Esp|].
  { unfold BLOCK_SIZE in Hvm. clear - Hvm. dlia. }
  intros s2 bs H2 Hlen V2 L2. apply (HQ s2 regs fl virt bs); [done|done| |done| |by rewrite V2].
  - eapply (apart_fresh taken areas); [exact H1|exact Hap|unfold BLOCK_SIZE; lia].
  - rewrite L2. unfold locks in *. simpl in *. injection L1 as E1 _. rewrite E1. f_equal. symmetry. apply Hu.
Qed.

(** ** Freeing *)

(** Pages that meet no region go. *)
Lemma heap_shrink s v regs fl a n :
  heap_ok s regs fl → apart regs a (n * BLOCK_SIZE) → a mod BLOCK_SIZE = 0 → 0 < n →
  (∀ p, taken v p ↔ taken (vm s) p ∧ ¬ in_pages a n p) → (∀ p, ¬ in_pages a n p → vm_mapped p v = vm_mapped p (vm s)) →
  areas v a = None → (∀ x, x ≠ a → areas v x = areas (vm s) x) → (∀ x, a < x < a + n * BLOCK_SIZE → areas (vm s) x = None) →
  heap_ok (set_vm v s) regs fl.
Proof.
  intros Hh Hap Ham Hn Ht Hm Ha1 Ha2 Ha3. pose proof Hh as [H1 H2 H3 H4 H5 H6 H7]. split; try done; simpl.
  - intros a' r Hr. destruct (H2 a' r Hr) as ((? & ? & ? & Hp) & ?). split; [|done]. split_and!; try done. intros p Hpp.
    assert (¬ in_pages a n p) as Hno.
    { specialize (Hap a' r Hr). clear - Hap Ham Hpp. unfold in_pages, BLOCK_SIZE in *. dlia. }
    rewrite Ht, Hm by done. destruct (Hp p Hpp). done.
  - intros a' bs Hb. destruct (H6 a' bs Hb) as (Hsz & Hbl & Har). split_and!; [lia|lia|done|].
    pose proof (span_bounds (zlen bs) Hsz) as Hsp. specialize (Hap _ _ Hb). simpl in Hap. unfold BLOCK_SIZE in *.
    intros Hl. destruct (Har Hl) as (? & Hae & Hno). split_and!; [done|rewrite Ha2 by lia; done|].
    intros x Hx. simpl in Hx. destruct (decide (x = a)) as [->|]; [done|]. rewrite Ha2 by done. by apply Hno.
  - intros x Hx. destruct (decide (x = a)) as [->|Hxa]; [done|]. rewrite Ha2 in Hx by done. apply Ht. split; [by apply H7|].
    intros Hin. apply Hx. apply Ha3. clear - Hxa Ham Hin. unfold in_pages, BLOCK_SIZE in *. dlia.
Qed.

Lemma zlen_zeros n : 0 ≤ n → zlen (replicate (Z.to_nat n) 0) = n.
Proof. intros Hn. rewrite length_replicate. lia. Qed.

(** What freeing the block at [a] leaves behind. *)
Definition freed s0 regs a (Q : () → kst St → Prop) : Prop :=
  ∀ s' regs' fl', heap_ok s' regs' fl' → live_same (delete a regs) regs' → locks s' = locks s0 →
    (∀ k, room (vm s0) k → room (vm s') k) → Q () s'.

(** [phys_free; unmap; unregister; vaddr_free], as one change. *)
Lemma release_pages_spec s regs fl a n phys (Q : () → kst St → Prop) :
  heap_ok s regs fl → apart regs a (n * BLOCK_SIZE) → a mod BLOCK_SIZE = 0 → 0 < n → (∀ p, in_pages a n p → taken (vm s) p) →
  (∀ x, a < x < a + n * BLOCK_SIZE → areas (vm s) x = None) →
  (∀ v, heap_ok (set_vm v s) regs fl → (∀ k, room (vm s) k → room v k) → swp unlock_global (set_vm v s) Q) →
  swp (vm_run (vm_phys_free phys n) ;; vm_run (vm_unmap a n) ;; vm_run (vm_unregister a) ;; vm_run (vm_vaddr_free a n) ;; unlock_global) s Q.
Proof.
  intros Hh Hap Ham Hn Htk Hno HQ. destruct (law_phys_free phys n (vm s)) as (T1 & A1 & M1 & R1).
  set (v1 := vm_phys_free phys n (vm s)) in *. destruct (law_unmap a n v1) as (T2 & A2 & M2 & R2).
  set (v2 := vm_unmap a n v1) in *. destruct (law_unregister a v2) as (T3 & A3 & A3' & M3 & R3).
  set (v3 := vm_unregister a v2) in *. destruct (law_vaddr_free a n v3) as (T4 & A4 & M4 & R4).
  { intros p Hp. apply T3, T2, T1. by apply Htk. }
  set (v4 := vm_vaddr_free a n v3) in *.
  repeat (apply swp_bind; unfold vm_run at 1, swp at 1; cbn [vm set_vm]). fold v1. fold v2. fold v3. fold v4.
  apply (HQ v4); [|auto]. eapply heap_shrink; try done.
  - intros p. by rewrite T4, T3, T2, T1.
  - intros p Hp. by rewrite M4, M3, M2, M1.
  - by rewrite A4.
  - intros x Hx. by rewrite A4, A3', A2, A1.
Qed.

Lemma kfree_block_spec s0 s regs fl cpu c a bs (Q : () → kst St → Prop) :
  heap_ok s regs fl → unlocked s0 → cpu_caches s !! cpu = Some c → locks s = (<[cpu := true]> (locks s0).1, false) → vm s = vm s0 →
  regs !! a = Some (RLive bs) → freed s0 regs a Q → swp (kfree_block cpu a (zlen bs)) s Q.
Proof.
  intros Hh Hu Hc Hl V0 Ha HQ. destruct (heap_delete _ _ _ _ _ _ _ Hh Ha) as (Hd & Hap).
  destruct (hk_live _ _ _ _ _ Hh a bs Ha) as (Hsz & _ & Har). destruct (hk_own _ _ _ _ _ Hh a _ Ha) as (Ho & Hm). simpl in Ho.
  unfold kfree_block. change metadata_overhead with 48. rewrite u64_addr by lia. unfold span_of in *.
  unfold area_ok, is_large in Har. cbn [span] in Har. unfold span_of in Har.
  destruct (pick_bucket (zlen bs + 48)) as [b|] eqn:Eb.
  - pose proof (bsize_bounds b) as Hb. unfold memset. apply swp_bind, (store_changed taken); [by rewrite zlen_zeros by lia|].
    intros m' Hch _. rewrite zlen_zeros in Hch by lia. pose proof (heap_write _ _ _ _ _ _ _ _ Hd Hap Hch) as H1.
    apply swp_bind, (push_slot_spec taken areas _ (delete a regs) fl cpu c); [done|done|done|done|done|]. intros s2 H2 V2 L2.
    destruct (locks_cache (set_mem m' s) s2 cpu c L2 Hc) as (c2 & Hc2 & _).
    eapply (unlock_cpu_spec s2 s0); [exact H2|done|done|by rewrite L2|]. intros s3 H3 L3 _ V3.
    eapply HQ; [exact H3| |done|].
    + eapply live_same_free; [done|]. apply lookup_delete_eq.
    + intros k. rewrite V3, V2. simpl. by rewrite V0.
  - apply swp_bind, (unlock_cpu_spec s s0 regs fl cpu c); [done|done|done|done|]. intros s1 H1 L1 M1 V1.
    apply swp_bind. unfold lock_global, swp at 1. replace (global_lock s1) with false by (apply (f_equal snd) in L1; symmetry; rewrite <- (proj2 Hu), <- L1; done).
    destruct (heap_delete _ _ _ _ _ _ _ H1 Ha) as (Hd1 & _). destruct (Har eq_refl) as (Ham & Hae & Hno).
    pose proof (page_count_bounds (zlen bs + 48) ltac:(lia) ltac:(lia)) as (Hp0 & Hp1).
    apply swp_bind, (store_changed taken). { rewrite zlen_zeros by lia. simpl. rewrite V1. eapply own_sub; [exact Ho|lia..]. }
    intros m' Hch _. rewrite zlen_zeros in Hch by lia.
    assert (heap_ok (set_mem m' (set_global true s1)) (delete a regs) fl) as H2.
    { eapply heap_write; [by apply heap_set_global| |exact Hch]. eapply apart_sub; [exact Hap|lia|lia]. }
    apply swp_bind. unfold vm_do, swp at 1. cbn [vm set_mem set_global set_vm]. rewrite law_find, V1.
    destruct (areas (vm s) a) as [phys|] eqn:Ea; [|done].
    eapply release_pages_spec; [apply (heap_set_vm _ _ _ (vm s) H2); simpl; by rewrite ?V1|done|done|done| | |].
    + simpl. intros p Hp. destruct Ho as (_ & _ & _ & Hpp). apply Hpp. clear - Hp Ham. unfold in_pages, BLOCK_SIZE in *. dlia.
    + simpl. intros x Hx. by apply Hno.
    + intros v Hv Hr. unfold unlock_global, swp. eapply HQ; [by apply heap_set_global|done| |].
      * rewrite <- L1. unfold locks. simpl. f_equal. apply (f_equal snd) in L1. rewrite <- (proj2 Hu), <- L1. done.
      * simpl in *. intros k Hk. apply Hr. by rewrite V0.
Qed.

Lemma meta_addr a (v : St) : own v a 32 → u64 (a + 32 - METADATA_SIZE - KALLOC_REDZONE_SIZE) = a.
Proof. intros (H0 & _ & H1 & _). unfold METADATA_SIZE, KALLOC_REDZONE_SIZE. rewrite u64_addr by lia. lia. Qed.

Lemma kfree2_spec s regs fl cpu c a bs (Q : () → kst St → Prop) :
  heap_ok s regs fl → unlocked s → cpu_caches s !! cpu = Some c → regs !! a = Some (RLive bs) →
  freed s regs a Q → swp (kfree2 cpu (a + 32)) s Q.
Proof.
  intros Hh Hu Hc Ha HQ. destruct (hk_own _ _ _ _ _ Hh a _ Ha) as (Ho & _). destruct (hk_live _ _ _ _ _ Hh a bs Ha) as (Hsz & Hbl & _).
  pose proof (span_bounds _ Hsz) as Hsp. simpl in Ho. pose proof Ho as (Ha0 & _). unfold kfree2. rewrite (proj2 (Z.eqb_neq _ _)) by lia.
  rewrite (meta_addr a (vm s)) by (eapply own_sub; [exact Ho|lia..]).
  apply swp_bind, (lock_cpu_spec s regs fl cpu c); [done|done|done|]. intros s1 H1 L1 M1 V1 E1.
  apply swp_bind, (check_block_spec taken s1 a (span_of (zlen bs)) bs); [by rewrite V1|lia|by rewrite M1|].
  eapply (kfree_block_spec s s1); try done. rewrite E1. simpl. apply list_lookup_insert_eq. by eapply lookup_lt_Some.
Qed.

Lemma kfree_spec s regs fl cpu c a bs (Q : () → kst St → Prop) :
  heap_ok s regs fl → unlocked s → cpu_caches s !! cpu = Some c → regs !! a = Some (RLive bs) →
  freed s regs a Q → swp (kfree cpu (a + 32) (zlen bs)) s Q.
Proof.
  intros Hh Hu Hc Ha HQ. destruct (hk_own _ _ _ _ _ Hh a _ Ha) as (Ho & _). destruct (hk_live _ _ _ _ _ Hh a bs Ha) as (Hsz & Hbl & _).
  pose proof (span_bounds _ Hsz) as Hsp. simpl in Ho. pose proof Ho as (Ha0 & _). unfold kfree.
  rewrite (proj2 (Z.eqb_neq (a + 32) _)), (proj2 (Z.eqb_neq (zlen bs) _)) by lia. cbn [orb].
  rewrite (meta_addr a (vm s)) by (eapply own_sub; [exact Ho|lia..]).
  apply swp_bind, (lock_cpu_spec s regs fl cpu c); [done|done|done|]. intros s1 H1 L1 M1 V1 E1.
  apply swp_bind, (check_block_spec taken s1 a (span_of (zlen bs)) bs); [by rewrite V1|lia|by rewrite M1|].
  eapply (kfree_block_spec s s1); try done. rewrite E1. simpl. apply list_lookup_insert_eq. by eapply lookup_lt_Some.
Qed.

(** ** Blocks and their users *)

(** The user writes inside a block. *)
Lemma write_block s regs fl a bs off w :
  heap_ok s regs fl → regs !! a = Some (RLive bs) → 0 ≤ off → off + zlen w ≤ zlen bs →
  heap_ok (set_mem (put_bytes (a + 32 + off) w (kmem s)) s) (<[a := RLive (splice (Z.to_nat off) w bs)]> regs) fl.
Proof.
  intros Hh Ha Hoff Hw. destruct (heap_delete _ _ _ _ _ _ _ Hh Ha) as (Hd & Hap). destruct (hk_own _ _ _ _ _ Hh a _ Ha) as (Ho & Hm).
  destruct (hk_live _ _ _ _ _ Hh a bs Ha) as (Hsz & Hbl & Har). pose proof (span_bounds _ Hsz) as Hsp. simpl in Ho.
  assert (length (splice (Z.to_nat off) w bs) = length bs) as Hlen by (apply length_splice_in; lia).
  pose proof (changed_put (a + 32 + off) w (kmem s)) as Hch.
  rewrite <- insert_delete_eq. eapply heap_insert; rewrite ?Hlen; try done.
  - eapply heap_write; [exact Hd| |exact Hch]. eapply apart_sub; [exact Hap|lia|lia].
  - destruct Hbl as [B1 B2 B3 B4 B5]. split; rewrite ?Hlen; simpl.
    + rewrite (changed_bytes _ _ _ _ _ _ Hch) by lia. done.
    + rewrite (changed_bytes _ _ _ _ _ _ Hch) by lia. done.
    + rewrite (changed_bytes _ _ _ _ _ _ Hch) by lia. done.
    + rewrite bytes_at_splice by lia. by rewrite B4.
    + rewrite (changed_bytes _ _ _ _ _ _ Hch) by lia. done.
  - unfold area_ok in *. simpl in *. by rewrite Hlen.
Qed.

(** A block whose red zones or magic are damaged is not touched: the call
    takes the lock, looks and gives the lock back. *)
Lemma kfree2_damaged s cpu c a size :
  cpu_caches s !! cpu = Some c → c_lock c = false → own (vm s) a (size + 48) → 0 < size → byte_mem (kmem s) →
  bytes_at (kmem s) a 8 = le_bytes 8 size →
  bytes_at (kmem s) (a + 16) 16 ≠ redzone ∨ bytes_at (kmem s) (a + 32 + size) 16 ≠ redzone →
  swp (kfree2 cpu (a + 32)) s (λ _ s', kmem s' = kmem s ∧ vm s' = vm s ∧ cpu_caches s' = cpu_caches s ∧ global_lock s' = global_lock s).
Proof.
  intros Hc Hlk Ho Hs Hbm Hsize Hbad. pose proof Ho as (Ha0 & _ & Hmax & _). unfold kfree2. rewrite (proj2 (Z.eqb_neq _ _)) by lia.
  rewrite (meta_addr a (vm s)) by (eapply own_sub; [exact Ho|lia..]). apply swp_bind. unfold lock_cpu.
  apply swp_bind, (cache_spec s cpu c); [done|]. rewrite Hlk. apply (upd_cache_spec s cpu c); [done|].
  set (s1 := set_caches _ s). apply swp_bind.
  assert (cpu_caches s1 !! cpu = Some (set_lock true c)) as Hc1.
  { apply list_lookup_insert_eq. by eapply lookup_lt_Some. }
  assert (swp (unlock_cpu cpu) s1 (λ _ s', kmem s' = kmem s ∧ vm s' = vm s ∧ cpu_caches s' = cpu_caches s ∧ global_lock s' = global_lock s)) as Hun.
  { unfold unlock_cpu. apply (upd_cache_spec s1 cpu (set_lock true c)); [done|]. split_and!; try done. unfold s1. simpl.
    rewrite list_insert_insert_eq. apply list_insert_id. rewrite Hc. f_equal. destruct c. simpl in *. by subst. }
  unfold check_block, load32, load64, METADATA_SIZE. rewrite !(u64_addr (a + _)) by lia.
  apply swp_bind, (load_spec taken); [eapply own_sub; [exact Ho|lia..]|]. destruct (negb _); [by apply swp_ret|].
  apply swp_bind, (check_redzone_spec taken); [eapply own_sub; [exact Ho|lia..]|]. cbn [kmem s1 set_caches].
  destruct (zone_ok 4 (kmem s) (a + 16)) eqn:E1; cbn [negb]; [|by apply swp_ret].
  apply swp_bind, (load_spec taken); [eapply own_sub; [exact Ho|lia..]|]. cbn [kmem s1 set_caches]. rewrite Hsize, le_value_bytes by lia.
  rewrite Z.mod_small by (simpl; lia). rewrite u64_addr by lia.
  apply swp_bind, (check_redzone_spec taken); [eapply own_sub; [exact Ho|lia..]|]. cbn [kmem s1 set_caches].
  rewrite (zone_damaged (kmem s) (a + 32 + size)); [by apply swp_ret|done|].
  destruct Hbad as [Hbad|]; [|done]. rewrite (zone_damaged (kmem s) (a + 16)) in E1 by done. done.
Qed.
End ops.
