(* ===== verification/KallocThm.v ===== *)
(** * The heap a client sees

    A client of the heap allocates blocks on any core, writes and reads inside
    them and frees them; what it reads is what it wrote, whatever else goes on
    in the heap. *)

From S2P Require Import Prelude CMem Bytes StateM Kalloc KallocHeap KallocOps.

Open Scope sm_scope.

(** ** The abstract heap: blocks by the order of their allocation *)


(** [None]: freed. A new block holds anything. *)
Abbreviation blocks := (list (option (list Z))).








Section thm.
Context {St : Type} `{!KernelVm St} (taken : St → Z → Prop) (areas : St → Z → option Z) (room : St → Z → Prop).
Context `{!VmLaws taken areas room}.
Implicit Types (s : kst St) (env : list Z) (hs : blocks).

(** ** The client on the heap *)




















(** [kfree2] of a block whose red zones were overwritten frees nothing: the
    memory, the lists and the pages are as before and the lock is released. *)
Theorem kfree2_keeps_damaged s cpu c a size :
  cpu_caches s !! cpu = Some c → c_lock c = false → own taken (vm s) a (size + 48) → 0 < size → byte_mem (kmem s) →
  bytes_at (kmem s) a 8 = le_bytes 8 size →
  bytes_at (kmem s) (a + 16) 16 ≠ redzone ∨ bytes_at (kmem s) (a + 32 + size) 16 ≠ redzone →
  ∃ s', kfree2 cpu (a + 32) s = Ok ((), s') ∧ kmem s' = kmem s ∧ vm s' = vm s ∧ cpu_caches s' = cpu_caches s ∧ global_lock s' = global_lock s.
Proof.
  intros H1 H2 H3 H4 H5 H6 H7. destruct (swp_elim _ _ _ (kfree2_damaged taken s cpu c a size H1 H2 H3 H4 H5 H6 H7)) as ([] & s' & E & H). eauto.
Qed.
End thm.

(** ** A heap at work *)

Module Demo.
(** Pages are handed out in order and not reused. *)
Record pages := mkPages { pg_next : Z; pg_taken : gset Z; pg_areas : gmap Z Z; pg_mapped : gset Z }.

Definition base_page : Z := 0x100000.
Definition run_of (virt n : Z) : gset Z := list_to_set (seqZ (virt / BLOCK_SIZE) n).

#[local] Instance paged : KernelVm pages := {
  vm_phys_alloc n v := (0x2000, v);
  vm_phys_free _ _ v := v;
  vm_vaddr_alloc n v :=
    let va := (base_page + pg_next v) * BLOCK_SIZE in
    (va, mkPages (pg_next v + n) (pg_taken v ∪ run_of va n) (pg_areas v) (pg_mapped v));
  vm_vaddr_free virt n v := mkPages (pg_next v) (pg_taken v ∖ run_of virt n) (pg_areas v) (pg_mapped v);
  vm_map virt _ n _ v := mkPages (pg_next v) (pg_taken v) (pg_areas v) (pg_mapped v ∪ run_of virt n);
  vm_unmap virt n v := mkPages (pg_next v) (pg_taken v) (pg_areas v) (pg_mapped v ∖ run_of virt n);
  vm_register pa virt _ _ v := mkPages (pg_next v) (pg_taken v) (<[virt := pa]> (pg_areas v)) (pg_mapped v);
  vm_unregister virt v := mkPages (pg_next v) (pg_taken v) (delete virt (pg_areas v)) (pg_mapped v);
  vm_find virt v := pg_areas v !! virt;
  vm_mapped p v := bool_decide (p ∈ pg_mapped v);
  vm_content _ _ := 0 }.

Definition in_use (v : pages) (p : Z) : Prop := p < base_page + pg_next v ∧ p ∈ pg_taken v.
Definition area_at (v : pages) (x : Z) : option Z := pg_areas v !! x.
Definition left_over (v : pages) (k : Z) : Prop := 0 ≤ pg_next v ∧ pg_next v + k ≤ 100000.

Lemma elem_of_run virt n p : p ∈ run_of virt n ↔ in_pages virt n p.
Proof. unfold run_of, in_pages. rewrite elem_of_list_to_set, elem_of_seqZ. lia. Qed.

#[local] Instance paged_laws : VmLaws in_use area_at left_over.
Proof.
  split; unfold in_use, area_at, left_over.
  - lia.
  - intros n v. by eexists _, _.
  - intros n v k (H0 & Hk) Hn. eexists _, _. split; [done|]. simpl. assert ((base_page + pg_next v) * BLOCK_SIZE / BLOCK_SIZE = base_page + pg_next v) as E
      by (by rewrite Z.div_mul). unfold in_pages. rewrite E. unfold base_page, BLOCK_SIZE in *. split_and!; try done; try lia.
    + by rewrite Z.mod_mul.
    + intros p. rewrite elem_of_union, elem_of_run. unfold in_pages, BLOCK_SIZE. rewrite E. split.
      * intros (Hp & [Ht|Hr]); [|right; lia]. destruct (decide (p < 0x100000 + pg_next v)); [by left|right; lia].
      * intros [(Hp & Ht)|Hr]; (split; [lia|]); [by left|right; lia].
  - intros virt pa n flags v. simpl. split_and!; try done.
    + intros p Hp. apply bool_decide_eq_true. apply elem_of_union. right. by apply elem_of_run.
    + intros p Hp%bool_decide_eq_true. apply bool_decide_eq_true. set_solver.
  - intros pa virt n flags v. simpl. intros _. split_and!; try done; [apply lookup_insert_eq|]. intros a Ha. by apply lookup_insert_ne.
  - done.
  - done.
  - intros virt n v. simpl. split_and!; try done. intros p Hp. apply bool_decide_ext. rewrite elem_of_difference, elem_of_run. naive_solver.
  - intros virt v. simpl. split_and!; try done; [apply lookup_delete_eq|]. intros a Ha. by apply lookup_delete_ne.
  - intros virt n v Hin. simpl. split_and!; try done. intros p. rewrite elem_of_difference, elem_of_run. naive_solver.
Qed.

(** Two cores, empty lists. *)
Definition start : kst pages :=
  mkK (λ _, 0) (mkPages 0 ∅ ∅ ∅) (replicate 2 (mkCache (λ _, 0) (λ _, 0) false)) false.




(** A page with a block of 4 bytes whose last red zone is overwritten. *)
Definition damaged : kst pages :=
  mkK (put_bytes (base_page * BLOCK_SIZE + 16) redzone (put_bytes (base_page * BLOCK_SIZE) (le_bytes 8 4) (λ _, 0)))
    (mkPages 1 {[base_page]} ∅ {[base_page]}) (replicate 2 (mkCache (λ _, 0) (λ _, 0) false)) false.

Lemma put_byte_mem a bs m : byte_mem m → Forall (λ b, 0 ≤ b < 256) bs → byte_mem (put_bytes a bs m).
Proof.
  intros Hm Hb x. unfold put_bytes. destruct (_ && _); [|apply Hm]. destruct (bs !! _) as [b|] eqn:E; simpl; [|lia].
  rewrite Forall_lookup in Hb. by apply (Hb _ _ E).
Qed.

Lemma kfree2_keeps_damaged_witness :
  ∃ s', kfree2 0 (base_page * BLOCK_SIZE + 32) damaged = Ok ((), s') ∧ kmem s' = kmem damaged ∧ vm s' = vm damaged ∧
    cpu_caches s' = cpu_caches damaged ∧ global_lock s' = global_lock damaged.
Proof.
  apply (kfree2_keeps_damaged in_use damaged 0 (mkCache (λ _, 0) (λ _, 0) false) (base_page * BLOCK_SIZE) 4); try done.
  - split_and!; try done. intros p Hp. assert (p = base_page) as -> by (unfold base_page, BLOCK_SIZE in *; dlia).
    split; [|done]. split; [done|]. change (base_page ∈ ({[base_page]} : gset Z)). set_solver.
  - apply put_byte_mem; [apply put_byte_mem; [done|]|]; repeat constructor; by vm_compute.
  - right. by vm_compute.
Defined.

(** A size close to 2^64 wraps around in the sum with the overhead and gets a
    slot of 64 bytes. *)
Definition pointer (r : res (Z * kst pages)) : Z := match r with Ok (p, _) => p | _ => 0 end.
Example kalloc_size_wraps : pointer (kalloc 0 (2 ^ 64 - 32) start) = base_page * BLOCK_SIZE + 63 * 64 + 32.
Proof. by vm_compute. Qed.
End Demo.
