(* ===== verification/Net.v ===== *)
(** * The network stack: buffers, Ethernet, ARP, IPv4 and ICMP

    [kernel/net]: the checksums and addresses of [netutils.c], the packet
    buffers of [netbuff.c], and the layers that answer a packet.

    A received packet is the memory from its header to the end of the receive
    buffer; reading past it faults, and so does writing outside a packet
    buffer of 2048 bytes.  Frames handed to the network card are a trace. *)

From S2P Require Import Prelude CMem Bytes StateM.

Open Scope sm_scope.

(** ** [netutils.h], [netutils.c] *)

Definition vxHtons (v : Z) : Z := u16 (Z.lor (Z.shiftl v 8) (Z.shiftr v 8)).
Definition vxNtohs (v : Z) : Z := u16 (Z.lor (Z.shiftr v 8) (Z.shiftl v 8)).
Definition vxHtonl (v : Z) : Z :=
  Z.lor (Z.lor (Z.lor (Z.shiftr (Z.land v 0xFF000000) 24) (Z.shiftr (Z.land v 0x00FF0000) 8))
    (Z.shiftl (Z.land v 0x0000FF00) 8)) (Z.shiftl (Z.land v 0x000000FF) 24).
Definition vxNtohl (v : Z) : Z := vxHtonl v.

(** [addw word, %w0; adcq $0, %0]: the low 16 bits take the word, the whole
    register takes the carry. *)
Definition adc_step (sum w : Z) : Z :=
  let t := sum mod 2 ^ 16 + w in
  u64 (sum - sum mod 2 ^ 16 + t mod 2 ^ 16 + t / 2 ^ 16).

(** The words, low byte first; what is left is none or one byte. *)
Fixpoint adc_loop (sum : Z) (data : list Z) : Z * list Z :=
  match data with
  | lo :: hi :: data => adc_loop (adc_step sum (lo + 256 * hi)) data
  | _ => (sum, data)
  end.

Definition checksum16_adc (data : list Z) : Z :=
  let '(sum, rest) := adc_loop 0 data in
  let sum := match rest with b :: _ => u64 (sum + b) | [] => sum end in
  let sum := Z.land sum 0xFFFF + Z.shiftr sum 16 in
  let sum := Z.land sum 0xFFFF + Z.shiftr sum 16 in
  u16 (not64 sum).

Fixpoint raw_loop (sum : Z) (data : list Z) : Z :=
  match data with
  | lo :: hi :: data => raw_loop (u32 (sum + (lo + 256 * hi))) data
  | [b] => u32 (sum + b)
  | [] => sum
  end.
Definition checksum16_raw (data : list Z) : Z := raw_loop 0 data.

(** [while (sum >> 16) sum = (sum & 0xFFFF) + (sum >> 16)]: three rounds are
    enough for 32 bits. *)
Fixpoint fold_sum (n : nat) (sum : Z) : res Z :=
  match n with
  | O => NoFuel
  | Datatypes.S n => if Z.shiftr sum 16 =? 0 then Ok sum else fold_sum n (u32 (Z.land sum 0xFFFF + Z.shiftr sum 16))
  end.

Definition is_digit (c : Z) : bool := (48 <=? c) && (c <=? 57).

(** The number at the front of a string, and the rest. *)
Fixpoint octet_loop (acc : Z) (addr : list Z) : Z * list Z :=
  match addr with
  | c :: rest => if is_digit c then octet_loop (u32 (acc * 10 + (c - 48))) rest else (acc, addr)
  | [] => (acc, addr)
  end.

(** The octets from the [i]-th on; [None]: the string ended early. The string
    is given without its terminator. *)
Fixpoint inet_loop (n : nat) (i : Z) (addr : list Z) : option (list Z) :=
  match n with
  | O => Some []
  | Datatypes.S n =>
      let '(octet, rest) := octet_loop 0 addr in
      match rest with
      | c :: rest' => (u8 octet ::.) <$> inet_loop n (i + 1) (if c =? 46 then rest' else rest)
      | [] => if i <? 3 then None else (u8 octet ::.) <$> inet_loop n (i + 1) []
      end
  end.
Definition vxInetAddr (addr : list Z) : Z := match inet_loop 4 0 addr with Some bs => le_value bs | None => 0 end.

Definition u8_to_str (val : Z) : list Z :=
  if 100 <=? val then [48 + val / 100; 48 + val mod 100 / 10; 48 + val mod 100 mod 10]
  else if 10 <=? val then [48 + val / 10; 48 + val mod 10]
  else [48 + val].

(** The string written, without the terminator. *)
Definition vxInetNtoa (ip : Z) : list Z :=
  match le_bytes 4 ip with
  | [a; b; c; d] => u8_to_str a ++ [46] ++ u8_to_str b ++ [46] ++ u8_to_str c ++ [46] ++ u8_to_str d
  | _ => []
  end.

(** "192.168.100.80". *)
Definition MYIP : list Z := [49; 57; 50; 46; 49; 54; 56; 46; 49; 48; 48; 46; 56; 48].

(** ** [netbuff.c] *)

Definition NETBUFF_DATA_SIZE : Z := 2048.
Definition NETBUFF_MAX_HEADROOM : Z := 64.
Definition NETBUFF_MAX_TEMP : Z := 32.

(** The bytes from [head] to [end]; [data] and [tail] as offsets from
    [head]. *)
Record netbuff := mkNb { nb_head : list Z; nb_data : Z; nb_tail : Z; nb_length : Z }.

Definition netbuff_put (nb : netbuff) (len : Z) : Z * netbuff :=
  (nb_tail nb, mkNb (nb_head nb) (nb_data nb) (nb_tail nb + len) (u16 (nb_length nb + len))).
Definition netbuff_push (nb : netbuff) (len : Z) : Z * netbuff :=
  (nb_data nb - len, mkNb (nb_head nb) (nb_data nb - len) (nb_tail nb) (u16 (nb_length nb + len))).

Definition nb_store (nb : netbuff) (off : Z) (bs : list Z) : res netbuff :=
  if (0 <=? off) && (off + zlen bs <=? zlen (nb_head nb))
  then Ok (mkNb (splice (Z.to_nat off) bs (nb_head nb)) (nb_data nb) (nb_tail nb) (nb_length nb)) else Fault.

(** [n] bytes of [mem] from [off] on. *)
Definition slice (mem : list Z) (off n : Z) : res (list Z) :=
  if (0 <=? off) && (0 <=? n) && (off + n <=? zlen mem) then Ok (sub (Z.to_nat off) (Z.to_nat n) mem) else Fault.
Definition rd16 (mem : list Z) (off : Z) : res Z := bs ← slice mem off 2; Ok (le_value bs).
Definition rd32 (mem : list Z) (off : Z) : res Z := bs ← slice mem off 4; Ok (le_value bs).

(** ** The device *)

Record netdev := mkDev { mac : list Z; mtu : Z }.

(** Buffers kept for reuse, the last one freed first; frames sent; the counter
    of identifications; how many random numbers were drawn. *)
Record net := mkNet { netbuff_temp : list (list Z); sent : list (list Z); ip_id_counter : Z; drawn : nat }.

Definition set_temp (x : list (list Z)) (s : net) : net := mkNet x (sent s) (ip_id_counter s) (drawn s).
Definition set_sent (x : list (list Z)) (s : net) : net := mkNet (netbuff_temp s) x (ip_id_counter s) (drawn s).
Definition set_ip_id (x : Z) (s : net) : net := mkNet (netbuff_temp s) (sent s) x (drawn s).
Definition set_drawn (x : nat) (s : net) : net := mkNet (netbuff_temp s) (sent s) (ip_id_counter s) x.

(** A new buffer is cleared, a kept one is not. *)
Definition create_netbuff : SM net netbuff := fun s =>
  match netbuff_temp s with
  | [] => Ok (mkNb (replicate (Z.to_nat NETBUFF_DATA_SIZE) 0) NETBUFF_MAX_HEADROOM NETBUFF_MAX_HEADROOM 0, s)
  | b :: rest => Ok (mkNb b NETBUFF_MAX_HEADROOM NETBUFF_MAX_HEADROOM 0, set_temp rest s)
  end.

Definition free_netbuff (nb : netbuff) : SM net () := fun s =>
  if NETBUFF_MAX_TEMP <=? zlen (netbuff_temp s) then Ok ((), s)
  else Ok ((), set_temp (nb_head nb :: netbuff_temp s) s).

(** [dev->nic->ops.send] of the bytes from [data] on. *)
Definition emit (frame : list Z) : SM net () := fun s => Ok ((), set_sent (sent s ++ [frame]) s).
Definition nic_send (nb : netbuff) : SM net () :=
  frame ← sm_lift (slice (nb_head nb) (nb_data nb) (nb_length nb));
  emit frame.

Definition get_next_ip_id : SM net Z := fun s => Ok (ip_id_counter s, set_ip_id (u16 (ip_id_counter s + 1)) s).

Section layers.
Variable dev : netdev.

(** ** [ethernet.c] *)

Definition ETHERNET_HEADER : Z := 14.
Definition ETHER_TYPE_ARP : Z := 0x0806.
Definition ETHER_TYPE_IP : Z := 0x0800.

Definition ethernet_send_frame (nb : netbuff) (ethertype : Z) (dst_mac : list Z) : SM net netbuff :=
  let '(eth, nb) := netbuff_push nb ETHERNET_HEADER in
  nb ← sm_lift (nb_store nb eth (dst_mac ++ mac dev ++ le_bytes 2 ethertype));
  nb ← (if nb_length nb <? 60 then
          let pad_len := 60 - nb_length nb in
          let '(pad_area, nb) := netbuff_put nb pad_len in
          sm_lift (nb_store nb pad_area (replicate (Z.to_nat pad_len) 0))
        else mret nb);
  nic_send nb ;;
  mret nb.

(** ** [arp.c] *)

Definition ARP_PACKET : Z := 28.

Definition arp_reply (ip : Z) (out_mac : list Z) : SM net () :=
  nb ← create_netbuff;
  let '(reply, nb) := netbuff_put nb ARP_PACKET in
  nb ← sm_lift (nb_store nb reply (le_bytes 2 0x0100 ++ le_bytes 2 0x0008 ++ [6; 4] ++ le_bytes 2 0x0200 ++
         mac dev ++ le_bytes 4 (vxInetAddr MYIP) ++ out_mac ++ le_bytes 4 ip));
  nb ← ethernet_send_frame nb 0x0608 out_mac;
  free_netbuff nb.

(** ** [ipv4.c] *)

Definition IPV4_HEADER : Z := 20.
Definition ICMP_PROTOCOL : Z := 1.
Definition TCP_PROTOCOL : Z := 6.

Definition ip_header (total_length protocol src_ip dst_ip checksum : Z) : list Z :=
  [0x45; 0] ++ le_bytes 2 (vxHtons total_length) ++ le_bytes 2 0 ++ le_bytes 2 0 ++ [64; protocol] ++
  le_bytes 2 checksum ++ le_bytes 4 src_ip ++ le_bytes 4 dst_ip.

(** The identification and the fragment field given are not used. *)
Definition fill_ip_header (nb : netbuff) (ip_hdr total_length protocol src_ip dst_ip : Z) : res netbuff :=
  nb ← nb_store nb ip_hdr (ip_header total_length protocol src_ip dst_ip 0);
  hdr ← slice (nb_head nb) ip_hdr IPV4_HEADER;
  nb_store nb (ip_hdr + 10) (le_bytes 2 (checksum16_adc hdr)).

Fixpoint fragment_loop (n : nat) (nb : netbuff) (sent_ max_ip_payload total_payload_len ip_addr dst_ip protocol : Z) (mac_dest : list Z) : SM net () :=
  match n with
  | O => sm_lift NoFuel
  | Datatypes.S n =>
      if sent_ <? total_payload_len then
        let chunk_size := if max_ip_payload <? total_payload_len - sent_ then max_ip_payload else total_payload_len - sent_ in
        frag ← create_netbuff;
        let '(dest, frag) := netbuff_put frag chunk_size in
        chunk ← sm_lift (slice (nb_head nb) (nb_data nb + sent_) chunk_size);
        frag ← sm_lift (nb_store frag dest chunk);
        let '(ip_hdr, frag) := netbuff_push frag IPV4_HEADER in
        frag ← sm_lift (fill_ip_header frag ip_hdr (nb_length frag) protocol ip_addr dst_ip);
        frag ← ethernet_send_frame frag (vxHtons ETHER_TYPE_IP) mac_dest;
        free_netbuff frag ;;
        fragment_loop n nb (u16 (sent_ + chunk_size)) max_ip_payload total_payload_len ip_addr dst_ip protocol mac_dest
      else mret ()
  end.

(** Every fragment carries at least one byte, unless the device takes no more
    than a header. *)
Definition ipv4_send (nb : netbuff) (dst_ip protocol : Z) (mac_dest : list Z) : SM net netbuff :=
  let max_ip_payload := u16 (mtu dev - IPV4_HEADER) in
  let total_payload_len := nb_length nb in
  get_next_ip_id ;;
  let ip_addr := vxInetAddr MYIP in
  if total_payload_len <=? max_ip_payload then
    let '(ip_hdr, nb) := netbuff_push nb IPV4_HEADER in
    nb ← sm_lift (fill_ip_header nb ip_hdr (u16 (total_payload_len + IPV4_HEADER)) protocol ip_addr dst_ip);
    ethernet_send_frame nb (vxHtons ETHER_TYPE_IP) mac_dest
  else
    fragment_loop (Datatypes.S (Z.to_nat total_payload_len)) nb 0 max_ip_payload total_payload_len ip_addr dst_ip protocol mac_dest ;;
    mret nb.

(** ** [icmp.c] *)

(** [ip]: the memory from the IP header on. *)
Definition handle_icmp (ip : list Z) (mac_dst : list Z) : SM net () :=
  version_ihl ← sm_lift (aget ip 0);
  let ip_hdr_len := u16 (Z.land version_ihl 0x0F * 4) in
  tl ← sm_lift (rd16 ip 2);
  let total_len := vxNtohs tl in
  if total_len <? ip_hdr_len + 8 then mret () else
  let icmp_len := u16 (total_len - ip_hdr_len) in
  ff ← sm_lift (rd16 ip 6);
  let frag_field := vxNtohs ff in
  if negb (Z.land frag_field 0x2000 =? 0) || (0 <? Z.land frag_field 0x1FFF) then mret () else
  type ← sm_lift (aget ip ip_hdr_len);
  if type =? 8 then
    nb ← create_netbuff;
    let '(icmp_reply, nb) := netbuff_put nb icmp_len in
    request ← sm_lift (slice ip ip_hdr_len icmp_len);
    nb ← sm_lift (nb_store nb icmp_reply request);
    nb ← sm_lift (nb_store nb icmp_reply [0]);
    nb ← sm_lift (nb_store nb (icmp_reply + 2) [0; 0]);
    reply ← sm_lift (slice (nb_head nb) icmp_reply icmp_len);
    nb ← sm_lift (nb_store nb (icmp_reply + 2) (le_bytes 2 (checksum16_adc reply)));
    src_ip ← sm_lift (rd32 ip 12);
    nb ← ipv4_send nb src_ip ICMP_PROTOCOL mac_dst;
    free_netbuff nb
  else mret ().
End layers.
