(* ===== verification/NetTcp.v ===== *)
(** * TCP

    [kernel/net/tcp.c]: the options of a segment, and the answers to a
    connection request, to an HTTP request and to the end of a connection. *)

From S2P Require Import Prelude CMem Bytes StateM Net.

Open Scope sm_scope.

Definition FLAG_FIN : Z := 0x01.
Definition FLAG_SYN : Z := 0x02.
Definition FLAG_PSH : Z := 0x08.
Definition FLAG_ACK : Z := 0x10.
Definition TCP_HEADER : Z := 20.

(** ** Options *)

Record tcp_options := mkOpts {
  mss : Z; has_wscale : Z; wscale : Z; sack_permitted : Z; has_timestamp : Z; ts_val : Z; ts_ecr : Z }.

Definition set_mss (x : Z) (o : tcp_options) : tcp_options :=
  mkOpts x (has_wscale o) (wscale o) (sack_permitted o) (has_timestamp o) (ts_val o) (ts_ecr o).
Definition set_has_wscale (x : Z) (o : tcp_options) : tcp_options :=
  mkOpts (mss o) x (wscale o) (sack_permitted o) (has_timestamp o) (ts_val o) (ts_ecr o).
Definition set_wscale (x : Z) (o : tcp_options) : tcp_options :=
  mkOpts (mss o) (has_wscale o) x (sack_permitted o) (has_timestamp o) (ts_val o) (ts_ecr o).
Definition set_sack (x : Z) (o : tcp_options) : tcp_options :=
  mkOpts (mss o) (has_wscale o) (wscale o) x (has_timestamp o) (ts_val o) (ts_ecr o).
Definition set_timestamp (v e : Z) (o : tcp_options) : tcp_options :=
  mkOpts (mss o) (has_wscale o) (wscale o) (sack_permitted o) 1 v e.

(** Four bytes, the high one first. *)
Definition be32_at (pkt : list Z) (i : Z) : res Z :=
  a ← aget pkt i; b ← aget pkt (i + 1); c ← aget pkt (i + 2); d ← aget pkt (i + 3);
  Ok (Z.lor (Z.lor (Z.lor (u32 (Z.shiftl a 24)) (Z.shiftl b 16)) (Z.shiftl c 8)) d).

(** [opt] and [end_] are offsets in [pkt]; the options may lie. *)
Fixpoint options_loop (n : nat) (pkt : list Z) (opt end_ : Z) (out : tcp_options) : res tcp_options :=
  match n with
  | O => NoFuel
  | Datatypes.S n =>
      if opt <? end_ then
        kind ← aget pkt opt;
        if kind =? 0 then Ok out
        else if kind =? 1 then options_loop n pkt (opt + 1) end_ out
        else
          len ← aget pkt (opt + 1);
          if kind =? 2 then
            out ← (if len =? 4 then
                     a ← aget pkt (opt + 2); b ← aget pkt (opt + 3); Ok (set_mss (Z.lor (u16 (Z.shiftl a 8)) b) out)
                   else Ok out);
            options_loop n pkt (opt + len) end_ out
          else if kind =? 3 then
            let out := if len =? 3 then set_has_wscale 1 out else out in
            w ← aget pkt (opt + 2);
            options_loop n pkt (opt + len) end_ (set_wscale w out)
          else if kind =? 4 then options_loop n pkt (opt + len) end_ (set_sack 1 out)
          else if kind =? 8 then
            out ← (if len =? 10 then
                     v ← be32_at pkt (opt + 2); e ← be32_at pkt (opt + 6); Ok (set_timestamp v e out)
                   else Ok out);
            options_loop n pkt (opt + len) end_ out
          else if len =? 0 then Ok out
          else options_loop n pkt (opt + len) end_ out
      else Ok out
  end.

Definition no_options : tcp_options := mkOpts 536 0 0 0 0 0 0.

(** [((tcp->offset >> 4) & 0x0F) * 4]. *)
Definition header_len (offset : Z) : Z := Z.land (Z.shiftr offset 4) 0x0F * 4.

(** [n]: a bound on the rounds. *)
Definition parse_tcp_options (n : nat) (pkt : list Z) (tcp : Z) : res tcp_options :=
  offset ← aget pkt (tcp + 12);
  options_loop n pkt (tcp + TCP_HEADER) (tcp + header_len offset) no_options.

Section tcp.
Variable dev : netdev.
(** The random numbers the hardware gives. *)
Variable vxRand : nat → Z.

Definition draw : SM net Z := fun s => Ok (u32 (vxRand (drawn s)), set_drawn (Datatypes.S (drawn s)) s).

Definition our_mss : Z := u16 (mtu dev - IPV4_HEADER - TCP_HEADER).

(** The bytes of the options. *)
Definition build_synack_options (client_opts : tcp_options) : list Z :=
  let m := if mss client_opts <? our_mss then mss client_opts else our_mss in
  [2; 4; Z.land (Z.shiftr m 8) 0xFF; Z.land m 0xFF; 1].

Definition pseudo (src_ip dst_ip tcp_length : Z) : list Z :=
  le_bytes 4 src_ip ++ le_bytes 4 dst_ip ++ [0; TCP_PROTOCOL] ++ le_bytes 2 (vxHtons tcp_length).

(** The first 18 bytes of [struct tcp_header]; the urgent pointer behind them
    is not written. *)
Definition tcp_fields (source_port destination_port sequence acknowledgment offset flags : Z) : list Z :=
  le_bytes 2 source_port ++ le_bytes 2 destination_port ++ le_bytes 4 sequence ++ le_bytes 4 acknowledgment ++
  [offset; flags] ++ le_bytes 2 (vxHtons 65535) ++ [0; 0].

(** [ip]: the memory from the IP header on; [tcp]: where the TCP header is. *)
Definition send_command (ip : list Z) (tcp : Z) (opt : tcp_options) (flags : Z) (mac_dst : list Z) : SM net () :=
  let opt_buf := build_synack_options opt in
  let opt_len := zlen opt_buf in
  nb ← create_netbuff;
  let reply_len := TCP_HEADER + opt_len in
  let '(reply, nb) := netbuff_push nb reply_len in
  nb ← sm_lift (nb_store nb (reply + TCP_HEADER) opt_buf);
  sp ← sm_lift (rd16 ip tcp);
  dp ← sm_lift (rd16 ip (tcp + 2));
  seq ← sm_lift (rd32 ip (tcp + 4));
  r ← draw;
  nb ← sm_lift (nb_store nb reply (tcp_fields dp sp (vxHtonl r) (vxHtonl (u32 (vxNtohl seq + 1))) (u8 (Z.shiftl (5 + opt_len / 4) 4)) flags));
  src_ip ← sm_lift (rd32 ip 12);
  dst_ip ← sm_lift (rd32 ip 16);
  bytes ← sm_lift (slice (nb_head nb) reply reply_len);
  sum ← sm_lift (fold_sum 4 (u32 (checksum16_raw (pseudo dst_ip src_ip (u16 reply_len)) + checksum16_raw bytes)));
  nb ← sm_lift (nb_store nb (reply + 16) (le_bytes 2 (u16 (not32 sum))));
  nb ← ipv4_send dev nb src_ip TCP_PROTOCOL mac_dst;
  free_netbuff nb.

Definition send_tcp_data (ip : list Z) (tcp : Z) (data : list Z) (mac_dst : list Z) : SM net () :=
  let len := zlen data in
  version_ihl ← sm_lift (aget ip 0);
  let ip_hdr_len := u16 (Z.land version_ihl 0x0F * 4) in
  tl ← sm_lift (rd16 ip 2);
  offset ← sm_lift (aget ip (tcp + 12));
  let incoming_data_len := u16 (vxNtohs tl - ip_hdr_len - header_len offset) in
  let total_tcp_len := u16 (TCP_HEADER + len) in
  nb ← create_netbuff;
  let '(payload_ptr, nb) := netbuff_put nb len in
  nb ← sm_lift (nb_store nb payload_ptr data);
  let '(reply, nb) := netbuff_push nb TCP_HEADER in
  sp ← sm_lift (rd16 ip tcp);
  dp ← sm_lift (rd16 ip (tcp + 2));
  seq ← sm_lift (rd32 ip (tcp + 4));
  ack ← sm_lift (rd32 ip (tcp + 8));
  nb ← sm_lift (nb_store nb reply (tcp_fields dp sp ack (vxHtonl (u32 (vxNtohl seq + incoming_data_len))) (Z.shiftl 5 4) (Z.lor (Z.lor FLAG_ACK FLAG_FIN) FLAG_PSH)));
  src_ip ← sm_lift (rd32 ip 12);
  dst_ip ← sm_lift (rd32 ip 16);
  hdr ← sm_lift (slice (nb_head nb) reply TCP_HEADER);
  body ← sm_lift (slice (nb_head nb) payload_ptr len);
  sum ← sm_lift (fold_sum 4 (u32 (u32 (checksum16_raw (pseudo dst_ip src_ip total_tcp_len) + checksum16_raw hdr) + checksum16_raw body)));
  nb ← sm_lift (nb_store nb (reply + 16) (le_bytes 2 (u16 (not32 sum))));
  nb ← ipv4_send dev nb src_ip TCP_PROTOCOL mac_dst;
  free_netbuff nb.

(** The 71 bytes of the response. *)
Definition http_resp : list Z :=
  [72; 84; 84; 80; 47; 49; 46; 49; 32; 50; 48; 48; 32; 79; 75; 13; 10;
   67; 111; 110; 116; 101; 110; 116; 45; 76; 101; 110; 103; 116; 104; 58; 32; 49; 51; 13; 10;
   67; 111; 110; 110; 101; 99; 116; 105; 111; 110; 58; 32; 99; 108; 111; 115; 101; 13; 10;
   13; 10;
   72; 101; 108; 108; 111; 44; 32; 87; 111; 114; 108; 100; 33].

(** [strncmp(payload, "GET ", 4) == 0]. *)
Fixpoint starts_with (pkt : list Z) (i : Z) (word : list Z) : res bool :=
  match word with
  | [] => Ok true
  | c :: word => x ← aget pkt i; if x =? c then starts_with pkt (i + 1) word else Ok false
  end.
Definition GET_ : list Z := [71; 69; 84; 32].

(** The options have at most 40 bytes. *)
Definition OPTION_ROUNDS : nat := 41.

Definition handle_tcp (ip : list Z) (mac_dst : list Z) : SM net () :=
  version_ihl ← sm_lift (aget ip 0);
  let ip_hdr_len := u16 (Z.land version_ihl 0x0F * 4) in
  tl ← sm_lift (rd16 ip 2);
  let total_len := vxNtohs tl in
  let tcp := ip_hdr_len in
  offset ← sm_lift (aget ip (tcp + 12));
  let tcp_hdr_len := header_len offset in
  if (tcp_hdr_len <? 20) || (total_len <? ip_hdr_len + tcp_hdr_len) then mret () else
  flags ← sm_lift (aget ip (tcp + 13));
  let syn := negb (Z.land flags FLAG_SYN =? 0) in
  let ack := negb (Z.land flags FLAG_ACK =? 0) in
  let fin := negb (Z.land flags FLAG_FIN =? 0) in
  client_opts ← sm_lift (parse_tcp_options OPTION_ROUNDS ip tcp);
  sm_when (syn && negb ack) (send_command ip tcp client_opts (Z.lor FLAG_SYN FLAG_ACK) mac_dst) ;;
  sm_when (ack && negb syn)
    (let data_len := u16 (total_len - ip_hdr_len - tcp_hdr_len) in
     let payload := tcp + tcp_hdr_len in
     if (0 <? data_len) && negb (Z.land flags FLAG_PSH =? 0) then
       if 4 <=? data_len then
         get ← sm_lift (starts_with ip payload GET_);
         sm_when get (send_tcp_data ip tcp http_resp mac_dst)
       else mret ()
     else sm_when fin (send_command ip tcp client_opts FLAG_ACK mac_dst)).
End tcp.
