(* ===== verification/NetRx.v ===== *)
(** * Received frames

    The ring of pending frames of [kernel/sys/ioforge/ioforge_nic.c], filled by
    the card's driver, and [socket_receive] of [kernel/net/socket.c], which
    takes a frame out, lets the layers answer it and gives its buffer back.
    Operation by operation the ring is a bounded queue. *)

From S2P Require Import Prelude CMem Bytes StateM Net NetTcp.

Open Scope sm_scope.

Definition PENDING_QUEUE_SIZE : Z := 128.
Definition PENDING_QUEUE_MASK : Z := PENDING_QUEUE_SIZE - 1.

(** [data]: the memory from the frame on, [None] for the null pointer. *)
Record pending_rx := mkRx { rx_id : Z; rx_data : option (list Z); rx_len : Z }.
Definition no_rx : pending_rx := mkRx 0 None 0.
#[global] Instance pending_rx_inhabited : Inhabited pending_rx := populate no_rx.

Record nic := mkNic { pending_queue : list pending_rx; pq_head : Z; pq_tail : Z }.

Definition ioforge_nic_rx (buffer : option (list Z)) (len id : Z) : SM nic () := fun n =>
  if bool_decide (buffer = None) || (len =? 0) then Ok ((), n) else
  let head := pq_head n in
  let next := Z.land (u32 (head + 1)) PENDING_QUEUE_MASK in
  if negb (next =? pq_tail n) then
    queue ← aset (pending_queue n) head (mkRx id buffer len);
    Ok ((), mkNic queue next (pq_tail n))
  else Ok ((), n).

(** [None]: the code's -1. *)
Definition ioforge_receive_pending_queue : SM nic (option pending_rx) := fun n =>
  if pq_tail n =? pq_head n then Ok (None, n) else
  rx ← aget (pending_queue n) (pq_tail n);
  queue ← aset (pending_queue n) (pq_tail n) no_rx;
  Ok (Some rx, mkNic queue (pq_head n) (u32 (pq_tail n + 1) mod PENDING_QUEUE_SIZE)).

(** The ring, the stack, and the buffers given back to the driver. *)
Record rxstate := mkRxState { ring : nic; stack : net; returned : list Z }.

Definition in_ring {A} (m : SM nic A) : SM rxstate A := fun s =>
  '(a, n) ← m (ring s); Ok (a, mkRxState n (stack s) (returned s)).
Definition in_stack {A} (m : SM net A) : SM rxstate A := fun s =>
  '(a, n) ← m (stack s); Ok (a, mkRxState (ring s) n (returned s)).

(** [nic->ops.storeBufferToPool]. *)
Definition ioforge_clear_rx_queue (rx : pending_rx) : SM rxstate () := fun s =>
  Ok ((), mkRxState (ring s) (stack s) (returned s ++ [rx_id rx])).

Definition SOCK_ERR_NODEV : Z := -3.

Section receive.
Variable vxRand : nat → Z.

(** The layers' answer to a frame. *)
Definition dispatch (dev : netdev) (data : list Z) : SM net () :=
  et ← sm_lift (rd16 data 12);
  let ethertype := vxHtons et in
  src_mac ← sm_lift (slice data 6 6);
  let body := drop (Z.to_nat ETHERNET_HEADER) data in
  sm_when (ethertype =? ETHER_TYPE_IP)
    (protocol ← sm_lift (aget body 9);
     sm_when (protocol =? ICMP_PROTOCOL) (handle_icmp dev body src_mac) ;;
     sm_when (protocol =? TCP_PROTOCOL) (handle_tcp dev vxRand body src_mac)) ;;
  sm_when (ethertype =? ETHER_TYPE_ARP)
    (target ← sm_lift (rd32 body 24);
     sender ← sm_lift (rd32 body 14);
     sm_when (vxInetAddr MYIP =? target) (arp_reply dev sender src_mac)).

(** The result and the bytes copied to the caller's buffer. *)
Definition socket_receive (netdev : option netdev) (size : Z) : SM rxstate (Z * list Z) :=
  match netdev with
  | None => mret (SOCK_ERR_NODEV, [])
  | Some dev =>
      rx ← in_ring ioforge_receive_pending_queue;
      match rx with
      | None => mret (0, [])
      | Some rx =>
          let n := if rx_len rx <? size then rx_len rx else size in
          data ← sm_lift (match rx_data rx with Some d => Ok d | None => Fault end);
          in_stack (dispatch dev data) ;;
          bytes ← sm_lift (slice data 0 n);
          ioforge_clear_rx_queue rx ;;
          mret (1, bytes)
      end
  end.
End receive.

(** ** The ring as a bounded queue *)

(** The ring holds the frames [q]: [d] have been taken out so far. *)
Record ring_at (n : nic) (d : Z) (q : list pending_rx) : Prop := mkRing {
  rg_len : zlen (pending_queue n) = 128;
  rg_nonneg : 0 ≤ d;
  rg_tail : pq_tail n = d mod 128;
  rg_head : pq_head n = (d + zlen q) mod 128;
  rg_room : zlen q ≤ 127;
  rg_slots : ∀ i, 0 ≤ i < zlen q → at_ (pending_queue n) ((d + i) mod 128) = at_ q i }.

Definition ring_holds (n : nic) (q : list pending_rx) : Prop := ∃ d, ring_at n d q.

(** The next index, as the two sides compute it. *)
Lemma next_head d : 0 ≤ d → Z.land (u32 (d mod 128 + 1)) PENDING_QUEUE_MASK = (d + 1) mod 128.
Proof.
  intros Hd. change PENDING_QUEUE_MASK with (2 ^ 7 - 1). rewrite land_ones_mod by lia. unfold u32. dlia.
Qed.

Lemma next_tail d : 0 ≤ d → u32 (d mod 128 + 1) mod PENDING_QUEUE_SIZE = (d + 1) mod 128.
Proof. intros Hd. unfold u32, PENDING_QUEUE_SIZE. dlia. Qed.

(** Positions less than 128 apart have different slots. *)
Lemma slot_inj i j : i mod 128 = j mod 128 → -128 < i - j < 128 → i = j.
Proof. intros. dlia. Qed.

Lemma nic_rx_spec n q data len id :
  ring_holds n q → len ≠ 0 →
  ∃ n', ioforge_nic_rx (Some data) len id n = Ok ((), n') ∧
    if zlen q <? 127 then ring_holds n' (q ++ [mkRx id (Some data) len]) else n' = n.
Proof.
  intros [d [Hl Hd Ht Hh Hr Hs]] Hlen. unfold ioforge_nic_rx. rewrite bool_decide_false by done.
  rewrite (proj2 (Z.eqb_neq _ _)) by done. cbn [orb]. rewrite Hh, Ht, next_head by lia.
  case Z.ltb_spec; intros Hq.
  - rewrite (proj2 (Z.eqb_neq _ _)) by (intros E; apply slot_inj in E; lia). cbn [negb].
    rewrite aset_ok by (rewrite Hl; dlia). rewrite bind_Ok. eexists. split; [done|]. exists d.
    split; cbn [pending_queue pq_head pq_tail]; rewrite ?length_insert, ?length_app; cbn [length]; try done; try lia.
    + f_equal. lia.
    + intros i Hi. rewrite at_insert by dlia. rewrite at_app by lia. case_decide as E.
      * assert (i = zlen q) as -> by (symmetry in E; apply slot_inj in E; lia). rewrite decide_False, Z.sub_diag by lia. done.
      * rewrite decide_True; [apply Hs|]; destruct (decide (i = zlen q)) as [->|]; try done; lia.
  - rewrite (proj2 (Z.eqb_eq _ _)); [cbn [negb]; eauto|]. replace (d + zlen q + 1) with (d + 1 * 128) by lia. apply Z_mod_plus_full.
Qed.

Lemma receive_empty n : ring_holds n [] → ioforge_receive_pending_queue n = Ok (None, n).
Proof.
  intros [d [Hl Hd Ht Hh Hr Hs]]. unfold ioforge_receive_pending_queue. rewrite Ht, Hh, Z.add_0_r, Z.eqb_refl. done.
Qed.

Lemma receive_spec n x q :
  ring_holds n (x :: q) → ∃ n', ioforge_receive_pending_queue n = Ok (Some x, n') ∧ ring_holds n' q.
Proof.
  intros [d [Hl Hd Ht Hh Hr Hs]]. cbn [length] in *. unfold ioforge_receive_pending_queue. rewrite Ht, Hh.
  rewrite (proj2 (Z.eqb_neq _ _)) by (intros E; apply slot_inj in E; lia).
  rewrite aget_ok, bind_Ok by (rewrite Hl; dlia). rewrite aset_ok, bind_Ok by (rewrite Hl; dlia).
  rewrite next_tail by lia. replace (at_ (pending_queue n) (d mod 128)) with x.
  2: { specialize (Hs 0). rewrite Z.add_0_r in Hs. rewrite Hs by lia. done. }
  eexists. split; [done|]. exists (d + 1).
  split; cbn [pending_queue pq_head pq_tail]; rewrite ?length_insert; try done; try lia.
  - f_equal. lia.
  - intros i Hi. rewrite at_insert by dlia. rewrite decide_False by (intros E; symmetry in E; apply slot_inj in E; lia).
    replace (d + 1 + i) with (d + (i + 1)) by lia. rewrite Hs by lia. rewrite at_cons by lia.
    rewrite decide_False by lia. f_equal. lia.
Qed.
