(* ===== verification/NetSum.v ===== *)
(** * The Internet checksum

    The reference of RFC 1071, on words with the high byte first and added in
    ones' complement, and that both routines of [netutils.c], which add words
    with the low byte first and fold the carries later, compute it. *)

From S2P Require Import Prelude CMem Bytes Net.

Definition byte_list (l : list Z) : Prop := Forall (λ b, 0 ≤ b < 256) l.

(** ** The reference *)

Fixpoint be_words (data : list Z) : list Z :=
  match data with
  | hi :: lo :: data => 256 * hi + lo :: be_words data
  | [b] => [256 * b]
  | [] => []
  end.

(** Addition in ones' complement: a carry comes back in at the low end. *)
Definition oc_add (a b : Z) : Z := if a + b <? 65536 then a + b else a + b - 65535.
Definition oc_sum (data : list Z) : Z := foldl oc_add 0 (be_words data).
Definition rfc1071 (data : list Z) : Z := 65535 - oc_sum data.

(** A number as two bytes, the high one first. *)
Definition be16 (x : Z) : list Z := [x / 256; x mod 256].

(** ** Sums up to a multiple of 65535 *)

(** The ones' complement value of a sum: in [1 .. 65535], or 0 for 0. *)
Definition norm (s : Z) : Z := if s =? 0 then 0 else 1 + (s - 1) mod 65535.

Fixpoint wsum (data : list Z) : Z :=
  match data with
  | lo :: hi :: data => lo + 256 * hi + wsum data
  | [b] => b
  | [] => 0
  end.

(** Induction two elements at a time. *)
Lemma pairs_ind (P : list Z → Prop) :
  P [] → (∀ b, P [b]) → (∀ a b l, P l → P (a :: b :: l)) → ∀ l, P l.
Proof.
  intros H0 H1 H2 l. assert (P l ∧ ∀ x, P (x :: l)) as [H _]; [|done].
  induction l as [|b l [IH IH']]; [auto|]. split; [apply IH'|]. intros x. by apply H2.
Qed.

Lemma norm_range s : 0 ≤ s → 0 ≤ norm s ≤ 65535.
Proof. unfold norm. intros H. zcases; dlia. Qed.

Lemma norm_small s : 0 ≤ s ≤ 65535 → norm s = s.
Proof. unfold norm. intros H. zcases; dlia. Qed.

(** [norm] depends on the sum modulo 65535 and on its being zero. *)
Lemma norm_eq s t : 0 ≤ s → 0 ≤ t → (s = 0 ↔ t = 0) → s mod 65535 = t mod 65535 → norm s = norm t.
Proof. unfold norm. intros H1 H2 H3 H4. zcases; dlia. Qed.

Lemma norm_mod s : 0 ≤ s → norm s mod 65535 = s mod 65535.
Proof. unfold norm. intros H. zcases; dlia. Qed.

Lemma norm_zero s : 0 ≤ s → norm s = 0 ↔ s = 0.
Proof. unfold norm. intros H. zcases; split; dlia. Qed.

Lemma norm_add s t : 0 ≤ s → 0 ≤ t → norm (norm s + t) = norm (s + t).
Proof.
  intros H1 H2. pose proof (norm_range s H1). pose proof (norm_zero s H1). pose proof (norm_mod s H1).
  apply norm_eq; [lia..|]. rewrite Z.add_mod, H3, <- Z.add_mod by lia. done.
Qed.

Lemma wsum_range l : byte_list l → 0 ≤ wsum l ≤ 65535 * ((zlen l + 1) / 2).
Proof.
  induction l as [|b|a b l IH] using pairs_ind; intros Hb.
  - done.
  - apply Forall_cons in Hb as [Hb _]. cbn [wsum length]. change ((Z.of_nat 1 + 1) / 2) with 1. lia.
  - apply Forall_cons in Hb as [Ha Hb]. apply Forall_cons in Hb as [Hb Hl]. specialize (IH Hl).
    cbn [wsum length]. replace (Z.of_nat (Datatypes.S (Datatypes.S (length l))) + 1) with (zlen l + 1 + 1 * 2) by lia.
    rewrite Z.div_add by lia. lia.
Qed.

(** ** The routine with the carry flag *)

Lemma adc_step_norm s w : 0 ≤ s ≤ 65535 → 0 ≤ w ≤ 65535 → adc_step s w = norm (s + w).
Proof.
  intros Hs Hw. unfold adc_step, u64, norm. cbv zeta. rewrite (Z.mod_small s) by lia.
  rewrite Z.mod_small by dlia. zcases; dlia.
Qed.

Lemma adc_loop_norm l s :
  byte_list l → 0 ≤ s ≤ 65535 →
  ∃ t rest, adc_loop s l = (t, rest) ∧ 0 ≤ t ≤ 65535 ∧
    ((rest = [] ∧ norm t = norm (s + wsum l)) ∨ (∃ b, rest = [b] ∧ 0 ≤ b < 256 ∧ norm (t + b) = norm (s + wsum l))).
Proof.
  revert s. induction l as [|b|a b l IH] using pairs_ind; intros s Hb Hs.
  - exists s, []. repeat split; try lia. left. by rewrite Z.add_0_r.
  - apply Forall_cons in Hb as [Hb _]. exists s, [b]. repeat split; try lia. right. eauto.
  - apply Forall_cons in Hb as [Ha Hb]. apply Forall_cons in Hb as [Hb Hl]. cbn [adc_loop].
    rewrite adc_step_norm by lia. pose proof (norm_range (s + (a + 256 * b))).
    destruct (IH (norm (s + (a + 256 * b))) Hl) as (t & rest & E & Ht & Hr); [lia|].
    exists t, rest. rewrite norm_add in Hr by (pose proof (wsum_range l Hl); lia).
    cbn [wsum]. by replace (s + (a + 256 * b + wsum l)) with (s + (a + 256 * b) + wsum l) by lia.
Qed.

Lemma checksum16_adc_norm l : byte_list l → checksum16_adc l = 65535 - norm (wsum l).
Proof.
  intros Hb. unfold checksum16_adc. destruct (adc_loop_norm l 0 Hb) as (t & rest & -> & Ht & Hr); [lia|].
  change 0xFFFF with (2 ^ 16 - 1). rewrite !land_ones_mod, !shiftr_div by lia.
  assert (∀ s, 0 ≤ s ≤ 65535 + 255 → norm s = norm (wsum l) →
    u16 (not64 ((s mod 2 ^ 16 + s / 2 ^ 16) mod 2 ^ 16 + (s mod 2 ^ 16 + s / 2 ^ 16) / 2 ^ 16)) = 65535 - norm (wsum l)) as H.
  { intros s Hs <-. unfold u16, not64, u64, Z.lnot, norm. zcases; dlia. }
  destruct Hr as [[-> Hr]|(b & -> & Hb' & Hr)].
  - apply H; [lia|done].
  - unfold u64. rewrite (Z.mod_small (t + b)) by lia. apply H; [lia|done].
Qed.

(** ** The routine with late folding *)

Lemma raw_loop_wsum l s : byte_list l → 0 ≤ s → s + wsum l < 2 ^ 32 → raw_loop s l = s + wsum l.
Proof.
  revert s. induction l as [|b|a b l IH] using pairs_ind; intros s Hb Hs Hlt; cbn [raw_loop wsum] in *.
  - lia.
  - apply Forall_cons in Hb as [Hb _]. apply Z.mod_small. lia.
  - apply Forall_cons in Hb as [Ha Hb]. apply Forall_cons in Hb as [Hb Hl]. pose proof (wsum_range l Hl).
    unfold u32. rewrite Z.mod_small by lia. rewrite IH by (done || lia). lia.
Qed.

Lemma checksum16_raw_wsum l : byte_list l → zlen l ≤ 65536 → checksum16_raw l = wsum l.
Proof.
  intros Hb Hl. unfold checksum16_raw. pose proof (wsum_range l Hb).
  rewrite raw_loop_wsum by (done || dlia). lia.
Qed.

(** One round of folding. *)
Lemma fold_sum_step n s :
  0 ≤ s < 2 ^ 32 → fold_sum (Datatypes.S n) s = if s <? 65536 then Ok s else fold_sum n (s mod 2 ^ 16 + s / 2 ^ 16).
Proof.
  intros Hs. cbn [fold_sum]. change 0xFFFF with (2 ^ 16 - 1). rewrite land_ones_mod, shiftr_div by lia.
  unfold u32. rewrite Z.mod_small by dlia. zcases; dlia.
Qed.

Lemma fold_norm s : 65536 ≤ s → norm (s mod 2 ^ 16 + s / 2 ^ 16) = norm s.
Proof. intros Hs. apply norm_eq; dlia. Qed.

(** Three rounds bring 32 bits down to 16. *)
Lemma fold_sum_norm s : 0 ≤ s < 2 ^ 32 → fold_sum 4 s = Ok (norm s).
Proof.
  intros Hs. rewrite fold_sum_step by done. case Z.ltb_spec; intros H1; [by rewrite norm_small by lia|].
  rewrite <- fold_norm by done. remember (s mod 2 ^ 16 + s / 2 ^ 16) as t eqn:Et. assert (0 ≤ t < 2 ^ 17) as Ht by dlia.
  rewrite fold_sum_step by lia. case Z.ltb_spec; intros H2; [by rewrite norm_small by lia|].
  rewrite <- fold_norm by done. remember (t mod 2 ^ 16 + t / 2 ^ 16) as v eqn:Ev. assert (0 ≤ v ≤ 65536) as Hv by dlia.
  rewrite fold_sum_step by lia. case Z.ltb_spec; intros H3; [by rewrite norm_small by lia|].
  by replace v with 65536 by lia.
Qed.

(** ** Byte order *)

Lemma oc_add_norm a b : 0 ≤ a ≤ 65535 → 0 ≤ b ≤ 65535 → oc_add a b = norm (a + b).
Proof. intros Ha Hb. unfold oc_add, norm. zcases; dlia. Qed.

(** Swapping the bytes of every word multiplies the sum by 256. *)
Lemma oc_fold_swap l s :
  byte_list l → 0 ≤ s ≤ 65535 → ∃ t, 0 ≤ t ∧ foldl oc_add s (be_words l) = norm (s + t) ∧
    (t = 0 ↔ wsum l = 0) ∧ t mod 65535 = (256 * wsum l) mod 65535.
Proof.
  revert s. induction l as [|b|a b l IH] using pairs_ind; intros s Hb Hs; cbn [be_words foldl wsum].
  - exists 0. rewrite Z.add_0_r, norm_small by lia. done.
  - apply Forall_cons in Hb as [Hb _]. exists (256 * b). rewrite oc_add_norm by lia. split; [lia|]. split; [done|]. lia.
  - apply Forall_cons in Hb as [Ha Hb]. apply Forall_cons in Hb as [Hb Hl]. pose proof (wsum_range l Hl) as Hw.
    rewrite oc_add_norm by lia. destruct (IH (norm (s + (256 * a + b))) Hl) as (t & Ht & E & Hz & Hm); [apply norm_range; lia|].
    exists (256 * a + b + t). rewrite E, norm_add by lia. split; [lia|]. split; [f_equal; lia|]. split; [lia|].
    replace (256 * (a + 256 * b + wsum l)) with (256 * wsum l + (256 * a + b) + b * 65535) by lia.
    rewrite Z_mod_plus_full, (Z.add_mod (256 * wsum l)), <- Hm, <- Z.add_mod by lia. f_equal. lia.
Qed.

Lemma oc_sum_norm l : byte_list l → oc_sum l = norm (256 * wsum l).
Proof.
  intros Hb. destruct (oc_fold_swap l 0 Hb) as (t & Ht & E & Hz & Hm); [lia|]. unfold oc_sum. rewrite E.
  pose proof (wsum_range l Hb). apply norm_eq; [lia..|done].
Qed.

Lemma norm_swap s : 0 ≤ s → norm (256 * s) = 256 * (norm s mod 256) + norm s / 256.
Proof.
  intros Hs. rewrite <- (norm_small (256 * (norm s mod 256) + norm s / 256)) by (pose proof (norm_range s Hs); dlia).
  pose proof (norm_range s Hs) as Hr. pose proof (norm_zero s Hs) as Hz. pose proof (norm_mod s Hs) as Hm.
  apply norm_eq; [lia|dlia| |].
  - clear Hm. split; intros H; [assert (norm s = 0) as -> by (apply Hz; lia); done|].
    assert (s = 0) as -> by (apply Hz; dlia). done.
  - rewrite (Z.mul_mod 256 s), <- Hm, <- Z.mul_mod by lia. dlia.
Qed.

(** What the code writes low byte first is the checksum, high byte first. *)
Lemma checksum_bytes l : byte_list l → le_bytes 2 (65535 - norm (wsum l)) = be16 (rfc1071 l).
Proof.
  intros Hb. unfold rfc1071, be16. pose proof (wsum_range l Hb) as Hw. rewrite oc_sum_norm, norm_swap by (done || lia).
  pose proof (norm_range (wsum l)). cbn [le_bytes]. rewrite shiftr_div by lia. unfold u8. f_equal; [dlia|]. f_equal. dlia.
Qed.

(** ** What the receiver checks *)

Lemma be16_bytes x : 0 ≤ x < 65536 → byte_list (be16 x).
Proof. intros Hx. repeat constructor; dlia. Qed.

Lemma rfc1071_range l : byte_list l → 0 ≤ rfc1071 l < 65536.
Proof. intros Hb. unfold rfc1071. rewrite oc_sum_norm by done. pose proof (wsum_range l Hb). pose proof (norm_range (256 * wsum l)). lia. Qed.

Lemma wsum_app a b : Nat.Even (length a) → wsum (a ++ b) = wsum a + wsum b.
Proof.
  induction a as [|x|x y a IH] using pairs_ind; intros He.
  - done.
  - destruct He as [k Hk]. cbn in Hk. lia.
  - cbn [app wsum]. rewrite IH; [lia|]. destruct He as [k Hk]. exists (k - 1)%nat. cbn [length] in Hk. lia.
Qed.

(** With its checksum in the place of two zeroes a message sums to all ones. *)
Lemma checksum_verifies a b :
  byte_list a → byte_list b → Nat.Even (length a) →
  oc_sum (a ++ be16 (rfc1071 (a ++ [0; 0] ++ b)) ++ b) = 65535.
Proof.
  intros Ha Hb He. set (z := a ++ [0; 0] ++ b).
  assert (byte_list z) as Hz by (apply Forall_app; split; [done|]; repeat (constructor; [lia|]); done).
  rewrite <- (checksum_bytes z) by done. pose proof (wsum_range a Ha). pose proof (wsum_range b Hb). pose proof (wsum_range z Hz) as Hw.
  pose proof (norm_range (wsum z)) as Hr. pose proof (norm_mod (wsum z)) as Hm.
  assert (0 < wsum z + (65535 - norm (wsum z))) as Hpos by (pose proof (norm_zero (wsum z)); lia).
  assert (wsum z = wsum a + wsum b) as Ez by (unfold z; rewrite wsum_app by done; cbn [app wsum]; lia).
  set (c := 65535 - norm (wsum z)) in *. rewrite oc_sum_norm.
  2: { apply Forall_app; split; [done|]. apply Forall_app; split; [|done]. repeat constructor; unfold u8; dlia. }
  rewrite wsum_app by done. assert (wsum (le_bytes 2 c ++ b) = c + wsum b) as ->.
  { cbn [le_bytes app wsum]. rewrite shiftr_div by lia. unfold u8. dlia. }
  rewrite (norm_eq _ 65535); [done|lia..|]. rewrite Z.mod_same by lia.
  apply Z.mod_divide; [lia|]. apply Z.divide_mul_r. apply Z.mod_divide; [lia|].
  unfold c. replace (wsum a + (65535 - norm (wsum z) + wsum b)) with (wsum z - norm (wsum z) + 1 * 65535) by lia.
  rewrite Z_mod_plus_full, Zminus_mod, Hm, Z.sub_diag by lia. done.
Qed.

(** The checksum over two messages, the first of even length. *)
Lemma raw_sum_bytes a b :
  byte_list a → byte_list b → Nat.Even (length a) → zlen (a ++ b) ≤ 65536 →
  ∃ s, fold_sum 4 (u32 (checksum16_raw a + checksum16_raw b)) = Ok s ∧ le_bytes 2 (u16 (not32 s)) = be16 (rfc1071 (a ++ b)).
Proof.
  intros Ha Hb He Hl. pose proof (wsum_range a Ha). pose proof (wsum_range b Hb).
  rewrite length_app in Hl. rewrite !checksum16_raw_wsum by (done || lia). exists (norm (wsum a + wsum b)).
  unfold u32 at 1. rewrite Z.mod_small by dlia. split; [apply fold_sum_norm; dlia|].
  rewrite <- checksum_bytes, wsum_app by (done || by apply Forall_app).
  pose proof (norm_range (wsum a + wsum b)). f_equal. unfold u16, not32, u32, Z.lnot. dlia.
Qed.

(** C33.  Both checksum routines of [netutils.c] compute the Internet checksum:
    what [checksum16_adc] returns, stored as the code stores it, is the
    checksum of RFC 1071 with the high byte first, and so is the complement of
    the folded sum of [checksum16_raw]; the folding loop ends.  A message with
    that checksum in it passes the receiver's check. *)
Theorem checksums_equal_rfc1071 l :
  byte_list l →
  le_bytes 2 (checksum16_adc l) = be16 (rfc1071 l) ∧
  (zlen l ≤ 65536 → ∃ s, fold_sum 4 (checksum16_raw l) = Ok s ∧ le_bytes 2 (u16 (not32 s)) = be16 (rfc1071 l)) ∧
  ∀ a b, l = a ++ [0; 0] ++ b → Nat.Even (length a) → oc_sum (a ++ le_bytes 2 (checksum16_adc l) ++ b) = 65535.
Proof.
  intros Hb. rewrite checksum16_adc_norm, checksum_bytes by done. split_and!; [done| |].
  - intros Hl. destruct (raw_sum_bytes [] l) as (s & E & H); [constructor|done|by exists 0%nat|done|].
    exists s. rewrite <- E. split; [|done]. f_equal. unfold u32. pose proof (wsum_range l Hb).
    change (checksum16_raw []) with 0. rewrite checksum16_raw_wsum by done. rewrite Z.mod_small; dlia.
  - intros a b -> He. apply Forall_app in Hb as [Ha Hb]. apply checksum_verifies; [done| |done].
    apply Forall_app in Hb as [_ Hb]. done.
Qed.

Lemma checksums_equal_rfc1071_witness :
  le_bytes 2 (checksum16_adc [69; 0; 0; 29; 1; 2; 0; 0; 255]) = be16 (rfc1071 [69; 0; 0; 29; 1; 2; 0; 0; 255]) ∧
  be16 (rfc1071 [69; 0; 0; 29; 1; 2; 0; 0; 255]) = [186; 223].
Proof.
  split; [refine (proj1 (checksums_equal_rfc1071 _ _)); by repeat (constructor; [lia|])|vm_compute; reflexivity].
Defined.
