(* ===== verification/NetFrame.v ===== *)
(** * Frames, and the buffers that hold them

    The messages the stack sends, as the protocols define them, and what the
    operations on a packet buffer do to the bytes it holds. *)

From S2P Require Import Prelude CMem Bytes StateM Net NetSum.

Open Scope sm_scope.

Lemma lift_ok {S A B} (a : A) (f : A → SM S B) s : (sm_lift (Ok a) ≫= f) s = f a s.
Proof. done. Qed.

Lemma swp_eq {S A} (m m' : SM S A) s (Q : A → S → Prop) : m s = m' s → swp m' s Q → swp m s Q.
Proof. unfold swp. by intros ->. Qed.

(** ** Messages on the wire *)

Definition pad60 (f : list Z) : list Z := f ++ replicate (60 - length f) 0.
Definition eth_frame (dst src ethertype p : list Z) : list Z := pad60 (dst ++ src ++ ethertype ++ p).

Definition ip_pre (proto len : Z) : list Z := [0x45; 0] ++ be16 len ++ [0; 0; 0; 0; 64; proto].
Definition ip_hdr_with (proto len : Z) (src dst ck : list Z) : list Z := ip_pre proto len ++ ck ++ src ++ dst.
(** A header with its checksum, and the payload. *)
Definition ip_packet (proto : Z) (src dst p : list Z) : list Z :=
  let hdr := ip_hdr_with proto (20 + zlen p) src dst in hdr (be16 (rfc1071 (hdr [0; 0]))) ++ p.

(** ** Fields *)

Lemma le_bytes_16 x : 0 ≤ x → le_bytes 2 x = [x mod 256; x / 256 mod 256].
Proof. intros Hx. cbn [le_bytes]. by rewrite shiftr_div by lia. Qed.

Lemma vxHtons_val x : 0 ≤ x < 65536 → vxHtons x = 256 * (x mod 256) + x / 256.
Proof.
  intros Hx. unfold vxHtons, u16. rewrite Z.shiftl_mul_pow2, shiftr_div by lia.
  rewrite Z.lor_comm, (Z.lor_comm (x / 2 ^ 8)), lor_mul_add by dlia. dlia.
Qed.

Lemma vxNtohs_htons x : vxNtohs x = vxHtons x.
Proof. unfold vxNtohs, vxHtons. by rewrite Z.lor_comm. Qed.

Lemma htons_bytes x : 0 ≤ x < 65536 → le_bytes 2 (vxHtons x) = be16 x.
Proof. intros Hx. rewrite vxHtons_val, le_bytes_16 by dlia. unfold be16. f_equal; [dlia|]. f_equal. dlia. Qed.

Lemma ntohs_value x : 0 ≤ x < 65536 → vxNtohs (le_value (be16 x)) = x.
Proof.
  intros Hx. unfold be16. rewrite !le_value_cons by dlia. cbn [le_value].
  rewrite vxNtohs_htons, vxHtons_val by dlia. dlia.
Qed.

(** Writing back what was read. *)
Lemma le_bytes_back l : byte_list l → le_bytes (length l) (le_value l) = l.
Proof.
  induction 1 as [|b l Hb Hl IH]; [done|]. cbn [length le_bytes]. rewrite le_value_cons by done.
  rewrite shiftr_div by lia. unfold u8. change (2 ^ 8) with 256. f_equal; [dlia|].
  replace ((b + 256 * le_value l) / 256) with (le_value l) by dlia. done.
Qed.

Lemma le_bytes_bytes n x : byte_list (le_bytes n x).
Proof. revert x. induction n as [|n IH]; intros x; [constructor|]. cbn [le_bytes]. constructor; [unfold u8; dlia|apply IH]. Qed.

Lemma my_ip_bytes : le_bytes 4 (vxInetAddr MYIP) = [192; 168; 100; 80].
Proof. vm_compute. reflexivity. Qed.

(** ** Packet buffers *)

(** A buffer holds [p] behind [room] free bytes. *)
Record nb_holds (nb : netbuff) (room : Z) (p : list Z) : Prop := mkHolds {
  nh_len : zlen (nb_head nb) = NETBUFF_DATA_SIZE;
  nh_bytes : byte_list (nb_head nb);
  nh_data : nb_data nb = room;
  nh_tail : nb_tail nb = room + zlen p;
  nh_length : nb_length nb = zlen p;
  nh_room : 0 ≤ room;
  nh_fits : room + zlen p ≤ NETBUFF_DATA_SIZE;
  nh_sub : sub (Z.to_nat room) (length p) (nb_head nb) = p }.

Definition whole (b : list Z) : Prop := zlen b = NETBUFF_DATA_SIZE ∧ byte_list b.

(** The buffers kept are whole ones. *)
Definition pool_ok (s : net) : Prop := Forall whole (netbuff_temp s).

(** Nothing changed but the pool and the identification. *)
Definition quiet (s s' : net) : Prop := pool_ok s' ∧ sent s' = sent s ∧ drawn s' = drawn s.

Lemma byte_sub i n l : byte_list l → byte_list (sub i n l).
Proof. intros H. unfold sub. by apply Forall_take, Forall_drop. Qed.

Lemma byte_splice i bs l : byte_list l → byte_list bs → byte_list (splice i bs l).
Proof.
  intros Hl Hb. destruct bs as [|b bs]; [done|]. unfold splice. apply Forall_app. split.
  - apply Forall_take, Forall_app. split; [done|]. apply Forall_replicate. lia.
  - apply Forall_app. split; [done|]. by apply Forall_drop.
Qed.

Lemma holds_bytes nb room p : nb_holds nb room p → byte_list p.
Proof. intros H. rewrite <- (nh_sub _ _ _ H). by apply byte_sub, H. Qed.

Lemma create_spec s :
  pool_ok s → swp create_netbuff s (λ nb s', nb_holds nb NETBUFF_MAX_HEADROOM [] ∧ quiet s s' ∧ ip_id_counter s' = ip_id_counter s).
Proof.
  intros Hp. unfold swp, create_netbuff. unfold pool_ok in Hp. destruct (netbuff_temp s) as [|b rest] eqn:E.
  - split; [|unfold quiet, pool_ok; by rewrite E].
    split; cbn; try done; [by apply Forall_replicate; lia|unfold NETBUFF_MAX_HEADROOM, NETBUFF_DATA_SIZE; lia..].
  - apply Forall_cons in Hp as [[Hl Hb] Hr]. split; [|done].
    split; cbn; try done; unfold NETBUFF_MAX_HEADROOM, NETBUFF_DATA_SIZE; lia.
Qed.

Lemma free_spec nb s room p :
  nb_holds nb room p → pool_ok s → swp (free_netbuff nb) s (λ _ s', quiet s s').
Proof.
  intros H Hp. unfold swp, free_netbuff. case Z.leb_spec; intros _; [done|]. split; [|done].
  constructor; [|done]. by split; apply H.
Qed.

(** Room made in front holds what was there before. *)
Lemma push_spec nb room p len :
  nb_holds nb room p → 0 ≤ len ≤ room → ∃ old nb', netbuff_push nb len = (room - len, nb') ∧
    zlen old = len ∧ nb_holds nb' (room - len) (old ++ p).
Proof.
  intros [Hl Hb Hd Ht Hn Hr Hf Hs] Hlen. unfold NETBUFF_DATA_SIZE in *.
  exists (sub (Z.to_nat (room - len)) (Z.to_nat len) (nb_head nb)). unfold netbuff_push. rewrite Hd, Hn.
  assert (length (sub (Z.to_nat (room - len)) (Z.to_nat len) (nb_head nb)) = Z.to_nat len) as Ho by (apply length_sub; lia).
  eexists. split; [done|]. split; [lia|]. split; cbn; rewrite ?length_app, ?Ho; unfold NETBUFF_DATA_SIZE; try lia; try done.
  - unfold u16. rewrite Z.mod_small; lia.
  - rewrite sub_cut. f_equal. rewrite <- Hs at 2. f_equal. lia.
Qed.

Lemma put_spec nb room p len :
  nb_holds nb room p → 0 ≤ len → room + zlen p + len ≤ NETBUFF_DATA_SIZE → ∃ old nb',
    netbuff_put nb len = (room + zlen p, nb') ∧ zlen old = len ∧ nb_holds nb' room (p ++ old).
Proof.
  intros [Hl Hb Hd Ht Hn Hr Hf Hs] Hlen Hfit. unfold NETBUFF_DATA_SIZE in *.
  exists (sub (Z.to_nat room + length p) (Z.to_nat len) (nb_head nb)). unfold netbuff_put. rewrite Ht, Hn.
  assert (length (sub (Z.to_nat room + length p) (Z.to_nat len) (nb_head nb)) = Z.to_nat len) as Ho by (apply length_sub; lia).
  eexists. split; [done|]. split; [lia|]. split; cbn; rewrite ?length_app, ?Ho; unfold NETBUFF_DATA_SIZE; try lia; try done.
  - unfold u16. rewrite Z.mod_small; lia.
  - rewrite sub_cut. by f_equal.
Qed.

(** Bytes written over bytes of the message. *)
Lemma nb_store_spec nb room a old b bs off :
  nb_holds nb room (a ++ old ++ b) → off = room + zlen a → length bs = length old → byte_list bs →
  ∃ nb', nb_store nb off bs = Ok nb' ∧ nb_holds nb' room (a ++ bs ++ b).
Proof.
  intros [Hl Hb Hd Ht Hn Hr Hf Hs] -> Hlen Hbs. unfold NETBUFF_DATA_SIZE in *. rewrite !length_app in *.
  unfold nb_store. rewrite !(proj2 (Z.leb_le _ _)) by lia. cbn [andb]. eexists. split; [done|].
  assert (Z.to_nat (room + zlen a) + length bs ≤ length (nb_head nb))%nat as Hin by lia.
  split; cbn [nb_head nb_data nb_tail nb_length]; unfold NETBUFF_DATA_SIZE; rewrite ?length_app, ?length_splice_in; try lia; try done.
  - by apply byte_splice.
  - apply list_eq. intros k. rewrite lookup_sub. case_decide as Hk.
    + rewrite lookup_splice_in by lia. assert ((a ++ old ++ b) !! k = nb_head nb !! (Z.to_nat room + k)%nat) as Ek.
      { rewrite <- Hs, lookup_sub, decide_True by lia. done. }
      destruct (decide (k < length a)%nat); [rewrite lookup_app_l in Ek |- * by lia; by rewrite decide_False by lia|].
      rewrite lookup_app_r in Ek |- * by lia. destruct (decide (k - length a < length bs)%nat).
      * rewrite decide_True, lookup_app_l by lia. f_equal. lia.
      * rewrite decide_False by lia. rewrite lookup_app_r in Ek |- * by lia. rewrite Hlen. done.
    + symmetry. apply lookup_ge_None_2. rewrite !length_app. lia.
Qed.

Lemma slice_spec nb room a m b off n :
  nb_holds nb room (a ++ m ++ b) → off = room + zlen a → n = zlen m → slice (nb_head nb) off n = Ok m.
Proof.
  intros [Hl Hb Hd Ht Hn Hr Hf Hs] -> ->. unfold NETBUFF_DATA_SIZE in *. rewrite !length_app in *. unfold slice.
  rewrite !(proj2 (Z.leb_le _ _)) by lia. cbn [andb]. f_equal. rewrite Nat2Z.id.
  replace (Z.to_nat (room + zlen a)) with (Z.to_nat room + length a)%nat by lia.
  rewrite <- (sub_sub _ (length a + (length m + length b))), Hs by lia.
  rewrite sub_app_r, Nat.sub_diag, sub_app_l by lia. unfold sub. by rewrite take_ge.
Qed.

(** ** Ethernet and IPv4 *)

Definition MY_IP : list Z := [192; 168; 100; 80].

Lemma my_ip_ok : byte_list MY_IP.
Proof. by repeat (constructor; [lia|]). Qed.

Lemma ip_pre_ok proto len : 0 ≤ proto < 256 → 0 ≤ len < 65536 → byte_list (ip_pre proto len).
Proof. intros Hp Hl. repeat apply Forall_app_2; try (by repeat (constructor; [lia|])). by apply be16_bytes. Qed.

Lemma ip_hdr_ok proto len src dst ck :
  0 ≤ proto < 256 → 0 ≤ len < 65536 → byte_list src → byte_list dst → byte_list ck → byte_list (ip_hdr_with proto len src dst ck).
Proof. intros. unfold ip_hdr_with. apply Forall_app_2; [by apply ip_pre_ok|]. by repeat apply Forall_app_2. Qed.

Lemma zeroes_ok : byte_list [0; 0].
Proof. by repeat (constructor; [lia|]). Qed.

Lemma ip_header_bytes len proto src dst ck :
  0 ≤ len < 65536 → byte_list src → byte_list dst → length src = 4%nat → length dst = 4%nat →
  ip_header len proto (le_value src) (le_value dst) ck = ip_hdr_with proto len src dst (le_bytes 2 ck).
Proof.
  intros Hl Hs Hd Ls Ld. unfold ip_header, ip_hdr_with, ip_pre. rewrite htons_bytes by done. rewrite <- Ls at 1. rewrite <- Ld.
  rewrite !le_bytes_back by done. done.
Qed.

Lemma fill_ip_header_spec nb room old p proto dst :
  nb_holds nb room (old ++ p) → zlen old = 20 → 0 ≤ proto < 256 → byte_list dst → length dst = 4%nat →
  ∃ nb', fill_ip_header nb room (20 + zlen p) proto (vxInetAddr MYIP) (le_value dst) = Ok nb' ∧
    nb_holds nb' room (ip_packet proto MY_IP dst p).
Proof.
  intros Hnb Ho Hproto Hd Hld. assert (20 + zlen p < 65536) as Hlen.
  { pose proof (nh_fits _ _ _ Hnb). pose proof (nh_room _ _ _ Hnb). rewrite length_app in *. unfold NETBUFF_DATA_SIZE in *. lia. }
  unfold fill_ip_header. change (vxInetAddr MYIP) with (le_value MY_IP).
  pose proof my_ip_ok as Hme. rewrite ip_header_bytes by (done || lia). change (le_bytes 2 0) with [0; 0].
  set (h := ip_hdr_with proto (20 + zlen p) MY_IP dst).
  assert (∀ ck, byte_list ck → byte_list (h ck)) as Hbh by (intros; apply ip_hdr_ok; done || lia).
  assert (length (h [0; 0]) = 20%nat) as Hlh by (unfold h, ip_hdr_with; rewrite !length_app, Hld; done).
  destruct (nb_store_spec nb room [] old p (h [0; 0]) room) as (nb1 & -> & H1); [done|cbn; lia|lia|apply Hbh, zeroes_ok|].
  step_ok. cbn [app] in H1. rewrite (slice_spec nb1 room [] (h [0; 0]) p); [|done|cbn; lia|by rewrite Hlh].
  step_ok. rewrite checksum16_adc_norm, checksum_bytes by apply Hbh, zeroes_ok.
  unfold h at 1, ip_hdr_with in H1. rewrite <- !app_assoc in H1.
  destruct (nb_store_spec nb1 room (ip_pre proto (20 + zlen p)) [0; 0] (MY_IP ++ dst ++ p) (be16 (rfc1071 (h [0; 0]))) (room + 10))
    as (nb2 & -> & H2); [done|cbn; lia|done|by apply be16_bytes, rfc1071_range, Hbh, zeroes_ok|].
  exists nb2. split; [done|]. unfold ip_packet. fold h. unfold h at 1, ip_hdr_with. by rewrite <- !app_assoc.
Qed.

(** The receiver's check of the header sent. *)
Lemma ip_packet_verifies proto dst p :
  0 ≤ proto < 256 → byte_list dst → length dst = 4%nat → 20 + zlen p < 65536 →
  oc_sum (take 20 (ip_packet proto MY_IP dst p)) = 65535.
Proof.
  intros Hproto Hd Hld Hlen. unfold ip_packet, ip_hdr_with.
  rewrite take_app_le by (rewrite !length_app; cbn; lia). rewrite take_ge by (rewrite !length_app; cbn; lia).
  apply checksum_verifies; [apply ip_pre_ok; lia|apply Forall_app_2; [apply my_ip_ok|done]|by exists 5%nat].
Qed.

Section layers_spec.
Context (dev : netdev).
Hypothesis mac_len : zlen (mac dev) = 6.
Hypothesis mac_bytes : byte_list (mac dev).
Hypothesis mtu_fits : IPV4_HEADER + NETBUFF_DATA_SIZE ≤ mtu dev < 65536.

Lemma ethernet_spec nb room p ethertype dst s :
  nb_holds nb room p → 14 ≤ room ≤ 64 → zlen dst = 6 → byte_list dst →
  swp (ethernet_send_frame dev nb ethertype dst) s (λ nb' s', let f := eth_frame dst (mac dev) (le_bytes 2 ethertype) p in
    nb_holds nb' (room - 14) f ∧ s' = set_sent (sent s ++ [f]) s).
Proof.
  intros Hnb Hroom Hdst Hdb. unfold ethernet_send_frame.
  destruct (push_spec nb room p ETHERNET_HEADER Hnb) as (old & nb1 & -> & Ho & H1); [unfold ETHERNET_HEADER; lia|].
  unfold ETHERNET_HEADER in *. set (hdr := dst ++ mac dev ++ le_bytes 2 ethertype).
  assert (length hdr = 14%nat) as Hh by (unfold hdr; rewrite !length_app, length_le_bytes; lia).
  destruct (nb_store_spec nb1 (room - 14) [] old p hdr (room - 14)) as (nb2 & E2 & H2); [done|cbn; lia|lia| |].
  { repeat apply Forall_app_2; try done. apply le_bytes_bytes. }
  apply swp_bind, (swp_lift _ nb2); [done|]. cbn [app] in H2.
  apply swp_bind. eapply (swp_mono _ _ (λ nb' s', nb_holds nb' (room - 14) (pad60 (hdr ++ p)) ∧ s' = s)).
  - rewrite (nh_length _ _ _ H2). case Z.ltb_spec; intros Hlt.
    + destruct (put_spec nb2 (room - 14) (hdr ++ p) (60 - zlen (hdr ++ p)) H2) as (o2 & nb3 & -> & Ho2 & H3);
        [lia|unfold NETBUFF_DATA_SIZE; lia|].
      destruct (nb_store_spec nb3 (room - 14) (hdr ++ p) o2 [] (replicate (Z.to_nat (60 - zlen (hdr ++ p))) 0) (room - 14 + zlen (hdr ++ p)))
        as (nb4 & E4 & H4); [by rewrite app_nil_r|done|rewrite length_replicate; lia|apply Forall_replicate; lia|].
      apply (swp_lift _ nb4); [done|]. split; [|done]. unfold pad60.
      rewrite app_nil_r in H4. by replace (60 - length (hdr ++ p))%nat with (Z.to_nat (60 - zlen (hdr ++ p))) by lia.
    + apply swp_ret. split; [|done]. unfold pad60. replace (60 - length (hdr ++ p))%nat with 0%nat by lia. by rewrite app_nil_r.
  - intros nb3 s' [H3 ->]. apply swp_bind. unfold nic_send. apply swp_bind.
    apply (swp_lift _ (pad60 (hdr ++ p))).
    { rewrite (nh_data _ _ _ H3), (nh_length _ _ _ H3). eapply (slice_spec _ (room - 14) [] _ []); [by rewrite app_nil_r|cbn; lia|done]. }
    unfold eth_frame. unfold hdr in H3 |- *. rewrite <- !app_assoc in H3 |- *. by apply swp_ret.
Qed.

Lemma ipv4_send_spec nb room p proto dst mac_dst s :
  nb_holds nb room p → 34 ≤ room ≤ 64 → 0 ≤ proto < 256 → byte_list dst → length dst = 4%nat →
  zlen mac_dst = 6 → byte_list mac_dst → pool_ok s →
  swp (ipv4_send dev nb (le_value dst) proto mac_dst) s (λ nb' s',
    let f := eth_frame mac_dst (mac dev) [8; 0] (ip_packet proto MY_IP dst p) in
    nb_holds nb' (room - 34) f ∧ sent s' = sent s ++ [f] ∧ drawn s' = drawn s ∧ netbuff_temp s' = netbuff_temp s).
Proof.
  intros Hnb Hroom Hproto Hd Hld Hm Hmb Hp. unfold ipv4_send. apply swp_bind.
  eapply (swp_intro _ _ _ (ip_id_counter s)); [done|]. pose proof (nh_fits _ _ _ Hnb) as Hf.
  unfold IPV4_HEADER, NETBUFF_DATA_SIZE in *. rewrite (nh_length _ _ _ Hnb).
  assert (u16 (mtu dev - 20) = mtu dev - 20) as -> by (apply Z.mod_small; lia).
  rewrite (proj2 (Z.leb_le _ _)) by lia.
  destruct (push_spec nb room p 20 Hnb) as (old & nb1 & -> & Ho & H1); [lia|].
  replace (u16 (zlen p + 20)) with (20 + zlen p) by (unfold u16; rewrite Z.mod_small; lia).
  destruct (fill_ip_header_spec nb1 (room - 20) old p proto dst) as (nb2 & E2 & H2); [done..|].
  apply swp_bind, (swp_lift _ nb2); [done|].
  eapply swp_mono; [apply (ethernet_spec nb2 (room - 20)); [done|lia|done..]|].
  cbv beta zeta. change (le_bytes 2 (vxHtons ETHER_TYPE_IP)) with [8; 0].
  intros nb' s' [H3 ->]. replace (room - 34) with (room - 20 - 14) by lia. done.
Qed.

(** A buffer filled, sent and given back. *)
Lemma send_and_free nb room p proto dst mac_dst s :
  nb_holds nb room p → 34 ≤ room ≤ 64 → 0 ≤ proto < 256 → byte_list dst → length dst = 4%nat →
  zlen mac_dst = 6 → byte_list mac_dst → pool_ok s →
  swp (nb' ← ipv4_send dev nb (le_value dst) proto mac_dst; free_netbuff nb') s (λ _ s', pool_ok s' ∧
    sent s' = sent s ++ [eth_frame mac_dst (mac dev) [8; 0] (ip_packet proto MY_IP dst p)] ∧ drawn s' = drawn s).
Proof.
  intros Hnb Hroom Hproto Hd Hld Hm Hmb Hp. apply swp_bind.
  eapply swp_mono; [by apply (ipv4_send_spec nb room p)|]. cbv zeta. intros nb' s1 (H1 & E1 & E2 & E3).
  eapply swp_mono; [eapply (free_spec nb'); [done|unfold pool_ok; by rewrite E3]|].
  intros [] s2 (H2 & E4 & E5). by rewrite E4, E5.
Qed.

End layers_spec.

(** ** Addresses as text *)

Lemma octet_loop_app ds rest acc :
  Forall (λ c, is_digit c = true) ds → octet_loop acc (ds ++ rest) = octet_loop (octet_loop acc ds).1 rest.
Proof. intros H. revert acc. induction H as [|c ds Hc Hds IH]; intros acc; [done|]. cbn [app octet_loop]. by rewrite Hc, IH. Qed.

(** Every number below 256, by evaluation. *)
Definition octet_good (v : Z) : bool :=
  let ds := u8_to_str v in
  forallb is_digit ds && ((octet_loop 0 ds).1 =? v) && (1 <=? zlen ds) && (zlen ds <=? 3).

Lemma octet_text v : 0 ≤ v < 256 →
  Forall (λ c, is_digit c = true) (u8_to_str v) ∧ (octet_loop 0 (u8_to_str v)).1 = v ∧ 1 ≤ zlen (u8_to_str v) ≤ 3.
Proof.
  intros Hv. assert (octet_good v = true) as H by (apply (forall_below 256 octet_good); [vm_compute; reflexivity|lia]).
  unfold octet_good in H. rewrite !andb_true_iff, forallb_forall, Z.eqb_eq, !Z.leb_le in H. destruct H as [[[H1 H2] H3] H4].
  split; [|done]. apply Forall_forall. intros c Hc. by apply H1, list_elem_of_In.
Qed.

(** An octet and the dot behind it, or the last one. *)
Lemma inet_octet n i v rest :
  0 ≤ v < 256 → inet_loop (Datatypes.S n) i (u8_to_str v ++ 46 :: rest) = (v ::.) <$> inet_loop n (i + 1) rest.
Proof.
  intros Hv. destruct (octet_text v Hv) as (H1 & H2 & _). cbn [inet_loop]. rewrite octet_loop_app, H2 by done.
  change (octet_loop v (46 :: rest)) with (v, 46 :: rest). cbv iota beta. replace (u8 v) with v by (symmetry; apply Z.mod_small; lia). done.
Qed.

Lemma inet_last v : 0 ≤ v < 256 → inet_loop 1 3 (u8_to_str v) = Some [v].
Proof.
  intros Hv. destruct (octet_text v Hv) as (H1 & H2 & _). rewrite <- (app_nil_r (u8_to_str v)). cbn [inet_loop].
  rewrite octet_loop_app, H2 by done. cbn. unfold u8. by rewrite Z.mod_small by lia.
Qed.

(** C40.  Reading back an address written as text gives the address, and the
    text with its terminator fits the 16 bytes the callers provide. *)
Theorem inet_roundtrip ip :
  0 ≤ ip < 2 ^ 32 → vxInetAddr (vxInetNtoa ip) = ip ∧ zlen (vxInetNtoa ip) + 1 ≤ 16.
Proof.
  intros Hip. pose proof (le_value_bytes 4 ip) as Hv. pose proof (le_bytes_bytes 4 ip) as Hb. unfold vxInetNtoa.
  destruct (le_bytes 4 ip) as [|a [|b [|c [|d []]]]] eqn:E; try (by apply (f_equal length) in E; rewrite length_le_bytes in E).
  repeat (apply Forall_cons in Hb as [? Hb]). split.
  - unfold vxInetAddr. cbn [app]. rewrite !inet_octet, inet_last by done. cbn [fmap option_fmap option_map].
    rewrite Hv by lia. apply Z.mod_small. lia.
  - rewrite !length_app. cbn [length]. destruct (octet_text a), (octet_text b), (octet_text c), (octet_text d); try done. lia.
Qed.

Lemma inet_roundtrip_witness : vxInetAddr (vxInetNtoa 0x5064A8C0) = 0x5064A8C0 ∧ vxInetNtoa 0x5064A8C0 = MYIP.
Proof. split; [apply (inet_roundtrip 0x5064A8C0); lia|vm_compute; reflexivity]. Defined.
