(* ===== verification/NetIcmp.v ===== *)
(** * Answers to ARP and ICMP

    A received datagram as its header and its payload, followed by whatever
    memory lies behind it, and what [arp_reply] and [handle_icmp] send. *)

From S2P Require Import Prelude CMem Bytes StateM Net NetSum NetFrame.

Open Scope sm_scope.

(** ** Received datagrams *)

Record ip_in := mkIn {
  in_vihl : Z; in_tos : Z; in_length : Z; in_id : Z; in_frag : Z; in_ttl : Z; in_proto : Z; in_sum : Z;
  in_src : list Z; in_dst : list Z; in_opts : list Z }.

Definition ip_wire (h : ip_in) : list Z :=
  [in_vihl h; in_tos h] ++ be16 (in_length h) ++ be16 (in_id h) ++ be16 (in_frag h) ++ [in_ttl h; in_proto h] ++
  be16 (in_sum h) ++ in_src h ++ in_dst h ++ in_opts h.

(** The lengths in the header are those of the options and of the payload. *)
Record in_ok (h : ip_in) (body : list Z) : Prop := mkInOk {
  io_opts : Z.land (in_vihl h) 0x0F * 4 = 20 + zlen (in_opts h);
  io_length : in_length h = 20 + zlen (in_opts h) + zlen body;
  io_small : in_length h < 65536;
  io_frag : 0 ≤ in_frag h < 65536;
  io_src : length (in_src h) = 4%nat;
  io_dst : length (in_dst h) = 4%nat;
  io_src_bytes : byte_list (in_src h);
  io_dst_bytes : byte_list (in_dst h);
  io_body : byte_list body }.

Lemma slice_mid l a m b off n : l = a ++ m ++ b → off = zlen a → n = zlen m → slice l off n = Ok m.
Proof.
  intros -> -> ->. unfold slice. rewrite !length_app, !(proj2 (Z.leb_le _ _)) by lia. cbn [andb]. f_equal.
  rewrite !Nat2Z.id, sub_app_r, Nat.sub_diag, sub_app_l by lia. unfold sub. by rewrite take_ge.
Qed.

Section read.
Context (h : ip_in) (body rest : list Z) (Hin : in_ok h body).
Let ip := ip_wire h ++ body ++ rest.

Lemma ip_wire_len : zlen (ip_wire h) = 20 + zlen (in_opts h).
Proof. unfold ip_wire. rewrite !length_app, (io_src _ _ Hin), (io_dst _ _ Hin). cbn [length be16]. lia. Qed.

Lemma in_vihl_read : aget ip 0 = Ok (in_vihl h).
Proof. done. Qed.

Lemma in_proto_read : aget ip 9 = Ok (in_proto h).
Proof. done. Qed.

Lemma in_hdr_len : u16 (Z.land (in_vihl h) 0x0F * 4) = 20 + zlen (in_opts h).
Proof. rewrite (io_opts _ _ Hin). pose proof (io_small _ _ Hin). rewrite (io_length _ _ Hin) in *. apply Z.mod_small. lia. Qed.

(** The header up to the checksum, of known shape. *)
Let front := [in_vihl h; in_tos h] ++ be16 (in_length h) ++ be16 (in_id h) ++ be16 (in_frag h) ++ [in_ttl h; in_proto h] ++ be16 (in_sum h).

Lemma in_length_read : rd16 ip 2 = Ok (le_value (be16 (in_length h))).
Proof. unfold rd16. by erewrite (slice_mid ip (take 2 front) (be16 (in_length h))) by done. Qed.

Lemma in_length_value : vxNtohs (le_value (be16 (in_length h))) = in_length h.
Proof. pose proof (io_small _ _ Hin). apply ntohs_value. rewrite (io_length _ _ Hin) in *. lia. Qed.

Lemma in_frag_read : rd16 ip 6 = Ok (le_value (be16 (in_frag h))).
Proof. unfold rd16. by erewrite (slice_mid ip (take 6 front) (be16 (in_frag h))) by done. Qed.

Lemma ip_front : ip = front ++ in_src h ++ in_dst h ++ in_opts h ++ body ++ rest.
Proof. unfold ip, ip_wire, front. by rewrite <- !app_assoc. Qed.

Lemma in_src_read : rd32 ip 12 = Ok (le_value (in_src h)).
Proof. unfold rd32. by erewrite (slice_mid ip front (in_src h)) by (apply ip_front || done || by rewrite (io_src _ _ Hin)). Qed.

Lemma in_dst_read : rd32 ip 16 = Ok (le_value (in_dst h)).
Proof.
  unfold rd32. erewrite (slice_mid ip (front ++ in_src h) (in_dst h)); [done|rewrite ip_front, <- app_assoc; reflexivity| |].
  - by rewrite length_app, (io_src _ _ Hin).
  - by rewrite (io_dst _ _ Hin).
Qed.

Lemma in_body_read n : n = zlen body → slice ip (20 + zlen (in_opts h)) n = Ok body.
Proof. intros ->. eapply slice_mid; [done| |done]. by rewrite ip_wire_len. Qed.

Lemma in_byte_read (i : Z) : 0 ≤ i < zlen body → aget ip (20 + zlen (in_opts h) + i) = aget body i.
Proof.
  intros Hi. unfold ip. pose proof ip_wire_len as Hw. unfold aget.
  rewrite lookup_app_r by lia. rewrite lookup_app_l by lia.
  replace (Z.to_nat (20 + zlen (in_opts h) + i) - length (ip_wire h))%nat with (Z.to_nat i) by lia. zcases.
Qed.
End read.

(** ** ARP *)

Section answers.
Context (dev : netdev).
Hypothesis mac_len : zlen (mac dev) = 6.
Hypothesis mac_bytes : byte_list (mac dev).
Hypothesis mtu_fits : IPV4_HEADER + NETBUFF_DATA_SIZE ≤ mtu dev < 65536.

(** An Ethernet reply: our addresses, then those of the one who asked. *)
Definition arp_message (ip out_mac : list Z) : list Z :=
  be16 1 ++ be16 0x0800 ++ [6; 4] ++ be16 2 ++ mac dev ++ MY_IP ++ out_mac ++ ip.

Lemma arp_reply_spec ip out_mac s :
  byte_list ip → length ip = 4%nat → byte_list out_mac → zlen out_mac = 6 → pool_ok s →
  swp (arp_reply dev (le_value ip) out_mac) s (λ _ s', pool_ok s' ∧ drawn s' = drawn s ∧
    sent s' = sent s ++ [eth_frame out_mac (mac dev) (be16 ETHER_TYPE_ARP) (arp_message ip out_mac)]).
Proof.
  intros Hi Li Ho Lo Hp. unfold arp_reply. apply swp_bind. eapply swp_mono; [by apply create_spec|].
  intros nb s1 (H0 & (Hp1 & E1 & E2) & _).
  destruct (put_spec nb _ [] ARP_PACKET H0) as (old & nb1 & -> & Hold & H1); [done|done|].
  rewrite my_ip_bytes. fold MY_IP. rewrite <- Li, le_bytes_back by done. change (le_bytes 2 0x0100) with (be16 1).
  change (le_bytes 2 0x0008) with (be16 0x0800). change (le_bytes 2 0x0200) with (be16 2). fold (arp_message ip out_mac).
  destruct (nb_store_spec nb1 64 [] old [] (arp_message ip out_mac) (64 + 0)) as (nb2 & E & H2).
  { by rewrite app_nil_r. } { done. }
  { unfold arp_message. rewrite !length_app. unfold ARP_PACKET in *. cbn [length be16 MY_IP]. lia. }
  { unfold arp_message. repeat apply Forall_app_2; try done; try (apply be16_bytes; lia); by repeat (constructor; [lia|]). }
  apply swp_bind, (swp_lift _ nb2); [done|]. rewrite app_nil_r in H2. cbn [app] in H2. apply swp_bind.
  eapply swp_mono; [by apply (ethernet_spec dev mac_len mac_bytes nb2 64)|]. cbv zeta. intros nb3 s2 [H3 ->].
  eapply swp_mono; [by eapply (free_spec nb3)|]. intros [] s3 (Hp3 & E3 & E4). rewrite E3, E4. cbn. by rewrite E1, E2.
Qed.

(** ** ICMP *)

Definition echo_reply (code : Z) (data : list Z) : list Z :=
  let m ck := [0; code] ++ ck ++ data in m (be16 (rfc1071 (m [0; 0]))).

Definition is_fragment (h : ip_in) : bool := negb (in_frag h mod 2 ^ 14 =? 0).

(** The largest message a packet buffer holds behind its head room. *)
Definition MAX_ECHO : Z := NETBUFF_DATA_SIZE - NETBUFF_MAX_HEADROOM.

(** What is answered; [Fault]: the message does not fit a buffer. *)
Definition icmp_answer (h : ip_in) (body : list Z) : res (option (list Z)) :=
  if (zlen body <? 8) || is_fragment h then Ok None
  else match body with
       | type :: code :: _ :: _ :: data =>
           if negb (type =? 8) then Ok None
           else if zlen body <=? MAX_ECHO then Ok (Some (echo_reply code data)) else Fault
       | _ => Ok None
       end.

Lemma fragment_test f : 0 ≤ f < 65536 →
  negb (Z.land f 0x2000 =? 0) || (0 <? Z.land f 0x1FFF) = negb (f mod 2 ^ 14 =? 0).
Proof.
  intros Hf. change 0x1FFF with (2 ^ 13 - 1). rewrite land_ones_mod by lia. change 0x2000 with (Z.shiftl 1 13).
  rewrite land_bit_zero, negb_involutive, Z.testbit_eqb by lia.
  zcases; dlia.
Qed.

Lemma echo_reply_verifies code data : 0 ≤ code < 256 → byte_list data → oc_sum (echo_reply code data) = 65535.
Proof. intros Hc Hd. apply checksum_verifies; [by repeat (constructor; [lia|])|done|by exists 1%nat]. Qed.

Section icmp.
Context (h : ip_in) (body rest mac_dst : list Z) (s : net).
Hypothesis Hin : in_ok h body.
Hypothesis Hmac : zlen mac_dst = 6.
Hypothesis Hmacb : byte_list mac_dst.
Hypothesis Hpool : pool_ok s.
Let ip := ip_wire h ++ body ++ rest.

(** The checks in front of the answer. *)
Lemma handle_icmp_guards :
  handle_icmp dev ip mac_dst s =
    if (zlen body <? 8) || is_fragment h then Ok ((), s)
    else if negb (at_ body 0 =? 8) then Ok ((), s)
    else (nb ← create_netbuff;
          let '(icmp_reply, nb) := netbuff_put nb (zlen body) in
          nb ← sm_lift (nb_store nb icmp_reply body);
          nb ← sm_lift (nb_store nb icmp_reply [0]);
          nb ← sm_lift (nb_store nb (icmp_reply + 2) [0; 0]);
          reply ← sm_lift (slice (nb_head nb) icmp_reply (zlen body));
          nb ← sm_lift (nb_store nb (icmp_reply + 2) (le_bytes 2 (checksum16_adc reply)));
          nb ← ipv4_send dev nb (le_value (in_src h)) ICMP_PROTOCOL mac_dst;
          free_netbuff nb) s.
Proof.
  unfold handle_icmp. pose proof (in_hdr_len h body Hin) as Hl. pose proof (io_length _ _ Hin) as Ht. pose proof (io_small _ _ Hin).
  unfold ip. rewrite in_vihl_read, lift_ok, in_length_read, lift_ok, Hl, (in_length_value h body Hin).
  replace (in_length h <? 20 + zlen (in_opts h) + 8) with (zlen body <? 8) by (rewrite Ht; zcases).
  destruct (zlen body <? 8) eqn:E8; [done|]. apply Z.ltb_ge in E8. cbn [orb].
  rewrite in_frag_read, lift_ok, ntohs_value, fragment_test by apply (io_frag _ _ Hin).
  fold (is_fragment h). destruct (is_fragment h); [done|].
  replace (aget (ip_wire h ++ body ++ rest) (20 + zlen (in_opts h))) with (aget body 0).
  2: { rewrite <- (in_byte_read h body rest Hin 0) by lia. f_equal. lia. }
  rewrite aget_ok, lift_ok by lia. destruct (at_ body 0 =? 8); [cbn [negb]|done].
  replace (u16 (in_length h - (20 + zlen (in_opts h)))) with (zlen body) by (unfold u16; rewrite Z.mod_small; lia).
  rewrite (in_body_read h body rest Hin) by done. rewrite (in_src_read h body rest Hin). done.
Qed.

Lemma icmp_reply_spec code c1 c0 data :
  body = 8 :: code :: c1 :: c0 :: data → 8 ≤ zlen body → is_fragment h = false → zlen body ≤ MAX_ECHO →
  swp (handle_icmp dev ip mac_dst) s (λ _ s', pool_ok s' ∧
    sent s' = sent s ++ [eth_frame mac_dst (mac dev) [8; 0] (ip_packet ICMP_PROTOCOL MY_IP (in_src h) (echo_reply code data))] ∧
    drawn s' = drawn s).
Proof.
  intros Eb Hlen Hfr Hmax. pose proof (io_body _ _ Hin) as Hb. unfold MAX_ECHO, NETBUFF_MAX_HEADROOM in *.
  assert (byte_list (code :: data)) as Hcd by (rewrite Eb in Hb; inversion_clear Hb as [|??? H1]; inversion_clear H1 as [|??? H2];
    inversion_clear H2 as [|??? H3]; inversion_clear H3; by constructor).
  eapply swp_eq.
  { rewrite handle_icmp_guards, Hfr, (proj2 (Z.ltb_ge _ _)) by lia.
    replace (at_ body 0) with 8 by (by rewrite Eb). reflexivity. }
  apply swp_bind. eapply swp_mono; [by apply create_spec|]. intros nb s1 (H0 & (Hp1 & E1 & E2) & _).
  destruct (put_spec nb _ [] (zlen body) H0) as (old & nb1 & -> & Hold & H1); [lia|cbn; unfold NETBUFF_MAX_HEADROOM; lia|].
  cbn [app length] in H1. change (NETBUFF_MAX_HEADROOM + Z.of_nat 0) with 64. unfold NETBUFF_MAX_HEADROOM in H1.
  destruct (nb_store_spec nb1 64 [] old [] body 64) as (nb2 & E3 & H2); [by rewrite app_nil_r|done|lia|done|].
  apply swp_bind, (swp_lift _ nb2); [done|]. rewrite app_nil_r in H2. cbn [app] in H2. rewrite Eb in H2.
  destruct (nb_store_spec nb2 64 [] [8] (code :: c1 :: c0 :: data) [0] 64) as (nb3 & E4 & H3); [done..|by repeat (constructor; [lia|])|].
  apply swp_bind, (swp_lift _ nb3); [done|].
  destruct (nb_store_spec nb3 64 [0; code] [c1; c0] data [0; 0] 66) as (nb4 & E5 & H4); [done..|apply zeroes_ok|].
  apply swp_bind, (swp_lift _ nb4); [done|]. set (m ck := [0; code] ++ ck ++ data). fold (m [0; 0]) in H4.
  assert (byte_list (m [0; 0])) as Hm.
  { apply Forall_cons in Hcd as [Hc Hd]. repeat (constructor; [done || lia|]). done. }
  apply swp_bind, (swp_lift _ (m [0; 0])).
  { eapply (slice_spec nb4 64 [] _ []); [by rewrite app_nil_r|done|]. by rewrite Eb. }
  rewrite checksum16_adc_norm, checksum_bytes by done.
  destruct (nb_store_spec nb4 64 [0; code] [0; 0] data (be16 (rfc1071 (m [0; 0]))) 66) as (nb5 & E6 & H5);
    [done..|by apply be16_bytes, rfc1071_range|].
  apply swp_bind, (swp_lift _ nb5); [done|]. fold (m (be16 (rfc1071 (m [0; 0])))) in H5.
  eapply swp_mono; [apply (send_and_free dev mac_len mac_bytes mtu_fits nb5 64 (echo_reply code data) ICMP_PROTOCOL (in_src h)); try done; by apply Hin|].
  cbv beta. intros [] s2 (Hp2 & E7 & E8). by rewrite E7, E8, E1, E2.
Qed.

Lemma icmp_overflow code c1 c0 data :
  body = 8 :: code :: c1 :: c0 :: data → is_fragment h = false → MAX_ECHO < zlen body → handle_icmp dev ip mac_dst s = Fault.
Proof.
  intros Eb Hfr Hmax. unfold MAX_ECHO, NETBUFF_DATA_SIZE, NETBUFF_MAX_HEADROOM in Hmax.
  rewrite handle_icmp_guards, Hfr, (proj2 (Z.ltb_ge _ _)) by lia. replace (at_ body 0) with 8 by (by rewrite Eb).
  change (negb (8 =? 8)) with false. cbn [orb].
  destruct (swp_elim _ _ _ (create_spec s Hpool)) as (nb & s1 & E & H0 & _). unfold mbind at 1, SM_bind at 1. rewrite E.
  unfold netbuff_put. rewrite (nh_tail _ _ _ H0). change (NETBUFF_MAX_HEADROOM + zlen []) with 64.
  assert (∀ d k l, nb_store (mkNb (nb_head nb) d k l) 64 body = Fault) as Hs.
  { intros d k l. unfold nb_store. cbn [nb_head]. rewrite (nh_len _ _ _ H0). unfold NETBUFF_DATA_SIZE.
    rewrite (proj2 (Z.leb_gt (64 + zlen body) 2048)) by lia. by rewrite andb_false_r. }
  unfold mbind at 1, SM_bind at 1. by rewrite Hs.
Qed.
End icmp.
End answers.

(** C18.  An ICMP datagram is handled as the protocol asks, on every branch.  A
    message of less than eight bytes, a fragment and anything but an echo
    request are dropped.  An echo request that fits a packet buffer is answered
    by exactly one frame, to the station it came from: the echo reply with the
    same identifier, sequence number and data, from our address to the
    sender's, in which both the header and the message pass the receiver's
    check.  A longer one, which [handle_icmp] does not refuse, is written past
    the end of the packet buffer. *)
Theorem handle_icmp_refines dev h body rest mac_dst s :
  zlen (mac dev) = 6 → byte_list (mac dev) → IPV4_HEADER + NETBUFF_DATA_SIZE ≤ mtu dev < 65536 →
  in_ok h body → zlen mac_dst = 6 → byte_list mac_dst → pool_ok s →
  match icmp_answer h body with
  | Ok None => handle_icmp dev (ip_wire h ++ body ++ rest) mac_dst s = Ok ((), s)
  | Ok (Some reply) =>
      ∃ s', handle_icmp dev (ip_wire h ++ body ++ rest) mac_dst s = Ok ((), s') ∧ pool_ok s' ∧
        let packet := ip_packet ICMP_PROTOCOL MY_IP (in_src h) reply in
        sent s' = sent s ++ [eth_frame mac_dst (mac dev) [8; 0] packet] ∧
        oc_sum (take 20 packet) = 65535 ∧ oc_sum reply = 65535
  | _ => handle_icmp dev (ip_wire h ++ body ++ rest) mac_dst s = Fault
  end.
Proof.
  intros Hm Hmb Hmtu Hin Hd Hdb Hp. pose proof (handle_icmp_guards dev h body rest mac_dst s Hin) as G. unfold icmp_answer.
  destruct ((zlen body <? 8) || is_fragment h) eqn:E; [done|]. apply orb_false_iff in E as [E8 Hf]. apply Z.ltb_ge in E8.
  destruct body as [|type [|code [|c1 [|c0 data]]]] eqn:Eb; [cbn in E8; lia..|].
  destruct (type =? 8) eqn:Et; cbn [negb].
  2: { rewrite G. change (at_ _ 0) with type. by rewrite Et. }
  apply Z.eqb_eq in Et as ->. rewrite <- Eb in *. case Z.leb_spec; intros Hmax; [|by eapply icmp_overflow].
  destruct (swp_elim _ _ _ (icmp_reply_spec dev Hm Hmb Hmtu h body rest mac_dst s Hin Hd Hdb Hp code c1 c0 data Eb E8 Hf Hmax))
    as ([] & s' & Er & Hp' & Es & _).
  exists s'. pose proof (io_body _ _ Hin) as Hbody. rewrite Eb in Hbody.
  apply Forall_cons in Hbody as [_ Hbody]. apply Forall_cons in Hbody as [Hcode Hbody].
  apply Forall_cons in Hbody as [_ Hbody]. apply Forall_cons in Hbody as [_ Hdata]. split_and!; try done.
  - apply ip_packet_verifies; [done|apply Hin|apply Hin|]. unfold echo_reply. rewrite !length_app.
    unfold MAX_ECHO, NETBUFF_DATA_SIZE, NETBUFF_MAX_HEADROOM in Hmax. rewrite Eb in Hmax. cbn [length be16] in *. lia.
  - by apply echo_reply_verifies.
Qed.
