(* ===== verification/NetOpts.v ===== *)
(** * TCP options and 32-bit fields

    The options of a segment as the protocol defines them, and that
    [parse_tcp_options] reads them. *)

From S2P Require Import Prelude CMem Bytes StateM Net NetTcp NetSum NetFrame.

(** ** 32-bit fields *)

Definition be32 (x : Z) : list Z := [x / 2 ^ 24 mod 256; x / 2 ^ 16 mod 256; x / 2 ^ 8 mod 256; x mod 256].

Lemma be32_ok x : byte_list (be32 x).
Proof. repeat (constructor; [dlia|]). constructor. Qed.

Lemma land_byte_mask x k : 0 ≤ k → Z.land x (Z.shiftl 255 k) = Z.shiftl (x / 2 ^ k mod 256) k.
Proof.
  intros Hk. change 256 with (2 ^ 8). rewrite <- (land_ones_mod (x / 2 ^ k)), <- shiftr_div by lia.
  change (2 ^ 8 - 1) with 255. apply Z.bits_inj'. intros i Hi. rewrite Z.land_spec, !Z.shiftl_spec by done.
  destruct (Z.lt_ge_cases i k).
  - rewrite !(Z.testbit_neg_r _ (i - k)) by lia. by rewrite andb_false_r.
  - rewrite Z.land_spec, Z.shiftr_spec by lia. do 2 f_equal. lia.
Qed.

(** The bytes of a number given by them. *)
Lemma digits a b c d :
  0 ≤ a < 256 → 0 ≤ b < 256 → 0 ≤ c < 256 → 0 ≤ d < 256 →
  let y := a + 256 * (b + 256 * (c + 256 * d)) in
  0 ≤ y < 2 ^ 32 ∧ y mod 256 = a ∧ y / 2 ^ 8 mod 256 = b ∧ y / 2 ^ 16 mod 256 = c ∧ y / 2 ^ 24 = d.
Proof.
  intros Ha Hb Hc Hd y. unfold y. split; [lia|]. split; [dlia|].
  replace ((a + 256 * (b + 256 * (c + 256 * d))) / 2 ^ 8) with (b + 256 * (c + 256 * d)) by dlia. split; [dlia|].
  replace ((a + 256 * (b + 256 * (c + 256 * d))) / 2 ^ 16) with (c + 256 * d) by dlia. split; dlia.
Qed.

Lemma be32_digits a b c d :
  0 ≤ a < 256 → 0 ≤ b < 256 → 0 ≤ c < 256 → 0 ≤ d < 256 → be32 (a + 256 * (b + 256 * (c + 256 * d))) = [d; c; b; a].
Proof.
  intros Ha Hb Hc Hd. destruct (digits a b c d) as (_ & E0 & E1 & E2 & E3); [done..|]. unfold be32.
  rewrite E0, E1, E2, E3. by rewrite Z.mod_small by lia.
Qed.

Lemma digits_of x : 0 ≤ x < 2 ^ 32 → ∃ a b c d, 0 ≤ a < 256 ∧ 0 ≤ b < 256 ∧ 0 ≤ c < 256 ∧ 0 ≤ d < 256 ∧
  x = a + 256 * (b + 256 * (c + 256 * d)).
Proof.
  intros Hx. exists (x mod 256), (x / 256 mod 256), (x / 256 / 256 mod 256), (x / 256 / 256 / 256).
  split_and!; dlia.
Qed.

Lemma vxHtonl_digits a b c d :
  0 ≤ a < 256 → 0 ≤ b < 256 → 0 ≤ c < 256 → 0 ≤ d < 256 →
  vxHtonl (a + 256 * (b + 256 * (c + 256 * d))) = le_value [d; c; b; a].
Proof.
  intros Ha Hb Hc Hd. destruct (digits a b c d) as (Hy & E0 & E1 & E2 & E3); [done..|]. cbv zeta in *.
  set (y := a + 256 * (b + 256 * (c + 256 * d))) in *. unfold vxHtonl.
  change 0xFF000000 with (Z.shiftl 255 24). change 0x00FF0000 with (Z.shiftl 255 16).
  change 0x0000FF00 with (Z.shiftl 255 8). change 0x000000FF with (Z.shiftl 255 0). rewrite !land_byte_mask by lia.
  change (2 ^ 0) with 1. rewrite Z.div_1_r, E0, E1, E2, E3, (Z.mod_small d) by lia. clearbody y.
  rewrite Z.shiftr_shiftl_l, (Z.shiftr_shiftl_l _ 16), !Z.shiftl_shiftl by lia. change (24 - 24) with 0. change (16 - 8) with 8.
  change (8 + 8) with 16. change (0 + 24) with 24. rewrite Z.shiftl_0_r, !Z.shiftl_mul_pow2, !le_value_cons by done. cbn [le_value].
  assert (∀ a b k, 0 ≤ k → 0 ≤ b < 2 ^ k → Z.lor b (a * 2 ^ k) = a * 2 ^ k + b) as Hadd by (intros; rewrite Z.lor_comm; by apply lor_mul_add).
  rewrite (Hadd c d), (Hadd b), (Hadd a) by lia. lia.
Qed.

Lemma htonl_bytes x : 0 ≤ x < 2 ^ 32 → le_bytes 4 (vxHtonl x) = be32 x.
Proof.
  intros (a & b & c & d & Ha & Hb & Hc & Hd & ->)%digits_of. rewrite vxHtonl_digits, be32_digits by done.
  apply (le_bytes_back [d; c; b; a]). by repeat (constructor; [done|]).
Qed.

Lemma le_value_be32_htonl x : 0 ≤ x < 2 ^ 32 → vxHtonl x = le_value (be32 x).
Proof. intros (a & b & c & d & Ha & Hb & Hc & Hd & ->)%digits_of. by rewrite vxHtonl_digits, be32_digits by done. Qed.

Lemma ntohl_value x : 0 ≤ x < 2 ^ 32 → vxNtohl (le_value (be32 x)) = x.
Proof.
  intros (a & b & c & d & Ha & Hb & Hc & Hd & ->)%digits_of. rewrite be32_digits, !le_value_cons by done. cbn [le_value].
  unfold vxNtohl. replace (256 * 0) with 0 by lia. rewrite Z.add_0_r, vxHtonl_digits, !le_value_cons by done. cbn [le_value]. lia.
Qed.

(** ** Options *)

Inductive topt :=
  | TNop
  | TMss (m : Z)
  | TWscale (w : Z)
  | TSack
  | TStamp (v e : Z)
  | TOther (kind : Z) (data : list Z).

Definition topt_wire (o : topt) : list Z :=
  match o with
  | TNop => [1]
  | TMss m => [2; 4] ++ be16 m
  | TWscale w => [3; 3; w]
  | TSack => [4; 2]
  | TStamp v e => [8; 10] ++ be32 v ++ be32 e
  | TOther k d => [k; 2 + zlen d] ++ d
  end.

Definition topt_ok (o : topt) : Prop :=
  match o with
  | TMss m => 0 ≤ m < 65536
  | TStamp v e => 0 ≤ v < 2 ^ 32 ∧ 0 ≤ e < 2 ^ 32
  | TOther k d => k ∉ [0; 1; 2; 3; 4; 8]
  | _ => True
  end.

Definition topt_apply (out : tcp_options) (o : topt) : tcp_options :=
  match o with
  | TMss m => set_mss m out
  | TWscale w => set_wscale w (set_has_wscale 1 out)
  | TSack => set_sack 1 out
  | TStamp v e => set_timestamp v e out
  | TNop | TOther _ _ => out
  end.

Definition opts_wire (os : list topt) : list Z := concat (topt_wire <$> os).

Lemma aget_mid {A} (a l : list A) k i : 0 ≤ k → i = zlen a + k → aget (a ++ l) i = aget l k.
Proof.
  intros Hk ->. unfold aget. rewrite !(proj2 (Z.leb_le _ _)) by lia. rewrite lookup_app_r by lia.
  by replace (Z.to_nat (zlen a + k) - length a)%nat with (Z.to_nat k) by lia.
Qed.

(** The parser's way to read four bytes. *)
Lemma be32_at_value pkt i a b c d :
  0 ≤ a < 256 → 0 ≤ b < 256 → 0 ≤ c < 256 → 0 ≤ d < 256 →
  aget pkt i = Ok d → aget pkt (i + 1) = Ok c → aget pkt (i + 2) = Ok b → aget pkt (i + 3) = Ok a →
  be32_at pkt i = Ok (a + 256 * (b + 256 * (c + 256 * d))).
Proof.
  intros Ha Hb Hc Hd E1 E2 E3 E4. unfold be32_at. rewrite E1, E2, E3, E4. repeat step_ok. f_equal.
  unfold u32. rewrite !Z.shiftl_mul_pow2 by lia. rewrite Z.mod_small by lia. rewrite lor_mul_add by lia.
  replace (d * 2 ^ 24 + c * 2 ^ 16) with ((d * 256 + c) * 2 ^ 16) by lia. rewrite lor_mul_add by lia.
  replace ((d * 256 + c) * 2 ^ 16 + b * 2 ^ 8) with (((d * 256 + c) * 256 + b) * 2 ^ 8) by lia. rewrite lor_mul_add by lia. lia.
Qed.

(** One option read. *)
Lemma options_step n a o b end_ out :
  topt_ok o → zlen a + zlen (topt_wire o) ≤ end_ →
  options_loop (Datatypes.S n) (a ++ topt_wire o ++ b) (zlen a) end_ out =
  options_loop n (a ++ topt_wire o ++ b) (zlen a + zlen (topt_wire o)) end_ (topt_apply out o).
Proof.
  intros Ho Hend. assert (∀ k, 0 ≤ k → aget (a ++ topt_wire o ++ b) (zlen a + k) = aget (topt_wire o ++ b) k) as Hg
    by (intros k Hk; by apply aget_mid).
  assert (aget (a ++ topt_wire o ++ b) (zlen a) = aget (topt_wire o ++ b) 0) as H0 by (by apply (aget_mid _ _ 0); lia).
  remember (a ++ topt_wire o ++ b) as pkt eqn:Epkt. clear Epkt. cbn [options_loop].
  rewrite (proj2 (Z.ltb_lt _ _)) by (destruct o; cbn [topt_wire app length be16 be32] in *; lia).
  rewrite H0, !Hg by lia. destruct o as [|m|w| |v e|k d]; cbn [topt_wire app topt_apply topt_ok] in *.
  - done.
  - unfold be16. cbn [app]. change (aget _ 0) with (Ok 2). change (aget _ 1) with (Ok 4).
    change (aget _ 2) with (Ok (m / 256)). change (aget _ 3) with (Ok (m mod 256)). repeat step_ok. cbn [Z.eqb Pos.eqb].
    unfold u16. rewrite Z.shiftl_mul_pow2, Z.mod_small, lor_mul_add by dlia.
    replace (m / 256 * 2 ^ 8 + m mod 256) with m by dlia. done.
  - done.
  - done.
  - destruct Ho as [Hv He]. apply digits_of in Hv as (v0 & v1 & v2 & v3 & V0 & V1 & V2 & V3 & ->).
    apply digits_of in He as (e0 & e1 & e2 & e3 & W0 & W1 & W2 & W3 & ->). rewrite !be32_digits in * by done.
    cbn [app] in *. change (aget _ 0) with (Ok 8). change (aget _ 1) with (Ok 10). repeat step_ok. cbn [Z.eqb Pos.eqb].
    rewrite (be32_at_value _ (zlen a + 2) v0 v1 v2 v3), (be32_at_value _ (zlen a + 6) e0 e1 e2 e3); try done;
      rewrite <- ?Z.add_assoc; by rewrite Hg.
  - change (aget _ 0) with (Ok k). change (aget _ 1) with (Ok (2 + zlen d)). repeat step_ok.
    assert (k ≠ 0 ∧ k ≠ 1 ∧ k ≠ 2 ∧ k ≠ 3 ∧ k ≠ 4 ∧ k ≠ 8) as (?&?&?&?&?&?) by (cbn in Ho; set_solver).
    rewrite !(proj2 (Z.eqb_neq _ _)) by (done || lia). cbn [length]. do 2 f_equal. lia.
Qed.

Lemma opts_wire_cons o os : opts_wire (o :: os) = topt_wire o ++ opts_wire os.
Proof. done. Qed.

(** A padded list of options read to its end. *)
Lemma options_loop_spec os a tail n rest out :
  Forall topt_ok os → (tail = [] ∨ ∃ pad, tail = 0 :: pad) → (length os < n)%nat →
  options_loop n (a ++ opts_wire os ++ tail ++ rest) (zlen a) (zlen a + zlen (opts_wire os) + zlen tail) out =
  Ok (foldl topt_apply out os).
Proof.
  revert a n out. induction os as [|o os IH]; intros a n out Hos Ht Hn; (destruct n as [|n]; [cbn in Hn; lia|]).
  - change (opts_wire []) with (@nil Z). cbn [options_loop app foldl]. destruct Ht as [->|[pad ->]].
    + rewrite (proj2 (Z.ltb_ge _ _)) by (cbn [length]; lia). done.
    + rewrite (proj2 (Z.ltb_lt _ _)) by (cbn [length]; lia). by rewrite (aget_mid a _ 0 (zlen a)) by lia.
  - apply Forall_cons in Hos as [Ho Hos]. rewrite opts_wire_cons, <- app_assoc. cbn [foldl].
    rewrite options_step by (done || rewrite length_app; lia). rewrite (app_assoc a (topt_wire o)).
    rewrite <- (IH (a ++ topt_wire o) n (topt_apply out o)) by (done || cbn in Hn; lia).
    rewrite !length_app. f_equal; lia.
Qed.

(** An option of a known kind whose length byte is 0 is never left. *)
Lemma zero_option_loop n a kind b end_ out :
  kind ∈ [2; 3; 4; 8] → (∃ x b', b = x :: b') → zlen a < end_ → options_loop n (a ++ kind :: 0 :: b) (zlen a) end_ out = NoFuel.
Proof.
  intros Hk (x & b' & ->) Hlt. revert out. induction n as [|n IH]; intros out; [done|]. cbn [options_loop].
  rewrite (proj2 (Z.ltb_lt _ _)) by done. rewrite (aget_mid a _ 0 (zlen a)), (aget_mid a _ 1 (zlen a + 1)), (aget_mid a _ 2 (zlen a + 2)) by lia.
  change (aget _ 0) with (Ok kind). change (aget _ 1) with (Ok 0). change (aget _ 2) with (Ok x). repeat step_ok.
  rewrite Z.add_0_r. repeat (apply elem_of_cons in Hk as [->|Hk]; [by rewrite ?bind_Ok; apply IH|]). by apply not_elem_of_nil in Hk.
Qed.

Lemma header_len_range x : 0 ≤ header_len x ≤ 60.
Proof. unfold header_len. change 0x0F with (2 ^ 4 - 1). rewrite land_ones_mod by lia. dlia. Qed.

Lemma opts_wire_len os : (length os ≤ length (opts_wire os))%nat.
Proof.
  induction os as [|o os IH]; [done|]. rewrite opts_wire_cons, length_app. cbn [length].
  assert (1 ≤ length (topt_wire o))%nat by (destruct o; cbn; lia). lia.
Qed.

(** A zero length byte behind other options. *)
Lemma zero_option_behind os n a kind b end_ out :
  Forall topt_ok os → kind ∈ [2; 3; 4; 8] → (∃ x b', b = x :: b') → zlen a + zlen (opts_wire os) < end_ →
  options_loop n (a ++ opts_wire os ++ kind :: 0 :: b) (zlen a) end_ out = NoFuel.
Proof.
  intros Hos Hk Hb. revert n a out. induction os as [|o os IH]; intros n a out Hlt.
  - change (opts_wire []) with (@nil Z) in *. cbn [app length] in *. apply zero_option_loop; [done|done|lia].
  - apply Forall_cons in Hos as [Ho Hos]. rewrite opts_wire_cons, length_app in Hlt. rewrite opts_wire_cons, <- app_assoc.
    destruct n as [|n]; [done|]. rewrite options_step by (done || lia). rewrite (app_assoc a (topt_wire o)).
    replace (zlen a + zlen (topt_wire o)) with (zlen (a ++ topt_wire o)) by (rewrite length_app; lia).
    apply IH; [done|]. rewrite length_app. lia.
Qed.

(** C39.  Reading the options of a segment.  When they are well formed, of any
    kinds and padded with an end mark or not, [parse_tcp_options] reads each of
    them within 41 rounds.  When one of the kinds it knows carries the length
    0, [parse_tcp_options] never returns, whatever the number of rounds. *)
Theorem tcp_options_read a hdr os tail rest :
  length hdr = 20%nat → Forall topt_ok os →
  ((tail = [] ∨ ∃ pad, tail = 0 :: pad) →
   header_len (at_ hdr 12) = 20 + zlen (opts_wire os) + zlen tail →
   parse_tcp_options OPTION_ROUNDS (a ++ hdr ++ opts_wire os ++ tail ++ rest) (zlen a) = Ok (foldl topt_apply no_options os)) ∧
  (∀ kind n, kind ∈ [2; 3; 4; 8] → (∃ x rest', rest = x :: rest') →
   20 + zlen (opts_wire os) < header_len (at_ hdr 12) →
   parse_tcp_options n (a ++ hdr ++ opts_wire os ++ kind :: 0 :: rest) (zlen a) = NoFuel).
Proof.
  intros Lh Hos. assert (∀ l n, parse_tcp_options n (a ++ hdr ++ l) (zlen a) =
    options_loop n ((a ++ hdr) ++ l) (zlen (a ++ hdr)) (zlen a + header_len (at_ hdr 12)) no_options) as Hp.
  { intros l n. unfold parse_tcp_options. rewrite (aget_mid a _ 12 (zlen a + 12)) by lia.
    replace (aget (hdr ++ l) 12) with (aget hdr 12) by (unfold aget; cbn [Z.leb]; by rewrite lookup_app_l by lia).
    rewrite aget_ok, bind_Ok by lia. rewrite <- app_assoc, length_app, Lh. unfold TCP_HEADER. f_equal. lia. }
  split.
  - intros Ht Hl. rewrite Hp, Hl. replace (zlen a + (20 + zlen (opts_wire os) + zlen tail)) with (zlen (a ++ hdr) + zlen (opts_wire os) + zlen tail)
      by (rewrite length_app; lia).
    apply options_loop_spec; [done|done|]. pose proof (opts_wire_len os). unfold OPTION_ROUNDS. pose proof (header_len_range (at_ hdr 12)). lia.
  - intros kind n Hk Hr Hl. rewrite Hp. apply zero_option_behind; [done|done|done|]. rewrite length_app. lia.
Qed.

Lemma tcp_options_read_witness :
  let hdr := [0; 80; 0; 81; 0; 0; 0; 0; 0; 0; 0; 0; 0x70; 2; 0; 0; 0; 0; 0; 0] in
  parse_tcp_options OPTION_ROUNDS (hdr ++ [2; 4; 5; 180; 1; 3; 3; 7]) 0 = Ok (mkOpts 1460 1 7 0 0 0 0) ∧
  ∀ n, parse_tcp_options n (hdr ++ [1; 2; 0; 9]) 0 = NoFuel.
Proof.
  split.
  - refine (proj1 (tcp_options_read [] [0; 80; 0; 81; 0; 0; 0; 0; 0; 0; 0; 0; 0x70; 2; 0; 0; 0; 0; 0; 0] [TMss 1460; TNop; TWscale 7] [] []
      eq_refl _) _ _); [repeat constructor; lia|left; reflexivity|reflexivity].
  - intros n. refine (proj2 (tcp_options_read [] [0; 80; 0; 81; 0; 0; 0; 0; 0; 0; 0; 0; 0x70; 2; 0; 0; 0; 0; 0; 0] [TNop] [] [9]
      eq_refl _) 2 n _ _ _); [repeat constructor|left|eauto|reflexivity].
Defined.
