(* ===== verification/NetSeg.v ===== *)
(** * Answers to TCP

    A received segment as its fields, options and data, and the segments that
    [handle_tcp] sends: connection requests are accepted, a request for a page
    gets one, the end of a connection is acknowledged. *)

From S2P Require Import Prelude CMem Bytes StateM Net NetTcp NetSum NetFrame NetIcmp NetOpts.

Open Scope sm_scope.

(** ** Received segments *)

Record tcp_in := mkTin {
  ti_sport : Z; ti_dport : Z; ti_seq : Z; ti_ack : Z; ti_off : Z; ti_flags : Z; ti_win : Z; ti_sum : Z; ti_urg : Z }.

Definition tcp_wire (t : tcp_in) : list Z :=
  be16 (ti_sport t) ++ be16 (ti_dport t) ++ be32 (ti_seq t) ++ be32 (ti_ack t) ++ [ti_off t; ti_flags t] ++
  be16 (ti_win t) ++ be16 (ti_sum t) ++ be16 (ti_urg t).

(** The offset field covers the options, padded with an end mark or not. *)
Record seg_ok (t : tcp_in) (os : list topt) (tail : list Z) : Prop := mkSegOk {
  so_off : header_len (ti_off t) = 20 + zlen (opts_wire os) + zlen tail;
  so_opts : Forall topt_ok os;
  so_tail : tail = [] ∨ ∃ pad, tail = 0 :: pad;
  so_sport : 0 ≤ ti_sport t < 65536;
  so_dport : 0 ≤ ti_dport t < 65536;
  so_seq : 0 ≤ ti_seq t < 2 ^ 32;
  so_ack : 0 ≤ ti_ack t < 2 ^ 32 }.

Definition seg_body (t : tcp_in) (os : list topt) (tail data : list Z) : list Z :=
  tcp_wire t ++ opts_wire os ++ tail ++ data.

(** ** Segments sent *)

Definition seg_with (sport dport seq ack off flags : Z) (ck urg payload : list Z) : list Z :=
  be16 sport ++ be16 dport ++ be32 seq ++ be32 ack ++ [off; flags; 255; 255] ++ ck ++ urg ++ payload.

Definition pseudo_hdr (src dst : list Z) (len : Z) : list Z := src ++ dst ++ [0; TCP_PROTOCOL] ++ be16 len.

Definition out_segment (src dst : list Z) (sport dport seq ack off flags : Z) (urg payload : list Z) : list Z :=
  let m ck := seg_with sport dport seq ack off flags ck urg payload in
  m (be16 (rfc1071 (pseudo_hdr src dst (zlen (m [0; 0])) ++ m [0; 0]))).

(** What the receiver adds up. *)
Definition seg_verifies (src dst seg : list Z) : Prop := oc_sum (pseudo_hdr src dst (zlen seg) ++ seg) = 65535.

Lemma be16_len x : length (be16 x) = 2%nat.
Proof. done. Qed.

Lemma be16_back x : 0 ≤ x < 65536 → le_bytes 2 (le_value (be16 x)) = be16 x.
Proof. intros Hx. by apply (le_bytes_back (be16 x)), be16_bytes. Qed.

Definition seg_front (sport dport seq ack off flags : Z) : list Z :=
  be16 sport ++ be16 dport ++ be32 seq ++ be32 ack ++ [off; flags; 255; 255].

Lemma seg_with_front sport dport seq ack off flags ck urg payload :
  seg_with sport dport seq ack off flags ck urg payload = seg_front sport dport seq ack off flags ++ ck ++ urg ++ payload.
Proof. done. Qed.

Lemma seg_front_ok sport dport seq ack off flags :
  0 ≤ sport < 65536 → 0 ≤ dport < 65536 → 0 ≤ off < 256 → 0 ≤ flags < 256 → byte_list (seg_front sport dport seq ack off flags).
Proof.
  intros H1 H2 H3 H4. unfold seg_front. repeat apply Forall_app_2; try (by apply be16_bytes); try apply be32_ok.
  by repeat (constructor; [lia|]).
Qed.

Lemma pseudo_ok src dst len :
  byte_list src → byte_list dst → 0 ≤ len < 65536 → byte_list (pseudo_hdr src dst len).
Proof.
  intros Hs Hd Hl. unfold pseudo_hdr. repeat apply Forall_app_2; try done; [by repeat (constructor; [unfold TCP_PROTOCOL; lia|])|by apply be16_bytes].
Qed.

Lemma out_segment_len src dst sport dport seq ack off flags urg payload :
  length urg = 2%nat → zlen (out_segment src dst sport dport seq ack off flags urg payload) = 20 + zlen payload.
Proof. intros Hu. unfold out_segment, seg_with. rewrite !length_app, Hu, !be16_len. cbn [length be32]. lia. Qed.

Lemma out_segment_bytes src dst sport dport seq ack off flags urg payload :
  byte_list src → byte_list dst → 0 ≤ sport < 65536 → 0 ≤ dport < 65536 → 0 ≤ off < 256 → 0 ≤ flags < 256 →
  byte_list urg → length urg = 2%nat → byte_list payload → 20 + zlen payload < 65536 →
  byte_list (out_segment src dst sport dport seq ack off flags urg payload).
Proof.
  intros Hs Hd Hsp Hdp Ho Hf Hu Lu Hp Hl. unfold out_segment. rewrite !seg_with_front.
  assert (∀ ck, byte_list ck → byte_list (seg_front sport dport seq ack off flags ++ ck ++ urg ++ payload)) as Hb.
  { intros ck Hck. apply Forall_app_2; [by apply seg_front_ok|]. apply Forall_app_2; [done|]. by apply Forall_app_2. }
  apply Hb, be16_bytes, rfc1071_range, Forall_app_2; [|apply Hb, zeroes_ok]. apply pseudo_ok; [done..|].
  rewrite !length_app, Lu. cbn [length seg_front app be16 be32]. lia.
Qed.

Lemma out_segment_verifies src dst sport dport seq ack off flags urg payload :
  byte_list src → byte_list dst → length src = 4%nat → length dst = 4%nat →
  0 ≤ sport < 65536 → 0 ≤ dport < 65536 → 0 ≤ off < 256 → 0 ≤ flags < 256 →
  byte_list urg → length urg = 2%nat → byte_list payload → 20 + zlen payload < 65536 →
  seg_verifies src dst (out_segment src dst sport dport seq ack off flags urg payload).
Proof.
  intros Hs Hd Ls Ld Hsp Hdp Ho Hf Hu Lu Hp Hl. unfold seg_verifies. rewrite out_segment_len by done.
  unfold out_segment. rewrite !seg_with_front. set (front := seg_front sport dport seq ack off flags).
  replace (zlen (front ++ [0; 0] ++ urg ++ payload)) with (20 + zlen payload) by (rewrite !length_app, Lu; cbn [length front seg_front app be16 be32]; lia).
  rewrite !(app_assoc (pseudo_hdr _ _ _)). apply checksum_verifies.
  - apply Forall_app_2; [apply pseudo_ok; done || lia|by apply seg_front_ok].
  - by apply Forall_app_2.
  - exists 14%nat. rewrite length_app. unfold pseudo_hdr. rewrite !length_app, Ls, Ld. done.
Qed.

(** The check from another source address. *)
Definition same_sum (a b : list Z) : Prop := oc_sum a mod 65535 = oc_sum b mod 65535.

Lemma norm_ones x : 0 < x → norm x = 65535 ↔ x mod 65535 = 0.
Proof. intros Hx. unfold norm. zcases; dlia. Qed.

Lemma verifies_from src src' dst seg :
  byte_list src → byte_list src' → byte_list dst → byte_list seg → length src = 4%nat → length src' = 4%nat → length dst = 4%nat →
  zlen seg < 65536 →
  seg_verifies src dst seg → seg_verifies src' dst seg ↔ same_sum src src'.
Proof.
  intros Hs Hs' Hd Hg L L' Ld Hl. unfold seg_verifies, pseudo_hdr. set (k := be16 (zlen seg) ++ seg).
  set (r := dst ++ [0; TCP_PROTOCOL] ++ k). assert (∀ x, (x ++ dst ++ [0; TCP_PROTOCOL] ++ be16 (zlen seg)) ++ seg = x ++ r) as Er
    by (intros x; unfold r, k; by rewrite <- !app_assoc). rewrite !Er.
  assert (byte_list k) as Hk by (apply Forall_app_2; [apply be16_bytes; lia|done]).
  assert (byte_list r) as Hr.
  { unfold r. apply Forall_app_2; [done|]. apply Forall_app_2; [by repeat (constructor; [unfold TCP_PROTOCOL; lia|])|done]. }
  assert (0 < wsum r) as Hpos.
  { unfold r. rewrite wsum_app by (by exists 2%nat). pose proof (wsum_range dst Hd). pose proof (wsum_range k Hk). cbn [app wsum]. unfold TCP_PROTOCOL. lia. }
  pose proof (wsum_range src Hs). pose proof (wsum_range src' Hs'). unfold same_sum.
  rewrite !oc_sum_norm, !wsum_app by (done || (by apply Forall_app_2) || (by exists 2%nat)). rewrite !(norm_mod (256 * _)) by lia.
  rewrite !norm_ones by lia. generalize (wsum src), (wsum src'), (wsum r). intros x y z Hx. dlia.
Qed.

Lemma starts_with_spec a word d r :
  (length word ≤ length d)%nat → starts_with (a ++ d ++ r) (zlen a) word = Ok (bool_decide (take (length word) d = word)).
Proof.
  revert a d. induction word as [|c word IH]; intros a d Hl; [by rewrite take_0|].
  destruct d as [|x d]; [cbn in Hl; lia|]. cbn [starts_with length take app]. rewrite (aget_mid a _ 0 (zlen a)) by lia.
  change (aget _ 0) with (Ok x). rewrite bind_Ok. case Z.eqb_spec; intros Hx.
  - subst c. replace (a ++ x :: d ++ r) with ((a ++ [x]) ++ d ++ r) by (by rewrite <- app_assoc).
    replace (zlen a + 1) with (zlen (a ++ [x])) by (rewrite length_app; cbn; lia).
    rewrite IH by (cbn in Hl; lia). f_equal. apply bool_decide_ext. split; [by intros ->|]. by intros [=].
  - rewrite bool_decide_false; [done|]. by intros [=].
Qed.

Lemma http_ok : byte_list http_resp ∧ length http_resp = 71%nat.
Proof. split; [|done]. by repeat (constructor; [lia|]). Qed.

(** Eighteen bytes, ports as they were read. *)
Lemma tcp_fields_front sport dport seq ack off flags :
  0 ≤ sport < 65536 → 0 ≤ dport < 65536 → 0 ≤ seq < 2 ^ 32 → 0 ≤ ack < 2 ^ 32 →
  tcp_fields (le_value (be16 sport)) (le_value (be16 dport)) (vxHtonl seq) (vxHtonl ack) off flags =
  seg_front sport dport seq ack off flags ++ [0; 0].
Proof.
  intros H1 H2 H3 H4. unfold tcp_fields. rewrite !htonl_bytes by done.
  by rewrite !be16_back by done.
Qed.

Lemma pseudo_bytes src dst len :
  byte_list src → byte_list dst → length src = 4%nat → length dst = 4%nat → 0 ≤ len < 65536 →
  pseudo (le_value src) (le_value dst) len = pseudo_hdr src dst len.
Proof.
  intros Hs Hd Ls Ld Hl. unfold pseudo, pseudo_hdr. rewrite htons_bytes by done.
  rewrite <- Ls at 1. rewrite <- Ld. by rewrite !le_bytes_back by done.
Qed.

(** Fresh bytes as eighteen for the fields, two for the urgent pointer, and the
    others. *)
Lemma split_old (old : list Z) n : zlen old = 20 + n → 0 ≤ n →
  ∃ a urg b, old = a ++ urg ++ b ∧ length a = 18%nat ∧ length urg = 2%nat ∧ zlen b = n.
Proof.
  intros Hl Hn. exists (take 18 old), (take 2 (drop 18 old)), (drop 20 old). split_and!.
  - replace (drop 20 old) with (drop 2 (drop 18 old)) by (by rewrite drop_drop). by rewrite !take_drop.
  - rewrite length_take. lia.
  - rewrite length_take, length_drop. lia.
  - rewrite length_drop. lia.
Qed.

Lemma synack_ok dev opt : length (build_synack_options dev opt) = 5%nat ∧ byte_list (build_synack_options dev opt).
Proof.
  split; [done|]. unfold build_synack_options. set (m := if _ <? _ then _ else _).
  change 0xFF with (2 ^ 8 - 1). rewrite !land_ones_mod by lia. repeat (constructor; [dlia|]). constructor.
Qed.

Lemma options_mss os : Forall topt_ok os → 0 ≤ mss (foldl topt_apply no_options os) < 65536.
Proof.
  intros Hos. assert (∀ o, 0 ≤ mss o < 65536 → 0 ≤ mss (foldl topt_apply o os) < 65536) as H; [|by apply H].
  induction Hos as [|x os Hx _ IH]; intros o Ho; [done|]. apply IH. by destruct x.
Qed.

(** The segment size offered: the smaller of the peer's and ours, then one byte
    of padding. *)
Definition offer (dev : netdev) (opt : tcp_options) : list Z := [2; 4] ++ be16 (Z.min (mss opt) (mtu dev - 40)) ++ [1].

Lemma offer_spec dev opt :
  IPV4_HEADER + NETBUFF_DATA_SIZE ≤ mtu dev < 65536 → 0 ≤ mss opt < 65536 → build_synack_options dev opt = offer dev opt.
Proof.
  intros Hmtu Ho. unfold build_synack_options, offer, our_mss, IPV4_HEADER, NETBUFF_DATA_SIZE, TCP_HEADER, be16 in *.
  assert (u16 (mtu dev - 20 - 20) = mtu dev - 40) as -> by (unfold u16; rewrite Z.mod_small; lia).
  set (m := if _ <? _ then _ else _). assert (m = Z.min (mss opt) (mtu dev - 40)) as <- by (unfold m; zcases; lia).
  assert (0 ≤ m < 65536) as Hm by (unfold m; zcases). change 0xFF with (2 ^ 8 - 1). rewrite !land_ones_mod, shiftr_div by lia.
  cbn [app]. repeat f_equal; dlia.
Qed.

Lemma raw_sum_split a b c :
  byte_list b → byte_list c → Nat.Even (length b) → zlen (b ++ c) ≤ 65536 →
  u32 (u32 (a + checksum16_raw b) + checksum16_raw c) = u32 (a + checksum16_raw (b ++ c)).
Proof.
  intros Hb Hc He Hl. pose proof Hl as Hl'. rewrite length_app in Hl'.
  rewrite (checksum16_raw_wsum (b ++ c)), wsum_app, !checksum16_raw_wsum by (done || lia || by apply Forall_app_2).
  unfold u32. rewrite Zplus_mod_idemp_l. f_equal. lia.
Qed.

(** ** The fields read *)

Section answer.
Context (dev : netdev) (vxRand : nat → Z).
Hypothesis mac_len : zlen (mac dev) = 6.
Hypothesis mac_bytes : byte_list (mac dev).
Hypothesis mtu_fits : IPV4_HEADER + NETBUFF_DATA_SIZE ≤ mtu dev < 65536.
Context (h : ip_in) (t : tcp_in) (os : list topt) (tail data rest mac_dst : list Z).
Let body := seg_body t os tail data.
Hypothesis Hin : in_ok h body.
Hypothesis Hseg : seg_ok t os tail.
Hypothesis Hmac : zlen mac_dst = 6.
Hypothesis Hmacb : byte_list mac_dst.
Let ip := ip_wire h ++ body ++ rest.
Let tcp := 20 + zlen (in_opts h).

Lemma seg_field x m y off n : body = x ++ m ++ y → off = tcp + zlen x → n = zlen m → slice ip off n = Ok m.
Proof.
  intros Hb -> ->. eapply (slice_mid _ (ip_wire h ++ x) m (y ++ rest)); [| |done].
  - unfold ip. rewrite Hb. by rewrite <- !app_assoc.
  - rewrite length_app, Nat2Z.inj_add, (ip_wire_len h body Hin). done.
Qed.

Lemma seg_byte (i : Z) x : aget (tcp_wire t) i = Ok x → 0 ≤ i < 20 → aget ip (tcp + i) = Ok x.
Proof.
  intros Hx Hi. unfold ip, tcp. rewrite (in_byte_read h body rest Hin i).
  - revert Hx. unfold body, seg_body, aget. rewrite (proj2 (Z.leb_le _ _)) by lia. by rewrite lookup_app_l by (cbn; lia).
  - unfold body, seg_body. rewrite length_app. change (length (tcp_wire t)) with 20%nat. lia.
Qed.

Lemma read_sport : rd16 ip tcp = Ok (le_value (be16 (ti_sport t))).
Proof. unfold rd16. by rewrite (seg_field [] (be16 (ti_sport t)) (drop 2 body)) by (cbn; done || lia). Qed.

Lemma read_dport : rd16 ip (tcp + 2) = Ok (le_value (be16 (ti_dport t))).
Proof. unfold rd16. by rewrite (seg_field (be16 (ti_sport t)) (be16 (ti_dport t)) (drop 4 body)) by (cbn; done || lia). Qed.

Lemma read_seq : rd32 ip (tcp + 4) = Ok (le_value (be32 (ti_seq t))).
Proof.
  unfold rd32. by rewrite (seg_field (be16 (ti_sport t) ++ be16 (ti_dport t)) (be32 (ti_seq t)) (drop 8 body)) by (cbn; done || lia).
Qed.

Lemma read_ack : rd32 ip (tcp + 8) = Ok (le_value (be32 (ti_ack t))).
Proof.
  unfold rd32.
  by rewrite (seg_field (be16 (ti_sport t) ++ be16 (ti_dport t) ++ be32 (ti_seq t)) (be32 (ti_ack t)) (drop 12 body)) by (cbn; done || lia).
Qed.

(** ** The segments written *)

(** The checksum put into a segment in a buffer, and the segment sent. *)
Lemma finish_segment nb room sport dport seq ack off flags urg payload sum s (Q : () → net → Prop) :
  let m := seg_front sport dport seq ack off flags in
  nb_holds nb room (m ++ [0; 0] ++ urg ++ payload) → 34 ≤ room ≤ 64 → length urg = 2%nat → pool_ok s →
  0 ≤ sport < 65536 → 0 ≤ dport < 65536 → 0 ≤ off < 256 → 0 ≤ flags < 256 →
  sum = u32 (checksum16_raw (pseudo_hdr (in_dst h) (in_src h) (20 + zlen payload)) + checksum16_raw (m ++ [0; 0] ++ urg ++ payload)) →
  (∀ s', pool_ok s' → drawn s' = drawn s →
    sent s' = sent s ++ [eth_frame mac_dst (mac dev) [8; 0] (ip_packet TCP_PROTOCOL MY_IP (in_src h)
      (out_segment (in_dst h) (in_src h) sport dport seq ack off flags urg payload))] → Q () s') →
  swp (sum ← sm_lift (fold_sum 4 sum);
       nb ← sm_lift (nb_store nb (room + 16) (le_bytes 2 (u16 (not32 sum))));
       nb ← ipv4_send dev nb (le_value (in_src h)) TCP_PROTOCOL mac_dst;
       free_netbuff nb) s Q.
Proof.
  intros m Hnb Hroom Lu Hp Hsp Hdp Ho Hf -> HQ. pose proof (holds_bytes _ _ _ Hnb) as Hb.
  pose proof (nh_fits _ _ _ Hnb) as Hfits. rewrite !length_app, Lu in Hfits. unfold NETBUFF_DATA_SIZE in Hfits. cbn [length] in Hfits.
  assert (length m = 16%nat) as Lm by done.
  assert (byte_list (pseudo_hdr (in_dst h) (in_src h) (20 + zlen payload))) as Hps.
  { apply pseudo_ok; [by apply (io_dst_bytes _ _ Hin)|by apply (io_src_bytes _ _ Hin)|lia]. }
  assert (length (pseudo_hdr (in_dst h) (in_src h) (20 + zlen payload)) = 12%nat) as Lps.
  { unfold pseudo_hdr. rewrite !length_app, (io_src _ _ Hin), (io_dst _ _ Hin). done. }
  destruct (raw_sum_bytes _ _ Hps Hb) as (sm & E & Eb); [by exists 6%nat; rewrite Lps|rewrite !length_app, Lps, Lm, Lu; cbn [length]; lia|].
  apply swp_bind, (swp_lift _ sm); [done|]. rewrite Eb.
  destruct (nb_store_spec nb room m [0; 0] (urg ++ payload) (be16 (rfc1071 (pseudo_hdr (in_dst h) (in_src h) (20 + zlen payload) ++ m ++ [0; 0] ++ urg ++ payload))) (room + 16))
    as (nb1 & E1 & H1); [done|by rewrite Lm|done|by apply be16_bytes, rfc1071_range, Forall_app_2|].
  apply swp_bind, (swp_lift _ nb1); [done|].
  eapply swp_mono; [apply (send_and_free dev mac_len mac_bytes mtu_fits nb1 room
    (out_segment (in_dst h) (in_src h) sport dport seq ack off flags urg payload) TCP_PROTOCOL (in_src h)); try done; try apply Hin|].
  - unfold out_segment. rewrite !seg_with_front. fold m.
    replace (zlen (m ++ [0; 0] ++ urg ++ payload)) with (20 + zlen payload) by (rewrite !length_app, Lm, Lu; cbn [length]; lia). done.
  - cbv beta. intros [] s2 (Hp2 & E2 & E3). by apply HQ.
Qed.

(** The reply to a segment that takes one sequence number. *)
Definition command (opt : tcp_options) (flags r : Z) (urg : list Z) : list Z :=
  out_segment (in_dst h) (in_src h) (ti_dport t) (ti_sport t) (u32 r) (u32 (ti_seq t + 1)) 0x60 flags urg (offer dev opt).

Definition sent_one (s s' : net) (seg : list Z) : Prop :=
  sent s' = sent s ++ [eth_frame mac_dst (mac dev) [8; 0] (ip_packet TCP_PROTOCOL MY_IP (in_src h) seg)].

Lemma send_command_spec opt flags s :
  0 ≤ flags < 256 → 0 ≤ mss opt < 65536 → pool_ok s →
  swp (send_command dev vxRand ip tcp opt flags mac_dst) s (λ _ s', pool_ok s' ∧ drawn s' = Datatypes.S (drawn s) ∧
    ∃ urg, length urg = 2%nat ∧ byte_list urg ∧ sent_one s s' (command opt flags (vxRand (drawn s)) urg)).
Proof.
  intros Hf Hmss Hp. unfold send_command. destruct (synack_ok dev opt) as [Lo Hob]. rewrite Lo.
  unfold command. rewrite <- offer_spec by done. set (opts := build_synack_options dev opt) in *.
  apply swp_bind. eapply swp_mono; [by apply create_spec|]. intros nb s1 (H0 & (Hp1 & E1 & E2) & _). unfold NETBUFF_MAX_HEADROOM in H0.
  destruct (push_spec nb 64 [] 25 H0) as (old & nb1 & E & Hold & H1); [lia|]. change (TCP_HEADER + Z.of_nat 5) with 25. rewrite E. clear E.
  change (64 - 25) with 39 in *. rewrite app_nil_r in H1.
  destruct (split_old old 5) as (oa & urg & ob & -> & La & Lu & Lb); [lia..|]. unfold TCP_HEADER.
  destruct (nb_store_spec nb1 39 (oa ++ urg) ob [] opts (39 + 20)) as (nb2 & E & H2);
    [by rewrite app_nil_r, <- app_assoc|rewrite length_app; lia|lia|done|].
  apply swp_bind, (swp_lift _ nb2); [done|]. clear E. rewrite app_nil_r, <- app_assoc in H2.
  apply swp_bind; eapply swp_lift; [apply read_sport|]. apply swp_bind; eapply swp_lift; [apply read_dport|].
  apply swp_bind; eapply swp_lift; [apply read_seq|]. rewrite ntohl_value by apply Hseg.
  apply swp_bind. eapply (swp_intro _ _ _ (u32 (vxRand (drawn s1)))); [done|].
  change (u8 (Z.shiftl (5 + Z.of_nat 5 / 4) 4)) with 0x60. rewrite tcp_fields_front by (apply Hseg || unfold u32; dlia).
  set (m := seg_front (ti_dport t) (ti_sport t) (u32 (vxRand (drawn s1))) (u32 (ti_seq t + 1)) 96 flags).
  destruct (nb_store_spec nb2 39 [] oa (urg ++ opts) (m ++ [0; 0]) 39) as (nb3 & E & H3); [done|done|by rewrite La| |].
  { apply Forall_app_2; [apply seg_front_ok; apply Hseg || lia|apply zeroes_ok]. }
  apply swp_bind, (swp_lift _ nb3); [done|]. clear E. cbn [app] in H3. rewrite <- app_assoc in H3.
  apply swp_bind; eapply swp_lift; [by apply (in_src_read h body rest Hin)|].
  apply swp_bind; eapply swp_lift; [by apply (in_dst_read h body rest Hin)|].
  apply swp_bind, (swp_lift _ (m ++ [0; 0] ++ urg ++ opts)).
  { eapply (slice_spec nb3 39 [] _ []); [by rewrite app_nil_r|done|]. rewrite !length_app, Lu, Lo. done. }
  assert (byte_list urg) as Hub.
  { pose proof (holds_bytes _ _ _ H2) as Hb. apply Forall_app in Hb as [_ Hb]. by apply Forall_app in Hb as [Hb _]. }
  rewrite pseudo_bytes by (apply Hin || unfold u16; dlia). change (u16 25) with 25. replace 25 with (20 + zlen opts) by lia.
  eapply (finish_segment nb3 39 _ _ _ _ 96 flags urg opts); try done; try lia; try apply Hseg.
  intros s' Hp' Ed Es. split; [done|]. split; [by rewrite Ed; cbn; rewrite E2|]. exists urg. split_and!; [done..|].
  unfold sent_one. rewrite Es. cbn. by rewrite E1, E2.
Qed.

(** The page for a request. *)
Definition page (payload urg : list Z) : list Z :=
  out_segment (in_dst h) (in_src h) (ti_dport t) (ti_sport t) (ti_ack t) (u32 (ti_seq t + zlen data)) 0x50 0x19 urg payload.

Lemma body_len : zlen body = header_len (ti_off t) + zlen data.
Proof.
  unfold body, seg_body. rewrite !length_app, (so_off _ _ _ Hseg). change (length (tcp_wire t)) with 20%nat. lia.
Qed.

(** What is left of the datagram behind both headers. *)
Lemma data_len : u16 (in_length h - tcp - header_len (ti_off t)) = zlen data.
Proof.
  pose proof (io_length _ _ Hin) as Hl. pose proof (io_small _ _ Hin). rewrite body_len in Hl. unfold tcp.
  pose proof (header_len_range (ti_off t)). unfold u16. rewrite Z.mod_small; lia.
Qed.

Lemma read_off : aget ip (tcp + 12) = Ok (ti_off t).
Proof. by apply seg_byte. Qed.

Lemma read_flags : aget ip (tcp + 13) = Ok (ti_flags t).
Proof. by apply seg_byte. Qed.

Lemma send_tcp_data_spec payload s :
  byte_list payload → zlen payload ≤ 1984 → pool_ok s →
  swp (send_tcp_data dev ip tcp payload mac_dst) s (λ _ s', pool_ok s' ∧ drawn s' = drawn s ∧
    ∃ urg, length urg = 2%nat ∧ byte_list urg ∧ sent_one s s' (page payload urg)).
Proof.
  intros Hpb Hpl Hp. unfold send_tcp_data. apply swp_bind. eapply swp_lift; [apply in_vihl_read|]. rewrite (in_hdr_len h body Hin).
  apply swp_bind. eapply swp_lift; [by apply in_length_read|]. rewrite (in_length_value h body Hin).
  apply swp_bind. eapply swp_lift; [apply read_off|]. fold tcp. rewrite data_len.
  apply swp_bind. eapply swp_mono; [by apply create_spec|]. intros nb s1 (H0 & (Hp1 & E1 & E2) & _). unfold NETBUFF_MAX_HEADROOM in H0.
  destruct (put_spec nb 64 [] (zlen payload) H0) as (ob & nb1 & -> & Lb & H1); [lia|unfold NETBUFF_DATA_SIZE; cbn; lia|].
  change (64 + Z.of_nat (length [])) with 64. cbn [app] in H1.
  destruct (nb_store_spec nb1 64 [] ob [] payload 64) as (nb2 & E & H2); [by rewrite app_nil_r|done|lia|done|].
  apply swp_bind, (swp_lift _ nb2); [done|]. clear E. rewrite app_nil_r in H2. cbn [app] in H2.
  destruct (push_spec nb2 64 payload TCP_HEADER H2) as (old & nb3 & -> & Hold & H3); [unfold TCP_HEADER; lia|].
  unfold TCP_HEADER in *. change (64 - 20) with 44 in *.
  destruct (split_old old 0) as (oa & urg & oe & -> & La & Lu & Le); [lia..|]. destruct oe; [|cbn in Le; lia]. rewrite app_nil_r in *.
  apply swp_bind. eapply swp_lift; [apply read_sport|]. apply swp_bind. eapply swp_lift; [apply read_dport|].
  apply swp_bind. eapply swp_lift; [apply read_seq|]. rewrite ntohl_value by apply Hseg.
  apply swp_bind. eapply swp_lift; [apply read_ack|].
  change (Z.lor (Z.lor FLAG_ACK FLAG_FIN) FLAG_PSH) with 0x19. change (Z.shiftl 5 4) with 0x50.
  replace (le_value (be32 (ti_ack t))) with (vxHtonl (ti_ack t)).
  2: { rewrite <- (le_value_be32_htonl (ti_ack t)); [done|apply Hseg]. }
  rewrite tcp_fields_front by (apply Hseg || unfold u32; dlia).
  set (m := seg_front (ti_dport t) (ti_sport t) (ti_ack t) (u32 (ti_seq t + zlen data)) 0x50 0x19).
  destruct (nb_store_spec nb3 44 [] oa (urg ++ payload) (m ++ [0; 0]) 44) as (nb4 & E & H4); [by rewrite <- app_assoc in H3|done|by rewrite La| |].
  { apply Forall_app_2; [apply seg_front_ok; apply Hseg || lia|apply zeroes_ok]. }
  apply swp_bind, (swp_lift _ nb4); [done|]. clear E. cbn [app] in H4. rewrite <- app_assoc in H4.
  apply swp_bind. eapply swp_lift; [by apply (in_src_read h body rest Hin)|].
  apply swp_bind. eapply swp_lift; [by apply (in_dst_read h body rest Hin)|].
  apply swp_bind, (swp_lift _ (m ++ [0; 0] ++ urg)).
  { eapply (slice_spec nb4 44 [] _ payload); [by rewrite <- !app_assoc|done|]. rewrite !length_app, Lu. done. }
  apply swp_bind, (swp_lift _ payload).
  { eapply (slice_spec nb4 44 (m ++ [0; 0] ++ urg) _ []); [by rewrite app_nil_r, <- !app_assoc|by rewrite !length_app, Lu|done]. }
  pose proof (holds_bytes _ _ _ H4) as Hall.
  assert (byte_list (m ++ [0; 0] ++ urg)) as Hmu.
  { rewrite !app_assoc in Hall. apply Forall_app in Hall as [Hall _]. by rewrite <- app_assoc in Hall. }
  rewrite raw_sum_split by (done || (by exists 10%nat; rewrite !length_app, Lu) || (rewrite !length_app, Lu; cbn [length m seg_front app be16 be32]; lia)).
  rewrite pseudo_bytes by (apply Hin || unfold u16; dlia).
  replace (u16 (20 + zlen payload)) with (20 + zlen payload) by (unfold u16; rewrite Z.mod_small; lia).
  rewrite <- !app_assoc.
  eapply (finish_segment nb4 44 _ _ _ _ 0x50 0x19 urg payload); try done; try lia; try apply Hseg.
  intros s' Hp' Ed Es. split; [done|]. split; [by rewrite Ed|]. exists urg. split_and!; [done| |].
  - do 2 (apply Forall_app in Hmu as [_ Hmu]). done.
  - unfold sent_one, page. by rewrite Es, E1.
Qed.

(** ** The answer to a segment *)

Lemma get_spec :
  4 ≤ zlen data → starts_with ip (tcp + header_len (ti_off t)) GET_ = Ok (bool_decide (take 4 data = GET_)).
Proof.
  intros Hd. unfold ip, body, seg_body.
  replace (ip_wire h ++ (tcp_wire t ++ opts_wire os ++ tail ++ data) ++ rest)
    with ((ip_wire h ++ tcp_wire t ++ opts_wire os ++ tail) ++ data ++ rest) by (by rewrite <- !app_assoc).
  etrans; [|apply (starts_with_spec (ip_wire h ++ tcp_wire t ++ opts_wire os ++ tail) GET_ data rest); cbn; lia]. f_equal.
  rewrite !length_app, !Nat2Z.inj_add, (ip_wire_len h body Hin), (so_off _ _ _ Hseg). change (zlen (tcp_wire t)) with 20. unfold tcp. lia.
Qed.

Definition has (flag : Z) : bool := negb (Z.land (ti_flags t) flag =? 0).
Definition options : tcp_options := foldl topt_apply no_options os.

(** [r]: the next random number. *)
Definition tcp_answer (r : Z) (urg : list Z) : option (list Z) :=
  if has FLAG_SYN && negb (has FLAG_ACK) then Some (command options 0x12 r urg)
  else if has FLAG_ACK && negb (has FLAG_SYN) then
    if negb (bool_decide (data = [])) && has FLAG_PSH then
      if bool_decide (take 4 data = GET_) then Some (page http_resp urg) else None
    else if has FLAG_FIN then Some (command options 0x10 r urg) else None
  else None.

(** How many random numbers the answer takes. *)
Definition tcp_draws : nat :=
  if has FLAG_SYN && negb (has FLAG_ACK) then 1
  else if has FLAG_ACK && negb (has FLAG_SYN) && negb (negb (bool_decide (data = [])) && has FLAG_PSH) && has FLAG_FIN then 1 else 0.

Lemma parse_spec : parse_tcp_options OPTION_ROUNDS ip tcp = Ok options.
Proof.
  unfold parse_tcp_options. rewrite read_off, bind_Ok. unfold ip, body, seg_body, TCP_HEADER.
  rewrite !app_assoc, <- (app_assoc _ data rest), <- (app_assoc _ tail), <- app_assoc.
  replace (tcp + 20) with (zlen (ip_wire h ++ tcp_wire t)).
  2: { rewrite length_app, Nat2Z.inj_add, (ip_wire_len h body Hin). done. }
  replace (tcp + header_len (ti_off t)) with (zlen (ip_wire h ++ tcp_wire t) + zlen (opts_wire os) + zlen tail).
  2: { rewrite (so_off _ _ _ Hseg), length_app, Nat2Z.inj_add, (ip_wire_len h body Hin). change (zlen (tcp_wire t)) with 20. unfold tcp. lia. }
  apply options_loop_spec; [apply Hseg..|]. pose proof (header_len_range (ti_off t)) as Hr. rewrite (so_off _ _ _ Hseg) in Hr.
  pose proof (opts_wire_len os). unfold OPTION_ROUNDS. lia.
Qed.

Lemma handle_tcp_spec s :
  pool_ok s →
  swp (handle_tcp dev vxRand ip mac_dst) s (λ _ s', pool_ok s' ∧ drawn s' = (drawn s + tcp_draws)%nat ∧ ∃ urg, length urg = 2%nat ∧ byte_list urg ∧
    match tcp_answer (vxRand (drawn s)) urg with Some seg => sent_one s s' seg | None => sent s' = sent s end).
Proof.
  intros Hp. unfold handle_tcp. apply swp_bind. eapply swp_lift; [apply in_vihl_read|]. rewrite (in_hdr_len h body Hin).
  apply swp_bind. eapply swp_lift; [by apply in_length_read|]. rewrite (in_length_value h body Hin). fold tcp.
  apply swp_bind. eapply swp_lift; [apply read_off|]. pose proof (io_length _ _ Hin) as Hl. rewrite body_len in Hl.
  rewrite (proj2 (Z.ltb_ge (header_len (ti_off t)) 20)) by (rewrite (so_off _ _ _ Hseg); lia).
  rewrite (proj2 (Z.ltb_ge (in_length h) _)) by (unfold tcp; lia). cbn [orb].
  apply swp_bind. eapply swp_lift; [apply read_flags|]. apply swp_bind. eapply swp_lift; [apply parse_spec|].
  fold (has FLAG_SYN) (has FLAG_ACK) (has FLAG_FIN) (has FLAG_PSH). rewrite data_len. unfold tcp_answer, tcp_draws.
  pose proof (options_mss os (so_opts _ _ _ Hseg)) as Hmss. fold options in Hmss. pose proof (Nat.add_0_r (drawn s)) as E0. pose proof (Nat.add_1_r (drawn s)) as E1.
  assert (∃ urg : list Z, length urg = 2%nat ∧ byte_list urg) as (u0 & Lu0 & Hu0) by (exists [0; 0]; split; [done|apply zeroes_ok]).
  assert ((0 <? zlen data) = negb (bool_decide (data = []))) as Hd by (destruct data; done).
  apply swp_bind. destruct (has FLAG_SYN) eqn:Esyn, (has FLAG_ACK) eqn:Eack; cbn [andb negb sm_when].
  - apply swp_ret, swp_ret. rewrite E0. eauto 6.
  - eapply swp_mono; [by apply send_command_spec|]. cbv beta. intros [] s' (Hp' & Ed & urg & Lu & Hu & Hs). apply swp_ret. rewrite E1. eauto 6.
  - apply swp_ret. rewrite Hd. destruct (negb (bool_decide (data = [])) && has FLAG_PSH) eqn:Epsh; cbn [negb andb].
    + destruct (4 <=? zlen data) eqn:E4.
      * apply Z.leb_le in E4. apply swp_bind. eapply swp_lift; [by apply get_spec|].
        destruct (bool_decide (take 4 data = GET_)); cbn [sm_when].
        -- eapply swp_mono; [by apply send_tcp_data_spec; [apply http_ok|..]|]. cbv beta. intros [] s' (Hp' & Ed & urg & Lu & Hu & Hs). rewrite ?E0, ?E1. eauto 6.
        -- apply swp_ret. rewrite E0. eauto 6.
      * apply Z.leb_gt in E4. apply swp_ret. rewrite bool_decide_false; [rewrite E0; eauto 6|].
        intros Hg. apply (f_equal length) in Hg. rewrite length_take in Hg. change (length GET_) with 4%nat in Hg. lia.
    + destruct (has FLAG_FIN); cbn [sm_when]; [|apply swp_ret; rewrite E0; eauto 6].
      eapply swp_mono; [by apply send_command_spec|]. cbv beta. intros [] s' (Hp' & Ed & urg & Lu & Hu & Hs). rewrite ?E0, ?E1. eauto 6.
  - apply swp_ret, swp_ret. rewrite E0. eauto 6.
Qed.
End answer.

(** Every answer is a byte string that passes the check from the address the
    segment was sent to. *)
Lemma answer_form dev h t os tail data :
  IPV4_HEADER + NETBUFF_DATA_SIZE ≤ mtu dev < 65536 → in_ok h (seg_body t os tail data) → seg_ok t os tail →
  ∀ r urg seg, byte_list urg → length urg = 2%nat → tcp_answer dev h t os data r urg = Some seg →
  seg_verifies (in_dst h) (in_src h) seg ∧ byte_list seg ∧ zlen seg < 65536.
Proof.
  intros Hmtu Hin Hseg r urg seg Hu Lu Es. pose proof (options_mss os (so_opts _ _ _ Hseg)) as Hmss.
  assert (∀ x y off flags payload, 0 ≤ off < 256 → 0 ≤ flags < 256 → byte_list payload → zlen payload ≤ 100 →
    let seg := out_segment (in_dst h) (in_src h) (ti_dport t) (ti_sport t) x y off flags urg payload in
    seg_verifies (in_dst h) (in_src h) seg ∧ byte_list seg ∧ zlen seg < 65536) as Hv.
  { intros x y off flags payload ?? Hp Hl. split; [apply out_segment_verifies; try done; try apply Hin; try apply Hseg; lia|].
    split; [|rewrite out_segment_len by done; lia]. apply out_segment_bytes; try done; try apply Hin; try apply Hseg. lia. }
  unfold tcp_answer, command in Es. rewrite <- (offer_spec dev (options os)) in Es by done.
  repeat case_match; simplify_eq; apply Hv; try lia; try apply http_ok; try apply synack_ok; by apply Z.leb_le.
Qed.

(** C19.  A TCP segment whose options are well formed is answered as its flags
    say, and [handle_tcp] returns.  A connection request gets a segment with
    both flags that acknowledges it and offers the smaller segment size; a
    request that begins with GET gets the 71 bytes of the page, its data
    acknowledged; the end of a connection gets an acknowledgement of the form of
    the first answer, with a random sequence number; anything else gets nothing.
    The first and the last have 25 bytes, the offset field says 24.  The answer
    is one frame from our address to the station the segment came from, with the
    ports exchanged and the urgent pointer whatever the buffer held.  It passes
    the receiver's check exactly when the address the segment was sent to has
    the ones' complement sum of ours, in particular when it is ours. *)
Theorem handle_tcp_answers dev vxRand h t os tail data rest mac_dst s :
  zlen (mac dev) = 6 → byte_list (mac dev) → IPV4_HEADER + NETBUFF_DATA_SIZE ≤ mtu dev < 65536 →
  in_ok h (seg_body t os tail data) → seg_ok t os tail → zlen mac_dst = 6 → byte_list mac_dst → pool_ok s →
  ∃ s' urg, handle_tcp dev vxRand (ip_wire h ++ seg_body t os tail data ++ rest) mac_dst s = Ok ((), s') ∧ pool_ok s' ∧
    length urg = 2%nat ∧
    match tcp_answer dev h t os data (vxRand (drawn s)) urg with
    | Some seg =>
        sent s' = sent s ++ [eth_frame mac_dst (mac dev) [8; 0] (ip_packet TCP_PROTOCOL MY_IP (in_src h) seg)] ∧
        (seg_verifies MY_IP (in_src h) seg ↔ same_sum (in_dst h) MY_IP)
    | None => sent s' = sent s
    end.
Proof.
  intros Hm Hmb Hmtu Hin Hseg Hd Hdb Hp.
  destruct (swp_elim _ _ _ (handle_tcp_spec dev vxRand Hm Hmb Hmtu h t os tail data rest mac_dst Hin Hseg Hd Hdb s Hp))
    as ([] & s' & E & Hp' & _ & urg & Lu & Hu & Ha).
  exists s', urg. split_and!; try done. destruct (tcp_answer _ _ _ _ _ _ _) as [seg|] eqn:Es; [|done]. split; [done|].
  destruct (answer_form dev h t os tail data Hmtu Hin Hseg _ _ _ Hu Lu Es) as (Hv & Hb & Hl).
  apply verifies_from; try done; try apply Hin; apply my_ip_ok.
Qed.
