(* ===== verification/NetRace.v ===== *)
(** * Driver and receiver interleaved

    [ioforge_nic_rx] and [ioforge_receive_pending_queue] cut into their accesses
    to the shared ring: the test of the indices, every load and store of a field
    of a slot, and the store of the new index.  Any interleaving of one driver
    with one receiver. *)

From S2P Require Import Prelude StateM NetRx.

(** Field [k] of [x] copied to [y]. *)
Definition put_field (k : nat) (x y : pending_rx) : pending_rx :=
  match k with
  | 0%nat => mkRx (rx_id y) (rx_data x) (rx_len y)
  | 1%nat => mkRx (rx_id y) (rx_data y) (rx_len x)
  | _ => mkRx (rx_id x) (rx_data y) (rx_len y)
  end.

(** The receiver between two accesses: loading, or clearing, field [k]. *)
Inductive rpc := RIdle | RLoad (k : nat) (rx : pending_rx) | RClear (k : nat) (rx : pending_rx).

(** [driver]: the frame being stored and the fields stored so far. *)
Record race := mkRace {
  shared : nic; driver : option (pending_rx * nat); receiver : rpc; accepted : list pending_rx; delivered : list pending_rx }.

Inductive access := Arrive (x : pending_rx) | Drive | Receive.

Definition valid_rx (x : pending_rx) : bool := negb (bool_decide (rx_data x = None)) && negb (rx_len x =? 0).

Definition drive (r : race) : option race :=
  match driver r with
  | None => None
  | Some (x, k) =>
      let n := shared r in
      if Nat.ltb k 3 then
        Some (mkRace (mkNic (<[Z.to_nat (pq_head n) := put_field k x (at_ (pending_queue n) (pq_head n))]> (pending_queue n)) (pq_head n) (pq_tail n))
                (Some (x, Datatypes.S k)) (receiver r) (accepted r) (delivered r))
      else
        Some (mkRace (mkNic (pending_queue n) (Z.land (u32 (pq_head n + 1)) PENDING_QUEUE_MASK) (pq_tail n))
                None (receiver r) (accepted r ++ [x]) (delivered r))
  end.

Definition receive (r : race) : race :=
  let n := shared r in
  match receiver r with
  | RIdle => mkRace n (driver r) (if pq_tail n =? pq_head n then RIdle else RLoad 0 no_rx) (accepted r) (delivered r)
  | RLoad k rx =>
      let pc := if Nat.ltb k 2 then RLoad (Datatypes.S k) else RClear 0 in
      mkRace n (driver r) (pc (put_field k (at_ (pending_queue n) (pq_tail n)) rx)) (accepted r) (delivered r)
  | RClear k rx =>
      if Nat.ltb k 3 then
        mkRace (mkNic (<[Z.to_nat (pq_tail n) := put_field k no_rx (at_ (pending_queue n) (pq_tail n))]> (pending_queue n)) (pq_head n) (pq_tail n))
          (driver r) (RClear (Datatypes.S k) rx) (accepted r) (delivered r)
      else
        mkRace (mkNic (pending_queue n) (pq_head n) (u32 (pq_tail n + 1) mod PENDING_QUEUE_SIZE))
          (driver r) RIdle (accepted r) (delivered r ++ [rx])
  end.

(** One access; the driver takes a new frame only when it is done with the
    last one. *)
Definition access_step (r : race) (a : access) : option race :=
  match a with
  | Arrive x =>
      match driver r with
      | Some _ => None
      | None =>
          let n := shared r in
          if valid_rx x && negb (Z.land (u32 (pq_head n + 1)) PENDING_QUEUE_MASK =? pq_tail n)
          then Some (mkRace n (Some (x, 0%nat)) (receiver r) (accepted r) (delivered r)) else Some r
      end
  | Drive => drive r
  | Receive => Some (receive r)
  end.

Fixpoint run_race (r : race) (l : list access) : option race :=
  match l with
  | [] => Some r
  | a :: l => match access_step r a with Some r' => run_race r' l | None => None end
  end.

Definition quiet_race (n : nic) : race := mkRace n None RIdle [] [].
Definition empty_nic : nic := mkNic (replicate 128 no_rx) 0 0.

(** ** The invariant *)

(** The first [k] fields agree. *)
Definition agree (k : nat) (x y : pending_rx) : Prop :=
  ((0 < k)%nat → rx_data x = rx_data y) ∧ ((1 < k)%nat → rx_len x = rx_len y) ∧ ((2 < k)%nat → rx_id x = rx_id y).

Lemma agree_put k x y : (k < 3)%nat → agree k y x → agree (Datatypes.S k) (put_field k x y) x.
Proof. intros Hk (H1 & H2 & H3). destruct k as [|[|[|k]]]; [..|lia]; repeat split; cbn; intros; done || (apply H1 || apply H2; lia) || lia. Qed.

Lemma agree_all x y : agree 3 x y → x = y.
Proof. intros (H1 & H2 & H3). destruct x, y; cbn in *. f_equal; [apply H3|apply H1|apply H2]; lia. Qed.

Definition receiver_ok (n : nic) (d : Z) (acc : list pending_rx) (pc : rpc) : Prop :=
  match pc with
  | RIdle => d < zlen acc → at_ (pending_queue n) (d mod 128) = at_ acc d
  | RLoad k rx => (k < 3)%nat ∧ d < zlen acc ∧ at_ (pending_queue n) (d mod 128) = at_ acc d ∧ agree k rx (at_ acc d)
  | RClear k rx => (k ≤ 3)%nat ∧ d < zlen acc ∧ rx = at_ acc d
  end.

Record race_ok (r : race) : Prop := mkRaceOk {
  ro_len : zlen (pending_queue (shared r)) = 128;
  ro_head : pq_head (shared r) = zlen (accepted r) mod 128;
  ro_tail : pq_tail (shared r) = zlen (delivered r) mod 128;
  ro_prefix : delivered r `prefix_of` accepted r;
  ro_room : zlen (accepted r) - zlen (delivered r) ≤ 127;
  ro_slots : ∀ i, zlen (delivered r) < i < zlen (accepted r) → at_ (pending_queue (shared r)) (i mod 128) = at_ (accepted r) i;
  ro_driver : ∀ x k, driver r = Some (x, k) → (k ≤ 3)%nat ∧ zlen (accepted r) - zlen (delivered r) ≤ 126 ∧
    agree k (at_ (pending_queue (shared r)) (zlen (accepted r) mod 128)) x;
  ro_receiver : receiver_ok (shared r) (zlen (delivered r)) (accepted r) (receiver r) }.

Lemma prefix_len (d a : list pending_rx) : d `prefix_of` a → zlen d ≤ zlen a.
Proof. intros H%prefix_length. lia. Qed.

(** Two different positions in use, or about to be, have different slots. *)
Lemma slot_ne (acc del : list pending_rx) i j :
  zlen acc - zlen del ≤ 127 → zlen del ≤ i ≤ zlen acc → zlen del ≤ j ≤ zlen acc → i ≠ j → i mod 128 ≠ j mod 128.
Proof. intros Hr Hi Hj Hne E%slot_inj; lia. Qed.

Lemma arrive_ok r x r' : race_ok r → access_step r (Arrive x) = Some r' → race_ok r'.
Proof.
  intros H. cbn [access_step]. destruct (driver r) as [p|] eqn:Ed; [done|]. destruct (_ && _) eqn:E; intros [= <-]; [|done].
  apply andb_true_iff in E as [_ E]. destruct H as [H1 H2 H3 H4 H5 H6 _ H8]. split; cbn; try done.
  intros y k [= <- <-]. split; [lia|]. split; [|repeat split; lia].
  rewrite H2, H3, next_head in E by lia. apply negb_true_iff, Z.eqb_neq in E.
  destruct (decide (zlen (accepted r) - zlen (delivered r) = 127)) as [E'|]; [|lia].
  destruct E. replace (zlen (accepted r) + 1) with (zlen (delivered r) + 1 * 128) by lia. apply Z_mod_plus_full.
Qed.

(** A store by the driver leaves the receiver's slot alone. *)
Lemma receiver_ok_insert n q d acc pc j y :
  pending_queue q = <[Z.to_nat j := y]> (pending_queue n) → 0 ≤ j < zlen (pending_queue n) → (d < zlen acc → j ≠ d mod 128) →
  receiver_ok n d acc pc → receiver_ok q d acc pc.
Proof.
  intros Eq Hj Hne. assert (d < zlen acc → at_ (pending_queue q) (d mod 128) = at_ (pending_queue n) (d mod 128)) as Hs.
  { intros Hd. rewrite Eq, at_insert, decide_False; [done|auto|done|dlia]. }
  destruct pc as [|k rx|k rx]; cbn; [|intros (H1 & H2 & H3 & H4)|done]; [|split_and!; try done].
  - intros H Hd. rewrite Hs by done. auto.
  - by rewrite Hs.
Qed.

Lemma receiver_ok_grow n n' d acc x pc :
  pending_queue n' = pending_queue n → 0 ≤ d ≤ zlen acc → at_ (pending_queue n) (zlen acc mod 128) = x →
  receiver_ok n d acc pc → receiver_ok n' d (acc ++ [x]) pc.
Proof.
  intros Eq Hd Hx. assert (d < zlen acc → at_ (acc ++ [x]) d = at_ acc d) as Ha by (intros; rewrite at_app, decide_True by lia; done).
  destruct pc as [|k rx|k rx]; cbn; rewrite ?length_app, ?Eq; cbn [length].
  - intros H _. destruct (decide (d < zlen acc)); [rewrite Ha by done; auto|].
    replace d with (zlen acc) by lia. rewrite Hx, at_app, decide_False, Z.sub_diag by lia. done.
  - intros (H1 & H2 & H3 & H4). rewrite Ha by done. split_and!; try done; lia.
  - intros (H1 & H2 & ->). rewrite Ha by done. split_and!; try done; lia.
Qed.

Lemma drive_ok r r' : race_ok r → drive r = Some r' → race_ok r'.
Proof.
  intros [H1 H2 H3 H4 H5 H6 H7 H8]. unfold drive. destruct (driver r) as [[x k]|] eqn:Ed; [|done].
  destruct (H7 x k eq_refl) as (Hk & Hroom & Hag). pose proof (prefix_len _ _ H4) as Hle.
  case Nat.ltb_spec; intros Hk3 [= <-]; split; cbn [shared accepted delivered driver receiver pending_queue pq_head pq_tail]; try done.
  - by rewrite length_insert.
  - intros i Hi. rewrite at_insert, decide_False; [by apply H6| |dlia..].
    rewrite H2. apply (slot_ne (accepted r) (delivered r)); lia.
  - intros y j [= <- <-]. split; [lia|]. split; [done|]. rewrite H2, at_insert, decide_True by (done || dlia). by apply agree_put.
  - eapply receiver_ok_insert; [done|rewrite H2; dlia| |done]. intros Hd. rewrite H2. apply (slot_ne (accepted r) (delivered r)); lia.
  - rewrite length_app, H2, next_head by lia. cbn. f_equal. lia.
  - by apply prefix_app_r.
  - rewrite length_app. cbn. lia.
  - intros i Hi. rewrite length_app in Hi. cbn in Hi. assert (k = 3%nat) as -> by lia. apply agree_all in Hag.
    rewrite at_app by lia. case_decide; [apply H6; lia|]. replace i with (zlen (accepted r)) by lia. by rewrite Z.sub_diag.
  - assert (k = 3%nat) as -> by lia. apply agree_all in Hag. eapply receiver_ok_grow; [done|lia|done|]. done.
Qed.

Lemma receive_ok r : race_ok r → race_ok (receive r).
Proof.
  intros H. pose proof H as [H1 H2 H3 H4 H5 H6 H7 H8]. pose proof (prefix_len _ _ H4) as Hle. unfold receive.
  destruct (receiver r) as [|k rx|k rx] eqn:Er; cbn [receiver_ok] in H8.
  - split; cbn; try done. case Z.eqb_spec; intros E; [done|]. rewrite H2, H3 in E. split; [lia|].
    assert (zlen (delivered r) < zlen (accepted r)) as Hlt by (destruct (decide (zlen (delivered r) = zlen (accepted r))) as [E'|]; [by rewrite E' in E|lia]).
    split; [done|]. split; [by apply H8|]. repeat split; lia.
  - destruct H8 as (Hk & Hlt & Hs & Hag). pose proof (agree_put k _ _ Hk Hag) as Hag'.
    case Nat.ltb_spec; intros ?; split; cbn; try done; rewrite H3, Hs; [split_and!; try done; lia|].
    split_and!; [lia|done|]. apply agree_all. by replace 3%nat with (Datatypes.S k) by lia.
  - destruct H8 as (Hk & Hlt & ->). case Nat.ltb_spec; intros Hk3; split; cbn; try done.
    + by rewrite length_insert.
    + intros i Hi. rewrite H3, at_insert, decide_False; [by apply H6| |dlia..]. apply (slot_ne (accepted r) (delivered r)); lia.
    + intros x j Hd. destruct (H7 x j Hd) as (A & B & C). split_and!; try done.
      rewrite H3, at_insert, decide_False; [done| |dlia..]. apply (slot_ne (accepted r) (delivered r)); lia.
    + rewrite length_app, H3, next_tail by lia. cbn. f_equal. lia.
    + destruct H4 as [l Hl]. rewrite Hl. destruct l as [|y l].
      { rewrite Hl, app_nil_r in Hlt. lia. }
      exists l. rewrite <- app_assoc. f_equal. cbn. f_equal. rewrite at_app, decide_False, Z.sub_diag by lia. done.
    + rewrite length_app. cbn. lia.
    + intros i Hi. rewrite length_app in Hi. cbn in Hi. apply H6. lia.
    + intros x j Hd. rewrite length_app. cbn. destruct (H7 x j Hd) as (A & B & C). split_and!; try done. lia.
    + rewrite length_app. cbn. intros Hd. replace (zlen (delivered r) + 1)%Z with (zlen (delivered r) + 1) in * by lia.
      rewrite Nat2Z.inj_add. apply H6. cbn. lia.
Qed.

Lemma run_race_ok l r r' : race_ok r → run_race r l = Some r' → race_ok r'.
Proof.
  revert r. induction l as [|a l IH]; intros r H; [by intros [= <-]|]. cbn. destruct (access_step r a) as [r1|] eqn:E; [|done].
  apply IH. destruct a; [by eapply arrive_ok|by eapply drive_ok|]. cbn in E. injection E as <-. by apply receive_ok.
Qed.

(** ** The pieces put together *)

Definition in_range (n : nic) : Prop := zlen (pending_queue n) = 128 ∧ 0 ≤ pq_head n < 128 ∧ 0 ≤ pq_tail n < 128.

Lemma insert_at {A} `{Inhabited A} (l : list A) (i : Z) (x : A) :
  0 ≤ i < zlen l → at_ (<[Z.to_nat i := x]> l) i = x.
Proof. intros Hi. by rewrite at_insert, decide_True by lia. Qed.

(** The driver's accesses without a break are [ioforge_nic_rx]. *)
Lemma nic_rx_pieces r x :
  driver r = None → in_range (shared r) → ∃ l r', (l = [Arrive x] ∨ l = Arrive x :: replicate 4 Drive) ∧
    run_race r l = Some r' ∧ driver r' = None ∧ receiver r' = receiver r ∧
    ioforge_nic_rx (rx_data x) (rx_len x) (rx_id x) (shared r) = Ok ((), shared r').
Proof.
  intros Hd (Hl & Hh & Ht). unfold ioforge_nic_rx. destruct (bool_decide (rx_data x = None) || (rx_len x =? 0)) eqn:Ev.
  { exists [Arrive x], r. split; [auto|]. split; [|done]. cbn. rewrite Hd. unfold valid_rx. by rewrite <- negb_orb, Ev. }
  destruct (negb (Z.land (u32 (pq_head (shared r) + 1)) PENDING_QUEUE_MASK =? pq_tail (shared r))) eqn:En.
  - rewrite aset_ok, bind_Ok by lia. exists (Arrive x :: replicate 4 Drive). eexists. split; [auto|]. split.
    { cbn [run_race access_step]. rewrite Hd. unfold valid_rx. rewrite <- negb_orb, Ev, En. reflexivity. }
    split; [done|]. split; [done|]. cbn [shared pending_queue pq_head pq_tail].
    rewrite !insert_at by (rewrite ?length_insert; lia). rewrite !list_insert_insert_eq. by destruct x.
  - exists [Arrive x], r. split; [auto|]. split; [|done]. cbn. rewrite Hd. unfold valid_rx. by rewrite <- negb_orb, Ev, En.
Qed.

(** The receiver's are [ioforge_receive_pending_queue]. *)
Lemma receive_pieces r :
  receiver r = RIdle → in_range (shared r) → ∃ k r' o, run_race r (replicate k Receive) = Some r' ∧ receiver r' = RIdle ∧
    driver r' = driver r ∧ delivered r' = delivered r ++ option_list o ∧
    ioforge_receive_pending_queue (shared r) = Ok (o, shared r').
Proof.
  intros Hr (Hl & Hh & Ht). unfold ioforge_receive_pending_queue. destruct (pq_tail (shared r) =? pq_head (shared r)) eqn:E.
  - exists 0%nat, r, None. cbn. by rewrite app_nil_r.
  - rewrite aget_ok, aset_ok, !bind_Ok by lia. exists 8%nat. eexists. exists (Some (at_ (pending_queue (shared r)) (pq_tail (shared r)))). split.
    { cbn [replicate run_race access_step receive]. unfold receive at 8. rewrite Hr, E. reflexivity. }
    split; [done|]. split; [done|].
    cbn [receive receiver Nat.ltb Nat.leb shared driver accepted pending_queue pq_head pq_tail delivered option_list].
    rewrite !insert_at by (rewrite ?length_insert; lia). rewrite !list_insert_insert_eq.
    split; [|done]. do 2 f_equal. by destruct (at_ (pending_queue (shared r)) (pq_tail (shared r))).
Qed.

Lemma empty_race_ok : race_ok (quiet_race empty_nic).
Proof. split; cbn; try done; try lia. Qed.

Lemma race_in_range r : race_ok r → in_range (shared r).
Proof. intros [H1 H2 H3 _ _ _ _ _]. split; [done|]. rewrite H2, H3. split; dlia. Qed.

(** Between operations the ring holds what was accepted and not delivered. *)
Lemma race_quiet r :
  race_ok r → receiver r = RIdle → ring_holds (shared r) (drop (length (delivered r)) (accepted r)).
Proof.
  intros [H1 H2 H3 H4 H5 H6 H7 H8] Hr. pose proof (prefix_len _ _ H4) as Hle. rewrite Hr in H8. exists (zlen (delivered r)).
  split; rewrite ?length_drop; try done; try lia.
  - rewrite H2. f_equal. lia.
  - intros i Hi. rewrite at_drop by lia. destruct (decide (i = 0)) as [->|].
    + rewrite Z.add_0_r, Z.add_0_l. apply H8. lia.
    + rewrite H6 by lia. f_equal. lia.
Qed.

(** C32.  The ring of pending frames is safe for one driver and one receiver:
    in every interleaving of their accesses to memory, from the empty ring, the
    frames delivered are those accepted, each once, whole and in order; never
    more than 127 are waiting, and whenever the receiver is between two calls
    the ring holds exactly the frames accepted and not yet delivered.  The
    accesses are those of the code: without a break they are
    [ioforge_nic_rx] and [ioforge_receive_pending_queue]. *)
Theorem pending_queue_race_safe l r :
  run_race (quiet_race empty_nic) l = Some r →
  delivered r `prefix_of` accepted r ∧ zlen (accepted r) - zlen (delivered r) ≤ 127 ∧
  (receiver r = RIdle → ring_holds (shared r) (drop (length (delivered r)) (accepted r))) ∧
  (∀ x, driver r = None → ∃ l' r', (l' = [Arrive x] ∨ l' = Arrive x :: replicate 4 Drive) ∧ run_race r l' = Some r' ∧
     ioforge_nic_rx (rx_data x) (rx_len x) (rx_id x) (shared r) = Ok ((), shared r')) ∧
  (receiver r = RIdle → ∃ k r' o, run_race r (replicate k Receive) = Some r' ∧ delivered r' = delivered r ++ option_list o ∧
     ioforge_receive_pending_queue (shared r) = Ok (o, shared r')).
Proof.
  intros H. pose proof (run_race_ok _ _ _ empty_race_ok H) as Hok. pose proof (race_in_range r Hok) as Hin. split_and!.
  - apply Hok.
  - apply Hok.
  - by apply race_quiet.
  - intros x Hd. destruct (nic_rx_pieces r x Hd Hin) as (l' & r' & A & B & _ & _ & C). eauto.
  - intros Hr. destruct (receive_pieces r Hr Hin) as (k & r' & o & A & _ & _ & B & C). eauto 6.
Qed.

(** The second frame is stored while the first one is loaded. *)
Definition overlapped : list access :=
  [Arrive (mkRx 1 (Some [7]) 1); Drive; Drive; Receive; Drive; Drive; Arrive (mkRx 2 (Some [8]) 1); Receive; Drive; Receive;
   Receive; Drive; Receive; Drive; Receive; Drive; Receive; Receive; Receive].

Lemma pending_queue_race_safe_witness :
  ∃ r, run_race (quiet_race empty_nic) overlapped = Some r ∧
    delivered r `prefix_of` accepted r ∧ delivered r = [mkRx 1 (Some [7]) 1] ∧ length (accepted r) = 2%nat.
Proof.
  destruct (run_race (quiet_race empty_nic) overlapped) as [r|] eqn:E; [|vm_compute in E; discriminate E].
  exists r. split; [reflexivity|]. split; [exact (proj1 (pending_queue_race_safe overlapped r E))|].
  vm_compute in E. injection E as <-. split; reflexivity.
Defined.
