(* ===== verification/NetServe.v ===== *)
(** * From the ring to the wire

    Frames waiting in the ring, received one after the other through a bound
    socket: the answer to each is sent, in order, and every receive buffer goes
    back to the driver. *)

From S2P Require Import Prelude CMem Bytes StateM Net NetTcp NetRx NetSum NetFrame NetIcmp NetOpts NetSeg.

Open Scope sm_scope.

(** ** Frames received *)

Inductive message :=
  | Icmp (h : ip_in) (body : list Z)
  | Tcp (h : ip_in) (t : tcp_in) (os : list topt) (tail data : list Z)
  | Datagram (h : ip_in) (body : list Z)
  | Arp (front smac sip tmac tip : list Z)
  | Other (ethertype : Z) (payload : list Z).

Record frame := mkFrame { f_dst : list Z; f_src : list Z; f_msg : message }.

Definition msg_type (m : message) : Z :=
  match m with Icmp _ _ | Tcp _ _ _ _ _ | Datagram _ _ => ETHER_TYPE_IP | Arp _ _ _ _ _ => ETHER_TYPE_ARP | Other t _ => t end.
Definition msg_wire (m : message) : list Z :=
  match m with
  | Icmp h body | Datagram h body => ip_wire h ++ body
  | Tcp h t os tail data => ip_wire h ++ seg_body t os tail data
  | Arp front smac sip tmac tip => front ++ smac ++ sip ++ tmac ++ tip
  | Other _ payload => payload
  end.
Definition frame_wire (f : frame) : list Z := f_dst f ++ f_src f ++ be16 (msg_type (f_msg f)) ++ msg_wire (f_msg f).

Definition addr_ok (a : list Z) (n : nat) : Prop := length a = n ∧ byte_list a.

(** No echo request that is too long for a packet buffer, and only well formed
    TCP options. *)
Definition msg_ok (m : message) : Prop :=
  match m with
  | Icmp h body => in_ok h body ∧ in_proto h = ICMP_PROTOCOL ∧ icmp_answer h body ≠ Fault
  | Tcp h t os tail data => in_ok h (seg_body t os tail data) ∧ in_proto h = TCP_PROTOCOL ∧ seg_ok t os tail
  | Datagram h body => in_ok h body ∧ in_proto h ≠ ICMP_PROTOCOL ∧ in_proto h ≠ TCP_PROTOCOL
  | Arp front smac sip tmac tip => length front = 8%nat ∧ addr_ok smac 6 ∧ addr_ok sip 4 ∧ addr_ok tmac 6 ∧ addr_ok tip 4
  | Other t _ => 0 ≤ t < 65536 ∧ t ≠ ETHER_TYPE_IP ∧ t ≠ ETHER_TYPE_ARP
  end.
Definition frame_ok (f : frame) : Prop := addr_ok (f_dst f) 6 ∧ addr_ok (f_src f) 6 ∧ msg_ok (f_msg f).

(** ** Frames sent *)

(** [r]: the next random number; [urg]: the urgent pointer of a segment. *)
Definition replies (dev : netdev) (r : Z) (urg : list Z) (f : frame) : list (list Z) :=
  let datagram p h payload := eth_frame (f_src f) (mac dev) [8; 0] (ip_packet p MY_IP (in_src h) payload) in
  match f_msg f with
  | Icmp h body => match icmp_answer h body with Ok (Some reply) => [datagram ICMP_PROTOCOL h reply] | _ => [] end
  | Tcp h t os tail data => match tcp_answer dev h t os data r urg with Some seg => [datagram TCP_PROTOCOL h seg] | None => [] end
  | Arp _ _ sip _ tip =>
      if bool_decide (tip = MY_IP) then [eth_frame (f_src f) (mac dev) (be16 ETHER_TYPE_ARP) (arp_message dev sip (f_src f))] else []
  | Datagram _ _ | Other _ _ => []
  end.

Definition draws (f : frame) : nat := match f_msg f with Tcp _ t _ _ data => tcp_draws t data | _ => 0 end.

(** The answers to frames in turn, [n] random numbers taken before. *)
Fixpoint all_replies (dev : netdev) (vxRand : nat → Z) (n : nat) (fs : list frame) (urgs : list (list Z)) : list (list Z) :=
  match fs, urgs with
  | f :: fs, urg :: urgs => replies dev (vxRand n) urg f ++ all_replies dev vxRand (n + draws f) fs urgs
  | _, _ => []
  end.

Section serve.
Context (dev : netdev) (vxRand : nat → Z).
Hypothesis mac_len : zlen (mac dev) = 6.
Hypothesis mac_bytes : byte_list (mac dev).
Hypothesis mtu_fits : IPV4_HEADER + NETBUFF_DATA_SIZE ≤ mtu dev < 65536.

Lemma ethertype_value t : 0 ≤ t < 65536 → vxHtons (le_value (be16 t)) = t.
Proof. intros Ht. rewrite <- vxNtohs_htons. by apply ntohs_value. Qed.

Lemma msg_type_range m : msg_ok m → 0 ≤ msg_type m < 65536.
Proof. destruct m; cbn; unfold ETHER_TYPE_IP, ETHER_TYPE_ARP; [lia..|]. by intros []. Qed.

(** Two addresses are equal when their numbers are. *)
Lemma addr_eqb a b : addr_ok a 4 → addr_ok b 4 → (le_value a =? le_value b) = bool_decide (b = a).
Proof.
  intros [La Ha] [Lb Hb]. case Z.eqb_spec; intros E.
  - rewrite bool_decide_true; [done|]. rewrite <- (le_bytes_back a), <- (le_bytes_back b), La, Lb by done. by rewrite E.
  - rewrite bool_decide_false; [done|]. by intros ->.
Qed.

(** The steps in front of the layers. *)
Lemma dispatch_head f rest s (Q : () → net → Prop) :
  frame_ok f →
  (let body := msg_wire (f_msg f) ++ rest in
   swp (sm_when (msg_type (f_msg f) =? ETHER_TYPE_IP)
          (protocol ← sm_lift (aget body 9);
           sm_when (protocol =? ICMP_PROTOCOL) (handle_icmp dev body (f_src f)) ;;
           sm_when (protocol =? TCP_PROTOCOL) (handle_tcp dev vxRand body (f_src f))) ;;
        sm_when (msg_type (f_msg f) =? ETHER_TYPE_ARP)
          (target ← sm_lift (rd32 body 24);
           sender ← sm_lift (rd32 body 14);
           sm_when (vxInetAddr MYIP =? target) (arp_reply dev sender (f_src f)))) s Q) →
  swp (dispatch vxRand dev (frame_wire f ++ rest)) s Q.
Proof.
  intros ([Ld Hd] & [Ls Hs] & Hm) H. unfold dispatch. pose proof (msg_type_range _ Hm) as Ht.
  set (t := be16 (msg_type (f_msg f))). set (m := msg_wire (f_msg f)).
  assert (frame_wire f ++ rest = f_dst f ++ f_src f ++ t ++ m ++ rest) as E by (unfold frame_wire; by rewrite <- !app_assoc).
  apply swp_bind. apply (swp_lift _ (le_value t)).
  { unfold rd16. erewrite (slice_mid _ (f_dst f ++ f_src f) t); [done|rewrite E, <- app_assoc; done|by rewrite length_app, Ld, Ls|done]. }
  unfold t. rewrite ethertype_value by done. apply swp_bind. apply (swp_lift _ (f_src f)).
  { eapply (slice_mid _ (f_dst f)); [by rewrite E|by rewrite Ld|by rewrite Ls]. }
  replace (drop (Z.to_nat ETHERNET_HEADER) (frame_wire f ++ rest)) with (m ++ rest); [done|].
  rewrite E, !app_assoc, <- (app_assoc _ m), drop_app_length'; [done|]. by rewrite !length_app, Ld, Ls.
Qed.

Lemma icmp_spec h body rest mac_dst s :
  in_ok h body → icmp_answer h body ≠ Fault → zlen mac_dst = 6 → byte_list mac_dst → pool_ok s →
  swp (handle_icmp dev (ip_wire h ++ body ++ rest) mac_dst) s (λ _ s', pool_ok s' ∧ drawn s' = drawn s ∧ sent s' = sent s ++
    match icmp_answer h body with
    | Ok (Some reply) => [eth_frame mac_dst (mac dev) [8; 0] (ip_packet ICMP_PROTOCOL MY_IP (in_src h) reply)]
    | _ => []
    end).
Proof.
  intros Hin Hans Hd Hdb Hp. pose proof (handle_icmp_guards dev h body rest mac_dst s Hin) as G. unfold icmp_answer in *.
  destruct ((zlen body <? 8) || is_fragment h) eqn:E.
  { eapply swp_intro; [exact G|]. by rewrite app_nil_r. }
  apply orb_false_iff in E as [E8 Hf]. apply Z.ltb_ge in E8.
  destruct body as [|type [|code [|c1 [|c0 data]]]] eqn:Eb; [cbn in E8; lia..|]. change (at_ _ 0) with type in G.
  destruct (type =? 8) eqn:Et; cbn [negb] in *; [|eapply swp_intro; [exact G|]; by rewrite app_nil_r].
  apply Z.eqb_eq in Et as ->. rewrite <- Eb in *. destruct (Z.leb_spec (zlen body) MAX_ECHO) as [Hmax|]; [|done].
  eapply swp_mono; [by apply (icmp_reply_spec dev mac_len mac_bytes mtu_fits h body rest mac_dst s Hin Hd Hdb Hp code c1 c0 data)|].
  intros [] s' (Hp' & Es & Ed). done.
Qed.

Lemma dispatch_spec f rest s :
  frame_ok f → pool_ok s →
  swp (dispatch vxRand dev (frame_wire f ++ rest)) s (λ _ s', pool_ok s' ∧ drawn s' = (drawn s + draws f)%nat ∧
    ∃ urg, length urg = 2%nat ∧ sent s' = sent s ++ replies dev (vxRand (drawn s)) urg f).
Proof.
  intros Hf Hp. apply dispatch_head; [done|]. destruct Hf as (Hd & [Ls Hs] & Hm). unfold replies, draws.
  assert (zlen (f_src f) = 6) as Lz by lia.
  assert (∀ s' r, pool_ok s' → drawn s' = drawn s → sent s' = sent s ++ r → pool_ok s' ∧ drawn s' = (drawn s + 0)%nat ∧
    ∃ urg : list Z, length urg = 2%nat ∧ sent s' = sent s ++ r) as Hdone.
  { intros s' r ? ? ?. rewrite Nat.add_0_r. split_and!; [done..|]. by exists [0; 0]. }
  destruct (f_msg f) as [h body|h t os tail data|h body|front smac sip tmac tip|t payload] eqn:Em; cbn [msg_type msg_wire msg_ok] in *.
  - destruct Hm as (Hin & Hpr & Hans). cbn [sm_when Z.eqb Pos.eqb]. rewrite <- app_assoc.
    apply swp_bind, swp_bind. eapply swp_lift; [apply in_proto_read|]. rewrite Hpr. change (ICMP_PROTOCOL =? TCP_PROTOCOL) with false.
    rewrite Z.eqb_refl. cbn [sm_when]. apply swp_bind. eapply swp_mono; [by apply icmp_spec|].
    intros [] s' (Hp' & Ed & Es). apply swp_ret, swp_ret. by apply Hdone.
  - destruct Hm as (Hin & Hpr & Hseg). cbn [sm_when Z.eqb Pos.eqb]. rewrite <- app_assoc.
    apply swp_bind, swp_bind. eapply swp_lift; [apply in_proto_read|]. rewrite Hpr. change (TCP_PROTOCOL =? ICMP_PROTOCOL) with false.
    rewrite Z.eqb_refl. cbn [sm_when]. apply swp_bind, swp_ret.
    eapply swp_mono; [by apply (handle_tcp_spec dev vxRand mac_len mac_bytes mtu_fits h t os tail data rest (f_src f) Hin Hseg Lz Hs s Hp)|].
    intros [] s' (Hp' & Ed & urg & Lu & _ & Ha). apply swp_ret. split_and!; [done..|]. exists urg. split; [done|].
    destruct (tcp_answer _ _ _ _ _ _ _); [exact Ha|]. by rewrite app_nil_r.
  - destruct Hm as (Hin & H1 & H2). cbn [sm_when Z.eqb Pos.eqb]. rewrite <- app_assoc.
    apply swp_bind, swp_bind. eapply swp_lift; [apply in_proto_read|]. rewrite !(proj2 (Z.eqb_neq _ _)) by done.
    cbn [sm_when]. apply swp_bind, swp_ret, swp_ret, swp_ret. apply Hdone; [done..|by rewrite app_nil_r].
  - destruct Hm as (Lf & [Lsm Hsm] & [Lsi Hsi] & [Ltm Htm] & [Lti Hti]). cbn [sm_when Z.eqb Pos.eqb]. rewrite <- !app_assoc. apply swp_bind, swp_ret.
    apply swp_bind. apply (swp_lift _ (le_value tip)).
    { unfold rd32. erewrite (slice_mid _ (front ++ smac ++ sip ++ tmac) tip rest); [done|by rewrite <- !app_assoc| |by rewrite Lti].
      by rewrite !length_app, Lf, Lsm, Lsi, Ltm. }
    apply swp_bind. apply (swp_lift _ (le_value sip)).
    { unfold rd32. erewrite (slice_mid _ (front ++ smac) sip); [done|by rewrite <- !app_assoc| |by rewrite Lsi]. by rewrite length_app, Lf, Lsm. }
    change (vxInetAddr MYIP) with (le_value MY_IP). rewrite addr_eqb by (done || (split; [done|apply my_ip_ok])).
    case_bool_decide; cbn [sm_when]; [|apply swp_ret; apply Hdone; [done..|by rewrite app_nil_r]].
    eapply swp_mono; [apply (arp_reply_spec dev mac_len mac_bytes); done || lia|]. intros [] s' (Hp' & Ed & Es). by apply Hdone.
  - destruct Hm as (_ & H1 & H2). rewrite !(proj2 (Z.eqb_neq _ _)) by done. cbn [sm_when].
    apply swp_bind, swp_ret, swp_ret. apply Hdone; [done..|by rewrite app_nil_r].
Qed.

(** ** The socket *)

(** A frame in its receive buffer, with what lies behind it. *)
Definition pending (f : frame) (rest : list Z) (id : Z) : pending_rx :=
  mkRx id (Some (frame_wire f ++ rest)) (zlen (frame_wire f)).

Lemma swp_in_stack {A} (m : SM net A) s (Q : A → rxstate → Prop) :
  swp m (stack s) (λ a n, Q a (mkRxState (ring s) n (returned s))) → swp (in_stack m) s Q.
Proof. unfold swp, in_stack. by destruct (m (stack s)) as [[a n]| |]. Qed.

Lemma slice_front l n : 0 ≤ n ≤ zlen l → slice l 0 n = Ok (take (Z.to_nat n) l).
Proof. intros Hn. unfold slice. rewrite !(proj2 (Z.leb_le _ _)) by lia. done. Qed.

Lemma socket_receive_spec f rest id q size s :
  ring_holds (ring s) (pending f rest id :: q) → frame_ok f → pool_ok (stack s) → 0 ≤ size →
  swp (socket_receive vxRand (Some dev) size) s (λ r s', r = (1, take (Z.to_nat size) (frame_wire f)) ∧ ring_holds (ring s') q ∧
    pool_ok (stack s') ∧ returned s' = returned s ++ [id] ∧ drawn (stack s') = (drawn (stack s) + draws f)%nat ∧
    ∃ urg, length urg = 2%nat ∧ sent (stack s') = sent (stack s) ++ replies dev (vxRand (drawn (stack s))) urg f).
Proof.
  intros Hr Hf Hp Hsize. unfold socket_receive. destruct (receive_spec _ _ _ Hr) as (n & En & Hn).
  apply swp_bind. eapply (swp_intro _ _ _ (Some (pending f rest id)) (mkRxState n (stack s) (returned s))).
  { unfold in_ring. by rewrite En. }
  cbn [pending rx_len rx_data]. apply swp_bind, (swp_lift _ (frame_wire f ++ rest)); [done|].
  apply swp_bind, swp_in_stack. eapply swp_mono; [by apply dispatch_spec|]. cbn [ring stack returned]. intros [] s' (Hp' & Ed & Es).
  apply swp_bind, (swp_lift _ (take (Z.to_nat size) (frame_wire f))).
  { assert (0 ≤ zlen (frame_wire f)) as Hw by lia. case Z.ltb_spec; intros Hlt.
    - rewrite slice_front by (rewrite length_app; lia). rewrite Nat2Z.id, take_app_length. by rewrite take_ge by lia.
    - rewrite slice_front by (rewrite length_app; lia). by rewrite take_app_le by lia. }
  done.
Qed.

(** [n] calls of the socket's receive operation. *)
Fixpoint receive_all (n : nat) (size : Z) : SM rxstate (list (Z * list Z)) :=
  match n with
  | O => mret []
  | Datatypes.S n => x ← socket_receive vxRand (Some dev) size; xs ← receive_all n size; mret (x :: xs)
  end.

(** The frames with their buffers' numbers. *)
Lemma receive_all_spec (fs : list (frame * list Z * Z)) size s :
  ring_holds (ring s) ((λ '(f, rest, id), pending f rest id) <$> fs) → Forall (λ '(f, _, _), frame_ok f) fs → pool_ok (stack s) → 0 ≤ size →
  swp (receive_all (length fs) size) s (λ rs s',
    rs = (λ '(f, _, _), (1, take (Z.to_nat size) (frame_wire f))) <$> fs ∧ ring_holds (ring s') [] ∧ pool_ok (stack s') ∧
    returned s' = returned s ++ ((λ '(_, _, id), id) <$> fs) ∧
    ∃ urgs, length urgs = length fs ∧ Forall (λ urg : list Z, length urg = 2%nat) urgs ∧
      sent (stack s') = sent (stack s) ++ all_replies dev vxRand (drawn (stack s)) ((λ '(f, _, _), f) <$> fs) urgs).
Proof.
  revert s. induction fs as [|[[f rest] id] fs IH]; intros s Hr Hf Hp Hsize.
  - apply swp_ret. cbn in *. rewrite !app_nil_r. split_and!; try done. exists []. split; [done|]. by split; [constructor|].
  - apply Forall_cons in Hf as [Hf Hfs]. cbn [length receive_all]. apply swp_bind.
    eapply swp_mono; [by apply (socket_receive_spec f rest id)|]. cbv beta. intros x s1 (-> & Hr1 & Hp1 & Er1 & Ed1 & urg & Lu & Es1).
    apply swp_bind. eapply swp_mono; [by apply IH|]. cbv beta. intros rs s2 (-> & Hr2 & Hp2 & Er2 & urgs & Ll & Hu & Es2).
    apply swp_ret. split_and!; [done..|by rewrite Er2, Er1, <- app_assoc|]. exists (urg :: urgs). split; [cbn; lia|].
    split; [by constructor|]. rewrite Es2, Es1, Ed1. cbn. by rewrite <- app_assoc.
Qed.
End serve.

(** C17.  Frames waiting in the ring are served in order: as many calls of the
    bound socket's receive operation return, each with the first bytes of its
    frame, every receive buffer goes back to the driver exactly once, and the
    ring is empty.  What is sent meanwhile are the answers to the frames, in
    their order: an ICMP datagram gets the echo reply if it is an unfragmented
    echo request, a TCP segment what its flags say, an ARP packet for our
    address, whatever its operation, the reply with our address; everything
    else, datagrams of other protocols and frames of other types, gets nothing.
    The datagrams have correct lengths, the segments well formed options, the
    echo requests the size of a packet buffer at most. *)
Theorem frames_served dev vxRand (fs : list (frame * list Z * Z)) size s :
  zlen (mac dev) = 6 → byte_list (mac dev) → IPV4_HEADER + NETBUFF_DATA_SIZE ≤ mtu dev < 65536 →
  ring_holds (ring s) ((λ '(f, rest, id), pending f rest id) <$> fs) → Forall (λ '(f, _, _), frame_ok f) fs → pool_ok (stack s) → 0 ≤ size →
  ∃ s' urgs, receive_all dev vxRand (length fs) size s = Ok ((λ '(f, _, _), (1, take (Z.to_nat size) (frame_wire f))) <$> fs, s') ∧
    ring_holds (ring s') [] ∧ returned s' = returned s ++ ((λ '(_, _, id), id) <$> fs) ∧
    length urgs = length fs ∧ Forall (λ urg : list Z, length urg = 2%nat) urgs ∧
    sent (stack s') = sent (stack s) ++ all_replies dev vxRand (drawn (stack s)) ((λ '(f, _, _), f) <$> fs) urgs.
Proof.
  intros Hm Hmb Hmtu Hr Hf Hp Hs.
  destruct (swp_elim _ _ _ (receive_all_spec dev vxRand Hm Hmb Hmtu fs size s Hr Hf Hp Hs)) as (rs & s' & E & -> & H1 & _ & H2 & urgs & H3 & H4 & H5).
  by exists s', urgs.
Qed.
