(* ===== verification/NetDemo.v ===== *)
(** * The network stack run

    A device, a few frames, and what is sent in answer, by evaluation. *)

From S2P Require Import Prelude CMem Bytes StateM Net NetTcp NetRx NetSum NetFrame NetIcmp NetOpts NetSeg NetServe.

Module NetDemo.

Definition dev : netdev := mkDev [82; 84; 0; 18; 52; 86] 15000.
Definition peer : list Z := [2; 0; 0; 0; 0; 1].
Definition rand : nat → Z := λ n, 1000 + Z.of_nat n.
Definition start : net := mkNet [] [] 0 0.

Ltac bytes := unfold byte_list; apply (bool_decide_unpack _); vm_compute; exact I.

Definition ping : ip_in := mkIn 0x45 0 32 7 0 64 1 0 [192; 168; 100; 1] MY_IP [].
Definition ping_body : list Z := [8; 0; 0x12; 0x34; 0; 1; 0; 9; 104; 101; 108; 111].

Lemma ping_ok : in_ok ping ping_body.
Proof. split; try done; bytes. Qed.

Lemma start_pool_ok : pool_ok start.
Proof. constructor. Qed.

Lemma handle_icmp_refines_witness :
  ∃ s', handle_icmp dev (ip_wire ping ++ ping_body ++ [0; 0; 0; 0]) peer start = Ok ((), s') ∧
    sent s' = [eth_frame peer (mac dev) [8; 0] (ip_packet ICMP_PROTOCOL MY_IP (in_src ping) (echo_reply 0 [0; 1; 0; 9; 104; 101; 108; 111]))].
Proof.
  destruct (handle_icmp_refines dev ping ping_body [0; 0; 0; 0] peer start) as (s' & E & _ & Es & _).
  - reflexivity.
  - bytes.
  - vm_compute. split; congruence.
  - exact ping_ok.
  - reflexivity.
  - bytes.
  - exact start_pool_ok.
  - exists s'. split; [exact E|exact Es].
Defined.

(** The header of a request with more data than a packet buffer holds. *)
Definition big_ping (n : Z) : list Z :=
  ip_wire (mkIn 0x45 0 (20 + n) 7 0 64 1 0 [192; 168; 100; 1] MY_IP []) ++ 8 :: replicate (Z.to_nat (n - 1)) 0.

(** A request of 1984 bytes is answered, one of 1985 is written past the
    buffer. *)
Example echo_limit :
  is_Some (match handle_icmp dev (big_ping 1984) peer start with Ok x => Some x | _ => None end) ∧
  handle_icmp dev (big_ping 1985) peer start = Fault.
Proof. split; [vm_compute; eauto|vm_compute; reflexivity]. Qed.

Definition syn : tcp_in := mkTin 40000 80 0xFFFFFFFF 0 0x60 FLAG_SYN 1024 0 0.
Definition syn_ip : ip_in := mkIn 0x45 0 44 7 0 64 6 0 [192; 168; 100; 1] MY_IP [].

(** The largest sequence number is acknowledged by 0. *)
Lemma syn_ok : in_ok syn_ip (seg_body syn [TMss 1460] [] []) ∧ seg_ok syn [TMss 1460] [].
Proof.
  split; [split; try done; bytes|].
  split; [reflexivity|by constructor|left; reflexivity|..]; cbn [syn ti_sport ti_dport ti_seq ti_ack]; lia.
Qed.

Lemma handle_tcp_answers_witness :
  ∃ s' urg, handle_tcp dev rand (ip_wire syn_ip ++ seg_body syn [TMss 1460] [] [] ++ []) peer start = Ok ((), s') ∧
    let seg := out_segment MY_IP (in_src syn_ip) 80 40000 1000 0 0x60 0x12 urg [2; 4; 5; 180; 1] in
    sent s' = [eth_frame peer (mac dev) [8; 0] (ip_packet TCP_PROTOCOL MY_IP (in_src syn_ip) seg)] ∧
    (seg_verifies MY_IP (in_src syn_ip) seg ↔ same_sum MY_IP MY_IP).
Proof.
  destruct (handle_tcp_answers dev rand syn_ip syn [TMss 1460] [] [] [] peer start) as (s' & urg & E & _ & _ & Es & Hv).
  - reflexivity.
  - bytes.
  - vm_compute. split; congruence.
  - apply syn_ok.
  - apply syn_ok.
  - reflexivity.
  - bytes.
  - exact start_pool_ok.
  - exists s', urg. split; [exact E|]. split; [exact Es|exact Hv].
Defined.

(** A request to the broadcast address would be answered with a checksum that
    fails. *)
Example broadcast_sum : ¬ same_sum [255; 255; 255; 255] MY_IP.
Proof. vm_compute. discriminate. Qed.

(** The segment above takes 25 bytes, its offset field says 24. *)
Example synack_offset : zlen (out_segment MY_IP (in_src syn_ip) 80 40000 1000 0 0x60 0x12 [0; 0] [2; 4; 5; 180; 1]) = 25 ∧ header_len 0x60 = 24.
Proof. split; reflexivity. Qed.

Definition arp : frame := mkFrame (replicate 6 255) peer (Arp [0; 1; 8; 0; 6; 4; 0; 1] peer [192; 168; 100; 1] (replicate 6 0) MY_IP).
Definition echo : frame := mkFrame (mac dev) peer (Icmp ping ping_body).
Definition request : frame := mkFrame (mac dev) peer (Tcp syn_ip syn [TMss 1460] [] []).
Definition waiting : list (frame * list Z * Z) := [(arp, replicate 18 0, 3); (echo, [0; 0; 0; 0], 4); (request, [], 5)].
Definition three_frames : nic :=
  mkNic (<[127%nat := pending arp (replicate 18 0) 3]> (<[0%nat := pending echo [0; 0; 0; 0] 4]> (<[1%nat := pending request [] 5]> (replicate 128 no_rx)))) 2 127.

(** Three frames, around the end of the ring. *)
Lemma frames_served_witness :
  ∃ s' urgs, receive_all dev rand 3 100 (mkRxState three_frames start []) =
          Ok ([(1, frame_wire arp); (1, frame_wire echo); (1, frame_wire request)], s') ∧
    returned s' = [3; 4; 5] ∧ sent (stack s') = all_replies dev rand 0 [arp; echo; request] urgs.
Proof.
  destruct (frames_served dev rand waiting 100 (mkRxState three_frames start [])) as (s' & urgs & E & _ & Er & _ & _ & Es).
  - reflexivity.
  - bytes.
  - vm_compute. split; congruence.
  - exists 127. split; try (vm_compute; congruence).
    intros i Hi. cbn in Hi. assert (i = 0 ∨ i = 1 ∨ i = 2) as [->|[-> | ->]] by lia; vm_compute; reflexivity.
  - repeat constructor; try bytes; try exact ping_ok; try apply syn_ok; vm_compute; congruence.
  - exact start_pool_ok.
  - lia.
  - exists s', urgs. split; [exact E|]. split; [exact Er|exact Es].
Defined.
End NetDemo.
