(* ===== verification/Unix.v ===== *)
(** * Local sockets

    [create_socket] of [kernel/net/socket.c] and the calls on [AF_UNIX] sockets
    of [kernel/sys/syscall]: socket, bind, listen, connect, accept, sendto,
    recvfrom.  A connection is two sockets with a receive ring of 4096 bytes
    each, linked by their peer pointers; a listening socket has a ring of 128
    connections that wait to be accepted.

    Descriptors are those of [Fd]; a socket is found through the private
    pointer of an open file.  A call that blocks stops at the switch and goes
    on in a second definition; waking a thread is an event.  Path lookup is a
    parameter, [namei]: the vnode of a path.  The private pointers are those of
    all open files and vnodes: of sockets, of pipes, of file systems.  The calls
    take each for the address of a socket; where there is none they fault. *)

From S2P Require Import Prelude StateM Fd.

Open Scope sm_scope.

Definition ENOENT : Z := 2.
Definition EAGAIN : Z := 11.
Definition ENOSYS : Z := 38.
Definition EAFNOSUPPORT : Z := 97.
Definition EADDRINUSE : Z := 98.
Definition ECONNREFUSED : Z := 111.

Definition AF_UNIX : Z := 1.
Definition AF_INET : Z := 2.
Definition SOCK_STREAM : Z := 1.
Definition SOCK_SEQPACKET : Z := 5.
Definition SOCK_NONBLOCK : Z := 2048.
Definition SOCK_CLOEXEC : Z := 524288.
Definition O_NONBLOCK : Z := 2048.
Definition SOCK_STATE_CLOSED : Z := 0.
Definition SOCK_STATE_BOUND : Z := 1.
Definition SOCK_STATE_LISTENING : Z := 2.
Definition SOCK_STATE_CONNECTED : Z := 3.
Definition SOMAXCONN : Z := 128.
Definition UNIX_BACKLOG_MAX : Z := 128.
Definition UNIX_BUF_SIZE : Z := 4096.

(** The fields of [socket_t] that are read, then those of [unix_socket];
    pointers are addresses, 0 for null. *)
Record unix_socket := mkSock {
  s_family : Z; s_type : Z; s_protocol : Z; s_backlog : Z; s_state : Z;
  s_pending : list Z; pending_head : Z; pending_tail : Z; pending_count : Z;
  rbuf : list Z; rhead : Z; rtail : Z; rcount : Z;
  peer : Z; blocked_accept_thread : Z; blocked_recv_thread : Z }.

Definition set_state (x : Z) (u : unix_socket) : unix_socket :=
  mkSock (s_family u) (s_type u) (s_protocol u) (s_backlog u) x (s_pending u) (pending_head u) (pending_tail u) (pending_count u)
    (rbuf u) (rhead u) (rtail u) (rcount u) (peer u) (blocked_accept_thread u) (blocked_recv_thread u).
Definition set_backlog (x : Z) (u : unix_socket) : unix_socket :=
  mkSock (s_family u) (s_type u) (s_protocol u) x (s_state u) (s_pending u) (pending_head u) (pending_tail u) (pending_count u)
    (rbuf u) (rhead u) (rtail u) (rcount u) (peer u) (blocked_accept_thread u) (blocked_recv_thread u).
Definition set_pending (l : list Z) (h t c : Z) (u : unix_socket) : unix_socket :=
  mkSock (s_family u) (s_type u) (s_protocol u) (s_backlog u) (s_state u) l h t c
    (rbuf u) (rhead u) (rtail u) (rcount u) (peer u) (blocked_accept_thread u) (blocked_recv_thread u).
Definition set_ring (b : list Z) (h t c : Z) (u : unix_socket) : unix_socket :=
  mkSock (s_family u) (s_type u) (s_protocol u) (s_backlog u) (s_state u) (s_pending u) (pending_head u) (pending_tail u) (pending_count u)
    b h t c (peer u) (blocked_accept_thread u) (blocked_recv_thread u).
Definition set_peer (x : Z) (u : unix_socket) : unix_socket :=
  mkSock (s_family u) (s_type u) (s_protocol u) (s_backlog u) (s_state u) (s_pending u) (pending_head u) (pending_tail u) (pending_count u)
    (rbuf u) (rhead u) (rtail u) (rcount u) x (blocked_accept_thread u) (blocked_recv_thread u).
Definition set_blocked_accept (x : Z) (u : unix_socket) : unix_socket :=
  mkSock (s_family u) (s_type u) (s_protocol u) (s_backlog u) (s_state u) (s_pending u) (pending_head u) (pending_tail u) (pending_count u)
    (rbuf u) (rhead u) (rtail u) (rcount u) (peer u) x (blocked_recv_thread u).
Definition set_blocked_recv (x : Z) (u : unix_socket) : unix_socket :=
  mkSock (s_family u) (s_type u) (s_protocol u) (s_backlog u) (s_state u) (s_pending u) (pending_head u) (pending_tail u) (pending_count u)
    (rbuf u) (rhead u) (rtail u) (rcount u) (peer u) (blocked_accept_thread u) x.

(** The sockets; the private pointers of open files and of vnodes, whatever
    they point to; the threads woken. *)
Record ust := mkUst { socks : gmap Z unix_socket; file_private : gmap Z Z; vnode_private : gmap Z Z; woken : list Z }.

Abbreviation st := (fdst ust).

Definition upd_store (f : ust → ust) : SM st () := fun s => Ok ((), set_store (f (store s)) s).
Definition sock_at (p : Z) : SM st unix_socket := fun s =>
  match socks (store s) !! p with Some u => Ok (u, s) | None => Fault end.
Definition put_sock (p : Z) (u : unix_socket) : SM st () :=
  upd_store (λ x, mkUst (<[p := u]> (socks x)) (file_private x) (vnode_private x) (woken x)).
Definition set_private (f p : Z) : SM st () :=
  upd_store (λ x, mkUst (socks x) (<[f := p]> (file_private x)) (vnode_private x) (woken x)).
Definition set_vnode_private (v p : Z) : SM st () :=
  upd_store (λ x, mkUst (socks x) (file_private x) (<[v := p]> (vnode_private x)) (woken x)).
Definition wake (t : Z) : SM st () :=
  upd_store (λ x, mkUst (socks x) (file_private x) (vnode_private x) (woken x ++ [t])).
Definition upd_sock (p : Z) (f : unix_socket → unix_socket) : SM st () := u ← sock_at p; put_sock p (f u).

(** A null pointer for what was never set. *)
Definition pointer (m : gmap Z Z) (k : Z) : Z := default 0 (m !! k).
Definition private_of (f : Z) : SM st Z := fun s => Ok (pointer (file_private (store s)) f, s).
Definition vnode_private_of (v : Z) : SM st Z := fun s => Ok (pointer (vnode_private (store s)) v, s).

(** ** Creating sockets *)

Definition new_socket (family type protocol : Z) : unix_socket :=
  mkSock family type (u16 protocol) 0 SOCK_STATE_CLOSED (replicate 128 0) 0 0 0 (replicate 4096 0) 0 0 0 0 0 0.

(** [p]: the object [kalloc] returns. *)
Definition create_socket (family type protocol p : Z) : SM st bool :=
  if (family =? AF_INET) || (family =? AF_UNIX) then put_sock p (new_socket family type protocol) ;; mret true
  else mret false.

(** A new open file [f] with socket [p] at the first free descriptor: the end
    of socket and of accept. [clo]: the close-on-exec mark, [None] to leave
    it. *)
Definition install_socket (me : nat) (f p fl : Z) (clo : option Z) : SM st Z :=
  o ← table_of me;
  match o with
  | None => sm_lift Fault
  | Some t =>
      o ← first_free (Z.to_nat (max_fds t)) t 0;
      match o with
      | None => mret (- EMFILE)
      | Some fd =>
          upd_table me (λ t, if next_fd t <=? fd then set_next_fd (u32 (fd + 1)) t else t) ;;
          alloc_fd f ;;
          upd_file f (set_flags fl) ;;
          match clo with Some c => set_slot_flags me fd c | None => mret () end ;;
          set_slot me fd f ;;
          set_private f p ;;
          emit (ProcFdLookup me fd) ;;
          mret fd
      end
  end.

(** [p], [f]: the objects for the socket and the open file. *)
Definition syscall_socket (me : nat) (domain type protocol p f : Z) : SM st Z :=
  let nonblock_flag := if Z.land type SOCK_NONBLOCK =? 0 then 0 else O_NONBLOCK in
  let cloexec_flag := if Z.land type SOCK_CLOEXEC =? 0 then 0 else 1 in
  let type := Z.land type (Z.lnot (Z.lor SOCK_NONBLOCK SOCK_CLOEXEC)) in
  ok ← create_socket domain type protocol p;
  if negb ok then mret (- ENOENT) else
  o ← table_of me;
  match o with
  | None => mret (- ENOENT)
  | Some _ => install_socket me f p nonblock_flag (Some cloexec_flag)
  end.

(** ** Descriptors *)

(** The open file and the socket of a descriptor, or the error. *)
Definition socket_fd (me : nat) (fd : Z) : SM st (Z + Z * Z) :=
  o ← table_of me;
  match o with
  | None => mret (inl (- ENOENT))
  | Some t =>
      if (fd <? 0) || (max_fds t <=? fd) then mret (inl (- EBADF)) else
      f ← slot t fd;
      if f =? 0 then mret (inl (- EBADF)) else
      p ← private_of f;
      if p =? 0 then mret (inl (- ENOENT)) else mret (inr (f, p))
  end.
Definition nonblocking (f : Z) : SM st bool := x ← file_at f; mret (negb (Z.land (flags x) O_NONBLOCK =? 0)).

Section calls.
(** [vxnamei]: the vnode a path leads to; 0 when the dentry has none; [None]
    when the walk fails. It makes entries for missing names. *)
Variable namei : list Z → option Z.

(** ** Connections *)

(** [path]: the path in the address, [None] for a null address; when the walk
    fails the code uses a dentry that was never set. *)
Definition syscall_bind (me : nat) (fd : Z) (path : option (list Z)) (len : Z) : SM st Z :=
  match path with
  | None => mret (- EINVAL)
  | Some path =>
      if len =? 0 then mret (- EINVAL) else
      r ← socket_fd me fd;
      match r with
      | inl e => mret e
      | inr (_, p) =>
          u ← sock_at p;
          if s_family u =? AF_UNIX then
            match namei path with
            | None => sm_lift Fault
            | Some v =>
                if v =? 0 then sm_lift Fault else
                x ← vnode_at v;
                if v_fs_instance x then mret (- EADDRINUSE)
                else set_vnode_private v p ;; upd_sock p (set_state SOCK_STATE_BOUND) ;; mret 0
            end
          else mret (- ENOSYS)
      end
  end.

Definition syscall_listen (me : nat) (fd backlog : Z) : SM st Z :=
  if fd <? 0 then mret (- EBADF) else
  r ← socket_fd me fd;
  match r with
  | inl e => mret e
  | inr (_, p) =>
      u ← sock_at p;
      if negb (s_state u =? SOCK_STATE_BOUND) && negb (s_state u =? SOCK_STATE_LISTENING) then mret (- EINVAL)
      else if negb (s_type u =? SOCK_STREAM) && negb (s_type u =? SOCK_SEQPACKET) then mret (- EINVAL)
      else
        let backlog := if backlog <? 0 then 0 else backlog in
        let backlog := if SOMAXCONN <? backlog then SOMAXCONN else backlog in
        upd_sock p (set_state SOCK_STATE_LISTENING) ;;
        upd_sock p (set_backlog backlog) ;;
        mret 0
  end.

(** The other end of a connection: the head of [client], the rest cleared. *)
Definition server_side_of (client : unix_socket) (client_p : Z) : unix_socket :=
  mkSock (s_family client) (s_type client) (s_protocol client) (s_backlog client) (s_state client)
    (replicate 128 0) 0 0 0 (replicate 4096 0) 0 0 0 client_p 0 0.

(** [q]: the object for the other end, 0 when there is no memory. *)
Definition syscall_connect (me : nat) (fd : Z) (path : option (list Z)) (len q : Z) : SM st Z :=
  match path with
  | None => mret (- EINVAL)
  | Some path =>
      if len =? 0 then mret (- EINVAL) else
      r ← socket_fd me fd;
      match r with
      | inl e => mret e
      | inr (_, p) =>
          client ← sock_at p;
          if negb (s_family client =? AF_UNIX) then mret (- EAFNOSUPPORT) else
          match namei path with
          | None => mret (- ENOENT)
          | Some v =>
              if v =? 0 then mret (- ENOENT) else
              srv ← vnode_private_of v;
              if srv =? 0 then mret (- ECONNREFUSED) else
              us ← sock_at srv;
              if negb (s_state us =? SOCK_STATE_LISTENING) then mret (- ECONNREFUSED)
              else if s_backlog us <=? pending_count us then mret (- ECONNREFUSED)
              else if q =? 0 then mret (- ENOMEM) else
              put_sock q (server_side_of client p) ;;
              upd_sock p (set_peer q) ;;
              us ← sock_at srv;
              l ← sm_lift (aset (s_pending us) (pending_tail us) q);
              put_sock srv (set_pending l (pending_head us) ((pending_tail us + 1) mod UNIX_BACKLOG_MAX) (pending_count us + 1) us) ;;
              sm_when (negb (blocked_accept_thread us =? 0)) (wake (blocked_accept_thread us)) ;;
              mret 0
          end
      end
  end.

(** A connection taken from the ring and given a descriptor [f]. *)
Definition accept_pending (me : nat) (srv f : Z) : SM st Z :=
  us ← sock_at srv;
  client ← sm_lift (aget (s_pending us) (pending_head us));
  put_sock srv (set_pending (s_pending us) ((pending_head us + 1) mod UNIX_BACKLOG_MAX) (pending_tail us) (pending_count us - 1) us) ;;
  r ← install_socket me f client 0 None;
  sm_when (0 <=? r) (upd_sock client (set_state SOCK_STATE_CONNECTED)) ;;
  mret r.

(** One round of the wait loop and what follows it: [None] when the thread
    [thr] blocks. *)
Definition accept_round (me : nat) (nb : bool) (srv f thr : Z) : SM st (option Z) :=
  us ← sock_at srv;
  if pending_count us =? 0 then
    if negb nb then put_sock srv (set_blocked_accept thr us) ;; mret None
    else mret (Some (- EAGAIN))
  else r ← accept_pending me srv f; mret (Some r).

Definition syscall_accept (me : nat) (fd f thr : Z) : SM st (option Z) :=
  r ← socket_fd me fd;
  match r with
  | inl e => mret (Some e)
  | inr (file, srv) =>
      us ← sock_at srv;
      if negb (s_family us =? AF_UNIX) then mret (Some (- EAFNOSUPPORT))
      else if negb (s_state us =? SOCK_STATE_LISTENING) then mret (Some (- EINVAL))
      else nb ← nonblocking file; accept_round me nb srv f thr
  end.

(** The rest of the call after the switch back; only a call that may block
    gets here. *)
Definition accept_resumed (me : nat) (srv f thr : Z) : SM st (option Z) :=
  upd_sock srv (set_blocked_accept 0) ;;
  accept_round me false srv f thr.

(** ** Data *)

(** [while (written < (int) len && dest->rcount < UNIX_BUF_SIZE)]: the socket
    and the bytes written; every round fills a place of the ring. *)
Fixpoint send_loop (n : nat) (dest : unix_socket) (buf : list Z) (written len : Z) : res (unix_socket * Z) :=
  match n with
  | O => NoFuel
  | Datatypes.S n =>
      if (written <? len) && (rcount dest <? UNIX_BUF_SIZE) then
        x ← aget buf written;
        b ← aset (rbuf dest) (rtail dest) x;
        send_loop n (set_ring b (rhead dest) ((rtail dest + 1) mod UNIX_BUF_SIZE) (rcount dest + 1) dest) buf (written + 1) len
      else Ok (dest, written)
  end.
Definition RING_ROUNDS : nat := Z.to_nat (UNIX_BUF_SIZE + 1).

Definition send_now (dest_p : Z) (buf : list Z) (len : Z) : SM st Z :=
  dest ← sock_at dest_p;
  r ← sm_lift (send_loop RING_ROUNDS dest buf 0 (s32 len));
  let '(dest, written) := r in
  put_sock dest_p dest ;;
  sm_when (negb (blocked_recv_thread dest =? 0)) (wake (blocked_recv_thread dest)) ;;
  mret written.

(** [buf]: the bytes readable from the caller's buffer, [None] for null; the
    result [None]: the thread blocks, without leaving its name. *)
Definition syscall_sendto (me : nat) (fd : Z) (buf : option (list Z)) (len : Z) : SM st (option Z) :=
  match buf with
  | None => mret (Some (- EINVAL))
  | Some buf =>
      if (fd <? 0) || (len =? 0) then mret (Some (- EINVAL)) else
      r ← socket_fd me fd;
      match r with
      | inl e => mret (Some e)
      | inr (file, p) =>
          us ← sock_at p;
          if negb (s_family us =? AF_UNIX) then mret (Some (- EAFNOSUPPORT)) else
          let dest_p := if peer us =? 0 then p else peer us in
          nb ← nonblocking file;
          dest ← sock_at dest_p;
          if UNIX_BUF_SIZE <=? rcount dest then if negb nb then mret None else mret (Some (- EAGAIN))
          else w ← send_now dest_p buf len; mret (Some w)
      end
  end.

Definition sendto_resumed (dest_p : Z) (buf : list Z) (len : Z) : SM st (option Z) :=
  dest ← sock_at dest_p;
  if UNIX_BUF_SIZE <=? rcount dest then mret None
  else w ← send_now dest_p buf len; mret (Some w).

(** The socket and the bytes read, the last one first. *)
Fixpoint recv_loop (n : nat) (us : unix_socket) (got : list Z) (len : Z) : res (unix_socket * list Z) :=
  match n with
  | O => NoFuel
  | Datatypes.S n =>
      if (zlen got <? len) && (0 <? rcount us) then
        x ← aget (rbuf us) (rhead us);
        recv_loop n (set_ring (rbuf us) ((rhead us + 1) mod UNIX_BUF_SIZE) (rtail us) (rcount us - 1) us) (x :: got) len
      else Ok (us, got)
  end.

(** One round of the wait loop and the transfer: [None] when the thread
    blocks; the result and the bytes. *)
Definition recv_round (nb : bool) (p thr len : Z) : SM st (option (Z * list Z)) :=
  us ← sock_at p;
  if rcount us =? 0 then
    if negb nb then put_sock p (set_blocked_recv thr us) ;; mret None
    else mret (Some (- EAGAIN, []))
  else
    r ← sm_lift (recv_loop RING_ROUNDS us [] (s32 len));
    let '(us, got) := r in
    put_sock p us ;;
    mret (Some (zlen got, reverse got)).

Definition syscall_recvfrom (me : nat) (fd : Z) (buf : bool) (len thr : Z) : SM st (option (Z * list Z)) :=
  if (fd <? 0) || negb buf || (len =? 0) then mret (Some (- EINVAL, [])) else
  r ← socket_fd me fd;
  match r with
  | inl e => mret (Some (e, []))
  | inr (file, p) =>
      us ← sock_at p;
      if negb (s_family us =? AF_UNIX) then mret (Some (- EAFNOSUPPORT, []))
      else nb ← nonblocking file; recv_round nb p thr len
  end.

Definition recvfrom_resumed (p thr len : Z) : SM st (option (Z * list Z)) :=
  upd_sock p (set_blocked_recv 0) ;;
  recv_round false p thr len.
End calls.
