(* ===== verification/UnixThm.v ===== *)
(** * Local sockets: the invariant and the calls

    What a socket's receive ring and its ring of waiting connections hold, the
    invariant that ties sockets, open files and vnodes together, the operations
    on one socket, and that every call keeps the invariant and returns. *)

From S2P Require Import Prelude StateM Fd FdOps Unix.

Open Scope sm_scope.

(** ** Rings *)

(** A ring of [n] places with [count] elements from [head] on holds [q]. *)
Record ring_of (n : Z) (b : list Z) (head tail count : Z) (q : list Z) : Prop := mkRingOf {
  ro_size : zlen b = n;
  ro_from : 0 ≤ head < n;
  ro_count : count = zlen q;
  ro_fits : zlen q ≤ n;
  ro_to : tail = (head + zlen q) mod n;
  ro_at : ∀ i, 0 ≤ i < zlen q → at_ b ((head + i) mod n) = at_ q i }.

Lemma mod_ne n a i j : 0 ≤ i < n → 0 ≤ j < n → i ≠ j → (a + i) mod n ≠ (a + j) mod n.
Proof.
  intros Hi Hj Hne E. apply Hne. assert (n ≠ 0) as Hn by lia. pose proof (Z.div_mod (a + i) n Hn). pose proof (Z.div_mod (a + j) n Hn).
  assert (i - j = n * ((a + i) / n - (a + j) / n)) by lia. assert ((a + i) / n - (a + j) / n = 0) by nia. lia.
Qed.

Lemma ring_push n b h t c q x :
  ring_of n b h t c q → zlen q < n →
  aset b t x = Ok (<[Z.to_nat t := x]> b) ∧ ring_of n (<[Z.to_nat t := x]> b) h ((t + 1) mod n) (c + 1) (q ++ [x]).
Proof.
  intros [Hn Hh -> Hf -> Ha] Hq. pose proof (Z.mod_pos_bound (h + zlen q) n) as Ht. split; [apply aset_ok; lia|].
  split; rewrite ?length_insert, ?length_app; cbn [length]; try lia.
  - rewrite Zplus_mod_idemp_l. f_equal. lia.
  - intros i Hi. rewrite at_insert by (pose proof (Z.mod_pos_bound (h + i) n); lia). rewrite at_app by lia.
    case_decide as E.
    + assert (i = zlen q) as -> by (destruct (decide (i = zlen q)); [done|]; by apply mod_ne in E; lia).
      rewrite decide_False, Z.sub_diag by lia. done.
    + rewrite decide_True; [apply Ha|]; destruct (decide (i = zlen q)) as [->|]; try done; lia.
Qed.

Lemma ring_pop n b h t c q x :
  ring_of n b h t c (x :: q) → aget b h = Ok x ∧ ring_of n b ((h + 1) mod n) t (c - 1) q.
Proof.
  intros [Hn Hh -> Hf -> Ha]. cbn [length] in *. pose proof (Ha 0) as H0. rewrite Z.add_0_r, Z.mod_small in H0 by lia. split.
  { rewrite aget_ok by lia. f_equal. rewrite H0 by lia. done. }
  split; try lia.
  - pose proof (Z.mod_pos_bound (h + 1) n). lia.
  - rewrite Zplus_mod_idemp_l. f_equal. lia.
  - intros i Hi. rewrite Zplus_mod_idemp_l. replace (h + 1 + i) with (h + (i + 1)) by lia. rewrite Ha by lia.
    rewrite at_cons, decide_False by lia. f_equal. lia.
Qed.

Lemma ring_empty n b h : zlen b = n → 0 ≤ h < n → ring_of n b h h 0 [].
Proof. intros Hb Hh. split; cbn; try done; try lia. rewrite Z.add_0_r, Z.mod_small; lia. Qed.

Definition holds (u : unix_socket) (q : list Z) : Prop := ring_of UNIX_BUF_SIZE (rbuf u) (rhead u) (rtail u) (rcount u) q.
Definition waits (u : unix_socket) (q : list Z) : Prop :=
  ring_of UNIX_BACKLOG_MAX (s_pending u) (pending_head u) (pending_tail u) (pending_count u) q.

(** Everything but the receive ring. *)
Definition same_socket (u u' : unix_socket) : Prop := u' = set_ring (rbuf u') (rhead u') (rtail u') (rcount u') u.

Lemma send_loop_spec n u buf w len q :
  holds u q → 0 ≤ w → len ≤ zlen buf → (Z.to_nat (UNIX_BUF_SIZE - zlen q) < n)%nat →
  let k := Z.max 0 (Z.min (len - w) (UNIX_BUF_SIZE - zlen q)) in
  ∃ u', send_loop n u buf w len = Ok (u', w + k) ∧ same_socket u u' ∧ holds u' (q ++ take (Z.to_nat k) (drop (Z.to_nat w) buf)).
Proof.
  revert u w q. induction n as [|n IH]; intros u w q Hu Hw Hlen Hn k; [lia|]. cbn [send_loop].
  pose proof (ro_count _ _ _ _ _ _ Hu) as Hc. pose proof (ro_fits _ _ _ _ _ _ Hu) as Hf.
  destruct (Z.ltb_spec w len) as [H1|H1]; [destruct (Z.ltb_spec (rcount u) UNIX_BUF_SIZE) as [H2|H2]|]; cbn [andb].
  - destruct (ring_push _ _ _ _ _ _ (at_ buf w) Hu) as [E Hr]; [lia|]. rewrite aget_ok, bind_Ok by lia. rewrite E, bind_Ok.
    set (u1 := set_ring _ _ _ _ u).
    destruct (IH u1 (w + 1) (q ++ [at_ buf w])) as (u' & E' & Hs & Hh); [done|lia|done|rewrite length_app; cbn [length]; lia|].
    exists u'. split; [|split].
    + rewrite E'. do 2 f_equal. unfold k. rewrite length_app. cbn [length]. lia.
    + unfold same_socket in *. rewrite Hs. unfold u1. destruct u; reflexivity.
    + replace (Z.to_nat k) with (Datatypes.S (Z.to_nat (k - 1))) by lia. rewrite (drop_S _ (at_ buf w)).
      2: { unfold at_. apply list_lookup_lookup_total_lt. lia. }
      cbn [take]. rewrite cons_middle, app_assoc. replace (Datatypes.S (Z.to_nat w)) with (Z.to_nat (w + 1)) by lia.
      replace (k - 1) with (Z.max 0 (Z.min (len - (w + 1)) (UNIX_BUF_SIZE - zlen (q ++ [at_ buf w])))) by (rewrite length_app; cbn [length]; lia).
      done.
  - exists u. replace k with 0 by lia. rewrite Z.add_0_r, app_nil_r. split; [done|]. split; [by destruct u|done].
  - exists u. replace k with 0 by lia. rewrite Z.add_0_r, app_nil_r. split; [done|]. split; [by destruct u|done].
Qed.

Lemma recv_loop_spec n u got len q :
  holds u q → (length q < n)%nat →
  let k := Z.max 0 (Z.min (len - zlen got) (zlen q)) in
  ∃ u', recv_loop n u got len = Ok (u', reverse (take (Z.to_nat k) q) ++ got) ∧ same_socket u u' ∧ holds u' (drop (Z.to_nat k) q).
Proof.
  revert u got q. induction n as [|n IH]; intros u got q Hu Hn k; [lia|]. cbn [recv_loop].
  pose proof (ro_count _ _ _ _ _ _ Hu) as Hc.
  destruct (Z.ltb_spec (zlen got) len) as [H1|H1]; [destruct (Z.ltb_spec 0 (rcount u)) as [H2|H2]|]; cbn [andb].
  - destruct q as [|x q]; [cbn in Hc; lia|]. destruct (ring_pop _ _ _ _ _ _ _ Hu) as [E Hr]. rewrite E, bind_Ok.
    set (u1 := set_ring _ _ _ _ u). destruct (IH u1 (x :: got) q) as (u' & E' & Hs & Hh); [done|cbn in Hn; lia|].
    exists u'. rewrite E'. split; [|split].
    + replace (Z.to_nat k) with (Datatypes.S (Z.to_nat (Z.max 0 (Z.min (len - zlen (x :: got)) (zlen q))))) by (unfold k; cbn [length]; lia).
      cbn [take]. rewrite reverse_cons, <- app_assoc. done.
    + unfold same_socket in *. rewrite Hs. unfold u1. destruct u; reflexivity.
    + replace (Z.to_nat k) with (Datatypes.S (Z.to_nat (Z.max 0 (Z.min (len - zlen (x :: got)) (zlen q))))) by (unfold k; cbn [length]; lia). done.
  - assert (q = []) as -> by (destruct q; [done|cbn in Hc; lia]). exists u. replace k with 0 by (unfold k; cbn; lia). split; [done|]. split; [by destruct u|done].
  - exists u. replace k with 0 by lia. split; [done|]. split; [by destruct u|done].
Qed.

(** ** The invariant *)

Definition valid (x : ust) (p : Z) : Prop := is_Some (socks x !! p).

Record sock_ok (x : ust) (u : unix_socket) : Prop := mkSockOk {
  so_ring : ∃ q, holds u q;
  so_queue : ∃ l, waits u l ∧ Forall (valid x) l;
  so_peer : peer u = 0 ∨ valid x (peer u);
  so_backlog : 0 ≤ s_backlog u ≤ 128;
  so_state : 0 ≤ s_state u ≤ 3 }.

(** The pointers of sockets lead to sockets; those of files and vnodes may
    lead to anything. *)
Definition store_ok (x : ust) : Prop := ∀ p u, socks x !! p = Some u → p ≠ 0 ∧ sock_ok x u.

Definition put (x : ust) (p : Z) (u : unix_socket) : ust := mkUst (<[p := u]> (socks x)) (file_private x) (vnode_private x) (woken x).

Lemma valid_put x p u q : valid x q ∨ q = p → valid (put x p u) q.
Proof. intros H. unfold valid, put. cbn. apply lookup_insert_is_Some. destruct (decide (p = q)); [by left|right]. naive_solver. Qed.

Lemma sock_ok_mono x x' u : (∀ p, valid x p → valid x' p) → sock_ok x u → sock_ok x' u.
Proof.
  intros Hv [H1 (l & H2 & H3) H4 H5 H6]. split; try done; [|naive_solver].
  exists l. split; [done|]. by eapply Forall_impl.
Qed.

(** A socket changed or added. *)
Lemma put_ok x p u : store_ok x → p ≠ 0 → sock_ok (put x p u) u → store_ok (put x p u).
Proof.
  intros H1 Hp Hu. assert (∀ q, valid x q → valid (put x p u) q) as Hv by (intros; apply valid_put; by left).
  intros q v Hqv. cbn in Hqv. apply lookup_insert_Some in Hqv as [(<- & <-)|(_ & Hq)]; [done|].
  destruct (H1 q v Hq) as [Hq0 Hs]. split; [done|]. by eapply sock_ok_mono.
Qed.

Section calls.
Context `{!FileOps ust}.
Implicit Types (s : st).

Definition unix_ok s : Prop := fd_ok s ∧ store_ok (store s).

Lemma sock_at_spec s p u (Q : unix_socket → st → Prop) : socks (store s) !! p = Some u → Q u s → swp (sock_at p) s Q.
Proof. unfold sock_at, swp. by intros ->. Qed.

Lemma fd_ok_store s x : fd_ok s → fd_ok (set_store x s).
Proof. intros H. by apply (inv_same _ _ s). Qed.

(** A change of a socket that keeps its links. *)
Lemma update_ok s p u u' :
  unix_ok s → socks (store s) !! p = Some u → sock_ok (put (store s) p u') u' → unix_ok (set_store (put (store s) p u') s).
Proof.
  intros [Hf Hs] Hp Hu. split; [by apply fd_ok_store|]. apply put_ok; [done| |done]. by apply (Hs p u).
Qed.

Lemma at_sock s p : store_ok (store s) → valid (store s) p → ∃ u, socks (store s) !! p = Some u ∧ p ≠ 0 ∧ sock_ok (store s) u.
Proof. intros Hs [u Hu]. exists u. split; [done|]. by apply Hs. Qed.

(** The open file of a descriptor and what its private pointer is, if that is
    not null. *)
Definition private_fd s (me : nat) (fd : Z) : option (Z * Z) :=
  match tables s !! me with
  | Some (Some t) =>
      let f := at_ (fds t) fd in
      let p := pointer (file_private (store s)) f in
      if (fd <? 0) || (max_fds t <=? fd) || (f =? 0) || (p =? 0) then None else Some (f, p)
  | _ => None
  end.

(** A descriptor leads to an open file and its private pointer, or is refused. *)
Lemma socket_fd_spec s me fd :
  fd_ok s → ∃ e, socket_fd me fd s = Ok (match private_fd s me fd with Some fp => inr fp | None => inl e end, s) ∧
    ∀ f p, private_fd s me fd = Some (f, p) → p ≠ 0 ∧ is_Some (files s !! f) ∧ is_Some (tables s !! me ≫= id).
Proof.
  intros Hf. enough (swp (socket_fd me fd) s (λ r s', s' = s ∧
    match r with
    | inl _ => private_fd s me fd = None
    | inr (f, p) => private_fd s me fd = Some (f, p) ∧ p ≠ 0 ∧ is_Some (files s !! f) ∧ is_Some (tables s !! me ≫= id)
    end)) as Hw.
  { apply swp_elim in Hw as ([e|[f p]] & s' & E & -> & Hr); [exists e|exists 0]; rewrite E.
    - by rewrite Hr.
    - destruct Hr as (-> & Hr). split; [done|]. by intros ?? [= <- <-]. }
  unfold socket_fd, private_fd. apply swp_bind. unfold table_of, swp at 1. destruct (tables s !! me) as [[t|]|] eqn:Et; [|by apply swp_ret..].
  destruct (inv_table _ _ _ Hf _ _ Et) as (Hm & Hl & _). rewrite Hm. apply swp_if; intros Hb; rewrite Hb; [by apply swp_ret|].
  apply orb_false_iff in Hb as [Hb1 Hb2]. apply swp_bind, slot_spec; [lia|].
  apply swp_if; intros Hz; rewrite Hz; [by apply swp_ret|]. apply swp_bind. unfold private_of, swp at 1.
  apply swp_if; intros Hp; rewrite Hp; [by apply swp_ret|]. apply swp_ret. split; [done|]. split; [done|]. split; [lia|].
  split; [|by eexists]. apply (slot_file s me t); [done|done|lia|lia].
Qed.

Definition nb_flag (x : file_descriptor) : bool := negb (Z.land (flags x) O_NONBLOCK =? 0).

Lemma nonblocking_at s f x (Q : bool → st → Prop) : files s !! f = Some x → Q (nb_flag x) s → swp (nonblocking f) s Q.
Proof. intros Hx HQ. unfold nonblocking. apply swp_bind. eapply file_at_spec; [done|]. by apply swp_ret. Qed.

Lemma nonblocking_spec s f (Q : bool → st → Prop) : is_Some (files s !! f) → (∀ b, Q b s) → swp (nonblocking f) s Q.
Proof. intros [x Hx] HQ. by eapply nonblocking_at. Qed.

(** ** A new open file *)

Definition socket_file (fl : Z) : file_descriptor := mkFile 1 None 0 0 fl 0 None 0.

(** A file nobody refers to, put into a free slot. *)
Lemma fd_ok_new s s' me t t' i f fl :
  fd_ok s → tables s !! me = Some (Some t) → 0 ≤ i < 64 → at_ (fds t) i = 0 → f ≠ 0 → files s !! f = None →
  tables s' = <[me := Some t']> (tables s) → files s' = <[f := socket_file fl]> (files s) → vnodes s' = vnodes s →
  max_fds t' = 64 → fds t' = <[Z.to_nat i := f]> (fds t) → zlen (fd_flags t') = 64 → fd_ok s'.
Proof.
  intros [Ht Hsz Hfile Hcnt Hvn] Hme Hi Hz Hf Hfresh Et Ef Ev Hm' Hfds Hfl.
  destruct (Ht _ _ Hme) as (_ & Hl & _). assert (fds t !! Z.to_nat i = Some 0) as Hlk.
  { rewrite <- Hz. unfold at_. apply list_lookup_lookup_total_lt. lia. }
  assert (∀ q, q ≠ 0 → refs (tables s') q = ((if decide (f = q) then 1 else 0) + refs (tables s) q)%nat) as Hrefs.
  { intros q Hq. rewrite Et. pose proof (refs_insert q (tables s) me _ (Some t') Hme) as Hr. cbn [entries] in Hr. rewrite Hfds in Hr.
    pose proof (occ_insert q _ _ _ f Hlk) as Ho. rewrite (decide_False (P := 0 = q)) in Ho by done. lia. }
  assert (refs (tables s) f = 0%nat) as Hf0.
  { destruct (decide (refs (tables s) f = 0%nat)) as [|Hn]; [done|]. destruct (Hfile f Hf) as [x Hx]; [rewrite occ_nil; lia|]. by rewrite Hfresh in Hx. }
  split.
  - rewrite Et. eapply tables_insert; [exact Ht|done|]. rewrite Hfds, length_insert. done.
  - rewrite Et, length_insert. done.
  - intros p Hp Hpos. rewrite Ef. apply lookup_insert_is_Some. destruct (decide (f = p)); [by left|right; split; [done|]].
    apply Hfile; [done|]. rewrite Hrefs, decide_False in Hpos by done. done.
  - intros p g Hg. rewrite Ef in Hg. apply lookup_insert_Some in Hg as [(<- & <-)|(Hne & Hg)].
    + split; [done|]. rewrite Hrefs, decide_True, Hf0 by done. done.
    + destruct (Hcnt p g Hg) as (Hp & Hc & Hpos). split; [done|]. rewrite Hrefs, decide_False by done. done.
  - intros p g Hg. rewrite Ef in Hg. rewrite Ev. apply lookup_insert_Some in Hg as [(<- & <-)|(_ & Hg)]; [by left|by apply (Hvn p)].
Qed.

(** What a new socket descriptor [r] leaves. *)
Record installed s s' (me : nat) (t : fdtable) (r f p fl : Z) : Prop := mkInstalled {
  in_range : 0 ≤ r < 64;
  in_free : at_ (fds t) r = 0;
  in_lowest : ∀ j, 0 ≤ j < r → at_ (fds t) j ≠ 0;
  in_ok : fd_ok s';
  in_tables : ∃ t', tables s' = <[me := Some t']> (tables s) ∧ max_fds t' = 64 ∧ fds t' = <[Z.to_nat r := f]> (fds t);
  in_files : files s' = <[f := socket_file fl]> (files s);
  in_vnodes : vnodes s' = vnodes s;
  in_store : store s' = mkUst (socks (store s)) (<[f := p]> (file_private (store s))) (vnode_private (store s)) (woken (store s)) }.

Lemma install_socket_spec s me t f p fl clo :
  fd_ok s → tables s !! me = Some (Some t) → f ≠ 0 → files s !! f = None →
  swp (install_socket me f p fl clo) s (λ r s',
    (r = - EMFILE ∧ s' = s ∧ ∀ j, 0 ≤ j < 64 → at_ (fds t) j ≠ 0) ∨ installed s s' me t r f p fl).
Proof.
  intros Hok Hme Hf Hfresh. destruct (inv_table _ _ _ Hok _ _ Hme) as (Hm & Hl & Hfl). unfold install_socket.
  apply swp_bind. eapply table_of_spec; [done|]. apply swp_bind. rewrite Hm.
  eapply swp_mono; [apply first_free_spec; lia|]. intros [fd|] s1 (-> & Hk); [|apply swp_ret; left; split_and!; try done; intros; apply Hk; lia].
  destruct Hk as (Hfd & Hz & Hlow). cbn in Hfd. assert (me < length (tables s))%nat as Hlen by by eapply lookup_lt_Some.
  apply swp_bind. unfold upd_table, swp at 1. rewrite Hme.
  set (t1 := if next_fd t <=? fd then set_next_fd (u32 (fd + 1)) t else t).
  assert (max_fds t1 = 64 ∧ fds t1 = fds t ∧ fd_flags t1 = fd_flags t) as (Hm1 & Hd1 & Hg1) by (unfold t1; by destruct (_ <=? _)).
  apply swp_bind. unfold alloc_fd, swp at 1. apply swp_bind. unfold upd_file, swp at 1. cbn [files set_files set_tables].
  rewrite lookup_insert_eq, insert_insert_eq. cbn [set_flags count ops dentry pos vnode_ptr write_buffer write_buffer_size].
  set (s1 := set_files _ _).
  assert (tables s1 = <[me := Some t1]> (tables s)) as Ht1 by done.
  apply swp_bind. eapply (swp_mono _ _ (λ _ s', ∃ t2, tables s' = <[me := Some t2]> (tables s) ∧ max_fds t2 = 64 ∧ fds t2 = fds t ∧ zlen (fd_flags t2) = 64 ∧
    files s' = files s1 ∧ vnodes s' = vnodes s ∧ store s' = store s)).
  { destruct clo as [c|]; [|apply swp_ret; exists t1; by rewrite Hg1]. unfold set_slot_flags, swp. rewrite Ht1, list_lookup_insert_eq by done.
    rewrite aset_ok by (rewrite Hg1; lia). eexists. split; [cbn; by rewrite list_insert_insert_eq|]. cbn. by rewrite length_insert, Hg1. }
  intros [] s2 (t2 & Ht2 & Hm2 & Hd2 & Hg2 & Hf2 & Hv2 & Hs2).
  apply swp_bind. unfold set_slot, swp at 1. rewrite Ht2, list_lookup_insert_eq by done. rewrite Hd2, aset_ok by lia.
  apply swp_bind. unfold set_private, upd_store, swp at 1. apply swp_bind. unfold emit, swp at 1. apply swp_ret. right.
  set (t3 := set_fds _ t2). assert (fds t3 = <[Z.to_nat fd := f]> (fds t)) as Hd3 by done.
  split; try done; cbn; try lia.
  - eapply (fd_ok_new s _ me t t3 fd f fl); try done; cbn; try lia. by rewrite list_insert_insert_eq.
  - exists t3. by rewrite list_insert_insert_eq.
  - by rewrite Hs2.
Qed.
End calls.

Lemma swp_keep {S A B} (m : SM S A) (g : A → B) s (I : S → Prop) : swp m s (λ _, I) → swp (r ← m; mret (g r)) s (λ _, I).
Proof. intros H. apply swp_bind. eapply swp_mono; [exact H|]. intros a s' Hi. by apply swp_ret. Qed.

Section typed.
Context `{!FileOps ust}.
Implicit Types (s : st).
Variable namei : list Z → option Z.

(** ** Every call keeps the invariant *)

Lemma keep_ok s p u u' :
  unix_ok s → socks (store s) !! p = Some u → (sock_ok (store s) u → sock_ok (store s) u') → unix_ok (set_store (put (store s) p u') s).
Proof.
  intros H Hp Hu. apply (update_ok s p u); [done|done|]. eapply sock_ok_mono; [|apply Hu, (proj2 H p u Hp)].
  intros q Hq. apply valid_put. by left.
Qed.

Lemma wake_ok s t : unix_ok s → unix_ok (set_store (mkUst (socks (store s)) (file_private (store s)) (vnode_private (store s)) (woken (store s) ++ [t])) s).
Proof.
  intros [Hf H1]. split; [by apply fd_ok_store|]. intros p u Hp. destruct (H1 p u Hp) as [? Hs].
  split; [done|]. by eapply sock_ok_mono; [|exact Hs].
Qed.

(** A thread woken if there is one. *)
Lemma wake_when_spec s b t (Q : () → st → Prop) : unix_ok s → (∀ s', unix_ok s' → Q () s') → swp (sm_when b (wake t)) s Q.
Proof. intros H HQ. apply swp_when; intros _; [|by apply HQ]. unfold wake, upd_store, swp. by apply HQ, wake_ok. Qed.

Lemma state_ok x u y : 0 ≤ y ≤ 3 → sock_ok x u → sock_ok x (set_state y u).
Proof. intros Hy []. by split. Qed.

Lemma ring_ok x u u' : same_socket u u' → (∃ q, holds u' q) → sock_ok x u → sock_ok x u'.
Proof. intros Hs Hh [H1 H2 H3 H4 H5]. split; [done|..]; by rewrite Hs. Qed.

Lemma create_socket_ok s family type protocol p :
  unix_ok s → p ≠ 0 → swp (create_socket family type protocol p) s (λ b s', unix_ok s' ∧ tables s' = tables s ∧ files s' = files s ∧
    (b = true → valid (store s') p)).
Proof.
  intros [Hf Hs] Hp. unfold create_socket. apply swp_if; intros _; [|by apply swp_ret]. apply swp_bind.
  unfold put_sock, upd_store, swp at 1. apply swp_ret. fold (put (store s) p (new_socket family type protocol)).
  split; [split; [by apply fd_ok_store|apply put_ok; [done|done|]]|].
  - split; [| |by left|done|done].
    + exists []. by apply ring_empty.
    + exists []. split; [by apply ring_empty|constructor].
  - split; [done|]. split; [done|]. intros _. apply valid_put. by right.
Qed.

(** A new descriptor for a valid socket. *)
Lemma installed_ok s s' me t r f p fl : store_ok (store s) → installed s s' me t r f p fl → unix_ok s'.
Proof.
  intros H1 [_ _ _ Hf _ _ _ Es]. split; [done|]. rewrite Es.
  intros q u Hq. destruct (H1 q u Hq) as [? Hs]. split; [done|]. by eapply sock_ok_mono; [|exact Hs].
Qed.

Lemma install_socket_ok s me f p fl clo :
  unix_ok s → is_Some (tables s !! me ≫= id) → f ≠ 0 → files s !! f = None →
  swp (install_socket me f p fl clo) s (λ r s', unix_ok s' ∧ socks (store s') = socks (store s)).
Proof.
  intros [Hf Hs] Ht Hf0 Hfresh. destruct Ht as [t Ht]. destruct (tables s !! me) as [[t'|]|] eqn:E; [|done..]. injection Ht as ->.
  eapply swp_mono; [by apply (install_socket_spec s me t)|]. intros r s' [(_ & -> & _)|Hi]; [done|].
  split; [by eapply installed_ok|]. by rewrite (in_store _ _ _ _ _ _ _ _ Hi).
Qed.

Lemma syscall_socket_ok s me domain type protocol p f :
  unix_ok s → p ≠ 0 → f ≠ 0 → files s !! f = None → swp (syscall_socket me domain type protocol p f) s (λ _ s', unix_ok s').
Proof.
  intros H Hp Hf Hfresh. unfold syscall_socket. apply swp_bind. eapply swp_mono; [by apply create_socket_ok|].
  intros b s1 (H1 & Et & Ef & Hv). apply swp_if; intros Hb; [by apply swp_ret|]. destruct b; [|done].
  apply swp_bind. unfold table_of, swp at 1. destruct (tables s1 !! me) as [[t|]|] eqn:E; [|by apply swp_ret..].
  eapply swp_mono; [apply install_socket_ok; [done|by rewrite E|done|by rewrite Ef]|]. naive_solver.
Qed.

(** ** Pointers that lead to no socket *)

(** [p] is followed as the address of a socket and is none. *)
Definition stray s (p : Z) : bool := negb (p =? 0) && bool_decide (socks (store s) !! p = None).

(** The private pointer of a descriptor is that of something else, a pipe say. *)
Definition stray_fd s (me : nat) (fd : Z) : bool :=
  match private_fd s me fd with Some (_, p) => stray s p | None => false end.

(** A descriptor of a local socket. *)
Definition unix_fd s (me : nat) (fd : Z) : bool :=
  match private_fd s me fd with
  | Some (_, p) => match socks (store s) !! p with Some u => s_family u =? AF_UNIX | None => false end
  | None => false
  end.

(** The start of every call on a descriptor: the socket is there, or the
    access to it is wild. *)
Lemma call_start {A} s me fd (k : Z + Z * Z → SM st A) (Q : A → st → Prop) :
  unix_ok s → stray_fd s me fd = false →
  (∀ e, unix_fd s me fd = false → swp (k (inl e)) s Q) →
  (∀ f p u, private_fd s me fd = Some (f, p) → is_Some (files s !! f) → is_Some (tables s !! me ≫= id) → p ≠ 0 → valid (store s) p →
    socks (store s) !! p = Some u → sock_ok (store s) u → unix_fd s me fd = (s_family u =? AF_UNIX) → swp (k (inr (f, p))) s Q) →
  swp (r ← socket_fd me fd; k r) s Q.
Proof.
  intros [Hf Hs] Hst HQ1 HQ2. destruct (socket_fd_spec s me fd Hf) as (e & E & Hp). apply swp_bind. eapply swp_intro; [exact E|].
  unfold stray_fd, stray, unix_fd in *. destruct (private_fd s me fd) as [[f p]|] eqn:Ep; [|by apply HQ1].
  destruct (Hp f p eq_refl) as (Hp0 & Hfile & Ht). rewrite (proj2 (Z.eqb_neq _ _) Hp0) in Hst. simpl in Hst. apply bool_decide_eq_false in Hst.
  destruct (socks (store s) !! p) as [u|] eqn:Eu; [|done]. eapply HQ2; try done; [by eexists|by apply (Hs p)].
Qed.

Lemma call_stray {A} s me fd (k1 : Z → SM st A) (k2 : Z → Z → unix_socket → SM st A) :
  unix_ok s → stray_fd s me fd = true →
  (r ← socket_fd me fd; match r with inl e => k1 e | inr (f, p) => u ← sock_at p; k2 f p u end) s = Fault.
Proof.
  intros [Hf _] Hst. destruct (socket_fd_spec s me fd Hf) as (e & E & _). unfold mbind, SM_bind. rewrite E.
  unfold stray_fd, stray in Hst. destruct (private_fd s me fd) as [[f p]|]; [|done].
  apply andb_prop in Hst as (_ & Hst%bool_decide_eq_true). unfold sock_at. by rewrite Hst.
Qed.

Lemma call_at {A} s me fd f p u (k : Z + Z * Z → SM st A) :
  fd_ok s → private_fd s me fd = Some (f, p) → socks (store s) !! p = Some u →
  (r ← socket_fd me fd; k r) s = k (inr (f, p)) s.
Proof. intros Hf Hp Hu. destruct (socket_fd_spec s me fd Hf) as (e & E & _). unfold mbind, SM_bind. by rewrite E, Hp. Qed.

(** The path does not lead to a vnode. *)
Definition lost_path (pth : list Z) : bool := match namei pth with Some v => v =? 0 | None => true end.

Definition names_ok s : Prop := ∀ pth v, namei pth = Some v → v ≠ 0 → is_Some (vnodes s !! v).

Lemma syscall_bind_ok s me fd pth len :
  unix_ok s → names_ok s → stray_fd s me fd = false → unix_fd s me fd && lost_path pth = false →
  swp (syscall_bind namei me fd (Some pth) len) s (λ _ s', unix_ok s').
Proof.
  intros H Hn Hst Hlost. unfold syscall_bind. apply swp_if; intros _; [by apply swp_ret|].
  apply call_start; [done|done|intros; by apply swp_ret|]. intros f p u _ _ _ Hp0 Hp Hu Hok Hfam.
  apply swp_bind. eapply sock_at_spec; [done|]. apply swp_if; intros Ef; [|by apply swp_ret]. rewrite Hfam, Ef in Hlost. unfold lost_path in Hlost.
  destruct (namei pth) as [v|] eqn:Ev; [|done]. simpl in Hlost. rewrite Hlost. apply Z.eqb_neq in Hlost. destruct (Hn pth v Ev Hlost) as [x Hx].
  apply swp_bind. eapply vnode_at_spec; [done|]. destruct (v_fs_instance x); [by apply swp_ret|].
  apply swp_bind. unfold set_vnode_private, upd_store, swp at 1. set (s1 := set_store _ s).
  assert (unix_ok s1) as H1.
  { destruct H as [Hf A]. split; [by apply fd_ok_store|].
    intros q w Hq. destruct (A q w Hq) as [? Hs]. split; [done|]. by eapply sock_ok_mono; [|exact Hs]. }
  apply swp_bind. unfold upd_sock. apply swp_bind. eapply (sock_at_spec s1); [done|]. unfold put_sock, upd_store, swp at 1.
  apply swp_ret. apply (keep_ok s1 p u); [done|done|]. apply state_ok. unfold SOCK_STATE_BOUND. lia.
Qed.

Lemma syscall_bind_lost s me fd pth len :
  unix_ok s → len ≠ 0 → unix_fd s me fd = true → lost_path pth = true → syscall_bind namei me fd (Some pth) len s = Fault.
Proof.
  intros H Hlen Hu Hlost. unfold syscall_bind. rewrite (proj2 (Z.eqb_neq _ _) Hlen). unfold unix_fd in Hu.
  destruct (private_fd s me fd) as [[f p]|] eqn:Ep; [|done]. destruct (socks (store s) !! p) as [u|] eqn:Eu; [|done].
  rewrite (call_at s me fd f p u _ (proj1 H) Ep Eu). unfold mbind, SM_bind, sock_at. rewrite Eu, Hu.
  unfold lost_path in Hlost. destruct (namei pth) as [v|]; [by rewrite Hlost|done].
Qed.

(** Changing the socket at [p] in a way that keeps it well formed. *)
Lemma upd_sock_ok s p u g (Q : () → st → Prop) :
  unix_ok s → socks (store s) !! p = Some u → (sock_ok (store s) u → sock_ok (store s) (g u)) →
  (unix_ok (set_store (put (store s) p (g u)) s) → Q () (set_store (put (store s) p (g u)) s)) → swp (upd_sock p g) s Q.
Proof.
  intros H Hu Hg HQ. unfold upd_sock. apply swp_bind. eapply sock_at_spec; [done|]. unfold put_sock, upd_store, swp. by apply HQ, (keep_ok s p u).
Qed.

Lemma syscall_listen_ok s me fd backlog :
  unix_ok s → stray_fd s me fd = false → swp (syscall_listen me fd backlog) s (λ _ s', unix_ok s').
Proof.
  intros H Hst. unfold syscall_listen. apply swp_if; intros _; [by apply swp_ret|].
  apply call_start; [done|done|intros; by apply swp_ret|]. intros f p u _ _ _ Hp0 Hp Hu Hok _.
  apply swp_bind. eapply sock_at_spec; [done|]. do 2 (apply swp_if; intros _; [by apply swp_ret|]).
  apply swp_bind. eapply upd_sock_ok; [done|done|apply state_ok; unfold SOCK_STATE_LISTENING; lia|]. intros H1.
  apply swp_bind. eapply upd_sock_ok; [done|cbn; apply lookup_insert_eq| |intros H2; by apply swp_ret].
  intros [A B C D E]. split; try done. cbn. unfold SOMAXCONN. repeat case_match; lia.
Qed.

Lemma put_sock_spec s p u (Q : () → st → Prop) : Q () (set_store (put (store s) p u) s) → swp (put_sock p u) s Q.
Proof. done. Qed.

(** A connection added to the ring of a socket with room. *)
Lemma queue_push u l q :
  waits u l → zlen l < 128 →
  aset (s_pending u) (pending_tail u) q = Ok (<[Z.to_nat (pending_tail u) := q]> (s_pending u)) ∧
  waits (set_pending (<[Z.to_nat (pending_tail u) := q]> (s_pending u)) (pending_head u) ((pending_tail u + 1) mod UNIX_BACKLOG_MAX) (pending_count u + 1) u) (l ++ [q]).
Proof. intros Hw Hl. by apply ring_push. Qed.

Lemma server_side_ok x client p : sock_ok x client → valid x p → sock_ok x (server_side_of client p).
Proof.
  intros [_ _ _ Hb Hs] Hp. split; [| |by right|done|done].
  - exists []. by apply ring_empty.
  - exists []. split; [by apply ring_empty|constructor].
Qed.

(** The name of something other than a socket, a file say. *)
Definition stray_path s (pth : list Z) : bool :=
  match namei pth with Some v => negb (v =? 0) && stray s (pointer (vnode_private (store s)) v) | None => false end.

Lemma syscall_connect_ok s me fd pth len q :
  unix_ok s → stray_fd s me fd = false → unix_fd s me fd && stray_path s pth = false → (q ≠ 0 → socks (store s) !! q = None) →
  swp (syscall_connect namei me fd (Some pth) len q) s (λ _ s', unix_ok s').
Proof.
  intros H Hst Hsp Hq. unfold syscall_connect. apply swp_if; intros _; [by apply swp_ret|].
  apply call_start; [done|done|intros; by apply swp_ret|]. intros f p u _ _ _ Hp0 Hp Hu Hok Hfam.
  apply swp_bind. eapply sock_at_spec; [done|]. apply swp_if; intros Ef; [by apply swp_ret|]. apply negb_false_iff in Ef.
  rewrite Hfam, Ef in Hsp. simpl in Hsp. unfold stray_path in Hsp.
  destruct (namei pth) as [v|]; [|by apply swp_ret]. apply swp_if; intros Hv; [by apply swp_ret|].
  apply swp_bind. unfold vnode_private_of, swp at 1. apply swp_if; intros Hz; [by apply swp_ret|].
  set (srv := pointer (vnode_private (store s)) v) in *. unfold stray in Hsp. rewrite Hv, Hz in Hsp. simpl in Hsp.
  apply bool_decide_eq_false in Hsp. apply Z.eqb_neq in Hz.
  destruct (at_sock s srv (proj2 H)) as (us & Hus & _ & Hsok); [unfold valid; by destruct (socks (store s) !! srv); [eexists|]|].
  apply swp_bind. eapply sock_at_spec; [done|]. apply swp_if; intros _; [by apply swp_ret|].
  apply swp_if; intros Hroom; [by apply swp_ret|]. apply swp_if; intros Hq0; [by apply swp_ret|]. apply Z.eqb_neq in Hq0. specialize (Hq Hq0).
  apply swp_bind, put_sock_spec. set (s1 := set_store _ s).
  assert (unix_ok s1) as H1.
  { split; [by apply fd_ok_store, H|]. apply put_ok; [by apply H|done|]. eapply sock_ok_mono; [|by apply server_side_ok].
    intros x Hx. apply valid_put. by left. }
  assert (socks (store s1) !! p = Some u) as Hu1 by (cbn; rewrite lookup_insert_ne; [done|intros ->; by rewrite Hq in Hu]).
  apply swp_bind. eapply upd_sock_ok; [done|done| |].
  { intros [A B C D E]. split; try done. right. apply valid_put. by right. }
  set (s2 := set_store _ s1). intros H2.
  assert (∃ us', socks (store s2) !! srv = Some us' ∧ s_backlog us' = s_backlog us ∧ pending_count us' = pending_count us) as (us' & Hus' & Eb & Ec).
  { cbn. destruct (decide (p = srv)) as [->|Hne].
    - rewrite lookup_insert_eq. rewrite Hus in Hu. injection Hu as <-. by eexists.
    - rewrite lookup_insert_ne by done. rewrite lookup_insert_ne; [by eexists|intros ->; by rewrite Hq in Hus]. }
  apply swp_bind. eapply sock_at_spec; [done|]. destruct (proj2 H2 srv us' Hus') as [Hsrv Hsok'].
  pose proof Hsok' as [A (l & Hw & Hl) C D E].
  destruct (queue_push us' l q Hw) as [Eset Hpush].
  { pose proof (ro_count _ _ _ _ _ _ Hw). destruct Hsok as [_ _ _ Hb _]. apply Z.leb_gt in Hroom. lia. }
  apply swp_bind. eapply swp_lift; [exact Eset|]. apply swp_bind, put_sock_spec. set (s3 := set_store _ s2).
  assert (unix_ok s3) as H6.
  { apply (update_ok s2 srv us'); [done|done|]. eapply sock_ok_mono; [intros x Hx; apply valid_put; by left|].
    split; try done. eexists. split; [exact Hpush|]. apply Forall_app_2; [done|]. constructor; [|constructor].
    apply valid_put. left. apply valid_put. by right. }
  apply swp_bind, wake_when_spec; [done|]. intros s4 H4. by apply swp_ret.
Qed.

Lemma syscall_connect_stray s me fd pth len q :
  unix_ok s → len ≠ 0 → unix_fd s me fd = true → stray_path s pth = true → syscall_connect namei me fd (Some pth) len q s = Fault.
Proof.
  intros H Hlen Hu Hst. unfold syscall_connect. rewrite (proj2 (Z.eqb_neq _ _) Hlen). unfold unix_fd in Hu.
  destruct (private_fd s me fd) as [[f p]|] eqn:Ep; [|done]. destruct (socks (store s) !! p) as [u|] eqn:Eu; [|done].
  rewrite (call_at s me fd f p u _ (proj1 H) Ep Eu). unfold mbind, SM_bind, sock_at. rewrite Eu, Hu. simpl.
  unfold stray_path, stray in Hst. destruct (namei pth) as [v|]; [|done]. unfold vnode_private_of.
  apply andb_prop in Hst as (Hv%negb_true_iff & Hst). apply andb_prop in Hst as (Hz%negb_true_iff & Hst%bool_decide_eq_true).
  rewrite Hv, Hz. by rewrite Hst.
Qed.

Lemma queue_pop u l x :
  waits u (x :: l) → aget (s_pending u) (pending_head u) = Ok x ∧
  waits (set_pending (s_pending u) ((pending_head u + 1) mod UNIX_BACKLOG_MAX) (pending_tail u) (pending_count u - 1) u) l.
Proof. intros Hw. by apply ring_pop. Qed.

(** A connection taken out of the ring leaves the invariant. *)
Lemma pop_ok s srv us x l :
  unix_ok s → socks (store s) !! srv = Some us → waits us (x :: l) → Forall (valid (store s)) (x :: l) →
  unix_ok (set_store (put (store s) srv (set_pending (s_pending us) ((pending_head us + 1) mod UNIX_BACKLOG_MAX) (pending_tail us) (pending_count us - 1) us)) s).
Proof.
  intros H Hus Hw Hl. destruct (queue_pop us l x Hw) as [_ Hpop]. apply (keep_ok s srv us); [done|done|].
  intros [A B C D E]. split; try done. exists l. split; [done|]. by apply Forall_cons in Hl as [_ Hl].
Qed.

Lemma accept_round_ok s me nb srv f thr :
  unix_ok s → valid (store s) srv → is_Some (tables s !! me ≫= id) → f ≠ 0 → files s !! f = None →
  swp (accept_round me nb srv f thr) s (λ _ s', unix_ok s').
Proof.
  intros H Hv Ht Hf Hfresh. destruct (at_sock s srv (proj2 H) Hv) as (us & Hus & Hsrv & Hok). unfold accept_round.
  apply swp_bind. eapply sock_at_spec; [done|]. apply swp_if; intros Hc.
  - apply swp_if; intros _; [|by apply swp_ret]. apply swp_bind, put_sock_spec, swp_ret. apply (keep_ok s srv us); [done|done|]. intros []. by split.
  - destruct (so_queue _ _ Hok) as (l & Hw & Hl). apply swp_bind. destruct l as [|x l].
    { apply Z.eqb_neq in Hc. by rewrite (ro_count _ _ _ _ _ _ Hw) in Hc. }
    unfold accept_pending. apply swp_bind. eapply sock_at_spec; [done|]. destruct (queue_pop us l x Hw) as [Eget _].
    apply swp_bind. eapply swp_lift; [exact Eget|]. apply swp_bind, put_sock_spec.
    pose proof (pop_ok s srv us x l H Hus Hw Hl) as H1. set (s1 := set_store _ s) in *.
    apply swp_bind. eapply swp_mono; [by apply install_socket_ok|].
    intros r s2 [H2 E2]. apply swp_bind. apply swp_when; intros _; [|by apply swp_ret, swp_ret].
    assert (valid (store s2) x) as [ux Hux].
    { unfold valid. rewrite E2. apply valid_put. left. by apply Forall_cons in Hl as [Hx _]. }
    eapply upd_sock_ok; [done|done|apply state_ok; unfold SOCK_STATE_CONNECTED; lia|]. intros H3. by apply swp_ret, swp_ret.
Qed.

Lemma syscall_accept_ok s me fd f thr :
  unix_ok s → stray_fd s me fd = false → f ≠ 0 → files s !! f = None → swp (syscall_accept me fd f thr) s (λ _ s', unix_ok s').
Proof.
  intros H Hst Hf Hfresh. unfold syscall_accept.
  apply call_start; [done|done|intros; by apply swp_ret|]. intros file srv us _ Hfile Ht Hsrv Hv Hus Hok _.
  apply swp_bind. eapply sock_at_spec; [done|].
  do 2 (apply swp_if; intros _; [by apply swp_ret|]).
  apply swp_bind, nonblocking_spec; [done|]. intros nb. by apply accept_round_ok.
Qed.

Lemma accept_resumed_ok s me srv f thr :
  unix_ok s → valid (store s) srv → is_Some (tables s !! me ≫= id) → f ≠ 0 → files s !! f = None →
  swp (accept_resumed me srv f thr) s (λ _ s', unix_ok s').
Proof.
  intros H Hv Ht Hf Hfresh. destruct (at_sock s srv (proj2 H) Hv) as (us & Hus & Hsrv & Hok). unfold accept_resumed.
  apply swp_bind. eapply upd_sock_ok; [done|done|intros []; by split|]. intros H1. apply accept_round_ok; try done. apply valid_put. by left.
Qed.

(** ** Data *)

Lemma rounds_enough (q : list Z) :
  zlen q ≤ UNIX_BUF_SIZE → (Z.to_nat (UNIX_BUF_SIZE - zlen q) < RING_ROUNDS)%nat ∧ (length q < RING_ROUNDS)%nat.
Proof. unfold RING_ROUNDS, UNIX_BUF_SIZE. lia. Qed.

(** Bytes put into a socket's ring, as many as fit; the receiver is woken. *)
Lemma send_now_spec s p u q buf len (Q : Z → st → Prop) :
  socks (store s) !! p = Some u → holds u q → s32 len ≤ zlen buf →
  (∀ u', same_socket u u' →
    let k := Z.max 0 (Z.min (s32 len) (UNIX_BUF_SIZE - zlen q)) in
    holds u' (q ++ take (Z.to_nat k) buf) →
    swp (sm_when (negb (blocked_recv_thread u =? 0)) (wake (blocked_recv_thread u))) (set_store (put (store s) p u') s) (λ _, Q k)) →
  swp (send_now p buf len) s Q.
Proof.
  intros Hu Hq Hlen HQ. destruct (rounds_enough q (ro_fits _ _ _ _ _ _ Hq)) as [Hr _].
  destruct (send_loop_spec RING_ROUNDS u buf 0 (s32 len) q Hq) as (u' & E & Hs & Hh); [lia|lia|done|].
  rewrite Z.sub_0_r in *. unfold send_now. apply swp_bind. eapply sock_at_spec; [done|]. apply swp_bind. eapply swp_lift; [exact E|].
  cbv beta iota. apply swp_bind, put_sock_spec. assert (blocked_recv_thread u' = blocked_recv_thread u) as -> by by rewrite Hs.
  apply swp_bind. eapply swp_mono; [by apply HQ|]. intros [] s' H. by apply swp_ret.
Qed.

(** Bytes taken out of a socket's ring, as many as are there. *)
Lemma recv_round_spec s (nb : bool) p u q thr len (Q : option (Z * list Z) → st → Prop) :
  socks (store s) !! p = Some u → holds u q →
  (q = [] → if nb then Q (Some (- EAGAIN, [])) s else Q None (set_store (put (store s) p (set_blocked_recv thr u)) s)) →
  (∀ u', q ≠ [] → same_socket u u' →
    let k := Z.to_nat (Z.max 0 (Z.min (s32 len) (zlen q))) in
    holds u' (drop k q) → Q (Some (zlen (take k q), take k q)) (set_store (put (store s) p u') s)) →
  swp (recv_round nb p thr len) s Q.
Proof.
  intros Hu Hq HQ1 HQ2. destruct (rounds_enough q (ro_fits _ _ _ _ _ _ Hq)) as [_ Hr]. unfold recv_round.
  apply swp_bind. eapply sock_at_spec; [done|]. rewrite (ro_count _ _ _ _ _ _ Hq). apply swp_if; intros Hz.
  - destruct q; [|done]. specialize (HQ1 eq_refl). destruct nb; [by apply swp_ret|]. by apply swp_bind, put_sock_spec, swp_ret.
  - destruct (recv_loop_spec RING_ROUNDS u [] (s32 len) q Hq Hr) as (u' & E & Hs & Hh). cbn [length] in *. rewrite Z.sub_0_r, app_nil_r in *.
    apply swp_bind. eapply swp_lift; [exact E|]. cbv beta iota. apply swp_bind, put_sock_spec, swp_ret.
    rewrite length_reverse, reverse_involutive. apply HQ2; try done. by intros ->.
Qed.

Lemma send_now_ok s p buf len :
  unix_ok s → valid (store s) p → s32 len ≤ zlen buf → swp (send_now p buf len) s (λ _ s', unix_ok s').
Proof.
  intros H Hv Hlen. destruct (at_sock s p (proj2 H) Hv) as (u & Hu & Hp & Hok). destruct (so_ring _ _ Hok) as [q Hq].
  eapply send_now_spec; [done|done|done|]. intros u' Hs k Hh. apply wake_when_spec; [|done].
  apply (keep_ok s p u); [done|done|]. apply ring_ok; [done|by eexists].
Qed.

Lemma recv_round_ok s nb p thr len : unix_ok s → valid (store s) p → swp (recv_round nb p thr len) s (λ _ s', unix_ok s').
Proof.
  intros H Hv. destruct (at_sock s p (proj2 H) Hv) as (u & Hu & Hp & Hok). destruct (so_ring _ _ Hok) as [q Hq].
  eapply recv_round_spec; [done|done| |].
  - intros _. destruct nb; [done|]. apply (keep_ok s p u); [done|done|]. intros []. by split.
  - intros u' _ Hs k Hh. apply (keep_ok s p u); [done|done|]. apply ring_ok; [done|by eexists].
Qed.

Lemma syscall_sendto_ok s me fd b len :
  unix_ok s → stray_fd s me fd = false → s32 len ≤ zlen b → swp (syscall_sendto me fd (Some b) len) s (λ _ s', unix_ok s').
Proof.
  intros H Hst Hb. unfold syscall_sendto. apply swp_if; intros _; [by apply swp_ret|].
  apply call_start; [done|done|intros; by apply swp_ret|]. intros f p u _ Hf _ Hp0 Hp Hu Hok _.
  apply swp_bind. eapply sock_at_spec; [done|]. apply swp_if; intros _; [by apply swp_ret|].
  assert (valid (store s) (if peer u =? 0 then p else peer u)) as Hd.
  { destruct (Z.eqb_spec (peer u) 0); [done|]. by destruct (so_peer _ _ Hok). }
  destruct (at_sock s _ (proj2 H) Hd) as (d & Hdu & _). apply swp_bind, nonblocking_spec; [done|]. intros nb.
  apply swp_bind. eapply sock_at_spec; [done|]. apply swp_if; intros _.
  - apply swp_if; intros _; by apply swp_ret.
  - apply swp_bind. eapply swp_mono; [by apply send_now_ok|]. intros w s' H'. by apply swp_ret.
Qed.

Lemma sendto_resumed_ok s p buf len :
  unix_ok s → valid (store s) p → s32 len ≤ zlen buf → swp (sendto_resumed p buf len) s (λ _ s', unix_ok s').
Proof.
  intros H Hv Hlen. destruct (at_sock s p (proj2 H) Hv) as (u & Hu & Hp & Hok). unfold sendto_resumed.
  apply swp_bind. eapply sock_at_spec; [done|]. apply swp_if; intros _; [by apply swp_ret|].
  apply swp_bind. eapply swp_mono; [by apply send_now_ok|]. intros w s' H'. by apply swp_ret.
Qed.

Lemma syscall_recvfrom_ok s me fd buf len thr :
  unix_ok s → stray_fd s me fd = false → swp (syscall_recvfrom me fd buf len thr) s (λ _ s', unix_ok s').
Proof.
  intros H Hst. unfold syscall_recvfrom. apply swp_if; intros _; [by apply swp_ret|].
  apply call_start; [done|done|intros; by apply swp_ret|]. intros f p u _ Hf _ Hp0 Hp Hu Hok _.
  apply swp_bind. eapply sock_at_spec; [done|]. apply swp_if; intros _; [by apply swp_ret|].
  apply swp_bind, nonblocking_spec; [done|]. intros nb. by apply recv_round_ok.
Qed.

Lemma recvfrom_resumed_ok s p thr len :
  unix_ok s → valid (store s) p → swp (recvfrom_resumed p thr len) s (λ _ s', unix_ok s').
Proof.
  intros H Hv. destruct (at_sock s p (proj2 H) Hv) as (u & Hu & Hp & Hok). unfold recvfrom_resumed. apply swp_bind.
  eapply upd_sock_ok; [done|done|intros []; by split|]. intros H1. apply recv_round_ok; [done|apply valid_put; by left].
Qed.

(** ** The calls *)

(** Calls with their arguments, those of the memory they are given, and those
    that go on after a switch. *)
Inductive ucall :=
  | USocket (me : nat) (domain type protocol p f : Z)
  | UBind (me : nat) (fd : Z) (path : option (list Z)) (len : Z)
  | UListen (me : nat) (fd backlog : Z)
  | UConnect (me : nat) (fd : Z) (path : option (list Z)) (len q : Z)
  | UAccept (me : nat) (fd f thr : Z)
  | UAcceptOn (me : nat) (srv f thr : Z)
  | USend (me : nat) (fd : Z) (buf : option (list Z)) (len : Z)
  | USendOn (dest : Z) (buf : list Z) (len : Z)
  | URecv (me : nat) (fd : Z) (buf : bool) (len thr : Z)
  | URecvOn (p thr len : Z).

(** The result, [None] when the thread blocks, and the bytes it received. *)
Definition do_ucall (c : ucall) : SM st (option (Z * list Z)) :=
  let code (m : SM st Z) := r ← m; mret (Some (r, [])) in
  let wait (m : SM st (option Z)) := r ← m; mret (option_map (λ x, (x, [])) r) in
  match c with
  | USocket me domain type protocol p f => code (syscall_socket me domain type protocol p f)
  | UBind me fd path len => code (syscall_bind namei me fd path len)
  | UListen me fd backlog => code (syscall_listen me fd backlog)
  | UConnect me fd path len q => code (syscall_connect namei me fd path len q)
  | UAccept me fd f thr => wait (syscall_accept me fd f thr)
  | UAcceptOn me srv f thr => wait (accept_resumed me srv f thr)
  | USend me fd buf len => wait (syscall_sendto me fd buf len)
  | USendOn dest buf len => wait (sendto_resumed dest buf len)
  | URecv me fd buf len thr => syscall_recvfrom me fd buf len thr
  | URecvOn p thr len => recvfrom_resumed p thr len
  end.

(** What a call relies on: fresh memory, a readable buffer, a thread that
    waited. *)
Definition call_ok s (c : ucall) : Prop :=
  match c with
  | USocket _ _ _ _ p f => p ≠ 0 ∧ f ≠ 0 ∧ files s !! f = None
  | UConnect _ _ _ _ q => q ≠ 0 → socks (store s) !! q = None
  | UAccept _ _ f _ => f ≠ 0 ∧ files s !! f = None
  | UAcceptOn me srv f _ => valid (store s) srv ∧ is_Some (tables s !! me ≫= id) ∧ f ≠ 0 ∧ files s !! f = None
  | USend _ _ buf len => ∀ b, buf = Some b → s32 len ≤ zlen b
  | USendOn dest buf len => valid (store s) dest ∧ s32 len ≤ zlen buf
  | URecvOn p _ _ => valid (store s) p
  | UBind _ _ _ _ | UListen _ _ _ | URecv _ _ _ _ _ => True
  end.

(** The call follows a pointer to no socket, or binds a path without a vnode. *)
Definition wild s (c : ucall) : bool :=
  match c with
  | UBind me fd (Some pth) len => negb (len =? 0) && (stray_fd s me fd || unix_fd s me fd && lost_path pth)
  | UListen me fd _ => negb (fd <? 0) && stray_fd s me fd
  | UConnect me fd (Some pth) len _ => negb (len =? 0) && (stray_fd s me fd || unix_fd s me fd && stray_path s pth)
  | UAccept me fd _ _ => stray_fd s me fd
  | USend me fd (Some _) len => negb ((fd <? 0) || (len =? 0)) && stray_fd s me fd
  | URecv me fd buf len _ => negb ((fd <? 0) || negb buf || (len =? 0)) && stray_fd s me fd
  | _ => false
  end.

Lemma fault_bind {A B} (m : SM st A) (k : A → SM st B) s : m s = Fault → (r ← m; k r) s = Fault.
Proof. unfold mbind, SM_bind. by intros ->. Qed.

Lemma wild_faults s c : unix_ok s → wild s c = true → do_ucall c s = Fault.
Proof.
  intros H Hw. destruct c as [|me fd [pth|] len|me fd backlog|me fd [pth|] len q|me fd f thr| |me fd [b|] len| |me fd buf len thr|];
    cbn [wild do_ucall] in *; try done; try apply fault_bind.
  - apply andb_prop in Hw as (Hl%negb_true_iff & [Hst|(Hu & Hp)%andb_prop]%orb_prop); [|apply syscall_bind_lost; try done; lia].
    unfold syscall_bind. rewrite Hl. by apply call_stray.
  - apply andb_prop in Hw as (Hl%negb_true_iff & Hst). unfold syscall_listen. rewrite Hl. by apply call_stray.
  - apply andb_prop in Hw as (Hl%negb_true_iff & [Hst|(Hu & Hp)%andb_prop]%orb_prop); [|apply syscall_connect_stray; try done; lia].
    unfold syscall_connect. rewrite Hl. by apply call_stray.
  - by apply call_stray.
  - apply andb_prop in Hw as (Hl%negb_true_iff & Hst). unfold syscall_sendto. rewrite Hl. by apply call_stray.
  - apply andb_prop in Hw as (Hl%negb_true_iff & Hst). unfold syscall_recvfrom. rewrite Hl. by apply call_stray.
Qed.

Lemma tame_returns s c : unix_ok s → names_ok s → call_ok s c → wild s c = false → swp (do_ucall c) s (λ _ s', unix_ok s').
Proof.
  intros H Hn Hc Hw. destruct c as [|me fd [pth|] len|me fd backlog|me fd [pth|] len q|me fd f thr| |me fd [b|] len| |me fd buf len thr|];
    cbn [do_ucall call_ok wild] in *; destruct_and?; try apply swp_keep.
  - by apply syscall_socket_ok.
  - destruct (Z.eqb_spec len 0) as [->|]; [by apply swp_ret|]. apply orb_false_elim in Hw as (? & ?). by apply syscall_bind_ok.
  - by apply swp_ret.
  - destruct (Z.ltb_spec fd 0) as [Hl|]; [unfold syscall_listen; rewrite (proj2 (Z.ltb_lt _ _) Hl); by apply swp_ret|]. by apply syscall_listen_ok.
  - destruct (Z.eqb_spec len 0) as [->|]; [by apply swp_ret|]. apply orb_false_elim in Hw as (? & ?). by apply syscall_connect_ok.
  - by apply swp_ret.
  - by apply syscall_accept_ok.
  - by apply accept_resumed_ok.
  - destruct ((fd <? 0) || (len =? 0)) eqn:E; [unfold syscall_sendto; rewrite E; by apply swp_ret|]. apply syscall_sendto_ok; [done|done|by apply Hc].
  - by apply swp_ret.
  - by apply sendto_resumed_ok.
  - destruct ((fd <? 0) || negb buf || (len =? 0)) eqn:E; [unfold syscall_recvfrom; rewrite E; by apply swp_ret|]. by apply syscall_recvfrom_ok.
  - by apply recvfrom_resumed_ok.
Qed.

(** C29. Local sockets: every call on them, with whatever descriptors, sizes,
    families and paths, given fresh objects and readable buffers, and every
    call resumed after it blocked. A call that passes its tests with a
    descriptor or a name whose private pointer is not that of a socket (a pipe,
    a file), or binds a path without a vnode, accesses memory through that
    pointer. Every other call returns (no access outside a ring, no loop
    without end) and leaves well-formed sockets: rings and backlog within
    their arrays, and every pointer of a peer or a backlog on a socket. *)
Theorem local_socket_calls_typed s c :
  unix_ok s → names_ok s → call_ok s c →
  if wild s c then do_ucall c s = Fault else ∃ r s', do_ucall c s = Ok (r, s') ∧ unix_ok s'.
Proof.
  intros H Hn Hc. destruct (wild s c) eqn:Hw; [by apply wild_faults|]. by apply swp_elim, tame_returns.
Qed.
End typed.
