(* ===== verification/UnixStream.v ===== *)
(** * Connections of local sockets as byte queues

    The two ends of a connection refine a pair of bounded byte queues with a
    waiting thread at each end; what one end receives is what the other one
    sent, in order. *)

From S2P Require Import Prelude StateM Fd FdOps Unix UnixThm.

Open Scope sm_scope.

(** The value of one of two sides. *)
Definition sel {A} (d : bool) (x : A * A) : A := if d then x.1 else x.2.
Definition upd {A} (d : bool) (v : A) (x : A * A) : A * A := if d then (v, x.2) else (x.1, v).

Lemma sel_upd {A} d e (v : A) x : sel e (upd d v x) = if eqb d e then v else sel e x.
Proof. by destruct d, e. Qed.

(** ** The specification *)

(** For each side: the bytes it has not read and the thread that waits to read;
    the threads woken. *)
Record chan := mkChan { c_bytes : list Z * list Z; c_thread : Z * Z; c_woken : list Z }.

(** A call at side [d]; [SendOn] and [RecvOn] go on after a wait. *)
Inductive sop :=
  | Send (d : bool) (buf : list Z) (len : Z)
  | SendOn (d : bool) (buf : list Z) (len : Z)
  | Recv (d : bool) (len thr : Z)
  | RecvOn (d : bool) (len thr : Z).

(** The bytes of [buf] that fit after [q], and those of [q] that are read. *)
Definition accepted (buf : list Z) (len : Z) (q : list Z) : list Z :=
  take (Z.to_nat (Z.max 0 (Z.min (s32 len) (UNIX_BUF_SIZE - zlen q)))) buf.
Definition delivered (len : Z) (q : list Z) : list Z := take (Z.to_nat (Z.max 0 (Z.min (s32 len) (zlen q)))) q.

Definition chan_send (d nb : bool) (buf : list Z) (len : Z) (c : chan) : option (Z * list Z) * chan :=
  let q := sel (negb d) (c_bytes c) in
  let w := sel (negb d) (c_thread c) in
  if UNIX_BUF_SIZE <=? zlen q then (if nb then Some (- EAGAIN, []) else None, c)
  else (Some (zlen (accepted buf len q), []),
        mkChan (upd (negb d) (q ++ accepted buf len q) (c_bytes c)) (c_thread c) (if w =? 0 then c_woken c else c_woken c ++ [w])).

Definition chan_recv (d nb : bool) (len thr : Z) (c : chan) : option (Z * list Z) * chan :=
  let q := sel d (c_bytes c) in
  match q with
  | [] => if nb then (Some (- EAGAIN, []), c) else (None, mkChan (c_bytes c) (upd d thr (c_thread c)) (c_woken c))
  | _ => let got := delivered len q in
         (Some (zlen got, got), mkChan (upd d (drop (length got) q) (c_bytes c)) (c_thread c) (c_woken c))
  end.

(** [nb]: the sides that do not wait. *)
Definition chan_step (nb : bool * bool) (o : sop) (c : chan) : option (Z * list Z) * chan :=
  match o with
  | Send d buf len => if len =? 0 then (Some (- EINVAL, []), c) else chan_send d (sel d nb) buf len c
  | SendOn d buf len => chan_send d false buf len c
  | Recv d len thr => if len =? 0 then (Some (- EINVAL, []), c) else chan_recv d (sel d nb) len thr c
  | RecvOn d len thr => chan_recv d false len thr (mkChan (c_bytes c) (upd d 0 (c_thread c)) (c_woken c))
  end.

(** The results of a sequence of calls. *)
Fixpoint chan_run (nb : bool * bool) (l : list sop) (c : chan) : list (option (Z * list Z)) * chan :=
  match l with
  | [] => ([], c)
  | o :: l => let '(r, c) := chan_step nb o c in let '(rs, c) := chan_run nb l c in (r :: rs, c)
  end.

(** The bytes side [d] put in and got out, by the results. *)
Definition put_in (d : bool) (o : sop) (r : option (Z * list Z)) : list Z :=
  match o, r with
  | Send e buf _, Some (n, _) | SendOn e buf _, Some (n, _) => if eqb e d then take (Z.to_nat n) buf else []
  | _, _ => []
  end.
Definition got_out (d : bool) (o : sop) (r : option (Z * list Z)) : list Z :=
  match o, r with
  | Recv e _ _, Some (_, x) | RecvOn e _ _, Some (_, x) => if eqb e d then x else []
  | _, _ => []
  end.
Definition stream (f : sop → option (Z * list Z) → list Z) (l : list sop) (rs : list (option (Z * list Z))) : list Z :=
  concat (zip_with f l rs).

(** ** The two ends *)

Record endpoint := mkEnd { e_me : nat; e_fd : Z; e_file : Z; e_sock : Z; e_nb : bool }.

Section conn.
Context `{!FileOps ust}.
Implicit Types (s : st).

(** A descriptor of a connected socket with bytes [q] and reader [w]. *)
Record end_ok s (e : endpoint) (other : Z) (q : list Z) (w : Z) : Prop := mkEndOk {
  eo_table : ∃ t, tables s !! e_me e = Some (Some t) ∧ 0 ≤ e_fd e < max_fds t ∧ max_fds t ≤ zlen (fds t) ∧ at_ (fds t) (e_fd e) = e_file e;
  eo_file : e_file e ≠ 0 ∧ ∃ x, files s !! e_file e = Some x ∧ nb_flag x = e_nb e;
  eo_priv : e_sock e ≠ 0 ∧ file_private (store s) !! e_file e = Some (e_sock e);
  eo_sock : ∃ u, socks (store s) !! e_sock e = Some u ∧ s_family u = AF_UNIX ∧ peer u = other ∧ holds u q ∧ blocked_recv_thread u = w }.

(** Two sockets, each the peer of the other. *)
Record connected s (ends : endpoint * endpoint) (c : chan) : Prop := mkConnected {
  cn_ne : e_sock ends.1 ≠ e_sock ends.2;
  cn_end : ∀ d, end_ok s (sel d ends) (e_sock (sel (negb d) ends)) (sel d (c_bytes c)) (sel d (c_thread c));
  cn_woken : woken (store s) = c_woken c }.

Definition sop_call (ends : endpoint * endpoint) (o : sop) : ucall :=
  match o with
  | Send d buf len => USend (e_me (sel d ends)) (e_fd (sel d ends)) (Some buf) len
  | SendOn d buf len => USendOn (e_sock (sel (negb d) ends)) buf len
  | Recv d len thr => URecv (e_me (sel d ends)) (e_fd (sel d ends)) true len thr
  | RecvOn d len thr => URecvOn (e_sock (sel d ends)) thr len
  end.
Definition readable (o : sop) : Prop :=
  match o with Send _ buf len | SendOn _ buf len => s32 len ≤ zlen buf | _ => True end.

Variable namei : list Z → option Z.

Fixpoint run_ucalls (l : list ucall) : SM st (list (option (Z * list Z))) :=
  match l with
  | [] => mret []
  | c :: l => r ← do_ucall namei c; rs ← run_ucalls l; mret (r :: rs)
  end.

(** ** Steps *)

Lemma socket_fd_end s e other q w (Q : Z + Z * Z → st → Prop) :
  end_ok s e other q w → Q (inr (e_file e, e_sock e)) s → swp (socket_fd (e_me e) (e_fd e)) s Q.
Proof.
  intros [(t & Ht & Hfd & Hl & Hat) [Hf _] [Hp Hpriv] _] HQ. unfold socket_fd. apply swp_bind. eapply table_of_spec; [done|].
  apply swp_if; intros Hb; [lia|]. apply swp_bind, slot_spec; [lia|]. rewrite Hat. apply swp_if; intros Hz; [lia|].
  apply swp_bind. unfold private_of, swp at 1, pointer. rewrite Hpriv. cbn [default]. apply swp_if; intros Hz'; [cbn in Hz'; lia|]. by apply swp_ret.
Qed.

(** A change of one socket, and of the woken threads, seen from an end. *)
Definition stored s p u wk : st :=
  set_store (mkUst (<[p := u]> (socks (store s))) (file_private (store s)) (vnode_private (store s)) wk) s.

Lemma end_other s e other q w p u wk : end_ok s e other q w → p ≠ e_sock e → end_ok (stored s p u wk) e other q w.
Proof.
  intros [H1 H2 H3 (v & Hv & H4)] Hne. split; [done|done|done|]. exists v. split; [|done]. cbn. by rewrite lookup_insert_ne.
Qed.

Lemma end_change s e other q w u wk q' w' :
  end_ok s e other q w → s_family u = AF_UNIX → peer u = other → holds u q' → blocked_recv_thread u = w' →
  end_ok (stored s (e_sock e) u wk) e other q' w'.
Proof. intros [H1 H2 H3 _] ????. split; [done|done|done|]. exists u. split; [|done]. cbn. by rewrite lookup_insert_eq. Qed.

Lemma sides_ne (ends : endpoint * endpoint) d : e_sock ends.1 ≠ e_sock ends.2 → e_sock (sel d ends) ≠ e_sock (sel (negb d) ends).
Proof. destruct d; cbn; intros H; [done|by apply not_eq_sym]. Qed.

(** The socket of side [d] changed. *)
Lemma connected_change s ends c d u wk q' w' :
  connected s ends c → s_family u = AF_UNIX → peer u = e_sock (sel (negb d) ends) → holds u q' → blocked_recv_thread u = w' →
  connected (stored s (e_sock (sel d ends)) u wk) ends (mkChan (upd d q' (c_bytes c)) (upd d w' (c_thread c)) wk).
Proof.
  intros [Hne He Hw] H1 H2 H3 H4. split; [done| |done]. intros e. cbn [c_bytes c_thread]. rewrite !sel_upd.
  destruct (eqb d e) eqn:E.
  - apply eqb_prop in E as <-. by eapply end_change.
  - assert (e = negb d) as -> by by destruct d, e. apply end_other; [done|]. by apply sides_ne.
Qed.

Lemma upd_same {A} d (x : A * A) : upd d (sel d x) x = x.
Proof. by destruct d, x. Qed.

Lemma same_fields u u' : same_socket u u' → s_family u' = s_family u ∧ peer u' = peer u ∧ blocked_recv_thread u' = blocked_recv_thread u.
Proof. intros Hs. by rewrite Hs. Qed.

(** The result and the next state of the queues. *)
Definition steps_to {A} (f : A → option (Z * list Z)) ends (rc : option (Z * list Z) * chan) (r : A) s' : Prop :=
  f r = rc.1 ∧ connected s' ends rc.2.

Definition sent (r : option Z) : option (Z * list Z) := option_map (λ x, (x, [])) r.

Lemma send_now_connected s ends c d buf len :
  connected s ends c → s32 len ≤ zlen buf → zlen (sel (negb d) (c_bytes c)) < UNIX_BUF_SIZE →
  swp (send_now (e_sock (sel (negb d) ends)) buf len) s (λ k, steps_to sent ends (chan_send d false buf len c) (Some k)).
Proof.
  intros Hc Hlen Hroom. destruct (eo_sock _ _ _ _ _ (cn_end _ _ _ Hc (negb d))) as (u & Hu & Hf & Hp & Hh & Hw).
  eapply send_now_spec; [done|done|done|]. intros u' Hs k Hh'. destruct (same_fields u u' Hs) as (Ef & Ep & Eb).
  set (q := sel (negb d) (c_bytes c)) in *. assert (0 ≤ k ≤ zlen buf) as Hk by (pose proof (ro_fits _ _ _ _ _ _ Hh); lia).
  assert (∀ wk, connected (stored s (e_sock (sel (negb d) ends)) u' wk) ends
    (mkChan (upd (negb d) (q ++ accepted buf len q) (c_bytes c)) (c_thread c) wk)) as Hnew.
  { intros wk. rewrite <- (upd_same (negb d) (c_thread c)). apply connected_change; [done|congruence|congruence|done|congruence]. }
  assert (steps_to sent ends (chan_send d false buf len c) (Some k)
    (stored s (e_sock (sel (negb d) ends)) u' (if blocked_recv_thread u =? 0 then woken (store s) else woken (store s) ++ [blocked_recv_thread u]))) as Hgoal.
  { unfold steps_to, chan_send. fold q. destruct (Z.leb_spec UNIX_BUF_SIZE (zlen q)); [lia|]. split.
    - cbn. do 2 f_equal. unfold accepted. rewrite length_take. fold k. lia.
    - cbn [snd]. rewrite Hw, (cn_woken _ _ _ Hc). apply Hnew. }
  apply swp_when; intros Hz; [apply negb_true_iff in Hz|apply negb_false_iff in Hz]; rewrite Hz in Hgoal; done.
Qed.

Lemma send_step s ends c d buf len :
  connected s ends c → s32 len ≤ zlen buf →
  swp (do_ucall namei (sop_call ends (Send d buf len))) s (λ r s', steps_to id ends (chan_step (e_nb ends.1, e_nb ends.2) (Send d buf len) c) r s').
Proof.
  intros Hc Hlen. pose proof (cn_end _ _ _ Hc d) as He. pose proof (cn_end _ _ _ Hc (negb d)) as Ho. rewrite negb_involutive in Ho.
  destruct (eo_sock _ _ _ _ _ He) as (u & Hu & Hf & Hp & _). destruct (eo_sock _ _ _ _ _ Ho) as (v & Hv & _ & _ & Hh & _).
  destruct (eo_table _ _ _ _ _ He) as (t & _ & Hfd & _). destruct (eo_file _ _ _ _ _ He) as (_ & x & Hx & Hnb).
  destruct (eo_priv _ _ _ _ _ Ho) as [Hne _]. cbn [do_ucall sop_call]. apply swp_bind. unfold syscall_sendto.
  apply swp_if; intros Hb.
  { apply swp_ret, swp_ret. cbn [chan_step]. destruct (Z.eqb_spec len 0); [done|lia]. }
  apply orb_false_iff in Hb as [_ Hb]. cbn [chan_step]. rewrite Hb. apply swp_bind. eapply socket_fd_end; [done|].
  apply swp_bind. eapply sock_at_spec; [done|]. rewrite Hf. cbn [negb Z.eqb AF_UNIX Pos.eqb]. rewrite Hp.
  destruct (Z.eqb_spec (e_sock (sel (negb d) ends)) 0); [done|]. apply swp_bind. eapply nonblocking_at; [done|].
  apply swp_bind. eapply sock_at_spec; [done|]. rewrite (ro_count _ _ _ _ _ _ Hh).
  assert (nb_flag x = sel d (e_nb ends.1, e_nb ends.2)) as -> by (rewrite Hnb; by destruct d).
  apply swp_if; intros Hfull.
  - unfold chan_send. rewrite Hfull. destruct (sel d (e_nb ends.1, e_nb ends.2)); by apply swp_ret, swp_ret.
  - apply swp_bind. eapply swp_mono; [apply send_now_connected; [done|done|lia]|]. intros k s' Hk. apply swp_ret, swp_ret.
    unfold chan_send in *. rewrite Hfull in *. done.
Qed.

Lemma send_on_step nb s ends c d buf len :
  connected s ends c → s32 len ≤ zlen buf →
  swp (do_ucall namei (sop_call ends (SendOn d buf len))) s (λ r s', steps_to id ends (chan_step nb (SendOn d buf len) c) r s').
Proof.
  intros Hc Hlen. destruct (eo_sock _ _ _ _ _ (cn_end _ _ _ Hc (negb d))) as (v & Hv & _ & _ & Hh & _).
  cbn [do_ucall sop_call chan_step]. apply swp_bind. unfold sendto_resumed. apply swp_bind. eapply sock_at_spec; [done|].
  rewrite (ro_count _ _ _ _ _ _ Hh). apply swp_if; intros Hfull.
  - unfold chan_send. rewrite Hfull. by apply swp_ret, swp_ret.
  - apply swp_bind. eapply swp_mono; [apply send_now_connected; [done|done|lia]|]. intros k s' Hk. by apply swp_ret, swp_ret.
Qed.

Lemma recv_round_connected s ends c d nb thr len :
  connected s ends c →
  swp (recv_round nb (e_sock (sel d ends)) thr len) s (λ r s', steps_to id ends (chan_recv d nb len thr c) r s').
Proof.
  intros Hc. destruct (eo_sock _ _ _ _ _ (cn_end _ _ _ Hc d)) as (u & Hu & Hf & Hp & Hh & Hw).
  eapply recv_round_spec; [done|done| |]; unfold chan_recv; set (q := sel d (c_bytes c)) in *.
  - intros Eq. rewrite Eq in *. destruct nb; [done|]. split; [done|]. cbn [snd]. rewrite <- (upd_same d (c_bytes c)), <- (cn_woken _ _ _ Hc).
    fold q. rewrite Eq. by apply connected_change.
  - set (k := Z.to_nat _). intros u' Hne Hs Hh'. destruct (same_fields u u' Hs) as (Ef & Ep & Eb).
    assert (length (delivered len q) = k) as Ek by (unfold delivered; rewrite length_take; unfold k; lia).
    assert (delivered len q = take k q) as Ed by done. clearbody k q. destruct q as [|x q]; [done|]. rewrite Ed in *. split; [done|]. cbn [snd]. rewrite Ek.
    rewrite <- (upd_same d (c_thread c)), <- (cn_woken _ _ _ Hc). apply connected_change; try done; congruence.
Qed.

Lemma recv_step s ends c d len thr :
  connected s ends c →
  swp (do_ucall namei (sop_call ends (Recv d len thr))) s (λ r s', steps_to id ends (chan_step (e_nb ends.1, e_nb ends.2) (Recv d len thr) c) r s').
Proof.
  intros Hc. pose proof (cn_end _ _ _ Hc d) as He. destruct (eo_sock _ _ _ _ _ He) as (u & Hu & Hf & _).
  destruct (eo_table _ _ _ _ _ He) as (t & _ & Hfd & _). destruct (eo_file _ _ _ _ _ He) as (_ & x & Hx & Hnb).
  cbn [do_ucall sop_call chan_step]. unfold syscall_recvfrom. rewrite orb_false_r. apply swp_if; intros Hb.
  { apply swp_ret. destruct (Z.eqb_spec len 0); [done|lia]. }
  apply orb_false_iff in Hb as [_ Hb]. rewrite Hb. apply swp_bind. eapply socket_fd_end; [done|].
  apply swp_bind. eapply sock_at_spec; [done|]. rewrite Hf. cbn [negb Z.eqb AF_UNIX Pos.eqb].
  apply swp_bind. eapply nonblocking_at; [done|].
  assert (nb_flag x = sel d (e_nb ends.1, e_nb ends.2)) as -> by (rewrite Hnb; by destruct d). by apply recv_round_connected.
Qed.

Lemma recv_on_step nb s ends c d len thr :
  connected s ends c →
  swp (do_ucall namei (sop_call ends (RecvOn d len thr))) s (λ r s', steps_to id ends (chan_step nb (RecvOn d len thr) c) r s').
Proof.
  intros Hc. destruct (eo_sock _ _ _ _ _ (cn_end _ _ _ Hc d)) as (u & Hu & Hf & Hp & Hh & Hw).
  cbn [do_ucall sop_call chan_step]. unfold recvfrom_resumed, upd_sock. apply swp_bind. apply swp_bind. eapply sock_at_spec; [done|].
  apply put_sock_spec. apply recv_round_connected. rewrite <- (upd_same d (c_bytes c)), <- (cn_woken _ _ _ Hc). by apply connected_change.
Qed.

Lemma sop_step s ends c o :
  connected s ends c → readable o →
  swp (do_ucall namei (sop_call ends o)) s (λ r s', steps_to id ends (chan_step (e_nb ends.1, e_nb ends.2) o c) r s').
Proof.
  intros Hc Hr. destruct o; cbn [readable] in Hr; [by apply send_step|by apply send_on_step|by apply recv_step|by apply recv_on_step].
Qed.

Lemma run_connected l s ends c :
  connected s ends c → Forall readable l →
  swp (run_ucalls (sop_call ends <$> l)) s (λ rs s', rs = (chan_run (e_nb ends.1, e_nb ends.2) l c).1 ∧ connected s' ends (chan_run (e_nb ends.1, e_nb ends.2) l c).2).
Proof.
  revert s c. induction l as [|o l IH]; intros s c Hc Hr; cbn [fmap list_fmap run_ucalls chan_run]; [by apply swp_ret|].
  apply Forall_cons in Hr as [Ho Hr]. apply swp_bind. eapply swp_mono; [by apply sop_step|]. intros r s1 [Er H1].
  destruct (chan_step _ o c) as [r' c1]. cbn in Er, H1. subst r'. apply swp_bind. eapply swp_mono; [by apply (IH s1 c1)|].
  intros rs s2 [-> H2]. apply swp_ret. by destruct (chan_run _ l c1).
Qed.

(** ** Streams *)

Lemma accepted_take buf len q : take (length (accepted buf len q)) buf = accepted buf len q.
Proof. unfold accepted. rewrite length_take. destruct (Nat.min_spec (Z.to_nat (Z.max 0 (Z.min (s32 len) (UNIX_BUF_SIZE - zlen q)))) (length buf)) as [[? ->]|[? ->]]; [done|]. by rewrite !take_ge by lia. Qed.

Lemma delivered_take len q : delivered len q ++ drop (length (delivered len q)) q = q.
Proof.
  unfold delivered. rewrite length_take. replace (Nat.min _ _) with (Z.to_nat (Z.max 0 (Z.min (s32 len) (zlen q)))) by lia. apply take_drop.
Qed.

Lemma chan_send_order e nb buf len c d :
  let '(r, c') := chan_send e nb buf len c in
  sel d (c_bytes c) ++ (if eqb e (negb d) then match r with Some (n, _) => take (Z.to_nat n) buf | None => [] end else []) = sel d (c_bytes c').
Proof.
  unfold chan_send. destruct (UNIX_BUF_SIZE <=? _).
  - by destruct nb, (eqb e (negb d)); cbn; rewrite app_nil_r.
  - cbn [c_bytes]. rewrite sel_upd, Nat2Z.id, accepted_take. destruct d, e; cbn; by rewrite ?app_nil_r.
Qed.

Lemma chan_recv_order e nb len thr c d :
  let '(r, c') := chan_recv e nb len thr c in
  sel d (c_bytes c) = (if eqb e d then match r with Some (_, x) => x | None => [] end else []) ++ sel d (c_bytes c').
Proof.
  unfold chan_recv. destruct (sel e (c_bytes c)) as [|x q] eqn:E.
  - by destruct nb, (eqb e d).
  - cbn [c_bytes]. rewrite sel_upd. destruct (eqb e d) eqn:Ee; [|done]. apply eqb_prop in Ee as <-. by rewrite delivered_take, E.
Qed.

(** One step of the queues keeps the order of the bytes. *)
Lemma chan_step_order nb o c d :
  let '(r, c') := chan_step nb o c in
  sel d (c_bytes c) ++ put_in (negb d) o r = got_out d o r ++ sel d (c_bytes c').
Proof.
  destruct o as [e buf len|e buf len|e len thr|e len thr]; cbn [chan_step].
  - destruct (len =? 0); [cbn; destruct (eqb _ _); cbn; by rewrite app_nil_r|].
    pose proof (chan_send_order e (sel e nb) buf len c d) as H. destruct (chan_send _ _ _ _ _) as [[[n x]|] c']; cbn; by destruct (eqb e (negb d)).
  - pose proof (chan_send_order e false buf len c d) as H. destruct (chan_send _ _ _ _ _) as [[[n x]|] c']; cbn; by destruct (eqb e (negb d)).
  - destruct (len =? 0); [cbn; destruct (eqb _ _); cbn; by rewrite app_nil_r|].
    pose proof (chan_recv_order e (sel e nb) len thr c d) as H. destruct (chan_recv _ _ _ _ _) as [[[n x]|] c']; cbn; rewrite app_nil_r; by destruct (eqb e d).
  - pose proof (chan_recv_order e false len thr (mkChan (c_bytes c) (upd e 0 (c_thread c)) (c_woken c)) d) as H.
    destruct (chan_recv _ _ _ _ _) as [[[n x]|] c']; cbn in *; rewrite app_nil_r; by destruct (eqb e d).
Qed.

Lemma chan_run_order nb l c d :
  let '(rs, c') := chan_run nb l c in
  sel d (c_bytes c) ++ stream (put_in (negb d)) l rs = stream (got_out d) l rs ++ sel d (c_bytes c').
Proof.
  revert c. induction l as [|o l IH]; intros c; cbn [chan_run]; [cbn; by rewrite app_nil_r|].
  pose proof (chan_step_order nb o c d) as H1. destruct (chan_step nb o c) as [r c1]. specialize (IH c1).
  destruct (chan_run nb l c1) as [rs c2]. unfold stream in *. cbn [zip_with concat]. by rewrite app_assoc, H1, <- !app_assoc, IH.
Qed.

(** C20. Local sockets: any sequence of sends and receives on the two ends of
    a connection, resumed calls included, gives the results of two queues of
    4096 bytes (as much as fits or is there; a full or empty queue refuses or
    blocks; a send wakes the reader that waits); and what each end received,
    followed by what it has not read, is what it had followed by what the
    other end sent, byte by byte. *)
Theorem connection_refines_queues s ends c l :
  connected s ends c → Forall readable l →
  let '(rs, c') := chan_run (e_nb ends.1, e_nb ends.2) l c in
  ∃ s', run_ucalls (sop_call ends <$> l) s = Ok (rs, s') ∧ connected s' ends c' ∧
    ∀ d, sel d (c_bytes c) ++ stream (put_in (negb d)) l rs = stream (got_out d) l rs ++ sel d (c_bytes c').
Proof.
  intros Hc Hr. pose proof (run_connected l s ends c Hc Hr) as H. pose proof (chan_run_order (e_nb ends.1, e_nb ends.2) l c) as Ho.
  destruct (chan_run _ l c) as [rs c']. apply swp_elim in H as (a & s' & E & -> & H). exists s'. split; [done|]. split; [done|].
  intros d. apply Ho.
Qed.
End conn.
