(* ===== verification/UnixConn.v ===== *)
(** * Making a connection of local sockets

    [syscall_connect] and [syscall_accept] together: the connections wait in
    order, and accepts return the ends of those that waited, one by one. *)

From S2P Require Import Prelude StateM Fd FdOps FdFork Unix UnixThm UnixStream.

Open Scope sm_scope.

Lemma swp_elim_some {S A} (m : SM S (option A)) s (P : A → S → Prop) :
  swp m s (λ o s', ∃ r, o = Some r ∧ P r s') → ∃ r s', m s = Ok (Some r, s') ∧ P r s'.
Proof. intros (o & s' & E & r & -> & H)%swp_elim. by exists r, s'. Qed.

Section connect.
Context `{!FileOps ust}.
Implicit Types (s : st).
Variable namei : list Z → option Z.

(** A listening socket with connections [l]. *)
Record listening s (srv : Z) (us : unix_socket) (l : list Z) : Prop := mkListening {
  ls_at : srv ≠ 0 ∧ socks (store s) !! srv = Some us;
  ls_family : s_family us = AF_UNIX;
  ls_state : s_state us = SOCK_STATE_LISTENING;
  ls_queue : waits us l;
  ls_room : s_backlog us ≤ 128 }.

Definition queued (us : unix_socket) (q : Z) : unix_socket :=
  set_pending (<[Z.to_nat (pending_tail us) := q]> (s_pending us)) (pending_head us) ((pending_tail us + 1) mod UNIX_BACKLOG_MAX) (pending_count us + 1) us.
Definition dequeued (us : unix_socket) : unix_socket :=
  set_pending (s_pending us) ((pending_head us + 1) mod UNIX_BACKLOG_MAX) (pending_tail us) (pending_count us - 1) us.

Lemma waits_none us :
  zlen (s_pending us) = UNIX_BACKLOG_MAX → pending_head us = 0 → pending_tail us = 0 → pending_count us = 0 → waits us [].
Proof. unfold waits. intros H -> -> ->. by apply ring_empty. Qed.

Lemma queued_waits us l q : waits us l → zlen l < UNIX_BACKLOG_MAX → waits (queued us q) (l ++ [q]).
Proof. intros Hw Hl. by destruct (queue_push us l q Hw Hl). Qed.

(** The state after a connect from socket [p] to [srv]. *)
Definition connecting s (p : Z) (u : unix_socket) (srv : Z) (us : unix_socket) (q : Z) : st :=
  set_store (mkUst (<[srv := queued us q]> (<[p := set_peer q u]> (<[q := server_side_of u p]> (socks (store s)))))
    (file_private (store s)) (vnode_private (store s))
    (if blocked_accept_thread us =? 0 then woken (store s) else woken (store s) ++ [blocked_accept_thread us])) s.

Lemma syscall_connect_spec s e other q0 w0 u path len v srv us l q :
  end_ok s e other q0 w0 → socks (store s) !! e_sock e = Some u → len ≠ 0 → namei path = Some v → v ≠ 0 →
  vnode_private (store s) !! v = Some srv → listening s srv us l → zlen l < s_backlog us → e_sock e ≠ srv → q ≠ 0 → socks (store s) !! q = None →
  swp (syscall_connect namei (e_me e) (e_fd e) (Some path) len q) s (λ r s', r = 0 ∧ s' = connecting s (e_sock e) u srv us q).
Proof.
  intros He Hu Hlen Hn Hv Hvp [[Hsrv Hus] Hsf Hst Hw Hb] Hroom Hne Hq Hfresh. unfold syscall_connect.
  destruct (eo_sock _ _ _ _ _ He) as (u' & Hu' & Hf & _). rewrite Hu in Hu'. injection Hu' as <-.
  destruct (Z.eqb_spec len 0); [done|]. apply swp_bind. eapply socket_fd_end; [done|]. apply swp_bind. eapply sock_at_spec; [done|].
  rewrite Hf. cbn [negb Z.eqb AF_UNIX Pos.eqb]. rewrite Hn. destruct (Z.eqb_spec v 0); [done|].
  apply swp_bind. unfold vnode_private_of, swp at 1, pointer. rewrite Hvp. cbn [from_option id]. destruct (Z.eqb_spec srv 0); [done|].
  apply swp_bind. eapply sock_at_spec; [done|]. rewrite Hst. cbn [negb Z.eqb SOCK_STATE_LISTENING Pos.eqb].
  pose proof (ro_count _ _ _ _ _ _ Hw) as Hc. destruct (Z.leb_spec (s_backlog us) (pending_count us)); [lia|]. destruct (Z.eqb_spec q 0); [done|].
  apply swp_bind, put_sock_spec. apply swp_bind. unfold upd_sock. apply swp_bind.
  eapply sock_at_spec; [cbn; rewrite lookup_insert_ne; [done|congruence]|]. apply put_sock_spec.
  apply swp_bind. eapply sock_at_spec; [cbn; rewrite lookup_insert_ne by done; rewrite lookup_insert_ne; [done|congruence]|].
  destruct (queue_push us l q Hw) as [Eset _]; [lia|]. apply swp_bind. eapply swp_lift; [exact Eset|]. apply swp_bind, put_sock_spec.
  apply swp_bind. unfold connecting. apply swp_when; intros Hz; [apply negb_true_iff in Hz|apply negb_false_iff in Hz]; rewrite Hz; by apply swp_ret.
Qed.

(** The state after an accept of socket [x] as file [f], before it is marked. *)
Lemma syscall_accept_spec s e other qs ws us x ux l t i f thr :
  fd_ok s → end_ok s e other qs ws → listening s (e_sock e) us (x :: l) → x ≠ e_sock e → socks (store s) !! x = Some ux →
  tables s !! e_me e = Some (Some t) → 0 ≤ i < 64 → at_ (fds t) i = 0 → f ≠ 0 → files s !! f = None →
  swp (syscall_accept (e_me e) (e_fd e) f thr) s (λ r s', ∃ r' s1,
    r = Some r' ∧ installed (set_store (put (store s) (e_sock e) (dequeued us)) s) s1 (e_me e) t r' f x 0 ∧
    s' = set_store (put (store s1) x (set_state SOCK_STATE_CONNECTED ux)) s1).
Proof.
  intros Hok He [[_ Hus] Hsf Hst Hw _] Hne Hx Ht Hi Hfree Hf Hfresh. unfold syscall_accept.
  apply swp_bind. eapply socket_fd_end; [done|]. apply swp_bind. eapply sock_at_spec; [done|].
  rewrite Hsf, Hst. cbn [negb Z.eqb AF_UNIX SOCK_STATE_LISTENING Pos.eqb]. destruct (eo_file _ _ _ _ _ He) as (_ & y & Hy & _).
  apply swp_bind. eapply nonblocking_at; [done|]. unfold accept_round. apply swp_bind. eapply sock_at_spec; [done|].
  pose proof (ro_count _ _ _ _ _ _ Hw) as Hc. cbn [length] in Hc. destruct (Z.eqb_spec (pending_count us) 0); [lia|].
  destruct (queue_pop us l x Hw) as [Eget _]. apply swp_bind. unfold accept_pending. apply swp_bind. eapply sock_at_spec; [done|].
  apply swp_bind. eapply swp_lift; [exact Eget|]. apply swp_bind, put_sock_spec. apply swp_bind.
  eapply swp_mono; [apply (install_socket_spec _ _ t); [by apply fd_ok_store|done..]|].
  intros r' s1 [(_ & _ & Hall)|Hin]; [by destruct (Hall i Hi)|].
  apply swp_bind. destruct (in_range _ _ _ _ _ _ _ _ Hin) as [Hr _]. apply Z.leb_le in Hr. rewrite Hr. cbn [sm_when].
  unfold upd_sock. apply swp_bind. eapply sock_at_spec.
  { rewrite (in_store _ _ _ _ _ _ _ _ Hin). cbn. by rewrite lookup_insert_ne. }
  apply put_sock_spec. apply swp_ret, swp_ret. by exists r', s1.
Qed.

(** A descriptor of any process after a new file is put in a free slot, the
    sockets aside. *)
Lemma end_installed s s' s2 me t r f x fl e other q w u other' q' w' :
  fd_ok s → tables s !! me = Some (Some t) → files s !! f = None → installed s s' me t r f x fl →
  end_ok s e other q w → tables s2 = tables s' → files s2 = files s' → file_private (store s2) = file_private (store s') →
  socks (store s2) !! e_sock e = Some u → s_family u = AF_UNIX → peer u = other' → holds u q' → blocked_recv_thread u = w' →
  end_ok s2 e other' q' w'.
Proof.
  intros Hok Hme Hfresh [Hr Hz _ _ (t' & Et & Hm & Ed) Ef _ Es] [(te & Hte & Hfd & Hl & Hat) (Hf & y & Hy & Hnb) (Hp & Hpr) _] E1 E2 E3 ? ? ? ? ?.
  destruct (inv_table _ _ _ Hok _ _ Hte) as (Hm1 & Hl1 & _). assert (f ≠ e_file e) as Hne by (intros ->; congruence). split.
  - rewrite E1, Et. destruct (decide (me = e_me e)) as [Hq|Hq].
    + rewrite <- Hq, list_lookup_insert_eq by (by eapply lookup_lt_Some). exists t'. split; [done|].
      assert (te = t) as -> by congruence. rewrite Ed, length_insert. split; [lia|]. split; [lia|].
      rewrite at_insert by lia. rewrite decide_False; [done|]. intros ->. congruence.
    + rewrite list_lookup_insert_ne by done. by exists te.
  - split; [done|]. exists y. rewrite E2, Ef, lookup_insert_ne by done. done.
  - split; [done|]. rewrite E3, Es. cbn. by rewrite lookup_insert_ne.
  - by exists u.
Qed.

(** The new descriptor itself. *)
Lemma end_new s s' s2 me t r f x fl u other q w :
  tables s !! me = Some (Some t) → fd_ok s → installed s s' me t r f x fl → f ≠ 0 → x ≠ 0 →
  tables s2 = tables s' → files s2 = files s' → file_private (store s2) = file_private (store s') →
  socks (store s2) !! x = Some u → s_family u = AF_UNIX → peer u = other → holds u q → blocked_recv_thread u = w →
  end_ok s2 (mkEnd me r f x (nb_flag (socket_file fl))) other q w.
Proof.
  intros Hme Hok [Hr Hz _ _ (t' & Et & Hm & Ed) Ef _ Es] Hf Hx E1 E2 E3 ? ? ? ? ?.
  destruct (inv_table _ _ _ Hok _ _ Hme) as (Hm1 & Hl1 & _). split; cbn.
  - exists t'. rewrite E1, Et, list_lookup_insert_eq by (by eapply lookup_lt_Some). split; [done|]. rewrite Ed, length_insert.
    split; [lia|]. split; [lia|]. rewrite at_insert by lia. by rewrite decide_True.
  - split; [done|]. exists (socket_file fl). by rewrite E2, Ef, lookup_insert_eq.
  - split; [done|]. rewrite E3, Es. cbn. by rewrite lookup_insert_eq.
  - by exists u.
Qed.

(** ** The connections that wait *)

(** The free descriptors of a table, lowest first. *)
Fixpoint frees (i : Z) (l : list Z) : list Z :=
  match l with
  | [] => []
  | x :: l => if x =? 0 then i :: frees (i + 1) l else frees (i + 1) l
  end.

Lemma frees_app l : ∀ i l', frees i (l ++ l') = frees i l ++ frees (i + zlen l) l'.
Proof.
  induction l as [|x l IH]; intros i l'; cbn [frees app length]; [by rewrite Z.add_0_r|].
  rewrite IH. replace (i + 1 + zlen l) with (i + Z.of_nat (S (length l))) by lia. by destruct (x =? 0).
Qed.

Lemma frees_none l : Forall (λ x, x ≠ 0) l → ∀ i, frees i l = [].
Proof. induction 1 as [|x l Hx _ IH]; intros i; cbn [frees]; [done|]. by rewrite (proj2 (Z.eqb_neq _ _) Hx). Qed.

(** The lowest one is taken. *)
Lemma frees_take (l : list Z) r f :
  0 ≤ r < zlen l → at_ l r = 0 → (∀ j, 0 ≤ j < r → at_ l j ≠ 0) → f ≠ 0 → frees 0 l = r :: frees 0 (<[Z.to_nat r := f]> l).
Proof.
  intros Hr Hz Hlow Hf. unfold at_ in *. assert (l !! Z.to_nat r = Some 0) as E by (rewrite <- Hz; apply list_lookup_lookup_total_lt; lia).
  rewrite <- (take_drop_middle l _ _ E) at 1. rewrite insert_take_drop by lia. rewrite !frees_app, length_take_le by lia.
  rewrite (frees_none (take _ l)). 2: {
    apply Forall_lookup. intros k x [Hk Hlt]%lookup_take_Some. intros ->. apply (Hlow (Z.of_nat k)); [lia|].
    by rewrite Nat2Z.id, (list_lookup_total_correct _ _ _ Hk). }
  cbn [app frees]. rewrite (proj2 (Z.eqb_neq _ _) Hf). cbn. f_equal. lia.
Qed.

Lemma frees_some l : ∀ i r k, frees i l = r :: k → ∃ j, 0 ≤ j < zlen l ∧ at_ l j = 0.
Proof.
  induction l as [|x l IH]; intros i r k; cbn [frees]; [done|]. destruct (Z.eqb_spec x 0) as [->|].
  - intros _. exists 0. split; [cbn; lia|done].
  - intros (j & Hj & E)%IH. exists (j + 1). split; [cbn; lia|]. unfold at_ in *. by replace (Z.to_nat (j + 1)) with (S (Z.to_nat j)) by lia.
Qed.

(** A local socket with peer [other], unread bytes [q] and reader [w]. *)
Definition holder s (p other : Z) (q : list Z) (w : Z) : Prop :=
  ∃ u, socks (store s) !! p = Some u ∧ s_family u = AF_UNIX ∧ peer u = other ∧ holds u q ∧ blocked_recv_thread u = w.

(** A call that leaves the sockets and descriptors that are there as they are
    to read and write, and wakes no thread. *)
Record keeps s s' : Prop := mkKeeps {
  kp_ends : ∀ e other q w, end_ok s e other q w → end_ok s' e other q w;
  kp_socks : ∀ p other q w, holder s p other q w → holder s' p other q w;
  kp_woken : woken (store s') = woken (store s) }.

Lemma keeps_refl s : keeps s s.
Proof. by split. Qed.

Lemma keeps_trans s1 s2 s3 : keeps s1 s2 → keeps s2 s3 → keeps s1 s3.
Proof. intros [A B C] [A' B' C']. split; [by auto..|congruence]. Qed.

Lemma keeps_put s y u u' :
  socks (store s) !! y = Some u → s_family u' = s_family u → peer u' = peer u → (∀ q, holds u q → holds u' q) →
  blocked_recv_thread u' = blocked_recv_thread u → keeps s (set_store (put (store s) y u') s).
Proof.
  intros Hu Hf Hp Hh Hw. assert (∀ p other q w, holder s p other q w → holder (set_store (put (store s) y u') s) p other q w) as Hk.
  { intros p other q w (v & Hv & ? & ? & ? & ?). unfold holder. cbn. destruct (decide (y = p)) as [->|]; [|rewrite lookup_insert_ne by done; by exists v].
    rewrite lookup_insert_eq. rewrite Hu in Hv. injection Hv as <-. exists u'. split_and!; [done|congruence|congruence|by apply Hh|congruence]. }
  split; [|done|done]. intros e other q w [A B C D]. split; [done|done|done|]. by apply Hk.
Qed.

Lemma keeps_installed s s' me t r f x fl :
  fd_ok s → tables s !! me = Some (Some t) → files s !! f = None → installed s s' me t r f x fl → keeps s s'.
Proof.
  intros Hok Ht Hfresh Hin. pose proof (in_store _ _ _ _ _ _ _ _ Hin) as Es. split.
  - intros e other q w He. destruct (eo_sock _ _ _ _ _ He) as (u & Hu & ? & ? & ? & ?).
    eapply (end_installed s s' s' me t r f x fl e other q w u); try done. by rewrite Es.
  - intros p other q w Hh. unfold holder. by rewrite Es.
  - by rewrite Es.
Qed.

(** A server with connections [l] that wait and at least as many free
    descriptors. *)
Record serving s (server : endpoint) (l : list Z) (t : fdtable) : Prop := mkServing {
  sv_ok : fd_ok s;
  sv_end : ∃ other q w, end_ok s server other q w;
  sv_listening : ∃ us, listening s (e_sock server) us l;
  sv_socks : Forall (λ x, x ≠ 0 ∧ x ≠ e_sock server ∧ ∃ other q w, holder s x other q w) l;
  sv_table : tables s !! e_me server = Some (Some t);
  sv_free : (length l ≤ length (frees 0 (fds t)))%nat }.

Definition accepted_end (server : endpoint) (r f x : Z) : endpoint := mkEnd (e_me server) r f x false.

(** The next connection is accepted at the lowest free descriptor. *)
Lemma serving_accept s server x l t f thr :
  serving s server (x :: l) t → f ≠ 0 → files s !! f = None →
  swp (syscall_accept (e_me server) (e_fd server) f thr) s (λ o s2, ∃ r t2, o = Some r ∧ frees 0 (fds t) = r :: frees 0 (fds t2) ∧
    serving s2 server l t2 ∧ files s2 = <[f := socket_file 0]> (files s) ∧ keeps s s2 ∧
    ∀ other q w, holder s x other q w → end_ok s2 (accepted_end server r f x) other q w).
Proof.
  intros [Hok (other & q & w & He) (us & Hl) Hso Ht Hfree] Hf Hfresh.
  apply Forall_cons in Hso as ((Hx0 & Hne & ox & qx & wx & ux & Hux & Hxs) & Hso).
  destruct (inv_table _ _ _ Hok _ _ Ht) as (Hm & Hlen & _). destruct (frees 0 (fds t)) as [|r0 k0] eqn:Ek; [simpl in Hfree; lia|].
  destruct (frees_some _ _ _ _ Ek) as (i & Hi & Hz). pose proof (ls_at _ _ _ _ Hl) as (Hsrv & Hus).
  eapply swp_mono; [eapply (syscall_accept_spec s server other q w us x ux l t i f thr); try done; lia|].
  intros o s2 (r & s1 & -> & Hin & ->). set (s0 := set_store _ s) in Hin. set (s2 := set_store _ s1).
  destruct (in_tables _ _ _ _ _ _ _ _ Hin) as (t2 & Et & Hm2 & Ed). pose proof (in_store _ _ _ _ _ _ _ _ Hin) as Es.
  assert (fd_ok s0) as Hok0 by by apply fd_ok_store. assert (keeps s s0) as K0 by by eapply keeps_put.
  assert (keeps s0 s1) as K1 by by eapply keeps_installed.
  assert (socks (store s1) !! x = Some ux) as Hx1 by (rewrite Es; cbn; by rewrite lookup_insert_ne).
  assert (keeps s1 s2) as K2 by by eapply keeps_put. assert (keeps s s2) as K by (eapply keeps_trans; [exact K0|by eapply keeps_trans]).
  pose proof (in_range _ _ _ _ _ _ _ _ Hin) as Hr.
  assert (frees 0 (fds t) = r :: frees 0 (fds t2)) as Efr by (rewrite Ed; apply frees_take; [lia|apply Hin|apply Hin|done]).
  exists r, t2. split; [done|]. split; [by rewrite <- Ek|]. split; [|split; [apply Hin|split; [done|]]].
  - split.
    + apply fd_ok_store, Hin.
    + exists other, q, w. by apply K.
    + exists (dequeued us). destruct Hl as [_ A B Hw D]. destruct (queue_pop us l x Hw) as [_ Hpop]. split; try done.
      split; [done|]. cbn. rewrite Es. cbn. rewrite lookup_insert_ne by done. by rewrite lookup_insert_eq.
    + eapply Forall_impl; [exact Hso|]. intros y (? & ? & o & b & v & Hy). split; [done|]. split; [done|]. exists o, b, v. by apply K.
    + cbn. rewrite Et. apply list_lookup_insert_eq. by eapply lookup_lt_Some.
    + rewrite Efr in Ek. injection Ek as _ <-. simpl in Hfree. lia.
  - intros o b v Hh. destruct (kp_socks _ _ K _ _ _ _ Hh) as (u & Hu & ? & ? & ? & ?).
    by eapply (end_new s0 s1 s2 _ t _ _ _ 0 u).
Qed.

(** Accepts in turn, as files [fs]. *)
Fixpoint accepts (server : endpoint) (fs : list Z) (thr : Z) : SM st (list (option Z)) :=
  match fs with
  | [] => mret []
  | f :: fs => r ← syscall_accept (e_me server) (e_fd server) f thr; rs ← accepts server fs thr; mret (r :: rs)
  end.

(** Every connection of [l] is accepted, in order. *)
Definition all_accepted s server (t : fdtable) (fs l : list Z) s2 : Prop :=
  ∀ k r f x, frees 0 (fds t) !! k = Some r → fs !! k = Some f → l !! k = Some x →
    ∀ other q w, holder s x other q w → end_ok s2 (accepted_end server r f x) other q w.

Lemma accepts_spec fs thr : ∀ s server l t,
  serving s server l t → length fs = length l → NoDup fs → Forall (λ f, f ≠ 0 ∧ files s !! f = None) fs →
  swp (accepts server fs thr) s (λ os s2, os = Some <$> take (length l) (frees 0 (fds t)) ∧ (∃ t2, serving s2 server [] t2) ∧
    keeps s s2 ∧ all_accepted s server t fs l s2).
Proof.
  induction fs as [|f fs IH]; intros s server l t Hsv Hlen Hnd Hfr; destruct l as [|x l]; try done; cbn [accepts].
  - apply swp_ret. split; [done|]. split; [by exists t|]. split; [apply keeps_refl|]. by intros k r f x _ E.
  - apply NoDup_cons in Hnd as [Hnin Hnd]. apply Forall_cons in Hfr as ((Hf0 & Hf) & Hfr).
    apply swp_bind. eapply swp_mono; [by apply serving_accept|]. intros o s1 (r & t1 & -> & Ek & Hsv1 & Efl & K1 & Hnew).
    apply swp_bind. eapply swp_mono; [eapply (IH s1 server l t1)|]; try done; [by injection Hlen|..].
    { rewrite Efl. eapply Forall_impl; [apply Forall_and; split; [exact Hfr|apply Forall_forall; intros g Hg; exact Hg]|].
      intros g ((? & ?) & Hg). split; [done|]. rewrite lookup_insert_ne; [done|]. by intros ->. }
    intros os s2 (-> & Hend & K2 & Hall). apply swp_ret. rewrite Ek. split; [done|]. split; [done|]. split; [by eapply keeps_trans|].
    intros [|k] r' f' x' E1 E2 E3 other q w Hh; rewrite Ek in E1; cbn in E1, E2, E3.
    + injection E1 as <-. injection E2 as <-. injection E3 as <-. by apply K2, Hnew.
    + eapply (Hall k); try done. by apply K1.
Qed.

(** The sockets and the server after a connect. *)
Lemma connecting_client s e other q0 w0 u srv us q :
  end_ok s e other q0 w0 → socks (store s) !! e_sock e = Some u → e_sock e ≠ srv →
  end_ok (connecting s (e_sock e) u srv us q) e q q0 w0.
Proof.
  intros [A B C (u' & Hu' & D)] Hu Hne. rewrite Hu in Hu'. injection Hu' as <-. split; [done|done|done|].
  exists (set_peer q u). cbn. rewrite lookup_insert_ne by done. rewrite lookup_insert_eq. by destruct D as (? & _ & ? & ?).
Qed.

Lemma connecting_new s p u srv us q : s_family u = AF_UNIX → q ≠ srv → q ≠ p → holder (connecting s p u srv us q) q p [] 0.
Proof.
  intros Hf Hs Hp. exists (server_side_of u p). cbn. rewrite !lookup_insert_ne by done. rewrite lookup_insert_eq. split_and!; try done. by apply ring_empty.
Qed.

Lemma connecting_others s p u srv us q x o b w :
  holder s x o b w → x ≠ p → x ≠ srv → socks (store s) !! q = None → holder (connecting s p u srv us q) x o b w.
Proof. intros (ux & Hux & Hrest) Hp Hs Hq. exists ux. cbn. rewrite !lookup_insert_ne; [done|congruence..]. Qed.

Lemma connecting_serving s server l t p u us q :
  serving s server l t → listening s (e_sock server) us l → zlen l < s_backlog us → s_family u = AF_UNIX → p ∉ l → q ≠ p → q ≠ 0 →
  socks (store s) !! q = None → (length l < length (frees 0 (fds t)))%nat →
  listening (connecting s p u (e_sock server) us q) (e_sock server) (queued us q) (l ++ [q]) ∧
  serving (connecting s p u (e_sock server) us q) server (l ++ [q]) t.
Proof.
  intros [A (o & b & k & [B1 B2 B3 (us2 & Hus2 & B4)]) _ D E F] [[Hsrv Hus] Hsf Hst Hw Hb] Hroom Huf Hp Hqp Hq Hqf Hfree.
  rewrite Hus in Hus2. injection Hus2 as <-. pose proof (queued_waits us l q Hw ltac:(unfold UNIX_BACKLOG_MAX; lia)) as Hpush. set (s1 := connecting _ _ _ _ _ _).
  assert (listening s1 (e_sock server) (queued us q) (l ++ [q])) as Hl by (split; try done; split; [done|]; cbn; by rewrite lookup_insert_eq).
  split; [done|]. split.
  - by apply fd_ok_store.
  - exists o, b, k. split; [done|done|done|]. exists (queued us q). cbn. by rewrite lookup_insert_eq.
  - by exists (queued us q).
  - apply Forall_app. split.
    + apply Forall_forall. intros x Hx. pose proof (proj1 (Forall_forall _ _) D x Hx) as (? & ? & o' & b' & k' & ?).
      split; [done|]. split; [done|]. exists o', b', k'. apply connecting_others; try done. by intros ->.
    + repeat constructor; [done|congruence|]. exists p, [], 0. by apply connecting_new; [|congruence|].
  - done.
  - rewrite length_app. cbn. lia.
Qed.

(** C21. Local sockets: a connect to a name whose socket listens and has room
    succeeds, puts the new connection after those that wait and wakes a thread
    blocked in accept.  One accept per connection that waits, the new one last,
    then returns the free descriptors of the server, lowest first, and each is
    an end of the connection that waited at that place of the queue, its bytes
    and reader as they were.  The descriptor of the last accept and the client's
    are the two ends of one connection: the queue of the new end is empty, the
    client's is as it was; nothing waits any more.  The connections that waited
    are local sockets, other than the server's, and the server has a free
    descriptor for each. *)
Theorem connect_accept_connected s client server other q0 w0 u path len v us l q t fs f thr :
  serving s server l t → end_ok s client other q0 w0 → socks (store s) !! e_sock client = Some u → len ≠ 0 → namei path = Some v → v ≠ 0 →
  vnode_private (store s) !! v = Some (e_sock server) → listening s (e_sock server) us l →
  zlen l < s_backlog us → e_sock client ≠ e_sock server → q ≠ 0 → socks (store s) !! q = None → e_sock client ∉ l →
  (length l < length (frees 0 (fds t)))%nat → length fs = length l → NoDup (fs ++ [f]) → Forall (λ f, f ≠ 0 ∧ files s !! f = None) (fs ++ [f]) →
  ∃ s1, syscall_connect namei (e_me client) (e_fd client) (Some path) len q s = Ok (0, s1) ∧
    listening s1 (e_sock server) (queued us q) (l ++ [q]) ∧
    (blocked_accept_thread us ≠ 0 → last (woken (store s1)) = Some (blocked_accept_thread us)) ∧
    ∃ s2, accepts server (fs ++ [f]) thr s1 = Ok (Some <$> take (length l + 1) (frees 0 (fds t)), s2) ∧
      all_accepted s server t fs l s2 ∧ (∃ us', listening s2 (e_sock server) us' []) ∧
      ∃ r, frees 0 (fds t) !! length l = Some r ∧
        connected s2 (client, accepted_end server r f q) (mkChan (q0, []) (w0, 0) (woken (store s1))).
Proof.
  intros Hsv Hc Hu Hlen Hn Hv Hvp Hl Hroom Hne Hq Hqf Hcl Hfree Hfs Hnd Hff. set (s1 := connecting s (e_sock client) u (e_sock server) us q).
  destruct (swp_elim _ _ _ (syscall_connect_spec s client other q0 w0 u path len v _ us l q Hc Hu Hlen Hn Hv Hvp Hl Hroom Hne Hq Hqf)) as (r0 & s1' & E1 & -> & ->).
  fold s1 in E1. exists s1. split; [done|]. destruct (eo_sock _ _ _ _ _ Hc) as (u' & Hu' & Huf & _). rewrite Hu in Hu'. injection Hu' as <-.
  assert (q ≠ e_sock client) as Hqc by congruence. assert (q ≠ e_sock server) as Hqs by (destruct Hl as [[_ ?] _ _ _ _]; congruence).
  destruct (connecting_serving s server l t (e_sock client) u us q) as [Hl1 Hsv1]; try done. split; [done|]. split.
  { intros Hz. cbn. destruct (Z.eqb_spec (blocked_accept_thread us) 0); [done|]. by rewrite last_snoc. }
  destruct (swp_elim _ _ _ (accepts_spec (fs ++ [f]) thr s1 server (l ++ [q]) t Hsv1 ltac:(rewrite !length_app; cbn; lia) Hnd Hff)) as
    (os & s2 & E2 & -> & (t2 & Hend) & K & Hall). rewrite length_app in E2. exists s2. split; [done|]. split; [|split; [apply Hend|]].
  - intros k r g x Er Eg Ex o b w Hh. pose proof (list_elem_of_lookup_2 _ _ _ Ex) as Hx.
    pose proof (proj1 (Forall_forall _ _) (sv_socks _ _ _ _ Hsv) x Hx) as (_ & Hxs & _).
    eapply (Hall k); [done|by rewrite lookup_app_l by (by eapply lookup_lt_Some)..|]. apply connecting_others; try done. by intros ->.
  - destruct (lookup_lt_is_Some_2 _ _ Hfree) as (r & Er). exists r. split; [done|]. split; [by apply not_eq_sym| |apply K].
    intros d. destruct d; cbn [sel negb fst snd c_bytes c_thread]; [by apply K, connecting_client with other|].
    apply (Hall (length l) r f q); [done| | |by apply connecting_new].
    + by rewrite lookup_app_r, Hfs, Nat.sub_diag by lia.
    + by rewrite lookup_app_r, Nat.sub_diag by lia.
Qed.
End connect.

(** A server and a client that talk over a name. *)
Module UnixDemo.
#[local] Instance no_files : FileOps ust := {
  op_read _ _ _ x := (0, [], x); op_write _ bs _ x := (zlen bs, x); op_flush _ x := x; op_size _ _ := 0 }.

Definition name : list Z := [47; 120].
Definition plain : list Z := [47; 121].
Definition names (p : list Z) : option Z := if decide (p = name) then Some 50 else if decide (p = plain) then Some 51 else None.

(** Two processes; the second file has a node of its file system. *)
Definition start : st :=
  mkFd [Some new_fdtable; Some new_fdtable] ∅ {[50 := mkVnode 0 VNODE_TYPE_FILE false; 51 := mkVnode 0 VNODE_TYPE_FILE false]}
    (mkUst ∅ ∅ {[51 := 7777]} []) [].
Definition after {A} (m : SM st A) (s : st) : st := match m s with Ok (_, s') => s' | _ => s end.

Lemma after_ok {A} (m : SM st A) s : swp m s (λ _ s', unix_ok s') → unix_ok (after m s).
Proof. unfold swp, after. by destruct (m s) as [[]| |]. Qed.

Lemma begin_ok : unix_ok start.
Proof.
  split; [split|by intros p u E].
  - intros [|[|i]] t E; by simplify_eq/=.
  - by vm_compute.
  - intros p Hp Hr. exfalso. change (0 < occ p (replicate 64 0%Z) + (occ p (replicate 64 0%Z) + 0) + 0)%nat in Hr. rewrite !occ_zeros in Hr by done. lia.
  - done.
  - done.
Qed.

(** Process 0 has a socket that listens at the name, process 1 a socket. *)
Definition named : st := after (syscall_socket 0 AF_UNIX SOCK_STREAM 0 1000 100) start.
Definition bound : st := after (syscall_bind names 0 0 (Some name) 110) named.
Definition ready : st := after (syscall_listen 0 0 5) bound.
Definition prepared : st := after (syscall_socket 1 AF_UNIX (Z.lor SOCK_STREAM SOCK_NONBLOCK) 0 2000 200) ready.

Lemma prepared_ok : unix_ok prepared.
Proof.
  assert (unix_ok named) as H1 by by apply after_ok, syscall_socket_ok; [apply begin_ok|..].
  assert (names_ok names named) as Hn.
  { intros p v. unfold names. repeat case_decide; intros [= <-] _; by eexists. }
  assert (unix_ok bound) as H2 by by apply after_ok, syscall_bind_ok.
  assert (unix_ok ready) as H3 by by apply after_ok, syscall_listen_ok.
  by apply after_ok, syscall_socket_ok; [apply H3|..].
Qed.

Lemma prepared_names : names_ok names prepared.
Proof. intros p v. unfold names. repeat case_decide; intros [= <-] _; by eexists. Qed.

(** A connect to the listening socket, and one to a plain file. *)
Lemma local_socket_calls_typed_witness :
  (∃ r s', do_ucall names (UConnect 1 0 (Some name) 110 3000) prepared = Ok (r, s') ∧ unix_ok s') ∧
  do_ucall names (UConnect 1 0 (Some plain) 110 3000) prepared = Fault.
Proof.
  split.
  - apply (local_socket_calls_typed names prepared (UConnect 1 0 (Some name) 110 3000) prepared_ok prepared_names). intros _. by vm_compute.
  - apply (local_socket_calls_typed names prepared (UConnect 1 0 (Some plain) 110 3000) prepared_ok prepared_names). intros _. by vm_compute.
Defined.

Definition server : endpoint := mkEnd 0 0 100 1000 false.
Definition client : endpoint := mkEnd 1 0 200 2000 true.
Definition sock (s : st) (p : Z) : unix_socket := default (new_socket 0 0 0) (socks (store s) !! p).

(** Facts of a concrete state, by evaluation. *)
Ltac by_eval := vm_compute; repeat split; solve [reflexivity | discriminate | intros ?; discriminate].
Ltac end_by_eval := split;
  [eexists; split; [vm_compute; reflexivity|by_eval]|split; [done|eexists; split; [vm_compute; reflexivity|by vm_compute]]|by_eval|
   eexists; split; [vm_compute; reflexivity|]].

(** Another socket of process 1 is connected and waits. *)
Definition third : st := after (syscall_socket 1 AF_UNIX SOCK_STREAM 0 2100 210) prepared.
Definition busy : st := after (syscall_connect names 1 1 (Some name) 110 2900) third.

Lemma busy_ok : unix_ok busy.
Proof.
  assert (unix_ok third) as H by by apply after_ok, syscall_socket_ok; [apply prepared_ok|..].
  by apply after_ok, syscall_connect_ok.
Qed.

Lemma client_end : end_ok busy client 0 [] 0.
Proof. end_by_eval. split; [done|]. split; [done|]. split; [by apply ring_empty|done]. Qed.

Lemma server_listens : listening busy 1000 (sock busy 1000) [2900].
Proof.
  assert (sock busy 1000 = queued (sock third 1000) 2900) as E by by vm_compute. split; [by_eval|by vm_compute|by vm_compute| |by vm_compute].
  rewrite E. assert (waits (sock third 1000) []) as W by (apply waits_none; by vm_compute).
  clear E. revert W. generalize (sock third 1000). intros u W. by apply (queued_waits u []).
Qed.

Definition server_table : fdtable := mkTable 64 (100 :: replicate 63 0) (replicate 64 0) 1.

Lemma server_serves : serving busy server [2900] server_table.
Proof.
  split.
  - apply busy_ok.
  - exists 0, [], 0. end_by_eval. split; [done|]. split; [done|]. split; [by apply ring_empty|done].
  - exists (sock busy 1000). exact server_listens.
  - repeat constructor; [done|done|]. exists 2100, [], 0. eexists. split; [vm_compute; reflexivity|]. split; [done|]. split; [done|]. split; [by apply ring_empty|done].
  - by vm_compute.
  - vm_compute. lia.
Qed.

Lemma connect_accept_connected_witness :
  serving busy server [2900] server_table ∧ ∃ s1, syscall_connect names 1 0 (Some name) 110 3000 busy = Ok (0, s1) ∧
    listening s1 1000 (queued (sock busy 1000) 3000) [2900; 3000] ∧
    (blocked_accept_thread (sock busy 1000) ≠ 0 → last (woken (store s1)) = Some (blocked_accept_thread (sock busy 1000))) ∧
    ∃ s2, accepts server [290; 300] 7 s1 = Ok ([Some 1; Some 2], s2) ∧
      all_accepted busy server server_table [290] [2900] s2 ∧ (∃ us', listening s2 1000 us' []) ∧
      ∃ r, frees 0 (fds server_table) !! 1%nat = Some r ∧
        connected s2 (client, accepted_end server r 300 3000) (mkChan ([], []) (0, 0) (woken (store s1))).
Proof.
  split; [exact server_serves|].
  apply (connect_accept_connected names busy client server 0 [] 0 (sock busy 2000) name 110 50 (sock busy 1000) [2900] 3000 server_table [290] 300 7);
    try by vm_compute.
  - exact server_serves.
  - exact client_end.
  - exact server_listens.
  - vm_compute. by intros ?%list_elem_of_singleton.
  - vm_compute. lia.
  - apply NoDup_cons. split; [by intros ?%list_elem_of_singleton|apply NoDup_singleton].
  - repeat constructor; done.
Defined.

(** The connection made. *)
Definition joined : st := after (syscall_accept 0 0 300 7) (after (syscall_connect names 1 0 (Some name) 110 3000) prepared).
Definition ends : endpoint * endpoint := (client, mkEnd 0 1 300 3000 false).

Lemma joined_connected : connected joined ends (mkChan ([], []) (0, 0) []).
Proof.
  split; [done| |by vm_compute]. intros d. destruct d; end_by_eval; split; [done|split; [done|split; [by apply ring_empty|done]]|done|].
  split; [done|]. split; [by apply ring_empty|done].
Qed.

(** A reader that waits is woken by the bytes it then gets. *)
Definition talk : list sop := [Recv false 10 9; Recv true 10 8; Send true [1; 2; 3] 3; RecvOn false 2 9; Send false [4] 1; Recv true 10 8; Recv false 10 9].

Lemma connection_refines_queues_witness :
  (chan_run (true, false) talk (mkChan ([], []) (0, 0) [])).1 =
    [None; Some (- EAGAIN, []); Some (3, []); Some (2, [1; 2]); Some (1, []); Some (1, [4]); Some (1, [3])] ∧
  let '(rs, c') := chan_run (true, false) talk (mkChan ([], []) (0, 0) []) in
  ∃ s', run_ucalls names (sop_call ends <$> talk) joined = Ok (rs, s') ∧ connected s' ends c' ∧
    ∀ d, sel d ([], []) ++ stream (put_in (negb d)) talk rs = stream (got_out d) talk rs ++ sel d (c_bytes c').
Proof.
  split; [by vm_compute|]. apply (connection_refines_queues names joined ends (mkChan ([], []) (0, 0) []) talk); [exact joined_connected|].
  repeat constructor; done.
Defined.
End UnixDemo.
