(* ===== verification/Mmap.v ===== *)
(** * Mapping user memory

    [kernel/sys/syscall/mmap.c] and [mprotect.c]: the calls that put the
    virtual memory areas, the frame allocator, the page tables and, for a
    private mapping of a file, the descriptors together.

    The state is that of the areas, of the machine and of the descriptors.
    Writes to user memory go through the page tables the processor uses, byte
    by byte; an address without a translation faults. *)

From S2P Require Import Prelude StateM Spinlock Pmm Frames Paging PagingMap Rbt Fd Vma.

Open Scope sm_scope.

Definition MAP_PRIVATE : Z := 0x02.
Definition MAP_FIXED : Z := 0x10.
Definition MAP_ANONYMOUS : Z := 0x20.
Definition PROT_NONE : Z := 0.
Definition PROT_READ : Z := 1.
Definition PROT_WRITE : Z := 2.
Definition PROT_EXEC : Z := 4.
Definition ENOENT : Z := 2.

Section mmap.
Context {S St : Type} `{!FrameSource S} `{!FileOps St} (NIL : Z).

Record mms := mkMms { m_vm : vms; m_mach : machine S; m_fd : fdst St }.

Definition on_vm {A} (f : SM vms A) : SM mms A := fun s =>
  match f (m_vm s) with
  | Ok (a, v) => Ok (a, mkMms v (m_mach s) (m_fd s))
  | Fault => Fault
  | NoFuel => NoFuel
  end.
Definition on_fd {A} (f : SM (fdst St) A) : SM mms A := fun s =>
  match f (m_fd s) with
  | Ok (a, x) => Ok (a, mkMms (m_vm s) (m_mach s) x)
  | Fault => Fault
  | NoFuel => NoFuel
  end.
Definition on_mach {A} (f : machine S → res (A * machine S)) : SM mms A := fun s =>
  match f (m_mach s) with
  | Ok (a, m) => Ok (a, mkMms (m_vm s) m (m_fd s))
  | Fault => Fault
  | NoFuel => NoFuel
  end.
Definition run_mach (f : machine S → res (machine S)) : SM mms () :=
  on_mach (λ m, m ← f m; Ok ((), m)).

(** ** User memory *)

(** Byte [i] of a word. *)
Definition put_byte (w i b : Z) : Z := Z.lor (Z.ldiff w (Z.shiftl 255 (8 * i))) (Z.shiftl b (8 * i)).

Definition user_store (m : machine S) (va b : Z) : res (machine S) :=
  let p := xl 3 (mram m) (cr3 m) va in
  if p =? 0 then Fault
  else
    let f := p - p mod 0x1000 in
    let w := p mod 0x1000 / 8 in
    x ← aget (frame (mram m) f) w;
    l ← aset (frame (mram m) f) w (put_byte x (p mod 8) b);
    Ok (set_ram m (<[f := l]> (mram m))).

(** [memset] and [memcopy] to user addresses. *)
Fixpoint user_fill (n : nat) (m : machine S) (va b : Z) : res (machine S) :=
  match n with
  | O => Ok m
  | Datatypes.S n => m ← user_store m va b; user_fill n m (u64 (va + 1)) b
  end.
Fixpoint user_copy (bs : list Z) (m : machine S) (va : Z) : res (machine S) :=
  match bs with
  | [] => Ok m
  | b :: bs => m ← user_store m va b; user_copy bs m (u64 (va + 1))
  end.

(** ** mmap *)

Definition mmap_prot_to_flags (prot : Z) : Z :=
  if prot =? PROT_NONE then 0
  else
    let flags := PAGE_USER in
    let flags := if has prot (Z.lor (Z.lor PROT_READ PROT_WRITE) PROT_EXEC) then Z.lor flags PAGE_PRESENT else flags in
    let flags := if has prot PROT_WRITE then Z.lor flags PAGE_WRITABLE else flags in
    if negb (has prot PROT_EXEC) then Z.lor flags PAGE_NO_EXECUTE else flags.

(** [turns], [fuel]: the rounds of the search for a place and the steps down
    the tree of areas. *)
Definition mmap_resolve_virt_addr (turns fuel : nat) (addr fl vm_page len_4kb : Z) : SM vms Z :=
  if has fl MAP_FIXED then mret (if addr =? 0 then 0 else addr)
  else vma_lookup_free_vaddr NIL turns fuel vm_page USER_MMAP_BASE len_4kb.

(** [phys_base_alloc]. *)
Definition alloc_phys (n : Z) (m : machine S) : res (Z * machine S) :=
  r ← fs_alloc (msrc m) n; let '(f, x) := r in Ok (f, set_src m x).

(** [(mmap_flags & required) != required]. *)
Definition not_writable (mmap_flags : Z) : bool :=
  let required := Z.lor PAGE_PRESENT PAGE_WRITABLE in negb (Z.land mmap_flags required =? required).

(** [vm_page], [page]: of the process. *)
Definition mmap_handle_anonymous (turns fuel : nat) (vm_page page addr fl len_4kb mmap_flags : Z) (keep_writable : bool) : SM mms Z :=
  virt_addr ← on_vm (mmap_resolve_virt_addr turns fuel addr fl vm_page len_4kb);
  if virt_addr =? 0 then mret (u64 (- (if has fl MAP_FIXED then EINVAL else ENOMEM)))
  else
    phys ← on_mach (alloc_phys len_4kb);
    if phys =? 0 then mret (u64 (- ENOMEM))
    else
      let temp_flags := Z.lor (Z.lor (Z.lor PAGE_PRESENT PAGE_WRITABLE) PAGE_USER) PAGE_NO_EXECUTE in
      run_mach (λ m, paging_multiple_mmap m page virt_addr phys len_4kb temp_flags) ;;
      on_vm (vma_register NIL fuel vm_page phys virt_addr (u64 (len_4kb * BLOCK_SIZE)) mmap_flags) ;;
      run_mach (λ m, Ok (paging_reload m page)) ;;
      run_mach (λ m, user_fill (Z.to_nat (u64 (len_4kb * BLOCK_SIZE))) m virt_addr 0) ;;
      sm_when (negb keep_writable && not_writable mmap_flags)
        (run_mach (λ m, paging_multiple_mmap m page virt_addr phys len_4kb mmap_flags) ;;
         run_mach (λ m, Ok (paging_reload m page))) ;;
      mret virt_addr.

Definition max_chunk : Z := 16384.

(** The loop that copies the file, [turns] rounds at most. *)
Fixpoint copy_file (turns : nat) (v : vnode) (virt_addr len off read_total : Z) : SM mms () :=
  match turns with
  | O => fun _ => NoFuel
  | Datatypes.S turns =>
      if read_total <? len then
        let chunk := if max_chunk <? len - read_total then max_chunk else len - read_total in
        r ← on_fd (fun s => let '(r, bs, x) := op_read v chunk (u64 (u64 off + read_total)) (store s) in Ok ((r, bs), set_store x s));
        if r.1 <=? 0 then mret ()
        else
          run_mach (λ m, user_copy r.2 m (u64 (virt_addr + read_total))) ;;
          copy_file turns v virt_addr len off (u64 (read_total + r.1))
      else mret ()
  end.

(** The final protection, page by page. *)
Fixpoint protect_loop (count : nat) (page virt_addr pg mmap_flags : Z) : SM mms () :=
  match count with
  | O => mret ()
  | Datatypes.S count =>
      let v := u64 (virt_addr + u64 (pg * BLOCK_SIZE)) in
      p ← on_mach (λ m, vaddr_to_paddr m page v);
      sm_when (negb (p =? 0)) (run_mach (λ m, paging_mmap m page v p mmap_flags)) ;;
      protect_loop count page virt_addr (pg + 1) mmap_flags
  end.

(** The file behind a descriptor that can be read. *)
Definition readable_file (me : nat) (fd : Z) : SM (fdst St) (option vnode) :=
  o ← table_of me;
  match o with
  | None => sm_lift Fault
  | Some t =>
      if s32 (max_fds t) <=? fd then mret None
      else
        f ← slot t fd;
        if f =? 0 then mret None
        else
          x ← file_at f;
          match ops x with
          | None => mret None
          | Some o =>
              if (vnode_ptr x =? 0) || negb (has_read o) then mret None
              else v ← vnode_at (vnode_ptr x); mret (Some v)
          end
  end.

(** The process of the running thread: its descriptors, areas and page tables. *)
Record process := mkProc { p_me : nat; p_vm_page : Z; p_page : Z }.

(** [kbuf]: [kalloc] returns a buffer. *)
Definition mmap_process (turns fuel chunks : nat) (proc : process) (kbuf : bool) (addr len prot fl fd off : Z) : SM mms Z :=
  let '(mkProc me vm_page page) := proc in
  if len =? 0 then mret (u64 (- EINVAL))
  else
    let len_4kb := ALIGN_UP len BLOCK_SIZE / BLOCK_SIZE in
    let mmap_flags := mmap_prot_to_flags prot in
    if has fl MAP_ANONYMOUS then mmap_handle_anonymous turns fuel vm_page page addr fl len_4kb mmap_flags false
    else if has fl MAP_PRIVATE then
      let need_file := 0 <=? fd in
      virt_addr ← mmap_handle_anonymous turns fuel vm_page page addr fl len_4kb mmap_flags need_file;
      if 0xFFFFFFFFFFFFF000 <? virt_addr then mret virt_addr
      else if negb need_file then mret virt_addr
      else
        o ← on_fd (readable_file me fd);
        match o with
        | None => mret virt_addr
        | Some v =>
            sm_when kbuf (copy_file chunks v virt_addr len off 0) ;;
            sm_when (not_writable mmap_flags)
              (protect_loop (Z.to_nat len_4kb) page virt_addr 0 mmap_flags ;; run_mach (λ m, Ok (paging_reload m page))) ;;
            mret virt_addr
        end
    else mret (u64 (- ENOSPC)).

(** [thr]: the process of the running thread; [None] without a thread,
    [Some None] for a thread of no process. *)
Definition syscall_mmap (turns fuel chunks : nat) (thr : option (option process)) (kbuf : bool) (addr len prot fl fd off : Z) : SM mms Z :=
  match thr with
  | Some (Some proc) => mmap_process turns fuel chunks proc kbuf addr len prot fl fd off
  | _ => mret (u64 (- ENOENT))
  end.

(** ** mprotect *)

Definition mprotect_flags (prot : Z) : Z :=
  if prot =? 0 then 0
  else
    let flags := PAGE_USER in
    let flags := if has prot PROT_READ then Z.lor flags PAGE_PRESENT else flags in
    let flags := if has prot PROT_WRITE then Z.lor flags PAGE_WRITABLE else flags in
    let flags := if negb (has prot PROT_EXEC) then Z.lor flags PAGE_NO_EXECUTE else flags in
    if has prot (Z.lor (Z.lor PROT_READ PROT_WRITE) PROT_EXEC) then Z.lor flags PAGE_PRESENT else flags.

(** The frame address for a page: its translation, else that of its area. *)
Definition page_phys (fuel : nat) (vm_page page curr_vaddr : Z) : SM mms Z :=
  phys ← on_mach (λ m, vaddr_to_paddr m page curr_vaddr);
  if (phys =? 0) && negb (curr_vaddr =? 0) then
    mm ← on_vm (vma_find_contains NIL fuel vm_page curr_vaddr);
    if negb (mm =? 0) then
      a ← on_vm (area_at mm); mret (u64 (phys_address a + u64 (curr_vaddr - start_address a)))
    else mret phys
  else mret phys.

Definition mprotect_page (fuel : nat) (vm_page page curr_vaddr mmap_flags : Z) : SM mms () :=
  phys ← page_phys fuel vm_page page curr_vaddr;
  sm_when (negb (phys =? 0) || (curr_vaddr =? 0))
    (old_entry ← on_mach (λ m, paging_get_entry m page curr_vaddr);
     let new_flags :=
       if has old_entry PAGE_COW then Z.land (Z.lor mmap_flags PAGE_COW) (not64 PAGE_WRITABLE) else mmap_flags in
     run_mach (λ m, paging_mmap m page curr_vaddr phys new_flags)).

Fixpoint mprotect_loop (count fuel : nat) (vm_page page addr_4kb i mmap_flags : Z) : SM mms () :=
  match count with
  | O => mret ()
  | Datatypes.S count =>
      mprotect_page fuel vm_page page (u64 (addr_4kb + u64 (i * 0x1000))) mmap_flags ;;
      mprotect_loop count fuel vm_page page addr_4kb (i + 1) mmap_flags
  end.

Definition mprotect_process (fuel : nat) (vm_page page addr len prot : Z) : SM mms Z :=
  let mmap_flags := mprotect_flags prot in
  let addr_4kb := ALIGN_DOWN addr 0x1000 in
  let len_4kb := ALIGN_UP len 0x1000 / 0x1000 in
  mprotect_loop (Z.to_nat len_4kb) fuel vm_page page addr_4kb 0 mmap_flags ;;
  run_mach (λ m, Ok (paging_reload m page)) ;;
  mm ← on_vm (vma_find_contains NIL fuel vm_page addr);
  sm_when (negb (mm =? 0))
    (a ← on_vm (area_at mm);
     on_vm (put_area mm (mkVma (start_address a) (end_address a) (phys_address a) (vm_length a) mmap_flags (core a)))) ;;
  mret 0.

(** The thread is read before it is tested. *)
Definition syscall_mprotect (fuel : nat) (thr : option (option process)) (addr len prot : Z) : SM mms Z :=
  match thr with
  | None => sm_lift Fault
  | Some None => mret (-1)
  | Some (Some proc) => mprotect_process fuel (p_vm_page proc) (p_page proc) addr len prot
  end.
End mmap.
