(* ===== verification/MmapThm.v ===== *)
(** * Mapping user memory: what a process gets

    Anonymous [mmap] composed from the promises of the areas, the frame
    allocator and the page tables: a range in no area, backed by fresh frames
    filled with zeros, and nothing else changed. *)

From S2P Require Import Prelude Bitmap StateM Spinlock Fd Rbt RbtTree RbtInv RbtInsert RbtThm Pmm Frames Paging PagingWin PagingMap PagingOps PagingThm Vma VmaOps VmaFind VmaMap VmaThm Mmap.

Open Scope sm_scope.

(** ** Filling user memory *)

Lemma put_zero_bits w i n :
  0 ≤ i → 0 ≤ n → Z.testbit (put_byte w i 0) n = if decide (n / 8 = i) then false else Z.testbit w n.
Proof.
  intros Hi Hn. unfold put_byte. rewrite Z.shiftl_0_l, Z.lor_0_r, Z.ldiff_spec, Z.shiftl_spec by lia.
  change 255 with (Z.ones 8). case_decide as E.
  - rewrite Z.ones_spec_low by dlia. by rewrite andb_false_r.
  - assert (Z.testbit (Z.ones 8) (n - 8 * i) = false) as ->; [|by rewrite andb_true_r].
    destruct (decide (n < 8 * i)); [by rewrite Z.testbit_neg_r by lia|]. apply Z.ones_spec_high. dlia.
Qed.

Lemma put_zero_range w i : 0 ≤ i → 0 ≤ w < 2 ^ 64 → 0 ≤ put_byte w i 0 < 2 ^ 64.
Proof.
  intros Hi Hw. assert (put_byte w i 0 = put_byte w i 0 mod 2 ^ 64) as ->; [|by apply Z.mod_pos_bound].
  apply Z.bits_inj'. intros n Hn. destruct (decide (n < 64)); [by rewrite Z.mod_pow2_bits_low by lia|].
  rewrite Z.mod_pow2_bits_high by lia. rewrite put_zero_bits by lia. case_decide; [done|]. by apply (testbit_small _ 64); [|lia].
Qed.

(** One byte of a frame cleared. *)
Lemma clear_byte l o :
  words 64 l → length l = 512%nat → 0 ≤ o < 4096 →
  let l' := <[Z.to_nat (o / 8) := put_byte (at_ l (o / 8)) (o mod 8) 0]> l in
  aset l (o / 8) (put_byte (at_ l (o / 8)) (o mod 8) 0) = Ok l' ∧ words 64 l' ∧ length l' = 512%nat ∧
  ∀ j, 0 ≤ j → bit 64 l' j = if decide (j / 8 = o) then false else bit 64 l j.
Proof.
  intros Hw Hl Ho l'. assert (0 ≤ o / 8 < 512 ∧ 0 ≤ o mod 8 < 8) as [Hd Hm] by dlia. rewrite aset_ok by lia. split; [done|].
  split; [|split; [unfold l'; by rewrite length_insert|]].
  - apply words_insert; [done|]. apply put_zero_range; [lia|]. apply at_words; [done|lia].
  - intros j Hj. unfold bit, l'. rewrite at_insert by dlia. case_decide as E.
    + rewrite put_zero_bits by dlia. rewrite E. repeat case_decide; done || dlia.
    + rewrite decide_False; [done|]. intros <-. apply E. dlia.
Qed.

(** The frame of a physical address. *)
Definition frame_of (x : Z) : Z := x - x mod 0x1000.

Section fill.
Context {S : Type} `{!FrameSource S} (own : gmap Z (nat * Z)) (root : Z).
Implicit Types m : machine S.

(** The bytes [p .. p+n) are in frames that are no tables. *)
Definition data_bytes m (p n : Z) : Prop :=
  0 < p ∧ ∀ x, p ≤ x < p + n → own !! frame_of x = None ∧ frame_of x ≠ physwindow_pt_phys m ∧ words 64 (frame (mram m) (frame_of x)).

(** [r'] is the memory of [m] with these bytes cleared. *)
Record cleared m (p n : Z) (r' : ram) : Prop := mkCleared {
  cl_other g : (∀ x, p ≤ x < p + n → frame_of x ≠ g) → frame r' g = frame (mram m) g;
  cl_words x : p ≤ x < p + n → words 64 (frame r' (frame_of x));
  cl_bits g j : 0 ≤ j < 32768 → g mod 0x1000 = 0 →
    bit 64 (frame r' g) j = if decide (p ≤ g + j / 8 < p + n) then false else bit 64 (frame (mram m) g) j }.

(** Writing frames outside the tree leaves the translation. *)
Lemma walk_kept w m r' va :
  tables own m root → (∀ g, is_Some (own !! g) → g ≠ physwindow_pt_phys m → frame r' g = frame (mram m) g) → vpn 1 va ≠ window_vpn →
  walk w 3 r' root va = walk w 3 (mram m) root va.
Proof.
  intros Ht Hr Hw. pose proof (tb_pt _ _ _ Ht) as Hpt. apply (walk_ext own (mram m) (physwindow_pt_phys m) root w Hpt).
  - rewrite (po_root _ _ _ _ Hpt). by rewrite vpn_top.
  - intros g k Hk Hg. apply Hr; [by eexists|]. by eapply (label_not_window own (mram m)).
Qed.

Lemma store_zero m va p :
  tables own m root → cr3 m = root → xl 3 (mram m) root va = p → data_bytes m p 1 →
  ∃ r', user_store m va 0 = Ok (set_ram m r') ∧ tables own (set_ram m r') root ∧ cleared m p 1 r'.
Proof.
  intros Ht Hc Hx [Hp Hd]. destruct (Hd p ltac:(lia)) as (Hown & Hpt & Hwd). unfold user_store. rewrite Hc, Hx.
  destruct (Z.eqb_spec p 0); [lia|]. fold (frame_of p). set (l := frame (mram m) (frame_of p)) in *.
  destruct (clear_byte l (p mod 0x1000) Hwd (tb_len _ _ _ Ht _)) as (E & Hw' & Hl' & Hb); [dlia|].
  replace (p mod 8) with ((p mod 0x1000) mod 8) by dlia.
  pose proof (tb_len _ _ _ Ht (frame_of p)) as Hl. fold l in Hl. rewrite aget_ok by dlia. rewrite bind_Ok, E, bind_Ok.
  set (l' := <[_ := _]> l) in *. eexists. split; [done|]. split.
  - by apply (tables_upd_fresh own m root (frame_of p) l').
  - split.
    + intros g Hg. rewrite frame_insert, decide_False; [done|]. apply Hg. lia.
    + intros x Hx'. replace x with p by lia. by rewrite frame_insert, decide_True.
    + intros g j Hj Hg. rewrite frame_insert. destruct (decide (frame_of p = g)) as [<-|Hne].
      * rewrite Hb by lia. fold l. unfold frame_of in *. repeat case_decide; done || dlia.
      * rewrite decide_False; [done|]. intros Hin. apply Hne. unfold frame_of. dlia.
Qed.

Lemma cleared_step m p n r1 r2 :
  0 ≤ n → data_bytes m p (n + 1) → cleared m p 1 r1 → cleared (set_ram m r1) (p + 1) n r2 → cleared m p (n + 1) r2.
Proof.
  intros Hn [Hp Hd] [A1 A2 A3] [B1 B2 B3]. cbn [mram set_ram] in *. split.
  - intros g Hg. rewrite B1, A1; [done| |]; intros x Hx; apply Hg; lia.
  - intros x Hx. destruct (decide (x = p)) as [->|]; [|apply B2; lia].
    destruct (decide (0 < n ∧ frame_of (p + 1) = frame_of p)) as [[Hn0 <-]|Hno]; [apply B2; lia|].
    rewrite B1; [apply A2; lia|]. intros y Hy E. apply Hno. split; [lia|]. unfold frame_of in *. dlia.
  - intros g j Hj Hg. rewrite B3, A3 by done. repeat case_decide; done || lia.
Qed.

Lemma user_fill_spec n : ∀ m va p,
  tables own m root → cr3 m = root → 0 ≤ va → va + Z.of_nat n ≤ 2 ^ 47 →
  (∀ j, 0 ≤ j < Z.of_nat n → xl 3 (mram m) root (va + j) = p + j) → data_bytes m p (Z.of_nat n) →
  ∃ r', user_fill n m va 0 = Ok (set_ram m r') ∧ tables own (set_ram m r') root ∧ cleared m p (Z.of_nat n) r'.
Proof.
  induction n as [|n IH]; intros m va p Ht Hc Hva Hend Hx Hd; cbn [user_fill].
  { exists (mram m). assert (set_ram m (mram m) = m) as -> by by destruct m. split; [done|]. split; [done|].
    split; [done|lia|]. intros g j _ _. by rewrite decide_False by lia. }
  destruct (store_zero m va p Ht Hc) as (r1 & E1 & Ht1 & C1).
  { specialize (Hx 0 ltac:(lia)). by rewrite !Z.add_0_r in Hx. }
  { destruct Hd as [Hp Hd]. split; [done|]. intros x Hx'. apply Hd. lia. }
  rewrite E1, bind_Ok. assert (u64 (va + 1) = va + 1) as -> by (apply Z.mod_small; lia).
  destruct (IH (set_ram m r1) (va + 1) (p + 1)) as (r2 & E2 & Ht2 & C2); try done; try lia.
  - intros j Hj. cbn [mram set_ram]. unfold xl. rewrite (walk_kept entry_paddr m r1); [fold xl|done| |].
    + rewrite <- Z.add_assoc, Hx by lia. lia.
    + intros g [y Hg] Hp. apply (cl_other _ _ _ _ C1). intros x Hx' <-. destruct (proj2 Hd x) as (Hn & _); [lia|]. congruence.
    + apply user_not_window. rewrite Z.mod_small by lia. lia.
  - destruct Hd as [Hp Hd]. split; [lia|]. intros x Hx'. destruct (Hd x) as (Ho & Hq & Hwd); [lia|]. split; [done|]. split; [done|].
    destruct (decide (frame_of x = frame_of p)) as [Ex|Hne]; cbn [mram set_ram].
    + rewrite Ex. apply (cl_words _ _ _ _ C1). lia.
    + rewrite (cl_other _ _ _ _ C1); [done|]. intros y Hy. replace y with p by lia. by apply not_eq_sym.
  - exists r2. split; [done|]. split; [done|]. replace (Z.of_nat (Datatypes.S n)) with (Z.of_nat n + 1) in * by lia.
    eapply cleared_step; [lia|done|done|done].
Qed.

Lemma bit_zero_frame j : 0 ≤ j < 32768 → bit 64 zero_frame j = false.
Proof.
  intros Hj. unfold bit, zero_frame, at_. rewrite lookup_total_replicate_2 by dlia. apply Z.testbit_0_l.
Qed.

(** Whole frames cleared are zero. *)
Lemma cleared_frame m p n r' i :
  tables own (set_ram m r') root → cleared m p (n * 0x1000) r' → p mod 0x1000 = 0 → 0 ≤ i < n →
  frame r' (p + i * 0x1000) = zero_frame.
Proof.
  intros Ht [_ B C] Hp Hi. pose proof (tb_len _ _ _ Ht (p + i * 0x1000)) as Hl. cbn [mram set_ram] in Hl.
  assert (frame_of (p + i * 0x1000) = p + i * 0x1000) as Ef by (unfold frame_of; dlia).
  apply (bit_ext 64 ltac:(lia)); [by rewrite Hl| | |].
  - rewrite <- Ef. apply B. lia.
  - unfold words, zero_frame. by apply Forall_replicate.
  - intros j Hj. rewrite Hl in Hj. rewrite C by dlia. rewrite bit_zero_frame by lia. rewrite decide_True; [done|dlia].
Qed.
End fill.

(** ** Backing a range with fresh frames *)

Section back.
Context {S : Type} `{!FrameSource S} (page : Z).
Implicit Types m : machine S.

Lemma tables_src own m x :
  tables own m page → fs_ok x → (∀ f, fs_used (msrc m) f → fs_used x f) → tables own (set_src m x) page.
Proof. intros [[] ? ? ? ? ?] Hx Hu. split; cbn; auto. by split. Qed.

Lemma tables_reload own m : tables own m page → tables own (paging_reload m page) page.
Proof. intros [[] ? ? ? ? ?]. split; [by split|done..]. Qed.

(** The frames [f], [f + 4096], ... are in use and no tables. *)
Definition data_frames (own : gmap Z (nat * Z)) m (f n : Z) : Prop :=
  ∀ i, 0 ≤ i < n → fs_used (msrc m) (f + i * 0x1000) ∧ own !! (f + i * 0x1000) = None ∧ f + i * 0x1000 ≠ physwindow_pt_phys m.

Lemma frame_of_range f n x : f mod 0x1000 = 0 → f ≤ x < f + n * 0x1000 → ∃ i, 0 ≤ i < n ∧ frame_of x = f + i * 0x1000.
Proof. intros Hf Hx. exists ((x - f) / 0x1000). unfold frame_of. split; dlia. Qed.

(** A user range of [n] pages and [n] frames. *)
Record user_range (r f n : Z) : Prop := mkUserRange {
  ur_start : 0 ≤ r ∧ r mod 0x1000 = 0;
  ur_pages : 0 < n < 2 ^ 40;
  ur_end : r + n * 0x1000 ≤ 2 ^ 47;
  ur_frames : 0 < f ∧ f mod 0x1000 = 0 ∧ f + n * 0x1000 ≤ 2 ^ 52 }.

Definition small_pages (flags : Z) : Prop := 0 ≤ flags < 2 ^ 64 ∧ has flags PAGE_1GB = false ∧ has flags PAGE_2MB = false.

(** Mapping the range with any flags. *)
Lemma map_range own m r f n flags :
  tables own m page → (5 ≤ nfree (windows m))%nat → 3 * n ≤ fs_avail (msrc m) → user_range r f n → small_pages flags →
  ∃ own' m', paging_multiple_mmap m page r f n flags = Ok m' ∧ tables own' m' page ∧ kept own m own' m' ∧
    nfree (windows m') = nfree (windows m) ∧ fs_avail (msrc m) - 3 * n ≤ fs_avail (msrc m') ∧
    (∀ va, 0 ≤ va < 2 ^ 47 → xl 3 (mram m') page va =
      if decide (r ≤ va < r + n * 0x1000) then (if has flags 1 then f + (va - r) else 0) else xl 3 (mram m) page va) ∧
    ∀ va, 0 ≤ va < 2 ^ 47 → xa 3 (mram m') page va =
      if decide (r ≤ va < r + n * 0x1000) then granted flags else xa 3 (mram m) page va.
Proof.
  intros Ht Hn Hav [Hs Hp He Hf] (Hfl & H1 & H2).
  destruct (range_pages own m page r f n flags) as (own' & m' & E & Ht' & Hk & Hn' & Hav' & Hxl & Hxa); try done; [lia| |].
  - intros _. split; [lia| | |right; lia].
    + rewrite Z.mod_small by lia. lia.
    + intros x Hx. rewrite (Z.mod_small r) in Hx by lia. apply user_not_window. lia.
  - exists own', m'. split_and!; try done; intros va Hva.
    + rewrite Hxl by (apply user_not_window; rewrite Z.mod_small by lia; lia). rewrite !Z.mod_small by lia.
      unfold range_addr. repeat case_decide; done || lia.
    + rewrite Hxa by (apply user_not_window; rewrite Z.mod_small by lia; lia). rewrite !Z.mod_small by lia.
      repeat case_decide; done || lia.
Qed.

Definition temp_flags : Z := Z.lor (Z.lor (Z.lor PAGE_PRESENT PAGE_WRITABLE) PAGE_USER) PAGE_NO_EXECUTE.

(** The range mapped and filled with zeros. *)
Lemma map_zeros own m r f n :
  tables own m page → (5 ≤ nfree (windows m))%nat → 3 * n ≤ fs_avail (msrc m) → user_range r f n →
  data_frames own m f n → (∀ i, 0 ≤ i < n → words 64 (frame (mram m) (f + i * 0x1000))) →
  ∃ own' m1 m', paging_multiple_mmap m page r f n temp_flags = Ok m1 ∧
    user_fill (Z.to_nat (n * 0x1000)) (paging_reload m1 page) r 0 = Ok m' ∧ tables own' m' page ∧ data_frames own' m' f n ∧
    nfree (windows m') = nfree (windows m) ∧ fs_avail (msrc m) - 3 * n ≤ fs_avail (msrc m') ∧
    (∀ g, fs_used (msrc m) g → fs_used (msrc m') g) ∧
    (∀ i, 0 ≤ i < n → frame (mram m') (f + i * 0x1000) = zero_frame) ∧
    (∀ g, fs_used (msrc m) g → own !! g = None → g ≠ physwindow_pt_phys m → (∀ i, 0 ≤ i < n → g ≠ f + i * 0x1000) →
      own' !! g = None ∧ g ≠ physwindow_pt_phys m' ∧ frame (mram m') g = frame (mram m) g) ∧
    (∀ va, 0 ≤ va < 2 ^ 47 → xl 3 (mram m') page va =
      if decide (r ≤ va < r + n * 0x1000) then f + (va - r) else xl 3 (mram m) page va) ∧
    ∀ va, 0 ≤ va < 2 ^ 47 → xa 3 (mram m') page va =
      if decide (r ≤ va < r + n * 0x1000) then granted temp_flags else xa 3 (mram m) page va.
Proof.
  intros Ht Hn Hav Hur Hdf Hwd. destruct (map_range own m r f n temp_flags Ht Hn Hav Hur) as (own' & m1 & E1 & Ht1 & Hk & Hn1 & Hav1 & Hx1 & Ha1); [by vm_compute|].
  pose proof Hur as [Hs Hp He Hf]. set (m2 := paging_reload m1 page). pose proof (tables_reload own' m1 Ht1) as Ht2. fold m2 in Ht2.
  assert (∀ g, g ≠ physwindow_pt_phys m → g ≠ physwindow_pt_phys m2) as Hpt by (intros g; cbn; by rewrite (sc_pt _ _ (kp_config _ _ _ _ Hk))).
  destruct (user_fill_spec own' page (Z.to_nat (n * 0x1000)) m2 r f) as (r' & E2 & Ht' & Hcl); rewrite ?Z2Nat.id by lia; try done; try lia.
  - intros j Hj. cbn [mram m2]. rewrite Hx1 by lia. rewrite decide_True by lia. change (has temp_flags 1) with true. cbv iota. lia.
  - split; [lia|]. intros x Hx. destruct (frame_of_range f n x) as (i & Hi & ->); [lia|lia|]. destruct (Hdf i Hi) as (A & B & C).
    split; [by eapply kept_out|]. split; [by apply Hpt|]. change (mram m2) with (mram m1). rewrite (kp_frames _ _ _ _ Hk) by done. by apply Hwd.
  - rewrite Z2Nat.id in Hcl by lia. exists own', m1, (set_ram m2 r'). split; [done|]. split; [exact E2|]. split; [exact Ht'|].
    assert (∀ g, fs_used (msrc m) g → own !! g = None → g ≠ physwindow_pt_phys m → own' !! g = None ∧ g ≠ physwindow_pt_phys (set_ram m2 r')) as Hout.
    { intros g A B C. split; [by eapply kept_out|by apply Hpt]. }
    assert (∀ w va, 0 ≤ va < 2 ^ 47 → walk w 3 r' page va = walk w 3 (mram m1) page va) as Hwk.
    { intros w va Hva. apply (walk_kept own' page w m2); [done| |].
      - intros g [y Hg] _. apply (cl_other _ _ _ _ Hcl). intros x Hx. destruct (frame_of_range f n x) as (i & Hi & ->); [lia|lia|].
        intros <-. destruct (Hdf i Hi) as (A & B & C). rewrite (kept_out _ _ _ _ _ Hk A B) in Hg. done.
      - apply user_not_window. rewrite Z.mod_small by lia. lia. }
    split_and!; try done.
    + intros i Hi. destruct (Hdf i Hi) as (A & B & C). split; [by apply (kp_used _ _ _ _ Hk)|]. by apply Hout.
    + apply (kp_used _ _ _ _ Hk).
    + intros i Hi. apply (cleared_frame own' page m2 f n r' i); [done|done|lia|done].
    + intros g A B C D. destruct (Hout g A B C) as [? ?]. split; [done|]. split; [done|]. cbn [mram set_ram].
      rewrite (cl_other _ _ _ _ Hcl); [by apply (kp_frames _ _ _ _ Hk)|]. intros x Hx.
      destruct (frame_of_range f n x) as (i & Hi & ->); [lia|lia|]. apply not_eq_sym. by apply D.
    + intros va Hva. unfold xl. rewrite Hwk by done. by apply Hx1.
    + intros va Hva. unfold xa. rewrite Hwk by done. by apply Ha1.
Qed.
End back.

(** ** Protections *)

(** What the processor lets user code do with a page, by its entry. *)
Record rights := mkRights { can_read : bool; can_write : bool; can_exec : bool }.

Definition user_rights (x : Z) : rights :=
  let user := has x PAGE_PRESENT && has x PAGE_USER in
  mkRights user (user && has x PAGE_WRITABLE) (user && negb (has x PAGE_NO_EXECUTE)).

(** What the [PROT] bits 0, 1 and 2 ask for; any access includes reading. *)
Definition asked (prot : Z) : rights :=
  mkRights (Z.testbit prot 0 || Z.testbit prot 1 || Z.testbit prot 2) (Z.testbit prot 1) (Z.testbit prot 2).

(** What [mmap] gives: pages that are writable are never executable. *)
Definition mmap_given (prot : Z) : rights :=
  mkRights (can_read (asked prot)) (can_write (asked prot)) (can_exec (asked prot) && negb (can_write (asked prot))).

Lemma has_prot prot :
  has prot PROT_READ = Z.testbit prot 0 ∧ has prot PROT_WRITE = Z.testbit prot 1 ∧ has prot PROT_EXEC = Z.testbit prot 2 ∧
  has prot (Z.lor (Z.lor PROT_READ PROT_WRITE) PROT_EXEC) = Z.testbit prot 0 || Z.testbit prot 1 || Z.testbit prot 2.
Proof.
  split; [apply (has_bit prot 0); lia|]. split; [apply (has_bit prot 1); lia|]. split; [apply (has_bit prot 2); lia|].
  unfold has. destruct (Z.eqb_spec (Z.land prot (Z.lor (Z.lor PROT_READ PROT_WRITE) PROT_EXEC)) 0) as [E|E]; cbn [negb]; symmetry.
  - assert (∀ i, 0 ≤ i < 3 → Z.testbit prot i = false) as Hb.
    { intros i Hi. rewrite <- (andb_true_r (Z.testbit prot i)). replace true with (Z.testbit 7 i) by (assert (i = 0 ∨ i = 1 ∨ i = 2) as [-> |[-> | ->]] by lia; done).
      rewrite <- Z.land_spec. change 7 with (Z.lor (Z.lor PROT_READ PROT_WRITE) PROT_EXEC). by rewrite E, Z.bits_0. }
    by rewrite !Hb by lia.
  - apply not_false_iff_true. intros H. apply orb_false_iff in H as [[H0 H1]%orb_false_iff H2]. apply E.
    change (Z.lor (Z.lor PROT_READ PROT_WRITE) PROT_EXEC) with (2 ^ 3 - 1). rewrite land_low by lia.
    apply Z.bits_inj'. intros i Hi. rewrite Z.bits_0. destruct (decide (i < 3)); [|by rewrite Z.mod_pow2_bits_high by lia].
    rewrite Z.mod_pow2_bits_low by lia. by assert (i = 0 ∨ i = 1 ∨ i = 2) as [-> |[-> | ->]] by lia.
Qed.

(** The flags for a protection, and the flags of a page the kernel still
    writes to. *)
Lemma mmap_flags_rights prot :
  let fl := mmap_prot_to_flags prot in
  user_rights (granted fl) = asked prot ∧ user_rights fl = asked prot ∧ has fl 1 = can_read (asked prot) ∧
  has (granted fl) PAGE_COW = false ∧ not_writable fl = negb (can_write (asked prot)).
Proof.
  destruct (has_prot prot) as (_ & H1 & H2 & H3). unfold mmap_prot_to_flags, asked. destruct (Z.eqb_spec prot PROT_NONE) as [->|_]; [done|].
  rewrite H1, H2, H3. by destruct (Z.testbit prot 0), (Z.testbit prot 1), (Z.testbit prot 2).
Qed.

Lemma given_cases prot :
  if can_write (asked prot) then can_read (asked prot) = true ∧ mmap_given prot = mkRights true true false else mmap_given prot = asked prot.
Proof. unfold mmap_given, asked. cbn [can_read can_write can_exec]. by destruct (Z.testbit prot 0), (Z.testbit prot 1), (Z.testbit prot 2). Qed.

(** ** The call *)

Section call.
Context {S St : Type} `{!FrameSource S} `{!FileOps St} (NIL : Z) (fr : list (Z * rbt_node)).
Implicit Types s : mms (S := S) (St := St).

Lemma swp_on_vm {A} (f : SM vms A) s (Q : A → mms → Prop) :
  swp f (m_vm s) (λ a v, Q a (mkMms v (m_mach s) (m_fd s))) → swp (on_vm f) s Q.
Proof. unfold swp, on_vm. by destruct (f (m_vm s)) as [[]| |]. Qed.

Lemma swp_on_mach {A} (f : machine S → res (A * machine S)) s a m' (Q : A → mms → Prop) :
  f (m_mach s) = Ok (a, m') → Q a (mkMms (m_vm s) m' (m_fd s)) → swp (on_mach f) s Q.
Proof. unfold swp, on_mach. by intros ->. Qed.

Lemma swp_run_mach (f : machine S → res (machine S)) s m' (Q : () → mms → Prop) :
  f (m_mach s) = Ok m' → Q () (mkMms (m_vm s) m' (m_fd s)) → swp (run_mach f) s Q.
Proof. intros E HQ. unfold run_mach. eapply swp_on_mach; [by rewrite E|done]. Qed.

Lemma prot_flags_small prot : small_pages (mmap_prot_to_flags prot).
Proof.
  unfold mmap_prot_to_flags. destruct (prot =? PROT_NONE); [by vm_compute|].
  destruct (has prot (Z.lor _ _)), (has prot PROT_WRITE), (has prot PROT_EXEC); by vm_compute.
Qed.

Lemma Rep_start P k v page M a x : Rep NIL fr P k v page M → M !! a = Some x → start_address x = a.
Proof.
  intros (t & pg & Ht & <- & _) Hx. destruct Ht. apply vmap_lookup in Hx as (e & _ & _ & E); done.
Qed.

(** Registering an area at a free address. *)
Lemma register_new k v page M fuel phys virt size fl :
  page ≠ 0 → Rep NIL fr unlocked (Datatypes.S k) v page M → (2 * Nat.log2 (stdpp.base.size M + 1) < fuel)%nat → M !! virt = None →
  swp (vma_register NIL fuel page phys virt size fl) v (λ _ v',
    Rep NIL fr unlocked k v' page (<[virt := mkVma virt (u64 (virt + size)) phys size fl 0]> M)).
Proof.
  intros Hpg HR Hf HM. unfold vma_register. rewrite (proj2 (Z.eqb_neq _ _) Hpg). apply swp_bind.
  eapply page_acquire_spec; [exact HR|]. intros v1 HR1 _. apply swp_bind.
  eapply swp_mono; [by apply (register_spec NIL fr k v1 page M fuel phys virt size fl)|]. intros [] v2 HR2. rewrite HM in HR2.
  eapply page_release_spec; [exact HR2|]. intros v3 HR3 _ _. done.
Qed.

(** What an address space and the machine need for a call of [n] pages: room
    below 2^47 from [B] on, spare objects, windows and frames. *)
Record room s (vm_page page n B : Z) (M : gmap Z virtual_memory) (own : gmap Z (nat * Z)) (k turns fuel : nat) : Prop := mkRoom {
  rm_rep : Rep NIL fr unlocked (Datatypes.S k) (m_vm s) vm_page M;
  rm_page : vm_page ≠ 0;
  rm_areas : separate M ∧ page_aligned M ∧ ∀ a v, M !! a = Some v → start_address v < end_address v ≤ B;
  rm_next : ∃ pg, vpages (m_vm s) !! vm_page = Some pg ∧
    let z := zone_next USER_MMAP_BASE (zone_user_mmap pg) in 0 < z ≤ B ∧ (BLOCK_SIZE | z);
  rm_pages : 0 < n < 2 ^ 40 ∧ B + n * 0x1000 ≤ 2 ^ 47;
  rm_fuel : (2 * Nat.log2 (stdpp.base.size M + 1) < fuel)%nat ∧ (stdpp.base.size M < turns)%nat;
  rm_tables : tables own (m_mach s) page;
  rm_windows : (5 ≤ nfree (windows (m_mach s)))%nat;
  rm_frames : 7 * n ≤ fs_avail (msrc (m_mach s));
  rm_words : ∀ g, words 64 (frame (mram (m_mach s)) g) }.

(** The place found. *)
Lemma place_spec s vm_page page n B M own k turns fuel addr fl :
  room s vm_page page n B M own k turns fuel → has fl MAP_FIXED = false →
  swp (on_vm (mmap_resolve_virt_addr NIL turns fuel addr fl vm_page n)) s (λ r s',
    m_mach s' = m_mach s ∧ Rep NIL fr unlocked (Datatypes.S k) (m_vm s') vm_page M ∧ 0 < r ≤ B ∧ r mod 0x1000 = 0 ∧
    (∀ x, r ≤ x < r + n * 0x1000 → ¬ occupied M x) ∧ M !! r = None).
Proof.
  intros [HR Hpg (Hsep & Hal & Hend) (pg & Hp & Hz0 & Hza) [Hn HB] [Hf Ht] _ _ _ _] Hfix. apply swp_on_vm. unfold mmap_resolve_virt_addr. rewrite Hfix.
  set (z := zone_next _ _) in *. unfold BLOCK_SIZE in *.
  eapply swp_mono; [apply (lookup_free_spec NIL fr (Datatypes.S k) (m_vm s) vm_page M fuel turns USER_MMAP_BASE (zone_user_mmap pg) pg n); try done; unfold BLOCK_SIZE; fold z; try lia|].
  { intros a v Hv. specialize (Hend a v Hv). lia. }
  unfold BLOCK_SIZE. fold z. intros r v1 (HR1 & Hr & (q & Hq) & Hfree & Hfirst & _). split; [done|]. split; [done|].
  assert (∀ x, r ≤ x < r + n * 0x1000 → ¬ occupied M x) as Hfree' by (intros x Hx; apply Hfree; lia).
  split; [split; [lia|]|split; [dlia|split; [done|]]].
  - destruct (decide (r ≤ B)) as [|Hgt]; [done|]. destruct (Hfirst B) as (x & Hx & a & v & Hv & Hc); [lia|].
    unfold contains in Hc. specialize (Hend a v Hv). lia.
  - apply eq_None_not_Some. intros [v Hv]. apply (Hfree' r); [lia|]. exists r, v. split; [done|].
    pose proof (Rep_start _ _ _ _ _ _ _ HR1 Hv) as Es. specialize (Hend r v Hv). unfold contains. lia.
Qed.

(** What the process has after a successful call: an area at [r], backed by
    the frames from [f] on. *)
Record mapped s s' (vm_page page r f n prot : Z) (M : gmap Z virtual_memory) (own : gmap Z (nat * Z)) (k : nat) : Prop := mkMapped {
  mp_area : Rep NIL fr unlocked k (m_vm s') vm_page (<[r := mkVma r (r + n * 0x1000) f (n * 0x1000) (mmap_prot_to_flags prot) 0]> M);
  mp_flags : user_rights (mmap_prot_to_flags prot) = asked prot;
  mp_free : ∀ x, r ≤ x < r + n * 0x1000 → ¬ occupied M x;
  mp_range : 0 < r ∧ r mod 0x1000 = 0 ∧ r + n * 0x1000 ≤ 2 ^ 47;
  mp_tables : ∃ own', tables own' (m_mach s') page ∧ data_frames own' (m_mach s') f n;
  mp_fresh : ∀ i, 0 ≤ i < n → ¬ fs_used (msrc (m_mach s)) (f + i * 0x1000);
  mp_zero : ∀ i, 0 ≤ i < n → frame (mram (m_mach s')) (f + i * 0x1000) = zero_frame;
  mp_others : ∀ g, fs_used (msrc (m_mach s)) g → own !! g = None → g ≠ physwindow_pt_phys (m_mach s) →
    frame (mram (m_mach s')) g = frame (mram (m_mach s)) g;
  mp_xl : ∀ va, 0 ≤ va < 2 ^ 47 → xl 3 (mram (m_mach s')) page va =
    if decide (r ≤ va < r + n * 0x1000) then (if can_read (asked prot) then f + (va - r) else 0) else xl 3 (mram (m_mach s)) page va;
  mp_access : ∀ va, 0 ≤ va < 2 ^ 47 → if decide (r ≤ va < r + n * 0x1000)
    then user_rights (xa 3 (mram (m_mach s')) page va) = mmap_given prot ∧ has (xa 3 (mram (m_mach s')) page va) PAGE_COW = false
    else xa 3 (mram (m_mach s')) page va = xa 3 (mram (m_mach s)) page va }.

(** The second mapping, with the flags asked for. *)
Lemma protect_range page own m r f n flags :
  tables own m page → (5 ≤ nfree (windows m))%nat → 3 * n ≤ fs_avail (msrc m) → user_range r f n → small_pages flags → data_frames own m f n →
  ∃ own' m', paging_multiple_mmap m page r f n flags = Ok m' ∧ tables own' (paging_reload m' page) page ∧
    data_frames own' (paging_reload m' page) f n ∧
    (∀ g, fs_used (msrc m) g → own !! g = None → g ≠ physwindow_pt_phys m → frame (mram m') g = frame (mram m) g) ∧
    (∀ va, 0 ≤ va < 2 ^ 47 → xl 3 (mram m') page va =
      if decide (r ≤ va < r + n * 0x1000) then (if has flags 1 then f + (va - r) else 0) else xl 3 (mram m) page va) ∧
    ∀ va, 0 ≤ va < 2 ^ 47 → xa 3 (mram m') page va =
      if decide (r ≤ va < r + n * 0x1000) then granted flags else xa 3 (mram m) page va.
Proof.
  intros Ht Hn Hav Hur Hfl Hdf. destruct (map_range page own m r f n flags Ht Hn Hav Hur Hfl) as (own' & m' & E & Ht' & Hk & _ & _ & Hx & Ha).
  exists own', m'. split; [done|]. split; [by apply tables_reload|]. split; [|split; [apply (kp_frames _ _ _ _ Hk)|done]].
  intros i Hi. destruct (Hdf i Hi) as (A & B & C). split; [by apply (kp_used _ _ _ _ Hk)|]. split; [by eapply kept_out|].
  cbn. by rewrite (sc_pt _ _ (kp_config _ _ _ _ Hk)).
Qed.

Lemma handle_anonymous_spec s vm_page page n B M own k turns fuel addr fl prot :
  room s vm_page page n B M own k turns fuel → has fl MAP_FIXED = false →
  swp (mmap_handle_anonymous NIL turns fuel vm_page page addr fl n (mmap_prot_to_flags prot) false) s (λ r s',
    (r = u64 (- ENOMEM) ∧ fs_alloc (msrc (m_mach s)) n = Ok (0, msrc (m_mach s)) ∧
      Rep NIL fr unlocked (Datatypes.S k) (m_vm s') vm_page M ∧ m_mach s' = m_mach s) ∨
    ∃ f, mapped s s' vm_page page r f n prot M own k).
Proof.
  intros Hroom Hfix. destruct (mmap_flags_rights prot) as (Rg & Rf & Rp & Rc & Rw). pose proof Hroom as [HR Hpg Har _ [Hn HB] [Hf _] Htb Hwin Hav Hwd]. unfold mmap_handle_anonymous.
  apply swp_bind. eapply swp_mono; [by eapply place_spec|]. intros r s1 (Em & HR1 & Hr & Hra & Hfree & HM).
  destruct (Z.eqb_spec r 0); [lia|]. apply swp_bind. set (m := m_mach s) in *.
  destruct (fs_alloc_ok (msrc m) n (tb_src _ _ _ Htb)) as (f & x & Ea & Hx & Hcase); [lia|].
  eapply swp_on_mach; [unfold alloc_phys; rewrite Em, Ea; done|]. destruct Hcase as [(-> & ->)|(Hf0 & (Hfr & Hfa) & Hfe & Hnew & Hused & Hax)].
  { apply swp_ret. left. split; [done|]. split; [done|]. split; [done|]. cbn. by destruct m. }
  destruct (Z.eqb_spec f 0); [done|]. set (m1 := set_src m x).
  assert (tables own m1 page) as Ht1 by (apply tables_src; [done|done|]; intros g Hg; apply Hused; by left).
  assert (user_range r f n) as Hur by (split; lia).
  assert (data_frames own m1 f n) as Hdf.
  { intros i Hi. specialize (Hnew i Hi). split; [apply Hused; right; by exists i|]. split.
    - apply eq_None_not_Some. intros Hs. by apply Hnew, (tb_used _ _ _ Htb).
    - intros E. apply Hnew. rewrite E. apply (tb_used_pt _ _ _ Htb). }
  destruct (map_zeros page own m1 r f n Ht1 Hwin) as (own2 & m2 & m3 & E2 & E3 & Ht3 & Hdf3 & Hn3 & Hav3 & Hu3 & Hz3 & Ho3 & Hx3 & Ha3); [cbn; lia|done|done|by intros; apply Hwd|].
  apply swp_bind. eapply swp_run_mach; [exact E2|]. assert (u64 (n * BLOCK_SIZE) = n * 0x1000) as -> by (apply Z.mod_small; unfold BLOCK_SIZE; lia).
  apply swp_bind, swp_on_vm. eapply swp_mono; [by apply (register_new k _ vm_page M fuel)|]. intros [] v2 HR2.
  assert (u64 (r + n * 0x1000) = r + n * 0x1000) as Eu by (apply Z.mod_small; lia). rewrite Eu in HR2.
  apply swp_bind. eapply swp_run_mach; [done|]. apply swp_bind. eapply swp_run_mach; [exact E3|]. apply swp_bind. cbn [andb negb m_vm m_fd].
  assert (∀ g, fs_used (msrc m) g → ∀ i, 0 ≤ i < n → g ≠ f + i * 0x1000) as Hdis by (intros g Hg i Hi ->; by apply (Hnew i Hi)).
  assert (∀ g, fs_used (msrc m) g → fs_used (msrc m1) g) as Hu1 by (intros g Hg; apply Hused; by left).
  pose proof (given_cases prot) as Hgiven. rewrite Rw. apply swp_when; intros Hw;
    [apply negb_true_iff in Hw|apply negb_false_iff in Hw]; rewrite Hw in Hgiven.
  - destruct (protect_range page own2 m3 r f n (mmap_prot_to_flags prot) Ht3) as (own4 & m4 & E4 & Ht4 & Hdf4 & Ho4 & Hx4 & Ha4); [by rewrite Hn3|change (msrc m1) with x in Hav3; lia|done|apply prot_flags_small|done|].
    apply swp_bind. eapply swp_run_mach; [exact E4|]. eapply swp_run_mach; [done|]. apply swp_ret. right. exists f. split; cbn [m_mach m_vm mram paging_reload set_cr3]; try done; try lia.
    + by exists own4.
    + intros i Hi. destruct (Hdf3 i Hi) as (A & B' & C). rewrite Ho4 by done. by apply Hz3.
    + intros g A B' C. destruct (Ho3 g) as (D & F & G); [by apply Hu1|done|done|by apply Hdis|]. rewrite Ho4; [done|by apply Hu3, Hu1|done|done].
    + intros va Hva. rewrite Hx4, Hx3, Rp by done. by repeat case_decide.
    + intros va Hva. rewrite Ha4, Ha3 by done. destruct (decide _); [|done]. split; [|done]. by rewrite Rg.
  - apply swp_ret. right. exists f. split; cbn [m_mach m_vm mram paging_reload set_cr3]; try done; try lia.
    + by exists own2.
    + intros g A B' C. by apply Ho3; [apply Hu1| | |apply Hdis].
    + intros va Hva. rewrite Hx3, (proj1 Hgiven) by done. done.
    + intros va Hva. rewrite Ha3, (proj2 Hgiven) by done. by destruct (decide _).
Qed.

(** C8. An anonymous [mmap] without [MAP_FIXED], where the kernel chooses the
    place, in an address space with room: when the allocator has no run of
    frames it answers -ENOMEM and maps nothing. Otherwise the address it returns
    starts a range of whole pages that was in no area and is one now, with the
    protection asked for, backed by frames that were free, are in use, are no
    page tables and hold zeros. User addresses in the range translate to these
    frames when any access is asked for and to nothing otherwise; the entries
    that map them let user code read, write and execute as asked, but never both
    write and execute: a range asked writable and executable is left not
    executable. Every other user address has its translation and its access bits
    as before, and no frame in use that is no page table changed. The access bits
    are those of the entry that maps the page, not of the tables above it. *)
Theorem mmap_anonymous_correct s me vm_page page kbuf addr len prot fl fd off B M own k turns fuel chunks :
  let n := (len + 4095) / 4096 in
  0 < len → has fl MAP_ANONYMOUS = true → has fl MAP_FIXED = false → room s vm_page page n B M own k turns fuel →
  ∃ r s', syscall_mmap NIL turns fuel chunks (Some (Some (mkProc me vm_page page))) kbuf addr len prot fl fd off s = Ok (r, s') ∧
    ((r = u64 (- ENOMEM) ∧ fs_alloc (msrc (m_mach s)) n = Ok (0, msrc (m_mach s)) ∧
       Rep NIL fr unlocked (Datatypes.S k) (m_vm s') vm_page M ∧ m_mach s' = m_mach s) ∨
     ∃ f, mapped s s' vm_page page r f n prot M own k).
Proof.
  intros n Hlen Hanon Hfix Hroom. apply swp_elim. unfold syscall_mmap, mmap_process. destruct (Z.eqb_spec len 0); [lia|]. rewrite Hanon.
  assert (ALIGN_UP len BLOCK_SIZE / BLOCK_SIZE = n) as ->; [|by eapply handle_anonymous_spec].
  unfold BLOCK_SIZE, n. destruct (rm_pages _ _ _ _ _ _ _ _ _ _ Hroom) as [Hn _]. assert (len + 4095 < 2 ^ 52) by (unfold n in Hn; dlia).
  assert (ALIGN_UP len 4096 = (len + 4095) / 4096 * 4096) as -> by (apply (ALIGN_UP_pow2 len 12); lia). by rewrite Z.div_mul.
Qed.
End call.

(** Two pages for a process with three areas. *)
Module MmapDemo.
#[local] Instance no_files : FileOps () := {
  op_read _ _ _ x := (0, [], x); op_write _ bs _ x := (zlen bs, x); op_flush _ x := x; op_size _ _ := 0 }.

Definition start : mms (S := pmm) (St := ()) := mkMms demo_space demo_machine (mkFd [] ∅ ∅ () []).

Lemma start_words g : words 64 (frame (mram demo_machine) g).
Proof.
  change (mram demo_machine) with (<[0x2000 := <[511%nat := Z.lor 0x2000 3]> zero_frame]> (∅ : ram)). rewrite frame_insert.
  assert (words 64 zero_frame) as Hz by (unfold words, zero_frame; by apply Forall_replicate).
  case_decide; [by apply words_insert|]. unfold frame. by rewrite lookup_empty.
Qed.

Lemma start_room : room 1 [] start 0x9000 0x1000 2 0x100009000 demo_map demo_own 2 9 9.
Proof.
  split.
  - apply demo_rep.
  - done.
  - split; [apply demo_separate|]. split; [apply demo_aligned|].
    intros a v [-> Hv]%demo_cases. destruct Hv as [->|[->| ->]]; cbn; lia.
  - eexists. split; [done|]. cbn. unfold USER_MMAP_BASE, BLOCK_SIZE. split; [lia|]. by exists 0x100000.
  - lia.
  - split; vm_compute; lia.
  - apply demo_tables.
  - vm_compute. lia.
  - vm_compute. discriminate.
  - apply start_words.
Qed.

Definition me : option (option process) := Some (Some (mkProc 0 0x9000 0x1000)).

Lemma mmap_anonymous_correct_witness :
  ∃ r s', syscall_mmap 1 9 9 9 me true 0 8000 PROT_READ (Z.lor MAP_ANONYMOUS MAP_PRIVATE) (-1) 0 start = Ok (r, s') ∧
    ((r = u64 (- ENOMEM) ∧ fs_alloc (msrc (m_mach start)) 2 = Ok (0, msrc (m_mach start)) ∧
       Rep 1 [] unlocked 3 (m_vm s') 0x9000 demo_map ∧ m_mach s' = m_mach start) ∨
     ∃ f, mapped 1 [] start s' 0x9000 0x1000 r f 2 PROT_READ demo_map demo_own 2).
Proof.
  apply (mmap_anonymous_correct 1 [] start 0 0x9000 0x1000 true 0 8000 PROT_READ (Z.lor MAP_ANONYMOUS MAP_PRIVATE) (-1) 0 0x100009000 demo_map demo_own 2 9 9 9);
    [lia|done|done|exact start_room].
Defined.

(** The first gap of two pages is taken; the entry's rights. *)
Definition mapped_at (prot : Z) : Z * Z * Z * rights :=
  match syscall_mmap 1 9 9 9 me true 0 8000 prot (Z.lor MAP_ANONYMOUS MAP_PRIVATE) (-1) 0 start with
  | Ok (r, s') => (r, xl 3 (mram (m_mach s')) 0x1000 0x100004321, xl 3 (mram (m_mach s')) 0x1000 0x100005000,
                   user_rights (xa 3 (mram (m_mach s')) 0x1000 0x100004321))
  | _ => (0, 0, 0, asked 0)
  end.

Example mmap_first_gap : mapped_at PROT_READ = (0x100003000, 0x5321, 0, mkRights true false false).
Proof. vm_compute. reflexivity. Qed.

(** Execute permission is lost when write permission is asked for too. *)
Example mmap_write_exec : mapped_at (Z.lor (Z.lor PROT_READ PROT_WRITE) PROT_EXEC) = (0x100003000, 0x5321, 0, mkRights true true false).
Proof. vm_compute. reflexivity. Qed.
End MmapDemo.
