(* ===== verification/MprotThm.v ===== *)
(** * Changing the protection of user memory

    [syscall_mprotect]: which addresses a page translates to afterwards, what
    its entry lets user code do, and what becomes of the area; and two ways in
    which a change of one page goes wrong. *)

From stdpp Require Import sorting.
From S2P Require Import Prelude Bitmap StateM Spinlock Fd Rbt RbtTree RbtInv RbtInsert RbtThm Pmm Frames Paging PagingWin PagingMap PagingOps PagingThm Vma VmaOps VmaFind VmaMap VmaThm Mmap MmapThm.

Open Scope sm_scope.

(** ** Translations of page boundaries *)

Lemma frame_bits x : 0 ≤ x → (∀ i, 0 ≤ i → i < 12 ∨ 52 ≤ i → Z.testbit x i = false) → page_frame x.
Proof.
  intros Hx Hb. assert (x = x mod 2 ^ 52) as E.
  { apply Z.bits_inj'. intros n Hn. destruct (decide (n < 52)); [by rewrite Z.mod_pow2_bits_low by lia|].
    rewrite Z.mod_pow2_bits_high by lia. apply Hb; lia. }
  split; [rewrite E; by apply Z.mod_pos_bound|]. change 0x1000 with (2 ^ 12). apply Z.bits_inj'. intros n Hn. rewrite Z.bits_0.
  destruct (decide (n < 12)); [rewrite Z.mod_pow2_bits_low by lia; apply Hb; lia|by rewrite Z.mod_pow2_bits_high by lia].
Qed.

Lemma frame_land f x : page_frame f → 0 ≤ x → page_frame (Z.land f x).
Proof.
  intros Hf Hx. apply frame_bits; [apply Z.land_nonneg; by right|]. intros i Hi Hc. rewrite Z.land_spec, (frame_bit f) by done. done.
Qed.

Lemma frame_lor f g : page_frame f → page_frame g → page_frame (Z.lor f g).
Proof.
  intros Hf Hg. apply frame_bits; [apply Z.lor_nonneg; unfold page_frame in *; lia|]. intros i Hi Hc. by rewrite Z.lor_spec, !frame_bit.
Qed.

Lemma frame_mask e : page_frame (Z.land e PAGE_PHYS_MASK).
Proof. rewrite land_mask. unfold page_frame. dlia. Qed.

Lemma offset_frame va k : 0 ≤ k ≤ 52 → va mod 0x1000 = 0 → page_frame (Z.land va (2 ^ k - 1)).
Proof.
  intros Hk Ha. rewrite land_low by lia. apply frame_bits; [apply Z.mod_pos_bound; lia|]. intros i Hi Hc.
  destruct (decide (i < k)); [|by rewrite Z.mod_pow2_bits_high by lia]. rewrite Z.mod_pow2_bits_low by lia.
  destruct Hc as [Hc|]; [|lia]. rewrite <- (Z.mod_pow2_bits_low va 12 i) by lia. change (2 ^ 12) with 0x1000. by rewrite Ha, Z.bits_0.
Qed.

Lemma entry_frame e l va : va mod 0x1000 = 0 → page_frame (entry_paddr e l va).
Proof.
  intros Ha. unfold entry_paddr. destruct (e =? 0); [done|]. destruct (has e PAGE_HUGE).
  - apply frame_lor.
    + apply frame_land; [apply frame_mask|]. destruct (l =? 2); by vm_compute.
    + destruct (l =? 2); [by apply (offset_frame va 30)|by apply (offset_frame va 21)].
  - apply frame_lor; [apply frame_mask|by apply (offset_frame va 12)].
Qed.

Lemma xl_frame r va l : ∀ f, va mod 0x1000 = 0 → page_frame (xl l r f va).
Proof.
  induction l as [|l IH]; intros f Ha; unfold xl; rewrite walk_unfold; unfold walk_entry; destruct (has _ 1); cbn [negb]; try done.
  all: destruct (is_leaf _ _); [by apply entry_frame|]. by apply entry_frame. by apply IH.
Qed.

(** ** One page *)

Lemma protect_flags_small prot : small_pages (mprotect_flags prot).
Proof.
  unfold mprotect_flags. destruct (prot =? 0); [by vm_compute|].
  destruct (has prot PROT_READ), (has prot PROT_WRITE), (has prot PROT_EXEC), (has prot (Z.lor _ _)); by vm_compute.
Qed.

Section prot.
Context {S St : Type} `{!FrameSource S} `{!FileOps St} (NIL : Z) (fr : list (Z * rbt_node)).
Implicit Types s : mms (S := S) (St := St).

(** One page mapped to a frame with small-page flags. *)
Lemma map_page page own (m : machine S) c f flags :
  tables own m page → (5 ≤ nfree (windows m))%nat → 3 ≤ fs_avail (msrc m) → 0 ≤ c → c mod 0x1000 = 0 → c + 0x1000 ≤ 2 ^ 47 →
  page_frame f → small_pages flags →
  ∃ own' m', paging_mmap m page c f flags = Ok m' ∧ tables own' m' page ∧ nfree (windows m') = nfree (windows m) ∧
    fs_avail (msrc m) - 3 ≤ fs_avail (msrc m') ∧
    (∀ va, 0 ≤ va < 2 ^ 47 → xl 3 (mram m') page va =
      if decide (c ≤ va < c + 0x1000) then (if has flags 1 then f + (va - c) else 0) else xl 3 (mram m) page va) ∧
    ∀ va, 0 ≤ va < 2 ^ 47 → xa 3 (mram m') page va =
      if decide (c ≤ va < c + 0x1000) then granted flags else xa 3 (mram m) page va.
Proof.
  intros Ht Hn Hav Hc Hca Hce Hf (Hfl & H1 & H2). assert (target flags = 0%nat) as Et by (unfold target; by rewrite H1, H2).
  assert (vpn 1 c ≠ window_vpn) as Hw by (apply user_not_window; rewrite Z.mod_small by lia; lia).
  destruct (mmap_internal_spec own m page c f flags Ht Hn Hav Hw Hfl) as (own' & m' & E & Ht' & _ & Hn' & Hav' & Hxl & Hxa).
  { rewrite Et. change (2 ^ (12 + 9 * Z.of_nat 0)) with 0x1000. rewrite frame_land_mask by done. apply Hf. }
  assert (∀ va, 0 ≤ va < 2 ^ 47 → vpn 1 va ≠ window_vpn ∧ (vpn 0 va = vpn 0 c ↔ c ≤ va < c + 0x1000) ∧
    (c ≤ va < c + 0x1000 → va mod 0x1000 = va - c)) as Hpg.
  { intros va Hva. split; [apply user_not_window; rewrite Z.mod_small by lia; lia|].
    destruct (chunk_vpn 0 c va) as [Hiff Hmod]; [lia|done|]. change (2 ^ (12 + 9 * Z.of_nat 0)) with 0x1000 in *.
    rewrite !(Z.mod_small _ (2 ^ 48)) in * by lia. split; [rewrite Hiff; lia|]. intros. apply Hmod. lia. }
  exists own', m'. split; [done|]. split; [done|]. split; [done|]. split; [done|]. rewrite Et in Hxl, Hxa. split; intros va Hva; destruct (Hpg va Hva) as (Hwv & Hiff & Hmod).
  - rewrite Hxl by done. unfold mapped_to. rewrite Et, frame_land_mask by done. change (2 ^ (12 + 9 * Z.of_nat 0)) with 0x1000.
    destruct (decide (vpn 0 va = vpn 0 c)) as [Hin%Hiff|Hout]; [by rewrite decide_True, Hmod by done|].
    rewrite decide_False; [done|]. by rewrite <- Hiff.
  - rewrite Hxa by done. destruct (decide (vpn 0 va = vpn 0 c)) as [Hin%Hiff|Hout]; [by rewrite decide_True by done|].
    rewrite decide_False; [done|]. by rewrite <- Hiff.
Qed.

(** ** The area object *)

Definition put_of (v : vms) (p : Z) (x : virtual_memory) : vms :=
  mkVms (vnodes v) (<[p := x]> (vareas v)) (vpages v) (node_pool v) (area_pool v).

Lemma akv_put areas p v x e : areas !! p = Some v → start_address x = start_address v → akv (<[p := x]> areas) e = akv areas e.
Proof.
  intros Hp Hx. unfold akv. destruct (decide (p = e)) as [<-|Hne]; [by rewrite lookup_insert_eq, Hp|by rewrite lookup_insert_ne].
Qed.

Lemma vmap_put areas es n p v x :
  Forall (λ e, is_Some (areas !! e.2)) es → by_start areas es → (n, p) ∈ es → areas !! p = Some v → start_address x = start_address v →
  Forall (λ e, is_Some (<[p := x]> areas !! e.2)) es ∧ by_start (<[p := x]> areas) es ∧
  vmap (<[p := x]> areas) es = <[start_address v := x]> (vmap areas es).
Proof.
  intros Ha Hs Hi Hp Hx. assert (Forall (λ e, is_Some (<[p := x]> areas !! e.2)) es) as Ha'.
  { eapply Forall_impl; [exact Ha|]. intros e He. apply lookup_insert_is_Some'. by right. }
  assert (by_start (<[p := x]> areas) es) as Hs'.
  { clear Hi Ha Ha'. induction Hs as [|e es Hs IH He]; [constructor|]. apply SSorted_cons; [done|].
    eapply Forall_impl; [exact He|]. intros y Hy. cbn in *. by rewrite !(akv_put _ _ v x). }
  split; [done|]. split; [done|]. apply map_eq. intros a. destruct (decide (start_address v = a)) as [<-|Hne].
  - rewrite lookup_insert_eq. apply vmap_lookup; [done|done|]. exists (n, p). cbn. by rewrite lookup_insert_eq.
  - rewrite lookup_insert_ne by done. apply option_eq. intros w. rewrite !vmap_lookup by done.
    split; intros (e & He & Hv & Ew); exists e; (split; [done|]); (split; [|done]).
    + destruct (decide (p = e.2)) as [Ep|]; [|by rewrite lookup_insert_ne in Hv]. rewrite <- Ep, lookup_insert_eq in Hv. congruence.
    + rewrite lookup_insert_ne; [done|]. intros Ep. rewrite <- Ep in Hv. congruence.
Qed.

(** The area found, and that changing it changes the map there. *)
Lemma find_put_spec P k (v : vms) page M fuel virt :
  Rep NIL fr P k v page M → separate M → (2 * Nat.log2 (size M + 1) < fuel)%nat →
  swp (p ← page_at page; find_containing NIL fuel (tree_root p) virt) v (λ p v', v' = v ∧
    ((p ≠ 0 ∧ ∃ a x, M !! a = Some x ∧ vareas v !! p = Some x ∧ contains x virt ∧
       ∀ y, start_address y = start_address x → Rep NIL fr P k (put_of v p y) page (<[a := y]> M)) ∨
     p = 0 ∧ ∀ a x, M !! a = Some x → ¬ contains x virt)).
Proof.
  intros HR Hsep Hf. destruct (HR) as (t & pg & Ht & Hm & Hp & Hl & Hk). pose proof (Rep_fuel _ _ _ _ _ _ _ _ HR Hf t Ht Hm) as Hh.
  destruct (Ht) as [(q & pool & Hq & Hpl & Htr) Ha Hs Hnd H0 H1]. simplify_eq.
  apply swp_bind, (swp_intro _ _ _ pg v); [unfold page_at; by rewrite Hp|].
  replace (tree_root pg) with (rp NIL t) by (symmetry; apply Htr). eapply swp_mono.
  { eapply (find_containing_spec NIL fuel virt v (tree_root pg) [] t (pool ++ fr)); [apply Htr| |done].
    split; [done|done|by apply separate_apart|set_solver|set_solver]. }
  intros p v' (-> & Hc). split; [done|]. destruct Hc as [(Hp0 & n & x & Hi & Hx & Hc)|(-> & Hno)].
  - left. split; [done|]. exists (start_address x), x. split; [apply vmap_lookup; eauto|]. split; [done|]. split; [done|].
    intros y Hy. destruct (vmap_put (vareas v) (elems t) n p x y Ha Hs Hi Hx Hy) as (A & B & C).
    exists t, pg. cbn. split; [split; try done; by exists pg, pool|]. by rewrite C.
  - right. split; [done|]. intros a x (e & He & Hx & _)%vmap_lookup; [|done..]. by eapply Hno.
Qed.

Lemma release_put page (v v' : vms) p y : page_release page v = Ok ((), v') → page_release page (put_of v p y) = Ok ((), put_of v' p y).
Proof.
  unfold page_release, page_at, upd_page, mbind, SM_bind. cbn [vpages put_of]. destruct (vpages v !! page) as [pg|] eqn:E; [|done].
  rewrite E. cbn [vpages put_of]. rewrite E. intros H. by injection H as <-.
Qed.

Lemma find_contains_put k (v : vms) page M fuel virt :
  page ≠ 0 → Rep NIL fr unlocked k v page M → separate M → (2 * Nat.log2 (size M + 1) < fuel)%nat →
  swp (vma_find_contains NIL fuel page virt) v (λ p v', Rep NIL fr unlocked k v' page M ∧
    ((p ≠ 0 ∧ ∃ a x, M !! a = Some x ∧ vareas v' !! p = Some x ∧ contains x virt ∧
       ∀ y, start_address y = start_address x → Rep NIL fr unlocked k (put_of v' p y) page (<[a := y]> M)) ∨
     p = 0 ∧ ∀ a x, M !! a = Some x → ¬ contains x virt)).
Proof.
  intros Hpg HR Hsep Hf. unfold vma_find_contains. rewrite (proj2 (Z.eqb_neq _ _) Hpg).
  apply swp_bind. eapply page_acquire_spec; [exact HR|]. intros v1 HR1 _.
  pose proof (find_put_spec _ _ _ _ _ _ virt HR1 Hsep Hf) as Hw. apply swp_elim in Hw as (p & v' & Hw & -> & Hc).
  destruct (HR1) as (t & pg & _ & _ & Hp & _).
  apply swp_bind, (swp_intro _ _ _ pg v1); [unfold page_at; by rewrite Hp|]. unfold mbind, SM_bind, page_at in Hw. rewrite Hp in Hw.
  apply swp_bind. eapply swp_intro; [exact Hw|]. apply swp_bind.
  assert (swp (page_release page) v1 (λ _ v', page_release page v1 = Ok ((), v') ∧ Rep NIL fr unlocked k v' page M ∧ vareas v' = vareas v1)) as Hrel.
  { pose proof (page_release_spec NIL fr k v1 page M (λ _ v', Rep NIL fr unlocked k v' page M ∧ vareas v' = vareas v1) HR1) as H.
    destruct (swp_elim _ _ _ (H ltac:(done))) as ([] & v' & E & H'). eapply swp_intro; [exact E|]. by rewrite E. }
  eapply swp_mono; [exact Hrel|]. intros [] v2 (E & HR2 & Ev). apply swp_ret. split; [done|].
  destruct Hc as [(Hp0 & a & x & HM & Hx & Hc & Hput)|Hno]; [left|by right]. split; [done|]. exists a, x. rewrite Ev.
  split; [done|]. split; [done|]. split; [done|]. intros y Hy. pose proof (release_put page v1 v2 p y E) as E'.
  pose proof (page_release_spec NIL fr k (put_of v1 p y) page (<[a := y]> M) (λ _ v', Rep NIL fr unlocked k v' page (<[a := y]> M)) (Hput y Hy)) as H.
  assert (swp (page_release page) (put_of v1 p y) (λ _ v', Rep NIL fr unlocked k v' page (<[a := y]> M))) as Hq by (apply H; by intros).
  unfold swp in Hq. by rewrite E' in Hq.
Qed.

(** ** Lookups *)

(** Only windows differ. *)
Record alike (own : gmap Z (nat * Z)) (page : Z) (m m' : machine S) : Prop := mkAlike {
  lk_tables : tables own m' page;
  lk_windows : nfree (windows m') = nfree (windows m);
  lk_src : msrc m' = msrc m;
  lk_walk : ∀ w va, 0 ≤ va < 2 ^ 47 → walk w 3 (mram m') page va = walk w 3 (mram m) page va }.

Lemma alike_tables own page m m' :
  tables own m page → tables own m' page → same_tables m m' → nfree (windows m') = nfree (windows m) → alike own page m m'.
Proof.
  intros Ht Ht' Hst Hn. split; [done|done|apply Hst|]. intros w va Hva. apply (walk_kept own page w m); [done| |].
  - intros g _ Hg. by apply (st_frames _ _ Hst).
  - apply user_not_window. rewrite Z.mod_small by lia. lia.
Qed.

Lemma lookup_page own page m c :
  tables own m page → (0 < nfree (windows m))%nat → 0 ≤ c < 2 ^ 47 →
  ∃ m', vaddr_to_paddr m page c = Ok (xl 3 (mram m) page c, m') ∧ alike own page m m'.
Proof.
  intros Ht Hn Hc. destruct (vaddr_to_paddr_spec own m page c Ht) as (m' & E & Ht' & Hst & Hn'); [apply user_not_window; rewrite Z.mod_small by lia; lia|done|].
  exists m'. split; [done|]. by apply alike_tables.
Qed.

Lemma lookup_entry own page m c :
  tables own m page → (0 < nfree (windows m))%nat → 0 ≤ c < 2 ^ 47 →
  ∃ e m', paging_get_entry m page c = Ok (e, m') ∧ Z.land e ACCESS = xa 3 (mram m) page c ∧ alike own page m m'.
Proof.
  intros Ht Hn Hc. destruct (get_entry_loop_spec 3 own m page page c 0) as (e & l & m' & E & Hx & Hr & Hst & Hn'); try done.
  - rewrite (po_root _ _ _ _ (tb_pt _ _ _ Ht)). by rewrite vpn_top.
  - apply user_not_window. rewrite Z.mod_small by lia. lia.
  - exists e, m'. unfold paging_get_entry, paging_get_entry_ext. rewrite E. split; [done|].
    split; [by apply (Hx access_view)|]. apply alike_tables; [done|by eapply tables_windows|done|done].
Qed.

(** ** Protecting pages *)

(** What the call needs of the address space, for as long as it runs. *)
Record prot_ok s (vm_page page : Z) (M : gmap Z virtual_memory) (k fuel : nat) (own : gmap Z (nat * Z)) : Prop := mkProtOk {
  pk_rep : Rep NIL fr unlocked k (m_vm s) vm_page M;
  pk_page : vm_page ≠ 0;
  pk_sep : separate M;
  pk_fuel : (2 * Nat.log2 (size M + 1) < fuel)%nat;
  pk_areas : ∀ a v, M !! a = Some v → 0 ≤ start_address v ∧ start_address v mod 0x1000 = 0 ∧ page_frame (phys_address v) ∧
    phys_address v + (end_address v - start_address v) ≤ 2 ^ 52;
  pk_tables : tables own (m_mach s) page;
  pk_windows : (5 ≤ nfree (windows (m_mach s)))%nat }.

(** The frame behind page [c] with translation [x]: the translation, or when
    there is none the place the area gives it, or nothing. *)
Definition backed (M : gmap Z virtual_memory) (x c f : Z) : Prop :=
  (x ≠ 0 ∧ f = x) ∨
  (x = 0 ∧ ((∃ a v, M !! a = Some v ∧ contains v c ∧ f = phys_address v + (c - start_address v)) ∨ (¬ occupied M c ∧ f = 0))).

(** What a page is given: as asked, but no writing to a copy-on-write page. *)
Definition mprotect_given (prot : Z) (cow : bool) : rights :=
  mkRights (can_read (asked prot)) (can_write (asked prot) && negb cow) (can_exec (asked prot)).

(** From memory [r] to [r']: the pages of [lo..hi) that have a frame lead to it
    when any access is asked for and nowhere otherwise, with the rights asked
    for; a copy-on-write page stays one.  All others stay. *)
Definition protected (M : gmap Z virtual_memory) (prot lo hi page : Z) (r r' : ram) : Prop := ∀ va, 0 ≤ va < 2 ^ 47 →
  let same := xl 3 r' page va = xl 3 r page va ∧ xa 3 r' page va = xa 3 r page va in
  if decide (lo ≤ va < hi) then
    ∃ f, backed M (xl 3 r page (frame_of va)) (frame_of va) f ∧
      if decide (f = 0) then same else
        let cow := has (xa 3 r page (frame_of va)) PAGE_COW in
        xl 3 r' page va = (if can_read (asked prot) then f + va mod 0x1000 else 0) ∧
        user_rights (xa 3 r' page va) = mprotect_given prot cow ∧ has (xa 3 r' page va) PAGE_COW = can_read (asked prot) && cow
  else same.

Lemma page_phys_spec s vm_page page M k fuel own c :
  prot_ok s vm_page page M k fuel own → 0 < c < 2 ^ 47 → c mod 0x1000 = 0 →
  swp (page_phys NIL fuel vm_page page c) s (λ f s', prot_ok s' vm_page page M k fuel own ∧ alike own page (m_mach s) (m_mach s') ∧
    page_frame f ∧ backed M (xl 3 (mram (m_mach s)) page c) c f).
Proof.
  intros [HR Hpg Hsep Hf Har Ht Hn] Hc Hca. destruct (lookup_page own page (m_mach s) c Ht) as (m' & E & Hl); [lia|lia|].
  pose proof (xl_frame (mram (m_mach s)) c 3 page Hca) as Hxf. set (x := xl 3 _ page c) in *. unfold page_phys.
  assert ((5 ≤ nfree (windows m'))%nat) as Hn' by (by rewrite (lk_windows _ _ _ _ Hl)).
  apply swp_bind. eapply swp_on_mach; [exact E|]. destruct (Z.eqb_spec x 0) as [Ex|Hx]; cbn [andb].
  2: { apply swp_ret. split; [split; try done; apply Hl|]. split; [done|]. split; [done|]. by left. }
  destruct (Z.eqb_spec c 0); [lia|]. apply swp_bind, swp_on_vm. eapply swp_mono; [by apply (find_contains_put k)|].
  intros p v' (HR' & Hcase). assert (prot_ok (mkMms v' m' (m_fd s)) vm_page page M k fuel own) as Hok by (split; try done; apply Hl).
  destruct Hcase as [(Hp0 & a & w & HM & Hw & Hcon & _)|(-> & Hno)].
  - rewrite (proj2 (Z.eqb_neq _ _) Hp0). cbn [negb]. apply swp_bind, swp_on_vm. unfold area_at, swp at 1. cbn [m_vm]. rewrite Hw. apply swp_ret.
    destruct (Har a w HM) as (A & B & C & D). unfold contains, page_frame in *.
    assert (u64 (phys_address w + u64 (c - start_address w)) = phys_address w + (c - start_address w)) as ->.
    { unfold u64. rewrite (Z.mod_small (c - start_address w)) by lia. apply Z.mod_small. lia. }
    split; [done|]. split; [done|]. split; [dlia|]. right. split; [done|]. left. by exists a, w.
  - apply swp_ret. split; [done|]. split; [done|]. split; [done|]. right. split; [done|]. right. split; [|done].
    intros (a & w & HM & Hcon). by apply (Hno a w).
Qed.

(** The flags of a page, copy-on-write or not. *)
Lemma has_access e : has (Z.land e ACCESS) PAGE_COW = has e PAGE_COW.
Proof. unfold has. by rewrite <- Z.land_assoc. Qed.

Lemma cow_flags prot e :
  let fl := mprotect_flags prot in
  let cow := has e PAGE_COW in
  let nf := if cow then Z.land (Z.lor fl PAGE_COW) (not64 PAGE_WRITABLE) else fl in
  small_pages nf ∧ has nf 1 = can_read (asked prot) ∧ user_rights (granted nf) = mprotect_given prot cow ∧
  has (granted nf) PAGE_COW = can_read (asked prot) && cow.
Proof.
  destruct (has_prot prot) as (H0 & H1 & H2 & H3). unfold mprotect_flags, mprotect_given, asked. destruct (Z.eqb_spec prot 0) as [->|_].
  - destruct (has e PAGE_COW); by vm_compute.
  - rewrite H0, H1, H2, H3. destruct (has e PAGE_COW), (Z.testbit prot 0), (Z.testbit prot 1), (Z.testbit prot 2); by vm_compute.
Qed.

Lemma mprotect_flags_rights prot : user_rights (mprotect_flags prot) = asked prot.
Proof.
  destruct (has_prot prot) as (H0 & H1 & H2 & H3). unfold mprotect_flags, asked. destruct (Z.eqb_spec prot 0) as [->|_]; [done|].
  rewrite H0, H1, H2, H3. by destruct (Z.testbit prot 0), (Z.testbit prot 1), (Z.testbit prot 2).
Qed.

Lemma mprotect_page_spec s vm_page page M k fuel own c prot :
  prot_ok s vm_page page M k fuel own → 3 ≤ fs_avail (msrc (m_mach s)) → 0 < c → c mod 0x1000 = 0 → c + 0x1000 ≤ 2 ^ 47 →
  swp (mprotect_page NIL fuel vm_page page c (mprotect_flags prot)) s (λ _ s', ∃ own', prot_ok s' vm_page page M k fuel own' ∧
    fs_avail (msrc (m_mach s)) - 3 ≤ fs_avail (msrc (m_mach s')) ∧
    protected M prot c (c + 0x1000) page (mram (m_mach s)) (mram (m_mach s'))).
Proof.
  intros Hok Hav Hc Hca Hce. unfold mprotect_page. apply swp_bind. eapply swp_mono; [by apply (page_phys_spec s vm_page page M k fuel own c); [|lia|]|].
  intros f s1 (Hok1 & Hl1 & Hff & Hb). assert (∀ va, c ≤ va < c + 0x1000 → frame_of va = c) as Hfo by (intros va Hva; unfold frame_of; dlia).
  apply swp_when; intros Hz.
  - destruct (Z.eqb_spec c 0); [lia|]. rewrite orb_false_r in Hz. apply negb_true_iff, Z.eqb_neq in Hz.
    pose proof Hok1 as [HR Hpg Hsep Hf Har Ht Hn]. destruct (lookup_entry own page (m_mach s1) c Ht) as (e & m2 & E2 & He & Hl2); [lia|lia|].
    apply swp_bind. eapply swp_on_mach; [exact E2|]. destruct (cow_flags prot e) as (Hsm & Hpr & Hgr & Hgc). set (nf := if has e PAGE_COW then _ else _) in *.
    destruct (map_page page own m2 c f nf) as (own' & m3 & E3 & Ht3 & Hn3 & Hav3 & Hx3 & Ha3); try done; try lia.
    { apply Hl2. } { by rewrite (lk_windows _ _ _ _ Hl2). } { by rewrite (lk_src _ _ _ _ Hl2), (lk_src _ _ _ _ Hl1). }
    eapply swp_run_mach; [exact E3|]. exists own'. rewrite (lk_src _ _ _ _ Hl2), (lk_src _ _ _ _ Hl1) in Hav3. split; [|split; [done|]].
    + split; try done. cbn. by rewrite Hn3, (lk_windows _ _ _ _ Hl2).
    + assert (has (xa 3 (mram (m_mach s)) page c) PAGE_COW = has e PAGE_COW) as Hcow.
      { unfold xa. rewrite <- (lk_walk _ _ _ _ Hl1) by lia. fold xa. by rewrite <- He, has_access. }
      intros va Hva. cbn [m_mach]. rewrite Hx3, Ha3, Hpr by done. unfold xl, xa. rewrite !(lk_walk _ _ _ _ Hl2), !(lk_walk _ _ _ _ Hl1) by done.
      destruct (decide (c ≤ va < c + 0x1000)) as [Hin|]; [|done]. exists f. rewrite Hfo by done. split; [done|].
      rewrite decide_False by done. fold xa. rewrite Hcow. split_and!; [|done|done].
      replace (va mod 0x1000) with (va - c); [done|]. rewrite <- (Hfo va Hin) at 1. unfold frame_of. lia.
  - apply orb_false_iff in Hz as [Hz _]. apply negb_false_iff, Z.eqb_eq in Hz. subst f. exists own. split; [done|].
    rewrite (lk_src _ _ _ _ Hl1). split; [lia|]. intros va Hva. unfold xl, xa. rewrite !(lk_walk _ _ _ _ Hl1) by done.
    destruct (decide (c ≤ va < c + 0x1000)); [|done]. exists 0. rewrite Hfo by done. split; [done|]. by rewrite decide_True.
Qed.

Lemma protected_join M prot lo mid hi page r x r' :
  0 ≤ lo → lo ≤ mid ≤ hi → mid mod 0x1000 = 0 → lo mod 0x1000 = 0 →
  protected M prot lo mid page r x → protected M prot mid hi page x r' → protected M prot lo hi page r r'.
Proof.
  intros H0 Hm Hma Hla H1 H2 va Hva. specialize (H2 va Hva) as H2v. specialize (H1 va Hva) as H1v. cbv zeta in *.
  assert (0 ≤ frame_of va ≤ va) as Hfv by (unfold frame_of; dlia). destruct (decide (mid ≤ va < hi)) as [Hhi|Hhi].
  - rewrite decide_False in H1v by lia. rewrite decide_True by lia. destruct H1v as [<- <-].
    assert (mid ≤ frame_of va) by (unfold frame_of; dlia). specialize (H1 (frame_of va) ltac:(lia)). cbv zeta in H1. rewrite decide_False in H1 by lia.
    destruct H1 as [<- <-]. exact H2v.
  - destruct H2v as [-> ->]. destruct (decide (lo ≤ va < mid)) as [Hlo|]; [rewrite decide_True by lia|rewrite decide_False by lia]; done.
Qed.

Lemma mprotect_loop_spec count : ∀ s vm_page page M k fuel own a i prot,
  prot_ok s vm_page page M k fuel own → 3 * Z.of_nat count ≤ fs_avail (msrc (m_mach s)) → 0 < a → a mod 0x1000 = 0 → 0 ≤ i →
  a + (i + Z.of_nat count) * 0x1000 ≤ 2 ^ 47 →
  swp (mprotect_loop NIL count fuel vm_page page a i (mprotect_flags prot)) s (λ _ s', ∃ own', prot_ok s' vm_page page M k fuel own' ∧
    protected M prot (a + i * 0x1000) (a + (i + Z.of_nat count) * 0x1000) page (mram (m_mach s)) (mram (m_mach s'))).
Proof.
  induction count as [|count IH]; intros s vm_page page M k fuel own a i prot Hok Hav Ha Haa Hi Hend; cbn [mprotect_loop].
  { apply swp_ret. exists own. split; [done|]. intros va Hva. by rewrite decide_False by lia. }
  assert (u64 (a + u64 (i * 0x1000)) = a + i * 0x1000) as ->.
  { unfold u64. rewrite (Z.mod_small (i * 0x1000)) by lia. apply Z.mod_small. lia. }
  apply swp_bind. eapply swp_mono; [apply (mprotect_page_spec s vm_page page M k fuel own); [done|lia|lia|dlia|lia]|].
  intros [] s1 (own1 & Hok1 & Hav1 & Hp1). eapply swp_mono; [apply (IH s1 vm_page page M k fuel own1 a (i + 1)); [done|lia|lia|done|lia|lia]|].
  intros [] s2 (own2 & Hok2 & Hp2). exists own2. split; [done|].
  replace (a + (i + 1) * 0x1000) with (a + i * 0x1000 + 0x1000) in Hp2 by lia.
  replace (a + (i + 1 + Z.of_nat count) * 0x1000) with (a + (i + Z.of_nat (Datatypes.S count)) * 0x1000) in Hp2 by lia.
  eapply protected_join; [| | | |exact Hp1|exact Hp2]; try lia; dlia.
Qed.

Definition with_flags (fl : Z) (v : virtual_memory) : virtual_memory :=
  mkVma (start_address v) (end_address v) (phys_address v) (vm_length v) fl (core v).

(** The map after the call: the area that holds [addr] has the new flags. *)
Definition reflagged (M : gmap Z virtual_memory) (addr fl : Z) (M' : gmap Z virtual_memory) : Prop :=
  (∃ a v, M !! a = Some v ∧ contains v addr ∧ M' = <[a := with_flags fl v]> M) ∨ (¬ occupied M addr ∧ M' = M).

Lemma prot_ok_reload s vm_page page M k fuel own :
  prot_ok s vm_page page M k fuel own → prot_ok (mkMms (m_vm s) (paging_reload (m_mach s) page) (m_fd s)) vm_page page M k fuel own.
Proof. intros []. split; try done. by apply tables_reload. Qed.

(** C9. [mprotect] by a thread of a process, on a range of user pages above the
    first, with windows and frames for new page tables: it returns 0. Every page
    of the range that has a frame, by its translation or, when it has none, by
    its area, leads to that frame afterwards if any access is asked for and
    nowhere if none is. The entry that maps it lets user code read, write and
    execute as asked, except that a page that was mapped copy-on-write stays so
    and is not writable. Pages without a frame and all addresses outside the
    range keep their translation and their access bits. The area that holds the
    first address gets the protection asked for, the others stay. The access bits
    are those of the entry that maps the page, not of the tables above it. *)
Theorem mprotect_correct s me vm_page page addr len prot M k fuel own :
  let a := addr / 4096 * 4096 in
  let n := (len + 4095) / 4096 in
  prot_ok s vm_page page M k fuel own → 4096 ≤ addr → 0 ≤ len → a + n * 4096 ≤ 2 ^ 47 → 3 * n ≤ fs_avail (msrc (m_mach s)) →
  ∃ s' M' fl own', syscall_mprotect NIL fuel (Some (Some (mkProc me vm_page page))) addr len prot s = Ok (0, s') ∧
    protected M prot a (a + n * 4096) page (mram (m_mach s)) (mram (m_mach s')) ∧
    reflagged M addr fl M' ∧ user_rights fl = asked prot ∧ Rep NIL fr unlocked k (m_vm s') vm_page M' ∧ tables own' (m_mach s') page.
Proof.
  intros a n Hok Haddr Hlen Hend Hav. assert (0 < a ∧ a mod 0x1000 = 0 ∧ 0 ≤ n ∧ addr < 2 ^ 47 + 4096 ∧ len ≤ 2 ^ 47) as (Ha & Haa & Hn & Hadd & Hll) by (unfold a, n in *; dlia).
  enough (swp (mprotect_process NIL fuel vm_page page addr len prot) s (λ r s', r = 0 ∧ ∃ M' own',
    protected M prot a (a + n * 4096) page (mram (m_mach s)) (mram (m_mach s')) ∧
    reflagged M addr (mprotect_flags prot) M' ∧ Rep NIL fr unlocked k (m_vm s') vm_page M' ∧ tables own' (m_mach s') page)) as Hw.
  { apply swp_elim in Hw as (r & s' & E & -> & M' & own' & H1 & H2 & H3). exists s', M', (mprotect_flags prot), own'.
    split; [exact E|]. split; [done|]. split; [done|]. split; [apply mprotect_flags_rights|done]. }
  unfold mprotect_process. assert (ALIGN_DOWN addr 0x1000 = a) as -> by (apply (ALIGN_DOWN_pow2 addr 12); lia).
  assert (ALIGN_UP len 0x1000 / 0x1000 = n) as ->.
  { assert (ALIGN_UP len 4096 = (len + 4095) / 4096 * 4096) as -> by (apply (ALIGN_UP_pow2 len 12); lia). by rewrite Z.div_mul. }
  apply swp_bind. eapply swp_mono; [apply (mprotect_loop_spec (Z.to_nat n) s vm_page page M k fuel own a 0); try done; rewrite ?Z2Nat.id by lia; lia|].
  intros [] s1 (own1 & Hok1 & Hp). rewrite Z2Nat.id, Z.mul_0_l, !Z.add_0_r, Z.add_0_l in Hp by lia.
  apply swp_bind. eapply swp_run_mach; [done|]. pose proof (prot_ok_reload _ _ _ _ _ _ _ Hok1) as [HR Hpg Hsep Hf _ Ht2 _].
  apply swp_bind, swp_on_vm. eapply swp_mono; [by apply (find_contains_put k)|]. intros p v' (HR' & Hcase). cbn [m_vm m_mach m_fd] in *.
  apply swp_bind. destruct Hcase as [(Hp0 & b & w & HM & Hw & Hcon & Hput)|(-> & Hno)].
  - rewrite (proj2 (Z.eqb_neq _ _) Hp0). cbn [negb sm_when]. apply swp_bind, swp_on_vm. unfold area_at, swp at 1. cbn [m_vm]. rewrite Hw.
    apply swp_on_vm. unfold put_area, swp at 1. apply swp_ret. split; [done|]. exists (<[b := with_flags (mprotect_flags prot) w]> M), own1.
    split; [exact Hp|]. split; [left; by exists b, w|]. split; [|exact Ht2]. by apply (Hput (with_flags (mprotect_flags prot) w)).
  - cbn [negb sm_when]. apply swp_ret, swp_ret. split; [done|]. exists M, own1. split; [exact Hp|]. split; [|by split].
    right. split; [|done]. intros (b & w & HM & Hcon). by apply (Hno b w).
Qed.
End prot.

(** The protection of the three areas of a process changed. *)
Module MprotDemo.
#[local] Instance no_files : FileOps () := {
  op_read _ _ _ x := (0, [], x); op_write _ bs _ x := (zlen bs, x); op_flush _ x := x; op_size _ _ := 0 }.

Definition state : Type := mms (S := pmm) (St := ()).
Definition start : state := mkMms demo_space demo_machine (mkFd [] ∅ ∅ () []).

Lemma mprot_start_ok : prot_ok 1 [] start 0x9000 0x1000 demo_map 3 9 demo_own.
Proof.
  split; [apply demo_rep|done|apply demo_separate|vm_compute; lia| |apply demo_tables|vm_compute; lia].
  intros a v [-> Hv]%demo_cases. destruct Hv as [->|[->| ->]]; repeat split; vm_compute; done.
Qed.

Definition me : option (option process) := Some (Some (mkProc 0 0x9000 0x1000)).

Lemma mprotect_correct_witness :
  ∃ s' M' fl own', syscall_mprotect 1 9 me 0x100001000 8000 PROT_READ start = Ok (0, s') ∧
    protected demo_map PROT_READ 0x100001000 (0x100001000 + 8192) 0x1000 (mram (m_mach start)) (mram (m_mach s')) ∧
    reflagged demo_map 0x100001000 fl M' ∧ user_rights fl = asked PROT_READ ∧ Rep 1 [] unlocked 3 (m_vm s') 0x9000 M' ∧
    tables own' (m_mach s') 0x1000.
Proof.
  apply (mprotect_correct 1 [] start 0 0x9000 0x1000 0x100001000 8000 PROT_READ demo_map 3 9 demo_own); [exact mprot_start_ok|lia|lia|vm_compute; discriminate|vm_compute; discriminate].
Defined.

Definition protect (addr len prot : Z) (s : state) : state :=
  match syscall_mprotect 1 9 me addr len prot s with Ok (_, s') => s' | _ => s end.
Definition page_at (s : state) (va : Z) : Z * rights := (xl 3 (mram (m_mach s)) 0x1000 va, user_rights (xa 3 (mram (m_mach s)) 0x1000 va)).

(** Read access maps the page by its area; no access takes it away again. *)
Example mprotect_on_off :
  let s1 := protect 0x100001000 8000 PROT_READ start in
  page_at s1 0x100001321 = (0x9321, mkRights true false false) ∧
  page_at (protect 0x100001000 8000 PROT_NONE s1) 0x100001321 = (0, mkRights false false false).
Proof. split; vm_compute; reflexivity. Qed.

(** A page mapped by the page tables alone. *)
Definition with_page (va phys fl : Z) : state :=
  match paging_mmap demo_machine 0x1000 va phys fl with Ok m => mkMms demo_space m (mkFd [] ∅ ∅ () []) | _ => start end.

(** A copy-on-write page is kept from being writable, but not when its access
    was taken away in between: the entry that says so is no longer present. *)
Definition shared : state := with_page 0x100001000 0x9000 (Z.lor (Z.lor PAGE_PRESENT PAGE_USER) PAGE_COW).
Definition PROT_RW : Z := Z.lor PROT_READ PROT_WRITE.

Example mprotect_forgets_cow :
  page_at (protect 0x100001000 4096 PROT_RW shared) 0x100001321 = (0x9321, mkRights true false false) ∧
  page_at (protect 0x100001000 4096 PROT_RW (protect 0x100001000 4096 PROT_NONE shared)) 0x100001321 = (0x9321, mkRights true true false).
Proof. split; vm_compute; reflexivity. Qed.

(** Every table on the way to a page lets user code through. *)
Fixpoint user_path (l : nat) (r : ram) (f va : Z) : bool :=
  let e := at_ (frame r f) (pt_index l va) in
  has e PAGE_PRESENT && has e PAGE_USER &&
  (is_leaf l e || match l with O => true | Datatypes.S l' => user_path l' r (Z.land e PAGE_PHYS_MASK) va end).

(** Taking the access to one page of a huge page away splits it, and the new
    table is closed to user code: the other pages of it are lost too. *)
Definition huge : state :=
  with_page 0x40000000 0x200000 (Z.lor (Z.lor (Z.lor PAGE_PRESENT PAGE_WRITABLE) PAGE_USER) PAGE_2MB).
Definition reach (s : state) (va : Z) : bool := user_path 3 (mram (m_mach s)) 0x1000 va.

Example mprotect_hides_neighbours :
  let s' := protect 0x40000000 4096 PROT_NONE huge in
  page_at huge 0x40001000 = (0x201000, mkRights true true true) ∧ page_at s' 0x40001000 = (0x201000, mkRights true true true) ∧
  reach huge 0x40001000 = true ∧ reach s' 0x40001000 = false.
Proof. split_and!; vm_compute; reflexivity. Qed.
End MprotDemo.
